(* ===== verification/_CoqProject ===== *)
-Q . S2P
Prelude.v
Instr.v
Decode.v
Compressed.v
Trap.v
Csr.v
Fp.v
Iss.v
IssExec.v
IssLogic.v
CoreInv.v
CoreSafe.v
CoreFp.v
CoreStep.v
IssInv.v
RamPlatform.v
IssValues.v
AluSpec.v
IssSafe.v
IssExecSafe.v
IssAlu.v
IssTraps.v
IssCsrProps.v
IssControl.v
IssRun.v
Memory.v
Bus.v
Mmu.v
MmuSpec.v
MmuTlb.v
MemIf.v
MemAccess.v
MemIfSafe.v
ClockSystem.v
MemIfDmi.v
MmuExample.v
MemoryMap.v
Clint.v
RealClint.v
IrqSearch.v
Plic.v
TlmMap.v
Uart.v
Slip.v
Fu540.v
ElfLoader.v
Dma.v
Sensor.v
Flash.v
Ethernet.v
Display.v
SmallDevices.v
Can.v
Gpio.v
Spi.v
Oled.v
GdbPacket.v
Gdb.v
GdbMem.v
GdbSched.v
GdbRun.v
DeviceSafe.v
Soc.v
SocSafe.v
Csr64.v
Iss64.v
IssExec64.v
IssInv64.v
IssSafe64.v
RamPlatform64.v
IssExecSafe64.v
IssAlu64.v
IssRun64.v
IssCsr64.v
MemIf64.v
MemIfSafe64.v
VirtualRun64.v
Syscall.v
