(* ===== verification/Prelude.v ===== *)
(** * A verification library for the RISC-V virtual prototype

    The program (under src/vp/src) simulates RISC-V platforms.  An instruction
    set simulator (core/rv32, core/rv64) fetches, decodes and executes
    instructions; it reaches memory through its memory interface with the MMU
    (core/common), a bus (platform/common/bus.h) routes transactions to memories
    and peripherals, and interrupt controllers raise the interrupt lines of the
    cores.  The simulation kernel (SystemC) switches between the processes of
    these modules when they wait.  This library models these parts and proves what
    makes each of them correct, alone and composed into a platform.

    ** Files

    Foundations.
    - [Prelude]: machine integers, the state-and-error monad, Hoare triples,
      hint databases and tactics.

    Instructions (core/common).
    - [Instr] (instr.h): instruction words, fields, immediates.
    - [Decode] (instr.cpp, decode_normal): the nested switch, and the mask and
      encoding tables it agrees with.
    - [Compressed] (instr.cpp, decode_and_expand_compressed): decoding and
      expansion of 16-bit instructions, against the RVC tables of the manual.

    The cores.
    - [Trap], [Csr], [Fp] (trap.h, irq_if.h, core_defs.h; core/rv32/csr.h;
      fp.h): trap causes and privilege levels; the CSR file with its fields and
      masks; NaN boxing and the floating-point registers.
    - [Iss] (core/rv32/iss.h, iss.cpp): struct ISS and its member functions
      except the interpreter: register file, CSR accesses, traps and
      interrupts, the bookkeeping after an instruction, the interfaces for the
      debugger, the system call emulator and the interrupt controllers.
    - [IssExec] (iss.cpp, exec_step, run_step, run): the interpreter; one
      definition per group of cases of its switch.
    - [IssLogic], [CoreInv], [CoreSafe], [CoreFp], [CoreStep]: a program logic for
      the operations of a core, the invariant and the contract of its environment
      for any register width, and the proofs both cores share.
    - [IssInv], [IssValues], [IssSafe], [IssExecSafe]: the 32-bit instance.
    - [RamPlatform]: a platform with a flat memory that fulfils the contract; the
      concrete inputs of the witnesses run on it.
    - [AluSpec], [IssAlu], [IssTraps], [IssCsrProps], [IssControl], [IssRun]: what
      the operations compute: arithmetic against unbounded integers, traps and
      interrupts against the privileged architecture, CSR accesses, control
      flow and floating point, and whole runs.
    - [Csr64], [Iss64], [IssExec64] (core/rv64/csr.h, iss.h, iss.cpp): the 64-bit
      core where its text differs; the functions with the same text are those of
      [Iss] and [IssExec].  [IssInv64], [IssSafe64], [RamPlatform64],
      [IssExecSafe64], [IssAlu64], [IssRun64], [IssCsr64]: as for the 32-bit core.

    Memory.
    - [Memory] (platform/common/memory.h, util.h, core/common/dmi.h): byte arrays
      of the host, transactions, memories and direct memory ranges.
    - [Bus] (bus.h, bus_lock_if.h): routing, and the bus lock.
    - [Mmu] (core/common/mmu.h): page table walk and TLB; [MmuSpec] and [MmuTlb]
      relate them to the translation the page tables define; [MmuExample] runs one.
    - [MemIf], [MemIf64] (core/rv32/mem.h, core/rv64/mem.h): the memory interface of
      a core.  [MemAccess], [MemIfSafe], [MemIfSafe64], [MemIfDmi]: its safety and
      its behaviour on directly accessible memory; [ClockSystem]: the smallest
      system behind it.
    - [ElfLoader] (elf_loader.h of core/common, rv32 and rv64, load_if.h).

    Peripherals.
    - [MemoryMap] (util/memory_map.h) and [TlmMap] (util/tlm_map.h): the two
      libraries of register ranges the devices are built on.
    - [Clint] (clint.h), [RealClint] (timer.h, timer.cpp, real_clint.h,
      real_clint.cpp; the clock of the host), [IrqSearch], [Plic] (fe310_plic.h),
      [Fu540] (fu540_plic.h, fu540_plic.cpp): the interrupt controllers.
    - [Uart] (abstract_uart.h, abstract_uart.cpp, uart.h, uart.cpp), [Slip]
      (slip.h, slip.cpp).
    - [Dma], [Sensor], [Flash], [Ethernet], [Display] (dma.h, sensor.h, sensor2.h,
      flash.h; ethernet.h, ethernet.cpp; display.hpp, display.cpp of platform/basic,
      the last with framebuffer.h of src/env/basic/vp-display).
    - [Can], [Gpio], [Spi], [Oled] (can.h, can.cpp; gpio.h, gpio.cpp and
      gpio/gpio-server.cpp; spi.h; oled.hpp, oled.cpp of platform/hifive).  Devices
      behind the SPI controller are instances of a class; the CAN controller is one.
    - [SmallDevices] (prci.h, aon.h, maskROM.h, otp.h; mram.h, random_source.h,
      basic_timer.h; uart16550.h; htif.h): devices of a few lines.
    - [DeviceSafe]: the rules for the safety of a device.

    Services of the host.
    - [GdbPacket] (response.c, util.c, parser2.c of core/common/gdb-mc/libgdb): the
      packets of the debugger protocol.  [Gdb] (debug_memory.cpp, gdb-mc): the
      debugger's server with its handlers; [GdbMem] its memory and register commands.
      [GdbSched] (gdb_runner.cpp): the processes that run the harts for it, and the
      waits; [GdbRun] the command that lets harts run.
    - [Syscall] (syscall.h, syscall.cpp of core/rv32 and core/rv64): the emulation
      of system calls; it is the field [execute_syscall] of a core's [platform].

    Platforms.
    - [Soc] (platform/basic/main.cpp): the 32-bit core, its memory interface, the
      bus with RAM, CLINT, PLIC and terminal, and the interrupt lines.  The other nine
      devices on the bus are in the library, each alone, but not part of this system:
      it ends with [NotModelled] where a program first accesses one of them.
    - [SocSafe], [VirtualRun64]: whole runs of the 32-bit core on that platform, and
      of the 64-bit core behind its memory interface with address translation.

    ** Conventions

    A C++ integer is the [Z] it denotes, and each conversion between integer
    types is written where the code has it ([uint32], [int32], ...).  Signed
    overflow, undefined in C++, is taken to wrap around, as the compilers the
    project uses make it for this code.  Assertions are those of a debug build.
    A SystemC time is an unbounded number of picoseconds; the 64-bit registers
    computed from it wrap around.

    A member function is a computation [M S E A] over the state it changes: it
    returns, throws the exception the program catches (SimulationTrap for a core,
    load_executable_exception for the loader), or fails ([Fatal]), and keeps the
    state in all three cases.  The failures are a failed assertion, an exception
    nobody catches, [UndefinedBehaviour] (an access outside of an array),
    [NullDereference], [Blocked], a wait that never ends, and [NotModelled], the end
    of the model.  After [UndefinedBehaviour] the program may go on in any way, and
    nothing is claimed of it.  What constructors leave uninitialised starts as zeros.

    A transaction object of the TLM standard is the record of the attributes the
    code uses, with its data as a list of bytes that the target may replace.  A
    pointer into host memory is a block of a heap with an offset, so that aliases
    of an array see each other's writes; a pointer to a register of a device is a
    value of the enumeration of its registers.

    Code that is not part of the repository, and what a module reaches through
    pointers, is a class of operations over the state, and a second class states
    the laws a theorem relies on: [softfloat] and [softfloat_ok], [platform] and
    [platform_ok] for a core, [system] and [system_safe] for a memory interface,
    and the classes with the names of their devices for the peripherals
    (clint_interface, uart_backend, tun, flash_interface, gdb_system, sys_host, ...).  Every class of
    laws has an instance, a bench on which the witnesses run, and [SocSafe]
    discharges those of the core with the modelled devices.

    Waiting gives other processes a turn: [Soc] takes the turns from an oracle,
    [schedule], and its theorems hold for every schedule; [GdbSched] takes them from a
    list that says whose turn it is, which may be any list.  The threads of the UART
    are a step relation, where a critical section of a mutex is one step.

    ** Theorems

    Safety: a step, and any number of steps, keep the invariant, let no trap
    escape and fail only when the platform does or the core is in the reserved
    privilege level ([run_safe], [run_safe64]); the accesses of the memory
    interface stay within host arrays ([memory_access_safe]); both composed with
    the bus, RAM, CLINT, PLIC and terminal ([basic_platform_safe], up to the first
    access to another device) and with address translation
    ([virtual_run_safe64]); the CSR instructions of supervisor and user code
    cannot change machine state ([csr_instruction_isolation]); the bus lock
    excludes ([lock_mutual_exclusion]).

    Refinement and equivalence: the decoder and its tables, the RVC expansion (but
    for three sets of words, which the theorem names), the integer instructions,
    interrupt selection, the page table walk and the TLB, claims of the PLIC of the
    FE310, the flash controller as an array, the two sensors.

    Function and round trips: traps and returns, jumps and branches, LR/SC, SLIP
    packets, the loader, DMA copies, CAN frames as they are on the bus (extended ones
    go out as others), claims of the PLIC of the FU540 (by priorities that are not
    those of the guest), Ethernet frames from memory to memory, bytes over SPI, the
    pictures of both displays (of lines that stay on the screen), the packets of the
    debugger, its memory commands, system calls.

    Progress: both CLINTs raise a timer interrupt when it is due, a PLIC delivers
    interrupts, the process of the GPIO raises one interrupt for an edge, the loop of
    the DMA controller ends, and a debugger that lets harts run is told of one that
    has stopped by itself, if one does and the scheduler is fair to the others.

    Errors: registers outside of pmpcfg; the other theorems state the errors of
    their operations with the rest.  More lemmas of the same kind, on CSR accesses,
    floating-point arithmetic, the reserved privilege level, loads after stores or
    the completion of interrupts, stand in the files of their components.

    ** Bounds

    [run_loop] bounds the iterations of the loop of run, which need not end;
    [run_loop_adequate] shows that the bound only matters when it is reached.
    The wait for the bus lock takes as many turns as the schedule needs to release
    it, [lock_wait_bound]; beyond them the wait is [Blocked].  The block loop of
    the DMA controller has as fuel the number of blocks of its length, the loop of
    write_memory of the debugger the number of its bytes; decimal numbers are printed
    with twenty digits, enough for 64 bits; the poll of the Ethernet device needs
    more fuel than frames it drops, and the straight lines of the display one more
    than the rows or columns of the screen, beyond which the model stops anyway.  The
    list of turns of [GdbSched] may have any length; its end is [Blocked].  The other
    fuels are stated in the files that have them.
    Every other function is total without a bound.

    ** Not modelled

    Output (tracing, name tables, messages, dumps of frames).  Host input and
    output: opening files, sockets, network and terminal devices, the terminal mode;
    the calls on them that a modelled device makes are operations of its class.  The
    parser of a debugger's command text, which is made from the combinators of a
    library outside of the repository (mpc), and the adapter to another simulator
    over HTTP (unreal.cpp), which is calls of two such libraries.  The platforms other
    than platform/basic: command lines, and the same components wired in another way.
    The graphical environment (src/env), the patched SystemC sources
    (src/vp/dependencies) and the guest programs (src/sw). *)

From Stdlib Require Export ZArith Lia Bool.
From stdpp Require Export base list gmap.

#[export] Set Default Proof Using "Type".

Declare Scope vp_scope.
Delimit Scope vp_scope with vp.
Global Open Scope Z_scope.
Global Open Scope vp_scope.

(** ** Machine integers

    A C++ integer object of width [w] is the [Z] it denotes; the conversions
    to an unsigned and to a (two's complement) signed type of width [w] are
    the two functions below. *)

Definition uint (w z : Z) : Z := z mod 2 ^ w.
Definition sint (w z : Z) : Z := (z + 2 ^ (w - 1)) mod 2 ^ w - 2 ^ (w - 1).

Definition uint8 : Z -> Z := uint 8.
Definition uint16 : Z -> Z := uint 16.
Definition uint32 : Z -> Z := uint 32.
Definition uint64 : Z -> Z := uint 64.
Definition int8 : Z -> Z := sint 8.
Definition int16 : Z -> Z := sint 16.
Definition int32 : Z -> Z := sint 32.
Definition int64 : Z -> Z := sint 64.

Definition is_uint (w z : Z) : Prop := 0 <= z < 2 ^ w.
Definition is_sint (w z : Z) : Prop := - 2 ^ (w - 1) <= z < 2 ^ (w - 1).

(** [b2z] is the C++ conversion from [bool] to an integer type. *)
Definition b2z (b : bool) : Z := if b then 1 else 0.

Notation "x .| y" := (Z.lor x y) (at level 50, left associativity) : vp_scope.
Notation "x .& y" := (Z.land x y) (at level 40, left associativity) : vp_scope.
Notation "x .^ y" := (Z.lxor x y) (at level 45, left associativity) : vp_scope.
Notation "x .<< y" := (Z.shiftl x y) (at level 34, left associativity) : vp_scope.
Notation "x .>> y" := (Z.shiftr x y) (at level 34, left associativity) : vp_scope.

(** The condition of an [if] on an integer expression. *)
Definition nonzero (z : Z) : bool := negb (z =? 0).

(** ** Computations with C++ exceptions

    A computation reads and writes a state and either returns, throws the
    exception the program itself catches (of type [E]), or fails in a way the
    program does not handle: a failed [assert], or a standard exception that
    unwinds to [main].  The state is kept in all three cases: what has been
    assigned before an exception is thrown stays assigned.  Three failures are
    not exceptions: an access outside of a host object, a call through a null
    pointer, and a SystemC process that waits for an event longer than a given
    bound. *)

Inductive failure : Type :=
  | AssertFailed
  | RuntimeError
  | OutOfRange
  | BadLexicalCast
  | InvalidArgument
  | UndefinedBehaviour
  | NullDereference
  | Blocked
  | NotModelled.

#[export] Instance failure_eq_dec : EqDecision failure.
Proof. solve_decision. Defined.

Inductive outcome (E A : Type) : Type :=
  | Ret (a : A)
  | Throw (e : E)
  | Fatal (f : failure).

Arguments Ret {E A} a.
Arguments Throw {E A} e.
Arguments Fatal {E A} f.

Definition M (S E A : Type) : Type := S -> outcome E A * S.

#[export] Instance M_ret {S E} : MRet (M S E) := fun A a s => (Ret a, s).

#[export] Instance M_bind {S E} : MBind (M S E) := fun A B k m s =>
  match m s with
  | (Ret a, s') => k a s'
  | (Throw e, s') => (Throw e, s')
  | (Fatal f, s') => (Fatal f, s')
  end.

Definition gets {S E A} (f : S -> A) : M S E A := fun s => (Ret (f s), s).
Definition modify {S E} (f : S -> S) : M S E unit := fun s => (Ret tt, f s).
Definition throw {S E A} (e : E) : M S E A := fun s => (Throw e, s).
Definition fatal {S E A} (f : failure) : M S E A := fun s => (Fatal f, s).
Definition skip {S E} : M S E unit := mret tt.

(** [assert(b)] of <assert.h>, in the debug builds the project uses, and
    [ensure(b)] of util/common.h. *)
Definition assert {S E} (b : bool) : M S E unit :=
  if b then skip else fatal AssertFailed.
Definition ensure {S E} (b : bool) : M S E unit :=
  if b then skip else fatal RuntimeError.
Definition when {S E} (b : bool) (m : M S E unit) : M S E unit :=
  if b then m else skip.

Definition try_catch {S E A} (m : M S E A) (h : E -> M S E A) : M S E A := fun s =>
  match m s with
  | (Throw e, s') => h e s'
  | r => r
  end.

(** [for (i = 0; i < n; ++i) body(i)] *)
Fixpoint for_each {S E A} (l : list A) (body : A -> M S E unit) : M S E unit :=
  match l with
  | [] => skip
  | x :: l' => body x ;; for_each l' body
  end.

(** ** Lemmas on machine integers *)

Lemma pow2_pos (w : Z) : 0 < 2 ^ w \/ w < 0.
Proof. destruct (Z_lt_le_dec w 0); [lia |]. left. apply Z.pow_pos_nonneg; lia. Qed.

Lemma pow2_split (w : Z) : 0 < w -> 2 ^ w = 2 * 2 ^ (w - 1).
Proof. intros. rewrite <- Z.pow_succ_r by lia. f_equal. lia. Qed.

Lemma uint_range (w z : Z) : 0 <= w -> is_uint w (uint w z).
Proof. intros. apply Z.mod_pos_bound. apply Z.pow_pos_nonneg; lia. Qed.

Lemma sint_range (w z : Z) : 0 < w -> is_sint w (sint w z).
Proof.
  intros. unfold is_sint, sint. pose proof (pow2_split w ltac:(lia)).
  pose proof (Z.mod_pos_bound (z + 2 ^ (w - 1)) (2 ^ w)).
  pose proof (Z.pow_pos_nonneg 2 w). lia.
Qed.

Lemma uint_id (w z : Z) : is_uint w z -> uint w z = z.
Proof. intros. by apply Z.mod_small. Qed.

Lemma sint_id (w z : Z) : 0 < w -> is_sint w z -> sint w z = z.
Proof.
  intros ? [??]. unfold sint. pose proof (pow2_split w ltac:(lia)).
  rewrite Z.mod_small; lia.
Qed.

Lemma uint_sint (w z : Z) : 0 < w -> uint w (sint w z) = uint w z.
Proof.
  intros. unfold uint, sint.
  rewrite <- (Z.add_simpl_r z (2 ^ (w - 1))) at 2.
  by rewrite Zminus_mod_idemp_l.
Qed.

Lemma sint_uint (w z : Z) : 0 < w -> sint w (uint w z) = sint w z.
Proof. intros. unfold uint, sint. by rewrite Zplus_mod_idemp_l. Qed.

Lemma uint_testbit (w z k : Z) :
  0 <= w -> 0 <= k -> Z.testbit (uint w z) k = (k <? w) && Z.testbit z k.
Proof.
  intros. unfold uint. destruct (Z.ltb_spec k w); simpl.
  - apply Z.mod_pow2_bits_low. lia.
  - apply Z.mod_pow2_bits_high. lia.
Qed.

Lemma sint_testbit (w z k : Z) :
  0 < w -> 0 <= k < w -> Z.testbit (sint w z) k = Z.testbit z k.
Proof.
  intros. rewrite <- (Z.mod_pow2_bits_low (sint w z) w k) by lia.
  rewrite <- (Z.mod_pow2_bits_low z w k) by lia.
  change (sint w z mod 2 ^ w) with (uint w (sint w z)).
  by rewrite uint_sint by lia.
Qed.

(** The bits of a value above its width: zeros, or copies of the sign. *)
Lemma is_uint_bits (w z : Z) :
  0 <= w -> is_uint w z <-> (forall k, w <= k -> Z.testbit z k = false).
Proof.
  intros Hw. split.
  - intros [??] k ?. rewrite <- (Z.mod_small z (2 ^ w)) by lia.
    by apply Z.mod_pow2_bits_high; lia.
  - intros Hk. replace z with (uint w z); [by apply uint_range |].
    apply Z.bits_inj'. intros k ?. rewrite uint_testbit by lia.
    destruct (Z.ltb_spec k w); [done |]. by rewrite Hk.
Qed.

Lemma is_sint_bits (w z : Z) :
  0 < w -> is_sint w z <-> (forall k, w - 1 <= k -> Z.testbit z k = Z.testbit z (w - 1)).
Proof.
  intros Hw. assert (Hp : 0 < 2 ^ (w - 1)) by (apply Z.pow_pos_nonneg; lia). split.
  - intros [??] k ?. destruct (Z_lt_le_dec z 0).
    + assert (Hu : is_uint (w - 1) (Z.lnot z)) by (unfold is_uint, Z.lnot; lia).
      rewrite is_uint_bits in Hu by lia.
      assert (Hz : forall j, w - 1 <= j -> Z.testbit z j = true).
      { intros j ?. specialize (Hu j ltac:(lia)). rewrite Z.lnot_spec in Hu by lia.
        by destruct (Z.testbit z j). }
      by rewrite !Hz by lia.
    + assert (Hu : is_uint (w - 1) z) by (unfold is_uint; lia).
      rewrite is_uint_bits in Hu by lia. by rewrite !Hu by lia.
  - intros Hk. destruct (Z.testbit z (w - 1)) eqn:Hs.
    + assert (Hu : is_uint (w - 1) (Z.lnot z)).
      { apply is_uint_bits; [lia |]. intros k ?. rewrite Z.lnot_spec by lia.
        by rewrite Hk by lia. }
      unfold is_uint, is_sint, Z.lnot in *. lia.
    + assert (Hu : is_uint (w - 1) z) by (apply is_uint_bits; [lia | auto]).
      unfold is_uint, is_sint in *. lia.
Qed.

Lemma uint_bits_inj (w x y : Z) :
  0 <= w -> is_uint w x -> is_uint w y ->
  (forall k, 0 <= k < w -> Z.testbit x k = Z.testbit y k) -> x = y.
Proof.
  intros Hw Hx Hy Hk. rewrite is_uint_bits in Hx, Hy by lia.
  apply Z.bits_inj'. intros k ?. destruct (Z_lt_le_dec k w); [by apply Hk |].
  by rewrite Hx, Hy.
Qed.

Lemma sint_bits_inj (w x y : Z) :
  0 < w -> is_sint w x -> is_sint w y ->
  (forall k, 0 <= k < w -> Z.testbit x k = Z.testbit y k) -> x = y.
Proof.
  intros Hw Hx Hy Hk. rewrite is_sint_bits in Hx, Hy by lia.
  apply Z.bits_inj'. intros k ?. destruct (Z_lt_le_dec k w); [by apply Hk |].
  rewrite (Hx k), (Hy k) by lia. apply Hk. lia.
Qed.

Lemma is_uint_land_l (w x y : Z) : 0 <= w -> is_uint w x -> is_uint w (Z.land x y).
Proof.
  intros ? Hx. rewrite is_uint_bits in * by lia. intros.
  by rewrite Z.land_spec, Hx.
Qed.

Lemma is_uint_land_r (w x y : Z) : 0 <= w -> is_uint w y -> is_uint w (Z.land x y).
Proof. rewrite Z.land_comm. apply is_uint_land_l. Qed.

Lemma is_uint_lor (w x y : Z) :
  0 <= w -> is_uint w x -> is_uint w y -> is_uint w (Z.lor x y).
Proof.
  intros ? Hx Hy. rewrite is_uint_bits in * by lia. intros.
  by rewrite Z.lor_spec, Hx, Hy.
Qed.

Lemma is_uint_lxor (w x y : Z) :
  0 <= w -> is_uint w x -> is_uint w y -> is_uint w (Z.lxor x y).
Proof.
  intros ? Hx Hy. rewrite is_uint_bits in * by lia. intros.
  by rewrite Z.lxor_spec, Hx, Hy.
Qed.

Lemma is_sint_land (w x y : Z) :
  0 < w -> is_sint w x -> is_sint w y -> is_sint w (Z.land x y).
Proof.
  intros ? Hx Hy. rewrite is_sint_bits in * by lia. intros.
  by rewrite !Z.land_spec, (Hx k), (Hy k).
Qed.

Lemma is_sint_lor (w x y : Z) :
  0 < w -> is_sint w x -> is_sint w y -> is_sint w (Z.lor x y).
Proof.
  intros ? Hx Hy. rewrite is_sint_bits in * by lia. intros.
  by rewrite !Z.lor_spec, (Hx k), (Hy k).
Qed.

Lemma is_sint_lxor (w x y : Z) :
  0 < w -> is_sint w x -> is_sint w y -> is_sint w (Z.lxor x y).
Proof.
  intros ? Hx Hy. rewrite is_sint_bits in * by lia. intros.
  by rewrite !Z.lxor_spec, (Hx k), (Hy k).
Qed.

Lemma is_sint_lnot (w x : Z) : is_sint w x -> is_sint w (Z.lnot x).
Proof. unfold is_sint, Z.lnot. lia. Qed.

Lemma is_sint_shiftr (w x n : Z) :
  0 < w -> 0 <= n -> is_sint w x -> is_sint w (Z.shiftr x n).
Proof.
  intros Hw Hn Hx. rewrite is_sint_bits in * by lia. intros.
  rewrite !Z.shiftr_spec by lia. rewrite (Hx (k + n)), (Hx (w - 1 + n)) by lia. done.
Qed.

Lemma is_uint_shiftr (w x n : Z) :
  0 <= w -> 0 <= n -> is_uint w x -> is_uint w (Z.shiftr x n).
Proof.
  intros Hw Hn Hx. rewrite is_uint_bits in * by lia. intros.
  rewrite Z.shiftr_spec by lia. apply Hx. lia.
Qed.

Lemma is_uint_weaken (w w' x : Z) : w <= w' -> is_uint w x -> is_uint w' x.
Proof.
  unfold is_uint. intros ? [??]. pose proof (Z.pow_le_mono_r 2 w w'). lia.
Qed.

Lemma is_uint_b2z (w : Z) (b : bool) : 0 < w -> is_uint w (b2z b).
Proof.
  intros. unfold is_uint. pose proof (Z.pow_gt_1 2 w). destruct b; simpl; lia.
Qed.

Lemma is_uint_shiftr_sub (w n x : Z) :
  0 <= n -> 0 <= w -> is_uint (w + n) x -> is_uint w (x .>> n).
Proof.
  intros ?? Hx. rewrite is_uint_bits in * by lia. intros k ?.
  rewrite Z.shiftr_spec by lia. apply Hx. lia.
Qed.

Lemma is_sint_shiftr_sub (w n x : Z) :
  0 <= n -> 0 < w -> is_sint (w + n) x -> is_sint w (x .>> n).
Proof.
  intros ?? Hx. rewrite is_sint_bits in * by lia. intros k ?.
  rewrite !Z.shiftr_spec by lia. rewrite Hx by lia. symmetry. apply Hx. lia.
Qed.

Lemma is_uint_shiftl_sub (w n x : Z) :
  0 <= n <= w -> is_uint (w - n) x -> is_uint w (x .<< n).
Proof.
  intros ? Hx. rewrite is_uint_bits in * by lia. intros k ?.
  rewrite Z.shiftl_spec by lia. apply Hx. lia.
Qed.

Lemma is_sint_shiftl_sub (w n x : Z) :
  0 <= n < w -> is_sint (w - n) x -> is_sint w (x .<< n).
Proof.
  intros ? Hx. rewrite is_sint_bits in * by lia. intros k ?.
  rewrite !Z.shiftl_spec by lia. rewrite Hx by lia. symmetry. apply Hx. lia.
Qed.

Lemma is_sint_weaken (w w' x : Z) : 0 < w <= w' -> is_sint w x -> is_sint w' x.
Proof.
  unfold is_sint. intros ? [??]. pose proof (Z.pow_le_mono_r 2 (w - 1) (w' - 1)). lia.
Qed.

Lemma is_sint_of_uint (w x : Z) : 0 < w -> is_uint (w - 1) x -> is_sint w x.
Proof.
  unfold is_uint, is_sint. intros ? [??].
  pose proof (Z.pow_nonneg 2 (w - 1)). lia.
Qed.

Lemma is_sint_literal (w z : Z) :
  (- 2 ^ (w - 1) <=? z) && (z <? 2 ^ (w - 1)) = true -> is_sint w z.
Proof. unfold is_sint. lia. Qed.

Lemma is_uint_literal (w z : Z) : (0 <=? z) && (z <? 2 ^ w) = true -> is_uint w z.
Proof. unfold is_uint. lia. Qed.

(** The range of an expression of the code, from the ranges of its parts. *)
Ltac range_step :=
  match goal with
  | |- is_uint ?w (?x .>> ?n) => apply (is_uint_shiftr_sub w n x); [lia | lia |]
  | |- is_uint ?w (?x .<< ?n) => apply (is_uint_shiftl_sub w n x); [lia |]
  | |- is_uint ?w (_ .| _) => apply is_uint_lor; [lia | |]
  | |- is_uint ?w (_ .& Zpos _) => apply is_uint_land_r; [lia |]
  | |- is_uint ?w (_ .& Zneg _) => apply is_uint_land_l; [lia |]
  | |- is_uint ?w (uint ?v _) => apply (is_uint_weaken v w); [lia | apply uint_range; lia]
  | |- is_uint ?w Z0 => apply is_uint_literal; reflexivity
  | |- is_uint ?w (Zpos _) => apply is_uint_literal; reflexivity
  | |- is_sint ?w (?x .>> ?n) => apply (is_sint_shiftr_sub w n x); [lia | lia |]
  | |- is_sint ?w (?x .<< ?n) => apply (is_sint_shiftl_sub w n x); [lia |]
  | |- is_sint ?w (_ .| _) => apply is_sint_lor; [lia | |]
  | |- is_sint ?w (_ .& Zpos _) => apply is_sint_of_uint; [lia | apply is_uint_land_r; [lia |]]
  | |- is_sint ?w (_ .& Zneg _) => apply is_sint_land; [lia | |]
  | |- is_sint ?w (sint ?v _) => apply (is_sint_weaken v w); [lia | apply sint_range; lia]
  | |- is_sint ?w (uint _ _) => apply is_sint_of_uint; [lia |]
  | |- is_sint ?w Z0 => apply is_sint_literal; reflexivity
  | |- is_sint ?w (Zpos _) => apply is_sint_literal; reflexivity
  | |- is_sint ?w (Zneg _) => apply is_sint_literal; reflexivity
  | H : is_sint ?v ?x |- is_sint ?w ?x => apply (is_sint_weaken v w); [lia | exact H]
  | H : is_uint ?v ?x |- is_uint ?w ?x => apply (is_uint_weaken v w); [lia | exact H]
  | H : is_uint _ ?x |- is_sint ?w ?x => apply is_sint_of_uint; [lia |]
  end.
Ltac range_tac := cbv [uint8 uint16 uint32 uint64 int8 int16 int32 int64]; repeat range_step.

(** ** Bit-by-bit proofs

    Two values of a machine type are equal as soon as they have the same bits
    below their width; at a fixed bit number every operation of the code
    reduces to boolean algebra over the bits of the variables. *)

Fixpoint all_below (n : nat) (P : Z -> Prop) : Prop :=
  match n with
  | O => True
  | S m => P (Z.of_nat m) /\ all_below m P
  end.

Lemma all_below_spec (n : nat) (P : Z -> Prop) :
  all_below n P -> forall k, 0 <= k < Z.of_nat n -> P k.
Proof.
  induction n as [|n IH]; simpl; [lia |]. intros [HP Hall] k ?.
  destruct (decide (k = Z.of_nat n)) as [->|]; [done |]. apply IH; [done | lia].
Qed.

Lemma sint_bits_below (n : nat) (x y : Z) :
  (0 < n)%nat -> is_sint (Z.of_nat n) x -> is_sint (Z.of_nat n) y ->
  all_below n (fun k => Z.testbit x k = Z.testbit y k) -> x = y.
Proof.
  intros ??? Hall. apply (sint_bits_inj (Z.of_nat n)); [lia | done | done |].
  by apply all_below_spec.
Qed.

Lemma uint_bits_below (n : nat) (x y : Z) :
  is_uint (Z.of_nat n) x -> is_uint (Z.of_nat n) y ->
  all_below n (fun k => Z.testbit x k = Z.testbit y k) -> x = y.
Proof.
  intros ?? Hall. apply (uint_bits_inj (Z.of_nat n)); [lia | done | done |].
  by apply all_below_spec.
Qed.

Lemma uint_testbit_low (w z k : Z) :
  0 <= k < w -> Z.testbit (uint w z) k = Z.testbit z k.
Proof. intros. rewrite uint_testbit by lia. by destruct (Z.ltb_spec k w); [|lia]. Qed.

Lemma uint_testbit_high (w z k : Z) :
  0 <= w <= k -> Z.testbit (uint w z) k = false.
Proof. intros. rewrite uint_testbit by lia. by destruct (Z.ltb_spec k w); [lia|]. Qed.

Lemma sint_testbit_high (w z k : Z) :
  0 < w <= k -> Z.testbit (sint w z) k = Z.testbit z (w - 1).
Proof.
  intros. pose proof (sint_range w z ltac:(lia)) as Hz. rewrite is_sint_bits in Hz by lia.
  rewrite Hz by lia. apply sint_testbit; lia.
Qed.

Lemma testbit_b2z_0 (b : bool) : Z.testbit (b2z b) 0 = b.
Proof. by destruct b. Qed.

Create Rewrite HintDb vp_bits.
#[export] Hint Rewrite Z.land_spec Z.lor_spec Z.lxor_spec Z.testbit_0_l testbit_b2z_0 : vp_bits.
#[export] Hint Rewrite Z.shiftr_spec Z.shiftl_spec Z.lnot_spec using lia : vp_bits.
#[export] Hint Rewrite sint_testbit uint_testbit_low uint_testbit_high sint_testbit_high using lia : vp_bits.

(** Evaluate the bit numbers and the bits of constants. *)
Ltac bit_literals :=
  repeat match goal with
  | |- context [Z.testbit ?a ?k] =>
      lazymatch k with
      | Z0 => fail | Zpos _ => fail | Zneg _ => fail
      | _ => let k' := eval vm_compute in k in
             lazymatch k' with
             | Z0 => idtac | Zpos _ => idtac | Zneg _ => idtac
             end;
             change (Z.testbit a k) with (Z.testbit a k')
      end
  | |- context [Z.testbit ?a (Zneg ?p)] => change (Z.testbit a (Zneg p)) with false
  | |- context [Z.testbit (Zpos ?p) ?k] =>
      let b := eval vm_compute in (Z.testbit (Zpos p) k) in
      change (Z.testbit (Zpos p) k) with b
  | |- context [Z.testbit (Zneg ?p) ?k] =>
      let b := eval vm_compute in (Z.testbit (Zneg p) k) in
      change (Z.testbit (Zneg p) k) with b
  | |- context [Z.testbit Z0 ?k] => change (Z.testbit Z0 k) with false
  end.

Ltac bit_simpl :=
  repeat (progress (autorewrite with vp_bits; bit_literals));
  rewrite ?andb_true_r, ?andb_false_r, ?orb_false_r, ?orb_true_r, ?orb_false_l,
    ?orb_true_l, ?andb_true_l, ?andb_false_l.

(** Close one goal about the bit [k] of two expressions, [k] a literal. *)
Ltac bit_tac :=
  bit_simpl; try reflexivity;
  repeat match goal with
  | |- context [Z.testbit ?a ?k] => destruct (Z.testbit a k); cbn [andb orb xorb negb]
  end; try reflexivity.

Ltac split_below tac :=
  cbn [all_below]; repeat (split; [tac |]); exact I.

(** Values of [n] bits are equal when their bits are. *)
Ltac ubits n :=
  apply (uint_bits_below n); [range_tac .. | split_below bit_tac].
Ltac sbits n :=
  apply (sint_bits_below n); [lia | range_tac | range_tac | split_below bit_tac].

(** ** Reasoning about computations *)

(** [triple P m Q QE QF]: run from a state in [P], the computation [m] returns
    in [Q], throws in [QE] or fails in [QF]. *)
Definition triple {S E A} (P : S -> Prop) (m : M S E A)
    (Q : A -> S -> Prop) (QE : E -> S -> Prop) (QF : failure -> S -> Prop) : Prop :=
  forall s, P s ->
    match m s with
    | (Ret a, s') => Q a s'
    | (Throw e, s') => QE e s'
    | (Fatal f, s') => QF f s'
    end.

Section triple.
Context {S E : Type}.

Lemma triple_ret {A} (P : S -> Prop) (a : A) (Q : A -> S -> Prop) (QE : E -> S -> Prop) QF :
  (forall s, P s -> Q a s) -> triple P (mret a) Q QE QF.
Proof. intros HQ s Hs. by apply HQ. Qed.

Lemma triple_bind {A B} (P : S -> Prop) (m : M S E A) (k : A -> M S E B) Qm Q QE QF :
  triple P m Qm QE QF -> (forall a, triple (Qm a) (k a) Q QE QF) ->
  triple P (m ≫= k) Q QE QF.
Proof.
  intros Hm Hk s Hs. unfold mbind, M_bind. specialize (Hm s Hs).
  destruct (m s) as [[a|e|f] s']; [by apply Hk | done | done].
Qed.

Lemma triple_conseq {A} (P P' : S -> Prop) (m : M S E A) Q Q' QE QE' QF QF' :
  triple P' m Q' QE' QF' -> (forall s, P s -> P' s) ->
  (forall a s, Q' a s -> Q a s) -> (forall e s, QE' e s -> QE e s) ->
  (forall f s, QF' f s -> QF f s) -> triple P m Q QE QF.
Proof.
  intros Hm HP HQ HE HF s Hs. specialize (Hm s (HP s Hs)).
  destruct (m s) as [[a|e|f] s']; auto.
Qed.

Lemma triple_try_catch {A} (P : S -> Prop) (m : M S E A) (h : E -> M S E A) Q QE QE' QF :
  triple P m Q QE' QF -> (forall e, triple (QE' e) (h e) Q QE QF) ->
  triple P (try_catch m h) Q QE QF.
Proof.
  intros Hm Hh s Hs. unfold try_catch. specialize (Hm s Hs).
  destruct (m s) as [[a|e|f] s']; [done | by apply Hh | done].
Qed.
End triple.

(** [nothrow m]: the computation [m] throws no exception from any state. *)
Definition nothrow {S E A} (m : M S E A) : Prop := forall s e s', m s <> (Throw e, s').

Section nothrow.
Context {S E : Type}.

Lemma nothrow_ret {A} (a : A) : nothrow (S := S) (E := E) (mret a).
Proof. by intros s e s'. Qed.
Lemma nothrow_bind {A B} (m : M S E A) (k : A -> M S E B) :
  nothrow m -> (forall a, nothrow (k a)) -> nothrow (m ≫= k).
Proof.
  intros Hm Hk s e s'. unfold mbind, M_bind.
  destruct (m s) as [[a|e'|f] s1] eqn:Em; [by apply Hk | | done].
  intros [= -> ->]. by apply (Hm _ _ _ Em).
Qed.
Lemma nothrow_gets {A} (f : S -> A) : nothrow (E := E) (gets f).
Proof. by intros s e s'. Qed.
Lemma nothrow_modify (f : S -> S) : nothrow (E := E) (modify f).
Proof. by intros s e s'. Qed.
Lemma nothrow_fatal {A} (f : failure) : nothrow (S := S) (E := E) (A := A) (fatal f).
Proof. by intros s e s'. Qed.
Lemma nothrow_assert (b : bool) : nothrow (S := S) (E := E) (assert b).
Proof. by intros s e s'; destruct b. Qed.
Lemma nothrow_when (b : bool) (m : M S E unit) : nothrow m -> nothrow (when b m).
Proof. intros. destruct b; [done | apply nothrow_ret]. Qed.
Lemma nothrow_try_catch {A} (m : M S E A) (h : E -> M S E A) :
  (forall e, nothrow (h e)) -> nothrow (try_catch m h).
Proof.
  intros Hh s e s'. unfold try_catch. destruct (m s) as [[a|e'|f] s1]; [done | by apply Hh | done].
Qed.
End nothrow.

Create HintDb vp_nothrow.
#[export] Hint Resolve nothrow_ret nothrow_gets nothrow_modify nothrow_fatal nothrow_assert
  : vp_nothrow.

Ltac nothrow_step :=
  lazymatch goal with
  | |- nothrow (mbind _ _) => apply nothrow_bind; [| intro]
  | |- nothrow (when _ _) => apply nothrow_when
  | |- nothrow (if ?b then _ else _) => destruct b
  | |- nothrow (match ?x with _ => _ end) => destruct x
  | |- nothrow _ => solve [auto with vp_nothrow nocore]
  end.
Ltac nothrow_tac := cbv zeta; repeat nothrow_step.
