(* ===== verification/Instr.v ===== *)
(** * The instruction word: fields, immediates and opcode constants

    Models core/common/instr.h: the enumerations of [namespace Opcode], the
    bit-extraction macros and the accessors of [struct Instruction], whose only
    member is the signed 32-bit word [instr].  An [Instruction] is the [Z]
    denoted by that member. *)

From S2P Require Import Prelude.

(** ** Opcode constants (enum Opcode::Parts) *)

Definition OP_LUI : Z := 0x37.
Definition OP_AUIPC : Z := 0x17.
Definition OP_JAL : Z := 0x6f.
Definition OP_JALR : Z := 0x67.
Definition F3_JALR : Z := 0x0.
Definition OP_LB : Z := 0x3.
Definition F3_LB : Z := 0x0.
Definition F3_LH : Z := 0x1.
Definition F3_LW : Z := 0x2.
Definition F3_LBU : Z := 0x4.
Definition F3_LHU : Z := 0x5.
Definition F3_LWU : Z := 0x6.
Definition F3_LD : Z := 0x3.
Definition OP_SB : Z := 0x23.
Definition F3_SB : Z := 0x0.
Definition F3_SH : Z := 0x1.
Definition F3_SW : Z := 0x2.
Definition F3_SD : Z := 0x3.
Definition OP_BEQ : Z := 0x63.
Definition F3_BEQ : Z := 0x0.
Definition F3_BNE : Z := 0x1.
Definition F3_BLT : Z := 0x4.
Definition F3_BGE : Z := 0x5.
Definition F3_BLTU : Z := 0x6.
Definition F3_BGEU : Z := 0x7.
Definition OP_ADDI : Z := 0x13.
Definition F3_ADDI : Z := 0x0.
Definition F3_SLTI : Z := 0x2.
Definition F3_SLTIU : Z := 0x3.
Definition F3_XORI : Z := 0x4.
Definition F3_ORI : Z := 0x6.
Definition F3_ANDI : Z := 0x7.
Definition F3_SLLI : Z := 0x1.
Definition F3_SRLI : Z := 0x5.
Definition F7_SRLI : Z := 0x0.
Definition F7_SRAI : Z := 0x20.
Definition F6_SRLI : Z := 0x0.
Definition F6_SRAI : Z := 0x10.
Definition OP_ADD : Z := 0x33.
Definition F3_ADD : Z := 0x0.
Definition F7_ADD : Z := 0x0.
Definition F3_SUB : Z := 0x0.
Definition F7_SUB : Z := 0x20.
Definition F3_SLL : Z := 0x1.
Definition F3_SLT : Z := 0x2.
Definition F3_SLTU : Z := 0x3.
Definition F3_XOR : Z := 0x4.
Definition F3_SRL : Z := 0x5.
Definition F3_SRA : Z := 0x5.
Definition F3_OR : Z := 0x6.
Definition F3_AND : Z := 0x7.
Definition F3_MUL : Z := 0x0.
Definition F7_MUL : Z := 0x1.
Definition F3_MULH : Z := 0x1.
Definition F3_MULHSU : Z := 0x2.
Definition F3_MULHU : Z := 0x3.
Definition F3_DIV : Z := 0x4.
Definition F3_DIVU : Z := 0x5.
Definition F3_REM : Z := 0x6.
Definition F3_REMU : Z := 0x7.
Definition OP_FENCE : Z := 0xf.
Definition F3_FENCE : Z := 0x0.
Definition F3_FENCE_I : Z := 0x1.
Definition OP_ECALL : Z := 0x73.
Definition F3_SYS : Z := 0x0.
Definition F12_ECALL : Z := 0x0.
Definition F12_EBREAK : Z := 0x1.
Definition F12_URET : Z := 0x2.
Definition F12_SRET : Z := 0x102.
Definition F12_MRET : Z := 0x302.
Definition F12_WFI : Z := 0x105.
Definition F7_SFENCE_VMA : Z := 0x9.
Definition F3_CSRRW : Z := 0x1.
Definition F3_CSRRS : Z := 0x2.
Definition F3_CSRRC : Z := 0x3.
Definition F3_CSRRWI : Z := 0x5.
Definition F3_CSRRSI : Z := 0x6.
Definition F3_CSRRCI : Z := 0x7.
Definition OP_AMO : Z := 0x2f.
Definition F5_LR_W : Z := 0x2.
Definition F5_SC_W : Z := 0x3.
Definition F5_AMOSWAP_W : Z := 0x1.
Definition F5_AMOADD_W : Z := 0x0.
Definition F5_AMOXOR_W : Z := 0x4.
Definition F5_AMOAND_W : Z := 0xc.
Definition F5_AMOOR_W : Z := 0x8.
Definition F5_AMOMIN_W : Z := 0x10.
Definition F5_AMOMAX_W : Z := 0x14.
Definition F5_AMOMINU_W : Z := 0x18.
Definition F5_AMOMAXU_W : Z := 0x1c.
Definition F3_AMO_W : Z := 0x2.
Definition F3_AMO_D : Z := 0x3.
Definition OP_ADDIW : Z := 0x1b.
Definition F3_ADDIW : Z := 0x0.
Definition F3_SLLIW : Z := 0x1.
Definition F3_SRLIW : Z := 0x5.
Definition F7_SRLIW : Z := 0x0.
Definition F7_SRAIW : Z := 0x20.
Definition OP_ADDW : Z := 0x3b.
Definition F3_ADDW : Z := 0x0.
Definition F7_ADDW : Z := 0x0.
Definition F3_SUBW : Z := 0x0.
Definition F7_SUBW : Z := 0x20.
Definition F3_SLLW : Z := 0x1.
Definition F3_SRLW : Z := 0x5.
Definition F7_SRLW : Z := 0x0.
Definition F3_SRAW : Z := 0x5.
Definition F7_SRAW : Z := 0x20.
Definition F7_MULW : Z := 0x1.
Definition F3_MULW : Z := 0x0.
Definition F3_DIVW : Z := 0x4.
Definition F3_DIVUW : Z := 0x5.
Definition F3_REMW : Z := 0x6.
Definition F3_REMUW : Z := 0x7.
Definition OP_FMADD_S : Z := 0x43.
Definition F2_FMADD_S : Z := 0x0.
Definition F2_FMADD_D : Z := 0x1.
Definition OP_FADD_S : Z := 0x53.
Definition F7_FADD_S : Z := 0x0.
Definition F7_FADD_D : Z := 0x1.
Definition F7_FSUB_S : Z := 0x4.
Definition F7_FSUB_D : Z := 0x5.
Definition F7_FCVT_D_S : Z := 0x21.
Definition F7_FMUL_S : Z := 0x8.
Definition F7_FMUL_D : Z := 0x9.
Definition F7_FDIV_S : Z := 0xc.
Definition F7_FDIV_D : Z := 0xd.
Definition F7_FLE_S : Z := 0x50.
Definition F3_FLE_S : Z := 0x0.
Definition F3_FLT_S : Z := 0x1.
Definition F3_FEQ_S : Z := 0x2.
Definition F7_FSGNJ_D : Z := 0x11.
Definition F3_FSGNJ_D : Z := 0x0.
Definition F3_FSGNJN_D : Z := 0x1.
Definition F3_FSGNJX_D : Z := 0x2.
Definition F7_FMIN_S : Z := 0x14.
Definition F3_FMIN_S : Z := 0x0.
Definition F3_FMAX_S : Z := 0x1.
Definition F7_FMIN_D : Z := 0x15.
Definition F3_FMIN_D : Z := 0x0.
Definition F3_FMAX_D : Z := 0x1.
Definition F7_FCVT_S_D : Z := 0x20.
Definition F7_FSGNJ_S : Z := 0x10.
Definition F3_FSGNJ_S : Z := 0x0.
Definition F3_FSGNJN_S : Z := 0x1.
Definition F3_FSGNJX_S : Z := 0x2.
Definition F7_FLE_D : Z := 0x51.
Definition F3_FLE_D : Z := 0x0.
Definition F3_FLT_D : Z := 0x1.
Definition F3_FEQ_D : Z := 0x2.
Definition F7_FCVT_S_W : Z := 0x68.
Definition RS2_FCVT_S_W : Z := 0x0.
Definition RS2_FCVT_S_WU : Z := 0x1.
Definition RS2_FCVT_S_L : Z := 0x2.
Definition RS2_FCVT_S_LU : Z := 0x3.
Definition F7_FCVT_D_W : Z := 0x69.
Definition RS2_FCVT_D_W : Z := 0x0.
Definition RS2_FCVT_D_WU : Z := 0x1.
Definition RS2_FCVT_D_L : Z := 0x2.
Definition RS2_FCVT_D_LU : Z := 0x3.
Definition F7_FCVT_W_D : Z := 0x61.
Definition RS2_FCVT_W_D : Z := 0x0.
Definition RS2_FCVT_WU_D : Z := 0x1.
Definition RS2_FCVT_L_D : Z := 0x2.
Definition RS2_FCVT_LU_D : Z := 0x3.
Definition F7_FSQRT_S : Z := 0x2c.
Definition F7_FSQRT_D : Z := 0x2d.
Definition F7_FCVT_W_S : Z := 0x60.
Definition RS2_FCVT_W_S : Z := 0x0.
Definition RS2_FCVT_WU_S : Z := 0x1.
Definition RS2_FCVT_L_S : Z := 0x2.
Definition RS2_FCVT_LU_S : Z := 0x3.
Definition F7_FMV_X_W : Z := 0x70.
Definition F3_FMV_X_W : Z := 0x0.
Definition F3_FCLASS_S : Z := 0x1.
Definition F7_FMV_X_D : Z := 0x71.
Definition F3_FMV_X_D : Z := 0x0.
Definition F3_FCLASS_D : Z := 0x1.
Definition F7_FMV_W_X : Z := 0x78.
Definition F7_FMV_D_X : Z := 0x79.
Definition OP_FLW : Z := 0x7.
Definition F3_FLW : Z := 0x2.
Definition F3_FLD : Z := 0x3.
Definition OP_FSW : Z := 0x27.
Definition F3_FSW : Z := 0x2.
Definition F3_FSD : Z := 0x3.
Definition OP_FMSUB_S : Z := 0x47.
Definition F2_FMSUB_S : Z := 0x0.
Definition F2_FMSUB_D : Z := 0x1.
Definition OP_FNMSUB_S : Z := 0x4b.
Definition F2_FNMSUB_S : Z := 0x0.
Definition F2_FNMSUB_D : Z := 0x1.
Definition OP_FNMADD_S : Z := 0x4f.
Definition F2_FNMADD_S : Z := 0x0.
Definition F2_FNMADD_D : Z := 0x1.
Definition OP_CUST1 : Z := 0x2b.
Definition OP_CUST0 : Z := 0xb.

(** ** The instructions (enum Opcode::Mapping) *)

Inductive Mapping : Set :=
  | UNDEF | LUI | AUIPC | JAL | JALR | BEQ | BNE | BLT | BGE | BLTU | BGEU | LB | LH
  | LW | LBU | LHU | SB | SH | SW | ADDI | SLTI | SLTIU | XORI | ORI | ANDI | SLLI
  | SRLI | SRAI | ADD | SUB | SLL | SLT | SLTU | XOR | SRL | SRA | OR | AND | FENCE
  | ECALL | EBREAK | FENCE_I | CSRRW | CSRRS | CSRRC | CSRRWI | CSRRSI | CSRRCI | MUL
  | MULH | MULHSU | MULHU | DIV | DIVU | REM | REMU | LR_W | SC_W | AMOSWAP_W | AMOADD_W
  | AMOXOR_W | AMOAND_W | AMOOR_W | AMOMIN_W | AMOMAX_W | AMOMINU_W | AMOMAXU_W | LWU
  | LD | SD | ADDIW | SLLIW | SRLIW | SRAIW | ADDW | SUBW | SLLW | SRLW | SRAW | MULW
  | DIVW | DIVUW | REMW | REMUW | LR_D | SC_D | AMOSWAP_D | AMOADD_D | AMOXOR_D
  | AMOAND_D | AMOOR_D | AMOMIN_D | AMOMAX_D | AMOMINU_D | AMOMAXU_D | FLW | FSW
  | FMADD_S | FMSUB_S | FNMADD_S | FNMSUB_S | FADD_S | FSUB_S | FMUL_S | FDIV_S
  | FSQRT_S | FSGNJ_S | FSGNJN_S | FSGNJX_S | FMIN_S | FMAX_S | FCVT_W_S | FCVT_WU_S
  | FMV_X_W | FEQ_S | FLT_S | FLE_S | FCLASS_S | FCVT_S_W | FCVT_S_WU | FMV_W_X
  | FCVT_L_S | FCVT_LU_S | FCVT_S_L | FCVT_S_LU | FLD | FSD | FMADD_D | FMSUB_D
  | FNMSUB_D | FNMADD_D | FADD_D | FSUB_D | FMUL_D | FDIV_D | FSQRT_D | FSGNJ_D
  | FSGNJN_D | FSGNJX_D | FMIN_D | FMAX_D | FCVT_S_D | FCVT_D_S | FEQ_D | FLT_D | FLE_D
  | FCLASS_D | FCVT_W_D | FCVT_WU_D | FCVT_D_W | FCVT_D_WU | FCVT_L_D | FCVT_LU_D
  | FMV_X_D | FCVT_D_L | FCVT_D_LU | FMV_D_X | URET | SRET | MRET | WFI | SFENCE_VMA.

(** The enumerators in their order, which is the order of their values. *)
Definition all_mappings : list Mapping :=
  [ UNDEF; LUI; AUIPC; JAL; JALR; BEQ; BNE; BLT; BGE; BLTU; BGEU; LB; LH; LW; LBU; LHU;
    SB; SH; SW; ADDI; SLTI; SLTIU; XORI; ORI; ANDI; SLLI; SRLI; SRAI; ADD; SUB; SLL; SLT;
    SLTU; XOR; SRL; SRA; OR; AND; FENCE; ECALL; EBREAK; FENCE_I; CSRRW; CSRRS; CSRRC;
    CSRRWI; CSRRSI; CSRRCI; MUL; MULH; MULHSU; MULHU; DIV; DIVU; REM; REMU; LR_W; SC_W;
    AMOSWAP_W; AMOADD_W; AMOXOR_W; AMOAND_W; AMOOR_W; AMOMIN_W; AMOMAX_W; AMOMINU_W;
    AMOMAXU_W; LWU; LD; SD; ADDIW; SLLIW; SRLIW; SRAIW; ADDW; SUBW; SLLW; SRLW; SRAW;
    MULW; DIVW; DIVUW; REMW; REMUW; LR_D; SC_D; AMOSWAP_D; AMOADD_D; AMOXOR_D; AMOAND_D;
    AMOOR_D; AMOMIN_D; AMOMAX_D; AMOMINU_D; AMOMAXU_D; FLW; FSW; FMADD_S; FMSUB_S;
    FNMADD_S; FNMSUB_S; FADD_S; FSUB_S; FMUL_S; FDIV_S; FSQRT_S; FSGNJ_S; FSGNJN_S;
    FSGNJX_S; FMIN_S; FMAX_S; FCVT_W_S; FCVT_WU_S; FMV_X_W; FEQ_S; FLT_S; FLE_S;
    FCLASS_S; FCVT_S_W; FCVT_S_WU; FMV_W_X; FCVT_L_S; FCVT_LU_S; FCVT_S_L; FCVT_S_LU;
    FLD; FSD; FMADD_D; FMSUB_D; FNMSUB_D; FNMADD_D; FADD_D; FSUB_D; FMUL_D; FDIV_D;
    FSQRT_D; FSGNJ_D; FSGNJN_D; FSGNJX_D; FMIN_D; FMAX_D; FCVT_S_D; FCVT_D_S; FEQ_D;
    FLT_D; FLE_D; FCLASS_D; FCVT_W_D; FCVT_WU_D; FCVT_D_W; FCVT_D_WU; FCVT_L_D;
    FCVT_LU_D; FMV_X_D; FCVT_D_L; FCVT_D_LU; FMV_D_X; URET; SRET; MRET; WFI; SFENCE_VMA ].

Definition Mapping_value (m : Mapping) : nat :=
  match m with
  | UNDEF => 0 | LUI => 1 | AUIPC => 2 | JAL => 3 | JALR => 4 | BEQ => 5 | BNE => 6
  | BLT => 7 | BGE => 8 | BLTU => 9 | BGEU => 10 | LB => 11 | LH => 12 | LW => 13
  | LBU => 14 | LHU => 15 | SB => 16 | SH => 17 | SW => 18 | ADDI => 19 | SLTI => 20
  | SLTIU => 21 | XORI => 22 | ORI => 23 | ANDI => 24 | SLLI => 25 | SRLI => 26
  | SRAI => 27 | ADD => 28 | SUB => 29 | SLL => 30 | SLT => 31 | SLTU => 32 | XOR => 33
  | SRL => 34 | SRA => 35 | OR => 36 | AND => 37 | FENCE => 38 | ECALL => 39
  | EBREAK => 40 | FENCE_I => 41 | CSRRW => 42 | CSRRS => 43 | CSRRC => 44
  | CSRRWI => 45 | CSRRSI => 46 | CSRRCI => 47 | MUL => 48 | MULH => 49 | MULHSU => 50
  | MULHU => 51 | DIV => 52 | DIVU => 53 | REM => 54 | REMU => 55 | LR_W => 56
  | SC_W => 57 | AMOSWAP_W => 58 | AMOADD_W => 59 | AMOXOR_W => 60 | AMOAND_W => 61
  | AMOOR_W => 62 | AMOMIN_W => 63 | AMOMAX_W => 64 | AMOMINU_W => 65 | AMOMAXU_W => 66
  | LWU => 67 | LD => 68 | SD => 69 | ADDIW => 70 | SLLIW => 71 | SRLIW => 72
  | SRAIW => 73 | ADDW => 74 | SUBW => 75 | SLLW => 76 | SRLW => 77 | SRAW => 78
  | MULW => 79 | DIVW => 80 | DIVUW => 81 | REMW => 82 | REMUW => 83 | LR_D => 84
  | SC_D => 85 | AMOSWAP_D => 86 | AMOADD_D => 87 | AMOXOR_D => 88 | AMOAND_D => 89
  | AMOOR_D => 90 | AMOMIN_D => 91 | AMOMAX_D => 92 | AMOMINU_D => 93 | AMOMAXU_D => 94
  | FLW => 95 | FSW => 96 | FMADD_S => 97 | FMSUB_S => 98 | FNMADD_S => 99
  | FNMSUB_S => 100 | FADD_S => 101 | FSUB_S => 102 | FMUL_S => 103 | FDIV_S => 104
  | FSQRT_S => 105 | FSGNJ_S => 106 | FSGNJN_S => 107 | FSGNJX_S => 108 | FMIN_S => 109
  | FMAX_S => 110 | FCVT_W_S => 111 | FCVT_WU_S => 112 | FMV_X_W => 113 | FEQ_S => 114
  | FLT_S => 115 | FLE_S => 116 | FCLASS_S => 117 | FCVT_S_W => 118 | FCVT_S_WU => 119
  | FMV_W_X => 120 | FCVT_L_S => 121 | FCVT_LU_S => 122 | FCVT_S_L => 123
  | FCVT_S_LU => 124 | FLD => 125 | FSD => 126 | FMADD_D => 127 | FMSUB_D => 128
  | FNMSUB_D => 129 | FNMADD_D => 130 | FADD_D => 131 | FSUB_D => 132 | FMUL_D => 133
  | FDIV_D => 134 | FSQRT_D => 135 | FSGNJ_D => 136 | FSGNJN_D => 137 | FSGNJX_D => 138
  | FMIN_D => 139 | FMAX_D => 140 | FCVT_S_D => 141 | FCVT_D_S => 142 | FEQ_D => 143
  | FLT_D => 144 | FLE_D => 145 | FCLASS_D => 146 | FCVT_W_D => 147 | FCVT_WU_D => 148
  | FCVT_D_W => 149 | FCVT_D_WU => 150 | FCVT_L_D => 151 | FCVT_LU_D => 152
  | FMV_X_D => 153 | FCVT_D_L => 154 | FCVT_D_LU => 155 | FMV_D_X => 156 | URET => 157
  | SRET => 158 | MRET => 159 | WFI => 160 | SFENCE_VMA => 161
  end%nat.

Definition NUMBER_OF_INSTRUCTIONS : nat := length all_mappings.

Lemma all_mappings_value (m : Mapping) : all_mappings !! Mapping_value m = Some m.
Proof. by destruct m. Qed.

#[export] Instance Mapping_eq_dec : EqDecision Mapping.
Proof.
  intros x y. destruct (decide (Mapping_value x = Mapping_value y)) as [H|H].
  - left. pose proof (all_mappings_value x) as Hx. rewrite H, all_mappings_value in Hx. congruence.
  - right. congruence.
Defined.

(** The instruction formats (enum class Opcode::Type). *)
Module OpType.
Inductive t : Set := UNKNOWN | R | I | S | B | U | J | R4.
End OpType.

(** enum Architecture of core_defs.h *)
Inductive Architecture : Set := RV32 | RV64 | RV128.

#[export] Instance Architecture_eq_dec : EqDecision Architecture.
Proof. solve_decision. Defined.

(** ** Bit extraction macros

    The masks are C++ [int] expressions, hence the [int32]: the mask of a range
    that includes bit 31 is negative and sign-extends to wider operands. *)

Definition BIT_RANGE (instr upper lower : Z) : Z :=
  Z.land instr (int32 (Z.shiftl (int32 (Z.shiftl 1 (upper - lower + 1) - 1)) lower)).
Definition BIT_SLICE (instr upper lower : Z) : Z :=
  Z.shiftr (BIT_RANGE instr upper lower) lower.
Definition BIT_SINGLE (instr pos : Z) : Z := Z.land instr (int32 (Z.shiftl 1 pos)).
Definition BIT_SINGLE_P1 (instr pos : Z) : Z := Z.shiftr (BIT_SINGLE instr pos) pos.
Definition BIT_SINGLE_PN (instr pos new_pos : Z) : Z :=
  Z.shiftl (Z.shiftr (BIT_SINGLE instr pos) pos) new_pos.
Definition EXTRACT_SIGN_BIT (instr pos new_pos : Z) : Z :=
  Z.shiftr (int32 (Z.shiftl (BIT_SINGLE_P1 instr pos) 31)) (31 - new_pos).

(** ** struct Instruction *)

Definition Instruction : Type := Z.

(** [Instruction(uint32_t instr)]: the word is kept as a signed integer. *)
Definition mk_Instruction (instr : Z) : Instruction := int32 instr.

Definition quadrant (instr : Instruction) : Z := Z.land instr 0x3.
Definition is_compressed (instr : Instruction) : bool := quadrant instr <? 3.
Definition c_format (instr : Instruction) : Z := Z.land instr 0xffff.
Definition c_opcode (instr : Instruction) : Z := BIT_SLICE instr 15 13.
Definition c_b12 (instr : Instruction) : Z := BIT_SINGLE_P1 instr 12.

Definition funct2 (instr : Instruction) : Z := Z.shiftr (BIT_RANGE instr 26 25) 25.
Definition funct3 (instr : Instruction) : Z := Z.shiftr (BIT_RANGE instr 14 12) 12.
Definition funct12 (instr : Instruction) : Z := Z.shiftr (BIT_RANGE (uint32 instr) 31 20) 20.
Definition funct7 (instr : Instruction) : Z := Z.shiftr (BIT_RANGE (uint32 instr) 31 25) 25.
Definition funct6 (instr : Instruction) : Z := Z.shiftr (BIT_RANGE (uint32 instr) 31 26) 26.
Definition funct5 (instr : Instruction) : Z := Z.shiftr (BIT_RANGE (uint32 instr) 31 27) 27.
Definition opcode (instr : Instruction) : Z := BIT_RANGE instr 6 0.

Definition rs1 (instr : Instruction) : Z := Z.shiftr (BIT_RANGE instr 19 15) 15.
Definition rs2 (instr : Instruction) : Z := Z.shiftr (BIT_RANGE instr 24 20) 20.
Definition rs3 (instr : Instruction) : Z := Z.shiftr (BIT_RANGE (uint32 instr) 31 27) 27.
Definition rd (instr : Instruction) : Z := Z.shiftr (BIT_RANGE instr 11 7) 7.

Definition c_rd (instr : Instruction) : Z := rd instr.
Definition c_rd_small (instr : Instruction) : Z := Z.lor (BIT_SLICE instr 9 7) 8.
Definition c_rs2_small (instr : Instruction) : Z := Z.lor (BIT_SLICE instr 4 2) 8.
Definition c_rs2 (instr : Instruction) : Z := BIT_SLICE instr 6 2.
Definition c_imm (instr : Instruction) : Z :=
  uint32 (Z.lor (BIT_SLICE instr 6 2) (EXTRACT_SIGN_BIT instr 12 5)).
Definition c_uimm (instr : Instruction) : Z :=
  Z.lor (BIT_SLICE instr 6 2) (Z.shiftl (BIT_SINGLE_P1 instr 12) 5).
Definition c_f2_high (instr : Instruction) : Z := BIT_SLICE instr 11 10.
Definition c_f2_low (instr : Instruction) : Z := BIT_SLICE instr 6 5.

Definition csr (instr : Instruction) : Z := Z.shiftr (BIT_RANGE (uint32 instr) 31 20) 20.
Definition zimm (instr : Instruction) : Z := Z.shiftr (BIT_RANGE instr 19 15) 15.
Definition shamt (instr : Instruction) : Z := Z.shiftr (BIT_RANGE instr 25 20) 20.
Definition shamt_w (instr : Instruction) : Z := Z.shiftr (BIT_RANGE instr 24 20) 20.
Definition frm (instr : Instruction) : Z := BIT_SLICE instr 14 12.
Definition fence_succ (instr : Instruction) : Z := BIT_SLICE instr 23 20.
Definition fence_pred (instr : Instruction) : Z := BIT_SLICE instr 27 24.
Definition fence_fm (instr : Instruction) : Z := uint32 (BIT_SLICE instr 31 28).
Definition aq (instr : Instruction) : bool := nonzero (BIT_SINGLE instr 26).
Definition rl (instr : Instruction) : bool := nonzero (BIT_SINGLE instr 25).

(** The immediates; the sign comes from the arithmetic right shifts. *)
Definition J_imm (instr : Instruction) : Z :=
  Z.lor (Z.lor (Z.lor (Z.shiftr (BIT_SINGLE instr 31) 11) (BIT_RANGE instr 19 12))
    (Z.shiftr (BIT_SINGLE instr 20) 9)) (Z.shiftr (BIT_RANGE instr 30 21) 20).
Definition I_imm (instr : Instruction) : Z := Z.shiftr (BIT_RANGE instr 31 20) 20.
Definition S_imm (instr : Instruction) : Z :=
  Z.lor (Z.shiftr (BIT_RANGE instr 31 25) 20) (Z.shiftr (BIT_RANGE instr 11 7) 7).
Definition B_imm (instr : Instruction) : Z :=
  Z.lor (Z.lor (Z.lor (Z.shiftr (BIT_SINGLE instr 31) 19) (Z.shiftl (BIT_SINGLE instr 7) 4))
    (Z.shiftr (BIT_RANGE instr 30 25) 20)) (Z.shiftr (BIT_RANGE instr 11 8) 7).
Definition U_imm (instr : Instruction) : Z := BIT_RANGE instr 31 12.

Definition data (instr : Instruction) : Z := uint32 instr.

(** The notation [inst\[hi:lo\]] of the ISA manual, placed at bit [to]: the
    reference the accessors above are compared with. *)
Definition bits (h hi lo to : Z) : Z := uint (hi - lo + 1) (h .>> lo) .<< to.

(** Opcode::getType of instr.cpp *)
Definition getType (mapping : Mapping) : OpType.t :=
  match mapping with
  | SLLI | SRLI | SRAI | ADD | SUB | SLL | SLT | SLTU | XOR | SRL | SRA | OR | AND
  | MUL | MULH | MULHSU | MULHU | DIV | DIVU | REM | REMU | ADDW | SUBW | SLLW
  | SRLW | SRAW | MULW | DIVW | DIVUW | REMW | REMUW | LR_W | SC_W | AMOSWAP_W
  | AMOADD_W | AMOXOR_W | AMOAND_W | AMOOR_W | AMOMIN_W | AMOMAX_W | AMOMINU_W
  | AMOMAXU_W | LR_D | SC_D | AMOSWAP_D | AMOADD_D | AMOXOR_D | AMOAND_D | AMOOR_D
  | AMOMIN_D | AMOMAX_D | AMOMINU_D | AMOMAXU_D | FADD_S | FSUB_S | FMUL_S | FDIV_S
  | FSQRT_S | FSGNJ_S | FSGNJN_S | FSGNJX_S | FMIN_S | FMAX_S | FCVT_W_S | FCVT_WU_S
  | FMV_X_W | FEQ_S | FLT_S | FLE_S | FCLASS_S | FCVT_S_W | FCVT_S_WU | FMV_W_X
  | FCVT_L_S | FCVT_LU_S | FCVT_S_L | FCVT_S_LU | FADD_D | FSUB_D | FMUL_D | FDIV_D
  | FSQRT_D | FSGNJ_D | FSGNJN_D | FSGNJX_D | FMIN_D | FMAX_D | FCVT_S_D | FCVT_D_S
  | FEQ_D | FLT_D | FLE_D | FCLASS_D | FCVT_W_D | FCVT_WU_D | FCVT_D_W | FCVT_D_WU
  | FCVT_L_D | FCVT_LU_D | FMV_X_D | FCVT_D_L | FCVT_D_LU | FMV_D_X => OpType.R
  | JALR | LB | LH | LW | LD | LBU | LHU | LWU | ADDI | SLTI | SLTIU | XORI | ORI
  | ANDI | ADDIW | SLLIW | SRLIW | SRAIW | FLW | FLD => OpType.I
  | SB | SH | SW | SD | FSW | FSD => OpType.S
  | BEQ | BNE | BLT | BGE | BLTU | BGEU => OpType.B
  | LUI | AUIPC => OpType.U
  | JAL => OpType.J
  | FMADD_S | FMSUB_S | FNMSUB_S | FNMADD_S | FMADD_D | FMSUB_D | FNMSUB_D
  | FNMADD_D => OpType.R4
  | _ => OpType.UNKNOWN
  end.

(** ** The fields are the ones of the ISA manual *)

(** Evaluate the masks of the macros, which are closed expressions. *)
Ltac mask e := let v := eval vm_compute in e in change e with v.
Ltac masks :=
  unfold EXTRACT_SIGN_BIT, BIT_SINGLE_P1, BIT_SINGLE_PN, BIT_SLICE, BIT_SINGLE, BIT_RANGE;
  repeat match goal with
  | |- context [int32 (Z.shiftl (Zpos ?p) ?n)] => mask (int32 (Z.shiftl (Zpos p) n))
  | |- context [int32 (Z.shiftl (int32 (Z.shiftl (Zpos ?p) ?m - Zpos ?q)) ?n)] =>
      mask (int32 (Z.shiftl (int32 (Z.shiftl (Zpos p) m - Zpos q)) n))
  end.
Tactic Notation "field_tac" constr(F) tactic3(t) :=
  intros; unfold F, mk_Instruction, bits; masks; cbv [uint32 int32]; t.

Lemma rd_bits i : rd i = bits i 11 7 0.
Proof. field_tac rd (ubits 5%nat). Qed.
Lemma rs1_bits i : rs1 i = bits i 19 15 0.
Proof. field_tac rs1 (ubits 5%nat). Qed.
Lemma rs2_bits i : rs2 i = bits i 24 20 0.
Proof. field_tac rs2 (ubits 5%nat). Qed.
Lemma shamt_bits i : shamt i = bits i 25 20 0.
Proof. field_tac shamt (ubits 6%nat). Qed.
Lemma I_imm_bits i : is_sint 32 i -> I_imm i = sint 12 (bits i 31 20 0).
Proof. field_tac I_imm (sbits 12%nat). Qed.
Lemma S_imm_bits i : is_sint 32 i -> S_imm i = sint 12 (bits i 31 25 5 .| bits i 11 7 0).
Proof. field_tac S_imm (sbits 12%nat). Qed.
Lemma B_imm_bits i : is_sint 32 i ->
  B_imm i = sint 13 (bits i 31 31 12 .| bits i 7 7 11 .| bits i 30 25 5 .| bits i 11 8 1).
Proof. field_tac B_imm (sbits 13%nat). Qed.
Lemma U_imm_bits i : is_sint 32 i -> U_imm i = sint 32 (bits i 31 12 12).
Proof. field_tac U_imm (sbits 32%nat). Qed.
Lemma J_imm_bits i : is_sint 32 i ->
  J_imm i = sint 21 (bits i 31 31 20 .| bits i 19 12 12 .| bits i 20 20 11 .| bits i 30 21 1).
Proof. field_tac J_imm (sbits 21%nat). Qed.

Lemma c_opcode_bits i : c_opcode i = bits i 15 13 0.
Proof. field_tac c_opcode (ubits 3%nat). Qed.
Lemma c_format_bits i : c_format i = bits i 15 0 0.
Proof. field_tac c_format (ubits 16%nat). Qed.
Lemma quadrant_bits i : quadrant i = bits i 1 0 0.
Proof. field_tac quadrant (ubits 2%nat). Qed.
Lemma c_b12_bits i : c_b12 i = bits i 12 12 0.
Proof. field_tac c_b12 (ubits 1%nat). Qed.
Lemma c_rd_bits i : c_rd i = bits i 11 7 0.
Proof. apply rd_bits. Qed.
Lemma c_rd_small_bits i : c_rd_small i = 8 .| bits i 9 7 0.
Proof. field_tac c_rd_small (ubits 4%nat). Qed.
Lemma c_rs2_small_bits i : c_rs2_small i = 8 .| bits i 4 2 0.
Proof. field_tac c_rs2_small (ubits 4%nat). Qed.
Lemma c_rs2_bits i : c_rs2 i = bits i 6 2 0.
Proof. field_tac c_rs2 (ubits 5%nat). Qed.
Lemma c_uimm_bits i : c_uimm i = bits i 12 12 5 .| bits i 6 2 0.
Proof. field_tac c_uimm (ubits 6%nat). Qed.
Lemma c_imm_bits i : int32 (c_imm i) = sint 6 (bits i 12 12 5 .| bits i 6 2 0).
Proof. field_tac c_imm (sbits 32%nat). Qed.
Lemma c_f2_high_bits i : c_f2_high i = bits i 11 10 0.
Proof. field_tac c_f2_high (ubits 2%nat). Qed.
Lemma c_f2_low_bits i : c_f2_low i = bits i 6 5 0.
Proof. field_tac c_f2_low (ubits 2%nat). Qed.

(** For every 32-bit word, the register fields and the immediate of each of
    the I, S, B, U and J formats that the accessors extract with the bit macros
    and arithmetic shifts are the fields of the ISA manual: the bits of the
    word at the places the manual gives, sign-extended. *)
Theorem instruction_fields (w : Z) :
  let i := mk_Instruction w in
  rd i = bits w 11 7 0 /\ rs1 i = bits w 19 15 0 /\ rs2 i = bits w 24 20 0 /\
  rs3 i = bits w 31 27 0 /\ csr i = bits w 31 20 0 /\
  I_imm i = sint 12 (bits w 31 20 0) /\
  S_imm i = sint 12 (bits w 31 25 5 .| bits w 11 7 0) /\
  B_imm i = sint 13 (bits w 31 31 12 .| bits w 7 7 11 .| bits w 30 25 5 .| bits w 11 8 1) /\
  U_imm i = sint 32 (bits w 31 12 12) /\
  J_imm i = sint 21 (bits w 31 31 20 .| bits w 19 12 12 .| bits w 20 20 11 .| bits w 30 21 1).
Proof.
  cbv zeta. repeat split.
  - field_tac rd (ubits 5%nat).
  - field_tac rs1 (ubits 5%nat).
  - field_tac rs2 (ubits 5%nat).
  - field_tac rs3 (ubits 5%nat).
  - field_tac csr (ubits 12%nat).
  - field_tac I_imm (sbits 12%nat).
  - field_tac S_imm (sbits 12%nat).
  - field_tac B_imm (sbits 13%nat).
  - field_tac U_imm (sbits 32%nat).
  - field_tac J_imm (sbits 21%nat).
Qed.
