(* ===== verification/Decode.v ===== *)
(** * The decoder of uncompressed instructions

    Models the encoding table and [Instruction::decode_normal] of
    core/common/instr.cpp (lines 8-349 and 1349-1898), and proves the nested
    [switch] equivalent to a search of the table. *)

From S2P Require Import Prelude Instr.

(** ** The encoding table

    [X_MASK], [X_ENCODING] of the source are the pair listed for [X]. *)

Definition pattern : Type := Z * Z.
Definition pattern_mask (p : pattern) : Z := p.1.
Definition pattern_encoding (p : pattern) : Z := p.2.

Definition encoding_rv32 (m : Mapping) : option pattern :=
  match m with
  | LUI => Some (0x0000007f, 0x00000037)
  | AUIPC => Some (0x0000007f, 0x00000017)
  | JAL => Some (0x0000007f, 0x0000006f)
  | JALR => Some (0x0000707f, 0x00000067)
  | BEQ => Some (0x0000707f, 0x00000063)
  | BNE => Some (0x0000707f, 0x00001063)
  | BLT => Some (0x0000707f, 0x00004063)
  | BGE => Some (0x0000707f, 0x00005063)
  | BLTU => Some (0x0000707f, 0x00006063)
  | BGEU => Some (0x0000707f, 0x00007063)
  | LB => Some (0x0000707f, 0x00000003)
  | LH => Some (0x0000707f, 0x00001003)
  | LW => Some (0x0000707f, 0x00002003)
  | LBU => Some (0x0000707f, 0x00004003)
  | LHU => Some (0x0000707f, 0x00005003)
  | SB => Some (0x0000707f, 0x00000023)
  | SH => Some (0x0000707f, 0x00001023)
  | SW => Some (0x0000707f, 0x00002023)
  | ADDI => Some (0x0000707f, 0x00000013)
  | SLTI => Some (0x0000707f, 0x00002013)
  | SLTIU => Some (0x0000707f, 0x00003013)
  | XORI => Some (0x0000707f, 0x00004013)
  | ORI => Some (0x0000707f, 0x00006013)
  | ANDI => Some (0x0000707f, 0x00007013)
  | SLLI => Some (0xfc00707f, 0x00001013)
  | SRLI => Some (0xfc00707f, 0x00005013)
  | SRAI => Some (0xfc00707f, 0x40005013)
  | ADD => Some (0xfe00707f, 0x00000033)
  | SUB => Some (0xfe00707f, 0x40000033)
  | SLL => Some (0xfe00707f, 0x00001033)
  | SLT => Some (0xfe00707f, 0x00002033)
  | SLTU => Some (0xfe00707f, 0x00003033)
  | XOR => Some (0xfe00707f, 0x00004033)
  | SRL => Some (0xfe00707f, 0x00005033)
  | SRA => Some (0xfe00707f, 0x40005033)
  | OR => Some (0xfe00707f, 0x00006033)
  | AND => Some (0xfe00707f, 0x00007033)
  | FENCE => Some (0x0000707f, 0x0000000f)
  | FENCE_I => Some (0x0000707f, 0x0000100f)
  | ECALL => Some (0xffffffff, 0x00000073)
  | EBREAK => Some (0xffffffff, 0x00100073)
  | CSRRW => Some (0x0000707f, 0x00001073)
  | CSRRS => Some (0x0000707f, 0x00002073)
  | CSRRC => Some (0x0000707f, 0x00003073)
  | CSRRWI => Some (0x0000707f, 0x00005073)
  | CSRRSI => Some (0x0000707f, 0x00006073)
  | CSRRCI => Some (0x0000707f, 0x00007073)
  | MUL => Some (0xfe00707f, 0x02000033)
  | MULH => Some (0xfe00707f, 0x02001033)
  | MULHSU => Some (0xfe00707f, 0x02002033)
  | MULHU => Some (0xfe00707f, 0x02003033)
  | DIV => Some (0xfe00707f, 0x02004033)
  | DIVU => Some (0xfe00707f, 0x02005033)
  | REM => Some (0xfe00707f, 0x02006033)
  | REMU => Some (0xfe00707f, 0x02007033)
  | LR_W => Some (0xf9f0707f, 0x1000202f)
  | SC_W => Some (0xf800707f, 0x1800202f)
  | AMOSWAP_W => Some (0xf800707f, 0x0800202f)
  | AMOADD_W => Some (0xf800707f, 0x0000202f)
  | AMOXOR_W => Some (0xf800707f, 0x2000202f)
  | AMOAND_W => Some (0xf800707f, 0x6000202f)
  | AMOOR_W => Some (0xf800707f, 0x4000202f)
  | AMOMIN_W => Some (0xf800707f, 0x8000202f)
  | AMOMAX_W => Some (0xf800707f, 0xa000202f)
  | AMOMINU_W => Some (0xf800707f, 0xc000202f)
  | AMOMAXU_W => Some (0xf800707f, 0xe000202f)
  | URET => Some (0xffffffff, 0x00200073)
  | SRET => Some (0xffffffff, 0x10200073)
  | MRET => Some (0xffffffff, 0x30200073)
  | WFI => Some (0xffffffff, 0x10500073)
  | SFENCE_VMA => Some (0xfe007fff, 0x12000073)
  | _ => None
  end.

Definition encoding_rv64 (m : Mapping) : option pattern :=
  match m with
  | LWU => Some (0x0000707f, 0x00006003)
  | LD => Some (0x0000707f, 0x00003003)
  | SD => Some (0x0000707f, 0x00003023)
  | ADDIW => Some (0x0000707f, 0x0000001b)
  | SLLIW => Some (0xfe00707f, 0x0000101b)
  | SRLIW => Some (0xfe00707f, 0x0000501b)
  | SRAIW => Some (0xfe00707f, 0x4000501b)
  | ADDW => Some (0xfe00707f, 0x0000003b)
  | SUBW => Some (0xfe00707f, 0x4000003b)
  | SLLW => Some (0xfe00707f, 0x0000103b)
  | SRLW => Some (0xfe00707f, 0x0000503b)
  | SRAW => Some (0xfe00707f, 0x4000503b)
  | MULW => Some (0xfe00707f, 0x0200003b)
  | DIVW => Some (0xfe00707f, 0x0200403b)
  | DIVUW => Some (0xfe00707f, 0x0200503b)
  | REMW => Some (0xfe00707f, 0x0200603b)
  | REMUW => Some (0xfe00707f, 0x0200703b)
  | LR_D => Some (0xf9f0707f, 0x1000302f)
  | SC_D => Some (0xf800707f, 0x1800302f)
  | AMOSWAP_D => Some (0xf800707f, 0x0800302f)
  | AMOADD_D => Some (0xf800707f, 0x0000302f)
  | AMOXOR_D => Some (0xf800707f, 0x2000302f)
  | AMOAND_D => Some (0xf800707f, 0x6000302f)
  | AMOOR_D => Some (0xf800707f, 0x4000302f)
  | AMOMIN_D => Some (0xf800707f, 0x8000302f)
  | AMOMAX_D => Some (0xf800707f, 0xa000302f)
  | AMOMINU_D => Some (0xf800707f, 0xc000302f)
  | AMOMAXU_D => Some (0xf800707f, 0xe000302f)
  | _ => None
  end.

Definition encoding_fp (m : Mapping) : option pattern :=
  match m with
  | FLW => Some (0x0000707f, 0x00002007)
  | FSW => Some (0x0000707f, 0x00002027)
  | FMADD_S => Some (0x0600007f, 0x00000043)
  | FMSUB_S => Some (0x0600007f, 0x00000047)
  | FNMADD_S => Some (0x0600007f, 0x0000004f)
  | FNMSUB_S => Some (0x0600007f, 0x0000004b)
  | FADD_S => Some (0xfe00007f, 0x00000053)
  | FSUB_S => Some (0xfe00007f, 0x08000053)
  | FMUL_S => Some (0xfe00007f, 0x10000053)
  | FDIV_S => Some (0xfe00007f, 0x18000053)
  | FSQRT_S => Some (0xfff0007f, 0x58000053)
  | FSGNJ_S => Some (0xfe00707f, 0x20000053)
  | FSGNJN_S => Some (0xfe00707f, 0x20001053)
  | FSGNJX_S => Some (0xfe00707f, 0x20002053)
  | FMIN_S => Some (0xfe00707f, 0x28000053)
  | FMAX_S => Some (0xfe00707f, 0x28001053)
  | FCVT_W_S => Some (0xfff0007f, 0xc0000053)
  | FCVT_WU_S => Some (0xfff0007f, 0xc0100053)
  | FMV_X_W => Some (0xfff0707f, 0xe0000053)
  | FEQ_S => Some (0xfe00707f, 0xa0002053)
  | FLT_S => Some (0xfe00707f, 0xa0001053)
  | FLE_S => Some (0xfe00707f, 0xa0000053)
  | FCLASS_S => Some (0xfff0707f, 0xe0001053)
  | FCVT_S_W => Some (0xfff0007f, 0xd0000053)
  | FCVT_S_WU => Some (0xfff0007f, 0xd0100053)
  | FMV_W_X => Some (0xfff0707f, 0xf0000053)
  | FCVT_L_S => Some (0xfff0007f, 0xc0200053)
  | FCVT_LU_S => Some (0xfff0007f, 0xc0300053)
  | FCVT_S_L => Some (0xfff0007f, 0xd0200053)
  | FCVT_S_LU => Some (0xfff0007f, 0xd0300053)
  | FLD => Some (0x0000707f, 0x00003007)
  | FSD => Some (0x0000707f, 0x00003027)
  | FMADD_D => Some (0x0600007f, 0x02000043)
  | FMSUB_D => Some (0x0600007f, 0x02000047)
  | FNMSUB_D => Some (0x0600007f, 0x0200004b)
  | FNMADD_D => Some (0x0600007f, 0x0200004f)
  | FADD_D => Some (0xfe00007f, 0x02000053)
  | FSUB_D => Some (0xfe00007f, 0x0a000053)
  | FMUL_D => Some (0xfe00007f, 0x12000053)
  | FDIV_D => Some (0xfe00007f, 0x1a000053)
  | FSQRT_D => Some (0xfff0007f, 0x5a000053)
  | FSGNJ_D => Some (0xfe00707f, 0x22000053)
  | FSGNJN_D => Some (0xfe00707f, 0x22001053)
  | FSGNJX_D => Some (0xfe00707f, 0x22002053)
  | FMIN_D => Some (0xfe00707f, 0x2a000053)
  | FMAX_D => Some (0xfe00707f, 0x2a001053)
  | FCVT_S_D => Some (0xfff0007f, 0x40100053)
  | FCVT_D_S => Some (0xfff0007f, 0x42000053)
  | FEQ_D => Some (0xfe00707f, 0xa2002053)
  | FLT_D => Some (0xfe00707f, 0xa2001053)
  | FLE_D => Some (0xfe00707f, 0xa2000053)
  | FCLASS_D => Some (0xfff0707f, 0xe2001053)
  | FCVT_W_D => Some (0xfff0007f, 0xc2000053)
  | FCVT_WU_D => Some (0xfff0007f, 0xc2100053)
  | FCVT_D_W => Some (0xfff0007f, 0xd2000053)
  | FCVT_D_WU => Some (0xfff0007f, 0xd2100053)
  | FCVT_L_D => Some (0xfff0007f, 0xc2200053)
  | FCVT_LU_D => Some (0xfff0007f, 0xc2300053)
  | FMV_X_D => Some (0xfff0707f, 0xe2000053)
  | FCVT_D_L => Some (0xfff0007f, 0xd2200053)
  | FCVT_D_LU => Some (0xfff0007f, 0xd2300053)
  | FMV_D_X => Some (0xfff0707f, 0xf2000053)
  | _ => None
  end.

Definition SLLI_32 : pattern := (0xfe00707f, 0x00001013).
Definition SRLI_32 : pattern := (0xfe00707f, 0x00005013).
Definition SRAI_32 : pattern := (0xfe00707f, 0x40005013).

Definition encoding_of (m : Mapping) : option pattern :=
  match encoding_rv32 m with
  | Some p => Some p
  | None => match encoding_rv64 m with Some p => Some p | None => encoding_fp m end
  end.

(** ** The decoder *)

Definition MATCH_AND_RETURN_INSTR2 (instr : Instruction) (p : pattern) (result : Mapping) : Mapping :=
  if negb (Z.land (data instr) (pattern_mask p) =? pattern_encoding p) then UNDEF else result.

Definition MATCH_AND_RETURN_INSTR (instr : Instruction) (m : Mapping) : Mapping :=
  match encoding_of m with
  | Some p => MATCH_AND_RETURN_INSTR2 instr p m
  | None => UNDEF
  end.

Definition decode_OP_BEQ (instr : Instruction) : Mapping :=
  if funct3 instr =? F3_BEQ then MATCH_AND_RETURN_INSTR instr BEQ
  else if funct3 instr =? F3_BNE then MATCH_AND_RETURN_INSTR instr BNE
  else if funct3 instr =? F3_BLT then MATCH_AND_RETURN_INSTR instr BLT
  else if funct3 instr =? F3_BGE then MATCH_AND_RETURN_INSTR instr BGE
  else if funct3 instr =? F3_BLTU then MATCH_AND_RETURN_INSTR instr BLTU
  else if funct3 instr =? F3_BGEU then MATCH_AND_RETURN_INSTR instr BGEU
  else UNDEF.

Definition decode_OP_LB (instr : Instruction) : Mapping :=
  if funct3 instr =? F3_LB then MATCH_AND_RETURN_INSTR instr LB
  else if funct3 instr =? F3_LH then MATCH_AND_RETURN_INSTR instr LH
  else if funct3 instr =? F3_LW then MATCH_AND_RETURN_INSTR instr LW
  else if funct3 instr =? F3_LBU then MATCH_AND_RETURN_INSTR instr LBU
  else if funct3 instr =? F3_LHU then MATCH_AND_RETURN_INSTR instr LHU
  else if funct3 instr =? F3_LWU then MATCH_AND_RETURN_INSTR instr LWU
  else if funct3 instr =? F3_LD then MATCH_AND_RETURN_INSTR instr LD
  else UNDEF.

Definition decode_OP_SB (instr : Instruction) : Mapping :=
  if funct3 instr =? F3_SB then MATCH_AND_RETURN_INSTR instr SB
  else if funct3 instr =? F3_SH then MATCH_AND_RETURN_INSTR instr SH
  else if funct3 instr =? F3_SW then MATCH_AND_RETURN_INSTR instr SW
  else if funct3 instr =? F3_SD then MATCH_AND_RETURN_INSTR instr SD
  else UNDEF.

Definition decode_OP_ADDI (arch : Architecture) (instr : Instruction) : Mapping :=
  if funct3 instr =? F3_ADDI then MATCH_AND_RETURN_INSTR instr ADDI
  else if funct3 instr =? F3_SLTI then MATCH_AND_RETURN_INSTR instr SLTI
  else if funct3 instr =? F3_SLTIU then MATCH_AND_RETURN_INSTR instr SLTIU
  else if funct3 instr =? F3_XORI then MATCH_AND_RETURN_INSTR instr XORI
  else if funct3 instr =? F3_ORI then MATCH_AND_RETURN_INSTR instr ORI
  else if funct3 instr =? F3_ANDI then MATCH_AND_RETURN_INSTR instr ANDI
  else if funct3 instr =? F3_SLLI then
    if bool_decide (arch = RV32)
    then MATCH_AND_RETURN_INSTR2 instr SLLI_32 SLLI
    else MATCH_AND_RETURN_INSTR instr SLLI
  else if funct3 instr =? F3_SRLI then
    if funct6 instr =? F6_SRLI then
      if bool_decide (arch = RV32)
      then MATCH_AND_RETURN_INSTR2 instr SRLI_32 SRLI
      else MATCH_AND_RETURN_INSTR instr SRLI
    else if funct6 instr =? F6_SRAI then
      if bool_decide (arch = RV32)
      then MATCH_AND_RETURN_INSTR2 instr SRAI_32 SRAI
      else MATCH_AND_RETURN_INSTR instr SRAI
    else UNDEF
  else UNDEF.

Definition decode_OP_ADDIW (instr : Instruction) : Mapping :=
  if funct3 instr =? F3_ADDIW then MATCH_AND_RETURN_INSTR instr ADDIW
  else if funct3 instr =? F3_SLLIW then MATCH_AND_RETURN_INSTR instr SLLIW
  else if funct3 instr =? F3_SRLIW then
    if funct7 instr =? F7_SRLIW then MATCH_AND_RETURN_INSTR instr SRLIW
    else if funct7 instr =? F7_SRAIW then MATCH_AND_RETURN_INSTR instr SRAIW
    else UNDEF
  else UNDEF.

Definition decode_OP_ADD (instr : Instruction) : Mapping :=
  if funct7 instr =? F7_ADD then
    if funct3 instr =? F3_ADD then MATCH_AND_RETURN_INSTR instr ADD
    else if funct3 instr =? F3_SLL then MATCH_AND_RETURN_INSTR instr SLL
    else if funct3 instr =? F3_SLT then MATCH_AND_RETURN_INSTR instr SLT
    else if funct3 instr =? F3_SLTU then MATCH_AND_RETURN_INSTR instr SLTU
    else if funct3 instr =? F3_XOR then MATCH_AND_RETURN_INSTR instr XOR
    else if funct3 instr =? F3_SRL then MATCH_AND_RETURN_INSTR instr SRL
    else if funct3 instr =? F3_OR then MATCH_AND_RETURN_INSTR instr OR
    else if funct3 instr =? F3_AND then MATCH_AND_RETURN_INSTR instr AND
    else UNDEF
  else if funct7 instr =? F7_SUB then
    if funct3 instr =? F3_SUB then MATCH_AND_RETURN_INSTR instr SUB
    else if funct3 instr =? F3_SRA then MATCH_AND_RETURN_INSTR instr SRA
    else UNDEF
  else if funct7 instr =? F7_MUL then
    if funct3 instr =? F3_MUL then MATCH_AND_RETURN_INSTR instr MUL
    else if funct3 instr =? F3_MULH then MATCH_AND_RETURN_INSTR instr MULH
    else if funct3 instr =? F3_MULHSU then MATCH_AND_RETURN_INSTR instr MULHSU
    else if funct3 instr =? F3_MULHU then MATCH_AND_RETURN_INSTR instr MULHU
    else if funct3 instr =? F3_DIV then MATCH_AND_RETURN_INSTR instr DIV
    else if funct3 instr =? F3_DIVU then MATCH_AND_RETURN_INSTR instr DIVU
    else if funct3 instr =? F3_REM then MATCH_AND_RETURN_INSTR instr REM
    else if funct3 instr =? F3_REMU then MATCH_AND_RETURN_INSTR instr REMU
    else UNDEF
  else UNDEF.

Definition decode_OP_ADDW (instr : Instruction) : Mapping :=
  if funct7 instr =? F7_ADDW then
    if funct3 instr =? F3_ADDW then MATCH_AND_RETURN_INSTR instr ADDW
    else if funct3 instr =? F3_SLLW then MATCH_AND_RETURN_INSTR instr SLLW
    else if funct3 instr =? F3_SRLW then MATCH_AND_RETURN_INSTR instr SRLW
    else UNDEF
  else if funct7 instr =? F7_SUBW then
    if funct3 instr =? F3_SUBW then MATCH_AND_RETURN_INSTR instr SUBW
    else if funct3 instr =? F3_SRAW then MATCH_AND_RETURN_INSTR instr SRAW
    else UNDEF
  else if funct7 instr =? F7_MULW then
    if funct3 instr =? F3_MULW then MATCH_AND_RETURN_INSTR instr MULW
    else if funct3 instr =? F3_DIVW then MATCH_AND_RETURN_INSTR instr DIVW
    else if funct3 instr =? F3_DIVUW then MATCH_AND_RETURN_INSTR instr DIVUW
    else if funct3 instr =? F3_REMW then MATCH_AND_RETURN_INSTR instr REMW
    else if funct3 instr =? F3_REMUW then MATCH_AND_RETURN_INSTR instr REMUW
    else UNDEF
  else UNDEF.

Definition decode_OP_FENCE (instr : Instruction) : Mapping :=
  if funct3 instr =? F3_FENCE then MATCH_AND_RETURN_INSTR instr FENCE
  else if funct3 instr =? F3_FENCE_I then MATCH_AND_RETURN_INSTR instr FENCE_I
  else UNDEF.

Definition decode_OP_ECALL (instr : Instruction) : Mapping :=
  if funct3 instr =? F3_SYS then
    if funct12 instr =? F12_ECALL then MATCH_AND_RETURN_INSTR instr ECALL
    else if funct12 instr =? F12_EBREAK then MATCH_AND_RETURN_INSTR instr EBREAK
    else if funct12 instr =? F12_URET then MATCH_AND_RETURN_INSTR instr URET
    else if funct12 instr =? F12_SRET then MATCH_AND_RETURN_INSTR instr SRET
    else if funct12 instr =? F12_MRET then MATCH_AND_RETURN_INSTR instr MRET
    else if funct12 instr =? F12_WFI then MATCH_AND_RETURN_INSTR instr WFI
    else MATCH_AND_RETURN_INSTR instr SFENCE_VMA
  else if funct3 instr =? F3_CSRRW then MATCH_AND_RETURN_INSTR instr CSRRW
  else if funct3 instr =? F3_CSRRS then MATCH_AND_RETURN_INSTR instr CSRRS
  else if funct3 instr =? F3_CSRRC then MATCH_AND_RETURN_INSTR instr CSRRC
  else if funct3 instr =? F3_CSRRWI then MATCH_AND_RETURN_INSTR instr CSRRWI
  else if funct3 instr =? F3_CSRRSI then MATCH_AND_RETURN_INSTR instr CSRRSI
  else if funct3 instr =? F3_CSRRCI then MATCH_AND_RETURN_INSTR instr CSRRCI
  else UNDEF.

Definition decode_OP_AMO (instr : Instruction) : Mapping :=
  if funct5 instr =? F5_LR_W then
    if funct3 instr =? F3_AMO_D
    then MATCH_AND_RETURN_INSTR instr LR_D
    else MATCH_AND_RETURN_INSTR instr LR_W
  else if funct5 instr =? F5_SC_W then
    if funct3 instr =? F3_AMO_D
    then MATCH_AND_RETURN_INSTR instr SC_D
    else MATCH_AND_RETURN_INSTR instr SC_W
  else if funct5 instr =? F5_AMOSWAP_W then
    if funct3 instr =? F3_AMO_D
    then MATCH_AND_RETURN_INSTR instr AMOSWAP_D
    else MATCH_AND_RETURN_INSTR instr AMOSWAP_W
  else if funct5 instr =? F5_AMOADD_W then
    if funct3 instr =? F3_AMO_D
    then MATCH_AND_RETURN_INSTR instr AMOADD_D
    else MATCH_AND_RETURN_INSTR instr AMOADD_W
  else if funct5 instr =? F5_AMOXOR_W then
    if funct3 instr =? F3_AMO_D
    then MATCH_AND_RETURN_INSTR instr AMOXOR_D
    else MATCH_AND_RETURN_INSTR instr AMOXOR_W
  else if funct5 instr =? F5_AMOAND_W then
    if funct3 instr =? F3_AMO_D
    then MATCH_AND_RETURN_INSTR instr AMOAND_D
    else MATCH_AND_RETURN_INSTR instr AMOAND_W
  else if funct5 instr =? F5_AMOOR_W then
    if funct3 instr =? F3_AMO_D
    then MATCH_AND_RETURN_INSTR instr AMOOR_D
    else MATCH_AND_RETURN_INSTR instr AMOOR_W
  else if funct5 instr =? F5_AMOMIN_W then
    if funct3 instr =? F3_AMO_D
    then MATCH_AND_RETURN_INSTR instr AMOMIN_D
    else MATCH_AND_RETURN_INSTR instr AMOMIN_W
  else if funct5 instr =? F5_AMOMAX_W then
    if funct3 instr =? F3_AMO_D
    then MATCH_AND_RETURN_INSTR instr AMOMAX_D
    else MATCH_AND_RETURN_INSTR instr AMOMAX_W
  else if funct5 instr =? F5_AMOMINU_W then
    if funct3 instr =? F3_AMO_D
    then MATCH_AND_RETURN_INSTR instr AMOMINU_D
    else MATCH_AND_RETURN_INSTR instr AMOMINU_W
  else if funct5 instr =? F5_AMOMAXU_W then
    if funct3 instr =? F3_AMO_D
    then MATCH_AND_RETURN_INSTR instr AMOMAXU_D
    else MATCH_AND_RETURN_INSTR instr AMOMAXU_W
  else UNDEF.

Definition decode_OP_FMADD_S (instr : Instruction) : Mapping :=
  if funct2 instr =? F2_FMADD_S then MATCH_AND_RETURN_INSTR instr FMADD_S
  else if funct2 instr =? F2_FMADD_D then MATCH_AND_RETURN_INSTR instr FMADD_D
  else UNDEF.

Definition decode_OP_FADD_S (instr : Instruction) : Mapping :=
  if funct7 instr =? F7_FADD_S then MATCH_AND_RETURN_INSTR instr FADD_S
  else if funct7 instr =? F7_FADD_D then MATCH_AND_RETURN_INSTR instr FADD_D
  else if funct7 instr =? F7_FSUB_S then MATCH_AND_RETURN_INSTR instr FSUB_S
  else if funct7 instr =? F7_FSUB_D then MATCH_AND_RETURN_INSTR instr FSUB_D
  else if funct7 instr =? F7_FCVT_D_S then MATCH_AND_RETURN_INSTR instr FCVT_D_S
  else if funct7 instr =? F7_FMUL_S then MATCH_AND_RETURN_INSTR instr FMUL_S
  else if funct7 instr =? F7_FMUL_D then MATCH_AND_RETURN_INSTR instr FMUL_D
  else if funct7 instr =? F7_FDIV_S then MATCH_AND_RETURN_INSTR instr FDIV_S
  else if funct7 instr =? F7_FDIV_D then MATCH_AND_RETURN_INSTR instr FDIV_D
  else if funct7 instr =? F7_FLE_S then
    if funct3 instr =? F3_FLE_S then MATCH_AND_RETURN_INSTR instr FLE_S
    else if funct3 instr =? F3_FLT_S then MATCH_AND_RETURN_INSTR instr FLT_S
    else if funct3 instr =? F3_FEQ_S then MATCH_AND_RETURN_INSTR instr FEQ_S
    else UNDEF
  else if funct7 instr =? F7_FSGNJ_D then
    if funct3 instr =? F3_FSGNJ_D then MATCH_AND_RETURN_INSTR instr FSGNJ_D
    else if funct3 instr =? F3_FSGNJN_D then MATCH_AND_RETURN_INSTR instr FSGNJN_D
    else if funct3 instr =? F3_FSGNJX_D then MATCH_AND_RETURN_INSTR instr FSGNJX_D
    else UNDEF
  else if funct7 instr =? F7_FMIN_S then
    if funct3 instr =? F3_FMIN_S then MATCH_AND_RETURN_INSTR instr FMIN_S
    else if funct3 instr =? F3_FMAX_S then MATCH_AND_RETURN_INSTR instr FMAX_S
    else UNDEF
  else if funct7 instr =? F7_FMIN_D then
    if funct3 instr =? F3_FMIN_D then MATCH_AND_RETURN_INSTR instr FMIN_D
    else if funct3 instr =? F3_FMAX_D then MATCH_AND_RETURN_INSTR instr FMAX_D
    else UNDEF
  else if funct7 instr =? F7_FCVT_S_D then MATCH_AND_RETURN_INSTR instr FCVT_S_D
  else if funct7 instr =? F7_FSGNJ_S then
    if funct3 instr =? F3_FSGNJ_S then MATCH_AND_RETURN_INSTR instr FSGNJ_S
    else if funct3 instr =? F3_FSGNJN_S then MATCH_AND_RETURN_INSTR instr FSGNJN_S
    else if funct3 instr =? F3_FSGNJX_S then MATCH_AND_RETURN_INSTR instr FSGNJX_S
    else UNDEF
  else if funct7 instr =? F7_FLE_D then
    if funct3 instr =? F3_FLE_D then MATCH_AND_RETURN_INSTR instr FLE_D
    else if funct3 instr =? F3_FLT_D then MATCH_AND_RETURN_INSTR instr FLT_D
    else if funct3 instr =? F3_FEQ_D then MATCH_AND_RETURN_INSTR instr FEQ_D
    else UNDEF
  else if funct7 instr =? F7_FCVT_S_W then
    if rs2 instr =? RS2_FCVT_S_W then MATCH_AND_RETURN_INSTR instr FCVT_S_W
    else if rs2 instr =? RS2_FCVT_S_WU then MATCH_AND_RETURN_INSTR instr FCVT_S_WU
    else if rs2 instr =? RS2_FCVT_S_L then MATCH_AND_RETURN_INSTR instr FCVT_S_L
    else if rs2 instr =? RS2_FCVT_S_LU then MATCH_AND_RETURN_INSTR instr FCVT_S_LU
    else UNDEF
  else if funct7 instr =? F7_FCVT_D_W then
    if rs2 instr =? RS2_FCVT_D_W then MATCH_AND_RETURN_INSTR instr FCVT_D_W
    else if rs2 instr =? RS2_FCVT_D_WU then MATCH_AND_RETURN_INSTR instr FCVT_D_WU
    else if rs2 instr =? RS2_FCVT_D_L then MATCH_AND_RETURN_INSTR instr FCVT_D_L
    else if rs2 instr =? RS2_FCVT_D_LU then MATCH_AND_RETURN_INSTR instr FCVT_D_LU
    else UNDEF
  else if funct7 instr =? F7_FCVT_W_D then
    if rs2 instr =? RS2_FCVT_W_D then MATCH_AND_RETURN_INSTR instr FCVT_W_D
    else if rs2 instr =? RS2_FCVT_WU_D then MATCH_AND_RETURN_INSTR instr FCVT_WU_D
    else if rs2 instr =? RS2_FCVT_L_D then MATCH_AND_RETURN_INSTR instr FCVT_L_D
    else if rs2 instr =? RS2_FCVT_LU_D then MATCH_AND_RETURN_INSTR instr FCVT_LU_D
    else UNDEF
  else if funct7 instr =? F7_FSQRT_S then MATCH_AND_RETURN_INSTR instr FSQRT_S
  else if funct7 instr =? F7_FSQRT_D then MATCH_AND_RETURN_INSTR instr FSQRT_D
  else if funct7 instr =? F7_FCVT_W_S then
    if rs2 instr =? RS2_FCVT_W_S then MATCH_AND_RETURN_INSTR instr FCVT_W_S
    else if rs2 instr =? RS2_FCVT_WU_S then MATCH_AND_RETURN_INSTR instr FCVT_WU_S
    else if rs2 instr =? RS2_FCVT_L_S then MATCH_AND_RETURN_INSTR instr FCVT_L_S
    else if rs2 instr =? RS2_FCVT_LU_S then MATCH_AND_RETURN_INSTR instr FCVT_LU_S
    else UNDEF
  else if funct7 instr =? F7_FMV_X_W then
    if funct3 instr =? F3_FMV_X_W then MATCH_AND_RETURN_INSTR instr FMV_X_W
    else if funct3 instr =? F3_FCLASS_S then MATCH_AND_RETURN_INSTR instr FCLASS_S
    else UNDEF
  else if funct7 instr =? F7_FMV_X_D then
    if funct3 instr =? F3_FMV_X_D then MATCH_AND_RETURN_INSTR instr FMV_X_D
    else if funct3 instr =? F3_FCLASS_D then MATCH_AND_RETURN_INSTR instr FCLASS_D
    else UNDEF
  else if funct7 instr =? F7_FMV_W_X then MATCH_AND_RETURN_INSTR instr FMV_W_X
  else if funct7 instr =? F7_FMV_D_X then MATCH_AND_RETURN_INSTR instr FMV_D_X
  else UNDEF.

Definition decode_OP_FLW (instr : Instruction) : Mapping :=
  if funct3 instr =? F3_FLW then MATCH_AND_RETURN_INSTR instr FLW
  else if funct3 instr =? F3_FLD then MATCH_AND_RETURN_INSTR instr FLD
  else UNDEF.

Definition decode_OP_FSW (instr : Instruction) : Mapping :=
  if funct3 instr =? F3_FSW then MATCH_AND_RETURN_INSTR instr FSW
  else if funct3 instr =? F3_FSD then MATCH_AND_RETURN_INSTR instr FSD
  else UNDEF.

Definition decode_OP_FMSUB_S (instr : Instruction) : Mapping :=
  if funct2 instr =? F2_FMSUB_S then MATCH_AND_RETURN_INSTR instr FMSUB_S
  else if funct2 instr =? F2_FMSUB_D then MATCH_AND_RETURN_INSTR instr FMSUB_D
  else UNDEF.

Definition decode_OP_FNMSUB_S (instr : Instruction) : Mapping :=
  if funct2 instr =? F2_FNMSUB_S then MATCH_AND_RETURN_INSTR instr FNMSUB_S
  else if funct2 instr =? F2_FNMSUB_D then MATCH_AND_RETURN_INSTR instr FNMSUB_D
  else UNDEF.

Definition decode_OP_FNMADD_S (instr : Instruction) : Mapping :=
  if funct2 instr =? F2_FNMADD_S then MATCH_AND_RETURN_INSTR instr FNMADD_S
  else if funct2 instr =? F2_FNMADD_D then MATCH_AND_RETURN_INSTR instr FNMADD_D
  else UNDEF.

Definition decode_normal (arch : Architecture) (instr : Instruction) : Mapping :=
  if opcode instr =? OP_LUI then MATCH_AND_RETURN_INSTR instr LUI
  else if opcode instr =? OP_AUIPC then MATCH_AND_RETURN_INSTR instr AUIPC
  else if opcode instr =? OP_JAL then MATCH_AND_RETURN_INSTR instr JAL
  else if opcode instr =? OP_JALR then MATCH_AND_RETURN_INSTR instr JALR
  else if opcode instr =? OP_BEQ then decode_OP_BEQ instr
  else if opcode instr =? OP_LB then decode_OP_LB instr
  else if opcode instr =? OP_SB then decode_OP_SB instr
  else if opcode instr =? OP_ADDI then decode_OP_ADDI arch instr
  else if opcode instr =? OP_ADDIW then decode_OP_ADDIW instr
  else if opcode instr =? OP_ADD then decode_OP_ADD instr
  else if opcode instr =? OP_ADDW then decode_OP_ADDW instr
  else if opcode instr =? OP_FENCE then decode_OP_FENCE instr
  else if opcode instr =? OP_ECALL then decode_OP_ECALL instr
  else if opcode instr =? OP_AMO then decode_OP_AMO instr
  else if opcode instr =? OP_FMADD_S then decode_OP_FMADD_S instr
  else if opcode instr =? OP_FADD_S then decode_OP_FADD_S instr
  else if opcode instr =? OP_FLW then decode_OP_FLW instr
  else if opcode instr =? OP_FSW then decode_OP_FSW instr
  else if opcode instr =? OP_FMSUB_S then decode_OP_FMSUB_S instr
  else if opcode instr =? OP_FNMSUB_S then decode_OP_FNMSUB_S instr
  else if opcode instr =? OP_FNMADD_S then decode_OP_FNMADD_S instr
  else UNDEF.

(** ** The reference: a search of the table *)

Definition instr_pattern (arch : Architecture) (m : Mapping) : option pattern :=
  match arch, m with
  | RV32, SLLI => Some SLLI_32
  | RV32, SRLI => Some SRLI_32
  | RV32, SRAI => Some SRAI_32
  | _, _ => encoding_of m
  end.

Definition matches (arch : Architecture) (instr : Instruction) (m : Mapping) : bool :=
  match instr_pattern arch m with
  | Some p => Z.land (data instr) (pattern_mask p) =? pattern_encoding p
  | None => false
  end.

(** The instruction whose pattern the word matches, if there is exactly one. *)
Definition table_decode (arch : Architecture) (instr : Instruction) : Mapping :=
  match List.filter (matches arch instr) all_mappings with
  | [m] => m
  | _ => UNDEF
  end.

(** ** Fields of a word that matches a pattern

    Every field the decoder switches on is a masked and shifted part of the
    word, so a pattern whose mask covers the field determines it. *)

Definition field (w K n : Z) : Z := Z.shiftr (Z.land w K) n.

Lemma land_uint_l (w x K : Z) : 0 <= w -> is_uint w K -> Z.land (uint w x) K = Z.land x K.
Proof.
  intros Hw HK. rewrite is_uint_bits in HK by lia. apply Z.bits_inj'. intros k ?.
  rewrite !Z.land_spec, uint_testbit by lia.
  destruct (Z.ltb_spec k w); [done |]. by rewrite HK, !andb_false_r.
Qed.

Lemma land_uint_r (w x K : Z) : 0 <= w -> Z.land (uint w x) K = Z.land (uint w x) (uint w K).
Proof.
  intros Hw. apply Z.bits_inj'. intros k ?.
  rewrite !Z.land_spec, !uint_testbit by lia. by destruct (k <? w).
Qed.

Lemma field_match (w M E K n : Z) :
  Z.land w M = E -> Z.land M K = K -> field w K n = field E K n.
Proof. intros <- HK. unfold field. by rewrite <- Z.land_assoc, HK. Qed.

Ltac field_low F :=
  unfold field, data, uint32; rewrite land_uint_l by (lia || done);
  unfold F, BIT_SLICE, BIT_RANGE; reflexivity.
Ltac field_high F :=
  unfold field, data, F, BIT_RANGE, uint32; by rewrite land_uint_r by lia.

Lemma opcode_field instr : opcode instr = field (data instr) 0x7f 0.
Proof. unfold field at 1. rewrite Z.shiftr_0_r. symmetry. unfold data, uint32. by rewrite land_uint_l. Qed.
Lemma funct2_field instr : funct2 instr = field (data instr) 0x06000000 25.
Proof. field_low funct2. Qed.
Lemma funct3_field instr : funct3 instr = field (data instr) 0x7000 12.
Proof. field_low funct3. Qed.
Lemma rs2_field instr : rs2 instr = field (data instr) 0x01f00000 20.
Proof. field_low rs2. Qed.
Lemma funct5_field instr : funct5 instr = field (data instr) 0xf8000000 27.
Proof. field_high funct5. Qed.
Lemma funct6_field instr : funct6 instr = field (data instr) 0xfc000000 26.
Proof. field_high funct6. Qed.
Lemma funct7_field instr : funct7 instr = field (data instr) 0xfe000000 25.
Proof. field_high funct7. Qed.
Lemma funct12_field instr : funct12 instr = field (data instr) 0xfff00000 20.
Proof. field_high funct12. Qed.

Lemma funct7_funct12 instr : funct7 instr = Z.shiftr (funct12 instr) 5.
Proof.
  rewrite funct7_field, funct12_field. unfold field.
  by rewrite !Z.shiftr_land, !Z.shiftr_shiftr by lia.
Qed.

Lemma funct12_neq instr c : funct7 instr <> Z.shiftr c 5 -> (funct12 instr =? c) = false.
Proof. intros Hc. apply Z.eqb_neq. intros <-. apply Hc, funct7_funct12. Qed.

(** ** Soundness *)

Definition sound_at (arch : Architecture) (instr : Instruction) (op : Mapping) : Prop :=
  op = UNDEF \/ matches arch instr op = true.

Lemma sound_if arch instr (c : bool) (a b : Mapping) :
  sound_at arch instr a -> sound_at arch instr b ->
  sound_at arch instr (if c then a else b).
Proof. by destruct c. Qed.

Lemma sound_if_arch arch instr (a b : Mapping) :
  (arch = RV32 -> sound_at arch instr a) -> (arch <> RV32 -> sound_at arch instr b) ->
  sound_at arch instr (if bool_decide (arch = RV32) then a else b).
Proof. case_bool_decide; auto. Qed.

Lemma sound_match2 arch instr p m :
  instr_pattern arch m = Some p -> sound_at arch instr (MATCH_AND_RETURN_INSTR2 instr p m).
Proof.
  intros Hp. unfold MATCH_AND_RETURN_INSTR2.
  destruct (_ =? _) eqn:He; simpl; [right | by left]. unfold matches. by rewrite Hp.
Qed.

Lemma sound_match arch instr m :
  instr_pattern arch m = encoding_of m -> sound_at arch instr (MATCH_AND_RETURN_INSTR instr m).
Proof.
  intros Hp. unfold MATCH_AND_RETURN_INSTR.
  destruct (encoding_of m) as [p|] eqn:He; [| by left]. by apply sound_match2.
Qed.

Lemma sound_undef arch instr : sound_at arch instr UNDEF.
Proof. by left. Qed.

Ltac sound_tac :=
  repeat first
    [ apply sound_undef
    | apply sound_match; by repeat (match goal with a : Architecture |- _ => destruct a end)
    | apply sound_match2; by subst
    | apply sound_if_arch; intros
    | apply sound_if ].

Lemma decode_normal_sound arch instr : sound_at arch instr (decode_normal arch instr).
Proof.
  unfold decode_normal, decode_OP_BEQ, decode_OP_LB, decode_OP_SB, decode_OP_ADDI,
    decode_OP_ADDIW, decode_OP_ADD, decode_OP_ADDW, decode_OP_FENCE, decode_OP_ECALL,
    decode_OP_AMO, decode_OP_FMADD_S, decode_OP_FADD_S, decode_OP_FLW, decode_OP_FSW,
    decode_OP_FMSUB_S, decode_OP_FNMSUB_S, decode_OP_FNMADD_S.
  sound_tac.
Qed.

(** ** Completeness *)

Lemma match2_hit instr p m :
  Z.land (data instr) (pattern_mask p) = pattern_encoding p ->
  MATCH_AND_RETURN_INSTR2 instr p m = m.
Proof. intros H. unfold MATCH_AND_RETURN_INSTR2. by rewrite H, Z.eqb_refl. Qed.

Lemma match_hit instr p m :
  encoding_of m = Some p -> Z.land (data instr) (pattern_mask p) = pattern_encoding p ->
  MATCH_AND_RETURN_INSTR instr m = m.
Proof. intros Hp H. unfold MATCH_AND_RETURN_INSTR. rewrite Hp. by apply match2_hit. Qed.

(** The value of a field [F] (of equation [L]) of a word that matches [E] under
    a mask [M] covering the field. *)
Ltac field_fact H F L K n :=
  match type of H with
  | Z.land (data ?instr) ?M = ?E =>
      let covered := eval vm_compute in (Z.land M K =? K) in
      lazymatch covered with
      | true =>
          let v := eval vm_compute in (field E K n) in
          assert (F instr = v)
            by (rewrite L; exact (field_match (data instr) M E K n H eq_refl))
      | false => idtac
      end
  end.

Ltac field_facts H :=
  field_fact H opcode opcode_field 0x7f 0;
  field_fact H funct2 funct2_field 0x06000000 25;
  field_fact H funct3 funct3_field 0x7000 12;
  field_fact H rs2 rs2_field 0x01f00000 20;
  field_fact H funct5 funct5_field 0xf8000000 27;
  field_fact H funct6 funct6_field 0xfc000000 26;
  field_fact H funct7 funct7_field 0xfe000000 25;
  field_fact H funct12 funct12_field 0xfff00000 20.

(** Follow the decoder, one [switch] at a time. *)
Ltac take_case :=
  match goal with
  | Hf : ?F ?i = ?v |- context [?F ?i =? ?c] =>
      rewrite Hf;
      repeat match goal with
      | |- context [v =? ?c] =>
          let b := eval vm_compute in (v =? c) in change (v =? c) with b; cbv iota
      end
  end.

Ltac complete_tac H :=
  field_facts H;
  unfold decode_normal; take_case;
  lazymatch goal with
  | |- MATCH_AND_RETURN_INSTR _ _ = _ => idtac
  | |- ?D _ _ = _ => unfold D
  | |- ?D _ = _ => unfold D
  end;
  repeat take_case;
  change (bool_decide (RV32 = RV32)) with true; change (bool_decide (RV64 = RV32)) with false;
  change (bool_decide (RV128 = RV32)) with false; cbv iota.

(** SFENCE.VMA is the [default] of a switch on funct12, of which its pattern
    only fixes funct7. *)
Ltac sfence_tac instr :=
  repeat match goal with
  | |- context [funct12 instr =? ?c] =>
      replace (funct12 instr =? c) with false
        by (symmetry; apply funct12_neq;
            match goal with Hf : funct7 instr = _ |- _ => rewrite Hf; discriminate end);
      cbv iota
  end.

Ltac hit_tac instr H :=
  try sfence_tac instr;
  lazymatch type of H with
  | Z.land _ ?M = ?E =>
      lazymatch goal with
      | |- MATCH_AND_RETURN_INSTR _ ?m = _ => exact (match_hit instr (M, E) m eq_refl H)
      | |- MATCH_AND_RETURN_INSTR2 _ ?p _ = _ => exact (match2_hit instr p _ H)
      end
  end.

Lemma instr_pattern_default arch op :
  negb (bool_decide (op = SLLI \/ op = SRLI \/ op = SRAI)) = true ->
  instr_pattern arch op = encoding_of op.
Proof. intros Hop. apply negb_true_iff, bool_decide_eq_false in Hop. destruct arch, op; tauto. Qed.

Lemma decode_normal_complete arch instr op :
  matches arch instr op = true -> decode_normal arch instr = op.
Proof.
  unfold matches. intros Hm.
  destruct (instr_pattern arch op) as [p|] eqn:Hp; [| done].
  apply Z.eqb_eq in Hm.
  destruct op;
    first [ rewrite instr_pattern_default in Hp by reflexivity | destruct arch ];
    try discriminate Hp;
    injection Hp as <-; cbn [pattern_mask pattern_encoding fst snd] in Hm;
    complete_tac Hm; hit_tac instr Hm.
Qed.

Lemma decode_normal_iff arch instr op :
  op <> UNDEF -> decode_normal arch instr = op <-> matches arch instr op = true.
Proof.
  intros Hop. split; [| apply decode_normal_complete].
  intros <-. by destruct (decode_normal_sound arch instr).
Qed.

(** No two encodings overlap: a word matches one pattern at most. *)
Lemma matches_unique arch instr op op' :
  matches arch instr op = true -> matches arch instr op' = true -> op = op'.
Proof. intros H H'. apply decode_normal_complete in H, H'. congruence. Qed.

Lemma all_mappings_NoDup : NoDup all_mappings.
Proof. apply (bool_decide_unpack _). by vm_compute. Qed.

Lemma all_mappings_elem (m : Mapping) : m ∈ all_mappings.
Proof. eapply list_elem_of_lookup_2, all_mappings_value. Qed.

Lemma filter_unique {A} (f : A -> bool) (l : list A) (x : A) :
  NoDup l -> x ∈ l -> f x = true -> (forall y, f y = true -> y = x) ->
  List.filter f l = [x].
Proof.
  intros Hnd Hx Hf Huniq. induction l as [|y l IH]; [by apply elem_of_nil in Hx |].
  apply NoDup_cons in Hnd as [Hy Hnd]. simpl. destruct (f y) eqn:Hfy.
  - apply Huniq in Hfy as ->. f_equal.
    clear IH Hx. induction l as [|z l IHl]; [done |].
    apply not_elem_of_cons in Hy as [Hz Hy]. apply NoDup_cons in Hnd as [_ Hnd]. simpl.
    destruct (f z) eqn:Hfz; [by apply Huniq in Hfz |]. by apply IHl.
  - apply elem_of_cons in Hx as [->|Hx]; [congruence | by apply IH].
Qed.

(** C2: for every architecture and every word, the nested [switch] of the
    decoder computes exactly what a search of the encoding table does: the one
    instruction whose pattern the word matches, UNDEF when there is none; in
    particular no word matches two patterns. *)
Theorem decode_normal_table arch instr : decode_normal arch instr = table_decode arch instr.
Proof.
  unfold table_decode.
  destruct (decode_normal_sound arch instr) as [Hu|Hm].
  - rewrite Hu. destruct (List.filter _ _) as [|m [|]] eqn:Hf; [done | | done].
    assert (Hin : In m (List.filter (matches arch instr) all_mappings)) by (rewrite Hf; by left).
    apply filter_In in Hin as [_ Hin]. apply decode_normal_complete in Hin. congruence.
  - erewrite filter_unique; [reflexivity | apply all_mappings_NoDup
      | apply all_mappings_elem | done |].
    intros y Hy. by eapply matches_unique.
Qed.
