(* ===== verification/Compressed.v ===== *)
(** * Compressed instructions

    Models the rest of core/common/instr.cpp: the immediates of the RVC formats,
    [InstructionFactory], [decode_compressed], [expand_compressed] and
    [Instruction::decode_and_expand_compressed].  An expansion overwrites the
    instruction word with the 32-bit instruction it stands for and returns that
    instruction's opcode; [None] is the [std::runtime_error] of the decoder on
    an uncompressed word. *)

From S2P Require Import Prelude Instr Decode.

(** ** Immediates *)

Definition C_ADDI4SPN_NZUIMM (n : Z) : Z :=
  Z.lor (Z.lor (Z.lor (Z.shiftl (BIT_SLICE n 12 11) 4) (Z.shiftl (BIT_SLICE n 10 7) 6))
    (Z.shiftl (BIT_SINGLE_P1 n 6) 2)) (Z.shiftl (BIT_SINGLE_P1 n 5) 3).
Definition C_LW_UIMM (n : Z) : Z :=
  Z.lor (Z.lor (Z.shiftl (BIT_SLICE n 12 10) 3) (Z.shiftl (BIT_SINGLE_P1 n 6) 2))
    (Z.shiftl (BIT_SINGLE_P1 n 5) 6).
Definition C_LD_UIMM (n : Z) : Z :=
  Z.lor (Z.shiftl (BIT_SLICE n 12 10) 3) (Z.shiftl (BIT_SLICE n 6 5) 6).
Definition C_SW_UIMM (n : Z) : Z := C_LW_UIMM n.
Definition C_SD_UIMM (n : Z) : Z := C_LD_UIMM n.
Definition C_JAL_IMM (n : Z) : Z :=
  Z.lor (Z.lor (Z.lor (Z.lor (Z.lor (Z.lor (Z.lor
    (EXTRACT_SIGN_BIT n 12 11) (BIT_SINGLE_PN n 11 4)) (Z.shiftl (BIT_SLICE n 10 9) 8))
    (BIT_SINGLE_PN n 8 10)) (BIT_SINGLE_PN n 7 6)) (BIT_SINGLE_PN n 6 7))
    (Z.shiftl (BIT_SLICE n 5 3) 1)) (BIT_SINGLE_PN n 2 5).
Definition C_ADDI16SP_NZIMM (n : Z) : Z :=
  Z.lor (Z.lor (Z.lor (Z.lor
    (EXTRACT_SIGN_BIT n 12 9) (BIT_SINGLE_PN n 6 4)) (BIT_SINGLE_PN n 5 6))
    (Z.shiftl (BIT_SLICE n 4 3) 7)) (BIT_SINGLE_PN n 2 5).
Definition C_LUI_NZIMM (n : Z) : Z :=
  Z.lor (EXTRACT_SIGN_BIT n 12 17) (Z.shiftl (BIT_SLICE n 6 2) 12).
Definition C_J_IMM (n : Z) : Z := C_JAL_IMM n.
Definition C_BRANCH_IMM (n : Z) : Z :=
  Z.lor (Z.lor (Z.lor (Z.lor
    (EXTRACT_SIGN_BIT n 12 8) (Z.shiftl (BIT_SLICE n 11 10) 3)) (Z.shiftl (BIT_SLICE n 6 5) 6))
    (Z.shiftl (BIT_SLICE n 4 3) 1)) (BIT_SINGLE_PN n 2 5).
Definition C_LWSP_UIMM (n : Z) : Z :=
  Z.lor (Z.lor (BIT_SINGLE_PN n 12 5) (Z.shiftl (BIT_SLICE n 6 4) 2))
    (Z.shiftl (BIT_SLICE n 3 2) 6).
Definition C_SWSP_UIMM (n : Z) : Z :=
  Z.lor (Z.shiftl (BIT_SLICE n 12 9) 2) (Z.shiftl (BIT_SLICE n 8 7) 6).
Definition C_LDSP_UIMM (n : Z) : Z :=
  Z.lor (Z.lor (BIT_SINGLE_PN n 12 5) (Z.shiftl (BIT_SLICE n 6 5) 3))
    (Z.shiftl (BIT_SLICE n 4 2) 6).
Definition C_SDSP_UIMM (n : Z) : Z :=
  Z.lor (Z.shiftl (BIT_SLICE n 12 10) 3) (Z.shiftl (BIT_SLICE n 9 7) 6).

(** ** struct InstructionFactory *)

Module InstructionFactory.

Definition T (instr : Z) : Instruction := mk_Instruction instr.

(** The formats the constructors below share. *)
Definition fR (rd rs1 rs2 : Z) : Z :=
  ((rd .& 0x1f) .<< 7) .| ((rs1 .& 0x1f) .<< 15) .| ((rs2 .& 0x1f) .<< 20).
Definition fI (rd rs1 imm : Z) : Z :=
  ((imm .& 4095) .<< 20) .| ((rd .& 0x1f) .<< 7) .| ((rs1 .& 0x1f) .<< 15).
Definition fS (rs1 rs2 imm : Z) : Z :=
  (((imm .& 31) .<< 7) .| ((imm .& (127 .<< 5)) .<< 20))
  .| ((rs1 .& 0x1f) .<< 15) .| ((rs2 .& 0x1f) .<< 20).
Definition fB (rs1 rs2 imm : Z) : Z :=
  ((((imm .& 30) .<< 7) .| ((imm .& (1 .<< 11)) .>> 4))
   .| (((imm .& (63 .<< 5)) .<< 20) .| ((imm .& (1 .<< 12)) .<< 19)))
  .| ((rs1 .& 0x1f) .<< 15) .| ((rs2 .& 0x1f) .<< 20).
Definition fShift (rd rs1 shamt : Z) : Z :=
  ((rd .& 0x1f) .<< 7) .| ((rs1 .& 0x1f) .<< 15) .| ((shamt .& 63) .<< 20).

Definition ADD (rd rs1 rs2 : Z) := T (fR rd rs1 rs2 .| 51 .| (0 .<< 12) .| (0 .<< 25)).
Definition AND (rd rs1 rs2 : Z) := T (fR rd rs1 rs2 .| 51 .| (7 .<< 12) .| (0 .<< 25)).
Definition OR (rd rs1 rs2 : Z) := T (fR rd rs1 rs2 .| 51 .| (6 .<< 12) .| (0 .<< 25)).
Definition XOR (rd rs1 rs2 : Z) := T (fR rd rs1 rs2 .| 51 .| (4 .<< 12) .| (0 .<< 25)).
Definition SUB (rd rs1 rs2 : Z) := T (fR rd rs1 rs2 .| 51 .| (0 .<< 12) .| (32 .<< 25)).
Definition LW (rd rs1 I_imm : Z) := T (fI rd rs1 I_imm .| 3 .| (2 .<< 12)).
Definition LD (rd rs1 I_imm : Z) := T (fI rd rs1 I_imm .| 3 .| (3 .<< 12)).
Definition FLW (rd rs1 I_imm : Z) := T (fI rd rs1 I_imm .| 7 .| (2 .<< 12)).
Definition FLD (rd rs1 I_imm : Z) := T (fI rd rs1 I_imm .| 7 .| (3 .<< 12)).
Definition SW (rs1 rs2 S_imm : Z) := T (fS rs1 rs2 S_imm .| 35 .| (2 .<< 12)).
Definition SD (rs1 rs2 S_imm : Z) := T (fS rs1 rs2 S_imm .| 35 .| (3 .<< 12)).
Definition FSW (rs1 rs2 S_imm : Z) := T (fS rs1 rs2 S_imm .| 39 .| (2 .<< 12)).
Definition FSD (rs1 rs2 S_imm : Z) := T (fS rs1 rs2 S_imm .| 39 .| (3 .<< 12)).
Definition LUI (rd U_imm : Z) :=
  T ((U_imm .& int32 (1048575 .<< 12)) .| ((rd .& 0x1f) .<< 7) .| 55).
Definition ADDI (rd rs1 I_imm : Z) := T (fI rd rs1 I_imm .| 19 .| (0 .<< 12)).
Definition ANDI (rd rs1 I_imm : Z) := T (fI rd rs1 I_imm .| 19 .| (7 .<< 12)).
Definition SRLI (rd rs1 shamt : Z) := T (fShift rd rs1 shamt .| 19 .| (5 .<< 12) .| (0 .<< 25)).
Definition SRAI (rd rs1 shamt : Z) := T (fShift rd rs1 shamt .| 19 .| (5 .<< 12) .| (32 .<< 25)).
Definition SLLI (rd rs1 shamt : Z) := T (fShift rd rs1 shamt .| 19 .| (1 .<< 12) .| (0 .<< 25)).
Definition JAL (rd J_imm : Z) :=
  T (111 .| ((rd .& 0x1f) .<< 7)
     .| ((J_imm .& (255 .<< 12)) .| ((J_imm .& (1 .<< 11)) .<< 9)
         .| ((J_imm .& 2046) .<< 20) .| ((J_imm .& (1 .<< 20)) .<< 11))).
Definition JALR (rd rs1 I_imm : Z) := T (fI rd rs1 I_imm .| 103 .| (0 .<< 12)).
Definition BEQ (rs1 rs2 B_imm : Z) := T (fB rs1 rs2 B_imm .| 99 .| (0 .<< 12)).
Definition BNE (rs1 rs2 B_imm : Z) := T (fB rs1 rs2 B_imm .| 99 .| (1 .<< 12)).
Definition EBREAK := T 1048691.
Definition ADDIW (rd rs1 I_imm : Z) := T (fI rd rs1 I_imm .| 0x1b).
Definition ADDW (rd rs1 rs2 : Z) := T (fR rd rs1 rs2 .| 0x3b).
Definition SUBW (rd rs1 rs2 : Z) := T (fR rd rs1 rs2 .| 0x3b .| 0x40000000).

End InstructionFactory.

(** ** enum Compressed::Opcode *)

Inductive C_Opcode : Set :=
  (* quadrant zero *)
  | C_Illegal | C_Reserved | C_ADDI4SPN | C_FLD | C_LQ | C_LW | C_FLW | C_LD
  | C_FSD | C_SQ | C_SW | C_FSW | C_SD
  (* quadrant one *)
  | C_NOP | C_ADDI | C_JAL | C_ADDIW | C_LI | C_ADDI16SP | C_LUI | C_SRLI | C_SRAI
  | C_ANDI | C_SUB | C_XOR | C_OR | C_AND | C_SUBW | C_ADDW | C_J | C_BEQZ | C_BNEZ
  (* quadrant two *)
  | C_SLLI | C_FLDSP | C_LQSP | C_LWSP | C_FLWSP | C_LDSP | C_JR | C_MV | C_EBREAK
  | C_JALR | C_ADD | C_FSDSP | C_SQSP | C_SWSP | C_FSWSP | C_SDSP.

(** ** decode_compressed, one definition per quadrant *)

Definition on_rv32 (arch : Architecture) (a b : C_Opcode) : C_Opcode :=
  if bool_decide (arch = RV32) then a else b.

Definition decode_quadrant0 (instr : Instruction) (arch : Architecture) : C_Opcode :=
  match c_opcode instr with
  | 0 => if c_format instr =? 0 then C_Illegal else C_ADDI4SPN
  | 1 => C_FLD
  | 2 => C_LW
  | 3 => on_rv32 arch C_FLW C_LD
  | 4 => C_Reserved
  | 5 => C_FSD
  | 6 => C_SW
  | 7 => on_rv32 arch C_FSW C_SD
  | _ => C_Illegal
  end.

Definition decode_quadrant1 (instr : Instruction) (arch : Architecture) : C_Opcode :=
  match c_opcode instr with
  | 0 => if c_format instr =? 1 then C_NOP else C_ADDI
  | 1 => on_rv32 arch C_JAL C_ADDIW
  | 2 => C_LI
  | 3 => if c_rd instr =? 2 then C_ADDI16SP else C_LUI
  | 4 =>
      match c_f2_high instr with
      | 0 => C_SRLI
      | 1 => C_SRAI
      | 2 => C_ANDI
      | 3 =>
          if nonzero (c_b12 instr) then
            match c_f2_low instr with 0 => C_SUBW | 1 => C_ADDW | _ => C_Reserved end
          else
            match c_f2_low instr with
            | 0 => C_SUB | 1 => C_XOR | 2 => C_OR | 3 => C_AND | _ => C_Illegal
            end
      | _ => C_Illegal
      end
  | 5 => C_J
  | 6 => C_BEQZ
  | 7 => C_BNEZ
  | _ => C_Illegal
  end.

Definition decode_quadrant2 (instr : Instruction) (arch : Architecture) : C_Opcode :=
  match c_opcode instr with
  | 0 => C_SLLI
  | 1 => C_FLDSP
  | 2 => C_LWSP
  | 3 => on_rv32 arch C_FLWSP C_LDSP
  | 4 =>
      if nonzero (c_b12 instr) then
        if nonzero (c_rd instr) then
          if nonzero (c_rs2 instr) then C_ADD else C_JALR
        else C_EBREAK
      else if nonzero (c_rs2 instr) then C_MV else C_JR
  | 5 => C_FSDSP
  | 6 => C_SWSP
  | 7 => on_rv32 arch C_FSWSP C_SDSP
  | _ => C_Illegal
  end.

Definition decode_compressed (instr : Instruction) (arch : Architecture) : option C_Opcode :=
  match quadrant instr with
  | 0 => Some (decode_quadrant0 instr arch)
  | 1 => Some (decode_quadrant1 instr arch)
  | 2 => Some (decode_quadrant2 instr arch)
  | 3 => None
  | _ => Some C_Illegal
  end.

(** ** expand_compressed *)

(** An RVC instruction whose encoding the standard reserves when [reserved]. *)
Definition unless (reserved : bool) (instr : Instruction)
    (r : Instruction * Mapping) : Instruction * Mapping :=
  if reserved then (instr, UNDEF) else r.

Definition expand_compressed (instr : Instruction) (op : C_Opcode) (arch : Architecture)
    : Instruction * Mapping :=
  let rd := c_rd instr in
  let rd' := c_rd_small instr in
  let rs2' := c_rs2_small instr in
  let imm := int32 (c_imm instr) in
  let n := data instr in
  let sn := int32 (data instr) in
  match op with
  | C_Illegal => (instr, UNDEF)
  | C_LQ | C_LQSP | C_SQ | C_SQSP => (instr, UNDEF)
  | C_Reserved => (instr, UNDEF)
  | C_NOP => (InstructionFactory.ADD 0 0 0, ADD)
  | C_ADD => (InstructionFactory.ADD rd rd (c_rs2 instr), ADD)
  | C_MV => (InstructionFactory.ADD rd 0 (c_rs2 instr), ADD)
  | C_AND => (InstructionFactory.AND rd' rd' rs2', AND)
  | C_OR => (InstructionFactory.OR rd' rd' rs2', OR)
  | C_XOR => (InstructionFactory.XOR rd' rd' rs2', XOR)
  | C_SUB => (InstructionFactory.SUB rd' rd' rs2', SUB)
  | C_ADDW => (InstructionFactory.ADDW rd' rd' rs2', ADDW)
  | C_SUBW => (InstructionFactory.SUBW rd' rd' rs2', SUBW)
  | C_LW => (InstructionFactory.LW rs2' rd' (C_LW_UIMM n), LW)
  | C_LD => (InstructionFactory.LD rs2' rd' (C_LD_UIMM n), LD)
  | C_FLW => (InstructionFactory.FLW rs2' rd' (C_LW_UIMM n), FLW)
  | C_FLD => (InstructionFactory.FLD rs2' rd' (C_LD_UIMM n), FLD)
  | C_SW => (InstructionFactory.SW rd' rs2' (C_SW_UIMM n), SW)
  | C_SD => (InstructionFactory.SD rd' rs2' (C_SD_UIMM n), SD)
  | C_FSW => (InstructionFactory.FSW rd' rs2' (C_SW_UIMM n), FSW)
  | C_FSD => (InstructionFactory.FSD rd' rs2' (C_SD_UIMM n), FSD)
  | C_ADDI4SPN =>
      let nz := C_ADDI4SPN_NZUIMM n in
      unless (nz =? 0) instr (InstructionFactory.ADDI rs2' 2 nz, ADDI)
  | C_ADDI => (InstructionFactory.ADDI rd rd imm, ADDI)
  | C_JAL => (InstructionFactory.JAL 1 (C_JAL_IMM sn), JAL)
  | C_ADDIW => unless (rd =? 0) instr (InstructionFactory.ADDI rd rd imm, ADDIW)
  | C_LI => (InstructionFactory.ADDI rd 0 imm, ADDI)
  | C_ADDI16SP =>
      let nz := C_ADDI16SP_NZIMM sn in
      unless (nz =? 0) instr (InstructionFactory.ADDI 2 2 nz, ADDI)
  | C_LUI =>
      let nz := C_LUI_NZIMM sn in
      unless (nz =? 0) instr (InstructionFactory.LUI rd nz, LUI)
  | C_SLLI =>
      unless (bool_decide (arch = RV32) && (31 <? c_uimm instr)) instr
        (InstructionFactory.SLLI rd rd (c_uimm instr), SLLI)
  | C_SRLI =>
      unless (bool_decide (arch = RV32) && (31 <? c_uimm instr)) instr
        (InstructionFactory.SRLI rd' rd' (c_uimm instr), SRLI)
  | C_SRAI =>
      unless (bool_decide (arch = RV32) && (31 <? c_uimm instr)) instr
        (InstructionFactory.SRAI rd' rd' (c_uimm instr), SRAI)
  | C_ANDI => (InstructionFactory.ANDI rd' rd' imm, ANDI)
  | C_J => (InstructionFactory.JAL 0 (C_J_IMM sn), JAL)
  | C_BEQZ => (InstructionFactory.BEQ rd' 0 (C_BRANCH_IMM sn), BEQ)
  | C_BNEZ => (InstructionFactory.BNE rd' 0 (C_BRANCH_IMM sn), BNE)
  | C_LWSP => unless (rd =? 0) instr (InstructionFactory.LW rd 2 (C_LWSP_UIMM n), LW)
  | C_LDSP => unless (rd =? 0) instr (InstructionFactory.LD rd 2 (C_LDSP_UIMM n), LD)
  | C_FLWSP => (InstructionFactory.FLW rd 2 (C_LWSP_UIMM n), FLW)
  | C_FLDSP => (InstructionFactory.FLD rd 2 (C_LDSP_UIMM n), FLD)
  | C_SWSP => (InstructionFactory.SW 2 (c_rs2 instr) (C_SWSP_UIMM n), SW)
  | C_SDSP => (InstructionFactory.SD 2 (c_rs2 instr) (C_SDSP_UIMM n), SD)
  | C_FSWSP => (InstructionFactory.FSW 2 (c_rs2 instr) (C_SWSP_UIMM n), FSW)
  | C_FSDSP => (InstructionFactory.FSD 2 (c_rs2 instr) (C_SDSP_UIMM n), FSD)
  | C_EBREAK => (InstructionFactory.EBREAK, EBREAK)
  | C_JR => unless (rd =? 0) instr (InstructionFactory.JALR 0 rd 0, JALR)
  | C_JALR => (InstructionFactory.JALR 1 rd 0, JALR)
  end.

Definition decode_and_expand_compressed (instr : Instruction) (arch : Architecture)
    : option (Instruction * Mapping) :=
  match decode_compressed instr arch with
  | Some c_op => Some (expand_compressed instr c_op arch)
  | None => None
  end.

(** ** The reference: the RVC tables of the ISA manual

    Independent of the code: each immediate is given by the places its bits
    have in the 16-bit instruction, each instruction by the 32-bit instruction
    and the operands it expands to.  [None] stands for what the manual reserves
    or leaves to non-standard extensions; HINTs are the instructions they
    expand to, which write [x0].  The decoder departs from these tables for
    three sets of words, described by [is_nop], [is_add_hint] and
    [is_word_alu]. *)

Module RVC.

Inductive operands : Set :=
  | oR (rd rs1 rs2 : Z) | oI (rd rs1 imm : Z) | oShift (rd rs1 shamt : Z)
  | oS (rs1 rs2 imm : Z) | oB (rs1 rs2 imm : Z) | oU (rd imm : Z) | oJ (rd imm : Z)
  | oNone.

#[global] Instance operands_eq_dec : EqDecision operands.
Proof. solve_decision. Defined.

Definition rd (h : Z) := bits h 11 7 0.
Definition rs2 (h : Z) := bits h 6 2 0.
Definition rd_p (h : Z) := 8 .| bits h 9 7 0.
Definition rs2_p (h : Z) := 8 .| bits h 4 2 0.

Definition imm6 (h : Z) := sint 6 (bits h 12 12 5 .| bits h 6 2 0).
Definition shamt6 (h : Z) := bits h 12 12 5 .| bits h 6 2 0.
Definition off_w (h : Z) := bits h 12 10 3 .| bits h 6 6 2 .| bits h 5 5 6.
Definition off_d (h : Z) := bits h 12 10 3 .| bits h 6 5 6.
Definition off_wsp (h : Z) := bits h 12 12 5 .| bits h 6 4 2 .| bits h 3 2 6.
Definition off_dsp (h : Z) := bits h 12 12 5 .| bits h 6 5 3 .| bits h 4 2 6.
Definition off_swsp (h : Z) := bits h 12 9 2 .| bits h 8 7 6.
Definition off_sdsp (h : Z) := bits h 12 10 3 .| bits h 9 7 6.
Definition nzuimm_4spn (h : Z) :=
  bits h 12 11 4 .| bits h 10 7 6 .| bits h 6 6 2 .| bits h 5 5 3.
Definition nzimm_16sp (h : Z) :=
  sint 10 (bits h 12 12 9 .| bits h 6 6 4 .| bits h 5 5 6 .| bits h 4 3 7 .| bits h 2 2 5).
Definition off_j (h : Z) :=
  sint 12 (bits h 12 12 11 .| bits h 11 11 4 .| bits h 10 9 8 .| bits h 8 8 10 .| bits h 7 7 6 .| bits h 6 6 7 .| bits h 5 3 1 .| bits h 2 2 5).
Definition off_b (h : Z) :=
  sint 9 (bits h 12 12 8 .| bits h 11 10 3 .| bits h 6 5 6 .| bits h 4 3 1 .| bits h 2 2 5).

Definition when_ (b : bool) (m : Mapping) (o : operands) : option (Mapping * operands) :=
  if b then Some (m, o) else None.
Definition always := when_ true.

Definition quadrant0 (rv32 : bool) (h : Z) : option (Mapping * operands) :=
  match bits h 15 13 0 with
  | 0 => when_ (negb (nzuimm_4spn h =? 0)) ADDI (oI (rs2_p h) 2 (nzuimm_4spn h))
  | 1 => always FLD (oI (rs2_p h) (rd_p h) (off_d h))
  | 2 => always LW (oI (rs2_p h) (rd_p h) (off_w h))
  | 3 => if rv32 then always FLW (oI (rs2_p h) (rd_p h) (off_w h))
         else always LD (oI (rs2_p h) (rd_p h) (off_d h))
  | 5 => always FSD (oS (rd_p h) (rs2_p h) (off_d h))
  | 6 => always SW (oS (rd_p h) (rs2_p h) (off_w h))
  | 7 => if rv32 then always FSW (oS (rd_p h) (rs2_p h) (off_w h))
         else always SD (oS (rd_p h) (rs2_p h) (off_d h))
  | _ => None
  end.

(** Bit 12 selects the RV64 instructions, reserved in RV32. *)
Definition quadrant1_alu (rv32 : bool) (h : Z) : option (Mapping * operands) :=
  match bits h 11 10 0 with
  | 0 => when_ (negb (rv32 && (32 <=? shamt6 h))) SRLI (oShift (rd_p h) (rd_p h) (shamt6 h))
  | 1 => when_ (negb (rv32 && (32 <=? shamt6 h))) SRAI (oShift (rd_p h) (rd_p h) (shamt6 h))
  | 2 => always ANDI (oI (rd_p h) (rd_p h) (imm6 h))
  | _ =>
      let alu m := always m (oR (rd_p h) (rd_p h) (rs2_p h)) in
      match bits h 12 12 2 .| bits h 6 5 0 with
      | 0 => alu SUB | 1 => alu XOR | 2 => alu OR | 3 => alu AND
      | 4 => if rv32 then None else alu SUBW
      | 5 => if rv32 then None else alu ADDW
      | _ => None
      end
  end.

Definition quadrant1 (rv32 : bool) (h : Z) : option (Mapping * operands) :=
  match bits h 15 13 0 with
  | 0 => always ADDI (oI (rd h) (rd h) (imm6 h))
  | 1 => if rv32 then always JAL (oJ 1 (off_j h))
         else when_ (negb (rd h =? 0)) ADDIW (oI (rd h) (rd h) (imm6 h))
  | 2 => always ADDI (oI (rd h) 0 (imm6 h))
  | 3 => if rd h =? 2
         then when_ (negb (nzimm_16sp h =? 0)) ADDI (oI 2 2 (nzimm_16sp h))
         else when_ (negb (imm6 h =? 0)) LUI (oU (rd h) (imm6 h .<< 12))
  | 4 => quadrant1_alu rv32 h
  | 5 => always JAL (oJ 0 (off_j h))
  | 6 => always BEQ (oB (rd_p h) 0 (off_b h))
  | _ => always BNE (oB (rd_p h) 0 (off_b h))
  end.

Definition quadrant2 (rv32 : bool) (h : Z) : option (Mapping * operands) :=
  match bits h 15 13 0 with
  | 0 => when_ (negb (rv32 && (32 <=? shamt6 h))) SLLI (oShift (rd h) (rd h) (shamt6 h))
  | 1 => always FLD (oI (rd h) 2 (off_dsp h))
  | 2 => when_ (negb (rd h =? 0)) LW (oI (rd h) 2 (off_wsp h))
  | 3 => if rv32 then always FLW (oI (rd h) 2 (off_wsp h))
         else when_ (negb (rd h =? 0)) LD (oI (rd h) 2 (off_dsp h))
  | 4 =>
      if bits h 12 12 0 =? 0 then
        if rs2 h =? 0 then when_ (negb (rd h =? 0)) JALR (oI 0 (rd h) 0)
        else always ADD (oR (rd h) 0 (rs2 h))
      else if rs2 h =? 0 then
        if rd h =? 0 then always EBREAK oNone else always JALR (oI 1 (rd h) 0)
      else always ADD (oR (rd h) (rd h) (rs2 h))
  | 5 => always FSD (oS 2 (rs2 h) (off_sdsp h))
  | 6 => always SW (oS 2 (rs2 h) (off_swsp h))
  | _ => if rv32 then always FSW (oS 2 (rs2 h) (off_swsp h))
         else always SD (oS 2 (rs2 h) (off_sdsp h))
  end.

Definition expansion (rv32 : bool) (h : Z) : option (Mapping * operands) :=
  match bits h 1 0 0 with
  | 0 => quadrant0 rv32 h
  | 1 => quadrant1 rv32 h
  | 2 => quadrant2 rv32 h
  | _ => None
  end.

(** The words for which the decoder departs from the tables: C.NOP with a zero
    immediate; C.ADD with destination [x0], a HINT; and the RV64 instructions
    C.SUBW and C.ADDW, when met by an RV32 core. *)
Definition is_nop (h : Z) : bool := bits h 15 0 0 =? 1.
Definition is_add_hint (h : Z) : bool :=
  (bits h 1 0 0 =? 2) && (bits h 15 13 0 =? 4) && (bits h 12 12 0 =? 1)
  && (rd h =? 0) && negb (rs2 h =? 0).
Definition word_alu (h : Z) : option Mapping :=
  if (bits h 1 0 0 =? 1) && (bits h 15 13 0 =? 4) && (bits h 11 10 0 =? 3)
  then match bits h 12 12 2 .| bits h 6 5 0 with
       | 4 => Some SUBW | 5 => Some ADDW | _ => None
       end
  else None.

End RVC.

(** ** What the accessors read from an expanded instruction *)

Definition operands_of (r : Instruction * Mapping) : option (Mapping * RVC.operands) :=
  let '(i, op) := r in
  match op with
  | UNDEF => None
  | SLLI | SRLI | SRAI => Some (op, RVC.oShift (rd i) (rs1 i) (shamt i))
  | _ =>
      match getType op with
      | OpType.R => Some (op, RVC.oR (rd i) (rs1 i) (rs2 i))
      | OpType.I => Some (op, RVC.oI (rd i) (rs1 i) (I_imm i))
      | OpType.S => Some (op, RVC.oS (rs1 i) (rs2 i) (S_imm i))
      | OpType.B => Some (op, RVC.oB (rs1 i) (rs2 i) (B_imm i))
      | OpType.U => Some (op, RVC.oU (rd i) (U_imm i))
      | OpType.J => Some (op, RVC.oJ (rd i) (J_imm i))
      | _ => Some (op, RVC.oNone)
      end
  end.

Definition arch_of (rv32 : bool) : Architecture := if rv32 then RV32 else RV64.


(** ** The immediates *)

Tactic Notation "imm_tac" constr(F) constr(G) tactic3(t) :=
  intros; unfold F; unfold C_LW_UIMM, C_LD_UIMM, C_JAL_IMM, G, bits; masks;
  cbv [data uint32 int32]; t.

Lemma C_LW_UIMM_off i : C_LW_UIMM (data i) = RVC.off_w i.
Proof. imm_tac C_LW_UIMM RVC.off_w (ubits 12%nat). Qed.
Lemma C_LD_UIMM_off i : C_LD_UIMM (data i) = RVC.off_d i.
Proof. imm_tac C_LD_UIMM RVC.off_d (ubits 12%nat). Qed.
Lemma C_ADDI4SPN_NZUIMM_off i : C_ADDI4SPN_NZUIMM (data i) = RVC.nzuimm_4spn i.
Proof. imm_tac C_ADDI4SPN_NZUIMM RVC.nzuimm_4spn (ubits 12%nat). Qed.
Lemma C_LWSP_UIMM_off i : C_LWSP_UIMM (data i) = RVC.off_wsp i.
Proof. imm_tac C_LWSP_UIMM RVC.off_wsp (ubits 12%nat). Qed.
Lemma C_LDSP_UIMM_off i : C_LDSP_UIMM (data i) = RVC.off_dsp i.
Proof. imm_tac C_LDSP_UIMM RVC.off_dsp (ubits 12%nat). Qed.
Lemma C_SWSP_UIMM_off i : C_SWSP_UIMM (data i) = RVC.off_swsp i.
Proof. imm_tac C_SWSP_UIMM RVC.off_swsp (ubits 12%nat). Qed.
Lemma C_SDSP_UIMM_off i : C_SDSP_UIMM (data i) = RVC.off_sdsp i.
Proof. imm_tac C_SDSP_UIMM RVC.off_sdsp (ubits 12%nat). Qed.
Lemma C_ADDI16SP_NZIMM_off i : C_ADDI16SP_NZIMM (int32 (data i)) = RVC.nzimm_16sp i.
Proof. imm_tac C_ADDI16SP_NZIMM RVC.nzimm_16sp (sbits 10%nat). Qed.
Lemma C_LUI_NZIMM_off i : C_LUI_NZIMM (int32 (data i)) = RVC.imm6 i .<< 12.
Proof. imm_tac C_LUI_NZIMM RVC.imm6 (sbits 18%nat). Qed.
Lemma C_JAL_IMM_off i : C_JAL_IMM (int32 (data i)) = RVC.off_j i.
Proof. imm_tac C_JAL_IMM RVC.off_j (sbits 12%nat). Qed.
Lemma C_BRANCH_IMM_off i : C_BRANCH_IMM (int32 (data i)) = RVC.off_b i.
Proof. imm_tac C_BRANCH_IMM RVC.off_b (sbits 9%nat). Qed.

Lemma c_rd_off i : c_rd i = RVC.rd i.
Proof. apply c_rd_bits. Qed.
Lemma c_rs2_off i : c_rs2 i = RVC.rs2 i.
Proof. apply c_rs2_bits. Qed.
Lemma c_uimm_off i : c_uimm i = RVC.shamt6 i.
Proof. apply c_uimm_bits. Qed.
Lemma c_imm_off i : int32 (c_imm i) = RVC.imm6 i.
Proof. apply c_imm_bits. Qed.
Lemma c_rd_small_off i : c_rd_small i = RVC.rd_p i.
Proof. apply c_rd_small_bits. Qed.
Lemma c_rs2_small_off i : c_rs2_small i = RVC.rs2_p i.
Proof. apply c_rs2_small_bits. Qed.

Create Rewrite HintDb vp_rvc.
#[export] Hint Rewrite C_LW_UIMM_off C_LD_UIMM_off
  C_ADDI4SPN_NZUIMM_off C_LWSP_UIMM_off C_LDSP_UIMM_off C_SWSP_UIMM_off C_SDSP_UIMM_off
  C_ADDI16SP_NZIMM_off C_LUI_NZIMM_off C_JAL_IMM_off C_BRANCH_IMM_off
  c_rd_off c_rd_small_off c_rs2_small_off c_rs2_off c_uimm_off c_imm_off : vp_rvc.

(** ** The instructions the factory builds *)

(** The accessors read back the operands the factory was given, each cut to
    the width of its field. *)
Ltac builds_field :=
  lazymatch goal with
  | |- rd _ = _ => unfold rd
  | |- rs1 _ = _ => unfold rs1
  | |- rs2 _ = _ => unfold rs2
  | |- shamt _ = _ => unfold shamt
  | |- I_imm _ = _ => unfold I_imm
  | |- S_imm _ = _ => unfold S_imm
  | |- B_imm _ = _ => unfold B_imm
  | |- U_imm _ = _ => unfold U_imm
  | |- J_imm _ = _ => unfold J_imm
  end;
  unfold InstructionFactory.T, mk_Instruction, InstructionFactory.fR, InstructionFactory.fI,
    InstructionFactory.fS, InstructionFactory.fB, InstructionFactory.fShift; masks;
  cbv [int32];
  lazymatch goal with
  | |- _ = uint ?w _ => let n := eval vm_compute in (Z.to_nat w) in ubits n
  | |- _ = sint ?w _ => let n := eval vm_compute in (Z.to_nat w) in sbits n
  end.
Ltac builds_tac :=
  apply (f_equal Some), (f_equal (pair _));
  first [ apply f_equal3 | apply f_equal2 ]; builds_field.

Section builds.
Variables a b c : Z.
Let R (m : Mapping) := Some (m, RVC.oR (uint 5 a) (uint 5 b) (uint 5 c)).
Let I (m : Mapping) := Some (m, RVC.oI (uint 5 a) (uint 5 b) (sint 12 c)).
Let Sh (m : Mapping) := Some (m, RVC.oShift (uint 5 a) (uint 5 b) (uint 6 c)).
Let S (m : Mapping) := Some (m, RVC.oS (uint 5 a) (uint 5 b) (sint 12 c)).
Let B (m : Mapping) := Some (m, RVC.oB (uint 5 a) (uint 5 b) (sint 13 (c .& -2))).

(** One lemma per format, for any constant [K] outside of the operand fields. *)

Lemma fR_builds K : operands_of (InstructionFactory.T (InstructionFactory.fR a b c .| (K .& 0xfe00707f)), ADD) = R ADD.
Proof. builds_tac. Qed.
Lemma fI_builds K : operands_of (InstructionFactory.T (InstructionFactory.fI a b c .| (K .& 0x707f)), ADDI) = I ADDI.
Proof. builds_tac. Qed.
Lemma fShift_builds K : operands_of (InstructionFactory.T (InstructionFactory.fShift a b c .| (K .& 0xfc00707f)), SLLI) = Sh SLLI.
Proof. builds_tac. Qed.
Lemma fS_builds K : operands_of (InstructionFactory.T (InstructionFactory.fS a b c .| (K .& 0x707f)), SW) = S SW.
Proof. builds_tac. Qed.
Lemma fB_builds K : operands_of (InstructionFactory.T (InstructionFactory.fB a b c .| (K .& 0x707f)), BEQ) = B BEQ.
Proof. builds_tac. Qed.

Ltac factory_tac F L :=
  unfold R, I, Sh, S, B, F; rewrite <- ?Z.lor_assoc;
  lazymatch goal with
  | |- context [InstructionFactory.T (_ .| ?K)] => generalize (L K)
  end;
  unfold operands_of; cbn [getType];
  let H1 := fresh in let H2 := fresh in let H3 := fresh in
  intros [= H1 H2 H3]; rewrite <- H1, <- H2, <- H3; reflexivity.

Lemma ADD_builds : operands_of (InstructionFactory.ADD a b c, ADD) = R ADD.
Proof. factory_tac InstructionFactory.ADD fR_builds. Qed.
Lemma AND_builds : operands_of (InstructionFactory.AND a b c, AND) = R AND.
Proof. factory_tac InstructionFactory.AND fR_builds. Qed.
Lemma OR_builds : operands_of (InstructionFactory.OR a b c, OR) = R OR.
Proof. factory_tac InstructionFactory.OR fR_builds. Qed.
Lemma XOR_builds : operands_of (InstructionFactory.XOR a b c, XOR) = R XOR.
Proof. factory_tac InstructionFactory.XOR fR_builds. Qed.
Lemma SUB_builds : operands_of (InstructionFactory.SUB a b c, SUB) = R SUB.
Proof. factory_tac InstructionFactory.SUB fR_builds. Qed.
Lemma ADDW_builds : operands_of (InstructionFactory.ADDW a b c, ADDW) = R ADDW.
Proof. factory_tac InstructionFactory.ADDW fR_builds. Qed.
Lemma SUBW_builds : operands_of (InstructionFactory.SUBW a b c, SUBW) = R SUBW.
Proof. factory_tac InstructionFactory.SUBW fR_builds. Qed.
Lemma LW_builds : operands_of (InstructionFactory.LW a b c, LW) = I LW.
Proof. factory_tac InstructionFactory.LW fI_builds. Qed.
Lemma LD_builds : operands_of (InstructionFactory.LD a b c, LD) = I LD.
Proof. factory_tac InstructionFactory.LD fI_builds. Qed.
Lemma FLW_builds : operands_of (InstructionFactory.FLW a b c, FLW) = I FLW.
Proof. factory_tac InstructionFactory.FLW fI_builds. Qed.
Lemma FLD_builds : operands_of (InstructionFactory.FLD a b c, FLD) = I FLD.
Proof. factory_tac InstructionFactory.FLD fI_builds. Qed.
Lemma ADDI_builds : operands_of (InstructionFactory.ADDI a b c, ADDI) = I ADDI.
Proof. factory_tac InstructionFactory.ADDI fI_builds. Qed.
Lemma ANDI_builds : operands_of (InstructionFactory.ANDI a b c, ANDI) = I ANDI.
Proof. factory_tac InstructionFactory.ANDI fI_builds. Qed.
Lemma JALR_builds : operands_of (InstructionFactory.JALR a b c, JALR) = I JALR.
Proof. factory_tac InstructionFactory.JALR fI_builds. Qed.
Lemma SRLI_builds : operands_of (InstructionFactory.SRLI a b c, SRLI) = Sh SRLI.
Proof. factory_tac InstructionFactory.SRLI fShift_builds. Qed.
Lemma SRAI_builds : operands_of (InstructionFactory.SRAI a b c, SRAI) = Sh SRAI.
Proof. factory_tac InstructionFactory.SRAI fShift_builds. Qed.
Lemma SLLI_builds : operands_of (InstructionFactory.SLLI a b c, SLLI) = Sh SLLI.
Proof. factory_tac InstructionFactory.SLLI fShift_builds. Qed.
Lemma SW_builds : operands_of (InstructionFactory.SW a b c, SW) = S SW.
Proof. factory_tac InstructionFactory.SW fS_builds. Qed.
Lemma SD_builds : operands_of (InstructionFactory.SD a b c, SD) = S SD.
Proof. factory_tac InstructionFactory.SD fS_builds. Qed.
Lemma FSW_builds : operands_of (InstructionFactory.FSW a b c, FSW) = S FSW.
Proof. factory_tac InstructionFactory.FSW fS_builds. Qed.
Lemma FSD_builds : operands_of (InstructionFactory.FSD a b c, FSD) = S FSD.
Proof. factory_tac InstructionFactory.FSD fS_builds. Qed.
Lemma BEQ_builds : operands_of (InstructionFactory.BEQ a b c, BEQ) = B BEQ.
Proof. factory_tac InstructionFactory.BEQ fB_builds. Qed.
Lemma BNE_builds : operands_of (InstructionFactory.BNE a b c, BNE) = B BNE.
Proof. factory_tac InstructionFactory.BNE fB_builds. Qed.
(** C.ADDIW builds an ADDI, with the opcode ADDIW next to it. *)
Lemma ADDI_builds_ADDIW : operands_of (InstructionFactory.ADDI a b c, ADDIW) = I ADDIW.
Proof. factory_tac InstructionFactory.ADDI fI_builds. Qed.
Lemma LUI_builds :
  operands_of (InstructionFactory.LUI a b, LUI)
  = Some (LUI, RVC.oU (uint 5 a) (sint 32 (b .& -4096))).
Proof. unfold InstructionFactory.LUI. builds_tac. Qed.
Lemma JAL_builds :
  operands_of (InstructionFactory.JAL a b, JAL)
  = Some (JAL, RVC.oJ (uint 5 a) (sint 21 (b .& -2))).
Proof. unfold InstructionFactory.JAL. builds_tac. Qed.
End builds.

#[export] Hint Rewrite ADD_builds AND_builds OR_builds XOR_builds SUB_builds ADDW_builds
  SUBW_builds LW_builds LD_builds FLW_builds FLD_builds ADDI_builds ANDI_builds JALR_builds
  SRLI_builds SRAI_builds SLLI_builds SW_builds SD_builds FSW_builds FSD_builds BEQ_builds
  BNE_builds ADDI_builds_ADDIW LUI_builds JAL_builds : vp_rvc.

(** ** Expansion *)

Lemma operands_of_unless b i r :
  operands_of (unless b i r) = if b then None else operands_of r.
Proof. by destruct b. Qed.

Lemma bits_place h hi lo to : bits h hi lo to = bits h hi lo 0 .<< to.
Proof. unfold bits. by rewrite Z.shiftl_0_r. Qed.

Lemma bits_range h hi lo : lo <= hi -> is_uint (hi - lo + 1) (bits h hi lo 0).
Proof. intros. unfold bits. rewrite Z.shiftl_0_r. apply uint_range. lia. Qed.

Lemma bits1_cases h k : bits h k k 0 = 0 \/ bits h k k 0 = 1.
Proof.
  pose proof (bits_range h k k ltac:(lia)) as Hr. unfold is_uint in Hr.
  replace (k - k + 1) with 1 in Hr by lia. lia.
Qed.

Lemma bits2_cases h lo :
  let b := bits h (lo + 1) lo 0 in b = 0 \/ b = 1 \/ b = 2 \/ b = 3.
Proof.
  pose proof (bits_range h (lo + 1) lo ltac:(lia)) as Hr. unfold is_uint in Hr.
  replace (lo + 1 - lo + 1) with 2 in Hr by lia. cbv zeta. lia.
Qed.

Lemma bits3_cases h lo :
  let b := bits h (lo + 2) lo 0 in
  b = 0 \/ b = 1 \/ b = 2 \/ b = 3 \/ b = 4 \/ b = 5 \/ b = 6 \/ b = 7.
Proof.
  pose proof (bits_range h (lo + 2) lo ltac:(lia)) as Hr. unfold is_uint in Hr.
  replace (lo + 2 - lo + 1) with 3 in Hr by lia. cbv zeta. lia.
Qed.

Lemma nzuimm_4spn_zero h : bits h 15 0 0 = 0 -> RVC.nzuimm_4spn h = 0.
Proof.
  intros H0. replace (RVC.nzuimm_4spn h) with (RVC.nzuimm_4spn (bits h 15 0 0)).
  - by rewrite H0.
  - clear. unfold RVC.nzuimm_4spn, bits. ubits 10%nat.
Qed.

Lemma off_j_even h : RVC.off_j h .& -2 = RVC.off_j h.
Proof. unfold RVC.off_j, bits. sbits 12%nat. Qed.
Lemma off_b_even h : RVC.off_b h .& -2 = RVC.off_b h.
Proof. unfold RVC.off_b, bits. sbits 9%nat. Qed.
Lemma imm6_page h : (RVC.imm6 h .<< 12) .& -4096 = RVC.imm6 h .<< 12.
Proof. unfold RVC.imm6, bits. sbits 18%nat. Qed.
Lemma imm6_page_zero h : (RVC.imm6 h .<< 12 =? 0) = (RVC.imm6 h =? 0).
Proof. rewrite Z.shiftl_mul_pow2 by lia. lia. Qed.

(** The fields of C.NOP are those of the constant 1. *)
Lemma is_nop_fields h :
  RVC.is_nop h = true ->
  bits h 1 0 0 = 1 /\ bits h 15 13 0 = 0 /\ RVC.rd h = 0 /\ RVC.imm6 h = 0.
Proof.
  intros H%Z.eqb_eq. unfold RVC.rd.
  replace (bits h 1 0 0) with (bits (bits h 15 0 0) 1 0 0) by (clear; unfold bits; ubits 2%nat).
  replace (bits h 15 13 0) with (bits (bits h 15 0 0) 15 13 0)
    by (clear; unfold bits; ubits 3%nat).
  replace (bits h 11 7 0) with (bits (bits h 15 0 0) 11 7 0) by (clear; unfold bits; ubits 5%nat).
  replace (RVC.imm6 h) with (RVC.imm6 (bits h 15 0 0))
    by (clear; unfold RVC.imm6, bits; sbits 6%nat).
  by rewrite H.
Qed.

Lemma when_negb b m o : RVC.when_ (negb b) m o = if b then None else Some (m, o).
Proof. by destruct b. Qed.
Lemma ltb_succ x : (31 <? x) = (32 <=? x).
Proof. lia. Qed.

Lemma arch_of_rv32 rv32 : bool_decide (arch_of rv32 = RV32) = rv32.
Proof. by destruct rv32. Qed.

#[export] Hint Rewrite arch_of_rv32 operands_of_unless off_j_even off_b_even imm6_page imm6_page_zero
  when_negb ltb_succ : vp_rvc.

Ltac id_tac :=
  try reflexivity;
  first [ apply uint_id | apply sint_id; [lia |] ];
  unfold RVC.off_w, RVC.off_d, RVC.off_wsp, RVC.off_dsp, RVC.off_swsp, RVC.off_sdsp,
    RVC.nzuimm_4spn, RVC.nzimm_16sp, RVC.off_j, RVC.off_b, RVC.imm6,
    RVC.rd, RVC.rs2, RVC.rd_p, RVC.rs2_p, RVC.shamt6, bits; range_tac.

(** The operands survive the trip through the 32-bit instruction. *)
Ltac expand_case :=
  cbn [expand_compressed]; unfold RVC.always, C_J_IMM, C_SW_UIMM, C_SD_UIMM; autorewrite with vp_rvc;
  try match goal with H : (RVC.rd _ =? 0) = _ |- _ => rewrite H end; unfold RVC.when_;
  repeat match goal with
  | |- context [if ?b then _ else _] => destruct b
  end;
  try reflexivity;
  first
    [ apply (f_equal Some), (f_equal (pair _));
      first [ apply f_equal3 | apply f_equal2 ]; id_tac ].

Section expansion.
Variables (i : Instruction) (rv32 : bool).
Local Abbreviation arch := (arch_of rv32).

Lemma on_rv32_arch a b : on_rv32 arch a b = if rv32 then a else b.
Proof. by destruct rv32. Qed.

Lemma expand_quadrant0 :
  operands_of (expand_compressed i (decode_quadrant0 i arch) arch) = RVC.quadrant0 rv32 i.
Proof.
  unfold decode_quadrant0, RVC.quadrant0. rewrite c_opcode_bits, c_format_bits.
  destruct (bits3_cases i 13) as [H|[H|[H|[H|[H|[H|[H|H]]]]]]];
    change (13 + 2) with 15 in H; rewrite H, ?on_rv32_arch.
  - destruct (bits i 15 0 0 =? 0) eqn:H0; [| expand_case].
    apply Z.eqb_eq in H0. by rewrite nzuimm_4spn_zero.
  - expand_case.
  - expand_case.
  - destruct rv32; expand_case.
  - expand_case.
  - expand_case.
  - expand_case.
  - destruct rv32; expand_case.
Qed.

(** The decoder answers the RV64 instructions whatever the architecture. *)
Lemma expand_quadrant1_alu :
  bits i 1 0 0 = 1 -> bits i 15 13 0 = 4 ->
  operands_of (expand_compressed i (decode_quadrant1 i arch) arch)
  = match RVC.word_alu i with
    | Some op => Some (op, RVC.oR (RVC.rd_p i) (RVC.rd_p i) (RVC.rs2_p i))
    | None => RVC.quadrant1_alu rv32 i
    end.
Proof.
  intros Hq H. unfold decode_quadrant1, RVC.quadrant1_alu, RVC.word_alu.
  rewrite c_opcode_bits, Hq, H, c_f2_high_bits, c_f2_low_bits, c_b12_bits.
  destruct (bits2_cases i 10) as [E|[E|[E|E]]]; change (10 + 1) with 11 in E; rewrite E;
    cbn [Z.eqb Pos.eqb andb].
  - expand_case.
  - expand_case.
  - expand_case.
  - rewrite (bits_place i 12 12 2).
    destruct (bits2_cases i 5) as [F|[F|[F|F]]]; change (5 + 1) with 6 in F; rewrite F;
    destruct (bits1_cases i 12) as [G|G]; rewrite G;
      cbn [nonzero Z.eqb negb Z.shiftl Z.lor Pos.lor Pos.iter]; expand_case.
Qed.

Lemma expand_quadrant1 :
  bits i 1 0 0 = 1 ->
  operands_of (expand_compressed i (decode_quadrant1 i arch) arch)
  = if RVC.is_nop i then Some (ADD, RVC.oR 0 0 0)
    else match RVC.word_alu i with
         | Some op => Some (op, RVC.oR (RVC.rd_p i) (RVC.rd_p i) (RVC.rs2_p i))
         | None => RVC.quadrant1 rv32 i
         end.
Proof.
  intros Hq. destruct (RVC.is_nop i) eqn:Hnop.
  { unfold decode_quadrant1. destruct (is_nop_fields _ Hnop) as (_ & H & _).
    apply Z.eqb_eq in Hnop. rewrite c_opcode_bits, H, c_format_bits, Hnop. reflexivity. }
  unfold RVC.is_nop in Hnop.
  destruct (bits3_cases i 13) as [H|[H|[H|[H|[H|[H|[H|H]]]]]]];
    change (13 + 2) with 15 in H.
  5: { rewrite expand_quadrant1_alu by done. unfold RVC.quadrant1. by rewrite H. }
  all: unfold RVC.word_alu; rewrite Hq, H; cbn [Z.eqb Pos.eqb andb];
    unfold RVC.quadrant1, decode_quadrant1;
    rewrite c_opcode_bits, H, ?c_format_bits, ?Hnop, ?on_rv32_arch.
  - expand_case.
  - destruct rv32; expand_case.
  - expand_case.
  - rewrite c_rd_off. destruct (RVC.rd i =? 2); expand_case.
  - expand_case.
  - expand_case.
  - expand_case.
Qed.

Lemma expand_quadrant2 :
  bits i 1 0 0 = 2 ->
  operands_of (expand_compressed i (decode_quadrant2 i arch) arch)
  = if RVC.is_add_hint i then Some (EBREAK, RVC.oNone) else RVC.quadrant2 rv32 i.
Proof.
  intros Hq. unfold RVC.is_add_hint. rewrite Hq.
  unfold RVC.quadrant2, decode_quadrant2.
  rewrite c_opcode_bits, c_b12_bits, c_rd_off, c_rs2_off.
  destruct (bits3_cases i 13) as [H|[H|[H|[H|[H|[H|[H|H]]]]]]];
    change (13 + 2) with 15 in H; rewrite H, ?on_rv32_arch; cbn [Z.eqb Pos.eqb andb].
  - expand_case.
  - expand_case.
  - expand_case.
  - destruct rv32; expand_case.
  - unfold nonzero.
    destruct (bits1_cases i 12) as [G|G]; rewrite G; cbn [Z.eqb Pos.eqb andb];
      destruct (RVC.rd i =? 0) eqn:Hrd, (RVC.rs2 i =? 0); cbn [negb andb]; expand_case.
  - expand_case.
  - expand_case.
  - destruct rv32; expand_case.
Qed.

(** What the tables say of the words for which the decoder departs from them. *)
Lemma nop_expansion : RVC.is_nop i = true -> RVC.expansion rv32 i = Some (ADDI, RVC.oI 0 0 0).
Proof.
  intros (H1 & H2 & H3 & H4)%is_nop_fields. unfold RVC.expansion, RVC.quadrant1.
  by rewrite H1, H2, H3, H4.
Qed.
Lemma add_hint_expansion :
  RVC.is_add_hint i = true -> RVC.expansion rv32 i = Some (ADD, RVC.oR 0 0 (RVC.rs2 i)).
Proof.
  unfold RVC.is_add_hint. intros H. rewrite !andb_true_iff, negb_true_iff, !Z.eqb_eq in H.
  destruct H as ((((H1 & H2) & H3) & H4) & H5).
  unfold RVC.expansion, RVC.quadrant2. by rewrite H1, H2, H3, H4, H5.
Qed.
Lemma word_alu_expansion op :
  RVC.word_alu i = Some op ->
  RVC.expansion rv32 i
  = if rv32 then None else Some (op, RVC.oR (RVC.rd_p i) (RVC.rd_p i) (RVC.rs2_p i)).
Proof.
  unfold RVC.word_alu, RVC.expansion, RVC.quadrant1, RVC.quadrant1_alu. intros H.
  destruct (bits i 1 0 0 =? 1) eqn:H1, (bits i 15 13 0 =? 4) eqn:H2,
    (bits i 11 10 0 =? 3) eqn:H3; try discriminate H.
  apply Z.eqb_eq in H1, H2, H3. rewrite H1, H2, H3. cbn [andb] in H.
  repeat (case_match; try discriminate H); by injection H as <-.
Qed.
Lemma word_alu_apart op :
  RVC.word_alu i = Some op -> RVC.is_nop i = false /\ RVC.is_add_hint i = false.
Proof using i rv32.
  intros H. split; apply not_true_is_false.
  - intros N%nop_expansion. apply word_alu_expansion in H. rewrite N in H.
    by destruct rv32.
  - unfold RVC.is_add_hint, RVC.word_alu in *. intros N.
    rewrite !andb_true_iff, !Z.eqb_eq in N. destruct N as ((((N & _) & _) & _) & _).
    by rewrite N in H.
Qed.
End expansion.

(** Expanding, with the table's entry but for the words of three sets. *)
Definition decoded (rv32 : bool) (i : Instruction) : option (Mapping * RVC.operands) :=
  if RVC.is_nop i then Some (ADD, RVC.oR 0 0 0)
  else if RVC.is_add_hint i then Some (EBREAK, RVC.oNone)
  else match RVC.word_alu i with
       | Some op => Some (op, RVC.oR (RVC.rd_p i) (RVC.rd_p i) (RVC.rs2_p i))
       | None => RVC.expansion rv32 i
       end.

Lemma expand_decoded (i : Instruction) (rv32 : bool) :
  quadrant i <> 3 ->
  option_map operands_of (decode_and_expand_compressed i (arch_of rv32))
  = Some (decoded rv32 i).
Proof.
  rewrite quadrant_bits. intros H.
  unfold decode_and_expand_compressed, decode_compressed, decoded, RVC.expansion.
  rewrite quadrant_bits.
  assert (Hn : bits i 1 0 0 <> 1 -> RVC.is_nop i = false /\ RVC.word_alu i = None).
  { intros Hq. split.
    - apply not_true_is_false. by intros (? & _)%is_nop_fields.
    - unfold RVC.word_alu. by apply Z.eqb_neq in Hq as ->. }
  assert (Hh : bits i 1 0 0 <> 2 -> RVC.is_add_hint i = false).
  { intros Hq. unfold RVC.is_add_hint. by apply Z.eqb_neq in Hq as ->. }
  destruct (bits2_cases i 0) as [E|[E|[E|E]]]; change (0 + 1) with 1 in E; rewrite E in *;
    cbn [option_map]; f_equal.
  - destruct Hn as [-> ->]; [done |]. rewrite Hh by done. apply expand_quadrant0.
  - rewrite Hh by done. by apply expand_quadrant1.
  - destruct Hn as [-> ->]; [done |]. by apply expand_quadrant2.
  - done.
Qed.

(** C5: expanding a compressed instruction, against the RVC tables of the ISA
    manual.  For every word that is not a 32-bit instruction and for RV32 and
    RV64 the decoder returns.  Reading the opcode and the operands from the word
    it leaves behind (immediates included) gives what the table
    [RVC.expansion] says the 16-bit instruction expands to, UNDEF where the
    table has no instruction, except for three sets of words, for which the
    theorem says what the table has and what the decoder gives: the word of
    C.NOP, ADDI x0, x0, 0 in the manual, becomes ADD x0, x0, x0 (with the same
    effect); C.ADD with destination x0, a HINT without effect in the manual,
    becomes EBREAK, because the decoder does not look at rs2; and C.SUBW and
    C.ADDW, reserved in RV32, become SUBW and ADDW there too (instructions the
    RV32 core rejects only when it executes them). *)
Theorem expand_compressed_RVC (i : Instruction) (rv32 : bool) :
  quadrant i <> 3 ->
  let result := option_map operands_of (decode_and_expand_compressed i (arch_of rv32)) in
  (RVC.is_nop i = false -> RVC.is_add_hint i = false ->
   (rv32 = true -> RVC.word_alu i = None) ->
   result = Some (RVC.expansion rv32 i)) /\
  (RVC.is_nop i = true ->
   RVC.expansion rv32 i = Some (ADDI, RVC.oI 0 0 0) /\
   result = Some (Some (ADD, RVC.oR 0 0 0))) /\
  (RVC.is_add_hint i = true ->
   RVC.expansion rv32 i = Some (ADD, RVC.oR 0 0 (RVC.rs2 i)) /\
   result = Some (Some (EBREAK, RVC.oNone))) /\
  (forall op, rv32 = true -> RVC.word_alu i = Some op ->
   RVC.expansion rv32 i = None /\
   result = Some (Some (op, RVC.oR (RVC.rd_p i) (RVC.rd_p i) (RVC.rs2_p i)))).
Proof.
  intros H result. unfold result. rewrite expand_decoded by done. clear result.
  unfold decoded. split_and!.
  - intros -> -> Hw. destruct (RVC.word_alu i) eqn:E; [| done].
    rewrite (word_alu_expansion _ _ _ E). destruct rv32; [by specialize (Hw eq_refl) | done].
  - intros N. rewrite N. split; [by apply nop_expansion | done].
  - intros N. rewrite N. split; [by apply add_hint_expansion |].
    destruct (RVC.is_nop i) eqn:N'; [| done].
    apply (nop_expansion i rv32) in N'. by rewrite (add_hint_expansion i rv32 N) in N'.
  - intros op -> E. rewrite (word_alu_expansion _ true _ E).
    destruct (word_alu_apart i true op E) as [-> ->]. by rewrite E.
Qed.

Definition c_lw_a5_4_a4 : Instruction := mk_Instruction 0x435c.

(** 0x9006: bits 12 and 2 set, no destination: C.ADD x0, x1 in the manual. *)
Definition c_add_x0_x1 : Instruction := mk_Instruction 0x9006.

(** c.lw a5, 4(a4): 0x435c, and the HINT that becomes EBREAK *)
Lemma expand_compressed_RVC_witness :
  option_map operands_of (decode_and_expand_compressed c_lw_a5_4_a4 RV32)
  = Some (Some (LW, RVC.oI 15 14 4)) /\
  RVC.expansion true c_add_x0_x1 = Some (ADD, RVC.oR 0 0 1) /\
  option_map operands_of (decode_and_expand_compressed c_add_x0_x1 RV32)
  = Some (Some (EBREAK, RVC.oNone)).
Proof.
  split.
  - exact (proj1 (expand_compressed_RVC c_lw_a5_4_a4 true ltac:(vm_compute; discriminate))
      eq_refl eq_refl (fun _ => eq_refl)).
  - exact (proj1 (proj2 (proj2 (expand_compressed_RVC c_add_x0_x1 true
      ltac:(vm_compute; discriminate)))) eq_refl).
Defined.

(** ** Decoding what the factory builds *)

Section redecode.
Import (notations) InstructionFactory.
Variables (arch : Architecture) (a b c : Z).
Local Abbreviation T := InstructionFactory.T.

(** The bits of a word outside of the operand fields of its format are those
    of the constant the factory adds. *)
Ltac mask_tac :=
  unfold data, T, mk_Instruction, InstructionFactory.fR, InstructionFactory.fI,
    InstructionFactory.fS, InstructionFactory.fB, InstructionFactory.fShift;
  cbv [uint32 int32]; ubits 32%nat.

Lemma fR_mask K :
  data (T (InstructionFactory.fR a b c .| K)) .& 0xfe00707f = uint32 K .& 0xfe00707f.
Proof. mask_tac. Qed.
Lemma fI_mask K :
  data (T (InstructionFactory.fI a b c .| K)) .& 0x707f = uint32 K .& 0x707f.
Proof. mask_tac. Qed.
Lemma fS_mask K :
  data (T (InstructionFactory.fS a b c .| K)) .& 0x707f = uint32 K .& 0x707f.
Proof. mask_tac. Qed.
Lemma fB_mask K :
  data (T (InstructionFactory.fB a b c .| K)) .& 0x707f = uint32 K .& 0x707f.
Proof. mask_tac. Qed.
Lemma fShift_mask K :
  data (T (InstructionFactory.fShift a b c .| K)) .& 0xfc00707f = uint32 K .& 0xfc00707f.
Proof. mask_tac. Qed.
Lemma fShift_mask_32 K :
  data (T (InstructionFactory.fShift a b (uint 5 c) .| K)) .& 0xfe00707f
  = uint32 K .& 0xfe00707f.
Proof. mask_tac. Qed.

Lemma matches_mask w op M E :
  instr_pattern arch op = Some (M, E) -> data w .& M = E -> matches arch w op = true.
Proof. intros Hp Hw. unfold matches. rewrite Hp. cbn. rewrite Hw. apply Z.eqb_refl. Qed.

Ltac redecode F L :=
  apply decode_normal_complete;
  eapply matches_mask; [by (destruct arch; reflexivity) || reflexivity |];
  unfold F; rewrite <- ?Z.lor_assoc; rewrite L; reflexivity.

Lemma ADD_redecode : decode_normal arch (InstructionFactory.ADD a b c) = ADD.
Proof. redecode InstructionFactory.ADD fR_mask. Qed.
Lemma AND_redecode : decode_normal arch (InstructionFactory.AND a b c) = AND.
Proof. redecode InstructionFactory.AND fR_mask. Qed.
Lemma OR_redecode : decode_normal arch (InstructionFactory.OR a b c) = OR.
Proof. redecode InstructionFactory.OR fR_mask. Qed.
Lemma XOR_redecode : decode_normal arch (InstructionFactory.XOR a b c) = XOR.
Proof. redecode InstructionFactory.XOR fR_mask. Qed.
Lemma SUB_redecode : decode_normal arch (InstructionFactory.SUB a b c) = SUB.
Proof. redecode InstructionFactory.SUB fR_mask. Qed.
Lemma ADDW_redecode : decode_normal arch (InstructionFactory.ADDW a b c) = ADDW.
Proof. redecode InstructionFactory.ADDW fR_mask. Qed.
Lemma SUBW_redecode : decode_normal arch (InstructionFactory.SUBW a b c) = SUBW.
Proof. redecode InstructionFactory.SUBW fR_mask. Qed.
Lemma LW_redecode : decode_normal arch (InstructionFactory.LW a b c) = LW.
Proof. redecode InstructionFactory.LW fI_mask. Qed.
Lemma LD_redecode : decode_normal arch (InstructionFactory.LD a b c) = LD.
Proof. redecode InstructionFactory.LD fI_mask. Qed.
Lemma FLW_redecode : decode_normal arch (InstructionFactory.FLW a b c) = FLW.
Proof. redecode InstructionFactory.FLW fI_mask. Qed.
Lemma FLD_redecode : decode_normal arch (InstructionFactory.FLD a b c) = FLD.
Proof. redecode InstructionFactory.FLD fI_mask. Qed.
Lemma ADDI_redecode : decode_normal arch (InstructionFactory.ADDI a b c) = ADDI.
Proof. redecode InstructionFactory.ADDI fI_mask. Qed.
Lemma ANDI_redecode : decode_normal arch (InstructionFactory.ANDI a b c) = ANDI.
Proof. redecode InstructionFactory.ANDI fI_mask. Qed.
Lemma JALR_redecode : decode_normal arch (InstructionFactory.JALR a b c) = JALR.
Proof. redecode InstructionFactory.JALR fI_mask. Qed.
Lemma SW_redecode : decode_normal arch (InstructionFactory.SW a b c) = SW.
Proof. redecode InstructionFactory.SW fS_mask. Qed.
Lemma SD_redecode : decode_normal arch (InstructionFactory.SD a b c) = SD.
Proof. redecode InstructionFactory.SD fS_mask. Qed.
Lemma FSW_redecode : decode_normal arch (InstructionFactory.FSW a b c) = FSW.
Proof. redecode InstructionFactory.FSW fS_mask. Qed.
Lemma FSD_redecode : decode_normal arch (InstructionFactory.FSD a b c) = FSD.
Proof. redecode InstructionFactory.FSD fS_mask. Qed.
Lemma BEQ_redecode : decode_normal arch (InstructionFactory.BEQ a b c) = BEQ.
Proof. redecode InstructionFactory.BEQ fB_mask. Qed.
Lemma BNE_redecode : decode_normal arch (InstructionFactory.BNE a b c) = BNE.
Proof. redecode InstructionFactory.BNE fB_mask. Qed.
Lemma LUI_redecode : decode_normal arch (InstructionFactory.LUI a b) = LUI.
Proof.
  apply decode_normal_complete. eapply matches_mask; [by destruct arch |].
  unfold InstructionFactory.LUI. mask_tac.
Qed.
Lemma JAL_redecode : decode_normal arch (InstructionFactory.JAL a b) = JAL.
Proof.
  apply decode_normal_complete. eapply matches_mask; [by destruct arch |].
  unfold InstructionFactory.JAL. mask_tac.
Qed.
Lemma EBREAK_redecode : decode_normal arch InstructionFactory.EBREAK = EBREAK.
Proof. by destruct arch. Qed.
End redecode.

Section redecode_shift.
Variables (rv32 : bool) (a b c : Z).
Hypothesis Hc : is_uint 6 c.
Hypothesis Hs : rv32 && (31 <? c) = false.

Ltac redecode F :=
  apply decode_normal_complete; unfold F; rewrite <- ?Z.lor_assoc;
  destruct rv32;
  [ rewrite <- (uint_id 5 c) by (unfold is_uint in *; lia);
    eapply matches_mask; [reflexivity | rewrite fShift_mask_32; reflexivity]
  | eapply matches_mask; [reflexivity | rewrite fShift_mask; reflexivity] ].

Lemma SLLI_redecode : decode_normal (arch_of rv32) (InstructionFactory.SLLI a b c) = SLLI.
Proof using Hc Hs. redecode InstructionFactory.SLLI. Qed.
Lemma SRLI_redecode : decode_normal (arch_of rv32) (InstructionFactory.SRLI a b c) = SRLI.
Proof using Hc Hs. redecode InstructionFactory.SRLI. Qed.
Lemma SRAI_redecode : decode_normal (arch_of rv32) (InstructionFactory.SRAI a b c) = SRAI.
Proof using Hc Hs. redecode InstructionFactory.SRAI. Qed.
End redecode_shift.

Lemma c_uimm_range i : is_uint 6 (c_uimm i).
Proof. rewrite c_uimm_off. unfold RVC.shamt6, bits. range_tac. Qed.

Create Rewrite HintDb vp_redecode.
#[export] Hint Rewrite ADD_redecode AND_redecode OR_redecode XOR_redecode SUB_redecode ADDW_redecode SUBW_redecode LW_redecode LD_redecode FLW_redecode FLD_redecode ADDI_redecode ANDI_redecode JALR_redecode SW_redecode SD_redecode FSW_redecode FSD_redecode BEQ_redecode BNE_redecode
  LUI_redecode JAL_redecode EBREAK_redecode : vp_redecode.

Lemma expand_redecode (i w : Instruction) (c_op : C_Opcode) (rv32 : bool) (op : Mapping) :
  expand_compressed i c_op (arch_of rv32) = (w, op) -> op <> UNDEF ->
  decode_normal (arch_of rv32) w = match op with ADDIW => ADDI | _ => op end.
Proof.
  destruct c_op; cbn [expand_compressed]; unfold unless;
    rewrite ?arch_of_rv32;
    lazymatch goal with
    | |- context [if ?b then _ else _] => destruct b eqn:Hb
    | |- _ => idtac
    end;
    intros [= <- <-] Hop; try done;
    first
      [ by autorewrite with vp_redecode
      | apply SLLI_redecode; [apply c_uimm_range | done]
      | apply SRLI_redecode; [apply c_uimm_range | done]
      | apply SRAI_redecode; [apply c_uimm_range | done] ].
Qed.

(** The two decoders agree: the 32-bit word that an expansion leaves behind
    decodes, by the decoder for 32-bit instructions, to the opcode that the
    expansion returned, on RV32 and RV64.  C.ADDIW is the one exception: the
    word it leaves is the one of the corresponding ADDI. *)
Theorem expand_compressed_redecode (i w : Instruction) (rv32 : bool) (op : Mapping) :
  decode_and_expand_compressed i (arch_of rv32) = Some (w, op) -> op <> UNDEF ->
  decode_normal (arch_of rv32) w = match op with ADDIW => ADDI | _ => op end.
Proof.
  unfold decode_and_expand_compressed.
  destruct (decode_compressed i (arch_of rv32)) as [c_op|]; [| done].
  intros [= H]. by apply (expand_redecode i w c_op).
Qed.

Lemma expand_compressed_redecode_witness :
  decode_normal RV32 (InstructionFactory.LW 15 14 4) = LW.
Proof.
  refine (expand_compressed_redecode c_lw_a5_4_a4 (InstructionFactory.LW 15 14 4) true LW _ _).
  - vm_compute. reflexivity.
  - discriminate.
Defined.
