(* ===== verification/Trap.v ===== *)
(** * Traps, privilege levels and core status

    Models core/common/trap.h, the privilege levels of core/common/irq_if.h and
    the core status of core/common/core_defs.h.  Exception codes are plain
    numbers: the interrupt and the exception enumerators share their values. *)

From S2P Require Import Prelude.

(** ** enum ExceptionCode *)

Definition EXC_U_SOFTWARE_INTERRUPT : Z := 0.
Definition EXC_S_SOFTWARE_INTERRUPT : Z := 1.
Definition EXC_M_SOFTWARE_INTERRUPT : Z := 3.
Definition EXC_U_TIMER_INTERRUPT : Z := 4.
Definition EXC_S_TIMER_INTERRUPT : Z := 5.
Definition EXC_M_TIMER_INTERRUPT : Z := 7.
Definition EXC_U_EXTERNAL_INTERRUPT : Z := 8.
Definition EXC_S_EXTERNAL_INTERRUPT : Z := 9.
Definition EXC_M_EXTERNAL_INTERRUPT : Z := 11.

Definition EXC_INSTR_ADDR_MISALIGNED : Z := 0.
Definition EXC_INSTR_ACCESS_FAULT : Z := 1.
Definition EXC_ILLEGAL_INSTR : Z := 2.
Definition EXC_BREAKPOINT : Z := 3.
Definition EXC_LOAD_ADDR_MISALIGNED : Z := 4.
Definition EXC_LOAD_ACCESS_FAULT : Z := 5.
Definition EXC_STORE_AMO_ADDR_MISALIGNED : Z := 6.
Definition EXC_STORE_AMO_ACCESS_FAULT : Z := 7.
Definition EXC_ECALL_U_MODE : Z := 8.
Definition EXC_ECALL_S_MODE : Z := 9.
Definition EXC_ECALL_M_MODE : Z := 11.
Definition EXC_INSTR_PAGE_FAULT : Z := 12.
Definition EXC_LOAD_PAGE_FAULT : Z := 13.
Definition EXC_STORE_AMO_PAGE_FAULT : Z := 15.

(** ** struct SimulationTrap *)

Record SimulationTrap : Type := mkTrap { reason : Z; mtval : Z }.

#[export] Instance SimulationTrap_eq_dec : EqDecision SimulationTrap.
Proof. solve_decision. Defined.

Definition raise_trap {S A} (exc mtval : Z) : M S SimulationTrap A :=
  throw (mkTrap exc mtval).

(** ** PrivilegeLevel *)

Definition PrivilegeLevel : Type := Z.
Definition MachineMode : PrivilegeLevel := 3.
Definition HypervisorMode : PrivilegeLevel := 2.
Definition SupervisorMode : PrivilegeLevel := 1.
Definition UserMode : PrivilegeLevel := 0.
Definition NoneMode : PrivilegeLevel := uint32 (-1).

Definition is_valid_privilege_level (mode : PrivilegeLevel) : bool :=
  (mode =? MachineMode) || (mode =? SupervisorMode) || (mode =? UserMode).

(** ** enum class CoreExecStatus *)

Inductive CoreExecStatus : Set := Runnable | HitBreakpoint | Terminated.

#[export] Instance CoreExecStatus_eq_dec : EqDecision CoreExecStatus.
Proof. solve_decision. Defined.
