(* ===== verification/Csr.v ===== *)
(** * Control and status registers

    Models core/rv32/csr.h: the registers of [csr_table], their bit fields, the
    write and read masks of [namespace csr], the CSR addresses and the map from
    addresses to registers.  A register is the unsigned value of its [reg]
    member; the table is a finite map from register names to values, in which
    a register that was never written is 0, its initial value in the code. *)

From S2P Require Import Prelude Trap.

(** ** Bit fields

    A member of the struct inside a register's union: its lowest bit and its
    width. *)

Record bitfield : Type := BitField { bf_lo : Z; bf_width : Z }.

Definition bf_wf (f : bitfield) : Prop := 0 <= bf_lo f /\ 0 < bf_width f.

Definition get_field (f : bitfield) (v : Z) : Z := uint (bf_width f) (v .>> bf_lo f).

Definition set_field (f : bitfield) (x v : Z) : Z :=
  Z.ldiff v (Z.ones (bf_width f) .<< bf_lo f) .| (uint (bf_width f) x .<< bf_lo f).

Module misa.
Definition extensions := BitField 0 26.
Definition wiri := BitField 26 4.
Definition mxl := BitField 30 2.
End misa.

Module mstatus.
Definition uie := BitField 0 1.
Definition sie := BitField 1 1.
Definition mie := BitField 3 1.
Definition upie := BitField 4 1.
Definition spie := BitField 5 1.
Definition mpie := BitField 7 1.
Definition spp := BitField 8 1.
Definition mpp := BitField 11 2.
Definition fs := BitField 13 2.
Definition mprv := BitField 17 1.
Definition sum := BitField 18 1.
Definition mxr := BitField 19 1.
Definition tvm := BitField 20 1.
Definition tw := BitField 21 1.
Definition tsr := BitField 22 1.
Definition sd := BitField 31 1.
End mstatus.

Module mtvec.
Definition mode := BitField 0 2.
Definition base := BitField 2 30.
Definition Direct : Z := 0.
Definition Vectored : Z := 1.
Definition get_base_address (v : Z) : Z := uint32 (get_field base v .<< 2).
Definition checked_write (val : Z) : Z :=
  let v := uint32 val in if 1 <=? get_field mode v then set_field mode 0 v else v.
End mtvec.

Module mip.
Definition usip := BitField 0 1.
Definition ssip := BitField 1 1.
Definition msip := BitField 3 1.
Definition utip := BitField 4 1.
Definition stip := BitField 5 1.
Definition mtip := BitField 7 1.
Definition ueip := BitField 8 1.
Definition seip := BitField 9 1.
Definition meip := BitField 11 1.
End mip.

Module mcause.
Definition exception_code := BitField 0 31.
Definition interrupt := BitField 31 1.
End mcause.

Module mcountinhibit.
Definition CY := BitField 0 1.
Definition IR := BitField 2 1.
End mcountinhibit.

Module satp.
Definition ppn := BitField 0 22.
Definition asid := BitField 22 9.
Definition mode := BitField 31 1.
End satp.

Module fcsr.
Definition fflags := BitField 0 5.
Definition frm := BitField 5 3.
End fcsr.

Definition FS_OFF : Z := 0.
Definition FS_INITIAL : Z := 1.
Definition FS_CLEAN : Z := 2.
Definition FS_DIRTY : Z := 3.

(** ** struct csr_misa *)

Definition A_ISA_EXT : Z := 1.
Definition C_ISA_EXT : Z := 1 .<< 2.
Definition D_ISA_EXT : Z := 1 .<< 3.
Definition E_ISA_EXT : Z := 1 .<< 4.
Definition F_ISA_EXT : Z := 1 .<< 5.
Definition I_ISA_EXT : Z := 1 .<< 8.
Definition M_ISA_EXT : Z := 1 .<< 12.
Definition N_ISA_EXT : Z := 1 .<< 13.
Definition S_ISA_EXT : Z := 1 .<< 18.
Definition U_ISA_EXT : Z := 1 .<< 20.

Definition misa_init : Z :=
  let extensions := I_ISA_EXT .| M_ISA_EXT .| A_ISA_EXT .| F_ISA_EXT .| C_ISA_EXT
                    .| N_ISA_EXT .| U_ISA_EXT .| S_ISA_EXT in
  set_field misa.mxl 1 (set_field misa.wiri 0 (set_field misa.extensions extensions 0)).

Definition has_C_extension (misa : Z) : bool :=
  nonzero (get_field misa.extensions misa .& C_ISA_EXT).
Definition has_E_base_isa (misa : Z) : bool :=
  nonzero (get_field misa.extensions misa .& E_ISA_EXT).
Definition has_user_mode_extension (misa : Z) : bool :=
  nonzero (get_field misa.extensions misa .& U_ISA_EXT).
Definition has_supervisor_mode_extension (misa : Z) : bool :=
  nonzero (get_field misa.extensions misa .& S_ISA_EXT).
Definition select_E_base_isa (misa : Z) : Z :=
  let e := Z.ldiff (get_field misa.extensions misa) I_ISA_EXT .| E_ISA_EXT in
  set_field misa.extensions e misa.

(** ** namespace csr: masks *)

Definition MIE_MASK : Z := 0xbbb.
Definition SIE_MASK : Z := 0x333.
Definition UIE_MASK : Z := 0x111.
Definition MIP_WRITE_MASK : Z := 0x333.
Definition MIP_READ_MASK : Z := MIE_MASK.
Definition SIP_MASK : Z := 0x3.
Definition UIP_MASK : Z := 0x1.
Definition MEDELEG_MASK : Z := 0xbbff.
Definition MIDELEG_MASK : Z := MIE_MASK.
Definition MTVEC_MASK : Z := uint32 (Z.lnot 2).
Definition MCOUNTEREN_MASK : Z := 0x7.
Definition MCOUNTINHIBIT_MASK : Z := 0x5.
Definition SEDELEG_MASK : Z := 0xb1ff.
Definition SIDELEG_MASK : Z := MIDELEG_MASK.
Definition MSTATUS_MASK : Z := 0x807ff9bb.
Definition SSTATUS_MASK : Z := 0x800de133.
Definition USTATUS_MASK : Z := 0x11.
Definition SATP_MASK : Z := 0x803fffff.
Definition SATP_MODE : Z := 0x80000000.
Definition FCSR_MASK : Z := 0xff.

(** [csr::is_bitset(csr, bitpos)] *)
Definition is_bitset (v bitpos : Z) : bool := nonzero (v .& uint32 (1 .<< bitpos)).

(** ** namespace csr: addresses *)

Definition CYCLE_ADDR : Z := 0xc00.
Definition CYCLEH_ADDR : Z := 0xc80.
Definition TIME_ADDR : Z := 0xc01.
Definition TIMEH_ADDR : Z := 0xc81.
Definition INSTRET_ADDR : Z := 0xc02.
Definition INSTRETH_ADDR : Z := 0xc82.
Definition MCYCLE_ADDR : Z := 0xb00.
Definition MCYCLEH_ADDR : Z := 0xb80.
Definition MTIME_ADDR : Z := 0xb01.
Definition MTIMEH_ADDR : Z := 0xb81.
Definition MINSTRET_ADDR : Z := 0xb02.
Definition MINSTRETH_ADDR : Z := 0xb82.
Definition TSELECT_ADDR : Z := 0x7a0.
Definition TDATA1_ADDR : Z := 0x7a1.
Definition TDATA2_ADDR : Z := 0x7a2.
Definition TDATA3_ADDR : Z := 0x7a3.
Definition DCSR_ADDR : Z := 0x7b0.
Definition DPC_ADDR : Z := 0x7b1.
Definition DSCRATCH0_ADDR : Z := 0x7b2.
Definition DSCRATCH1_ADDR : Z := 0x7b3.
Definition MVENDORID_ADDR : Z := 0xf11.
Definition MARCHID_ADDR : Z := 0xf12.
Definition MIMPID_ADDR : Z := 0xf13.
Definition MHARTID_ADDR : Z := 0xf14.
Definition MSTATUS_ADDR : Z := 0x300.
Definition MISA_ADDR : Z := 0x301.
Definition MEDELEG_ADDR : Z := 0x302.
Definition MIDELEG_ADDR : Z := 0x303.
Definition MIE_ADDR : Z := 0x304.
Definition MTVEC_ADDR : Z := 0x305.
Definition MCOUNTEREN_ADDR : Z := 0x306.
Definition MCOUNTINHIBIT_ADDR : Z := 0x320.
Definition MSCRATCH_ADDR : Z := 0x340.
Definition MEPC_ADDR : Z := 0x341.
Definition MCAUSE_ADDR : Z := 0x342.
Definition MTVAL_ADDR : Z := 0x343.
Definition MIP_ADDR : Z := 0x344.
Definition PMPCFG0_ADDR : Z := 0x3a0.
Definition PMPCFG1_ADDR : Z := 0x3a1.
Definition PMPCFG2_ADDR : Z := 0x3a2.
Definition PMPCFG3_ADDR : Z := 0x3a3.
Definition PMPADDR0_ADDR : Z := 0x3b0.
Definition PMPADDR1_ADDR : Z := 0x3b1.
Definition PMPADDR2_ADDR : Z := 0x3b2.
Definition PMPADDR3_ADDR : Z := 0x3b3.
Definition PMPADDR4_ADDR : Z := 0x3b4.
Definition PMPADDR5_ADDR : Z := 0x3b5.
Definition PMPADDR6_ADDR : Z := 0x3b6.
Definition PMPADDR7_ADDR : Z := 0x3b7.
Definition PMPADDR8_ADDR : Z := 0x3b8.
Definition PMPADDR9_ADDR : Z := 0x3b9.
Definition PMPADDR10_ADDR : Z := 0x3ba.
Definition PMPADDR11_ADDR : Z := 0x3bb.
Definition PMPADDR12_ADDR : Z := 0x3bc.
Definition PMPADDR13_ADDR : Z := 0x3bd.
Definition PMPADDR14_ADDR : Z := 0x3be.
Definition PMPADDR15_ADDR : Z := 0x3bf.
Definition SSTATUS_ADDR : Z := 0x100.
Definition SEDELEG_ADDR : Z := 0x102.
Definition SIDELEG_ADDR : Z := 0x103.
Definition SIE_ADDR : Z := 0x104.
Definition STVEC_ADDR : Z := 0x105.
Definition SCOUNTEREN_ADDR : Z := 0x106.
Definition SSCRATCH_ADDR : Z := 0x140.
Definition SEPC_ADDR : Z := 0x141.
Definition SCAUSE_ADDR : Z := 0x142.
Definition STVAL_ADDR : Z := 0x143.
Definition SIP_ADDR : Z := 0x144.
Definition SATP_ADDR : Z := 0x180.
Definition USTATUS_ADDR : Z := 0x0.
Definition UIE_ADDR : Z := 0x4.
Definition UTVEC_ADDR : Z := 0x5.
Definition USCRATCH_ADDR : Z := 0x40.
Definition UEPC_ADDR : Z := 0x41.
Definition UCAUSE_ADDR : Z := 0x42.
Definition UTVAL_ADDR : Z := 0x43.
Definition UIP_ADDR : Z := 0x44.
Definition FFLAGS_ADDR : Z := 0x1.
Definition FRM_ADDR : Z := 0x2.
Definition FCSR_ADDR : Z := 0x3.

(** The addresses listed in SWITCH_CASE_MATCH_ANY_HPMCOUNTER_RV32, five runs of
    consecutive addresses: [HPMCOUNTER3..31], [HPMCOUNTER3H..31H],
    [MHPMCOUNTER3..31], [MHPMCOUNTER3H..31H] and [MHPMEVENT3..31]. *)
Definition in_range (lo hi a : Z) : bool := (lo <=? a) && (a <=? hi).
Definition is_hpmcounter (addr : Z) : bool :=
  in_range 0xc03 0xc1f addr || in_range 0xc83 0xc9f addr ||
  in_range 0xb03 0xb1f addr || in_range 0xb83 0xb9f addr || in_range 0x323 0x33f addr.

(** ** struct csr_table *)

Module csrs.

(** The registers of the table, by the names of the members of the struct. *)
Inductive reg : Set :=
  | cycle | time | instret
  | mvendorid | marchid | mimpid | mhartid
  | mstatus | misa | medeleg | mideleg | mie | mtvec | mcounteren | mcountinhibit
  | mscratch | mepc | mcause | mtval | mip
  | pmpaddr (i : Z) | pmpcfg (i : Z)
  | sedeleg | sideleg | stvec | scounteren | sscratch | sepc | scause | stval | satp
  | utvec | uscratch | uepc | ucause | utval
  | fcsr.

(** The registers of type [csr_64]. *)
Definition is_64 (r : reg) : bool :=
  match r with cycle | time | instret => true | _ => false end.

(** A number for each register, for the decidable equality below. *)
Definition key (r : reg) : Z * Z :=
  match r with
  | cycle => (0, 0) | time => (1, 0) | instret => (2, 0)
  | mvendorid => (3, 0) | marchid => (4, 0) | mimpid => (5, 0) | mhartid => (6, 0)
  | mstatus => (7, 0) | misa => (8, 0) | medeleg => (9, 0) | mideleg => (10, 0)
  | mie => (11, 0) | mtvec => (12, 0) | mcounteren => (13, 0) | mcountinhibit => (14, 0)
  | mscratch => (15, 0) | mepc => (16, 0) | mcause => (17, 0) | mtval => (18, 0)
  | mip => (19, 0) | pmpaddr i => (20, i) | pmpcfg i => (21, i)
  | sedeleg => (22, 0) | sideleg => (23, 0) | stvec => (24, 0) | scounteren => (25, 0)
  | sscratch => (26, 0) | sepc => (27, 0) | scause => (28, 0) | stval => (29, 0)
  | satp => (30, 0) | utvec => (31, 0) | uscratch => (32, 0) | uepc => (33, 0)
  | ucause => (34, 0) | utval => (35, 0) | fcsr => (36, 0)
  end.

Definition of_key (k : Z * Z) : option reg :=
  match fst k with
  | 0 => Some cycle | 1 => Some time | 2 => Some instret
  | 3 => Some mvendorid | 4 => Some marchid | 5 => Some mimpid | 6 => Some mhartid
  | 7 => Some mstatus | 8 => Some misa | 9 => Some medeleg | 10 => Some mideleg
  | 11 => Some mie | 12 => Some mtvec | 13 => Some mcounteren | 14 => Some mcountinhibit
  | 15 => Some mscratch | 16 => Some mepc | 17 => Some mcause | 18 => Some mtval
  | 19 => Some mip | 20 => Some (pmpaddr (snd k)) | 21 => Some (pmpcfg (snd k))
  | 22 => Some sedeleg | 23 => Some sideleg | 24 => Some stvec | 25 => Some scounteren
  | 26 => Some sscratch | 27 => Some sepc | 28 => Some scause | 29 => Some stval
  | 30 => Some satp | 31 => Some utvec | 32 => Some uscratch | 33 => Some uepc
  | 34 => Some ucause | 35 => Some utval | 36 => Some fcsr
  | _ => None
  end.

Lemma of_key_key (r : reg) : of_key (key r) = Some r.
Proof. by destruct r. Qed.

#[global] Instance reg_eq_dec : EqDecision reg.
Proof.
  intros x y. destruct (decide (key x = key y)) as [H|H].
  - left. pose proof (of_key_key x) as Hx. rewrite H, of_key_key in Hx. congruence.
  - right. congruence.
Defined.

#[global] Program Instance reg_countable : Countable reg :=
  inj_countable key of_key _.
Next Obligation. apply of_key_key. Qed.

End csrs.

Definition csr_table : Type := gmap csrs.reg Z.

Definition csr_get (t : csr_table) (r : csrs.reg) : Z := default 0 (t !! r).
Definition csr_set (r : csrs.reg) (v : Z) (t : csr_table) : csr_table := <[r := v]> t.

(** The table the constructor builds: only [misa] has an initial value. *)
Definition csr_table_init : csr_table := csr_set csrs.misa misa_init ∅.

(** A [uint32_t *] of [register_mapping]: a register of 32 bits, or the lower or
    the upper half of one of 64 bits. *)
Inductive csr_ptr : Set :=
  | Whole (r : csrs.reg) | Low (r : csrs.reg) | High (r : csrs.reg).

Definition register_mapping (addr : Z) : option csr_ptr :=
  if addr =? CYCLE_ADDR then Some (Low csrs.cycle)
  else if addr =? CYCLEH_ADDR then Some (High csrs.cycle)
  else if addr =? TIME_ADDR then Some (Low csrs.time)
  else if addr =? TIMEH_ADDR then Some (High csrs.time)
  else if addr =? INSTRET_ADDR then Some (Low csrs.instret)
  else if addr =? INSTRETH_ADDR then Some (High csrs.instret)
  else if addr =? MCYCLE_ADDR then Some (Low csrs.cycle)
  else if addr =? MCYCLEH_ADDR then Some (High csrs.cycle)
  else if addr =? MTIME_ADDR then Some (Low csrs.time)
  else if addr =? MTIMEH_ADDR then Some (High csrs.time)
  else if addr =? MINSTRET_ADDR then Some (Low csrs.instret)
  else if addr =? MINSTRETH_ADDR then Some (High csrs.instret)
  else if addr =? MVENDORID_ADDR then Some (Whole csrs.mvendorid)
  else if addr =? MARCHID_ADDR then Some (Whole csrs.marchid)
  else if addr =? MIMPID_ADDR then Some (Whole csrs.mimpid)
  else if addr =? MHARTID_ADDR then Some (Whole csrs.mhartid)
  else if addr =? MSTATUS_ADDR then Some (Whole csrs.mstatus)
  else if addr =? MISA_ADDR then Some (Whole csrs.misa)
  else if addr =? MEDELEG_ADDR then Some (Whole csrs.medeleg)
  else if addr =? MIDELEG_ADDR then Some (Whole csrs.mideleg)
  else if addr =? MIE_ADDR then Some (Whole csrs.mie)
  else if addr =? MTVEC_ADDR then Some (Whole csrs.mtvec)
  else if addr =? MCOUNTEREN_ADDR then Some (Whole csrs.mcounteren)
  else if addr =? MCOUNTINHIBIT_ADDR then Some (Whole csrs.mcountinhibit)
  else if addr =? MSCRATCH_ADDR then Some (Whole csrs.mscratch)
  else if addr =? MEPC_ADDR then Some (Whole csrs.mepc)
  else if addr =? MCAUSE_ADDR then Some (Whole csrs.mcause)
  else if addr =? MTVAL_ADDR then Some (Whole csrs.mtval)
  else if addr =? MIP_ADDR then Some (Whole csrs.mip)
  else if in_range PMPADDR0_ADDR (PMPADDR0_ADDR + 15) addr
  then Some (Whole (csrs.pmpaddr (addr - PMPADDR0_ADDR)))
  else if in_range PMPCFG0_ADDR (PMPCFG0_ADDR + 3) addr
  then Some (Whole (csrs.pmpcfg (addr - PMPCFG0_ADDR)))
  else if addr =? SEDELEG_ADDR then Some (Whole csrs.sedeleg)
  else if addr =? SIDELEG_ADDR then Some (Whole csrs.sideleg)
  else if addr =? STVEC_ADDR then Some (Whole csrs.stvec)
  else if addr =? SCOUNTEREN_ADDR then Some (Whole csrs.scounteren)
  else if addr =? SSCRATCH_ADDR then Some (Whole csrs.sscratch)
  else if addr =? SEPC_ADDR then Some (Whole csrs.sepc)
  else if addr =? SCAUSE_ADDR then Some (Whole csrs.scause)
  else if addr =? STVAL_ADDR then Some (Whole csrs.stval)
  else if addr =? SATP_ADDR then Some (Whole csrs.satp)
  else if addr =? UTVEC_ADDR then Some (Whole csrs.utvec)
  else if addr =? USCRATCH_ADDR then Some (Whole csrs.uscratch)
  else if addr =? UEPC_ADDR then Some (Whole csrs.uepc)
  else if addr =? UCAUSE_ADDR then Some (Whole csrs.ucause)
  else if addr =? UTVAL_ADDR then Some (Whole csrs.utval)
  else if addr =? FCSR_ADDR then Some (Whole csrs.fcsr)
  else None.

Definition is_valid_csr32_addr (addr : Z) : bool :=
  match register_mapping addr with Some _ => true | None => false end.

Definition ptr_read (t : csr_table) (p : csr_ptr) : Z :=
  match p with
  | Whole r => csr_get t r
  | Low r => uint32 (csr_get t r)
  | High r => uint32 (csr_get t r .>> 32)
  end.

Definition ptr_write (p : csr_ptr) (value : Z) (t : csr_table) : csr_table :=
  match p with
  | Whole r => csr_set r value t
  | Low r => csr_set r ((csr_get t r .>> 32) .<< 32 .| value) t
  | High r => csr_set r ((value .<< 32) .| uint32 (csr_get t r)) t
  end.

(** [default_read32] and [default_write32]; [None] is the failure of [ensure]. *)
Definition default_read32 (t : csr_table) (addr : Z) : option Z :=
  ptr_read t <$> register_mapping addr.
Definition default_write32 (addr value : Z) (t : csr_table) : option csr_table :=
  (fun p => ptr_write p value t) <$> register_mapping addr.

(** The masked accesses of get_csr_value and set_csr_value ([read] and [write]). *)
Definition masked_read (t : csr_table) (r : csrs.reg) (mask : Z) : Z := csr_get t r .& mask.
Definition masked_write (r : csrs.reg) (mask value : Z) (t : csr_table) : csr_table :=
  csr_set r ((csr_get t r .& uint32 (Z.lnot mask)) .| (value .& mask)) t.

Definition get_bits (t : csr_table) (r : csrs.reg) (f : bitfield) : Z :=
  get_field f (csr_get t r).
Definition set_bits (r : csrs.reg) (f : bitfield) (x : Z) (t : csr_table) : csr_table :=
  csr_set r (set_field f x (csr_get t r)) t.

(** ** Lemmas on bit fields *)

Lemma get_field_range (f : bitfield) (v : Z) : bf_wf f -> is_uint (bf_width f) (get_field f v).
Proof. intros [??]. apply uint_range. lia. Qed.

Lemma ones_shiftl_testbit (w n k : Z) :
  0 <= w -> 0 <= n -> 0 <= k ->
  Z.testbit (Z.ones w .<< n) k = (n <=? k) && (k <? n + w).
Proof.
  intros. rewrite Z.shiftl_spec by lia. destruct (Z.leb_spec n k); cbn [andb].
  - rewrite Z.testbit_ones by lia.
    destruct (Z.leb_spec 0 (k - n)), (Z.ltb_spec (k - n) w), (Z.ltb_spec k (n + w)); simpl; lia.
  - apply Z.testbit_neg_r. lia.
Qed.

Lemma set_field_testbit (f : bitfield) (x v k : Z) :
  bf_wf f -> 0 <= k ->
  Z.testbit (set_field f x v) k =
  if (bf_lo f <=? k) && (k <? bf_lo f + bf_width f)
  then Z.testbit x (k - bf_lo f) else Z.testbit v k.
Proof.
  intros [??] ?. unfold set_field.
  rewrite Z.lor_spec, Z.ldiff_spec, ones_shiftl_testbit, Z.shiftl_spec by lia.
  destruct (Z.leb_spec (bf_lo f) k); cbn [andb negb].
  - rewrite uint_testbit by lia.
    destruct (Z.ltb_spec k (bf_lo f + bf_width f)), (Z.ltb_spec (k - bf_lo f) (bf_width f));
      try lia; cbn [andb negb]; by rewrite ?andb_false_r, ?andb_true_r, ?orb_false_r.
  - rewrite (Z.testbit_neg_r _ (k - bf_lo f)) by lia. by rewrite andb_true_r, orb_false_r.
Qed.

Lemma get_field_testbit (f : bitfield) (v k : Z) :
  bf_wf f -> 0 <= k ->
  Z.testbit (get_field f v) k = (k <? bf_width f) && Z.testbit v (k + bf_lo f).
Proof.
  intros [??] ?. unfold get_field. by rewrite uint_testbit, Z.shiftr_spec by lia.
Qed.

Lemma get_set_field_same (f : bitfield) (x v : Z) :
  bf_wf f -> get_field f (set_field f x v) = uint (bf_width f) x.
Proof.
  intros Hf. pose proof Hf as [??]. apply Z.bits_inj'. intros k ?.
  rewrite get_field_testbit, set_field_testbit, uint_testbit by (done || lia).
  destruct (Z.ltb_spec k (bf_width f)); cbn [andb]; [| done].
  destruct (Z.leb_spec (bf_lo f) (k + bf_lo f)), (Z.ltb_spec (k + bf_lo f) (bf_lo f + bf_width f));
    try lia. cbn [andb]. f_equal. lia.
Qed.

(** Two fields that share no bit. *)
Definition disjoint_fields (f g : bitfield) : bool :=
  (bf_lo f + bf_width f <=? bf_lo g) || (bf_lo g + bf_width g <=? bf_lo f).

Lemma get_set_field_other (f g : bitfield) (x v : Z) :
  bf_wf f -> bf_wf g -> disjoint_fields f g = true ->
  get_field f (set_field g x v) = get_field f v.
Proof.
  intros Hf Hg Hd. pose proof Hf as [??]. pose proof Hg as [??]. apply Z.bits_inj'. intros k ?.
  rewrite !get_field_testbit, set_field_testbit by (done || lia).
  unfold disjoint_fields in Hd.
  destruct (Z.ltb_spec k (bf_width f)); cbn [andb]; [| done].
  destruct (Z.leb_spec (bf_lo g) (k + bf_lo f)), (Z.ltb_spec (k + bf_lo f) (bf_lo g + bf_width g));
    cbn [andb]; try done. lia.
Qed.

Lemma set_field_comm (f g : bitfield) (x y v : Z) :
  bf_wf f -> bf_wf g -> disjoint_fields f g = true ->
  set_field f x (set_field g y v) = set_field g y (set_field f x v).
Proof.
  intros Hf Hg Hd. apply Z.bits_inj'. intros k ?. rewrite !set_field_testbit by done.
  unfold disjoint_fields in Hd.
  destruct (Z.leb_spec (bf_lo f) k), (Z.ltb_spec k (bf_lo f + bf_width f)),
    (Z.leb_spec (bf_lo g) k), (Z.ltb_spec k (bf_lo g + bf_width g)); cbn [andb]; try done; lia.
Qed.

Lemma is_uint_set_field (w : Z) (f : bitfield) (x v : Z) :
  bf_wf f -> bf_lo f + bf_width f <= w -> is_uint w v -> is_uint w (set_field f x v).
Proof.
  intros Hf ? Hv. pose proof Hf as [??]. rewrite is_uint_bits in * by lia. intros k ?.
  rewrite set_field_testbit by (done || lia).
  destruct (Z.leb_spec (bf_lo f) k), (Z.ltb_spec k (bf_lo f + bf_width f)); cbn [andb];
    try lia; by apply Hv.
Qed.

(** [bf_wf] of a concrete field, and disjointness of two. *)
Ltac bf_tac := first [ by split | reflexivity | (by cbv) | lia ].

(** ** Lemmas on the table *)

Lemma csr_get_set_same (r : csrs.reg) (v : Z) (t : csr_table) : csr_get (csr_set r v t) r = v.
Proof. unfold csr_get, csr_set, csr_table in *. by rewrite lookup_insert_eq. Qed.

Lemma csr_get_set_other (r r' : csrs.reg) (v : Z) (t : csr_table) :
  r <> r' -> csr_get (csr_set r v t) r' = csr_get t r'.
Proof. intros. unfold csr_get, csr_set, csr_table in *. by rewrite lookup_insert_ne. Qed.

Lemma csr_get_set (r r' : csrs.reg) (v : Z) (t : csr_table) :
  csr_get (csr_set r v t) r' = if decide (r = r') then v else csr_get t r'.
Proof.
  destruct (decide (r = r')) as [->|]; [apply csr_get_set_same | by apply csr_get_set_other].
Qed.

Lemma csr_set_set (r : csrs.reg) (v w : Z) (t : csr_table) :
  csr_set r v (csr_set r w t) = csr_set r v t.
Proof. apply insert_insert_eq. Qed.

Lemma csr_set_comm (r r' : csrs.reg) (v w : Z) (t : csr_table) :
  r <> r' -> csr_set r v (csr_set r' w t) = csr_set r' w (csr_set r v t).
Proof. apply insert_insert_ne. Qed.

Create Rewrite HintDb vp_csr.
#[export] Hint Rewrite csr_get_set_same csr_set_set : vp_csr.
#[export] Hint Rewrite csr_get_set_other using discriminate : vp_csr.
#[export] Hint Rewrite get_set_field_same using (by split) : vp_csr.
#[export] Hint Rewrite get_set_field_other using bf_tac : vp_csr.

#[global] Arguments csr_get : simpl never.
#[global] Arguments csr_set : simpl never.
#[global] Arguments get_bits : simpl never.
#[global] Arguments set_bits : simpl never.

(** A field of a table after a write of the table. *)
Lemma get_bits_set_same r f x t :
  bf_wf f -> get_bits (set_bits r f x t) r f = uint (bf_width f) x.
Proof. intros. unfold get_bits, set_bits. by rewrite csr_get_set_same, get_set_field_same. Qed.

Lemma get_bits_set_other r f g x t :
  bf_wf f -> bf_wf g -> disjoint_fields f g = true ->
  get_bits (set_bits r g x t) r f = get_bits t r f.
Proof. intros. unfold get_bits, set_bits. by rewrite csr_get_set_same, get_set_field_other. Qed.

Lemma get_bits_csr_set_other r r' f v t :
  r <> r' -> get_bits (csr_set r v t) r' f = get_bits t r' f.
Proof. intros. unfold get_bits. by rewrite csr_get_set_other. Qed.

Lemma csr_get_set_bits_other r r' f x t :
  r <> r' -> csr_get (set_bits r f x t) r' = csr_get t r'.
Proof. intros. unfold set_bits. by rewrite csr_get_set_other. Qed.

Lemma get_bits_set_reg r r' f g x t :
  r <> r' -> get_bits (set_bits r g x t) r' f = get_bits t r' f.
Proof. intros. unfold get_bits. by rewrite csr_get_set_bits_other. Qed.

(** Copying a field to one of the same width keeps its value. *)
Lemma get_bits_id r f g t :
  bf_wf f -> bf_width g = bf_width f -> uint (bf_width g) (get_bits t r f) = get_bits t r f.
Proof. intros Hf ->. apply uint_id. by apply get_field_range. Qed.

#[export] Hint Rewrite get_bits_set_same using (by split) : vp_csr.
#[export] Hint Rewrite get_bits_set_other using (first [by split | reflexivity]) : vp_csr.
#[export] Hint Rewrite get_bits_csr_set_other csr_get_set_bits_other get_bits_set_reg using discriminate : vp_csr.

(** ** Well-formed tables: every register is in the range of its type *)

Definition reg_width (r : csrs.reg) : Z := if csrs.is_64 r then 64 else 32.
Definition csr_table_wf (t : csr_table) : Prop := forall r, is_uint (reg_width r) (csr_get t r).

Lemma reg_width_pos (r : csrs.reg) : 0 < reg_width r.
Proof. unfold reg_width. by destruct (csrs.is_64 r). Qed.

Lemma csr_set_wf (r : csrs.reg) (v : Z) (t : csr_table) :
  is_uint (reg_width r) v -> csr_table_wf t -> csr_table_wf (csr_set r v t).
Proof. intros Hv Ht r'. rewrite csr_get_set. by destruct (decide (r = r')) as [<-|]. Qed.

Lemma csr_table_init_wf : csr_table_wf csr_table_init.
Proof.
  unfold csr_table_init. apply csr_set_wf; [by vm_compute |].
  intros r. unfold csr_get, is_uint, csr_table. rewrite lookup_empty. simpl.
  pose proof (Z.pow_pos_nonneg 2 (reg_width r)). pose proof (reg_width_pos r). lia.
Qed.

(** Every pointer of the map is of the kind its register has. *)
Definition ptr_ok (p : csr_ptr) : Prop :=
  match p with
  | Whole r => csrs.is_64 r = false
  | Low r | High r => csrs.is_64 r = true
  end.

Lemma register_mapping_ok (addr : Z) (p : csr_ptr) : register_mapping addr = Some p -> ptr_ok p.
Proof.
  unfold register_mapping.
  repeat (match goal with |- context [if ?b then _ else _] => destruct b end;
          [intros [= <-]; reflexivity |]).
  discriminate.
Qed.

Definition ptr_reg (p : csr_ptr) : csrs.reg :=
  match p with Whole r | Low r | High r => r end.

Lemma ptr_read_range (t : csr_table) (p : csr_ptr) :
  csr_table_wf t -> ptr_ok p -> is_uint 32 (ptr_read t p).
Proof.
  intros Ht Hp. destruct p; simpl in *; try (apply uint_range; lia).
  specialize (Ht r). unfold reg_width in Ht. by rewrite Hp in Ht.
Qed.

Lemma ptr_write_wf (p : csr_ptr) (v : Z) (t : csr_table) :
  csr_table_wf t -> ptr_ok p -> is_uint 32 v -> csr_table_wf (ptr_write p v t).
Proof.
  intros Ht Hp Hv. destruct p; simpl in *; apply csr_set_wf; try done;
    unfold reg_width; rewrite Hp; [done | |];
    pose proof (Ht r) as Hr; unfold reg_width in Hr; rewrite Hp in Hr.
  - apply is_uint_lor; [lia | | by apply (is_uint_weaken 32); [lia |]].
    apply is_uint_shiftl_sub; [lia |]. by apply is_uint_shiftr_sub; [lia.. |].
  - apply is_uint_lor; [lia | by apply is_uint_shiftl_sub; [lia |] |].
    apply (is_uint_weaken 32); [lia |]. apply uint_range. lia.
Qed.

(** A write through a pointer is read back through it, and the other half of a
    64-bit register keeps its value. *)
Lemma ptr_read_write (p : csr_ptr) (v : Z) (t : csr_table) :
  is_uint 32 v -> ptr_read (ptr_write p v t) p = v.
Proof.
  intros Hv. pose proof Hv as Hv'. rewrite is_uint_bits in Hv' by lia.
  destruct p; simpl; rewrite csr_get_set_same; [done | |]; apply Z.bits_inj'; intros k ?;
    unfold uint32; rewrite uint_testbit by lia; destruct (Z.ltb_spec k 32); cbn [andb];
    rewrite ?Hv' by lia; try done;
    rewrite ?Z.shiftr_spec, Z.lor_spec, Z.shiftl_spec, ?uint_testbit by lia.
  - rewrite Z.testbit_neg_r by lia. done.
  - rewrite (proj2 (Z.ltb_ge (k + 32) 32)) by lia. cbn [andb].
    rewrite orb_false_r. f_equal. lia.
Qed.
