(* ===== verification/Fp.v ===== *)
(** * Floating-point registers

    Models core/common/fp.h.  A [float32_t] or [float64_t] is its bit pattern
    [v].  The arithmetic is the one of the Berkeley SoftFloat library, which is
    not part of the repository: it is the parameter [softfloat]. *)

From S2P Require Import Prelude.

(** Rounding modes *)
Definition FRM_RNE : Z := 0.
Definition FRM_RTZ : Z := 1.
Definition FRM_RDN : Z := 2.
Definition FRM_RUP : Z := 3.
Definition FRM_RMM : Z := 4.
Definition FRM_DYN : Z := 7.

Definition f32_defaultNaN : Z := 0x7fc00000.
Definition f64_defaultNaN : Z := 0x7FF8000000000000.
Definition F32_SIGN_BIT : Z := uint32 (1 .<< 31).
Definition F64_SIGN_BIT : Z := 1 .<< 63.

Definition f32_isNegative (x : Z) : bool := nonzero (x .& F32_SIGN_BIT).
Definition f64_isNegative (x : Z) : bool := nonzero (x .& F64_SIGN_BIT).
Definition f32_neg (x : Z) : Z := x .^ F32_SIGN_BIT.
Definition f64_neg (x : Z) : Z := x .^ F64_SIGN_BIT.
Definition f32_isNaN (x : Z) : bool :=
  (uint32 (Z.lnot x) .& 0x7F800000 =? 0) && nonzero (x .& 0x007FFFFF).
Definition f64_isNaN (x : Z) : bool :=
  (uint64 (Z.lnot x) .& 0x7FF0000000000000 =? 0) && nonzero (x .& 0x000FFFFFFFFFFFFF).

(** ** struct FpRegs *)

Definition is_boxed_f32 (x : Z) : bool := x .>> 32 =? uint32 (-1).
Definition unbox_f32 (x : Z) : Z := uint32 x.
Definition box_f32 (x : Z) : Z := x .| 0xFFFFFFFF00000000.

Definition FpRegs : Type := list Z.

Definition fp_get (r : FpRegs) (idx : Z) : Z := default 0 (r !! Z.to_nat idx).

(** [write(idx, float64_t)] and [write(idx, float32_t)] *)
Definition fp_write_f64 (idx x : Z) (r : FpRegs) : FpRegs := <[Z.to_nat idx := x]> r.
Definition fp_write_f32 (idx x : Z) (r : FpRegs) : FpRegs := fp_write_f64 idx (box_f32 x) r.

Definition fp_u32 (r : FpRegs) (idx : Z) : Z := uint32 (fp_get r idx).
Definition fp_f32 (r : FpRegs) (idx : Z) : Z :=
  if is_boxed_f32 (fp_get r idx) then unbox_f32 (fp_get r idx) else f32_defaultNaN.
Definition fp_f64 (r : FpRegs) (idx : Z) : Z := fp_get r idx.

(** ** The SoftFloat library

    An operation takes the rounding mode where the library reads it from its
    global variable, and returns with its result the exception flags it
    raises. *)

Class softfloat : Type := {
  f32_add : Z -> Z -> Z -> Z * Z;
  f32_sub : Z -> Z -> Z -> Z * Z;
  f32_mul : Z -> Z -> Z -> Z * Z;
  f32_div : Z -> Z -> Z -> Z * Z;
  f32_sqrt : Z -> Z -> Z * Z;
  f32_mulAdd : Z -> Z -> Z -> Z -> Z * Z;
  f32_lt : Z -> Z -> bool * Z;
  f32_lt_quiet : Z -> Z -> bool * Z;
  f32_le : Z -> Z -> bool * Z;
  f32_eq : Z -> Z -> bool * Z;
  f32_to_i32 : Z -> Z -> Z * Z;
  f32_to_ui32 : Z -> Z -> Z * Z;
  i32_to_f32 : Z -> Z -> Z * Z;
  ui32_to_f32 : Z -> Z -> Z * Z;
  f32_classify : Z -> Z;
  f32_to_f64 : Z -> Z * Z;
  f64_add : Z -> Z -> Z -> Z * Z;
  f64_sub : Z -> Z -> Z -> Z * Z;
  f64_mul : Z -> Z -> Z -> Z * Z;
  f64_div : Z -> Z -> Z -> Z * Z;
  f64_sqrt : Z -> Z -> Z * Z;
  f64_mulAdd : Z -> Z -> Z -> Z -> Z * Z;
  f64_lt : Z -> Z -> bool * Z;
  f64_lt_quiet : Z -> Z -> bool * Z;
  f64_le : Z -> Z -> bool * Z;
  f64_eq : Z -> Z -> bool * Z;
  f64_to_i32 : Z -> Z -> Z * Z;
  f64_to_ui32 : Z -> Z -> Z * Z;
  i32_to_f64 : Z -> Z * Z;
  ui32_to_f64 : Z -> Z * Z;
  f64_classify : Z -> Z;
  f64_to_f32 : Z -> Z -> Z * Z
}.

(** What the simulator relies on: single-precision results are 32-bit patterns,
    double-precision ones 64-bit patterns, and there are five exception flags.
    (The conversions to integers are converted by the caller.) *)
Definition f32_result (r : Z * Z) : Prop := is_uint 32 (fst r) /\ is_uint 5 (snd r).
Definition f64_result (r : Z * Z) : Prop := is_uint 64 (fst r) /\ is_uint 5 (snd r).
Definition flags_result {A} (r : A * Z) : Prop := is_uint 5 (snd r).

Class softfloat_ok (sf : softfloat) : Prop := {
  f32_add_ok rm a b : f32_result (f32_add rm a b);
  f32_sub_ok rm a b : f32_result (f32_sub rm a b);
  f32_mul_ok rm a b : f32_result (f32_mul rm a b);
  f32_div_ok rm a b : f32_result (f32_div rm a b);
  f32_sqrt_ok rm a : f32_result (f32_sqrt rm a);
  f32_mulAdd_ok rm a b c : f32_result (f32_mulAdd rm a b c);
  f32_lt_ok a b : flags_result (f32_lt a b);
  f32_lt_quiet_ok a b : flags_result (f32_lt_quiet a b);
  f32_le_ok a b : flags_result (f32_le a b);
  f32_eq_ok a b : flags_result (f32_eq a b);
  f32_to_i32_ok rm a : flags_result (f32_to_i32 rm a);
  f32_to_ui32_ok rm a : flags_result (f32_to_ui32 rm a);
  i32_to_f32_ok rm a : f32_result (i32_to_f32 rm a);
  ui32_to_f32_ok rm a : f32_result (ui32_to_f32 rm a);
  f32_to_f64_ok a : f64_result (f32_to_f64 a);
  f64_add_ok rm a b : f64_result (f64_add rm a b);
  f64_sub_ok rm a b : f64_result (f64_sub rm a b);
  f64_mul_ok rm a b : f64_result (f64_mul rm a b);
  f64_div_ok rm a b : f64_result (f64_div rm a b);
  f64_sqrt_ok rm a : f64_result (f64_sqrt rm a);
  f64_mulAdd_ok rm a b c : f64_result (f64_mulAdd rm a b c);
  f64_lt_ok a b : flags_result (f64_lt a b);
  f64_lt_quiet_ok a b : flags_result (f64_lt_quiet a b);
  f64_le_ok a b : flags_result (f64_le a b);
  f64_eq_ok a b : flags_result (f64_eq a b);
  f64_to_i32_ok rm a : flags_result (f64_to_i32 rm a);
  f64_to_ui32_ok rm a : flags_result (f64_to_ui32 rm a);
  i32_to_f64_ok a : f64_result (i32_to_f64 a);
  ui32_to_f64_ok a : f64_result (ui32_to_f64 a);
  f64_to_f32_ok rm a : f32_result (f64_to_f32 rm a)
}.

(** ** NaN boxing *)

Lemma box_f32_range x : is_uint 32 x -> is_uint 64 (box_f32 x).
Proof. intros. unfold box_f32. range_tac. Qed.

Lemma unbox_box_f32 x : is_uint 32 x -> unbox_f32 (box_f32 x) = x.
Proof. intros. unfold unbox_f32, box_f32. cbv [uint32]. ubits 32%nat. Qed.

Lemma is_boxed_box_f32 x : is_uint 32 x -> is_boxed_f32 (box_f32 x) = true.
Proof.
  intros H. unfold is_boxed_f32, box_f32. apply Z.eqb_eq.
  rewrite Z.shiftr_lor. rewrite Z.shiftr_div_pow2, Z.div_small by (unfold is_uint in H; lia).
  reflexivity.
Qed.

Lemma fp_f32_range r idx : is_uint 32 (fp_f32 r idx).
Proof.
  unfold fp_f32, unbox_f32, uint32. destruct (is_boxed_f32 _); [apply uint_range; lia | done].
Qed.
