(* ===== verification/Iss.v ===== *)
(** * The instruction set simulator: state, registers, traps and CSR accesses

    Models struct ISS of core/rv32/iss.h and the member functions of
    core/rv32/iss.cpp other than [exec_step] and [run_step].  [ISS] is the state
    of a core; everything a core reaches through a pointer (memory interfaces,
    CLINT, SystemC quantum keeper and events, the system call emulator) is the
    class [platform] over an environment [W], and a [machine] is a core with its
    environment.  The member functions are computations over a machine that may
    throw a [SimulationTrap].  Tracing (printing) is left out. *)

From S2P Require Import Prelude Instr Trap Csr Fp.

(** ** struct RegFile

    Register numbers come from five-bit fields; [regs] has 32 elements. *)

Definition NUM_REGS : nat := 32.
Definition RegFile_init : list Z := replicate NUM_REGS 0.

Definition regs_get (r : list Z) (index : Z) : Z := default 0 (r !! Z.to_nat index).
Definition regs_set (index value : Z) (r : list Z) : list Z := <[Z.to_nat index := value]> r.

(** [RegFile::read], [RegFile::write] and [RegFile::shamt], with their checks. *)
Definition RegFile_read (r : list Z) (index : Z) : failure + Z :=
  if 31 <? index then inl OutOfRange else inr (regs_get r index).
Definition RegFile_write (r : list Z) (index value : Z) : failure + list Z :=
  if negb (index <=? 31) || (index =? 0) then inl AssertFailed
  else inr (regs_set index value r).
Definition RegFile_shamt (r : list Z) (index : Z) : Z := BIT_RANGE (regs_get r index) 4 0.

Definition x_zero : Z := 0.
Definition x_sp : Z := 2.
Definition x_a5 : Z := 15.
Definition x_a7 : Z := 17.

(** ** struct ISS

    The members that change while a core runs; the two global variables of the
    SoftFloat library are kept next to them. *)

Record ISS : Type := mkISS {
  regs : list Z;
  fp_regs : FpRegs;
  pc : Z;
  last_pc : Z;
  shall_exit : bool;
  ignore_wfi : bool;
  csr_regs : csr_table;
  prv : PrivilegeLevel;
  lr_sc_counter : Z;
  total_num_instr : Z;
  instr : Instruction;
  op : Mapping;
  status : CoreExecStatus;
  breakpoints : gset Z;
  debug_mode : bool;
  cycle_counter : Z;
  softfloat_exceptionFlags : Z;
  softfloat_roundingMode : Z
}.

Definition set_regs (v : list Z) (s : ISS) : ISS :=
  mkISS v (fp_regs s) (pc s) (last_pc s) (shall_exit s) (ignore_wfi s) (csr_regs s) (prv
    s) (lr_sc_counter s) (total_num_instr s) (instr s) (op s) (status s) (breakpoints s)
    (debug_mode s) (cycle_counter s) (softfloat_exceptionFlags s)
    (softfloat_roundingMode s).
Definition set_fp_regs (v : FpRegs) (s : ISS) : ISS :=
  mkISS (regs s) v (pc s) (last_pc s) (shall_exit s) (ignore_wfi s) (csr_regs s) (prv s)
    (lr_sc_counter s) (total_num_instr s) (instr s) (op s) (status s) (breakpoints s)
    (debug_mode s) (cycle_counter s) (softfloat_exceptionFlags s)
    (softfloat_roundingMode s).
Definition set_pc (v : Z) (s : ISS) : ISS :=
  mkISS (regs s) (fp_regs s) v (last_pc s) (shall_exit s) (ignore_wfi s) (csr_regs s)
    (prv s) (lr_sc_counter s) (total_num_instr s) (instr s) (op s) (status s)
    (breakpoints s) (debug_mode s) (cycle_counter s) (softfloat_exceptionFlags s)
    (softfloat_roundingMode s).
Definition set_last_pc (v : Z) (s : ISS) : ISS :=
  mkISS (regs s) (fp_regs s) (pc s) v (shall_exit s) (ignore_wfi s) (csr_regs s) (prv s)
    (lr_sc_counter s) (total_num_instr s) (instr s) (op s) (status s) (breakpoints s)
    (debug_mode s) (cycle_counter s) (softfloat_exceptionFlags s)
    (softfloat_roundingMode s).
Definition set_shall_exit (v : bool) (s : ISS) : ISS :=
  mkISS (regs s) (fp_regs s) (pc s) (last_pc s) v (ignore_wfi s) (csr_regs s) (prv s)
    (lr_sc_counter s) (total_num_instr s) (instr s) (op s) (status s) (breakpoints s)
    (debug_mode s) (cycle_counter s) (softfloat_exceptionFlags s)
    (softfloat_roundingMode s).
Definition set_ignore_wfi (v : bool) (s : ISS) : ISS :=
  mkISS (regs s) (fp_regs s) (pc s) (last_pc s) (shall_exit s) v (csr_regs s) (prv s)
    (lr_sc_counter s) (total_num_instr s) (instr s) (op s) (status s) (breakpoints s)
    (debug_mode s) (cycle_counter s) (softfloat_exceptionFlags s)
    (softfloat_roundingMode s).
Definition set_csr_regs (v : csr_table) (s : ISS) : ISS :=
  mkISS (regs s) (fp_regs s) (pc s) (last_pc s) (shall_exit s) (ignore_wfi s) v (prv s)
    (lr_sc_counter s) (total_num_instr s) (instr s) (op s) (status s) (breakpoints s)
    (debug_mode s) (cycle_counter s) (softfloat_exceptionFlags s)
    (softfloat_roundingMode s).
Definition set_prv (v : PrivilegeLevel) (s : ISS) : ISS :=
  mkISS (regs s) (fp_regs s) (pc s) (last_pc s) (shall_exit s) (ignore_wfi s) (csr_regs
    s) v (lr_sc_counter s) (total_num_instr s) (instr s) (op s) (status s) (breakpoints
    s) (debug_mode s) (cycle_counter s) (softfloat_exceptionFlags s)
    (softfloat_roundingMode s).
Definition set_lr_sc_counter (v : Z) (s : ISS) : ISS :=
  mkISS (regs s) (fp_regs s) (pc s) (last_pc s) (shall_exit s) (ignore_wfi s) (csr_regs
    s) (prv s) v (total_num_instr s) (instr s) (op s) (status s) (breakpoints s)
    (debug_mode s) (cycle_counter s) (softfloat_exceptionFlags s)
    (softfloat_roundingMode s).
Definition set_total_num_instr (v : Z) (s : ISS) : ISS :=
  mkISS (regs s) (fp_regs s) (pc s) (last_pc s) (shall_exit s) (ignore_wfi s) (csr_regs
    s) (prv s) (lr_sc_counter s) v (instr s) (op s) (status s) (breakpoints s)
    (debug_mode s) (cycle_counter s) (softfloat_exceptionFlags s)
    (softfloat_roundingMode s).
Definition set_instr (v : Instruction) (s : ISS) : ISS :=
  mkISS (regs s) (fp_regs s) (pc s) (last_pc s) (shall_exit s) (ignore_wfi s) (csr_regs
    s) (prv s) (lr_sc_counter s) (total_num_instr s) v (op s) (status s) (breakpoints s)
    (debug_mode s) (cycle_counter s) (softfloat_exceptionFlags s)
    (softfloat_roundingMode s).
Definition set_op (v : Mapping) (s : ISS) : ISS :=
  mkISS (regs s) (fp_regs s) (pc s) (last_pc s) (shall_exit s) (ignore_wfi s) (csr_regs
    s) (prv s) (lr_sc_counter s) (total_num_instr s) (instr s) v (status s) (breakpoints
    s) (debug_mode s) (cycle_counter s) (softfloat_exceptionFlags s)
    (softfloat_roundingMode s).
Definition set_status (v : CoreExecStatus) (s : ISS) : ISS :=
  mkISS (regs s) (fp_regs s) (pc s) (last_pc s) (shall_exit s) (ignore_wfi s) (csr_regs
    s) (prv s) (lr_sc_counter s) (total_num_instr s) (instr s) (op s) v (breakpoints s)
    (debug_mode s) (cycle_counter s) (softfloat_exceptionFlags s)
    (softfloat_roundingMode s).
Definition set_breakpoints (v : gset Z) (s : ISS) : ISS :=
  mkISS (regs s) (fp_regs s) (pc s) (last_pc s) (shall_exit s) (ignore_wfi s) (csr_regs
    s) (prv s) (lr_sc_counter s) (total_num_instr s) (instr s) (op s) (status s) v
    (debug_mode s) (cycle_counter s) (softfloat_exceptionFlags s)
    (softfloat_roundingMode s).
Definition set_debug_mode (v : bool) (s : ISS) : ISS :=
  mkISS (regs s) (fp_regs s) (pc s) (last_pc s) (shall_exit s) (ignore_wfi s) (csr_regs
    s) (prv s) (lr_sc_counter s) (total_num_instr s) (instr s) (op s) (status s)
    (breakpoints s) v (cycle_counter s) (softfloat_exceptionFlags s)
    (softfloat_roundingMode s).
Definition set_cycle_counter (v : Z) (s : ISS) : ISS :=
  mkISS (regs s) (fp_regs s) (pc s) (last_pc s) (shall_exit s) (ignore_wfi s) (csr_regs
    s) (prv s) (lr_sc_counter s) (total_num_instr s) (instr s) (op s) (status s)
    (breakpoints s) (debug_mode s) v (softfloat_exceptionFlags s)
    (softfloat_roundingMode s).
Definition set_softfloat_exceptionFlags (v : Z) (s : ISS) : ISS :=
  mkISS (regs s) (fp_regs s) (pc s) (last_pc s) (shall_exit s) (ignore_wfi s) (csr_regs
    s) (prv s) (lr_sc_counter s) (total_num_instr s) (instr s) (op s) (status s)
    (breakpoints s) (debug_mode s) (cycle_counter s) v (softfloat_roundingMode s).
Definition set_softfloat_roundingMode (v : Z) (s : ISS) : ISS :=
  mkISS (regs s) (fp_regs s) (pc s) (last_pc s) (shall_exit s) (ignore_wfi s) (csr_regs
    s) (prv s) (lr_sc_counter s) (total_num_instr s) (instr s) (op s) (status s)
    (breakpoints s) (debug_mode s) (cycle_counter s) (softfloat_exceptionFlags s) v.

(** ** Timing: SystemC times are numbers of picoseconds *)

Definition cycle_time : Z := 10000.
Definition memory_access_cycles : Z := 4 * cycle_time.
Definition mul_div_cycles : Z := 8 * cycle_time.

Definition instr_cycles (op : Mapping) : Z :=
  match op with
  | LB | LBU | LH | LHU | LW | SB | SH | SW => memory_access_cycles
  | MUL | MULH | MULHU | MULHSU | DIV | DIVU | REM | REMU => mul_div_cycles
  | _ => cycle_time
  end.

(** The constructor, and [init] (which only changes [pc] and [sp]). *)
Definition ISS_new (hart_id : Z) (use_E_base_isa : bool) : ISS :=
  let t := csr_set csrs.mhartid hart_id csr_table_init in
  let t := if use_E_base_isa
           then csr_set csrs.misa (select_E_base_isa (csr_get t csrs.misa)) t else t in
  mkISS RegFile_init (replicate 32 0) 0 0 false false t MachineMode 0 0 0 UNDEF
    Runnable ∅ false 0 0 0.

Definition init (entrypoint sp : Z) (s : ISS) : ISS :=
  set_pc entrypoint (set_regs (regs_set x_sp (int32 sp) (regs s)) s).

(** ** The machine and the environment of a core *)

Record machine (W : Type) : Type := Machine { core : ISS; env : W }.
Arguments Machine {W} core env.
Arguments core {W} m.
Arguments env {W} m.

Class platform (W : Type) : Type := {
  load_instr : Z -> M (machine W) SimulationTrap Z;
  load_double : Z -> M (machine W) SimulationTrap Z;
  load_word : Z -> M (machine W) SimulationTrap Z;
  load_half : Z -> M (machine W) SimulationTrap Z;
  load_byte : Z -> M (machine W) SimulationTrap Z;
  load_uhalf : Z -> M (machine W) SimulationTrap Z;
  load_ubyte : Z -> M (machine W) SimulationTrap Z;
  store_double : Z -> Z -> M (machine W) SimulationTrap unit;
  store_word : Z -> Z -> M (machine W) SimulationTrap unit;
  store_half : Z -> Z -> M (machine W) SimulationTrap unit;
  store_byte : Z -> Z -> M (machine W) SimulationTrap unit;
  atomic_load_word : Z -> M (machine W) SimulationTrap Z;
  atomic_store_word : Z -> Z -> M (machine W) SimulationTrap unit;
  atomic_load_reserved_word : Z -> M (machine W) SimulationTrap Z;
  atomic_store_conditional_word : Z -> Z -> M (machine W) SimulationTrap bool;
  atomic_unlock : M (machine W) SimulationTrap unit;
  flush_tlb : M (machine W) SimulationTrap unit;
  update_and_get_mtime : M (machine W) SimulationTrap Z;
  execute_syscall : option (M (machine W) SimulationTrap unit);
  wait_wfi_event : M (machine W) SimulationTrap unit;
  notify_wfi_event : M (machine W) SimulationTrap unit;
  quantum_keeper_inc : Z -> M (machine W) SimulationTrap unit;
  quantum_keeper_need_sync : M (machine W) SimulationTrap bool;
  quantum_keeper_sync : M (machine W) SimulationTrap unit
}.

Section ISS.
Context {W : Type} `{platform W} `{softfloat}.

Abbreviation R := (M (machine W) SimulationTrap).

Definition read {A} (f : ISS -> A) : R A := gets (fun s => f (core s)).
Definition update (f : ISS -> ISS) : R unit := modify (fun s => Machine (f (core s)) (env s)).

Definition reg (index : Z) : R Z := read (fun s => regs_get (regs s) index).
Definition set_reg (index value : Z) : R unit :=
  update (fun s => set_regs (regs_set index value (regs s)) s).
Definition csr_reg (r : csrs.reg) : R Z := read (fun s => csr_get (csr_regs s) r).
Definition csr_field (r : csrs.reg) (f : bitfield) : R Z :=
  read (fun s => get_bits (csr_regs s) r f).
Definition update_csrs (f : csr_table -> csr_table) : R unit :=
  update (fun s => set_csr_regs (f (csr_regs s)) s).
Definition set_csr (r : csrs.reg) (v : Z) : R unit := update_csrs (csr_set r v).
Definition set_csr_field (r : csrs.reg) (f : bitfield) (x : Z) : R unit :=
  update_csrs (set_bits r f x).
Definition write_pc (v : Z) : R unit := update (set_pc v).

(** RAISE_ILLEGAL_INSTRUCTION and REQUIRE_ISA *)
Definition RAISE_ILLEGAL_INSTRUCTION {A} : R A :=
  i ← read instr; raise_trap EXC_ILLEGAL_INSTR (data i).
Definition REQUIRE_ISA (X : Z) : R unit :=
  misa ← csr_reg csrs.misa;
  when (negb (nonzero (misa .& X))) RAISE_ILLEGAL_INSTRUCTION.

Definition m_mode : R bool := p ← read prv; mret (p =? MachineMode).
Definition s_mode : R bool := p ← read prv; mret (p =? SupervisorMode).
Definition u_mode : R bool := p ← read prv; mret (p =? UserMode).

Definition pc_alignment_mask (misa : Z) : Z :=
  if has_C_extension misa then uint32 (Z.lnot 0x1) else uint32 (Z.lnot 0x3).

Definition trap_check_pc_alignment : R unit :=
  pc ← read pc; misa ← csr_reg csrs.misa;
  assert (negb (nonzero (pc .& 0x1))) ;;
  when (nonzero (pc .& 0x3) && negb (has_C_extension misa))
    (raise_trap EXC_INSTR_ADDR_MISALIGNED pc).

Definition trap_check_addr_alignment (Alignment : Z) (isLoad : bool) (addr : Z) : R unit :=
  when (nonzero (addr mod Alignment))
    (raise_trap (if isLoad then EXC_LOAD_ADDR_MISALIGNED
                 else EXC_STORE_AMO_ADDR_MISALIGNED) addr).

Definition release_lr_sc_reservation : R unit :=
  update (set_lr_sc_counter 0) ;; atomic_unlock.

Definition execute_amo (i : Instruction) (operation : Z -> Z -> Z) : R unit :=
  a ← reg (rs1 i);
  let addr := uint32 a in
  trap_check_addr_alignment 4 false addr ;;
  data ← try_catch (atomic_load_word addr)
    (fun e => throw (if reason e =? EXC_LOAD_ACCESS_FAULT
                     then mkTrap EXC_STORE_AMO_ACCESS_FAULT (mtval e) else e));
  let data := uint32 data in
  b ← reg (rs2 i);
  let val := uint32 (operation (int32 data) b) in
  atomic_store_word addr val ;;
  set_reg (rd i) (int32 data).

(** ** CSR accesses *)

Definition is_invalid_csr_access (csr_addr : Z) (is_write : bool) : R bool :=
  when ((csr_addr =? FFLAGS_ADDR) || (csr_addr =? FRM_ADDR) || (csr_addr =? FCSR_ADDR))
    (REQUIRE_ISA F_ISA_EXT) ;;
  let csr_prv := (0x300 .& csr_addr) .>> 8 in
  let csr_readonly := (0xC00 .& csr_addr) .>> 10 =? 3 in
  misa ← csr_reg csrs.misa; prv ← read prv;
  let s_invalid := (csr_prv =? SupervisorMode) && negb (has_supervisor_mode_extension misa) in
  let u_invalid := (csr_prv =? UserMode) && negb (has_user_mode_extension misa) in
  mret ((is_write && csr_readonly) || (prv <? csr_prv) || s_invalid || u_invalid).

Definition validate_csr_counter_read_access_rights (addr : Z) : R unit :=
  when (in_range 0xC00 0xC1F addr || in_range 0xC80 0xC9F addr)
    (let cnt := addr .& 0x1F in
     mcounteren ← csr_reg csrs.mcounteren; scounteren ← csr_reg csrs.scounteren;
     s ← s_mode;
     when (s && negb (is_bitset mcounteren cnt)) RAISE_ILLEGAL_INSTRUCTION ;;
     u ← u_mode;
     when (u && (negb (is_bitset mcounteren cnt) || negb (is_bitset scounteren cnt)))
       RAISE_ILLEGAL_INSTRUCTION).

Definition _compute_and_get_current_cycles : R Z :=
  c ← read cycle_counter;
  assert (c mod cycle_time =? 0) ;;
  mret (uint64 (c / cycle_time)).

(** [read(csrs.r, mask)] and [write(csrs.r, mask)] *)
Definition csr_read (r : csrs.reg) (mask : Z) : R Z :=
  read (fun s => masked_read (csr_regs s) r mask).
Definition csr_write (r : csrs.reg) (mask value : Z) : R unit :=
  update_csrs (masked_write r mask value).

(** The code after the [switch] of get_csr_value. *)
Definition get_csr_default (addr : Z) : R Z :=
  when (negb (is_valid_csr32_addr addr)) RAISE_ILLEGAL_INSTRUCTION ;;
  v ← read (fun s => default_read32 (csr_regs s) addr);
  match v with Some v => mret v | None => fatal RuntimeError end.

Definition get_csr_value (addr : Z) : R Z :=
  validate_csr_counter_read_access_rights addr ;;
  if (addr =? TIME_ADDR) || (addr =? MTIME_ADDR) then
    mtime ← update_and_get_mtime; set_csr csrs.time mtime ;; mret (uint32 mtime)
  else if (addr =? TIMEH_ADDR) || (addr =? MTIMEH_ADDR) then
    mtime ← update_and_get_mtime; set_csr csrs.time mtime ;; mret (uint32 (mtime .>> 32))
  else if addr =? MCYCLE_ADDR then
    c ← _compute_and_get_current_cycles; set_csr csrs.cycle c ;; mret (uint32 c)
  else if addr =? MCYCLEH_ADDR then
    c ← _compute_and_get_current_cycles; set_csr csrs.cycle c ;; mret (uint32 (c .>> 32))
  else if addr =? MINSTRET_ADDR then read (fun s => ptr_read (csr_regs s) (Low csrs.instret))
  else if addr =? MINSTRETH_ADDR then read (fun s => ptr_read (csr_regs s) (High csrs.instret))
  else if is_hpmcounter addr then mret 0
  else if addr =? MSTATUS_ADDR then csr_read csrs.mstatus MSTATUS_MASK
  else if addr =? SSTATUS_ADDR then csr_read csrs.mstatus SSTATUS_MASK
  else if addr =? USTATUS_ADDR then csr_read csrs.mstatus USTATUS_MASK
  else if addr =? MIP_ADDR then csr_read csrs.mip MIP_READ_MASK
  else if addr =? SIP_ADDR then csr_read csrs.mip SIP_MASK
  else if addr =? UIP_ADDR then csr_read csrs.mip UIP_MASK
  else if addr =? MIE_ADDR then csr_read csrs.mie MIE_MASK
  else if addr =? SIE_ADDR then csr_read csrs.mie SIE_MASK
  else if addr =? UIE_ADDR then csr_read csrs.mie UIE_MASK
  else if addr =? SATP_ADDR then
    tvm ← csr_field csrs.mstatus mstatus.tvm;
    when (nonzero tvm) RAISE_ILLEGAL_INSTRUCTION ;;
    get_csr_default addr
  else if addr =? FCSR_ADDR then csr_read csrs.fcsr FCSR_MASK
  else if addr =? FFLAGS_ADDR then csr_field csrs.fcsr fcsr.fflags
  else if addr =? FRM_ADDR then csr_field csrs.fcsr fcsr.frm
  else if addr =? TSELECT_ADDR then mret 1
  else if (addr =? TDATA1_ADDR) || (addr =? TDATA2_ADDR) || (addr =? TDATA3_ADDR)
          || (addr =? DCSR_ADDR) || (addr =? DPC_ADDR) || (addr =? DSCRATCH0_ADDR)
          || (addr =? DSCRATCH1_ADDR) then mret 0
  else get_csr_default addr.

(** The [default] case of set_csr_value. *)
Definition set_csr_default (addr value : Z) : R unit :=
  when (negb (is_valid_csr32_addr addr)) RAISE_ILLEGAL_INSTRUCTION ;;
  t ← read (fun s => default_write32 addr value (csr_regs s));
  match t with Some t => update (set_csr_regs t) | None => fatal RuntimeError end.

Definition set_csr_value (addr value : Z) : R unit :=
  misa ← csr_reg csrs.misa;
  if (addr =? MISA_ADDR) || is_hpmcounter addr then skip
  else if addr =? SATP_ADDR then
    tvm ← csr_field csrs.mstatus mstatus.tvm;
    when (nonzero tvm) RAISE_ILLEGAL_INSTRUCTION ;;
    csr_write csrs.satp SATP_MASK value
  else if addr =? MTVEC_ADDR then csr_write csrs.mtvec MTVEC_MASK value
  else if addr =? STVEC_ADDR then csr_write csrs.stvec MTVEC_MASK value
  else if addr =? UTVEC_ADDR then csr_write csrs.utvec MTVEC_MASK value
  else if addr =? MEPC_ADDR then csr_write csrs.mepc (pc_alignment_mask misa) value
  else if addr =? SEPC_ADDR then csr_write csrs.sepc (pc_alignment_mask misa) value
  else if addr =? UEPC_ADDR then csr_write csrs.uepc (pc_alignment_mask misa) value
  else if addr =? MSTATUS_ADDR then csr_write csrs.mstatus MSTATUS_MASK value
  else if addr =? SSTATUS_ADDR then csr_write csrs.mstatus SSTATUS_MASK value
  else if addr =? USTATUS_ADDR then csr_write csrs.mstatus USTATUS_MASK value
  else if addr =? MIP_ADDR then csr_write csrs.mip MIP_WRITE_MASK value
  else if addr =? SIP_ADDR then csr_write csrs.mip SIP_MASK value
  else if addr =? UIP_ADDR then csr_write csrs.mip UIP_MASK value
  else if addr =? MIE_ADDR then csr_write csrs.mie MIE_MASK value
  else if addr =? SIE_ADDR then csr_write csrs.mie SIE_MASK value
  else if addr =? UIE_ADDR then csr_write csrs.mie UIE_MASK value
  else if addr =? MIDELEG_ADDR then csr_write csrs.mideleg MIDELEG_MASK value
  else if addr =? MEDELEG_ADDR then csr_write csrs.medeleg MEDELEG_MASK value
  else if addr =? SIDELEG_ADDR then csr_write csrs.sideleg SIDELEG_MASK value
  else if addr =? SEDELEG_ADDR then csr_write csrs.sedeleg SEDELEG_MASK value
  else if addr =? MCOUNTEREN_ADDR then csr_write csrs.mcounteren MCOUNTEREN_MASK value
  else if addr =? SCOUNTEREN_ADDR then csr_write csrs.scounteren MCOUNTEREN_MASK value
  else if addr =? MCOUNTINHIBIT_ADDR then csr_write csrs.mcountinhibit MCOUNTINHIBIT_MASK value
  else if addr =? FCSR_ADDR then csr_write csrs.fcsr FCSR_MASK value
  else if addr =? FFLAGS_ADDR then set_csr_field csrs.fcsr fcsr.fflags value
  else if addr =? FRM_ADDR then set_csr_field csrs.fcsr fcsr.frm value
  else if (addr =? TSELECT_ADDR) || (addr =? TDATA1_ADDR) || (addr =? TDATA2_ADDR)
          || (addr =? TDATA3_ADDR) || (addr =? DCSR_ADDR) || (addr =? DPC_ADDR)
          || (addr =? DSCRATCH0_ADDR) || (addr =? DSCRATCH1_ADDR) then skip
  else set_csr_default addr value.

(** ** Floating-point bookkeeping *)

Definition fp_require_not_off : R unit :=
  fs ← csr_field csrs.mstatus mstatus.fs;
  when (fs =? FS_OFF) RAISE_ILLEGAL_INSTRUCTION.

Definition fp_prepare_instr : R unit :=
  flags ← read softfloat_exceptionFlags;
  assert (flags =? 0) ;;
  fp_require_not_off.

Definition fp_set_dirty : R unit :=
  set_csr_field csrs.mstatus mstatus.sd 1 ;;
  set_csr_field csrs.mstatus mstatus.fs FS_DIRTY.

Definition fp_update_exception_flags : R unit :=
  flags ← read softfloat_exceptionFlags;
  when (nonzero flags)
    (fp_set_dirty ;;
     old ← csr_field csrs.fcsr fcsr.fflags;
     set_csr_field csrs.fcsr fcsr.fflags (old .| flags) ;;
     update (set_softfloat_exceptionFlags 0)).

Definition fp_finish_instr : R unit := fp_set_dirty ;; fp_update_exception_flags.

Definition fp_setup_rm : R unit :=
  i ← read instr;
  rm ← (if frm i =? FRM_DYN then csr_field csrs.fcsr fcsr.frm else mret (frm i));
  when (FRM_RMM <=? rm) RAISE_ILLEGAL_INSTRUCTION ;;
  update (set_softfloat_roundingMode rm).

(** Run an operation of the library: its result, its flags raised. *)
Definition fp_call {A} (r : A * Z) : R A :=
  update (fun s => set_softfloat_exceptionFlags (softfloat_exceptionFlags s .| snd r) s) ;;
  mret (fst r).

Definition fp_reg_f32 (idx : Z) : R Z := read (fun s => fp_f32 (fp_regs s) idx).
Definition fp_reg_f64 (idx : Z) : R Z := read (fun s => fp_f64 (fp_regs s) idx).
Definition fp_reg_u32 (idx : Z) : R Z := read (fun s => fp_u32 (fp_regs s) idx).
Definition fp_set_f32 (idx x : Z) : R unit :=
  update (fun s => set_fp_regs (fp_write_f32 idx x (fp_regs s)) s).
Definition fp_set_f64 (idx x : Z) : R unit :=
  update (fun s => set_fp_regs (fp_write_f64 idx x (fp_regs s)) s).

(** ** Interrupt lines *)

Definition trigger_external_interrupt (level : PrivilegeLevel) : R unit :=
  (if level =? UserMode then set_csr_field csrs.mip mip.ueip 1
   else if level =? SupervisorMode then set_csr_field csrs.mip mip.seip 1
   else if level =? MachineMode then set_csr_field csrs.mip mip.meip 1
   else skip) ;;
  notify_wfi_event.

Definition clear_external_interrupt (level : PrivilegeLevel) : R unit :=
  if level =? UserMode then set_csr_field csrs.mip mip.ueip 0
  else if level =? SupervisorMode then set_csr_field csrs.mip mip.seip 0
  else if level =? MachineMode then set_csr_field csrs.mip mip.meip 0
  else skip.

Definition trigger_timer_interrupt (status : bool) : R unit :=
  set_csr_field csrs.mip mip.mtip (b2z status) ;; notify_wfi_event.

Definition trigger_software_interrupt (status : bool) : R unit :=
  set_csr_field csrs.mip mip.msip (b2z status) ;; notify_wfi_event.

(** ** The interface of the system call emulator *)

Definition sys_exit : R unit := update (set_shall_exit true).

Definition get_syscall_register_index : R Z :=
  misa ← csr_reg csrs.misa; mret (if has_E_base_isa misa then x_a5 else x_a7).

Definition read_register (idx : Z) : R Z :=
  r ← read regs;
  match RegFile_read r idx with inl f => fatal f | inr v => mret (uint32 v) end.

(** [boost::lexical_cast<uint32_t>] of an unsigned number: it throws unless the
    number fits. *)
Definition lexical_cast_u32 (v : Z) : R Z :=
  if v <? 2 ^ 32 then mret v else fatal BadLexicalCast.

Definition write_register (idx value : Z) : R unit :=
  v ← lexical_cast_u32 value;
  r ← read regs;
  match RegFile_write r idx (int32 v) with inl f => fatal f | inr r => update (set_regs r) end.

(** ** The debugger's interface *)

Definition get_progam_counter : R Z := read pc.
Definition block_on_wfi (block : bool) : R unit := update (set_ignore_wfi (negb block)).
Definition get_status : R CoreExecStatus := read status.
Definition enable_debug : R unit := update (set_debug_mode true).
Definition insert_breakpoint (addr : Z) : R unit :=
  update (fun s => set_breakpoints ({[ uint32 addr ]} ∪ breakpoints s) s).
Definition remove_breakpoint (addr : Z) : R unit :=
  update (fun s => set_breakpoints (breakpoints s ∖ {[ uint32 addr ]}) s).
Definition get_hart_id : R Z := csr_reg csrs.mhartid.
Definition get_registers : R (list Z) := read (fun s => map uint32 (regs s)).

(** ** Traps and interrupts *)

Definition return_from_trap_handler (return_mode : PrivilegeLevel) : R unit :=
  misa ← csr_reg csrs.misa;
  if return_mode =? MachineMode then
    mpp ← csr_field csrs.mstatus mstatus.mpp; update (set_prv mpp) ;;
    mpie ← csr_field csrs.mstatus mstatus.mpie; set_csr_field csrs.mstatus mstatus.mie mpie ;;
    set_csr_field csrs.mstatus mstatus.mpie 1 ;;
    mepc ← csr_reg csrs.mepc; write_pc mepc ;;
    set_csr_field csrs.mstatus mstatus.mpp
      (if has_user_mode_extension misa then UserMode else MachineMode)
  else if return_mode =? SupervisorMode then
    spp ← csr_field csrs.mstatus mstatus.spp; update (set_prv spp) ;;
    spie ← csr_field csrs.mstatus mstatus.spie; set_csr_field csrs.mstatus mstatus.sie spie ;;
    set_csr_field csrs.mstatus mstatus.spie 1 ;;
    sepc ← csr_reg csrs.sepc; write_pc sepc ;;
    set_csr_field csrs.mstatus mstatus.spp
      (if has_user_mode_extension misa then UserMode else SupervisorMode)
  else if return_mode =? UserMode then
    update (set_prv UserMode) ;;
    upie ← csr_field csrs.mstatus mstatus.upie; set_csr_field csrs.mstatus mstatus.uie upie ;;
    set_csr_field csrs.mstatus mstatus.upie 1 ;;
    uepc ← csr_reg csrs.uepc; write_pc uepc
  else fatal RuntimeError.

(** Record the cause of a trap taken to a mode with the given registers. *)
Definition write_cause (cause tval : csrs.reg) (e : SimulationTrap) : R unit :=
  set_csr_field cause mcause.interrupt 0 ;;
  set_csr_field cause mcause.exception_code (reason e) ;;
  v ← lexical_cast_u32 (mtval e);
  set_csr tval v.

Definition prepare_trap (e : SimulationTrap) : R PrivilegeLevel :=
  last ← read last_pc; write_pc last ;;
  let exc_bit := uint32 (1 .<< reason e) in
  prv ← read prv; medeleg ← csr_reg csrs.medeleg; sedeleg ← csr_reg csrs.sedeleg;
  if (prv =? MachineMode) || negb (nonzero (exc_bit .& medeleg)) then
    write_cause csrs.mcause csrs.mtval e ;; mret MachineMode
  else if (prv =? SupervisorMode) || negb (nonzero (exc_bit .& sedeleg)) then
    write_cause csrs.scause csrs.stval e ;; mret SupervisorMode
  else
    assert ((prv =? UserMode) && nonzero (exc_bit .& medeleg) && nonzero (exc_bit .& sedeleg)) ;;
    write_cause csrs.ucause csrs.utval e ;; mret UserMode.

(** struct PendingInterrupts *)
Record PendingInterrupts : Type := mkPending { target_mode : PrivilegeLevel; pending : Z }.

(** The code of the pending interrupt of the highest priority. *)
Definition interrupt_code (x : Z) : option Z :=
  let has f := nonzero (get_field f x) in
  if has mip.meip then Some EXC_M_EXTERNAL_INTERRUPT
  else if has mip.msip then Some EXC_M_SOFTWARE_INTERRUPT
  else if has mip.mtip then Some EXC_M_TIMER_INTERRUPT
  else if has mip.seip then Some EXC_S_EXTERNAL_INTERRUPT
  else if has mip.ssip then Some EXC_S_SOFTWARE_INTERRUPT
  else if has mip.stip then Some EXC_S_TIMER_INTERRUPT
  else if has mip.ueip then Some EXC_U_EXTERNAL_INTERRUPT
  else if has mip.usip then Some EXC_U_SOFTWARE_INTERRUPT
  else if has mip.utip then Some EXC_U_TIMER_INTERRUPT
  else None.

Definition write_interrupt_cause (cause : csrs.reg) (exc : Z) : R unit :=
  set_csr_field cause mcause.exception_code exc ;;
  set_csr_field cause mcause.interrupt 1.

Definition prepare_interrupt (e : PendingInterrupts) : R unit :=
  match interrupt_code (pending e) with
  | None => fatal RuntimeError
  | Some exc =>
      if target_mode e =? MachineMode then write_interrupt_cause csrs.mcause exc
      else if target_mode e =? SupervisorMode then write_interrupt_cause csrs.scause exc
      else if target_mode e =? UserMode then write_interrupt_cause csrs.ucause exc
      else fatal RuntimeError
  end.

(** The decision as a function of the core's state. *)
Definition pending_interrupts (s : ISS) : PendingInterrupts :=
  let t := csr_regs s in
  let none := mkPending NoneMode 0 in
  let mideleg := csr_get t csrs.mideleg in
  let sideleg := csr_get t csrs.sideleg in
  let pending := csr_get t csrs.mie .& csr_get t csrs.mip in
  if pending =? 0 then none else
  let m_pending := pending .& uint32 (Z.lnot mideleg) in
  if nonzero m_pending &&
     ((prv s <? MachineMode) ||
      (prv s =? MachineMode) && nonzero (get_bits t csrs.mstatus mstatus.mie))
  then mkPending MachineMode m_pending else
  let pending := pending .& mideleg in
  let s_pending := pending .& uint32 (Z.lnot sideleg) in
  if nonzero s_pending &&
     ((prv s <? SupervisorMode) ||
      (prv s =? SupervisorMode) && nonzero (get_bits t csrs.mstatus mstatus.sie))
  then mkPending SupervisorMode s_pending else
  let u_pending := pending .& sideleg in
  if nonzero u_pending && ((prv s =? UserMode) && nonzero (get_bits t csrs.mstatus mstatus.uie))
  then mkPending UserMode u_pending else
  none.

Definition compute_pending_interrupts : R PendingInterrupts := read pending_interrupts.

Definition has_local_pending_enabled_interrupts : R bool :=
  mie ← csr_reg csrs.mie; mip ← csr_reg csrs.mip; mret (nonzero (mie .& mip)).

(** The address of a trap handler: [mtvec] and its mode, and the cause. *)
Definition handler_address (tvec cause : Z) : Z :=
  let base := mtvec.get_base_address tvec in
  if nonzero (get_field mcause.interrupt cause) && (get_field mtvec.mode tvec =? mtvec.Vectored)
  then uint32 (base + 4 * get_field mcause.exception_code cause) else base.

Definition jump_to_handler (tvec cause : csrs.reg) : R unit :=
  t ← csr_reg tvec; c ← csr_reg cause; write_pc (handler_address t c).

Definition switch_to_trap_handler (target_mode : PrivilegeLevel) : R unit :=
  release_lr_sc_reservation ;;
  pp ← read prv;
  update (set_prv target_mode) ;;
  if target_mode =? MachineMode then
    pc ← read pc; set_csr csrs.mepc pc ;;
    mie ← csr_field csrs.mstatus mstatus.mie; set_csr_field csrs.mstatus mstatus.mpie mie ;;
    set_csr_field csrs.mstatus mstatus.mie 0 ;;
    set_csr_field csrs.mstatus mstatus.mpp pp ;;
    jump_to_handler csrs.mtvec csrs.mcause
  else if target_mode =? SupervisorMode then
    prv ← read prv; assert ((prv =? SupervisorMode) || (prv =? UserMode)) ;;
    pc ← read pc; set_csr csrs.sepc pc ;;
    sie ← csr_field csrs.mstatus mstatus.sie; set_csr_field csrs.mstatus mstatus.spie sie ;;
    set_csr_field csrs.mstatus mstatus.sie 0 ;;
    set_csr_field csrs.mstatus mstatus.spp pp ;;
    jump_to_handler csrs.stvec csrs.scause
  else if target_mode =? UserMode then
    prv ← read prv; assert (prv =? UserMode) ;;
    pc ← read pc; set_csr csrs.uepc pc ;;
    uie ← csr_field csrs.mstatus mstatus.uie; set_csr_field csrs.mstatus mstatus.upie uie ;;
    set_csr_field csrs.mstatus mstatus.uie 0 ;;
    jump_to_handler csrs.utvec csrs.ucause
  else fatal RuntimeError.

Definition performance_and_sync_update (executed_op : Mapping) : R unit :=
  update (fun s => set_total_num_instr (uint64 (total_num_instr s + 1)) s) ;;
  ir ← csr_field csrs.mcountinhibit mcountinhibit.IR;
  when (negb (nonzero ir))
    (instret ← csr_reg csrs.instret; set_csr csrs.instret (uint64 (instret + 1))) ;;
  counter ← read lr_sc_counter;
  when (nonzero counter)
    (update (set_lr_sc_counter (counter - 1)) ;;
     assert (0 <=? counter - 1) ;;
     when (counter - 1 =? 0) release_lr_sc_reservation) ;;
  let new_cycles := instr_cycles executed_op in
  cy ← csr_field csrs.mcountinhibit mcountinhibit.CY;
  when (negb (nonzero cy))
    (update (fun s => set_cycle_counter (cycle_counter s + new_cycles) s)) ;;
  quantum_keeper_inc new_cycles ;;
  sync ← quantum_keeper_need_sync;
  when sync
    (counter ← read lr_sc_counter;
     when (counter =? 0) quantum_keeper_sync).

End ISS.
