(* ===== verification/IssExec.v ===== *)
(** * Execution of one instruction

    Models [ISS::exec_step] of core/rv32/iss.cpp: fetch, decode and the [switch]
    over the opcodes, one definition per group of cases.  Arithmetic on
    [int32_t] wraps around. *)

From S2P Require Import Prelude Instr Decode Compressed Trap Csr Fp Iss.

Section exec.
Context {W : Type} `{platform W} `{softfloat}.

Abbreviation R := (M (machine W) SimulationTrap).

(** ** Fetch and decode *)

Definition fetch : R unit :=
  pc ← read pc; misa ← csr_reg csrs.misa;
  assert (pc .& uint32 (Z.lnot (pc_alignment_mask misa)) =? 0) ;;
  try_catch
    (mem_word ← load_instr pc; update (set_instr (mk_Instruction mem_word)))
    (fun e => update (set_op UNDEF) ;; update (set_instr (mk_Instruction 0)) ;; throw e).

Definition decode : R unit :=
  i ← read instr; pc ← read pc;
  if is_compressed i then
    match decode_and_expand_compressed i RV32 with
    | None => fatal RuntimeError
    | Some (i', op) =>
        update (set_instr i') ;; update (set_op op) ;;
        write_pc (uint32 (pc + 2)) ;;
        when (negb (bool_decide (op = UNDEF))) (REQUIRE_ISA C_ISA_EXT)
    end
  else
    update (set_op (decode_normal RV32 i)) ;;
    write_pc (uint32 (pc + 4)).

(** ** RV32I *)

Definition exec_alu (i : Instruction) (op : Mapping) : R unit :=
  a ← reg (rs1 i); b ← reg (rs2 i);
  shamt_rs2 ← read (fun s => RegFile_shamt (regs s) (rs2 i));
  match op with
  | ADDI => set_reg (rd i) (int32 (a + I_imm i))
  | SLTI => set_reg (rd i) (b2z (a <? I_imm i))
  | SLTIU => set_reg (rd i) (b2z (uint32 a <? uint32 (I_imm i)))
  | XORI => set_reg (rd i) (a .^ I_imm i)
  | ORI => set_reg (rd i) (a .| I_imm i)
  | ANDI => set_reg (rd i) (a .& I_imm i)
  | ADD => set_reg (rd i) (int32 (a + b))
  | SUB => set_reg (rd i) (int32 (a - b))
  | SLL => set_reg (rd i) (int32 (a .<< shamt_rs2))
  | SLT => set_reg (rd i) (b2z (a <? b))
  | SLTU => set_reg (rd i) (b2z (uint32 a <? uint32 b))
  | SRL => set_reg (rd i) (int32 (uint32 a .>> shamt_rs2))
  | SRA => set_reg (rd i) (a .>> shamt_rs2)
  | XOR => set_reg (rd i) (a .^ b)
  | OR => set_reg (rd i) (a .| b)
  | AND => set_reg (rd i) (a .& b)
  | SLLI => set_reg (rd i) (int32 (a .<< shamt i))
  | SRLI => set_reg (rd i) (int32 (uint32 a .>> shamt i))
  | SRAI => set_reg (rd i) (a .>> shamt i)
  | _ => skip
  end.

Definition exec_jump (i : Instruction) (op : Mapping) : R unit :=
  last_pc ← read last_pc;
  match op with
  | LUI => set_reg (rd i) (U_imm i)
  | AUIPC => set_reg (rd i) (int32 (last_pc + U_imm i))
  | JAL =>
      link ← read pc;
      write_pc (uint32 (last_pc + J_imm i)) ;;
      trap_check_pc_alignment ;;
      set_reg (rd i) (int32 link)
  | JALR =>
      link ← read pc;
      a ← reg (rs1 i);
      write_pc (uint32 (int32 (a + I_imm i) .& Z.lnot 1)) ;;
      trap_check_pc_alignment ;;
      set_reg (rd i) (int32 link)
  | _ => skip
  end.

Definition exec_mem (i : Instruction) (op : Mapping) : R unit :=
  a ← reg (rs1 i); b ← reg (rs2 i);
  let store_addr := uint32 (a + S_imm i) in
  let load_addr := uint32 (a + I_imm i) in
  match op with
  | SB => store_byte store_addr (uint8 b)
  | SH => trap_check_addr_alignment 2 false store_addr ;; store_half store_addr (uint16 b)
  | SW => trap_check_addr_alignment 4 false store_addr ;; store_word store_addr (uint32 b)
  | LB => v ← load_byte load_addr; set_reg (rd i) (int32 v)
  | LH => trap_check_addr_alignment 2 true load_addr ;;
          v ← load_half load_addr; set_reg (rd i) (int32 v)
  | LW => trap_check_addr_alignment 4 true load_addr ;;
          v ← load_word load_addr; set_reg (rd i) (int32 v)
  | LBU => v ← load_ubyte load_addr; set_reg (rd i) (int32 v)
  | LHU => trap_check_addr_alignment 2 true load_addr ;;
           v ← load_uhalf load_addr; set_reg (rd i) (int32 v)
  | _ => skip
  end.

Definition branch_taken (op : Mapping) (a b : Z) : bool :=
  match op with
  | BEQ => a =? b
  | BNE => negb (a =? b)
  | BLT => a <? b
  | BGE => b <=? a
  | BLTU => uint32 a <? uint32 b
  | BGEU => uint32 b <=? uint32 a
  | _ => false
  end.

Definition exec_branch (i : Instruction) (op : Mapping) : R unit :=
  a ← reg (rs1 i); b ← reg (rs2 i);
  when (branch_taken op a b)
    (last_pc ← read last_pc;
     write_pc (uint32 (last_pc + B_imm i)) ;;
     trap_check_pc_alignment).

Definition exec_ecall : R unit :=
  match execute_syscall with
  | Some emulate => emulate
  | None =>
      prv ← read prv; last_pc ← read last_pc;
      if prv =? MachineMode then raise_trap EXC_ECALL_M_MODE last_pc
      else if prv =? SupervisorMode then raise_trap EXC_ECALL_S_MODE last_pc
      else if prv =? UserMode then raise_trap EXC_ECALL_U_MODE last_pc
      else fatal RuntimeError
  end.

(** ** Zicsr *)

Definition exec_csrrw (i : Instruction) (value : R Z) : R unit :=
  let addr := csr i in
  invalid ← is_invalid_csr_access addr true;
  if (invalid : bool) then RAISE_ILLEGAL_INSTRUCTION
  else
    v ← value;
    when (negb (rd i =? x_zero)) (csr_val ← get_csr_value addr; set_reg (rd i) (int32 csr_val)) ;;
    set_csr_value addr (uint32 v).

(** CSRRS and CSRRC, and their immediate forms, for a function [f] that sets or
    clears the bits of an operand that is written back when [write]. *)
Definition exec_csr_update (i : Instruction) (write : bool) (operand : R Z) (f : Z -> Z -> Z)
    : R unit :=
  let addr := csr i in
  invalid ← is_invalid_csr_access addr write;
  if (invalid : bool) then RAISE_ILLEGAL_INSTRUCTION
  else
    v ← operand;
    csr_val ← get_csr_value addr;
    when (negb (rd i =? x_zero)) (set_reg (rd i) (int32 csr_val)) ;;
    when write (set_csr_value addr (f csr_val (uint32 v))).

Definition csr_set_bits (x v : Z) : Z := x .| v.
Definition csr_clear_bits (x v : Z) : Z := x .& uint32 (Z.lnot v).

Definition exec_csr (i : Instruction) (op : Mapping) : R unit :=
  let rs1_write := negb (rs1 i =? x_zero) in
  let zimm_write := negb (zimm i =? 0) in
  match op with
  | CSRRW => exec_csrrw i (reg (rs1 i))
  | CSRRS => exec_csr_update i rs1_write (reg (rs1 i)) csr_set_bits
  | CSRRC => exec_csr_update i rs1_write (reg (rs1 i)) csr_clear_bits
  | CSRRWI => exec_csrrw i (mret (zimm i))
  | CSRRSI => exec_csr_update i zimm_write (mret (zimm i)) csr_set_bits
  | CSRRCI => exec_csr_update i zimm_write (mret (zimm i)) csr_clear_bits
  | _ => skip
  end.

(** ** RV32M *)

Definition REG_MIN : Z := - 2 ^ 31.

Definition exec_muldiv (i : Instruction) (op : Mapping) : R unit :=
  REQUIRE_ISA M_ISA_EXT ;;
  a ← reg (rs1 i); b ← reg (rs2 i);
  match op with
  | MUL => set_reg (rd i) (int32 (int64 (a * b) .& 0xFFFFFFFF))
  | MULH => set_reg (rd i) (int32 ((uint64 (int64 (a * b)) .& 0xFFFFFFFF00000000) .>> 32))
  | MULHU =>
      set_reg (rd i)
        (int32 ((uint64 (int64 (uint32 a * uint32 b)) .& 0xFFFFFFFF00000000) .>> 32))
  | MULHSU =>
      set_reg (rd i)
        (int32 ((uint64 (int64 (uint64 a * uint32 b)) .& 0xFFFFFFFF00000000) .>> 32))
  | DIV =>
      if b =? 0 then set_reg (rd i) (-1)
      else if (a =? REG_MIN) && (b =? -1) then set_reg (rd i) a
      else set_reg (rd i) (Z.quot a b)
  | DIVU =>
      if b =? 0 then set_reg (rd i) (-1)
      else set_reg (rd i) (int32 (uint32 a / uint32 b))
  | REM =>
      if b =? 0 then set_reg (rd i) a
      else if (a =? REG_MIN) && (b =? -1) then set_reg (rd i) 0
      else set_reg (rd i) (Z.rem a b)
  | REMU =>
      if b =? 0 then set_reg (rd i) a
      else set_reg (rd i) (int32 (uint32 a mod uint32 b))
  | _ => skip
  end.

(** ** RV32A *)

Definition amo_operation (op : Mapping) (a b : Z) : Z :=
  match op with
  | AMOSWAP_W => b
  | AMOADD_W => int32 (a + b)
  | AMOXOR_W => a .^ b
  | AMOAND_W => a .& b
  | AMOOR_W => a .| b
  | AMOMIN_W => Z.min a b
  | AMOMINU_W => int32 (Z.min (uint32 a) (uint32 b))
  | AMOMAX_W => Z.max a b
  | AMOMAXU_W => int32 (Z.max (uint32 a) (uint32 b))
  | _ => b
  end.

Definition exec_amo (i : Instruction) (op : Mapping) : R unit :=
  REQUIRE_ISA A_ISA_EXT ;;
  match op with
  | LR_W =>
      a ← reg (rs1 i);
      let addr := uint32 a in
      trap_check_addr_alignment 4 true addr ;;
      v ← atomic_load_reserved_word addr;
      set_reg (rd i) (int32 v) ;;
      counter ← read lr_sc_counter;
      when (counter =? 0) (update (set_lr_sc_counter 17))
  | SC_W =>
      a ← reg (rs1 i);
      let addr := uint32 a in
      trap_check_addr_alignment 4 false addr ;;
      val ← reg (rs2 i);
      set_reg (rd i) 1 ;;
      ok ← atomic_store_conditional_word addr (uint32 val);
      set_reg (rd i) (if (ok : bool) then 0 else 1) ;;
      update (set_lr_sc_counter 0)
  | _ => execute_amo i (amo_operation op)
  end.

(** ** RV32F *)

Definition exec_flw_fsw (i : Instruction) (op : Mapping) : R unit :=
  REQUIRE_ISA F_ISA_EXT ;;
  a ← reg (rs1 i);
  match op with
  | FLW =>
      let addr := uint32 (a + I_imm i) in
      trap_check_addr_alignment 4 true addr ;;
      v ← load_word addr;
      fp_set_f32 (rd i) (uint32 v)
  | FSW =>
      let addr := uint32 (a + S_imm i) in
      trap_check_addr_alignment 4 false addr ;;
      v ← fp_reg_u32 (rs2 i);
      store_word addr v
  | _ => skip
  end.

(** The frame of the rounding operations: check the unit is on, set the rounding
    mode, call the library, write the result, update the flags. *)
Definition fp_rounding (f : Z -> Z * Z) (write : Z -> R unit) : R unit :=
  fp_prepare_instr ;;
  fp_setup_rm ;;
  rm ← read softfloat_roundingMode;
  v ← fp_call (f rm);
  write v ;;
  fp_finish_instr.

Definition exec_f_arith (i : Instruction) (op : Mapping) : R unit :=
  REQUIRE_ISA F_ISA_EXT ;;
  a ← fp_reg_f32 (rs1 i); b ← fp_reg_f32 (rs2 i); c ← fp_reg_f32 (rs3 i);
  let f32_op f := fp_rounding f (fp_set_f32 (rd i)) in
  match op with
  | FADD_S => f32_op (fun rm => f32_add rm a b)
  | FSUB_S => f32_op (fun rm => f32_sub rm a b)
  | FMUL_S => f32_op (fun rm => f32_mul rm a b)
  | FDIV_S => f32_op (fun rm => f32_div rm a b)
  | FSQRT_S => f32_op (fun rm => f32_sqrt rm a)
  | FMADD_S => f32_op (fun rm => f32_mulAdd rm a b c)
  | FMSUB_S => f32_op (fun rm => f32_mulAdd rm a b (f32_neg c))
  | FNMADD_S => f32_op (fun rm => f32_mulAdd rm (f32_neg a) b (f32_neg c))
  | FNMSUB_S => f32_op (fun rm => f32_mulAdd rm (f32_neg a) b c)
  | _ => skip
  end.

(** [lt(x, y) || (eq(x, y) && isNegative(z))], left to right. *)
Definition fp_smaller (lt eq : bool * Z) (negative : bool) : R bool :=
  l ← fp_call lt;
  if (l : bool) then mret true
  else e ← fp_call eq; mret (e && negative).

Definition exec_f_minmax (i : Instruction) (op : Mapping) : R unit :=
  REQUIRE_ISA F_ISA_EXT ;;
  fp_prepare_instr ;;
  a ← fp_reg_f32 (rs1 i); b ← fp_reg_f32 (rs2 i);
  rs1_wins ←
    (match op with
     | FMIN_S => fp_smaller (f32_lt_quiet a b) (f32_eq a b) (f32_isNegative a)
     | _ => fp_smaller (f32_lt_quiet b a) (f32_eq b a) (f32_isNegative b)
     end);
  (if f32_isNaN a && f32_isNaN b then fp_set_f32 (rd i) f32_defaultNaN
   else if (rs1_wins : bool) then fp_set_f32 (rd i) a else fp_set_f32 (rd i) b) ;;
  fp_finish_instr.

Definition exec_f_convert (i : Instruction) (op : Mapping) : R unit :=
  REQUIRE_ISA F_ISA_EXT ;;
  a ← fp_reg_f32 (rs1 i); x ← reg (rs1 i);
  match op with
  | FCVT_W_S => fp_rounding (fun rm => f32_to_i32 rm a) (fun v => set_reg (rd i) (int32 v))
  | FCVT_WU_S => fp_rounding (fun rm => f32_to_ui32 rm a) (fun v => set_reg (rd i) (int32 v))
  | FCVT_S_W => fp_rounding (fun rm => i32_to_f32 rm x) (fp_set_f32 (rd i))
  | FCVT_S_WU => fp_rounding (fun rm => ui32_to_f32 rm (uint32 x)) (fp_set_f32 (rd i))
  | _ => skip
  end.

Definition f32_sgnj (f1 sign : Z) : Z := (f1 .& uint32 (Z.lnot F32_SIGN_BIT)) .| (sign .& F32_SIGN_BIT).

Definition exec_f_move (i : Instruction) (op : Mapping) : R unit :=
  REQUIRE_ISA F_ISA_EXT ;;
  fp_prepare_instr ;;
  f1 ← fp_reg_f32 (rs1 i); f2 ← fp_reg_f32 (rs2 i);
  match op with
  | FSGNJ_S => fp_set_f32 (rd i) (f32_sgnj f1 f2) ;; fp_set_dirty
  | FSGNJN_S => fp_set_f32 (rd i) (f32_sgnj f1 (uint32 (Z.lnot f2))) ;; fp_set_dirty
  | FSGNJX_S => fp_set_f32 (rd i) (f1 .^ (f2 .& F32_SIGN_BIT)) ;; fp_set_dirty
  | FMV_W_X => x ← reg (rs1 i); fp_set_f32 (rd i) (uint32 x) ;; fp_set_dirty
  | FMV_X_W => v ← fp_reg_u32 (rs1 i); set_reg (rd i) (int32 v)
  | _ => skip
  end.

Definition exec_f_compare (i : Instruction) (op : Mapping) : R unit :=
  REQUIRE_ISA F_ISA_EXT ;;
  fp_prepare_instr ;;
  a ← fp_reg_f32 (rs1 i); b ← fp_reg_f32 (rs2 i);
  let compare r := v ← fp_call r; set_reg (rd i) (b2z v) ;; fp_update_exception_flags in
  match op with
  | FEQ_S => compare (f32_eq a b)
  | FLT_S => compare (f32_lt a b)
  | FLE_S => compare (f32_le a b)
  | FCLASS_S => set_reg (rd i) (int32 (f32_classify a))
  | _ => skip
  end.

(** ** RV32D *)

Definition exec_fld_fsd (i : Instruction) (op : Mapping) : R unit :=
  REQUIRE_ISA D_ISA_EXT ;;
  a ← reg (rs1 i);
  match op with
  | FLD =>
      let addr := uint32 (a + I_imm i) in
      trap_check_addr_alignment 8 true addr ;;
      v ← load_double addr;
      fp_set_f64 (rd i) (uint64 v)
  | FSD =>
      let addr := uint32 (a + S_imm i) in
      trap_check_addr_alignment 8 false addr ;;
      v ← fp_reg_f64 (rs2 i);
      store_double addr v
  | _ => skip
  end.

Definition exec_d_arith (i : Instruction) (op : Mapping) : R unit :=
  REQUIRE_ISA D_ISA_EXT ;;
  a ← fp_reg_f64 (rs1 i); b ← fp_reg_f64 (rs2 i); c ← fp_reg_f64 (rs3 i);
  let f64_op f := fp_rounding f (fp_set_f64 (rd i)) in
  match op with
  | FADD_D => f64_op (fun rm => f64_add rm a b)
  | FSUB_D => f64_op (fun rm => f64_sub rm a b)
  | FMUL_D => f64_op (fun rm => f64_mul rm a b)
  | FDIV_D => f64_op (fun rm => f64_div rm a b)
  | FSQRT_D => f64_op (fun rm => f64_sqrt rm a)
  | FMADD_D => f64_op (fun rm => f64_mulAdd rm a b c)
  | FMSUB_D => f64_op (fun rm => f64_mulAdd rm a b (f64_neg c))
  | FNMADD_D => f64_op (fun rm => f64_mulAdd rm (f64_neg a) b (f64_neg c))
  | FNMSUB_D => f64_op (fun rm => f64_mulAdd rm (f64_neg a) b c)
  | _ => skip
  end.

Definition exec_d_minmax (i : Instruction) (op : Mapping) : R unit :=
  REQUIRE_ISA D_ISA_EXT ;;
  fp_prepare_instr ;;
  a ← fp_reg_f64 (rs1 i); b ← fp_reg_f64 (rs2 i);
  rs1_wins ←
    (match op with
     | FMIN_D => fp_smaller (f64_lt_quiet a b) (f64_eq a b) (f64_isNegative a)
     | _ => fp_smaller (f64_lt_quiet b a) (f64_eq b a) (f64_isNegative b)
     end);
  (if f64_isNaN a && f64_isNaN b then fp_set_f64 (rd i) f64_defaultNaN
   else if (rs1_wins : bool) then fp_set_f64 (rd i) a else fp_set_f64 (rd i) b) ;;
  fp_finish_instr.

Definition f64_sgnj (f1 sign : Z) : Z := (f1 .& uint64 (Z.lnot F64_SIGN_BIT)) .| (sign .& F64_SIGN_BIT).

Definition exec_d_move (i : Instruction) (op : Mapping) : R unit :=
  REQUIRE_ISA D_ISA_EXT ;;
  fp_prepare_instr ;;
  f1 ← fp_reg_f64 (rs1 i); f2 ← fp_reg_f64 (rs2 i);
  match op with
  | FSGNJ_D => fp_set_f64 (rd i) (f64_sgnj f1 f2) ;; fp_set_dirty
  | FSGNJN_D => fp_set_f64 (rd i) (f64_sgnj f1 (uint64 (Z.lnot f2))) ;; fp_set_dirty
  | FSGNJX_D => fp_set_f64 (rd i) (f1 .^ (f2 .& F64_SIGN_BIT)) ;; fp_set_dirty
  | _ => skip
  end.

Definition exec_d_compare (i : Instruction) (op : Mapping) : R unit :=
  REQUIRE_ISA D_ISA_EXT ;;
  fp_prepare_instr ;;
  a ← fp_reg_f64 (rs1 i); b ← fp_reg_f64 (rs2 i);
  let compare r := v ← fp_call r; set_reg (rd i) (b2z v) ;; fp_update_exception_flags in
  match op with
  | FEQ_D => compare (f64_eq a b)
  | FLT_D => compare (f64_lt a b)
  | FLE_D => compare (f64_le a b)
  | FCLASS_D => set_reg (rd i) (int32 (f64_classify a))
  | _ => skip
  end.

Definition exec_d_convert (i : Instruction) (op : Mapping) : R unit :=
  REQUIRE_ISA D_ISA_EXT ;;
  a ← fp_reg_f64 (rs1 i); f ← fp_reg_f32 (rs1 i); x ← reg (rs1 i);
  match op with
  | FCVT_S_D => fp_rounding (fun rm => f64_to_f32 rm a) (fp_set_f32 (rd i))
  | FCVT_D_S => fp_rounding (fun _ => f32_to_f64 f) (fp_set_f64 (rd i))
  | FCVT_W_D => fp_rounding (fun rm => f64_to_i32 rm a) (fun v => set_reg (rd i) (int32 v))
  | FCVT_WU_D => fp_rounding (fun rm => f64_to_ui32 rm a) (fun v => set_reg (rd i) (int32 v))
  | FCVT_D_W => fp_rounding (fun _ => i32_to_f64 x) (fp_set_f64 (rd i))
  | FCVT_D_WU => fp_rounding (fun _ => ui32_to_f64 (uint32 x)) (fp_set_f64 (rd i))
  | _ => skip
  end.

(** ** Privileged instructions *)

Definition exec_wfi : R unit :=
  release_lr_sc_reservation ;;
  s ← s_mode; tw ← csr_field csrs.mstatus mstatus.tw;
  when (s && nonzero tw) RAISE_ILLEGAL_INSTRUCTION ;;
  u ← u_mode; misa ← csr_reg csrs.misa;
  when (u && has_supervisor_mode_extension misa) RAISE_ILLEGAL_INSTRUCTION ;;
  ignore ← read ignore_wfi; local ← has_local_pending_enabled_interrupts;
  when (negb ignore && negb local) wait_wfi_event.

Definition exec_sfence_vma : R unit :=
  s ← s_mode; tvm ← csr_field csrs.mstatus mstatus.tvm;
  when (s && nonzero tvm) RAISE_ILLEGAL_INSTRUCTION ;;
  flush_tlb.

Definition exec_xret (op : Mapping) : R unit :=
  misa ← csr_reg csrs.misa;
  match op with
  | URET =>
      when (negb (has_user_mode_extension misa)) RAISE_ILLEGAL_INSTRUCTION ;;
      return_from_trap_handler UserMode
  | SRET =>
      s ← s_mode; tsr ← csr_field csrs.mstatus mstatus.tsr;
      when (negb (has_supervisor_mode_extension misa) || (s && nonzero tsr))
        RAISE_ILLEGAL_INSTRUCTION ;;
      return_from_trap_handler SupervisorMode
  | MRET => return_from_trap_handler MachineMode
  | _ => skip
  end.

(** ** The switch, and the step *)

Definition exec_op (i : Instruction) (op : Mapping) : R unit :=
  match op with
  | UNDEF => RAISE_ILLEGAL_INSTRUCTION
  | ADDI | SLTI | SLTIU | XORI | ORI | ANDI | ADD | SUB | SLL | SLT | SLTU | SRL | SRA
  | XOR | OR | AND | SLLI | SRLI | SRAI => exec_alu i op
  | LUI | AUIPC | JAL | JALR => exec_jump i op
  | SB | SH | SW | LB | LH | LW | LBU | LHU => exec_mem i op
  | BEQ | BNE | BLT | BGE | BLTU | BGEU => exec_branch i op
  | FENCE | FENCE_I => skip
  | ECALL => exec_ecall
  | EBREAK => update (set_status HitBreakpoint)
  | CSRRW | CSRRS | CSRRC | CSRRWI | CSRRSI | CSRRCI => exec_csr i op
  | MUL | MULH | MULHU | MULHSU | DIV | DIVU | REM | REMU => exec_muldiv i op
  | LR_W | SC_W | AMOSWAP_W | AMOADD_W | AMOXOR_W | AMOAND_W | AMOOR_W | AMOMIN_W
  | AMOMINU_W | AMOMAX_W | AMOMAXU_W => exec_amo i op
  | FLW | FSW => exec_flw_fsw i op
  | FADD_S | FSUB_S | FMUL_S | FDIV_S | FSQRT_S | FMADD_S | FMSUB_S | FNMADD_S
  | FNMSUB_S => exec_f_arith i op
  | FMIN_S | FMAX_S => exec_f_minmax i op
  | FCVT_W_S | FCVT_WU_S | FCVT_S_W | FCVT_S_WU => exec_f_convert i op
  | FSGNJ_S | FSGNJN_S | FSGNJX_S | FMV_W_X | FMV_X_W => exec_f_move i op
  | FEQ_S | FLT_S | FLE_S | FCLASS_S => exec_f_compare i op
  | FLD | FSD => exec_fld_fsd i op
  | FADD_D | FSUB_D | FMUL_D | FDIV_D | FSQRT_D | FMADD_D | FMSUB_D | FNMADD_D
  | FNMSUB_D => exec_d_arith i op
  | FMIN_D | FMAX_D => exec_d_minmax i op
  | FSGNJ_D | FSGNJN_D | FSGNJX_D => exec_d_move i op
  | FCVT_S_D | FCVT_D_S | FCVT_W_D | FCVT_WU_D | FCVT_D_W | FCVT_D_WU => exec_d_convert i op
  | FEQ_D | FLT_D | FLE_D | FCLASS_D => exec_d_compare i op
  | WFI => exec_wfi
  | SFENCE_VMA => exec_sfence_vma
  | URET | SRET | MRET => exec_xret op
  | LWU | LD | SD | ADDIW | SLLIW | SRLIW | SRAIW | ADDW | SUBW | SLLW | SRLW | SRAW
  | MULW | DIVW | DIVUW | REMW | REMUW | LR_D | SC_D | AMOSWAP_D | AMOADD_D | AMOXOR_D
  | AMOAND_D | AMOOR_D | AMOMIN_D | AMOMAX_D | AMOMINU_D | AMOMAXU_D | FCVT_L_S
  | FCVT_LU_S | FCVT_S_L | FCVT_S_LU | FCVT_L_D | FCVT_LU_D | FMV_X_D | FCVT_D_L
  | FCVT_D_LU | FMV_D_X => RAISE_ILLEGAL_INSTRUCTION
  end.

Definition exec_step : R unit :=
  fetch ;;
  decode ;;
  i ← read instr; op ← read op;
  exec_op i op.

(** ** run_step and run *)

Definition take_trap (e : SimulationTrap) : R unit :=
  target_mode ← prepare_trap e;
  switch_to_trap_handler target_mode.

Definition take_interrupt : R unit :=
  x ← compute_pending_interrupts;
  when (negb (target_mode x =? NoneMode))
    (prepare_interrupt x ;; switch_to_trap_handler (target_mode x)).

Definition run_step : R unit :=
  x0 ← reg x_zero;
  assert (x0 =? 0) ;;
  debug_mode ← read debug_mode; breakpoints ← read breakpoints; pc ← read pc;
  if debug_mode && bool_decide (pc ∈ breakpoints) then update (set_status HitBreakpoint)
  else
    update (set_last_pc pc) ;;
    try_catch (exec_step ;; take_interrupt) take_trap ;;
    set_reg x_zero 0 ;;
    shall_exit ← read shall_exit;
    when shall_exit (update (set_status Terminated)) ;;
    op ← read op;
    performance_and_sync_update op.

(** The loop of [run] need not end: [fuel] bounds its iterations, and the result
    tells whether the loop ended. *)
Fixpoint run_loop (fuel : nat) : R bool :=
  match fuel with
  | O => mret false
  | S fuel =>
      run_step ;;
      status ← read status;
      if bool_decide (status = Runnable) then run_loop fuel else mret true
  end.

Definition run (fuel : nat) : R bool :=
  ended ← run_loop fuel;
  when ended quantum_keeper_sync ;;
  mret ended.

End exec.
