(* ===== verification/IssLogic.v ===== *)
(** * A program logic for the operations of a core

    An [invariant] is a condition on the core and one on its environment, with
    the traps that may be thrown and the failures that may happen.  [safe m Q]
    says that [m] keeps the invariant, returns values in [Q] and throws and fails
    only as the invariant allows; its rules decompose a computation.  The 32-bit
    and the 64-bit core are instances. *)

From S2P Require Import Prelude Instr Trap Csr Fp Iss.

Class invariant (W : Type) : Type := {
  inv_core : ISS -> Prop;
  inv_env : W -> Prop;
  inv_trap : SimulationTrap -> Prop;
  inv_fails : failure -> ISS -> Prop;
  (** What other parts of the platform do to a core: its interrupt lines. *)
  inv_change : ISS -> ISS -> Prop;
  inv_change_core c c' : inv_change c c' -> inv_core c -> inv_core c';
  inv_change_flags c c' :
    inv_change c c' -> softfloat_exceptionFlags c' = softfloat_exceptionFlags c
}.

(** ** Calls of the environment *)

(** A computation of the environment that does not change the core. *)
Definition op_spec {W A} (core_inv : ISS -> Prop) (trap_inv : SimulationTrap -> Prop)
    (env_ok : W -> Prop) (env_fails : failure -> Prop)
    (m : M (machine W) SimulationTrap A) (Q : A -> Prop) : Prop :=
  forall s, core_inv (core s) -> env_ok (env s) ->
    match m s with
    | (Ret a, s') => Q a /\ core s' = core s /\ env_ok (env s')
    | (Throw e, s') => trap_inv e /\ core s' = core s /\ env_ok (env s')
    | (Fatal f, s') => env_fails f
    end.

(** A memory access: a device may change an interrupt line in answer to it, and
    other parts of the platform may run before it. *)
Definition access_spec {W A} (core_inv : ISS -> Prop) (trap_inv : SimulationTrap -> Prop)
    (change : ISS -> ISS -> Prop) (env_ok : W -> Prop) (env_fails : failure -> Prop)
    (m : M (machine W) SimulationTrap A) (Q : A -> Prop) : Prop :=
  forall s, core_inv (core s) -> env_ok (env s) ->
    match m s with
    | (Ret a, s') => Q a /\ change (core s) (core s') /\ env_ok (env s')
    | (Throw e, s') => trap_inv e /\ change (core s) (core s') /\ env_ok (env s')
    | (Fatal f, s') => env_fails f
    end.

(** A computation during which other parts of the platform run. *)
Definition wait_spec {W} (core_inv : ISS -> Prop) (change : ISS -> ISS -> Prop)
    (env_ok : W -> Prop) (env_fails : failure -> Prop)
    (m : M (machine W) SimulationTrap unit) : Prop :=
  forall s, core_inv (core s) -> env_ok (env s) ->
    match m s with
    | (Ret _, s') => env_ok (env s') /\ change (core s) (core s')
    | (Throw e, s') => False
    | (Fatal f, s') => env_fails f
    end.

(** The emulator of system calls may change the core. *)
Definition syscall_spec {W} (core_inv : ISS -> Prop) (trap_inv : SimulationTrap -> Prop)
    (env_ok : W -> Prop) (env_fails : failure -> Prop)
    (m : M (machine W) SimulationTrap unit) : Prop :=
  forall s, core_inv (core s) -> env_ok (env s) ->
    match m s with
    | (Ret _, s') =>
        core_inv (core s') /\ env_ok (env s') /\
        softfloat_exceptionFlags (core s') = softfloat_exceptionFlags (core s)
    | (Throw e, s') =>
        trap_inv e /\ core_inv (core s') /\ env_ok (env s') /\
        softfloat_exceptionFlags (core s') = softfloat_exceptionFlags (core s)
    | (Fatal f, s') => env_fails f
    end.

(** ** Safe computations *)

Section safe.
Context {W : Type} `{invariant W}.

Abbreviation R := (M (machine W) SimulationTrap).

(** The invariant of a machine, with a condition on the exception flags of the
    SoftFloat library. *)
Definition Inv (Fl : Z -> Prop) (s : machine W) : Prop :=
  inv_core (core s) /\ inv_env (env s) /\ Fl (softfloat_exceptionFlags (core s)).

Definition fails (f : failure) (s : machine W) : Prop := inv_fails f (core s).

Definition safe (Fl : Z -> Prop) {A} (m : R A) (Q : A -> Prop) : Prop :=
  triple (Inv Fl) m (fun a s => Q a /\ Inv Fl s) (fun e s => inv_trap e /\ Inv Fl s) fails.

Section rules.
Variable Fl : Z -> Prop.

Lemma safe_ret {A} (a : A) (Q : A -> Prop) : Q a -> safe Fl (mret a) Q.
Proof. by intros HQ s Hs. Qed.

Lemma safe_skip : safe Fl skip (fun _ => True).
Proof. by apply safe_ret. Qed.

Lemma safe_bind {A B} (m : R A) (k : A -> R B) (Q : A -> Prop) (Q' : B -> Prop) :
  safe Fl m Q -> (forall a, Q a -> safe Fl (k a) Q') -> safe Fl (m ≫= k) Q'.
Proof.
  intros Hm Hk. eapply triple_bind; [apply Hm |]. intros a s [HQ Hs]. by apply (Hk a HQ).
Qed.

Lemma safe_conseq {A} (m : R A) (Q Q' : A -> Prop) :
  safe Fl m Q -> (forall a, Q a -> Q' a) -> safe Fl m Q'.
Proof. intros Hm HQ. eapply triple_conseq; [apply Hm | auto..]. intros a s []. auto. Qed.

Lemma safe_true {A} (m : R A) (Q : A -> Prop) : safe Fl m Q -> safe Fl m (fun _ => True).
Proof. intros. by eapply safe_conseq. Qed.

Lemma safe_read {A} (f : ISS -> A) (Q : A -> Prop) :
  (forall s, inv_core s -> Q (f s)) -> safe Fl (read f) Q.
Proof. intros HQ s Hs. split; [apply HQ, Hs | done]. Qed.

Lemma safe_read_any {A} (f : ISS -> A) : safe Fl (read f) (fun _ => True).
Proof. by apply safe_read. Qed.

Lemma safe_update (g : ISS -> ISS) :
  (forall s, inv_core s -> inv_core (g s)) ->
  (forall s, softfloat_exceptionFlags (g s) = softfloat_exceptionFlags s) ->
  safe Fl (update g) (fun _ => True).
Proof.
  intros Hg Hf s (Hc & He & Hfl). split; [done |]. unfold Inv. simpl. rewrite Hf. auto.
Qed.

Lemma safe_when (b : bool) (m : R unit) :
  (b = true -> safe Fl m (fun _ => True)) -> safe Fl (when b m) (fun _ => True).
Proof. destruct b; [auto |]. intros _. apply safe_skip. Qed.

Lemma safe_throw {A} (e : SimulationTrap) (Q : A -> Prop) : inv_trap e -> safe Fl (throw e) Q.
Proof. intros ? s Hs. by split. Qed.

Lemma safe_assert (b : bool) : b = true -> safe Fl (assert b) (fun _ => True).
Proof. intros ->. apply safe_skip. Qed.

Lemma safe_try_catch {A} (m : R A) (h : SimulationTrap -> R A) (Q : A -> Prop) :
  safe Fl m Q -> (forall e, inv_trap e -> safe Fl (h e) Q) -> safe Fl (try_catch m h) Q.
Proof.
  intros Hm Hh. eapply triple_try_catch; [apply Hm |]. intros e s [He Hs]. by apply (Hh e He).
Qed.

(** A computation that starts by reading the state can be verified at each
    state separately. *)
Lemma safe_read_at {A B} (f : ISS -> A) (k : A -> R B) (Q : B -> Prop) :
  (forall a, triple (fun s => Inv Fl s /\ f (core s) = a) (k a)
     (fun b s => Q b /\ Inv Fl s) (fun e s => inv_trap e /\ Inv Fl s) fails) ->
  safe Fl (read f ≫= k) Q.
Proof. intros Hk s Hs. exact (Hk (f (core s)) s (conj Hs eq_refl)). Qed.

Lemma safe_strengthen {A} (P : machine W -> Prop) (m : R A) (Q : A -> Prop) :
  safe Fl m Q ->
  triple (fun s => Inv Fl s /\ P s) m
    (fun a s => Q a /\ Inv Fl s) (fun e s => inv_trap e /\ Inv Fl s) fails.
Proof. intros Hm s [Hs _]. exact (Hm s Hs). Qed.

Lemma safe_ext {A} (m m' : R A) Q : (forall s, m s = m' s) -> safe Fl m Q -> safe Fl m' Q.
Proof. intros Hm Hs s HI. rewrite <- Hm. by apply Hs. Qed.

(** ** Calls of the environment *)

Context (env_fails : failure -> Prop) (Hfails : forall f c, env_fails f -> inv_fails f c).

Lemma safe_op {A} (m : R A) (Q : A -> Prop) :
  op_spec inv_core inv_trap inv_env env_fails m Q -> safe Fl m Q.
Proof using Hfails.
  intros Hm s (Hc & He & Hfl). specialize (Hm s Hc He).
  destruct (m s) as [[a|e|f] s']; [| | by apply Hfails];
    destruct Hm as (? & Hcore & ?); unfold Inv; by rewrite Hcore.
Qed.

Lemma safe_access_spec {A} (m : R A) (Q : A -> Prop) :
  access_spec inv_core inv_trap inv_change inv_env env_fails m Q -> safe Fl m Q.
Proof using Hfails.
  intros Hm s (Hc & He & Hfl). specialize (Hm s Hc He).
  destruct (m s) as [[a|e|f] s']; [| | by apply Hfails]; destruct Hm as (? & Hcore & ?); (split; [done |]);
    (split; [by eapply inv_change_core |]); split; [done | | done |]; by rewrite (inv_change_flags _ _ Hcore).
Qed.

Lemma safe_wait_spec (m : R unit) :
  wait_spec inv_core inv_change inv_env env_fails m -> safe Fl m (fun _ => True).
Proof using Hfails.
  intros Hm s (Hc & He & Hfl). specialize (Hm s Hc He).
  destruct (m s) as [[a|e|f] s']; [| done | by apply Hfails].
  destruct Hm as [? Hcore]. split; [done |]. split; [by eapply inv_change_core |].
  split; [done |]. by rewrite (inv_change_flags _ _ Hcore).
Qed.

Lemma safe_syscall_spec (m : R unit) :
  syscall_spec inv_core inv_trap inv_env env_fails m -> safe Fl m (fun _ => True).
Proof using Hfails.
  intros Hm s (Hc & He & Hfl). specialize (Hm s Hc He).
  destruct (m s) as [[a|e|f] s']; [| | by apply Hfails]; unfold Inv.
  - destruct Hm as (? & ? & ->). done.
  - destruct Hm as (? & ? & ? & ->). done.
Qed.
End rules.

(** ** Computations that neither throw nor fail

    Between the call of the library and the end of an instruction exception
    flags may be set. *)

Definition calm {A} (m : R A) (Q : A -> Prop) : Prop :=
  triple (Inv (fun _ => True)) m (fun a s => Q a /\ Inv (fun _ => True) s)
    (fun _ _ => False) (fun _ _ => False).

Lemma calm_ret {A} (a : A) (Q : A -> Prop) : Q a -> calm (mret a) Q.
Proof. by intros HQ s Hs. Qed.

Lemma calm_bind {A B} (m : R A) (k : A -> R B) Q Q' :
  calm m Q -> (forall a, Q a -> calm (k a) Q') -> calm (m ≫= k) Q'.
Proof.
  intros Hm Hk. eapply triple_bind; [apply Hm |]. intros a s [HQ Hs]. by apply (Hk a HQ).
Qed.

Lemma calm_of_safe {A} (m : R A) (Q : A -> Prop) :
  safe (fun _ => True) m Q -> (forall s, exists a s', m s = (Ret a, s')) -> calm m Q.
Proof.
  intros Hm Hret s Hs. specialize (Hm s Hs). destruct (Hret s) as (a & s' & E).
  by rewrite E in *.
Qed.

Lemma calm_read {A} (f : ISS -> A) (Q : A -> Prop) :
  safe (fun _ => True) (read f) Q -> calm (read f) Q.
Proof. intros. apply calm_of_safe; [done |]. eauto. Qed.
Lemma calm_update (g : ISS -> ISS) :
  safe (fun _ => True) (update g) (fun _ => True) -> calm (update g) (fun _ => True).
Proof. intros. apply calm_of_safe; [done |]. eauto. Qed.

(** ** The general purpose registers *)

Definition keeps_regs {A} (m : R A) : Prop :=
  forall s, regs (core (snd (m s))) = regs (core s).

Lemma keeps_regs_bind {A B} (m : R A) (k : A -> R B) :
  keeps_regs m -> (forall a, keeps_regs (k a)) -> keeps_regs (m ≫= k).
Proof.
  intros Hm Hk s. specialize (Hm s). unfold mbind, M_bind.
  destruct (m s) as [[a|e|f] s']; simpl in *; [| done | done]. by rewrite (Hk a s').
Qed.

Lemma keeps_regs_when b (m : R unit) : keeps_regs m -> keeps_regs (when b m).
Proof. by destruct b. Qed.

Lemma keeps_regs_assert b : keeps_regs (assert b).
Proof. by destruct b. Qed.
End safe.

Lemma bind_assoc {W A B C} (m : M (machine W) SimulationTrap A)
    (k : A -> M (machine W) SimulationTrap B) (l : B -> M (machine W) SimulationTrap C) s :
  ((m ≫= k) ≫= l) s = (m ≫= (fun a => k a ≫= l)) s.
Proof. unfold mbind, M_bind. by destruct (m s) as [[] ?]. Qed.

Lemma nothrow_read {W A} (f : ISS -> A) : nothrow (read (W := W) f).
Proof. apply nothrow_gets. Qed.
Lemma nothrow_update {W} (f : ISS -> ISS) : nothrow (update (W := W) f).
Proof. apply nothrow_modify. Qed.

Create HintDb vp_safe.
#[export] Hint Resolve safe_skip : vp_safe.

(** Decompose a computation; the side conditions and the calls that have no
    lemma in [vp_safe] are left.  [ftac] proves that a field of a CSR can be
    read or written. *)
Ltac safe_step_with ftac :=
  lazymatch goal with
  | |- safe _ (mbind _ _) _ =>
      eapply safe_bind;
      [ try solve [repeat safe_step_with ftac]
      | let a := fresh "a" in let Ha := fresh "Ha" in intros a Ha; cbv beta in Ha;
        lazymatch type of Ha with _ /\ _ => destruct Ha | True => clear Ha | _ => idtac end ]
  | |- safe _ (when _ _) _ => apply safe_when; intros ?
  | |- safe _ (if ?b then _ else _) _ => destruct b eqn:?
  | |- safe _ (let _ := _ in _) _ => cbv zeta
  | |- safe _ (csr_field _ _) _ => ftac
  | |- safe _ (set_csr_field _ _ _) _ => ftac
  | |- safe _ (mret _) _ => apply safe_ret
  | |- safe _ (read _) _ => first [solve [eauto with vp_safe nocore] | apply safe_read_any]
  | |- safe _ _ _ => solve [eauto with vp_safe nocore]
  end.

(** Close a goal about [skip], without unfolding any other computation. *)
Ltac try_skip :=
  lazymatch goal with |- safe _ skip _ => apply safe_skip | |- _ => idtac end.
