(* ===== verification/CoreInv.v ===== *)
(** * The invariant of a core

    The type and well-formedness invariant of struct ISS, the contract of the
    environment of a core, and the rules of IssLogic.v for the elementary steps
    of its operations.  The width of the integer registers and the values of
    [misa] are parameters: the 32-bit and the 64-bit core are the instances. *)

From S2P Require Import Prelude Instr Decode Compressed Trap Csr Fp Iss IssLogic.

(** ** The invariant *)

Definition even (v : Z) : Prop := Z.testbit v 0 = false.

(** The performance counters have 64 bits in both cores. *)
Definition csr_width (xlen : Z) (r : csrs.reg) : Z := if csrs.is_64 r then 64 else xlen.

(** The modes of address translation that a 64-bit core implements: none, Sv39
    and Sv48. *)
Definition satp_ok (xlen v : Z) : Prop :=
  xlen = 64 -> v .>> 60 = 0 \/ v .>> 60 = 8 \/ v .>> 60 = 9.

(** What the code does in the reserved privilege level 2: an assertion fails, or
    a runtime error ends the simulation. *)
Definition reserved_mode_fails (f : failure) (c : ISS) : Prop :=
  prv c = HypervisorMode /\ (f = AssertFailed \/ f = RuntimeError).

(** The parameters of a core, and how its own code may fail: every core has
    compressed instructions, user mode and supervisor mode, and fails in the
    reserved privilege level. *)
Class core_type (xlen : Z) (misa_inv : Z -> Prop) : Type := {
  core_fails : failure -> ISS -> Prop;
  core_fails_reserved f c : reserved_mode_fails f c -> core_fails f c;
  xlen_range : 32 <= xlen <= 64;
  misa_C v : misa_inv v -> has_C_extension v = true;
  misa_U v : misa_inv v -> has_user_mode_extension v = true;
  misa_S v : misa_inv v -> has_supervisor_mode_extension v = true
}.

Section invariant.
Context (xlen : Z) (misa_inv : Z -> Prop).

Definition csr_inv (r : csrs.reg) (v : Z) : Prop :=
  is_uint (csr_width xlen r) v /\
  match r with
  | csrs.misa => misa_inv v
  | csrs.mepc | csrs.sepc | csrs.uepc => even v
  | csrs.mie => Z.ldiff v MIE_MASK = 0
  | csrs.satp => satp_ok xlen v
  | _ => True
  end.

Definition csrs_inv (t : csr_table) : Prop := forall r, csr_inv r (csr_get t r).

Record core_inv (s : ISS) : Prop := {
  ok_regs_length : length (regs s) = NUM_REGS;
  ok_regs : Forall (is_sint xlen) (regs s);
  ok_fp_length : length (fp_regs s) = 32%nat;
  ok_fp : Forall (is_uint 64) (fp_regs s);
  ok_pc : is_uint xlen (pc s) /\ even (pc s);
  ok_last_pc : is_uint xlen (last_pc s) /\ even (last_pc s);
  ok_csrs : csrs_inv (csr_regs s);
  ok_prv : 0 <= prv s <= 3;
  ok_lr_sc : 0 <= lr_sc_counter s <= 17;
  ok_instr : is_sint 32 (instr s);
  ok_cycle : 0 <= cycle_counter s /\ cycle_counter s mod cycle_time = 0;
  ok_flags : is_uint 5 (softfloat_exceptionFlags s)
}.

Definition trap_inv (e : SimulationTrap) : Prop :=
  0 <= reason e <= 15 /\ is_uint xlen (mtval e).

(** All that other parts of the platform do to a core is raise and clear its
    interrupt lines. *)
Definition line_change (c c' : ISS) : Prop :=
  c' = c \/
  exists v, is_uint xlen v /\ c' = set_csr_regs (csr_set csrs.mip v (csr_regs c)) c.

(** ** The contract of the environment *)

Definition core_op {W A} (env_ok : W -> Prop) (env_fails : failure -> Prop) :=
  op_spec (A := A) core_inv trap_inv env_ok env_fails.
Definition core_access {W A} (env_ok : W -> Prop) (env_fails : failure -> Prop) :=
  access_spec (A := A) core_inv trap_inv line_change env_ok env_fails.
Definition core_wait {W} (env_ok : W -> Prop) (env_fails : failure -> Prop) :=
  wait_spec core_inv line_change env_ok env_fails.

Class environment_ok (W : Type) `{platform W} : Type := {
  env_ok : W -> Prop;
  env_fails : failure -> Prop;
  load_instr_ok a : is_uint xlen a -> core_access env_ok env_fails (load_instr a) (is_uint 32);
  load_double_ok a : is_uint xlen a -> core_access env_ok env_fails (load_double a) (is_sint 64);
  load_word_ok a : is_uint xlen a -> core_access env_ok env_fails (load_word a) (is_sint xlen);
  load_half_ok a : is_uint xlen a -> core_access env_ok env_fails (load_half a) (is_sint xlen);
  load_byte_ok a : is_uint xlen a -> core_access env_ok env_fails (load_byte a) (is_sint xlen);
  load_uhalf_ok a : is_uint xlen a -> core_access env_ok env_fails (load_uhalf a) (is_uint xlen);
  load_ubyte_ok a : is_uint xlen a -> core_access env_ok env_fails (load_ubyte a) (is_uint xlen);
  store_double_ok a v : is_uint xlen a -> is_uint 64 v ->
    core_access env_ok env_fails (store_double a v) (fun _ => True);
  store_word_ok a v : is_uint xlen a -> is_uint 32 v ->
    core_access env_ok env_fails (store_word a v) (fun _ => True);
  store_half_ok a v : is_uint xlen a -> is_uint 16 v ->
    core_access env_ok env_fails (store_half a v) (fun _ => True);
  store_byte_ok a v : is_uint xlen a -> is_uint 8 v ->
    core_access env_ok env_fails (store_byte a v) (fun _ => True);
  atomic_load_word_ok a : is_uint xlen a ->
    core_access env_ok env_fails (atomic_load_word a) (is_sint xlen);
  atomic_store_word_ok a v : is_uint xlen a -> is_uint 32 v ->
    core_access env_ok env_fails (atomic_store_word a v) (fun _ => True);
  atomic_load_reserved_word_ok a : is_uint xlen a ->
    core_access env_ok env_fails (atomic_load_reserved_word a) (is_sint xlen);
  atomic_store_conditional_word_ok a v : is_uint xlen a -> is_uint 32 v ->
    core_access env_ok env_fails (atomic_store_conditional_word a v) (fun _ => True);
  atomic_unlock_ok : core_op env_ok env_fails atomic_unlock (fun _ => True);
  atomic_unlock_nothrow : nothrow atomic_unlock;
  flush_tlb_ok : core_op env_ok env_fails flush_tlb (fun _ => True);
  update_and_get_mtime_ok : core_op env_ok env_fails update_and_get_mtime (is_uint 64);
  notify_wfi_event_ok : core_op env_ok env_fails notify_wfi_event (fun _ => True);
  quantum_keeper_inc_ok t : core_op env_ok env_fails (quantum_keeper_inc t) (fun _ => True);
  quantum_keeper_need_sync_ok :
    core_op env_ok env_fails quantum_keeper_need_sync (fun _ => True);
  update_and_get_mtime_core s : core (snd (update_and_get_mtime s)) = core s;
  quantum_keeper_inc_nothrow t : nothrow (quantum_keeper_inc t);
  quantum_keeper_need_sync_nothrow : nothrow quantum_keeper_need_sync;
  quantum_keeper_sync_nothrow : nothrow quantum_keeper_sync;
  atomic_unlock_regs s : regs (core (snd (atomic_unlock s))) = regs (core s);
  quantum_keeper_inc_regs t s : regs (core (snd (quantum_keeper_inc t s))) = regs (core s);
  quantum_keeper_need_sync_regs s :
    regs (core (snd (quantum_keeper_need_sync s))) = regs (core s);
  quantum_keeper_sync_regs s : regs (core (snd (quantum_keeper_sync s))) = regs (core s);
  wait_wfi_event_ok : core_wait env_ok env_fails wait_wfi_event;
  quantum_keeper_sync_ok : core_wait env_ok env_fails quantum_keeper_sync;
  execute_syscall_ok m :
    execute_syscall = Some m -> syscall_spec core_inv trap_inv env_ok env_fails m
}.
End invariant.

Arguments env_ok {xlen misa_inv W _ _} _.
Arguments env_fails {xlen misa_inv W _ _} _.
Arguments ok_regs_length {xlen misa_inv s} _.
Arguments ok_regs {xlen misa_inv s} _.
Arguments ok_fp_length {xlen misa_inv s} _.
Arguments ok_fp {xlen misa_inv s} _.
Arguments ok_pc {xlen misa_inv s} _.
Arguments ok_last_pc {xlen misa_inv s} _.
Arguments ok_csrs {xlen misa_inv s} _ _.
Arguments ok_prv {xlen misa_inv s} _.
Arguments ok_lr_sc {xlen misa_inv s} _.
Arguments ok_instr {xlen misa_inv s} _.
Arguments ok_cycle {xlen misa_inv s} _.
Arguments ok_flags {xlen misa_inv s} _.

(** ** Values of the invariant *)

Lemma even_land_mask (v m : Z) : even m -> even (v .& m).
Proof. unfold even. rewrite Z.land_spec. intros ->. apply andb_false_r. Qed.

Lemma even_spec (v : Z) : even v <-> v .& 1 = 0.
Proof.
  unfold even. rewrite Z.bit0_odd, Zodd_mod. change 1 with (Z.ones 1).
  rewrite Z.land_ones by lia. change (2 ^ 1) with 2. change (Z.ones 1) with 1.
  pose proof (Z.mod_pos_bound v 2 ltac:(lia)).
  destruct (Z.eqb_spec (v mod 2) 1); split; intros; try done; lia.
Qed.

Lemma masked_even v x m m' : even v -> even m -> even ((v .& m') .| (x .& m)).
Proof.
  unfold even. intros Hv Hm. rewrite Z.lor_spec, !Z.land_spec, Hv, Hm. by rewrite andb_false_r.
Qed.

Lemma masked_subset v x m m' M :
  Z.ldiff v M = 0 -> Z.ldiff m M = 0 -> Z.ldiff ((v .& m') .| (x .& m)) M = 0.
Proof.
  intros Hv Hm. apply Z.bits_inj'. intros k ?.
  assert (Hv' := f_equal (fun z => Z.testbit z k) Hv).
  assert (Hm' := f_equal (fun z => Z.testbit z k) Hm). simpl in Hv', Hm'.
  rewrite Z.ldiff_spec, Z.testbit_0_l in *. rewrite Z.lor_spec, !Z.land_spec.
  destruct (Z.testbit v k), (Z.testbit m k), (Z.testbit M k), (Z.testbit x k), (Z.testbit m' k);
    done.
Qed.

Lemma masked_write_range w v m x :
  0 < w -> is_uint w v -> is_uint w m ->
  is_uint w ((v .& uint w (Z.lnot m)) .| (x .& m)).
Proof.
  intros. apply is_uint_lor; [lia | by apply is_uint_land_l; [lia |] |].
  by apply is_uint_land_r; [lia |].
Qed.

Lemma fp_get_range (r : FpRegs) (i : Z) : Forall (is_uint 64) r -> is_uint 64 (fp_get r i).
Proof.
  intros H. unfold fp_get. destruct (r !! Z.to_nat i) eqn:E; simpl.
  - by eapply Forall_lookup_1.
  - by apply is_uint_literal.
Qed.

(** The registers whose value is restricted beyond its width. *)
Definition special_csr (r : csrs.reg) : bool :=
  match r with
  | csrs.misa | csrs.mepc | csrs.sepc | csrs.uepc | csrs.mie | csrs.satp => true
  | _ => false
  end.

(** The masks that keep the value of a register within its restriction. *)
Definition csr_mask_ok (xlen : Z) (r : csrs.reg) (mask : Z) : Prop :=
  match r with
  | csrs.misa => False
  | csrs.mepc | csrs.sepc | csrs.uepc => even mask
  | csrs.mie => Z.ldiff mask MIE_MASK = 0
  | csrs.satp => xlen <> 64
  | _ => True
  end.

Section values.
Context {xlen : Z} {misa_inv : Z -> Prop}.

Abbreviation core_ok := (core_inv xlen misa_inv).
Abbreviation csrs_ok := (csrs_inv xlen misa_inv).

Lemma regs_get_range (r : list Z) (i : Z) :
  0 < xlen -> Forall (is_sint xlen) r -> is_sint xlen (regs_get r i).
Proof.
  intros Hx H. unfold regs_get. destruct (r !! Z.to_nat i) eqn:E; simpl.
  - by eapply Forall_lookup_1.
  - unfold is_sint. pose proof (Z.pow_pos_nonneg 2 (xlen - 1)). lia.
Qed.

(** ** Updates of the core *)

Ltac core_ok_tac := intros []; constructor; simpl; auto.

Lemma core_ok_set_reg i v s :
  is_sint xlen v -> core_ok s -> core_ok (set_regs (regs_set i v (regs s)) s).
Proof.
  intros Hv. core_ok_tac; unfold regs_set.
  - by rewrite length_insert.
  - by apply Forall_insert.
Qed.

Lemma core_ok_set_fp i v s :
  is_uint 64 v -> core_ok s -> core_ok (set_fp_regs (fp_write_f64 i v (fp_regs s)) s).
Proof.
  intros Hv. core_ok_tac; unfold fp_write_f64.
  - by etransitivity; [apply length_insert |].
  - by apply Forall_insert.
Qed.

Lemma core_ok_set_csrs t s : csrs_ok t -> core_ok s -> core_ok (set_csr_regs t s).
Proof. intros Ht. core_ok_tac. Qed.
Lemma core_ok_set_pc v s : is_uint xlen v -> even v -> core_ok s -> core_ok (set_pc v s).
Proof. intros ??. core_ok_tac. Qed.
Lemma core_ok_set_last_pc v s :
  is_uint xlen v -> even v -> core_ok s -> core_ok (set_last_pc v s).
Proof. intros ??. core_ok_tac. Qed.
Lemma core_ok_set_prv v s : 0 <= v <= 3 -> core_ok s -> core_ok (set_prv v s).
Proof. intros ?. core_ok_tac. Qed.
Lemma core_ok_set_instr v s : is_sint 32 v -> core_ok s -> core_ok (set_instr v s).
Proof. intros ?. core_ok_tac. Qed.
Lemma core_ok_set_op v s : core_ok s -> core_ok (set_op v s).
Proof. core_ok_tac. Qed.
Lemma core_ok_set_status v s : core_ok s -> core_ok (set_status v s).
Proof. core_ok_tac. Qed.
Lemma core_ok_set_shall_exit v s : core_ok s -> core_ok (set_shall_exit v s).
Proof. core_ok_tac. Qed.
Lemma core_ok_set_counter v s :
  0 <= v <= 17 -> core_ok s -> core_ok (set_lr_sc_counter v s).
Proof. intros ?. core_ok_tac. Qed.
Lemma core_ok_set_total v s : core_ok s -> core_ok (set_total_num_instr v s).
Proof. core_ok_tac. Qed.
Lemma core_ok_set_rm v s : core_ok s -> core_ok (set_softfloat_roundingMode v s).
Proof. core_ok_tac. Qed.
Lemma core_ok_set_flags v s :
  is_uint 5 v -> core_ok s -> core_ok (set_softfloat_exceptionFlags v s).
Proof. intros ?. core_ok_tac. Qed.
Lemma core_ok_add_cycles c s :
  0 <= c -> c mod cycle_time = 0 -> core_ok s ->
  core_ok (set_cycle_counter (cycle_counter s + c) s).
Proof.
  intros ? Hc. core_ok_tac. destruct ok_cycle0 as [? Hm]. split; [lia |].
  by rewrite Z.add_mod, Hm, Hc.
Qed.

(** ** Updates of the CSRs *)

Lemma csrs_ok_set r v t : csr_inv xlen misa_inv r v -> csrs_ok t -> csrs_ok (csr_set r v t).
Proof. intros Hv Ht r'. rewrite csr_get_set. by destruct (decide (r = r')) as [<-|]. Qed.

Lemma csr_value_ok_plain r v :
  special_csr r = false -> is_uint (csr_width xlen r) v -> csr_inv xlen misa_inv r v.
Proof. intros Hs Hv. split; [done |]. by destruct r. Qed.

Lemma set_bits_ok r f x t :
  special_csr r = false -> bf_wf f -> bf_lo f + bf_width f <= csr_width xlen r ->
  csrs_ok t -> csrs_ok (set_bits r f x t).
Proof.
  intros ??? Ht. unfold set_bits. apply csrs_ok_set; [| done].
  apply csr_value_ok_plain; [done |]. apply is_uint_set_field; [done | done | apply Ht].
Qed.

(** A masked write, as set_csr_value does it. *)
Lemma masked_csr_ok w r mask v t :
  csr_width xlen r = w -> 0 < w -> is_uint w mask -> csr_mask_ok xlen r mask -> csrs_ok t ->
  csrs_ok (csr_set r ((csr_get t r .& uint w (Z.lnot mask)) .| (v .& mask)) t).
Proof.
  intros Hr Hpos Hmask Hm Ht. apply csrs_ok_set; [| done]. pose proof (Ht r) as [Hw He].
  split; [rewrite Hr in *; by apply masked_write_range |].
  destruct r; try done; first [by apply masked_even | by apply masked_subset | by intros ?].
Qed.

Lemma csrs_ok_mip v t : is_uint xlen v -> csrs_ok t -> csrs_ok (csr_set csrs.mip v t).
Proof. intros. apply csrs_ok_set; [by apply csr_value_ok_plain | done]. Qed.

Lemma mip_change_ok c c' : line_change xlen c c' -> core_ok c -> core_ok c'.
Proof.
  intros [->|(v & Hv & ->)] Hc; [done |]. apply core_ok_set_csrs; [| done].
  apply csrs_ok_mip; [done | apply Hc].
Qed.

Lemma mip_change_flags c c' :
  line_change xlen c c' -> softfloat_exceptionFlags c' = softfloat_exceptionFlags c.
Proof. by intros [->|(v & _ & ->)]. Qed.

End values.

(** ** Safe computations *)

#[export] Instance core_invariant xlen misa_inv W `{core_type xlen misa_inv}
    `{environment_ok xlen misa_inv W} : invariant W := {
  inv_core := core_inv xlen misa_inv;
  inv_env := env_ok;
  inv_trap := trap_inv xlen;
  inv_fails f c := env_fails f \/ core_fails f c;
  inv_change := line_change xlen;
  inv_change_core := mip_change_ok;
  inv_change_flags := mip_change_flags
}.

Section rules.
Context {xlen : Z} {misa_inv : Z -> Prop} {W : Type}
  `{Htype : core_type xlen misa_inv} `{Henv : environment_ok xlen misa_inv W}.
Variable Fl : Z -> Prop.

Abbreviation R := (M (machine W) SimulationTrap).
Abbreviation any := (fun _ => True).
Abbreviation csr_ok := (csr_inv xlen misa_inv).
Abbreviation csrs_ok := (csrs_inv xlen misa_inv).

Lemma safe_raise {A} (c v : Z) (Q : A -> Prop) :
  0 <= c <= 15 -> is_uint xlen v -> safe Fl (raise_trap c v : R A) Q.
Proof. intros. by apply safe_throw. Qed.

Lemma env_fails_ok (f : failure) (c : ISS) : env_fails f -> inv_fails f c.
Proof. by left. Qed.

Lemma safe_env {A} (m : R A) (Q : A -> Prop) :
  core_op xlen misa_inv env_ok env_fails m Q -> safe Fl m Q.
Proof. exact (safe_op Fl env_fails env_fails_ok m Q). Qed.
Lemma safe_access {A} (m : R A) (Q : A -> Prop) :
  core_access xlen misa_inv env_ok env_fails m Q -> safe Fl m Q.
Proof. exact (safe_access_spec Fl env_fails env_fails_ok m Q). Qed.
Lemma safe_wait (m : R unit) : core_wait xlen misa_inv env_ok env_fails m -> safe Fl m any.
Proof. exact (safe_wait_spec Fl env_fails env_fails_ok m). Qed.
Lemma safe_syscall m : execute_syscall = Some m -> safe Fl m any.
Proof.
  intros Hm. apply (safe_syscall_spec Fl env_fails env_fails_ok m).
  exact (execute_syscall_ok _ _ m Hm).
Qed.

(** ** Elementary steps *)

Lemma safe_reg i : safe Fl (reg i) (is_sint xlen).
Proof.
  apply safe_read. intros s Hs. pose proof xlen_range. apply regs_get_range; [lia | apply Hs].
Qed.

Lemma safe_set_reg i v : is_sint xlen v -> safe Fl (set_reg i v) any.
Proof. intros. apply safe_update; [| done]. intros. by apply core_ok_set_reg. Qed.

Lemma safe_csr_reg r : safe Fl (csr_reg r) (csr_ok r).
Proof. apply safe_read. intros s Hs. apply Hs. Qed.

Lemma safe_csr_field r f : bf_wf f -> safe Fl (csr_field r f) (is_uint (bf_width f)).
Proof. intros. apply safe_read. intros. by apply get_field_range. Qed.

Lemma safe_update_csrs g : (forall t, csrs_ok t -> csrs_ok (g t)) -> safe Fl (update_csrs g) any.
Proof.
  intros Hg. apply safe_update; [| done]. intros s Hs. apply core_ok_set_csrs; [| done].
  apply Hg, Hs.
Qed.

Lemma safe_set_csr r v : csr_ok r v -> safe Fl (set_csr r v) any.
Proof. intros. apply safe_update_csrs. intros. by apply csrs_ok_set. Qed.

Lemma safe_set_csr_field r f x :
  special_csr r = false -> bf_wf f -> bf_lo f + bf_width f <= csr_width xlen r ->
  safe Fl (set_csr_field r f x) any.
Proof. intros. apply safe_update_csrs. intros. by apply set_bits_ok. Qed.

Lemma safe_csr_read r mask : csrs.is_64 r = false -> safe Fl (csr_read r mask) (is_uint xlen).
Proof.
  intros Hr. pose proof xlen_range. apply safe_read. intros s Hs. apply is_uint_land_l; [lia |].
  pose proof (ok_csrs Hs r) as [Hw _]. unfold csr_width in Hw. by rewrite Hr in Hw.
Qed.

Lemma safe_write_pc v : is_uint xlen v -> even v -> safe Fl (write_pc v) any.
Proof. intros. apply safe_update; [| done]. intros. by apply core_ok_set_pc. Qed.

Lemma safe_read_pc : safe Fl (read pc) (fun v => is_uint xlen v /\ even v).
Proof. apply safe_read. intros s Hs. apply Hs. Qed.

Lemma safe_read_last_pc : safe Fl (read last_pc) (fun v => is_uint xlen v /\ even v).
Proof. apply safe_read. intros s Hs. apply Hs. Qed.

Lemma safe_read_prv : safe Fl (read prv) (fun v => 0 <= v <= 3).
Proof. apply safe_read. intros s Hs. apply Hs. Qed.

Lemma safe_read_instr : safe Fl (read instr) (is_sint 32).
Proof. apply safe_read. intros s Hs. apply Hs. Qed.

Lemma safe_illegal {A} (Q : A -> Prop) : safe Fl RAISE_ILLEGAL_INSTRUCTION Q.
Proof.
  eapply safe_bind; [apply safe_read_instr |]. intros i Hi. pose proof xlen_range.
  apply safe_raise; [by compute |]. apply (is_uint_weaken 32); [lia |]. apply uint_range. lia.
Qed.

Lemma safe_set_instr v : is_sint 32 v -> safe Fl (update (set_instr v)) any.
Proof. intros. apply safe_update; [| done]. intros. by apply core_ok_set_instr. Qed.
Lemma safe_set_op v : safe Fl (update (set_op v)) any.
Proof. apply safe_update; [| done]. intros. by apply core_ok_set_op. Qed.
Lemma safe_set_status v : safe Fl (update (set_status v)) any.
Proof. apply safe_update; [| done]. intros. by apply core_ok_set_status. Qed.
Lemma safe_set_prv v : 0 <= v <= 3 -> safe Fl (update (set_prv v)) any.
Proof. intros. apply safe_update; [| done]. intros. by apply core_ok_set_prv. Qed.
Lemma safe_set_counter v : 0 <= v <= 17 -> safe Fl (update (set_lr_sc_counter v)) any.
Proof. intros. apply safe_update; [| done]. intros. by apply core_ok_set_counter. Qed.

(** The registers that hold causes and values of traps. *)
Definition plain_csr (r : csrs.reg) : Prop := special_csr r = false /\ csrs.is_64 r = false.

Lemma safe_set_plain_field r f x :
  plain_csr r -> bf_wf f -> bf_lo f + bf_width f <= xlen -> safe Fl (set_csr_field r f x) any.
Proof.
  intros [Hs Hr] ??. apply safe_set_csr_field; [done | done |]. unfold csr_width. by rewrite Hr.
Qed.

Lemma safe_set_plain r v : plain_csr r -> is_uint xlen v -> safe Fl (set_csr r v) any.
Proof.
  intros [Hs Hr] Hv. apply safe_set_csr, csr_value_ok_plain; [done |].
  unfold csr_width. by rewrite Hr.
Qed.

End rules.

#[export] Hint Resolve safe_reg safe_set_reg safe_csr_reg safe_csr_read
  safe_read_pc safe_read_last_pc safe_read_prv safe_read_instr safe_illegal
  safe_set_instr safe_set_op safe_set_status : vp_safe.

(** The fields of this development lie in the lower 32 bits of registers of at
    least 32 bits. *)
Lemma safe_set_low_field {xlen misa_inv W} `{core_type xlen misa_inv}
    `{!platform W} `{!environment_ok xlen misa_inv W} Fl r f x :
  special_csr r = false -> bf_wf f -> bf_lo f + bf_width f <= 32 ->
  safe Fl (set_csr_field r f x) (fun _ => True).
Proof.
  intros ?? Hf. apply safe_set_csr_field; [done | done |]. pose proof xlen_range.
  unfold csr_width. destruct (csrs.is_64 r); lia.
Qed.

Ltac core_field :=
  first [ apply safe_csr_field; by split
        | apply safe_set_low_field; [reflexivity | by split | done]
        | apply safe_set_csr_field; [reflexivity | by split | done] ].
Ltac safe_step := safe_step_with core_field.
Ltac safe_tac := repeat safe_step.
