(* ===== verification/CoreSafe.v ===== *)
(** * Safety of the operations both cores have

    The definitions of Iss.v and IssExec.v that the 64-bit core shares keep the
    invariant of CoreInv.v, their assertions hold, and their traps have a valid
    cause and value.  The lemmas on floating-point instructions and on a step
    take as a parameter what differs between the cores. *)

From S2P Require Import Prelude Instr Trap Csr Fp Iss IssExec IssLogic CoreInv.

Section operations.
Context {xlen : Z} {misa_inv : Z -> Prop} {W : Type}
  `{Htype : core_type xlen misa_inv} `{Henv : environment_ok xlen misa_inv W} `{softfloat}.
Variable Fl : Z -> Prop.

Abbreviation R := (M (machine W) SimulationTrap).
Abbreviation any := (fun _ => True).

Lemma safe_s_mode : safe Fl s_mode any.
Proof. unfold s_mode. by safe_tac. Qed.
Lemma safe_u_mode : safe Fl u_mode any.
Proof. unfold u_mode. by safe_tac. Qed.

Lemma safe_trap_check_pc_alignment : safe Fl trap_check_pc_alignment any.
Proof.
  unfold trap_check_pc_alignment. do 2 safe_step.
  match goal with E : even _ |- _ => apply even_spec in E as E1 end.
  safe_step; [apply safe_assert; by rewrite E1 |].
  rewrite misa_C, andb_false_r by apply Ha. apply safe_skip.
Qed.

Lemma safe_trap_check_addr_alignment al b addr :
  is_uint xlen addr -> safe Fl (trap_check_addr_alignment al b addr) any.
Proof.
  intros. unfold trap_check_addr_alignment. safe_step.
  apply safe_raise; [by destruct b | done].
Qed.

Lemma safe_release_lr_sc : safe Fl release_lr_sc_reservation any.
Proof.
  unfold release_lr_sc_reservation. safe_step.
  - by apply safe_set_counter.
  - apply safe_env, atomic_unlock_ok.
Qed.

Lemma safe_cycles : safe Fl _compute_and_get_current_cycles (is_uint 64).
Proof.
  unfold _compute_and_get_current_cycles.
  eapply safe_bind.
  - apply (safe_read _ _ (fun c => c mod cycle_time = 0)). intros s Hs. apply Hs.
  - intros c Hc. safe_step; [apply safe_assert; by rewrite Hc |].
    apply safe_ret, uint_range. lia.
Qed.

Lemma safe_notify : safe Fl notify_wfi_event any.
Proof. apply safe_env, notify_wfi_event_ok. Qed.

Lemma safe_has_local : safe Fl has_local_pending_enabled_interrupts any.
Proof. unfold has_local_pending_enabled_interrupts. by safe_tac. Qed.

Hint Resolve safe_s_mode safe_u_mode safe_trap_check_pc_alignment
  safe_trap_check_addr_alignment safe_release_lr_sc safe_notify safe_has_local : vp_safe.

(** ** Floating-point registers and modes *)

Lemma safe_fp_require_not_off : safe Fl fp_require_not_off any.
Proof. unfold fp_require_not_off. safe_tac. Qed.

Lemma safe_fp_setup_rm : safe Fl fp_setup_rm any.
Proof.
  unfold fp_setup_rm. safe_step. eapply safe_bind with (Q := any).
  - destruct (_ =? _); [eapply safe_true, safe_csr_field; by split | by apply safe_ret].
  - intros rm _. safe_step.
    apply safe_update; [| done]. intros. by apply core_ok_set_rm.
Qed.

Lemma safe_fp_reg_f32 i : safe Fl (fp_reg_f32 i) (is_uint 32).
Proof. apply safe_read. intros. apply fp_f32_range. Qed.
Lemma safe_fp_reg_u32 i : safe Fl (fp_reg_u32 i) (is_uint 32).
Proof. apply safe_read. intros. apply uint_range. lia. Qed.
Lemma safe_fp_reg_f64 i : safe Fl (fp_reg_f64 i) (is_uint 64).
Proof. apply safe_read. intros s Hs. apply fp_get_range, Hs. Qed.

Lemma safe_fp_set_f64 i v : is_uint 64 v -> safe Fl (fp_set_f64 i v) any.
Proof. intros. apply safe_update; [| done]. intros. by apply core_ok_set_fp. Qed.
Lemma safe_fp_set_f32 i v : is_uint 32 v -> safe Fl (fp_set_f32 i v) any.
Proof.
  intros. apply safe_update; [| done]. intros. apply core_ok_set_fp; [| done].
  by apply box_f32_range.
Qed.

(** ** Interrupt lines *)

Lemma safe_trigger_external_interrupt level : safe Fl (trigger_external_interrupt level) any.
Proof.
  unfold trigger_external_interrupt. eapply safe_bind with (Q := any); intros; safe_tac.
Qed.
Lemma safe_clear_external_interrupt level : safe Fl (clear_external_interrupt level) any.
Proof. unfold clear_external_interrupt. safe_tac. Qed.
Lemma safe_trigger_timer_interrupt b : safe Fl (trigger_timer_interrupt b) any.
Proof. unfold trigger_timer_interrupt. safe_tac. Qed.
Lemma safe_trigger_software_interrupt b : safe Fl (trigger_software_interrupt b) any.
Proof. unfold trigger_software_interrupt. safe_tac. Qed.

(** ** Traps *)

Definition trap_mode (mode : PrivilegeLevel) : Prop :=
  mode = MachineMode \/ mode = SupervisorMode \/ mode = UserMode.

(** A pending interrupt is one of the nine that [mie] and [mip] implement. *)
Definition interrupt_ok (x : PendingInterrupts) : Prop :=
  trap_mode (target_mode x) /\ interrupt_code (pending x) <> None.

Lemma safe_save_pc r v :
  r = csrs.mepc \/ r = csrs.sepc \/ r = csrs.uepc -> is_uint xlen v -> even v ->
  safe Fl (set_csr r v) any.
Proof. intros Hr ??. apply safe_set_csr. by destruct Hr as [-> | [-> | ->]]. Qed.

Lemma safe_restore_pc r v :
  r = csrs.mepc \/ r = csrs.sepc \/ r = csrs.uepc -> csr_inv xlen misa_inv r v ->
  safe Fl (write_pc v) any.
Proof. intros Hr [? He]. apply safe_write_pc; by destruct Hr as [-> | [-> | ->]]. Qed.

Lemma safe_return_from_trap_handler mode :
  trap_mode mode -> safe Fl (return_from_trap_handler mode) any.
Proof.
  intros Hmode. unfold return_from_trap_handler.
  assert (Hprv : forall w v, w <= 2 -> is_uint w v -> safe Fl (update (set_prv v)) any).
  { intros w v ? Hv. apply (is_uint_weaken _ 2) in Hv; [| done]. apply safe_set_prv.
    unfold is_uint in Hv. lia. }
  safe_step.
  destruct Hmode as [-> | [-> | ->]]; cbn [Z.eqb Pos.eqb MachineMode SupervisorMode UserMode];
    repeat first
      [ safe_step
      | eapply Hprv; [| eassumption]; done
      | apply safe_set_prv; done
      | eapply safe_restore_pc; [| eassumption]; tauto ].
Qed.

(** A change of mode, followed by an assertion on the new mode. *)
Lemma safe_set_prv_assert v (f : Z -> bool) (k : R unit) :
  0 <= v <= 3 -> f v = true -> safe Fl k any ->
  safe Fl (update (set_prv v) ;; (p ← read prv; assert (f p) ;; k)) any.
Proof.
  intros Hv Hf Hk s Hs. pose proof (safe_set_prv Fl v Hv s Hs) as [_ Hs'].
  unfold mbind, M_bind, read, gets, update, modify in *. simpl in *. rewrite Hf.
  exact (Hk _ Hs').
Qed.

(** ** Privileged instructions *)

Lemma safe_exec_ecall : safe Fl exec_ecall any.
Proof.
  unfold exec_ecall. destruct execute_syscall as [m|] eqn:Hm.
  - by apply safe_syscall.
  - apply safe_read_at. intros prv s [Hs Hprv].
    assert (Hp : 0 <= prv <= 3) by (rewrite <- Hprv; apply Hs).
    unfold mbind, M_bind, read, gets.
    assert (Hl : is_uint xlen (last_pc (core s))) by apply Hs.
    destruct (Z.eqb_spec prv MachineMode); [by apply safe_raise |].
    destruct (Z.eqb_spec prv SupervisorMode); [by apply safe_raise |].
    destruct (Z.eqb_spec prv UserMode); [by apply safe_raise |].
    right. apply core_fails_reserved.
    split; [unfold MachineMode, SupervisorMode, UserMode, HypervisorMode in *; simpl; lia | by right].
Qed.

Lemma safe_exec_wfi : safe Fl exec_wfi any.
Proof. unfold exec_wfi. safe_tac. apply safe_wait, wait_wfi_event_ok. Qed.

Lemma safe_exec_sfence_vma : safe Fl exec_sfence_vma any.
Proof. unfold exec_sfence_vma. safe_tac. apply safe_env, flush_tlb_ok. Qed.

Lemma safe_exec_xret op : safe Fl (exec_xret op) any.
Proof.
  unfold exec_xret. safe_step. destruct op; try_skip.
  - safe_step. apply safe_return_from_trap_handler. unfold trap_mode. tauto.
  - do 2 safe_step. safe_step. apply safe_return_from_trap_handler. unfold trap_mode. tauto.
  - apply safe_return_from_trap_handler. unfold trap_mode. tauto.
Qed.

(** ** Accesses to memory *)

Lemma safe_load {A} al (addr : Z) (m : R A) (Q : A -> Prop) (k : A -> R unit) :
  is_uint xlen addr -> core_access xlen misa_inv env_ok env_fails m Q ->
  (forall v, Q v -> safe Fl (k v) any) ->
  safe Fl (trap_check_addr_alignment al true addr ;; m ≫= k) any.
Proof. intros. safe_step. eapply safe_bind; [by apply safe_access | done]. Qed.

End operations.

#[export] Hint Resolve safe_s_mode safe_u_mode safe_trap_check_pc_alignment
  safe_trap_check_addr_alignment safe_release_lr_sc safe_fp_require_not_off
  safe_fp_setup_rm safe_fp_reg_f32 safe_fp_reg_f64 safe_fp_reg_u32 safe_notify
  safe_has_local : vp_safe.
