(* ===== verification/CoreFp.v ===== *)
(** * Floating-point instructions and the exception flags

    The exception flags of the SoftFloat library are clear between two
    instructions, as fp_prepare_instr assumes: an instruction that calls the
    library ends with fp_update_exception_flags.  What the cores do differently,
    marking the state of the unit as dirty, is a parameter. *)

From S2P Require Import Prelude Instr Trap Csr Fp Iss IssExec IssLogic CoreInv CoreSafe.

#[local] Set Default Proof Using "Type*".

Lemma f32_sgnj_range f1 sign : is_uint 32 f1 -> is_uint 32 (f32_sgnj f1 sign).
Proof.
  intros. unfold f32_sgnj. apply is_uint_lor; [lia | by apply is_uint_land_l; [lia |] |].
  apply is_uint_land_r; [lia | done].
Qed.
Lemma f64_sgnj_range f1 sign : is_uint 64 f1 -> is_uint 64 (f64_sgnj f1 sign).
Proof.
  intros. unfold f64_sgnj. apply is_uint_lor; [lia | by apply is_uint_land_l; [lia |] |].
  apply is_uint_land_r; [lia | done].
Qed.
Lemma f32_sgnjx_range f1 f2 : is_uint 32 f1 -> is_uint 32 (f1 .^ (f2 .& F32_SIGN_BIT)).
Proof. intros. apply is_uint_lxor; [lia | done |]. by apply is_uint_land_r; [lia |]. Qed.
Lemma f64_sgnjx_range f1 f2 : is_uint 64 f1 -> is_uint 64 (f1 .^ (f2 .& F64_SIGN_BIT)).
Proof. intros. apply is_uint_lxor; [lia | done |]. by apply is_uint_land_r; [lia |]. Qed.

(** fp_update_exception_flags, for the computation that marks the unit as dirty. *)
Definition transfer_flags {W} (set_dirty : M (machine W) SimulationTrap unit)
    : M (machine W) SimulationTrap unit :=
  flags ← read softfloat_exceptionFlags;
  when (nonzero flags)
    (set_dirty ;;
     old ← csr_field csrs.fcsr fcsr.fflags;
     set_csr_field csrs.fcsr fcsr.fflags (old .| flags) ;;
     update (set_softfloat_exceptionFlags 0)).

(** A call of the library: a result of the expected type, and flags. *)
Abbreviation result_in Q r := (Q (fst r) /\ is_uint 5 (snd r)).

Section fp.
Context {xlen : Z} {misa_inv : Z -> Prop} {W : Type}
  `{Htype : core_type xlen misa_inv} `{Henv : environment_ok xlen misa_inv W}.

Abbreviation R := (M (machine W) SimulationTrap).
Abbreviation any := (fun _ => True).
Abbreviation clear := (fun flags : Z => flags = 0).

Lemma calm_fp_call {A} (r : A * Z) (Q : A -> Prop) : result_in Q r -> calm (fp_call r) Q.
Proof.
  intros [HQ Hr] s (Hc & He & _). simpl. split; [done |].
  split; [| done]. apply core_ok_set_flags; [| done]. apply is_uint_lor; [lia | apply Hc | done].
Qed.

Lemma calm_set_reg i v : is_sint xlen v -> calm (set_reg i v) any.
Proof. intros. by apply calm_update, safe_set_reg. Qed.
Lemma calm_fp_set_f32 i v : is_uint 32 v -> calm (fp_set_f32 i v) any.
Proof. intros. by apply calm_update, safe_fp_set_f32. Qed.
Lemma calm_fp_set_f64 i v : is_uint 64 v -> calm (fp_set_f64 i v) any.
Proof. intros. by apply calm_update, safe_fp_set_f64. Qed.

Lemma calm_fp_smaller lt eq negative :
  is_uint 5 (snd lt) -> is_uint 5 (snd eq) -> calm (fp_smaller lt eq negative) any.
Proof.
  intros Hlt Heq. unfold fp_smaller. eapply calm_bind; [by apply (calm_fp_call _ any) |].
  intros [] _; [by intros s Hs |]. eapply calm_bind; [by apply (calm_fp_call _ any) |].
  intros e _. by intros s Hs.
Qed.

Lemma safe_fp_prepare : safe clear fp_prepare_instr any.
Proof.
  unfold fp_prepare_instr. apply safe_read_at. intros flags.
  intros s [Hs Hf]. assert (flags = 0) as -> by (rewrite <- Hf; apply Hs).
  exact (safe_fp_require_not_off _ s Hs).
Qed.

Context (set_dirty : R unit) (Hdirty : calm set_dirty any).

(** The flags are transferred to [fcsr] and cleared. *)
Lemma transfer_flags_clears :
  triple (Inv any) (transfer_flags set_dirty) (fun _ => Inv clear)
    (fun _ _ => False) (fun _ _ => False).
Proof.
  unfold transfer_flags.
  eapply triple_bind with (Qm := fun f s => Inv any s /\ softfloat_exceptionFlags (core s) = f);
    [by intros s Hs |].
  intros flags. destruct (nonzero flags) eqn:Hf; cbn [when].
  - eapply triple_bind with (Qm := fun _ => Inv any).
    { intros s [Hs _]. pose proof (Hdirty s Hs) as Hd.
      destruct (set_dirty s) as [[] ?]; tauto. }
    intros _. eapply triple_bind with (Qm := fun _ => Inv any); [by intros s Hs |].
    intros old. eapply triple_bind with (Qm := fun _ => Inv any).
    { intros s Hs. pose proof (calm_update _ (safe_set_low_field any csrs.fcsr fcsr.fflags
        (old .| flags) eq_refl ltac:(by split) ltac:(done)) s Hs) as Hd. apply Hd. }
    intros _ s (Hc & He & _). split; [| done]. by apply core_ok_set_flags.
  - intros s [(Hc & He & _) Hflags]. split; [done |]. split; [done |].
    unfold nonzero in Hf. simpl. lia.
Qed.

Lemma safe_transfer_flags (m : R unit) :
  calm m any -> safe clear (m ;; transfer_flags set_dirty) any.
Proof.
  intros Hm. eapply triple_bind with (Qm := fun _ => Inv any).
  - intros s (Hc & He & _). pose proof (Hm s (conj Hc (conj He Logic.I))) as H'.
    destruct (m s) as [[] ?]; tauto.
  - intros _ s Hs. pose proof (transfer_flags_clears s Hs) as H'.
    destruct (transfer_flags set_dirty s) as [[] ?]; tauto.
Qed.

(** The end of an instruction that computes a value and writes it. *)
Lemma safe_finish {A} (m : R A) (Q : A -> Prop) (write : A -> R unit) :
  calm m Q -> (forall v, Q v -> calm (write v) any) ->
  safe clear (v ← m; write v ;; set_dirty ;; transfer_flags set_dirty) any.
Proof.
  intros Hm Hw.
  eapply safe_ext; [| apply (safe_transfer_flags (v ← m; write v ;; set_dirty))].
  - intros s. rewrite bind_assoc.
    unfold mbind at 1 4, M_bind at 1 4. destruct (m s) as [[v| |] s1]; [| done | done].
    by rewrite bind_assoc.
  - eapply calm_bind; [apply Hm |]. intros v Hv.
    eapply calm_bind; [by apply Hw |]. intros _ _. apply Hdirty.
Qed.

Lemma safe_rounding (f : Z -> Z * Z) (Q : Z -> Prop) (write : Z -> R unit) :
  (forall rm, result_in Q (f rm)) -> (forall v, Q v -> calm (write v) any) ->
  safe clear
    (fp_prepare_instr ;; fp_setup_rm ;; rm ← read softfloat_roundingMode;
     v ← fp_call (f rm); write v ;; set_dirty ;; transfer_flags set_dirty) any.
Proof.
  intros Hf Hw. safe_step; [apply safe_fp_prepare |].
  safe_step. safe_step. apply (safe_finish _ Q); [apply calm_fp_call, Hf | done].
Qed.

(** A comparison: its flags do not mark the unit as dirty unless they are set. *)
Lemma safe_compare (r : bool * Z) (write : bool -> R unit) :
  is_uint 5 (snd r) -> (forall b, calm (write b) any) ->
  safe clear (v ← fp_call r; write v ;; transfer_flags set_dirty) any.
Proof.
  intros Hr Hw. eapply safe_ext; [| apply (safe_transfer_flags (v ← fp_call r; write v))].
  - intros s. apply bind_assoc.
  - eapply calm_bind; [by apply (calm_fp_call _ any) |]. intros. apply Hw.
Qed.

End fp.
