(* ===== verification/CoreStep.v ===== *)
(** * The step of a core

    [step_frame] is the text that run_step has in both cores; its parameters are
    the execution of an instruction with the check for interrupts, the entry of
    a trap, and the accounting at the end of the step. *)

From S2P Require Import Prelude Instr Trap Csr Fp Iss IssExec IssLogic CoreInv CoreSafe.

#[local] Set Default Proof Using "Type*".

Definition step_frame {W} (body : M (machine W) SimulationTrap unit)
    (handler : SimulationTrap -> M (machine W) SimulationTrap unit)
    (account : Mapping -> M (machine W) SimulationTrap unit) : M (machine W) SimulationTrap unit :=
  x0 ← reg x_zero;
  assert (x0 =? 0) ;;
  debug_mode ← read debug_mode; breakpoints ← read breakpoints; pc ← read pc;
  if debug_mode && bool_decide (pc ∈ breakpoints) then update (set_status HitBreakpoint)
  else
    update (set_last_pc pc) ;;
    try_catch body handler ;;
    set_reg x_zero 0 ;;
    shall_exit ← read shall_exit;
    when shall_exit (update (set_status Terminated)) ;;
    op ← read op;
    account op.

(** The loop of run, bounded by [fuel]; the result tells whether it ended. *)
Fixpoint loop_frame {W} (step : M (machine W) SimulationTrap unit) (fuel : nat)
    : M (machine W) SimulationTrap bool :=
  match fuel with
  | O => mret false
  | S fuel =>
      step ;;
      status ← read status;
      if bool_decide (status = Runnable) then loop_frame step fuel else mret true
  end.

Lemma loop_frame_unfold {W} (step : M (machine W) SimulationTrap unit) fuel s :
  loop_frame step (S fuel) s =
  match step s with
  | (Ret _, s') =>
      if bool_decide (status (core s') = Runnable) then loop_frame step fuel s' else (Ret true, s')
  | (Throw e, s') => (Throw e, s')
  | (Fatal f, s') => (Fatal f, s')
  end.
Proof.
  simpl. unfold mbind at 1, M_bind at 1. destruct (step s) as [[u|e|f] s']; [| done | done].
  unfold mbind, M_bind, read, gets. by destruct (bool_decide _).
Qed.

(** What every step keeps, the loop keeps. *)
Lemma loop_frame_keeps {W} (step : M (machine W) SimulationTrap unit)
    (I : machine W -> Prop) (F : failure -> machine W -> Prop) :
  (forall s, I s -> match step s with
                    | (Ret _, s') => I s' | (Throw _, _) => False | (Fatal f, s') => F f s' end) ->
  forall fuel s, I s ->
    match loop_frame step fuel s with
    | (Ret ended, s') => I s' /\ (ended = true -> fuel <> O /\ status (core s') <> Runnable)
    | (Throw _, _) => False
    | (Fatal f, s') => F f s'
    end.
Proof.
  intros Hstep fuel. induction fuel as [|fuel IH]; intros s Hs; [done |].
  rewrite loop_frame_unfold. specialize (Hstep s Hs).
  destruct (step s) as [[[]|e|f] s1]; [| done | done].
  case_bool_decide as Hst; [| done].
  specialize (IH s1 Hstep). destruct (loop_frame step fuel s1) as [[ended|e|f] s']; [| done | done].
  destruct IH as [? Hend]. split; [done |]. intros He. split; [done | by apply Hend].
Qed.

(** ** Calls that neither throw nor change the registers *)

#[export] Hint Resolve nothrow_read nothrow_update : vp_nothrow.
#[export] Hint Extern 1 (nothrow atomic_unlock) =>
  refine (atomic_unlock_nothrow _ _) : vp_nothrow.
#[export] Hint Extern 1 (nothrow (quantum_keeper_inc _)) =>
  refine (quantum_keeper_inc_nothrow _ _ _) : vp_nothrow.
#[export] Hint Extern 1 (nothrow quantum_keeper_need_sync) =>
  refine (quantum_keeper_need_sync_nothrow _ _) : vp_nothrow.
#[export] Hint Extern 1 (nothrow quantum_keeper_sync) =>
  refine (quantum_keeper_sync_nothrow _ _) : vp_nothrow.

Ltac nothrow_unfold :=
  unfold reg, set_reg, csr_reg, csr_field, set_csr, set_csr_field, write_pc, update_csrs.

Section step.
Context {xlen : Z} {misa_inv : Z -> Prop} {W : Type}
  `{Htype : core_type xlen misa_inv} `{Henv : environment_ok xlen misa_inv W}.

Abbreviation R := (M (machine W) SimulationTrap).
Abbreviation any := (fun _ => True).
Abbreviation clear := (fun flags : Z => flags = 0).

(** ** A machine between two steps *)

Definition step_inv (s : machine W) : Prop :=
  Inv clear s /\ regs_get (regs (core s)) x_zero = 0.

Lemma regs_get_set_zero (r : list Z) :
  length r = NUM_REGS -> regs_get (regs_set x_zero 0 r) x_zero = 0.
Proof.
  intros Hr. unfold regs_get, regs_set, x_zero. rewrite list_lookup_insert_eq; [done |].
  rewrite Hr. unfold NUM_REGS. lia.
Qed.

Lemma is_sint_0 : is_sint xlen 0.
Proof. pose proof xlen_range. unfold is_sint. pose proof (Z.pow_pos_nonneg 2 (xlen - 1)). lia. Qed.

Context (body : R unit) (handler : SimulationTrap -> R unit) (account : Mapping -> R unit).
Context (Hbody : safe clear body any).
Context (Hhandler : forall e, trap_inv xlen e -> safe clear (handler e) any).
Context (Haccount : forall op, safe clear (account op) any).
Context (Hregs : forall op, keeps_regs (account op)).

(** From the reset of register x0 to the end of the step. *)
Lemma step_end :
  triple (Inv clear)
    (set_reg x_zero 0 ;;
     shall_exit ← read shall_exit;
     when shall_exit (update (set_status Terminated)) ;;
     op ← read op;
     account op)
    (fun _ s => step_inv s) (fun e s => trap_inv xlen e /\ Inv clear s) fails.
Proof.
  intros s Hs.
  set (s1 := Machine (set_regs (regs_set x_zero 0 (regs (core s))) (core s)) (env s)).
  set (s2 := if shall_exit (core s1)
             then Machine (set_status Terminated (core s1)) (env s1) else s1).
  assert (Hs1 : Inv clear s1).
  { destruct Hs as (Hc & He & Hf). split; [by apply core_ok_set_reg; [apply is_sint_0 |] | done]. }
  assert (Hs2 : Inv clear s2 /\ regs (core s2) = regs (core s1)).
  { unfold s2. destruct (shall_exit (core s1)); [| done]. split; [| done].
    destruct Hs1 as (Hc & He & Hf). split; [by apply core_ok_set_status | done]. }
  destruct Hs2 as [Hs2 Hregs2].
  assert (E : (set_reg x_zero 0 ;;
     shall_exit ← read shall_exit;
     when shall_exit (update (set_status Terminated)) ;;
     op ← read op; account op) s
     = account (op (core s2)) s2).
  { unfold s2, s1. unfold mbind, M_bind, set_reg, update, modify, read, gets. simpl.
    by destruct (shall_exit (core s)). }
  rewrite E. pose proof (Haccount (op (core s2)) s2 Hs2) as Hp.
  pose proof (Hregs (op (core s2)) s2) as Hr.
  destruct (account (op (core s2)) s2) as [[u|e|f] s3]; [| done | done].
  split; [apply Hp |]. simpl in Hr. rewrite Hr, Hregs2. apply regs_get_set_zero, Hs.
Qed.

Lemma step_frame_triple :
  triple step_inv (step_frame body handler account) (fun _ s => step_inv s)
    (fun e s => trap_inv xlen e /\ Inv clear s) fails.
Proof.
  intros s [Hs H0]. unfold step_frame.
  unfold mbind at 1 2 3 4 5, M_bind at 1 2 3 4 5. unfold reg, read, gets.
  rewrite H0. cbn [Z.eqb assert skip mret M_ret].
  destruct (debug_mode (core s) && bool_decide (pc (core s) ∈ breakpoints (core s))).
  - split; [| done]. destruct Hs as (Hc & He & Hf). split; [by apply core_ok_set_status | done].
  - eapply (triple_bind (Inv clear)) with (Qm := fun _ => Inv clear); [| | exact Hs].
    + intros s' Hs'. unfold update, modify. destruct Hs' as (Hc & He & Hf).
      split; [| done]. by apply core_ok_set_last_pc; [apply Hs | apply Hs |].
    + intros _. eapply triple_bind with (Qm := fun _ => Inv clear); [| intros _; apply step_end].
      eapply triple_try_catch with (QE' := fun e s => trap_inv xlen e /\ Inv clear s).
      * eapply triple_conseq; [apply Hbody | done | by intros ?? [] | done | done].
      * intros e s' [He Hs']. pose proof (Hhandler e He s' Hs') as Ht.
        destruct (handler e s') as [[] ?]; tauto.
Qed.

End step.

Create HintDb vp_keeps.
#[export] Hint Resolve keeps_regs_assert : vp_keeps.
#[export] Hint Extern 1 (keeps_regs atomic_unlock) =>
  intros ?; refine (atomic_unlock_regs _ _ _) : vp_keeps.
#[export] Hint Extern 1 (keeps_regs (quantum_keeper_inc _)) =>
  intros ?; refine (quantum_keeper_inc_regs _ _ _ _) : vp_keeps.
#[export] Hint Extern 1 (keeps_regs quantum_keeper_need_sync) =>
  intros ?; refine (quantum_keeper_need_sync_regs _ _ _) : vp_keeps.
#[export] Hint Extern 1 (keeps_regs quantum_keeper_sync) =>
  intros ?; refine (quantum_keeper_sync_regs _ _ _) : vp_keeps.

(** The accounting of a step does not touch the registers. *)
Ltac keeps_regs_tac :=
  repeat lazymatch goal with
  | |- keeps_regs (mbind _ _) => apply keeps_regs_bind; [| intro]
  | |- keeps_regs (when _ _) => apply keeps_regs_when
  | |- keeps_regs _ => first [solve [eauto with vp_keeps] | intros s; reflexivity]
  end.
