(* ===== verification/IssInv.v ===== *)
(** * The invariant of the 32-bit core

    CoreInv.v for registers of 32 bits and the values that [misa] has in
    core/rv32/csr.h: [core_ok] is the type and well-formedness invariant of
    struct ISS, [platform_ok] is what a core relies on from its environment. *)

From S2P Require Import Prelude Instr Decode Compressed Trap Csr Fp Iss IssLogic.
From S2P Require Export CoreInv CoreSafe.

Definition misa_ok (v : Z) : Prop := v = misa_init \/ v = select_E_base_isa misa_init.

Abbreviation csr_value_ok := (csr_inv 32 misa_ok).
Abbreviation csrs_ok := (csrs_inv 32 misa_ok).
Abbreviation core_ok := (core_inv 32 misa_ok).
Abbreviation trap_ok := (trap_inv 32).
Abbreviation mip_change := (line_change 32).
Abbreviation env_op := (core_op 32 misa_ok).
Abbreviation env_access := (core_access 32 misa_ok).
Abbreviation env_wait := (core_wait 32 misa_ok).

Lemma misa_ok_C (v : Z) : misa_ok v -> has_C_extension v = true.
Proof. by intros [->| ->]. Qed.
Lemma misa_ok_U (v : Z) : misa_ok v -> has_user_mode_extension v = true.
Proof. by intros [->| ->]. Qed.
Lemma misa_ok_S (v : Z) : misa_ok v -> has_supervisor_mode_extension v = true.
Proof. by intros [->| ->]. Qed.
Lemma misa_ok_has (v X : Z) :
  misa_ok v -> In X [A_ISA_EXT; C_ISA_EXT; F_ISA_EXT; M_ISA_EXT] -> nonzero (v .& X) = true.
Proof. by intros [->| ->]; cbn [In]; intros [<-|[<-|[<-|[<-|[]]]]]. Qed.
Lemma misa_ok_D (v : Z) : misa_ok v -> nonzero (v .& D_ISA_EXT) = false.
Proof. by intros [->| ->]. Qed.
Lemma misa_ok_mask (v : Z) : misa_ok v -> pc_alignment_mask v = 0xfffffffe.
Proof. intros H. unfold pc_alignment_mask. by rewrite misa_ok_C. Qed.

(** The 32-bit core fails in the reserved privilege level only. *)
#[export] Instance rv32_type : core_type 32 misa_ok := {
  core_fails := reserved_mode_fails;
  core_fails_reserved f c Hf := Hf;
  xlen_range := ltac:(lia);
  misa_C := misa_ok_C;
  misa_U := misa_ok_U;
  misa_S := misa_ok_S
}.

Class platform_ok (W : Type) `{platform W} : Type := {
  platform_environment :: environment_ok 32 misa_ok W
}.

Lemma regs_get_range32 (r : list Z) (i : Z) : Forall (is_sint 32) r -> is_sint 32 (regs_get r i).
Proof. by apply regs_get_range. Qed.

(** ** CSR updates *)

Lemma masked_write_ok r mask v t :
  csrs.is_64 r = false -> is_uint 32 mask -> csr_mask_ok 32 r mask ->
  csrs_ok t -> csrs_ok (masked_write r mask v t).
Proof.
  intros Hr ???. apply (masked_csr_ok 32); try done. unfold csr_width. by rewrite Hr.
Qed.

Lemma csrs_ok_wf t : csrs_ok t -> csr_table_wf t.
Proof. intros H r. apply H. Qed.

Lemma csr_get_range32 t r : csrs_ok t -> csrs.is_64 r = false -> is_uint 32 (csr_get t r).
Proof. intros Ht Hr. pose proof (csrs_ok_wf t Ht r) as H. unfold reg_width in H. by rewrite Hr in H. Qed.

(** The addresses of the registers whose value is restricted. *)
Definition special_addrs : list Z :=
  [MISA_ADDR; MEPC_ADDR; SEPC_ADDR; UEPC_ADDR; MIE_ADDR; SATP_ADDR].

Lemma register_mapping_special addr p :
  register_mapping addr = Some p -> special_csr (ptr_reg p) = true ->
  In addr special_addrs.
Proof.
  unfold register_mapping.
  repeat (match goal with |- context [if ?b then _ else _] => destruct b eqn:? end;
          [ intros [= <-]; cbn [ptr_reg special_csr]; try discriminate; intros _;
            match goal with E : (addr =? _) = true |- _ => apply Z.eqb_eq in E as -> end; cbn [In special_addrs]; tauto |]).
  discriminate.
Qed.

Lemma default_write_ok addr v t t' :
  ~ In addr special_addrs ->
  is_uint 32 v -> csrs_ok t -> default_write32 addr v t = Some t' -> csrs_ok t'.
Proof.
  intros Haddr Hv Ht. unfold default_write32.
  destruct (register_mapping addr) as [p|] eqn:Hp; simpl; [| done]. intros [= <-].
  assert (special_csr (ptr_reg p) = false) as Hs.
  { destruct (special_csr (ptr_reg p)) eqn:Hs; [| done].
    by destruct Haddr; eapply register_mapping_special. }
  pose proof (ptr_write_wf p v t (csrs_ok_wf t Ht) (register_mapping_ok addr p Hp) Hv) as Hwf.
  intros r. destruct (decide (r = ptr_reg p)) as [->|Hr].
  - apply csr_value_ok_plain; [done | apply Hwf].
  - destruct p; simpl in *; rewrite csr_get_set_other by congruence; apply Ht.
Qed.

(** The constructor establishes the invariant. *)
Lemma csrs_ok_init : csrs_ok csr_table_init.
Proof.
  intros r. split; [apply csr_table_init_wf |]. unfold csr_table_init.
  destruct r; try done; rewrite ?csr_get_set_same, ?csr_get_set_other by done; [by left | done..].
Qed.

Lemma ISS_new_ok (hart_id : Z) (use_E_base_isa : bool) :
  is_uint 32 hart_id -> core_ok (ISS_new hart_id use_E_base_isa).
Proof.
  intros Hh.
  assert (Ht : csrs_ok (csr_set csrs.mhartid hart_id csr_table_init))
    by (apply csrs_ok_set; [by apply csr_value_ok_plain | apply csrs_ok_init]).
  constructor; simpl; try done.
  - by repeat constructor.
  - by repeat constructor.
  - destruct use_E_base_isa; [| done]. apply csrs_ok_set; [| done].
    split; [by vm_compute |]. by right.
Qed.

Lemma safe_csr_write {W} `{platform_ok W} Fl r mask v :
  csrs.is_64 r = false -> is_uint 32 mask -> csr_mask_ok 32 r mask ->
  safe Fl (csr_write r mask v) (fun _ => True).
Proof. intros. apply safe_update_csrs. intros. by apply masked_write_ok. Qed.
