(* ===== verification/RamPlatform.v ===== *)
(** * A platform of flat memory

    The smallest environment that keeps the contract of IssInv.v: a byte memory
    without devices, address translation, timer or other bus masters, on which
    the theorems about a core are instantiated and small programs are run.  The
    SoftFloat library is replaced by an arithmetic that returns zero. *)

From S2P Require Import Prelude Instr Decode Compressed Trap Csr Fp Iss IssExec IssLogic IssInv.

Definition ram : Type := gmap Z Z.

(** Bytes that were never written are zero. *)
Definition ram_byte (m : ram) (addr : Z) : Z := uint8 (default 0 (m !! addr)).

Fixpoint ram_load (n : nat) (m : ram) (addr : Z) : Z :=
  match n with
  | O => 0
  | S n => ram_byte m addr .| (ram_load n m (addr + 1) .<< 8)
  end.

Fixpoint ram_store (n : nat) (addr v : Z) (m : ram) : ram :=
  match n with
  | O => m
  | S n => ram_store n (addr + 1) (v .>> 8) (<[addr := uint8 v]> m)
  end.

Definition ram_read {A} (f : ram -> A) : M (machine ram) SimulationTrap A :=
  gets (fun s => f (env s)).
Definition ram_write (f : ram -> ram) : M (machine ram) SimulationTrap unit :=
  modify (fun s => Machine (core s) (f (env s))).

#[export] Instance ram_platform : platform ram := {
  load_instr a := ram_read (fun m => uint32 (ram_load 4 m a));
  load_double a := ram_read (fun m => int64 (ram_load 8 m a));
  load_word a := ram_read (fun m => int32 (ram_load 4 m a));
  load_half a := ram_read (fun m => int16 (ram_load 2 m a));
  load_byte a := ram_read (fun m => int8 (ram_load 1 m a));
  load_uhalf a := ram_read (fun m => uint16 (ram_load 2 m a));
  load_ubyte a := ram_read (fun m => uint8 (ram_load 1 m a));
  store_double a v := ram_write (ram_store 8 a v);
  store_word a v := ram_write (ram_store 4 a v);
  store_half a v := ram_write (ram_store 2 a v);
  store_byte a v := ram_write (ram_store 1 a v);
  atomic_load_word a := ram_read (fun m => int32 (ram_load 4 m a));
  atomic_store_word a v := ram_write (ram_store 4 a v);
  atomic_load_reserved_word a := ram_read (fun m => int32 (ram_load 4 m a));
  atomic_store_conditional_word a v := ram_write (ram_store 4 a v) ;; mret true;
  atomic_unlock := skip;
  flush_tlb := skip;
  update_and_get_mtime := mret 0;
  execute_syscall := None;
  wait_wfi_event := skip;
  notify_wfi_event := skip;
  quantum_keeper_inc _ := skip;
  quantum_keeper_need_sync := mret false;
  quantum_keeper_sync := skip
}.

(** The contract, for cores of both widths. *)
Section contract.
Context {xlen : Z} {misa_inv : Z -> Prop} `{core_type xlen misa_inv}.

Lemma ram_read_ok {A} (f : ram -> A) (Q : A -> Prop) :
  (forall m, Q (f m)) -> core_access xlen misa_inv (fun _ => True) (fun _ => False) (ram_read f) Q.
Proof. intros HQ s ??. split; [apply HQ |]. split; [by left | done]. Qed.

Lemma ram_write_ok (f : ram -> ram) :
  core_access xlen misa_inv (fun _ => True) (fun _ => False) (ram_write f) (fun _ => True).
Proof. intros s ??. split; [done |]. split; [by left | done]. Qed.

Lemma skip_env_wait : core_wait (W := ram) xlen misa_inv (fun _ => True) (fun _ => False) skip.
Proof. intros s Hs _. by repeat split; left. Qed.

Lemma skip_env_op {A} (a : A) (Q : A -> Prop) :
  Q a -> core_op (W := ram) xlen misa_inv (fun _ => True) (fun _ => False) (mret a) Q.
Proof. by intros HQ s. Qed.

#[program] Definition ram_environment_ok : environment_ok xlen misa_inv ram := {|
  env_ok := fun _ => True;
  env_fails := fun _ => False
|}.
Solve All Obligations with
  first [ discriminate
        | intros; pose proof xlen_range; apply ram_read_ok; intros; range_tac
        | intros; apply ram_write_ok
        | intros; apply skip_env_wait
        | intros; by apply skip_env_op
        | intros; apply nothrow_ret
        | done ].

End contract.

#[export] Instance ram_platform_ok : platform_ok ram := {
  platform_environment := ram_environment_ok
}.

(** An arithmetic whose results are all zero. *)
#[export] Instance zero_softfloat : softfloat := {
  f32_add _ _ _ := (0, 0); f32_sub _ _ _ := (0, 0); f32_mul _ _ _ := (0, 0);
  f32_div _ _ _ := (0, 0); f32_sqrt _ _ := (0, 0); f32_mulAdd _ _ _ _ := (0, 0);
  f32_lt _ _ := (false, 0); f32_lt_quiet _ _ := (false, 0); f32_le _ _ := (false, 0);
  f32_eq _ _ := (false, 0); f32_to_i32 _ _ := (0, 0); f32_to_ui32 _ _ := (0, 0);
  i32_to_f32 _ _ := (0, 0); ui32_to_f32 _ _ := (0, 0); f32_classify _ := 0;
  f32_to_f64 _ := (0, 0);
  f64_add _ _ _ := (0, 0); f64_sub _ _ _ := (0, 0); f64_mul _ _ _ := (0, 0);
  f64_div _ _ _ := (0, 0); f64_sqrt _ _ := (0, 0); f64_mulAdd _ _ _ _ := (0, 0);
  f64_lt _ _ := (false, 0); f64_lt_quiet _ _ := (false, 0); f64_le _ _ := (false, 0);
  f64_eq _ _ := (false, 0); f64_to_i32 _ _ := (0, 0); f64_to_ui32 _ _ := (0, 0);
  i32_to_f64 _ := (0, 0); ui32_to_f64 _ := (0, 0); f64_classify _ := 0;
  f64_to_f32 _ _ := (0, 0)
}.

#[export] Instance zero_softfloat_ok : softfloat_ok zero_softfloat.
Proof. by repeat constructor. Qed.

(** A core after reset, with a program at address 0. *)
Fixpoint load_program (addr : Z) (code : list Z) (m : ram) : ram :=
  match code with
  | [] => m
  | w :: code => load_program (addr + 4) code (ram_store 4 addr w m)
  end.

Definition ram_machine (code : list Z) : machine ram :=
  Machine (ISS_new 0 false) (load_program 0 code ∅).
