(* ===== verification/IssValues.v ===== *)
(** * Values of the instructions

    Ranges of the immediates and of the results of the instructions, and the
    conversions between 32-bit words and the integers they denote. *)

From S2P Require Import Prelude Instr Trap Csr Fp Iss IssExec IssLogic CoreInv.

(** ** Ranges of the values the instructions compute *)

Lemma I_imm_range i : is_sint 32 i -> is_sint 32 (I_imm i).
Proof.
  intros. rewrite I_imm_bits by done. apply (is_sint_weaken 12); [lia |]. apply sint_range. lia.
Qed.
Lemma U_imm_range i : is_sint 32 i -> is_sint 32 (U_imm i).
Proof. intros. rewrite U_imm_bits by done. apply sint_range. lia. Qed.

Lemma J_imm_even i : is_sint 32 i -> even (J_imm i).
Proof. intros. rewrite J_imm_bits by done. unfold even, bits. bit_tac. Qed.
Lemma B_imm_even i : is_sint 32 i -> even (B_imm i).
Proof. intros. rewrite B_imm_bits by done. unfold even, bits. bit_tac. Qed.

Lemma even_add_at w x y : 0 < w -> even x -> even y -> even (uint w (x + y)).
Proof.
  unfold even. intros Hw Hx Hy. rewrite uint_testbit_low by lia.
  rewrite Z.bit0_odd, Z.odd_add, <- !Z.bit0_odd, Hx, Hy. done.
Qed.

Lemma even_add x y : even x -> even y -> even (uint32 (x + y)).
Proof. by apply even_add_at. Qed.

Lemma even_clear_bit0_at w x : 0 < w -> even (uint w (x .& Z.lnot 1)).
Proof.
  intros. unfold even. rewrite uint_testbit_low, Z.land_spec by lia. apply andb_false_r.
Qed.

Lemma even_clear_bit0 x : even (uint32 (x .& Z.lnot 1)).
Proof. by apply even_clear_bit0_at. Qed.

(** Addresses of trap handlers. *)
Lemma even_base w x : 0 < w -> even (uint w (x .<< 2)).
Proof. intros. unfold even. rewrite uint_testbit_low by lia. by apply Z.shiftl_spec_low. Qed.
Lemma even_vector w base c : 0 < w -> even base -> even (uint w (base + 4 * c)).
Proof.
  intros. apply even_add_at; [done | done |]. unfold even.
  replace (4 * c) with (c .<< 2) by (rewrite Z.shiftl_mul_pow2; lia). by apply Z.shiftl_spec_low.
Qed.

Lemma sint_b2z b : is_sint 32 (b2z b).
Proof. by destruct b. Qed.
Lemma sint_int32 z : is_sint 32 (int32 z).
Proof. apply sint_range. lia. Qed.
Lemma uint_uint32 z : is_uint 32 (uint32 z).
Proof. apply uint_range. lia. Qed.
Lemma is_sint_lor_32 x y : is_sint 32 x -> is_sint 32 y -> is_sint 32 (x .| y).
Proof. by apply is_sint_lor. Qed.
Lemma is_sint_land_32 x y : is_sint 32 x -> is_sint 32 y -> is_sint 32 (x .& y).
Proof. by apply is_sint_land. Qed.
Lemma is_sint_lxor_32 x y : is_sint 32 x -> is_sint 32 y -> is_sint 32 (x .^ y).
Proof. by apply is_sint_lxor. Qed.

Lemma RegFile_shamt_range r i : 0 <= RegFile_shamt r i < 32.
Proof.
  change (RegFile_shamt r i) with (regs_get r i .& Z.ones 5).
  rewrite Z.land_ones by lia. by apply Z.mod_pos_bound.
Qed.

Lemma shamt_range i : 0 <= shamt i < 64.
Proof.
  rewrite shamt_bits. unfold bits. rewrite Z.shiftl_0_r. apply (uint_range 6). lia.
Qed.

Lemma is_sint_shiftr_32 x n : 0 <= n -> is_sint 32 x -> is_sint 32 (x .>> n).
Proof. intros. by apply is_sint_shiftr. Qed.

(** Division overflows only for the least integer and -1. *)
Lemma quot_range_at w a b :
  1 < w -> is_sint w a -> is_sint w b -> b <> 0 -> (a =? - 2 ^ (w - 1)) && (b =? -1) = false ->
  is_sint w (Z.quot a b).
Proof.
  unfold is_sint. intros Hw Ha Hb Hb0 Hov.
  pose proof (Z.pow_pos_nonneg 2 (w - 2)) as Hpos.
  replace (2 ^ (w - 1)) with (2 * 2 ^ (w - 2)) in *
    by (rewrite <- Z.pow_succ_r by lia; f_equal; lia).
  set (h := 2 ^ (w - 2)) in *. clearbody h.
  assert (Hq : Z.abs (Z.quot a b) * Z.abs b <= Z.abs a).
  { rewrite <- Z.quot_abs by lia. rewrite Z.mul_comm. apply Z.mul_quot_le; lia. }
  destruct (Z.eq_dec b (-1)) as [->|]; [| destruct (Z.eq_dec b 1) as [->|]; [| nia]].
  - change (-1) with (- (1)). rewrite Z.quot_opp_r, Z.quot_1_r by lia. lia.
  - rewrite Z.quot_1_r. lia.
Qed.

Lemma rem_range_at w a b : is_sint w a -> is_sint w b -> b <> 0 -> is_sint w (Z.rem a b).
Proof.
  unfold is_sint. intros Ha Hb Hb0. pose proof (Z.rem_bound_abs a b Hb0). lia.
Qed.

Lemma quot_range a b :
  is_sint 32 a -> is_sint 32 b -> b <> 0 -> (a =? REG_MIN) && (b =? -1) = false ->
  is_sint 32 (Z.quot a b).
Proof. by apply quot_range_at. Qed.

Lemma rem_range a b : is_sint 32 a -> is_sint 32 b -> b <> 0 -> is_sint 32 (Z.rem a b).
Proof. apply rem_range_at. Qed.

Create HintDb vp_sint.
#[export] Hint Resolve sint_b2z sint_int32 uint_uint32 I_imm_range U_imm_range is_sint_lor_32
  is_sint_land_32 is_sint_lxor_32 : vp_sint.

(** ** Words and integers *)

Definition word_size : Z := 2 ^ 32.

Lemma int32_uint32_id a : is_sint 32 a -> int32 (uint32 a) = a.
Proof. intros. unfold int32, uint32. rewrite sint_uint by lia. by apply sint_id. Qed.

Lemma uint32_mod a : uint32 a mod word_size = a mod word_size.
Proof. apply Z.mod_mod. done. Qed.

(** Shift amounts of the code are below 32. *)
Lemma RegFile_shamt_spec r n :
  RegFile_shamt r n = uint32 (regs_get r n) mod 32.
Proof.
  unfold RegFile_shamt. set (v := regs_get r n). clearbody v.
  change (uint32 v mod 32) with (uint 5 (uint32 v)).
  unfold BIT_RANGE. masks. unfold uint32. ubits 5%nat.
Qed.

Lemma mod_mod_32 a : (a mod word_size) mod 32 = a mod 32.
Proof. apply Z.mod_mod_divide. by exists (2 ^ 27). Qed.

(** ** Interrupt bits *)

Definition mip_field (n : Z) : bitfield := BitField n 1.

Lemma nonzero_field_1 n v : 0 <= n -> nonzero (get_field (mip_field n) v) = Z.testbit v n.
Proof.
  intros. unfold nonzero, get_field, mip_field, uint. cbn [bf_lo bf_width].
  rewrite Z.testbit_odd, Zodd_mod. change (2 ^ 1) with 2.
  pose proof (Z.mod_pos_bound (v .>> n) 2 ltac:(lia)).
  destruct (Z.eqb_spec (v .>> n mod 2) 0), (Z.eqb_spec (v .>> n mod 2) 1); simpl; lia.
Qed.

(** The nine interrupts. *)
Definition interrupt_bits : list Z := [0; 1; 3; 4; 5; 7; 8; 9; 11].

Lemma MIE_MASK_bits k : 0 <= k < 32 -> Z.testbit MIE_MASK k = true -> In k interrupt_bits.
Proof.
  apply (all_below_spec 32%nat (fun j => Z.testbit MIE_MASK j = true -> In j interrupt_bits)).
  cbn [all_below]. repeat split; vm_compute; tauto || discriminate.
Qed.

Lemma interrupt_code_some p :
  is_uint 32 p -> Z.ldiff p MIE_MASK = 0 -> p <> 0 -> interrupt_code p <> None.
Proof.
  intros Hp Hm Hp0 Hnone. apply Hp0.
  assert (Hbits : forall n, In n interrupt_bits -> Z.testbit p n = false).
  { unfold interrupt_code in Hnone.
    change mip.meip with (mip_field 11) in Hnone. change mip.msip with (mip_field 3) in Hnone.
    change mip.mtip with (mip_field 7) in Hnone. change mip.seip with (mip_field 9) in Hnone.
    change mip.ssip with (mip_field 1) in Hnone. change mip.stip with (mip_field 5) in Hnone.
    change mip.ueip with (mip_field 8) in Hnone. change mip.usip with (mip_field 0) in Hnone.
    change mip.utip with (mip_field 4) in Hnone.
    rewrite !nonzero_field_1 in Hnone by lia.
    repeat match type of Hnone with context [if ?b then _ else _] => destruct b eqn:? end;
      try done.
    intros n Hn. cbn [In interrupt_bits] in Hn. intuition (subst; done). }
  apply (uint_bits_inj 32); [lia | done | done |]. intros k Hk. rewrite Z.testbit_0_l.
  assert (Hk' := f_equal (fun z => Z.testbit z k) Hm). simpl in Hk'.
  rewrite Z.ldiff_spec, Z.testbit_0_l in Hk'.
  destruct (Z.testbit MIE_MASK k) eqn:EM; [| by rewrite andb_true_r in Hk'].
  apply Hbits.
  by apply MIE_MASK_bits.
Qed.

(** What [mie] enables is an interrupt. *)
Lemma interrupt_code_enabled mie x :
  Z.ldiff mie MIE_MASK = 0 -> nonzero (mie .& x) = true -> interrupt_code (mie .& x) <> None.
Proof.
  intros Hm Hx.
  assert (E : mie .& x = (mie .& x) .& MIE_MASK).
  { apply Z.bits_inj'. intros k ?. assert (Hk := f_equal (fun z => Z.testbit z k) Hm). simpl in Hk.
    rewrite Z.ldiff_spec, Z.testbit_0_l in Hk. rewrite !Z.land_spec.
    destruct (Z.testbit mie k), (Z.testbit MIE_MASK k), (Z.testbit x k); done. }
  apply interrupt_code_some.
  - rewrite E. by apply is_uint_land_r.
  - rewrite E. apply Z.bits_inj'. intros k ?.
    rewrite Z.ldiff_spec, Z.land_spec, Z.testbit_0_l. by destruct (Z.testbit MIE_MASK k); rewrite ?andb_false_r.
  - unfold nonzero in Hx. lia.
Qed.
