(* ===== verification/AluSpec.v ===== *)
(** * Integer computations of the ISA manual

    A reference semantics of the integer register-register and
    register-immediate instructions on words of [w] bits, as the ISA manual
    states it: words are unsigned numbers below 2^w, and results are reduced
    modulo 2^w.  The lemmas relate it to the computations of the simulators on
    two's complement integers. *)

From S2P Require Import Prelude Instr Decode Trap Csr Fp Iss IssExec IssLogic CoreInv IssValues.

(** [alu_spec w op x y]: the word [op] computes from the words [x] and [y]. *)
Definition alu_spec (w : Z) (op : Mapping) (x y : Z) : option Z :=
  match op with
  | ADD | ADDI => Some ((x + y) mod 2 ^ w)
  | SUB => Some ((x - y) mod 2 ^ w)
  | SLL | SLLI => Some ((x * 2 ^ (y mod w)) mod 2 ^ w)
  | SLT | SLTI => Some (if sint w x <? sint w y then 1 else 0)
  | SLTU | SLTIU => Some (if x <? y then 1 else 0)
  | XOR | XORI => Some (Z.lxor x y)
  | OR | ORI => Some (Z.lor x y)
  | AND | ANDI => Some (Z.land x y)
  | SRL | SRLI => Some (x / 2 ^ (y mod w))
  | SRA | SRAI => Some ((sint w x / 2 ^ (y mod w)) mod 2 ^ w)
  | MUL => Some ((x * y) mod 2 ^ w)
  | MULH => Some ((sint w x * sint w y / 2 ^ w) mod 2 ^ w)
  | MULHSU => Some ((sint w x * y / 2 ^ w) mod 2 ^ w)
  | MULHU => Some (x * y / 2 ^ w)
  | DIV => Some (if y =? 0 then 2 ^ w - 1 else Z.quot (sint w x) (sint w y) mod 2 ^ w)
  | DIVU => Some (if y =? 0 then 2 ^ w - 1 else x / y)
  | REM => Some (if y =? 0 then x else Z.rem (sint w x) (sint w y) mod 2 ^ w)
  | REMU => Some (if y =? 0 then x else x mod y)
  | _ => None
  end.

(** ** Words and integers *)

Section words.
Context (w : Z) (Hw : 1 < w).

Lemma sint_uint_id a : is_sint w a -> sint w (uint w a) = a.
Proof using Hw. intros. rewrite sint_uint by lia. by apply sint_id; [lia |]. Qed.

Lemma sint_modulus v : sint w (v mod 2 ^ w) = sint w v.
Proof using Hw. change (v mod 2 ^ w) with (uint w v). apply sint_uint. lia. Qed.

(** [sint] is a function of the value modulo 2^w. *)
Lemma sint_eq_mod a b : a mod 2 ^ w = b mod 2 ^ w -> sint w a = sint w b.
Proof using Hw. intros E. rewrite <- (sint_modulus a), <- (sint_modulus b). by rewrite E. Qed.

Lemma modulus_pos : 0 < 2 ^ w.
Proof using Hw. apply Z.pow_pos_nonneg; lia. Qed.

Lemma uint_modulus a : uint w a mod 2 ^ w = a mod 2 ^ w.
Proof using Hw. apply Z.mod_mod. pose proof modulus_pos. lia. Qed.

(** ** The value each instruction writes is the one of the reference *)

Lemma word_sll a n : 0 <= n -> sint w (a .<< n) = sint w ((uint w a * 2 ^ n) mod 2 ^ w).
Proof using Hw.
  intros. pose proof modulus_pos. rewrite sint_modulus, Z.shiftl_mul_pow2 by lia. apply sint_eq_mod.
  rewrite (Z.mul_mod (uint w a)), uint_modulus, <- Z.mul_mod by lia. done.
Qed.

Lemma word_sra a n : is_sint w a -> 0 <= n -> a .>> n = sint w ((a / 2 ^ n) mod 2 ^ w).
Proof using Hw.
  intros. rewrite sint_modulus, <- Z.shiftr_div_pow2 by lia. symmetry. apply sint_id; [lia |].
  apply is_sint_shiftr; [lia | lia | done].
Qed.

Lemma word_srl a n : 0 <= n -> sint w (uint w a .>> n) = sint w (uint w a / 2 ^ n).
Proof using. intros. by rewrite Z.shiftr_div_pow2. Qed.

Lemma word_add a b : sint w (a + b) = sint w ((uint w a + uint w b) mod 2 ^ w).
Proof using Hw.
  pose proof modulus_pos. rewrite sint_modulus. apply sint_eq_mod.
  rewrite (Z.add_mod (uint w a)), !uint_modulus, <- Z.add_mod by lia. done.
Qed.

Lemma word_sub a b : sint w (a - b) = sint w ((uint w a - uint w b) mod 2 ^ w).
Proof using Hw.
  rewrite sint_modulus. apply sint_eq_mod. rewrite (Zminus_mod (uint w a)), !uint_modulus.
  apply Zminus_mod.
Qed.

Lemma word_bool (b : bool) : b2z b = sint w (if b then 1 else 0).
Proof using Hw.
  symmetry. pose proof (Z.pow_gt_1 2 (w - 1)).
  destruct b; apply sint_id; unfold is_sint; cbn; lia.
Qed.

Lemma word_lxor a b :
  is_sint w a -> is_sint w b -> sint w (Z.lxor (uint w a) (uint w b)) = Z.lxor a b.
Proof using Hw.
  intros. apply (sint_bits_inj w); [lia | apply sint_range; lia | apply is_sint_lxor; (done || lia) |].
  intros k ?. by rewrite sint_testbit, !Z.lxor_spec, !uint_testbit_low by lia.
Qed.
Lemma word_lor a b :
  is_sint w a -> is_sint w b -> sint w (Z.lor (uint w a) (uint w b)) = Z.lor a b.
Proof using Hw.
  intros. apply (sint_bits_inj w); [lia | apply sint_range; lia | apply is_sint_lor; (done || lia) |].
  intros k ?. by rewrite sint_testbit, !Z.lor_spec, !uint_testbit_low by lia.
Qed.
Lemma word_land a b :
  is_sint w a -> is_sint w b -> sint w (Z.land (uint w a) (uint w b)) = Z.land a b.
Proof using Hw.
  intros. apply (sint_bits_inj w); [lia | apply sint_range; lia | apply is_sint_land; (done || lia) |].
  intros k ?. by rewrite sint_testbit, !Z.land_spec, !uint_testbit_low by lia.
Qed.

(** The product, and its upper half. *)
Lemma word_mul a b : sint w (a * b) = sint w ((uint w a * uint w b) mod 2 ^ w).
Proof using Hw.
  pose proof modulus_pos. rewrite sint_modulus. apply sint_eq_mod.
  rewrite (Z.mul_mod (uint w a)), !uint_modulus, <- Z.mul_mod by lia. done.
Qed.

Lemma word_high p : sint w (sint (2 * w) p .>> w) = sint w ((p / 2 ^ w) mod 2 ^ w).
Proof using Hw.
  rewrite sint_modulus, <- Z.shiftr_div_pow2 by lia.
  apply (sint_bits_inj w); [lia | apply sint_range; lia.. |]. intros k ?.
  by rewrite !sint_testbit, !Z.shiftr_spec, sint_testbit by lia.
Qed.

Lemma uint_eqb_0 b : is_sint w b -> (uint w b =? 0) = (b =? 0).
Proof using Hw.
  intros Hb. destruct (Z.eqb_spec b 0) as [->|Hn]; [done |]. apply Z.eqb_neq. intros E.
  apply Hn. rewrite <- (sint_uint_id b Hb), E. apply sint_id; [lia |].
  pose proof (Z.pow_pos_nonneg 2 (w - 1)). unfold is_sint. lia.
Qed.

Lemma word_div a b :
  is_sint w a -> is_sint w b -> b <> 0 ->
  (if (a =? - 2 ^ (w - 1)) && (b =? -1) then a else Z.quot a b) = sint w (Z.quot a b mod 2 ^ w).
Proof using Hw.
  intros Ha Hb Hb0. rewrite sint_modulus. destruct (_ && _) eqn:E.
  - apply andb_true_iff in E as [->%Z.eqb_eq ->%Z.eqb_eq].
    change (-1) with (- (1)). rewrite Z.quot_opp_r, Z.quot_1_r, Z.opp_involutive by lia.
    rewrite <- (sint_id w (- 2 ^ (w - 1))) at 1; [| lia |].
    + apply sint_eq_mod. replace (2 ^ w) with (2 ^ (w - 1) * 2)
        by (rewrite Z.mul_comm, <- Z.pow_succ_r by lia; f_equal; lia).
      replace (- 2 ^ (w - 1)) with (2 ^ (w - 1) + (-1) * (2 ^ (w - 1) * 2)) by lia.
      by rewrite Z.mod_add by (pose proof (Z.pow_pos_nonneg 2 (w - 1)); lia).
    + pose proof (Z.pow_pos_nonneg 2 (w - 1)). unfold is_sint. lia.
  - symmetry. apply sint_id; [lia |]. by apply quot_range_at.
Qed.

Lemma word_rem a b :
  is_sint w a -> is_sint w b -> b <> 0 ->
  (if (a =? - 2 ^ (w - 1)) && (b =? -1) then 0 else Z.rem a b) = sint w (Z.rem a b mod 2 ^ w).
Proof using Hw.
  intros Ha Hb Hb0. rewrite sint_modulus. destruct (_ && _) eqn:E.
  - apply andb_true_iff in E as [->%Z.eqb_eq ->%Z.eqb_eq].
    change (-1) with (- (1)). rewrite Z.rem_opp_r, Z.rem_1_r by lia. symmetry.
    apply sint_id; [lia |]. pose proof (Z.pow_pos_nonneg 2 (w - 1)). unfold is_sint. lia.
  - symmetry. apply sint_id; [lia |]. by apply rem_range_at.
Qed.

End words.
