(* ===== verification/IssSafe.v ===== *)
(** * Safety of the operations of a core

    For every operation of Iss.v: it preserves the invariant of IssInv.v, its
    assertions hold, and its traps have a valid cause and value. *)

From S2P Require Import Prelude Instr Trap Csr Fp Iss IssExec IssLogic IssInv IssValues.

Section operations.
Context {W : Type} `{Hplatform : platform_ok W} `{softfloat}.
Variable Fl : Z -> Prop.

Abbreviation R := (M (machine W) SimulationTrap).
Abbreviation any := (fun _ => True).

Lemma safe_REQUIRE_ISA X : safe Fl (REQUIRE_ISA X) any.
Proof. unfold REQUIRE_ISA. safe_tac. Qed.

Lemma csr_value_32 r v : csrs.is_64 r = false -> csr_value_ok r v -> is_uint 32 v.
Proof. intros Hr [Hv _]. unfold csr_width in Hv. by rewrite Hr in Hv. Qed.

Hint Resolve safe_REQUIRE_ISA : vp_safe.

Lemma safe_execute_amo i operation :
  (forall a b, is_sint 32 a -> is_sint 32 b -> is_sint 32 (operation a b)) ->
  safe Fl (execute_amo i operation) any.
Proof.
  intros Hop. unfold execute_amo. safe_step. cbv zeta.
  assert (Haddr : is_uint 32 (uint32 a)) by (apply uint_range; lia).
  safe_step. eapply safe_bind with (Q := is_sint 32).
  - eapply triple_try_catch; [apply safe_access, atomic_load_word_ok; done |].
    intros e s [[Hr Hv] Hs]. split; [| done]. destruct (_ =? _); by split.
  - intros d Hd. safe_step. safe_step.
    + apply safe_access, atomic_store_word_ok; [done | apply uint_range; lia].
    + apply safe_set_reg. apply sint_range. lia.
Qed.

Lemma safe_is_invalid_csr_access addr w : safe Fl (is_invalid_csr_access addr w) any.
Proof. unfold is_invalid_csr_access. by safe_tac. Qed.

Lemma safe_validate addr : safe Fl (validate_csr_counter_read_access_rights addr) any.
Proof. unfold validate_csr_counter_read_access_rights. safe_tac. Qed.

Lemma default_read_ok addr t :
  csrs_ok t -> is_valid_csr32_addr addr = true ->
  exists v, default_read32 t addr = Some v /\ is_uint 32 v.
Proof.
  unfold is_valid_csr32_addr, default_read32. intros Ht.
  destruct (register_mapping addr) as [p|] eqn:Hp; [| done]. intros _. simpl.
  eexists. split; [done |]. apply ptr_read_range; [by apply csrs_ok_wf |].
  by eapply register_mapping_ok.
Qed.

Lemma safe_get_csr_default addr : safe Fl (get_csr_default addr) (is_uint 32).
Proof.
  unfold get_csr_default.
  destruct (is_valid_csr32_addr addr) eqn:Hv; cbn [negb when].
  - eapply safe_bind; [apply safe_skip |]. intros _ _.
    eapply safe_bind.
    + apply (safe_read _ _ (fun o => exists v, o = Some v /\ is_uint 32 v)).
      intros s Hs. apply default_read_ok; [apply Hs | done].
    + intros o (v & -> & ?). by apply safe_ret.
  - eapply safe_bind; [apply (safe_illegal _ (fun _ => False)) | done].
Qed.

Lemma safe_get_csr_value addr : safe Fl (get_csr_value addr) (is_uint 32).
Proof.
  unfold get_csr_value. safe_step; [apply safe_validate |].
  assert (Htime : forall f : Z -> Z, (forall v, is_uint 32 (f v)) ->
    safe Fl (mtime ← update_and_get_mtime; set_csr csrs.time mtime ;; mret (f mtime)) (is_uint 32)).
  { intros f Hf. safe_step; [apply safe_env, update_and_get_mtime_ok |]. 
    safe_step; [by apply safe_set_csr |]. by apply safe_ret. }
  assert (Hcycle : forall f : Z -> Z, (forall v, is_uint 32 (f v)) ->
    safe Fl (c ← _compute_and_get_current_cycles; set_csr csrs.cycle c ;; mret (f c)) (is_uint 32)).
  { intros f Hf. safe_step; [apply safe_cycles |]. 
    safe_step; [by apply safe_set_csr |]. by apply safe_ret. }
  assert (Hptr : forall p, ptr_ok p ->
    safe Fl (read (fun s => ptr_read (csr_regs s) p)) (is_uint 32)).
  { intros p Hp. apply safe_read. intros s Hs. apply ptr_read_range; [| done].
    apply csrs_ok_wf, Hs. }
  assert (Hconst : forall v, is_uint 32 v -> safe Fl (mret v) (is_uint 32)).
  { intros. by apply safe_ret. }
  pose proof safe_get_csr_default as Hdefault.
  assert (Hfield : forall r f, bf_wf f -> bf_width f <= 32 ->
    safe Fl (csr_field r f) (is_uint 32)).
  { intros r f Hf ?. eapply safe_conseq; [by apply safe_csr_field |].
    intros v Hv. by eapply is_uint_weaken. }
  repeat match goal with |- safe _ (if ?b then _ else _) _ => destruct b end;
    first
      [ apply (Htime uint32); intros; apply uint_range; lia
      | apply (Htime (fun v => uint32 (v .>> 32))); intros; apply uint_range; lia
      | apply (Hcycle uint32); intros; apply uint_range; lia
      | apply (Hcycle (fun v => uint32 (v .>> 32))); intros; apply uint_range; lia
      | apply Hptr; reflexivity
      | apply Hconst; done
      | apply safe_csr_read; reflexivity
      | apply Hfield; [by split | done]
      | apply Hdefault
      | safe_step; safe_step; apply Hdefault ].
Qed.

Lemma safe_set_csr_default addr v :
  ~ In addr special_addrs ->
  is_uint 32 v -> safe Fl (set_csr_default addr v) any.
Proof.
  intros Haddr Hv. unfold set_csr_default.
  destruct (is_valid_csr32_addr addr) eqn:Hvalid; cbn [negb when].
  - eapply safe_bind; [apply safe_skip |]. intros _ _.
    eapply safe_bind.
    + apply (safe_read _ _ (fun o => exists t, o = Some t /\ csrs_ok t)).
      intros s Hs. destruct (default_write32 addr v (csr_regs s)) as [t|] eqn:Ht.
      * eexists. split; [done |]. eapply default_write_ok; [done | done | apply Hs | done].
      * unfold default_write32, is_valid_csr32_addr in *. by destruct (register_mapping addr).
    + intros o (t & -> & Ht). apply safe_update; [| done]. intros. by apply core_ok_set_csrs.
  - eapply safe_bind; [apply (safe_illegal _ (fun _ => False)) | done].
Qed.

Lemma safe_set_csr_value addr v : is_uint 32 v -> safe Fl (set_csr_value addr v) any.
Proof.
  intros Hv. unfold set_csr_value. safe_step.
  assert (Hmask : is_uint 32 (pc_alignment_mask a) /\ even (pc_alignment_mask a)).
  { destruct Ha as [_ Hm]. by rewrite misa_ok_mask. }
  destruct Hmask as [Hmask1 Hmask2].
  repeat match goal with |- safe _ (if ?b then _ else _) _ => destruct b eqn:? end;
    lazymatch goal with
    | |- safe _ skip _ => apply safe_skip
    | |- safe _ (csr_write _ _ _) _ => apply safe_csr_write; [reflexivity | done | done]
    | |- safe _ (mbind _ _) _ =>
        safe_step; safe_step; apply safe_csr_write; [reflexivity | done | done]
    | |- safe _ (set_csr_default _ _) _ => idtac
    | |- _ => safe_tac
    end.
  apply safe_set_csr_default; [| done].
  repeat match goal with E : (_ || _) = false |- _ => apply orb_false_elim in E as [??] end.
  repeat match goal with E : (_ =? _) = false |- _ => apply Z.eqb_neq in E end.
  cbn [In special_addrs]. intuition congruence.
Qed.

(** ** Floating point *)

Lemma safe_fp_set_dirty : safe Fl fp_set_dirty any.
Proof. unfold fp_set_dirty. safe_tac. Qed.

(** ** Interrupt lines and the interfaces of other parts of the platform *)

(** ** Traps and interrupts *)

Lemma safe_lexical_cast v : is_uint 32 v -> safe Fl (lexical_cast_u32 v) (is_uint 32).
Proof.
  intros Hv. unfold lexical_cast_u32. destruct (Z.ltb_spec v (2 ^ 32)); [by apply safe_ret |].
  unfold is_uint in Hv. lia.
Qed.

Lemma safe_write_cause cause tval e :
  plain_csr cause -> plain_csr tval -> trap_ok e -> safe Fl (write_cause cause tval e) any.
Proof.
  intros ?? [_ Hv]. unfold write_cause.
  eapply safe_bind; [apply safe_set_plain_field; [done | by split | done] | intros _ _].
  eapply safe_bind; [apply safe_set_plain_field; [done | by split | done] | intros _ _].
  eapply safe_bind; [by apply safe_lexical_cast |]. intros v ?. by apply safe_set_plain.
Qed.

Lemma safe_prepare_trap e : trap_ok e -> safe Fl (prepare_trap e) trap_mode.
Proof.
  intros He. unfold prepare_trap. safe_step. safe_step; [by apply safe_write_pc |]. cbv zeta.
  assert (Hwrite : forall cause tval mode, plain_csr cause -> plain_csr tval -> trap_mode mode ->
    safe Fl (write_cause cause tval e ;; mret mode) trap_mode).
  { intros cause tval mode ???. eapply safe_bind; [by apply safe_write_cause |].
    intros. by apply safe_ret. }
  apply safe_read_at. intros prv s [Hs Hprv].
  unfold mbind at 1 2, M_bind at 1 2. unfold csr_reg, read, gets.
  set (medeleg := csr_get _ csrs.medeleg). set (sedeleg := csr_get _ csrs.sedeleg).
  assert (Hp : 0 <= prv <= 3) by (rewrite <- Hprv; apply Hs).
  destruct (Z.eqb_spec prv MachineMode) as [HM|HM]; cbn [orb].
  { apply Hwrite; [by split | by split | by left | done]. }
  destruct (nonzero (_ .& medeleg)) eqn:Hm; cbn [negb];
    [| apply Hwrite; [by split | by split | by left | done]].
  destruct (Z.eqb_spec prv SupervisorMode) as [HS|HS]; cbn [orb].
  { apply Hwrite; [by split | by split | by right; left | done]. }
  destruct (nonzero (_ .& sedeleg)) eqn:Hsd; cbn [negb];
    [| apply Hwrite; [by split | by split | by right; left | done]].
  destruct (Z.eqb_spec prv UserMode) as [HU|HU]; cbn [andb assert].
  - apply Hwrite; [by split | by split | by right; right | done].
  - right. split; [unfold MachineMode, SupervisorMode, UserMode, HypervisorMode in *; simpl; lia | by left].
Qed.

Lemma safe_write_interrupt_cause cause exc :
  plain_csr cause -> safe Fl (write_interrupt_cause cause exc) any.
Proof.
  intros. unfold write_interrupt_cause.
  eapply safe_bind; [| intros _ _]; apply safe_set_plain_field; (done || by split).
Qed.

Lemma safe_prepare_interrupt x : interrupt_ok x -> safe Fl (prepare_interrupt x) any.
Proof.
  intros [Hmode Hcode]. unfold prepare_interrupt.
  destruct (interrupt_code (pending x)); [| done].
  destruct Hmode as [-> | [-> | ->]]; apply safe_write_interrupt_cause; by split.
Qed.

Lemma handler_address_ok tvec cause :
  is_uint 32 (handler_address tvec cause) /\ even (handler_address tvec cause).
Proof.
  unfold handler_address, mtvec.get_base_address. split.
  - destruct (_ && _); apply uint_range; lia.
  - destruct (_ && _); [apply even_vector; [done |] |]; by apply even_base.
Qed.

Lemma safe_jump_to_handler tvec cause : safe Fl (jump_to_handler tvec cause) any.
Proof.
  unfold jump_to_handler. do 2 safe_step. apply safe_write_pc; apply handler_address_ok.
Qed.

Lemma safe_switch_to_trap_handler mode :
  trap_mode mode -> safe Fl (switch_to_trap_handler mode) any.
Proof.
  intros Hmode. unfold switch_to_trap_handler. safe_step. safe_step.
  destruct Hmode as [-> | [-> | ->]]; cbn [Z.eqb Pos.eqb MachineMode SupervisorMode UserMode].
  - eapply safe_bind; [by apply safe_set_prv | intros _ _].
    repeat first [ safe_step | apply safe_save_pc; [tauto | done | done] | apply safe_jump_to_handler ].
  - apply (safe_set_prv_assert _ _ (fun p => (p =? 1) || (p =? 0))); [done | done |].
    repeat first [ safe_step | apply safe_save_pc; [tauto | done | done] | apply safe_jump_to_handler ].
  - apply (safe_set_prv_assert _ _ (fun p => p =? 0)); [done | done |].
    repeat first [ safe_step | apply safe_save_pc; [tauto | done | done] | apply safe_jump_to_handler ].
Qed.

Lemma safe_performance_and_sync_update op :
  safe Fl (performance_and_sync_update op) any.
Proof.
  unfold performance_and_sync_update.
  eapply safe_bind; [apply safe_update; [intros; by apply core_ok_set_total | done] | intros _ _].
  safe_step. safe_step.
  { safe_tac. apply safe_set_csr. split; [by apply (uint_range 64) | done]. }
  eapply safe_bind; [apply (safe_read _ _ (fun c => 0 <= c <= 17)); intros s Hs; apply Hs |].
  intros counter Hcounter. cbv beta in Hcounter. safe_step.
  { safe_step. unfold nonzero in *. safe_step.
    { apply safe_update; [| done]. intros. apply core_ok_set_counter; [lia | done]. }
    safe_step; [apply safe_assert; lia |]. safe_tac. }
  safe_step.
  safe_step.
  { safe_step. apply safe_update; [| done]. intros. apply core_ok_add_cycles; by destruct op. }
  safe_step; [apply safe_env, quantum_keeper_inc_ok |].
  safe_step; [apply safe_env, quantum_keeper_need_sync_ok |].
  safe_tac. apply safe_wait, quantum_keeper_sync_ok.
Qed.

End operations.

(** The decision of compute_pending_interrupts is nothing, or an interrupt that
    prepare_interrupt accepts. *)
Lemma pending_interrupts_ok s :
  core_ok s ->
  target_mode (pending_interrupts s) = NoneMode \/ interrupt_ok (pending_interrupts s).
Proof.
  intros Hs. unfold pending_interrupts.
  pose proof (ok_csrs Hs csrs.mie) as [Hmie Hmask]. simpl in Hmask.
  set (p := csr_get _ csrs.mie .& csr_get _ csrs.mip).
  assert (Hp : forall x, nonzero (p .& x) = true -> interrupt_code (p .& x) <> None).
  { intros x. unfold p. rewrite <- Z.land_assoc. by apply interrupt_code_enabled. }
  destruct (p =? 0); [by left |].
  destruct (nonzero (p .& _)) eqn:E; simpl;
    [destruct (_ || _); simpl; [right; split; [by left | by apply Hp] |] |];
    rewrite <- !Z.land_assoc;
    (destruct (nonzero (p .& (csr_get _ csrs.mideleg .& uint32 _))) eqn:E2; simpl;
     [destruct (_ || _); simpl; [right; split; [by right; left | by apply Hp] |] |];
     (destruct (nonzero (p .& (csr_get _ csrs.mideleg .& csr_get _ csrs.sideleg))) eqn:E3; simpl;
      [destruct (_ && _); simpl; [right; split; [by right; right | by apply Hp] |] |]);
     by left).
Qed.

(** The extensions the core implements are enabled. *)
Lemma require_isa_run {W} (X : Z) (s : machine W) :
  core_ok (core s) -> In X [A_ISA_EXT; C_ISA_EXT; F_ISA_EXT; M_ISA_EXT] ->
  REQUIRE_ISA X s = (Ret tt, s).
Proof.
  intros Hs HX. unfold REQUIRE_ISA, mbind, M_bind, csr_reg, read, gets.
  pose proof (ok_csrs Hs csrs.misa) as [_ Hm]. by rewrite (misa_ok_has _ _ Hm HX).
Qed.
