(* ===== verification/IssExecSafe.v ===== *)
(** * Safety of the execution of an instruction

    Every step of a core preserves its invariant; no assertion of exec_step and
    run_step fails, and the exception flags of the SoftFloat library are clear
    between instructions, as fp_prepare_instr assumes. *)

From S2P Require Import Prelude Instr Decode Compressed Trap Csr Fp Iss IssExec IssLogic IssInv CoreFp CoreStep IssValues IssSafe RamPlatform.

#[export] Hint Resolve safe_REQUIRE_ISA safe_fp_set_dirty
  safe_get_csr_value safe_set_csr_value : vp_safe.

#[local] Set Default Proof Using "Type*".

Abbreviation step_ok := (step_inv (xlen := 32) (misa_inv := misa_ok)).

Section exec.
Context {W : Type} `{Hplatform : platform_ok W} `{Hsf : softfloat_ok}.

Abbreviation R := (M (machine W) SimulationTrap).
Abbreviation any := (fun _ => True).
Abbreviation clear := (fun flags : Z => flags = 0).

(** ** The window in which exception flags may be set *)

Lemma calm_set_dirty : calm fp_set_dirty any.
Proof.
  unfold fp_set_dirty. eapply calm_bind; [| intros _ _];
    apply calm_update, safe_set_csr_field; (done || by split).
Qed.

(** The flags are transferred to [fcsr] and cleared. *)

Lemma safe_fp_rounding (f : Z -> Z * Z) (Q : Z -> Prop) (write : Z -> R unit) :
  (forall rm, Q (fst (f rm)) /\ is_uint 5 (snd (f rm))) ->
  (forall v, Q v -> calm (write v) any) ->
  safe clear (fp_rounding f write) any.
Proof.
  intros Hf Hw. exact (safe_rounding _ calm_set_dirty f Q write Hf Hw).
Qed.

(** ** The groups of instructions *)

Lemma safe_exec_alu i op : is_sint 32 i -> safe clear (exec_alu i op) any.
Proof.
  intros Hi. unfold exec_alu. do 2 safe_step.
  eapply safe_bind with (Q := fun n => 0 <= n < 32);
    [apply safe_read; intros; apply RegFile_shamt_range |].
  intros n Hn. cbv beta in Hn. pose proof (shamt_range i).
  destruct op; try_skip; apply safe_set_reg;
    first [ solve [auto with vp_sint] | apply is_sint_shiftr_32; [lia | done] ].
Qed.

Lemma safe_exec_jump i op : is_sint 32 i -> safe clear (exec_jump i op) any.
Proof.
  intros Hi. unfold exec_jump. safe_step.
  destruct op; try_skip.
  - apply safe_set_reg. auto with vp_sint.
  - apply safe_set_reg. auto with vp_sint.
  - safe_step. safe_step; [apply safe_write_pc; [apply uint_uint32 |] |].
    { apply even_add; [done | by apply J_imm_even]. }
    safe_step. apply safe_set_reg. auto with vp_sint.
  - do 2 safe_step. safe_step; [apply safe_write_pc; [apply uint_uint32 | apply even_clear_bit0] |].
    safe_step. apply safe_set_reg. auto with vp_sint.
Qed.

Lemma safe_exec_mem i op : safe clear (exec_mem i op) any.
Proof.
  unfold exec_mem. do 2 safe_step. cbv zeta.
  assert (H8 : is_uint 8 (uint8 a0)) by (apply uint_range; lia).
  assert (H16 : is_uint 16 (uint16 a0)) by (apply uint_range; lia).
  pose proof (uint_uint32 (a + S_imm i)). pose proof (uint_uint32 (a + I_imm i)).
  pose proof (uint_uint32 a0).
  destruct op; try_skip.
  - eapply safe_bind; [by apply safe_access, load_byte_ok |]. intros. apply safe_set_reg, sint_int32.
  - eapply safe_load; [done | by apply load_half_ok |]. intros. apply safe_set_reg, sint_int32.
  - eapply safe_load; [done | by apply load_word_ok |]. intros. apply safe_set_reg, sint_int32.
  - eapply safe_bind; [by apply safe_access, load_ubyte_ok |]. intros. apply safe_set_reg, sint_int32.
  - eapply safe_load; [done | by apply load_uhalf_ok |]. intros. apply safe_set_reg, sint_int32.
  - by apply safe_access, store_byte_ok.
  - safe_step. by apply safe_access, store_half_ok.
  - safe_step. by apply safe_access, store_word_ok.
Qed.

Lemma safe_exec_branch i op : is_sint 32 i -> safe clear (exec_branch i op) any.
Proof.
  intros Hi. unfold exec_branch. do 3 safe_step. safe_step.
  safe_step; [apply safe_write_pc; [apply uint_uint32 |] |].
  { apply even_add; [done | by apply B_imm_even]. }
  safe_tac.
Qed.

(** ** Zicsr *)

Lemma zimm_range i : is_sint 32 (zimm i).
Proof.
  unfold zimm, BIT_RANGE. apply is_sint_of_uint; [lia |].
  change (int32 _) with 0xf8000. range_tac.
Qed.

Lemma safe_exec_csrrw i value :
  safe clear value (is_sint 32) -> safe clear (exec_csrrw i value) any.
Proof.
  intros Hv. unfold exec_csrrw. safe_step; [apply safe_is_invalid_csr_access |].
  safe_step; [safe_tac |]. safe_step. safe_step.
  - safe_step. safe_step. apply safe_set_reg, sint_int32.
  - apply safe_set_csr_value, uint_uint32.
Qed.

Lemma safe_exec_csr_update i w value f :
  safe clear value (is_sint 32) ->
  (forall x v, is_uint 32 x -> is_uint 32 v -> is_uint 32 (f x v)) ->
  safe clear (exec_csr_update i w value f) any.
Proof.
  intros Hv Hf. unfold exec_csr_update. safe_step; [apply safe_is_invalid_csr_access |].
  safe_step; [safe_tac |]. do 2 safe_step. safe_step.
  - safe_step. apply safe_set_reg, sint_int32.
  - safe_step. apply safe_set_csr_value, Hf; [done | apply uint_uint32].
Qed.

Lemma safe_exec_csr i op : safe clear (exec_csr i op) any.
Proof.
  assert (Hset : forall x v, is_uint 32 x -> is_uint 32 v -> is_uint 32 (csr_set_bits x v))
    by (intros; by apply is_uint_lor).
  assert (Hclr : forall x v, is_uint 32 x -> is_uint 32 v -> is_uint 32 (csr_clear_bits x v))
    by (intros; by apply is_uint_land_l).
  assert (Hz : safe clear (mret (zimm i)) (is_sint 32)) by apply safe_ret, zimm_range.
  pose proof (safe_reg clear (rs1 i)) as Hr.
  unfold exec_csr. destruct op; try_skip;
    lazymatch goal with
    | |- safe _ (exec_csrrw _ _) _ => by apply safe_exec_csrrw
    | |- safe _ (exec_csr_update _ _ _ _) _ => by apply safe_exec_csr_update
    end.
Qed.

(** ** RV32M and RV32A *)

Lemma safe_exec_muldiv i op : safe clear (exec_muldiv i op) any.
Proof.
  unfold exec_muldiv. eapply safe_bind; [apply safe_REQUIRE_ISA | intros _ _]. do 2 safe_step.
  destruct op; try_skip; lazymatch goal with |- safe _ (set_reg _ (int32 _)) _ => apply safe_set_reg, sint_int32 | _ => idtac end.
  - safe_step; [by apply safe_set_reg |]. safe_step; [by apply safe_set_reg |].
    apply safe_set_reg, quot_range; (done || lia).
  - safe_step; [by apply safe_set_reg |]. apply safe_set_reg, sint_int32.
  - safe_step; [by apply safe_set_reg |]. safe_step; [by apply safe_set_reg |].
    apply safe_set_reg, rem_range; (done || lia).
  - safe_step; [by apply safe_set_reg |]. apply safe_set_reg, sint_int32.
Qed.

Lemma amo_operation_range op a b :
  is_sint 32 a -> is_sint 32 b -> is_sint 32 (amo_operation op a b).
Proof.
  intros. destruct op; simpl; auto with vp_sint; unfold is_sint in *; lia.
Qed.

Lemma safe_exec_amo i op : safe clear (exec_amo i op) any.
Proof.
  unfold exec_amo. eapply safe_bind; [apply safe_REQUIRE_ISA | intros _ _].
  destruct op;
    lazymatch goal with
    | |- safe _ (execute_amo _ _) _ =>
        apply safe_execute_amo; intros; apply amo_operation_range; assumption
    | _ => idtac
    end.
  - safe_step. cbv zeta. pose proof (uint_uint32 a). safe_step.
    eapply safe_bind; [by apply safe_access, atomic_load_reserved_word_ok |]. intros v Hv.
    safe_step; [apply safe_set_reg, sint_int32 |]. safe_step. safe_step.
    apply safe_update; [| done]. intros. by apply core_ok_set_counter.
  - safe_step. cbv zeta. pose proof (uint_uint32 a). do 2 safe_step.
    safe_step; [by apply safe_set_reg |].
    eapply safe_bind; [apply safe_access, atomic_store_conditional_word_ok; [done | apply uint_uint32] |].
    intros ok _. safe_step; [apply safe_set_reg; by destruct ok |].
    apply safe_update; [| done]. intros. by apply core_ok_set_counter.
Qed.

(** ** RV32F and RV32D *)

Lemma safe_exec_flw_fsw i op : safe clear (exec_flw_fsw i op) any.
Proof.
  unfold exec_flw_fsw. eapply safe_bind; [apply safe_REQUIRE_ISA | intros _ _]. safe_step.
  pose proof (uint_uint32 (a + S_imm i)). pose proof (uint_uint32 (a + I_imm i)).
  destruct op; try_skip; cbv zeta; safe_step.
  - eapply safe_bind; [by apply safe_access, load_word_ok |]. intros.
    apply safe_fp_set_f32, uint_uint32.
  - safe_step. by apply safe_access, store_word_ok.
Qed.

Lemma safe_exec_fld_fsd i op : safe clear (exec_fld_fsd i op) any.
Proof.
  unfold exec_fld_fsd. eapply safe_bind; [apply safe_REQUIRE_ISA | intros _ _]. safe_step.
  pose proof (uint_uint32 (a + S_imm i)). pose proof (uint_uint32 (a + I_imm i)).
  destruct op; try_skip; cbv zeta; safe_step.
  - eapply safe_bind; [by apply safe_access, load_double_ok |]. intros.
    apply safe_fp_set_f64, (uint_range 64). lia.
  - safe_step. by apply safe_access, store_double_ok.
Qed.

(** A library call whose result is written as an [f32], an [f64] or an integer. *)
Lemma rounding_f32 f i :
  (forall rm, f32_result (f rm)) -> safe clear (fp_rounding f (fp_set_f32 i)) any.
Proof. intros Hf. eapply safe_fp_rounding; [apply Hf | intros; by apply calm_fp_set_f32]. Qed.
Lemma rounding_f64 f i :
  (forall rm, f64_result (f rm)) -> safe clear (fp_rounding f (fp_set_f64 i)) any.
Proof. intros Hf. eapply safe_fp_rounding; [apply Hf | intros; by apply calm_fp_set_f64]. Qed.
Lemma rounding_int f i :
  (forall rm, flags_result (f rm)) ->
  safe clear (fp_rounding f (fun v => set_reg i (int32 v))) any.
Proof.
  intros Hf. eapply (safe_fp_rounding _ any); [split; [done | apply Hf] |].
  intros. by apply calm_set_reg, sint_int32.
Qed.

Ltac rounding_tac :=
  lazymatch goal with
  | |- safe _ (fp_rounding _ (fp_set_f32 _)) _ => apply rounding_f32; intros; apply Hsf
  | |- safe _ (fp_rounding _ (fp_set_f64 _)) _ => apply rounding_f64; intros; apply Hsf
  | |- safe _ (fp_rounding _ (fun _ => set_reg _ _)) _ => apply rounding_int; intros; apply Hsf
  | |- _ => idtac
  end.

Lemma safe_exec_f_arith i op : safe clear (exec_f_arith i op) any.
Proof.
  unfold exec_f_arith. eapply safe_bind; [apply safe_REQUIRE_ISA | intros _ _].
  do 3 safe_step. cbv zeta. destruct op; try_skip; rounding_tac.
Qed.

Lemma safe_exec_d_arith i op : safe clear (exec_d_arith i op) any.
Proof.
  unfold exec_d_arith. eapply safe_bind; [apply safe_REQUIRE_ISA | intros _ _].
  do 3 safe_step. cbv zeta. destruct op; try_skip; rounding_tac.
Qed.

Lemma safe_exec_f_convert i op : safe clear (exec_f_convert i op) any.
Proof.
  unfold exec_f_convert. eapply safe_bind; [apply safe_REQUIRE_ISA | intros _ _].
  do 2 safe_step. destruct op; try_skip; rounding_tac.
Qed.

Lemma safe_exec_d_convert i op : safe clear (exec_d_convert i op) any.
Proof.
  unfold exec_d_convert. eapply safe_bind; [apply safe_REQUIRE_ISA | intros _ _].
  do 3 safe_step. destruct op; try_skip; rounding_tac.
Qed.

Lemma safe_exec_f_minmax i op : safe clear (exec_f_minmax i op) any.
Proof.
  unfold exec_f_minmax. eapply safe_bind; [apply safe_REQUIRE_ISA | intros _ _].
  eapply safe_bind; [apply safe_fp_prepare | intros _ _]. do 2 safe_step.
  apply (safe_finish _ calm_set_dirty _ any (fun b : bool =>
    if f32_isNaN a && f32_isNaN a0 then fp_set_f32 (rd i) f32_defaultNaN
    else if b then fp_set_f32 (rd i) a else fp_set_f32 (rd i) a0)).
  - assert (Hmin : calm (fp_smaller (f32_lt_quiet a a0) (f32_eq a a0) (f32_isNegative a)) any)
      by (apply calm_fp_smaller; apply Hsf).
    assert (Hmax : calm (fp_smaller (f32_lt_quiet a0 a) (f32_eq a0 a) (f32_isNegative a0)) any)
      by (apply calm_fp_smaller; apply Hsf).
    by destruct op.
  - intros b _. by destruct (_ && _), b; apply calm_fp_set_f32.
Qed.

Lemma safe_exec_d_minmax i op : safe clear (exec_d_minmax i op) any.
Proof.
  unfold exec_d_minmax. eapply safe_bind; [apply safe_REQUIRE_ISA | intros _ _].
  eapply safe_bind; [apply safe_fp_prepare | intros _ _]. do 2 safe_step.
  apply (safe_finish _ calm_set_dirty _ any (fun b : bool =>
    if f64_isNaN a && f64_isNaN a0 then fp_set_f64 (rd i) f64_defaultNaN
    else if b then fp_set_f64 (rd i) a else fp_set_f64 (rd i) a0)).
  - assert (Hmin : calm (fp_smaller (f64_lt_quiet a a0) (f64_eq a a0) (f64_isNegative a)) any)
      by (apply calm_fp_smaller; apply Hsf).
    assert (Hmax : calm (fp_smaller (f64_lt_quiet a0 a) (f64_eq a0 a) (f64_isNegative a0)) any)
      by (apply calm_fp_smaller; apply Hsf).
    by destruct op.
  - intros b _. by destruct (_ && _), b; apply calm_fp_set_f64.
Qed.

Lemma safe_exec_f_move i op : safe clear (exec_f_move i op) any.
Proof.
  unfold exec_f_move. eapply safe_bind; [apply safe_REQUIRE_ISA | intros _ _].
  eapply safe_bind; [apply safe_fp_prepare | intros _ _]. do 2 safe_step.
  destruct op; try_skip; safe_step.
  - apply safe_fp_set_f32. by apply f32_sgnj_range.
  - safe_tac.
  - apply safe_fp_set_f32. by apply f32_sgnj_range.
  - safe_tac.
  - by apply safe_fp_set_f32, f32_sgnjx_range.
  - safe_tac.
  - apply safe_set_reg, sint_int32.
  - safe_step; [apply safe_fp_set_f32, uint_uint32 | safe_tac].
Qed.

Lemma safe_exec_d_move i op : safe clear (exec_d_move i op) any.
Proof.
  unfold exec_d_move. eapply safe_bind; [apply safe_REQUIRE_ISA | intros _ _].
  eapply safe_bind; [apply safe_fp_prepare | intros _ _]. do 2 safe_step.
  destruct op; try_skip; safe_step.
  - apply safe_fp_set_f64. by apply f64_sgnj_range.
  - safe_tac.
  - apply safe_fp_set_f64. by apply f64_sgnj_range.
  - safe_tac.
  - by apply safe_fp_set_f64, f64_sgnjx_range.
  - safe_tac.
Qed.

Ltac compare_tac i :=
  lazymatch goal with
  | |- safe _ (set_reg _ _) _ => apply safe_set_reg, sint_int32
  | |- safe _ (mbind _ _) _ => apply (safe_compare _ calm_set_dirty _ (fun v => set_reg (rd i) (b2z v))); [apply Hsf | intros; apply calm_set_reg, sint_b2z]
  end.

Lemma safe_exec_f_compare i op : safe clear (exec_f_compare i op) any.
Proof.
  unfold exec_f_compare. eapply safe_bind; [apply safe_REQUIRE_ISA | intros _ _].
  eapply safe_bind; [apply safe_fp_prepare | intros _ _]. do 2 safe_step.
  cbv zeta. destruct op; try_skip; compare_tac i.
Qed.

Lemma safe_exec_d_compare i op : safe clear (exec_d_compare i op) any.
Proof.
  unfold exec_d_compare. eapply safe_bind; [apply safe_REQUIRE_ISA | intros _ _].
  eapply safe_bind; [apply safe_fp_prepare | intros _ _]. do 2 safe_step.
  cbv zeta. destruct op; try_skip; compare_tac i.
Qed.

(** ** Fetch, decode, and the switch *)

Lemma even_assert pc : even pc -> (pc .& uint32 (Z.lnot 0xfffffffe) =? 0) = true.
Proof. intros He. change (uint32 (Z.lnot 0xfffffffe)) with 1. by rewrite (proj1 (even_spec pc) He). Qed.

Lemma safe_fetch : safe clear fetch any.
Proof.
  unfold fetch. do 2 safe_step. rewrite misa_ok_mask by apply Ha.
  safe_step; [by apply safe_assert, even_assert |].
  eapply triple_try_catch.
  - eapply safe_bind; [by apply safe_access, load_instr_ok |]. intros w _.
    apply safe_set_instr, sint_int32.
  - intros e s [He Hs]. eapply safe_bind; [apply safe_set_op | | done]. intros _ _.
    eapply safe_bind; [by apply safe_set_instr |]. intros _ _ s' Hs'. by split.
Qed.

Lemma expanded_range i arch i' op :
  is_sint 32 i -> decode_and_expand_compressed i arch = Some (i', op) -> is_sint 32 i'.
Proof.
  intros Hi. unfold decode_and_expand_compressed.
  destruct (decode_compressed i arch) as [c_op|]; [| done]. intros [= E].
  destruct c_op; cbn [expand_compressed] in E; unfold unless in E;
    repeat match type of E with context [if ?b then _ else _] => destruct b end;
    injection E as <- <-; first [assumption | apply sint_int32].
Qed.

Lemma decode_total i arch :
  is_compressed i = true -> exists r, decode_and_expand_compressed i arch = Some r.
Proof.
  unfold is_compressed, decode_and_expand_compressed, decode_compressed. intros Hq.
  destruct (quadrant i) as [|[[]|[]|]|] eqn:E; try (eexists; reflexivity); done.
Qed.

Lemma safe_decode : safe clear decode any.
Proof.
  unfold decode. do 2 safe_step. safe_step.
  - destruct (decode_total a RV32) as [[i' op] E]; [done |]. rewrite E.
    apply expanded_range in E; [| done].
    do 2 safe_step.
    safe_step; [apply safe_write_pc; [apply uint_uint32 | by apply even_add] |]. safe_tac.
  - safe_step. apply safe_write_pc; [apply uint_uint32 | by apply even_add].
Qed.

Lemma safe_exec_op i op : is_sint 32 i -> safe clear (exec_op i op) any.
Proof.
  intros Hi. destruct op; cbn [exec_op];
    lazymatch goal with
    | |- safe _ skip _ => apply safe_skip
    | |- safe _ RAISE_ILLEGAL_INSTRUCTION _ => apply safe_illegal
    | |- safe _ (exec_alu _ _) _ => by apply safe_exec_alu
    | |- safe _ (exec_jump _ _) _ => by apply safe_exec_jump
    | |- safe _ (exec_mem _ _) _ => apply safe_exec_mem
    | |- safe _ (exec_branch _ _) _ => by apply safe_exec_branch
    | |- safe _ exec_ecall _ => apply safe_exec_ecall
    | |- safe _ (exec_csr _ _) _ => apply safe_exec_csr
    | |- safe _ (exec_muldiv _ _) _ => apply safe_exec_muldiv
    | |- safe _ (exec_amo _ _) _ => apply safe_exec_amo
    | |- safe _ (exec_flw_fsw _ _) _ => apply safe_exec_flw_fsw
    | |- safe _ (exec_f_arith _ _) _ => apply safe_exec_f_arith
    | |- safe _ (exec_f_minmax _ _) _ => apply safe_exec_f_minmax
    | |- safe _ (exec_f_convert _ _) _ => apply safe_exec_f_convert
    | |- safe _ (exec_f_move _ _) _ => apply safe_exec_f_move
    | |- safe _ (exec_f_compare _ _) _ => apply safe_exec_f_compare
    | |- safe _ (exec_fld_fsd _ _) _ => apply safe_exec_fld_fsd
    | |- safe _ (exec_d_arith _ _) _ => apply safe_exec_d_arith
    | |- safe _ (exec_d_minmax _ _) _ => apply safe_exec_d_minmax
    | |- safe _ (exec_d_move _ _) _ => apply safe_exec_d_move
    | |- safe _ (exec_d_convert _ _) _ => apply safe_exec_d_convert
    | |- safe _ (exec_d_compare _ _) _ => apply safe_exec_d_compare
    | |- safe _ exec_wfi _ => apply safe_exec_wfi
    | |- safe _ exec_sfence_vma _ => apply safe_exec_sfence_vma
    | |- safe _ (exec_xret _) _ => apply safe_exec_xret
    | |- safe _ (update (set_status _)) _ =>
        apply safe_update; [intros; by apply core_ok_set_status | done]
    end.
Qed.

Lemma safe_exec_step : safe clear exec_step any.
Proof.
  unfold exec_step. safe_step; [apply safe_fetch |]. safe_step; [apply safe_decode |].
  do 2 safe_step. by apply safe_exec_op.
Qed.

(** ** Interrupts *)

Lemma safe_take_interrupt : safe clear take_interrupt any.
Proof.
  unfold take_interrupt.
  eapply safe_bind with (Q := fun x => target_mode x = NoneMode \/ interrupt_ok x);
    [apply safe_read; apply pending_interrupts_ok |].
  intros x Hx. cbv beta in Hx. safe_step. destruct Hx as [Hx|Hx].
  { rewrite Hx in *. done. }
  safe_step; [by apply safe_prepare_interrupt |]. apply safe_switch_to_trap_handler, Hx.
Qed.

Lemma safe_take_trap e : trap_ok e -> safe clear (take_trap e) any.
Proof.
  intros. unfold take_trap. eapply safe_bind; [by apply safe_prepare_trap |].
  intros. by apply safe_switch_to_trap_handler.
Qed.

(** ** No trap escapes from a step *)

Lemma nothrow_switch mode : nothrow (switch_to_trap_handler mode).
Proof.
  unfold switch_to_trap_handler, release_lr_sc_reservation, jump_to_handler. nothrow_unfold.
  nothrow_tac.
Qed.

Lemma nothrow_write_cause cause tval e : nothrow (write_cause cause tval e : R unit).
Proof. unfold write_cause, lexical_cast_u32. nothrow_unfold. nothrow_tac. Qed.

Lemma nothrow_take_trap e : nothrow (take_trap e).
Proof.
  pose proof nothrow_switch. pose proof nothrow_write_cause.
  unfold take_trap, prepare_trap. nothrow_unfold. nothrow_tac.
Qed.

Lemma nothrow_performance op : nothrow (performance_and_sync_update op).
Proof.
  unfold performance_and_sync_update, release_lr_sc_reservation. nothrow_unfold. nothrow_tac.
Qed.

Lemma nothrow_run_step : nothrow run_step.
Proof.
  pose proof nothrow_performance. pose proof nothrow_take_trap.
  unfold run_step. nothrow_unfold. nothrow_tac. by apply nothrow_try_catch.
Qed.

(** ** The step *)

Lemma keeps_regs_performance op : keeps_regs (performance_and_sync_update op).
Proof.
  unfold performance_and_sync_update, release_lr_sc_reservation. cbv zeta. keeps_regs_tac.
Qed.

Lemma run_step_triple :
  triple step_ok run_step (fun _ s => step_ok s) (fun e s => trap_ok e /\ Inv clear s) fails.
Proof.
  apply (step_frame_triple (exec_step ;; take_interrupt) take_trap performance_and_sync_update).
  - eapply safe_bind; [apply safe_exec_step |]. intros _ _. apply safe_take_interrupt.
  - apply safe_take_trap.
  - apply safe_performance_and_sync_update.
  - apply keeps_regs_performance.
Qed.

End exec.

(** The step of the RV32 core is safe.  Let the platform keep its contract
    and the SoftFloat library return values of its types.  From a machine that
    satisfies the invariant (registers and CSRs in the range of their types,
    the program counter and the saved program counters aligned, the CSR
    restrictions, no SoftFloat exception flag pending) with x0 = 0,
    [run_step] ends in a machine that satisfies it again, with x0 = 0, and lets
    no trap escape.  If it fails, a call of the platform has failed, or the core
    is in the reserved privilege level 2: no other assertion of the code can
    fail. *)
Theorem run_step_safe {W : Type} `{platform_ok W} `{softfloat_ok} (s : machine W) :
  step_ok s ->
  match run_step s with
  | (Ret _, s') => step_ok s'
  | (Throw _, _) => False
  | (Fatal f, s') => env_fails f \/ reserved_mode_fails f (core s')
  end.
Proof.
  intros Hs. pose proof (run_step_triple s Hs) as Ht. pose proof (nothrow_run_step s) as Hn.
  destruct (run_step s) as [[u|e|f] s']; [done | by destruct (Hn e s') | done].
Qed.

Lemma run_step_safe_witness :
  step_ok (ram_machine [0x00500093]) /\
  match run_step (ram_machine [0x00500093]) with
  | (Ret _, s') => step_ok s'
  | (Throw _, _) => False
  | (Fatal f, s') => env_fails (W := ram) f \/ reserved_mode_fails f (core s')
  end.
Proof.
  assert (Hs : step_ok (ram_machine [0x00500093])).
  { split; [| done]. split; [by apply ISS_new_ok |]. done. }
  split; [exact Hs |]. exact (run_step_safe _ Hs).
Defined.
