(* ===== verification/IssAlu.v ===== *)
(** * Integer computations of the 32-bit core against the ISA manual

    The cases of the switch of core/rv32/iss.cpp for RV32IM compute what
    AluSpec.v says of 32-bit words. *)

From S2P Require Import Prelude Instr Decode Trap Csr Fp Iss IssExec IssLogic IssInv IssValues AluSpec IssSafe RamPlatform.

(** The second operand: an immediate, a shift amount or a register. *)
Definition second_operand (op : Mapping) (i : Instruction) (r : list Z) : Z :=
  match op with
  | ADDI | SLTI | SLTIU | XORI | ORI | ANDI => uint32 (I_imm i)
  | SLLI | SRLI | SRAI => shamt i
  | _ => uint32 (regs_get r (rs2 i))
  end.

(** ** The products, as the code computes them *)

Lemma mul_value a b :
  sint 32 (sint 64 (a * b) .& 0xFFFFFFFF) = sint 32 ((uint 32 a * uint 32 b) mod 2 ^ 32).
Proof.
  rewrite <- word_mul by lia.
  apply (sint_bits_inj 32); [lia | apply sint_range; lia.. |]. intros k ?.
  rewrite !sint_testbit, Z.land_spec, sint_testbit by lia.
  change 0xFFFFFFFF with (Z.ones 32). rewrite Z.ones_spec_low by lia. apply andb_true_r.
Qed.

(** The upper half, through the mask of the code. *)
Lemma high_value p : sint 32 ((uint 64 (sint 64 p) .& 0xFFFFFFFF00000000) .>> 32) = sint 32 (p / 2 ^ 32).
Proof.
  rewrite <- Z.shiftr_div_pow2 by lia.
  apply (sint_bits_inj 32); [lia | apply sint_range; lia.. |].
  intros k ?. rewrite !sint_testbit, !Z.shiftr_spec, Z.land_spec by lia.
  rewrite uint_sint, uint_testbit_low by lia.
  change 0xFFFFFFFF00000000 with (Z.ones 32 .<< 32).
  rewrite ones_shiftl_testbit by lia.
  destruct (Z.leb_spec 32 (k + 32)), (Z.ltb_spec (k + 32) (32 + 32)); try lia. apply andb_true_r.
Qed.

Lemma mulh_value p :
  sint 32 ((uint 64 (sint 64 p) .& 0xFFFFFFFF00000000) .>> 32) = sint 32 ((p / 2 ^ 32) mod 2 ^ 32).
Proof. rewrite sint_modulus by lia. apply high_value. Qed.

Lemma mulhsu_value a y :
  sint 32 ((uint 64 (sint 64 (uint 64 a * y)) .& 0xFFFFFFFF00000000) .>> 32)
  = sint 32 ((a * y / 2 ^ 32) mod 2 ^ 32).
Proof.
  rewrite <- (mulh_value (a * y)).
  assert (E : uint 64 (sint 64 (uint 64 a * y)) = uint 64 (sint 64 (a * y))); [| by rewrite E].
  rewrite !uint_sint by lia. unfold uint. by rewrite Zmult_mod_idemp_l.
Qed.

Create HintDb vp_alu.
#[export] Hint Resolve word_add word_sub word_bool word_sll word_srl word_sra word_lxor word_lor
  word_land mul_value mulh_value mulhsu_value high_value eq_sym : vp_alu.

(** ** The cases of the switch *)

Section alu.
Context {W : Type} `{platform W} `{softfloat}.

Definition write_result (i : Instruction) (v : Z) (s : machine W) : machine W :=
  Machine (set_regs (regs_set (rd i) v (regs (core s))) (core s)) (env s).

Lemma shamt_below i op :
  In op [SLLI; SRLI; SRAI] -> decode_normal RV32 i = op -> shamt i mod 32 = shamt i.
Proof.
  intros Hop Hd.
  assert (Hm : matches RV32 i op = true).
  { apply decode_normal_iff; [| done]. intros ->.
    repeat (destruct Hop as [Hop|Hop]; [discriminate Hop |]). done. }
  assert (H25 : Z.testbit i 25 = false).
  { destruct Hop as [<-|[<-|[<-|[]]]]; apply Z.eqb_eq in Hm;
      apply (f_equal (fun z => Z.testbit z 25)) in Hm; revert Hm;
      cbn [pattern_mask pattern_encoding instr_pattern fst snd];
      unfold SLLI_32, SRLI_32, SRAI_32, data, uint32; cbn [fst snd]; bit_simpl; done. }
  rewrite shamt_bits. change (bits i 25 20 0 mod 32) with (uint 5 (bits i 25 20 0)).
  apply (uint_bits_inj 6); [lia | unfold bits; range_tac.. |]. intros k ?.
  unfold bits. rewrite Z.shiftl_0_r, uint_testbit by lia.
  destruct (Z.ltb_spec k 5); [done |]. replace k with 5 by lia. cbn [andb]. by bit_simpl.
Qed.
Lemma write_result_eq i v v' (s : machine W) :
  v = v' -> (Ret (E := SimulationTrap) tt, write_result i v s) = (Ret tt, write_result i v' s).
Proof. by intros ->. Qed.

Lemma set_reg_if i (c : bool) a b (s : machine W) :
  (if c then set_reg (rd i) a else set_reg (rd i) b) s
  = (Ret tt, write_result i (if c then a else b) s).
Proof. by destruct c. Qed.

(** The divisions test their divisor first. *)
Lemma division_result i (s : machine W) (on_zero zero result : Z) (other : M (machine W) SimulationTrap unit) :
  let b := regs_get (regs (core s)) (rs2 i) in
  is_sint 32 b -> on_zero = int32 zero ->
  (b <> 0 -> other s = (Ret tt, write_result i (int32 result) s)) ->
  (if b =? 0 then set_reg (rd i) on_zero else other) s
  = (Ret tt, write_result i (int32 (if uint32 b =? 0 then zero else result)) s).
Proof.
  intros b Hb -> Hother. unfold uint32. rewrite (uint_eqb_0 32) by done.
  destruct (Z.eqb_spec b 0); [done | by apply Hother].
Qed.

(** C3: the integer instructions compute what the ISA manual says.  When the
    instruction word [i] decodes to one of the register-register or
    register-immediate instructions of RV32I or the M extension, its case of the
    switch returns, and all it changes is the destination register, which gets
    the word [alu_spec] computes from the operand words: in particular shifts use
    the low five bits, the high products are those of the exact 64-bit product,
    division by zero and the overflowing division give the values of the
    manual. *)
Theorem exec_alu_spec (s : machine W) (i : Instruction) (op : Mapping) (v : Z) :
  core_ok (core s) -> decode_normal RV32 i = op -> is_sint 32 i ->
  alu_spec 32 op (uint32 (regs_get (regs (core s)) (rs1 i)))
    (second_operand op i (regs (core s))) = Some v ->
  exec_op i op s = (Ret tt, write_result i (int32 v) s).
Proof.
  intros Hs Hd Hi Hv.
  pose proof (regs_get_range32 (regs (core s)) (rs1 i) (ok_regs Hs)) as Ha.
  pose proof (regs_get_range32 (regs (core s)) (rs2 i) (ok_regs Hs)) as Hb.
  pose proof (I_imm_range i Hi) as Himm.
  pose proof (sint_uint_id 32 ltac:(lia) _ Ha) as Ea.
  pose proof (sint_uint_id 32 ltac:(lia) _ Hb) as Eb.
  pose proof (sint_uint_id 32 ltac:(lia) _ Himm) as Ei.
  pose proof (shamt_range i) as Hsh. pose proof (Z.mod_pos_bound
    (uint32 (regs_get (regs (core s)) (rs2 i))) 32 ltac:(done)) as Hsh'.
  destruct op; try discriminate Hv; injection Hv as <-; cbn [exec_op second_operand].
  all: lazymatch goal with
  | |- exec_muldiv _ _ _ = _ =>
      unfold exec_muldiv; unfold mbind at 1, M_bind at 1;
      rewrite (require_isa_run M_ISA_EXT s Hs) by (cbn; tauto)
  | |- _ => idtac
  end.
  all: try (apply write_result_eq).
  all: unfold second_operand; rewrite ?RegFile_shamt_spec;
    unfold int32, uint32, int64, uint64 in *; rewrite ?Ea, ?Eb, ?Ei.
  all: try (rewrite (fun Hin => shamt_below i _ Hin Hd) by (cbn; tauto)).
  all: try solve [auto with vp_alu lia].
  all: try (apply word_sll; lia).
  all: try (apply word_srl; lia).
  all: try (apply word_sra; [lia | done | lia]).
  all: unfold mbind, M_bind; apply division_result; [done | reflexivity || auto | intros Hn];
    unfold int32, uint32.
  - rewrite set_reg_if. apply write_result_eq; by apply (word_div 32).
  - done.
  - rewrite set_reg_if. apply write_result_eq; by apply (word_rem 32).
  - done.
Qed.
End alu.

Lemma exec_alu_spec_witness :
  let s := ram_machine [] in
  core_ok (core s) /\
  exec_op 0x02c5c533 DIV s = (Ret tt, write_result 0x02c5c533 (-1) s).
Proof.
  set (s := ram_machine []).
  assert (Hs : core_ok (core s)) by by apply ISS_new_ok.
  split; [exact Hs |].
  exact (exec_alu_spec s 0x02c5c533 DIV (word_size - 1) Hs eq_refl
    (is_sint_literal 32 0x02c5c533 eq_refl) eq_refl).
Defined.
