(* ===== verification/IssTraps.v ===== *)
(** * Traps, interrupts and returns

    What taking a trap or an interrupt and returning from its handler do to a
    core, and which interrupt is taken: the delegation and priority rules of the
    privileged architecture. *)

From S2P Require Import Prelude Instr Trap Csr Fp Iss IssExec IssLogic IssInv IssValues IssSafe RamPlatform.

(** The registers and the status bits a mode takes its traps with. *)
Definition epc_of (m : PrivilegeLevel) : csrs.reg :=
  if m =? MachineMode then csrs.mepc else if m =? SupervisorMode then csrs.sepc else csrs.uepc.
Definition cause_of (m : PrivilegeLevel) : csrs.reg :=
  if m =? MachineMode then csrs.mcause else if m =? SupervisorMode then csrs.scause else csrs.ucause.
Definition tval_of (m : PrivilegeLevel) : csrs.reg :=
  if m =? MachineMode then csrs.mtval else if m =? SupervisorMode then csrs.stval else csrs.utval.
Definition tvec_of (m : PrivilegeLevel) : csrs.reg :=
  if m =? MachineMode then csrs.mtvec else if m =? SupervisorMode then csrs.stvec else csrs.utvec.
Definition ie_of (m : PrivilegeLevel) : bitfield :=
  if m =? MachineMode then mstatus.mie else if m =? SupervisorMode then mstatus.sie else mstatus.uie.
Definition pie_of (m : PrivilegeLevel) : bitfield :=
  if m =? MachineMode then mstatus.mpie else if m =? SupervisorMode then mstatus.spie else mstatus.upie.
(** The field of the previous mode; user mode has none. *)
Definition pp_of (m : PrivilegeLevel) : option bitfield :=
  if m =? MachineMode then Some mstatus.mpp
  else if m =? SupervisorMode then Some mstatus.spp else None.

(** ** Delegation *)

(** The mode that takes an exception raised in mode [p]: machine mode, unless
    [medeleg] passes it on to supervisor mode, which [sedeleg] may pass on to user
    mode; never a mode below [p]. *)
Definition delegate (medeleg sedeleg : Z) (p : PrivilegeLevel) (code : Z) : PrivilegeLevel :=
  Z.max p (if Z.testbit medeleg code
           then if Z.testbit sedeleg code then UserMode else SupervisorMode
           else MachineMode).

Definition exception_target (s : ISS) (e : SimulationTrap) : PrivilegeLevel :=
  delegate (csr_get (csr_regs s) csrs.medeleg) (csr_get (csr_regs s) csrs.sedeleg)
    (prv s) (reason e).

Lemma nonzero_bit k v : 0 <= k < 32 -> nonzero (uint32 (1 .<< k) .& v) = Z.testbit v k.
Proof.
  intros Hk. replace (uint32 (1 .<< k)) with (2 ^ k).
  2: { unfold uint32. rewrite Z.shiftl_1_l, uint_id; [done |].
       unfold is_uint. pose proof (Z.pow_lt_mono_r 2 k 32). pose proof (Z.pow_nonneg 2 k). lia. }
  unfold nonzero. apply eq_true_iff_eq. rewrite negb_true_iff, Z.eqb_neq. split.
  - intros Hn. destruct (Z.testbit v k) eqn:E; [done |]. destruct Hn. apply Z.bits_inj'.
    intros j ?. rewrite Z.land_spec, Z.testbit_0_l, Z.pow2_bits_eqb by lia.
    destruct (Z.eqb_spec k j) as [->|]; [by rewrite E | done].
  - intros E H0. assert (Ht := f_equal (fun z => Z.testbit z k) H0). cbv beta in Ht.
    rewrite Z.land_spec, Z.pow2_bits_true, E, Z.testbit_0_l in Ht by lia. done.
Qed.

(** ** The state in which a handler starts *)

Definition set_previous (m pp : PrivilegeLevel) (t : csr_table) : csr_table :=
  match pp_of m with Some f => set_bits csrs.mstatus f pp t | None => t end.

Definition enter_csrs (m : PrivilegeLevel) (s : ISS) : csr_table :=
  let t := csr_set (epc_of m) (pc s) (csr_regs s) in
  let t := set_bits csrs.mstatus (pie_of m) (get_bits t csrs.mstatus (ie_of m)) t in
  let t := set_bits csrs.mstatus (ie_of m) 0 t in
  set_previous m (prv s) t.

Definition enter_handler (m : PrivilegeLevel) (s : ISS) : ISS :=
  let t := enter_csrs m s in
  set_pc (handler_address (csr_get t (tvec_of m)) (csr_get t (cause_of m)))
    (set_csr_regs t (set_prv m s)).

Definition cause_csrs (m : PrivilegeLevel) (interrupt code : Z) (t : csr_table) : csr_table :=
  set_bits (cause_of m) mcause.exception_code code
    (set_bits (cause_of m) mcause.interrupt interrupt t).

(** What entering a handler for mode [m] has done to a core: the epc register
    holds [epc], the interrupt enable bit of the mode is saved and cleared, the
    mode is saved, and nothing else of the status register, no general or
    floating-point register has changed. *)
Record handler_entered (m : PrivilegeLevel) (epc : Z) (c c' : ISS) : Prop := {
  entered_prv : prv c' = m;
  entered_epc : csr_get (csr_regs c') (epc_of m) = epc;
  entered_pie : get_bits (csr_regs c') csrs.mstatus (pie_of m)
                = get_bits (csr_regs c) csrs.mstatus (ie_of m);
  entered_ie : get_bits (csr_regs c') csrs.mstatus (ie_of m) = 0;
  entered_pp f : pp_of m = Some f -> get_bits (csr_regs c') csrs.mstatus f = prv c;
  entered_status f : bf_wf f -> disjoint_fields f (pie_of m) = true ->
    disjoint_fields f (ie_of m) = true ->
    (forall g, pp_of m = Some g -> disjoint_fields f g = true) ->
    get_bits (csr_regs c') csrs.mstatus f = get_bits (csr_regs c) csrs.mstatus f;
  entered_csrs r : r <> csrs.mstatus -> r <> epc_of m -> r <> cause_of m -> r <> tval_of m ->
    csr_get (csr_regs c') r = csr_get (csr_regs c) r;
  entered_regs : regs c' = regs c;
  entered_fp : fp_regs c' = fp_regs c;
  entered_reservation : lr_sc_counter c' = 0
}.

Lemma previous_mode m p f :
  trap_mode m -> trap_mode p -> p <= m -> pp_of m = Some f -> uint (bf_width f) p = p.
Proof.
  intros Hm Hp Hle. unfold trap_mode in *.
  destruct Hm as [->|[->| ->]]; cbn; intros [= <-];
    destruct Hp as [->|[->| ->]]; try done; unfold SupervisorMode, MachineMode, UserMode in *; lia.
Qed.

(** The entry, for a state in which only the cause and the trap value registers
    of the mode have changed. *)
Lemma enter_handler_entered m c t pc' :
  trap_mode m -> trap_mode (prv c) -> prv c <= m ->
  (forall r, r <> cause_of m -> r <> tval_of m -> csr_get t r = csr_get (csr_regs c) r) ->
  handler_entered m pc' c
    (enter_handler m (set_lr_sc_counter 0 (set_csr_regs t (set_pc pc' c)))).
Proof.
  intros Hm Hp Hle Ht.
  assert (Hst : csr_get t csrs.mstatus = csr_get (csr_regs c) csrs.mstatus)
    by (apply Ht; by destruct Hm as [->|[->| ->]]).
  assert (Hb : forall f, get_bits t csrs.mstatus f = get_bits (csr_regs c) csrs.mstatus f)
    by (intros; unfold get_bits; by rewrite Hst).
  pose proof (previous_mode m (prv c)) as Hpp.
  constructor.
  - done.
  - cbn. unfold enter_csrs, set_previous. cbn.
    destruct Hm as [->|[->| ->]]; cbn; by autorewrite with vp_csr.
  - cbn. unfold enter_csrs, set_previous. cbn.
    destruct Hm as [->|[->| ->]]; cbn; autorewrite with vp_csr; rewrite <- Hb;
      by apply get_bits_id.
  - cbn. unfold enter_csrs, set_previous. cbn.
    destruct Hm as [->|[->| ->]]; cbn; by autorewrite with vp_csr.
  - intros f Hf. transitivity (uint (bf_width f) (prv c)); [| by apply Hpp]. cbn. unfold enter_csrs, set_previous. cbn.
    destruct Hm as [->|[->| ->]]; cbn in *; simplify_eq; by autorewrite with vp_csr.
  - intros f Hf Hpie Hie Hprev. cbn. unfold enter_csrs, set_previous.
    destruct Hm as [->|[->| ->]]; cbn in *; autorewrite with vp_csr;
      rewrite ?get_bits_set_other by (done || (by split) || (by apply Hprev)); by autorewrite with vp_csr.
  - intros r Hr He Hca Htv. rewrite <- Ht by done. cbn. unfold enter_csrs, set_previous.
    destruct Hm as [->|[->| ->]]; cbn in *;
      by rewrite ?csr_get_set_bits_other, csr_get_set_other by done.
  - done.
  - done.
  - done.
Qed.

Lemma enter_csrs_other m c r :
  r <> csrs.mstatus -> r <> epc_of m -> csr_get (enter_csrs m c) r = csr_get (csr_regs c) r.
Proof.
  intros Hr He. unfold enter_csrs, set_previous.
  destruct (pp_of m); by rewrite ?csr_get_set_bits_other, csr_get_set_other by done.
Qed.

Section traps.
Context {W : Type} `{platform_ok W} `{softfloat}.

(** Either the run ends in a state whose core is [f] of the initial one, or a
    call of the environment failed. *)
Definition ends_with {A} (m : M (machine W) SimulationTrap A) (f : ISS -> ISS) (s : machine W) : Prop :=
  match m s with
  | (Ret _, s') => core s' = f (core s) /\ env_ok (env s')
  | (Throw _, _) => False
  | (Fatal e, _) => env_fails e
  end.

Lemma release_ends s :
  core_ok (core s) -> env_ok (env s) ->
  ends_with release_lr_sc_reservation (set_lr_sc_counter 0) s.
Proof.
  intros Hs He. unfold ends_with, release_lr_sc_reservation, mbind, M_bind, update, modify.
  set (s1 := Machine _ _).
  pose proof (atomic_unlock_ok _ _ s1 ltac:(by apply core_ok_set_counter) He) as Hu.
  pose proof (atomic_unlock_nothrow _ _ s1) as Hn.
  destruct (atomic_unlock s1) as [[u|e|f] s2]; [tauto | by destruct (Hn e s2) | done].
Qed.

Lemma switch_ends m s :
  trap_mode m -> core_ok (core s) -> env_ok (env s) ->
  ends_with (switch_to_trap_handler m)
    (fun c => enter_handler m (set_lr_sc_counter 0 c)) s.
Proof.
  intros Hm Hs He. pose proof (release_ends s Hs He) as Hr. unfold ends_with in *.
  unfold switch_to_trap_handler. unfold mbind at 1, M_bind at 1.
  destruct (release_lr_sc_reservation s) as [[u|e|f] [c1 e1]]; [| done | done].
  destruct Hr as [Hc He1]. simpl in Hc, He1. subst c1.
  destruct Hm as [->|[->| ->]]; cbn; (split; [reflexivity | exact He1]).
Qed.
(** The state [prepare_trap] leaves. *)
Definition caused (e : SimulationTrap) (c : ISS) : ISS :=
  let m := exception_target c e in
  set_csr_regs (csr_set (tval_of m) (mtval e) (cause_csrs m 0 (reason e) (csr_regs c)))
    (set_pc (last_pc c) c).

Lemma write_cause_run cause tval e (s : machine W) :
  is_uint 32 (mtval e) ->
  write_cause cause tval e s =
    (Ret tt, Machine (set_csr_regs (csr_set tval (mtval e)
      (set_bits cause mcause.exception_code (reason e)
        (set_bits cause mcause.interrupt 0 (csr_regs (core s))))) (core s)) (env s)).
Proof.
  intros [_ Hv]. unfold write_cause, lexical_cast_u32.
  replace (mtval e <? 2 ^ 32) with true by lia. reflexivity.
Qed.

Lemma prepare_trap_run e (s : machine W) :
  trap_ok e -> trap_mode (prv (core s)) ->
  prepare_trap e s = (Ret (exception_target (core s) e), Machine (caused e (core s)) (env s)).
Proof.
  intros [Hr Hv] Hp. unfold caused, exception_target, delegate.
  set (d := csr_get (csr_regs (core s)) csrs.medeleg).
  set (sd := csr_get (csr_regs (core s)) csrs.sedeleg).
  unfold prepare_trap. unfold mbind at 1 2 3 4 5, M_bind at 1 2 3 4 5.
  unfold read, gets, write_pc, update, modify, csr_reg. cbn [core env]. unfold read, gets.
  cbn [core env csr_regs set_pc prv]. fold d sd. rewrite !nonzero_bit by lia.
  destruct Hp as [Hp|[Hp|Hp]]; rewrite Hp; cbn [Z.eqb Pos.eqb MachineMode SupervisorMode UserMode orb andb];
    destruct (Z.testbit d (reason e)), (Z.testbit sd (reason e)); cbn [negb orb andb];
    unfold assert, skip, mret, M_ret, mbind, M_bind; rewrite ?write_cause_run by done; reflexivity.
Qed.

Lemma exception_target_mode c e : trap_mode (prv c) -> trap_mode (exception_target c e).
Proof.
  intros Hp. unfold exception_target, delegate, trap_mode, MachineMode, SupervisorMode, UserMode in *.
  repeat match goal with |- context [if ?b then _ else _] => destruct b end; lia.
Qed.

Lemma take_trap_ends e s :
  trap_ok e -> trap_mode (prv (core s)) -> core_ok (core s) -> env_ok (env s) ->
  ends_with (take_trap e)
    (fun c => enter_handler (exception_target c e) (set_lr_sc_counter 0 (caused e c))) s.
Proof.
  intros He Hp Hs Henv. unfold ends_with, take_trap, mbind, M_bind.
  rewrite prepare_trap_run by done.
  pose proof (safe_prepare_trap (fun _ => True) e He s ltac:(by split)) as Hsafe.
  rewrite prepare_trap_run in Hsafe by done. destruct Hsafe as (Hm & Hc & _).
  by apply switch_ends.
Qed.
End traps.

(** ** Exceptions *)

Lemma cause_value interrupt code v :
  is_uint 32 v -> is_uint 31 code -> is_uint 1 interrupt ->
  set_field mcause.exception_code code (set_field mcause.interrupt interrupt v)
  = (interrupt .<< 31) .| code.
Proof.
  intros Hv Hc Hi. apply (uint_bits_inj 32); [lia | | range_tac |].
  - apply is_uint_set_field; [by split | done |]. by apply is_uint_set_field; [split | |].
  - intros k Hk. rewrite !set_field_testbit by (by split || lia). cbn [bf_lo bf_width].
    rewrite Z.lor_spec, Z.shiftl_spec by lia. rewrite is_uint_bits in Hc by lia.
    change (bf_lo mcause.exception_code) with 0. change (bf_width mcause.exception_code) with 31.
    change (bf_lo mcause.interrupt) with 31. change (bf_width mcause.interrupt) with 1.
    rewrite Z.sub_0_r, (proj2 (Z.leb_le 0 k)), (proj2 (Z.ltb_lt k (31 + 1))) by lia.
    destruct (Z.ltb_spec k (0 + 31)); cbn [andb].
    + by rewrite (Z.testbit_neg_r interrupt (k - 31)) by lia.
    + rewrite (proj2 (Z.leb_le 31 k)) by lia. cbn [andb].
      rewrite (Hc k) by lia. by rewrite orb_false_r.
Qed.

Lemma tvec_base v : is_uint 32 v -> mtvec.get_base_address v = Z.ldiff v 3.
Proof.
  intros Hv. unfold mtvec.get_base_address, get_field.
  change (bf_lo mtvec.base) with 2. change (bf_width mtvec.base) with 30.
  apply (uint_bits_inj 32); [lia | apply uint_range; lia | |].
  - rewrite is_uint_bits in * by lia. intros k ?. by rewrite Z.ldiff_spec, Hv.
  - intros k Hk. unfold uint32. change 3 with (Z.ones 2).
    rewrite uint_testbit_low, Z.shiftl_spec, Z.ldiff_spec by lia.
    destruct (Z.ltb_spec k 2).
    + rewrite Z.testbit_neg_r, Z.ones_spec_low by lia. by rewrite andb_false_r.
    + rewrite uint_testbit_low, Z.shiftr_spec, Z.ones_spec_high by lia.
      rewrite andb_true_r. f_equal. lia.
Qed.

(** Vectored handlers start at [base + 4 * code] for an interrupt. *)
Definition handler_pc (tvec interrupt code : Z) : Z :=
  if (interrupt =? 1) && (tvec mod 4 =? 1)
  then uint32 (Z.ldiff tvec 3 + 4 * code) else Z.ldiff tvec 3.

Lemma cause_fields interrupt code :
  is_uint 31 code -> is_uint 1 interrupt ->
  get_field mcause.interrupt ((interrupt .<< 31) .| code) = interrupt /\
  get_field mcause.exception_code ((interrupt .<< 31) .| code) = code.
Proof.
  intros Hc Hi. rewrite <- (cause_value interrupt code 0) by done. split.
  - rewrite get_set_field_other, get_set_field_same by (by split). by apply uint_id.
  - rewrite get_set_field_same by (by split). by apply uint_id.
Qed.

Lemma handler_address_pc tvec interrupt code :
  is_uint 32 tvec -> is_uint 31 code -> is_uint 1 interrupt ->
  handler_address tvec ((interrupt .<< 31) .| code) = handler_pc tvec interrupt code.
Proof.
  intros Hv Hc Hi. destruct (cause_fields interrupt code Hc Hi) as [Ei Ec].
  unfold handler_address, handler_pc. rewrite Ei, Ec, tvec_base by done.
  replace (get_field mtvec.mode tvec) with (tvec mod 4)
    by (unfold get_field; cbn [bf_lo bf_width mtvec.mode]; by rewrite Z.shiftr_0_r).
  assert (interrupt = 0 \/ interrupt = 1) as [->| ->] by (unfold is_uint in Hi; lia);
    done.
Qed.

Lemma mode_csrs_neq m :
  cause_of m <> csrs.mstatus /\ cause_of m <> epc_of m /\ tval_of m <> csrs.mstatus /\
  tval_of m <> epc_of m /\ tval_of m <> cause_of m /\ tvec_of m <> csrs.mstatus /\
  tvec_of m <> epc_of m /\ tvec_of m <> cause_of m /\ tvec_of m <> tval_of m /\
  csrs.is_64 (cause_of m) = false /\ csrs.is_64 (tvec_of m) = false.
Proof.
  unfold epc_of, cause_of, tval_of, tvec_of.
  by destruct (m =? MachineMode), (m =? SupervisorMode).
Qed.

Lemma cause_csrs_ok m interrupt code t : csrs_ok t -> csrs_ok (cause_csrs m interrupt code t).
Proof.
  intros Ht. unfold cause_csrs, cause_of.
  destruct (m =? MachineMode), (m =? SupervisorMode); by repeat apply set_bits_ok.
Qed.

Lemma cause_csrs_get m interrupt code t :
  csrs_ok t -> is_uint 31 code -> is_uint 1 interrupt ->
  csr_get (cause_csrs m interrupt code t) (cause_of m) = (interrupt .<< 31) .| code.
Proof.
  intros Ht Hc Hi. unfold cause_csrs, set_bits. rewrite csr_get_set_same, csr_get_set_same.
  apply cause_value; [| done | done]. apply csr_get_range32; [done | apply mode_csrs_neq].
Qed.

Lemma cause_csrs_other m interrupt code t r :
  r <> cause_of m -> csr_get (cause_csrs m interrupt code t) r = csr_get t r.
Proof. intros. unfold cause_csrs. by rewrite !csr_get_set_bits_other by done. Qed.

(** Where a handler starts, and its cause register. *)
Lemma enter_handler_cause m c interrupt code :
  csrs_ok (csr_regs c) -> is_uint 31 code -> is_uint 1 interrupt ->
  csr_get (csr_regs c) (cause_of m) = (interrupt .<< 31) .| code ->
  csr_get (csr_regs (enter_handler m c)) (cause_of m) = (interrupt .<< 31) .| code /\
  csr_get (csr_regs (enter_handler m c)) (tval_of m) = csr_get (csr_regs c) (tval_of m) /\
  pc (enter_handler m c) = handler_pc (csr_get (csr_regs c) (tvec_of m)) interrupt code.
Proof.
  intros Hc Hcode Hi Hcause. pose proof (mode_csrs_neq m) as Hneq. destruct_and! Hneq.
  unfold enter_handler. cbn. rewrite !enter_csrs_other by done.
  rewrite Hcause. repeat split. apply handler_address_pc; [| done | done].
  by apply csr_get_range32.
Qed.

Lemma take_trap_enters {W} `{platform_ok W} `{softfloat} (e : SimulationTrap) (s : machine W) :
  trap_ok e -> trap_mode (prv (core s)) -> core_ok (core s) -> env_ok (env s) ->
  let m := exception_target (core s) e in
  prv (core s) <= m /\
  match take_trap e s with
  | (Ret _, s') =>
      handler_entered m (last_pc (core s)) (core s) (core s') /\
      csr_get (csr_regs (core s')) (cause_of m) = reason e /\
      csr_get (csr_regs (core s')) (tval_of m) = mtval e /\
      pc (core s') = Z.ldiff (csr_get (csr_regs (core s)) (tvec_of m)) 3
  | (Throw _, _) => False
  | (Fatal f, _) => env_fails f
  end.
Proof.
  intros He Hp Hs Henv m.
  assert (Hle : prv (core s) <= m) by apply Z.le_max_l.
  assert (Hm : trap_mode m) by by apply exception_target_mode.
  split; [done |].
  pose proof (take_trap_ends e s He Hp Hs Henv) as Ht. unfold ends_with in Ht.
  destruct (take_trap e s) as [[u|e'|f] s']; [| done | done]. destruct Ht as [-> _].
  fold m. unfold caused. fold m.
  set (t := csr_set (tval_of m) _ _).
  pose proof (mode_csrs_neq m) as Hneq. destruct_and! Hneq.
  assert (Hcode : is_uint 31 (reason e)) by (unfold is_uint; destruct He; lia).
  assert (Hother : forall r, r <> cause_of m -> r <> tval_of m ->
    csr_get t r = csr_get (csr_regs (core s)) r) by
    (intros; unfold t; by rewrite csr_get_set_other, cause_csrs_other).
  assert (Ht : csrs_ok t).
  { apply csrs_ok_set; [| apply cause_csrs_ok, Hs]. apply csr_value_ok_plain;
      unfold tval_of; destruct (m =? MachineMode), (m =? SupervisorMode); apply He || done. }
  split; [by apply enter_handler_entered |].
  destruct (enter_handler_cause m (set_lr_sc_counter 0 (set_csr_regs t (set_pc (last_pc (core s)) (core s))))
    0 (reason e)) as (Ec & Et & Epc); [done | done | done | |].
  { cbn. unfold t. rewrite csr_get_set_other by done. apply cause_csrs_get; [apply Hs | done | done]. }
  rewrite Ec, Et, Epc. cbn. unfold t at 1. rewrite csr_get_set_same, Hother by done. done.
Qed.

(** C4: taking an exception.  In a machine that satisfies the invariant and runs
    in machine, supervisor or user mode, take_trap ends (unless a call of the
    platform fails) in the mode [medeleg] and [sedeleg] delegate the exception
    to, which is never below the mode it was raised in: the handler is entered
    with the address of the instruction in epc, the code and the value of the
    exception in the cause and trap value registers, at the base address of the
    trap vector; no other CSR changes. *)
Theorem take_trap_spec {W} `{platform_ok W} `{softfloat} (e : SimulationTrap) (s : machine W) :
  trap_ok e -> trap_mode (prv (core s)) -> core_ok (core s) -> env_ok (env s) ->
  let m := exception_target (core s) e in
  prv (core s) <= m /\
  match take_trap e s with
  | (Ret _, s') =>
      handler_entered m (last_pc (core s)) (core s) (core s') /\
      csr_get (csr_regs (core s')) (cause_of m) = reason e /\
      csr_get (csr_regs (core s')) (tval_of m) = mtval e /\
      pc (core s') = Z.ldiff (csr_get (csr_regs (core s)) (tvec_of m)) 3
  | (Throw _, _) => False
  | (Fatal f, _) => env_fails f
  end.
Proof. apply take_trap_enters. Qed.

(** ** Interrupts *)

(** The mode [mideleg] and [sideleg] send interrupt [k] to. *)
Definition interrupt_target (s : ISS) (k : Z) : PrivilegeLevel :=
  if Z.testbit (csr_get (csr_regs s) csrs.mideleg) k
  then if Z.testbit (csr_get (csr_regs s) csrs.sideleg) k then UserMode else SupervisorMode
  else MachineMode.

Definition interrupt_pending (s : ISS) (m : PrivilegeLevel) (k : Z) : bool :=
  Z.testbit (csr_get (csr_regs s) csrs.mie) k && Z.testbit (csr_get (csr_regs s) csrs.mip) k &&
  (interrupt_target s k =? m).

(** Interrupts for mode [m] are taken in all modes below it, and in [m] itself
    when its enable bit is set. *)
Definition interrupts_enabled (s : ISS) (m : PrivilegeLevel) : bool :=
  (prv s <? m) || (prv s =? m) && nonzero (get_bits (csr_regs s) csrs.mstatus (ie_of m)).

(** Decreasing priority: external, software, timer; machine, supervisor, user. *)
Definition interrupt_priority : list Z := [11; 3; 7; 9; 1; 5; 8; 0; 4].

Definition select_for (s : ISS) (m : PrivilegeLevel) : option (PrivilegeLevel * Z) :=
  if interrupts_enabled s m then pair m <$> List.find (interrupt_pending s m) interrupt_priority
  else None.

(** The interrupt the privileged architecture selects: the highest mode that has
    one pending and enabled, and there the one of the highest priority. *)
Definition select_interrupt (s : ISS) : option (PrivilegeLevel * Z) :=
  match select_for s MachineMode with
  | Some x => Some x
  | None => match select_for s SupervisorMode with
            | Some x => Some x
            | None => select_for s UserMode
            end
  end.

(** What the code decides: the mode of the record, and the code of its bits. *)
Definition code_decision (x : PendingInterrupts) : option (PrivilegeLevel * Z) :=
  if target_mode x =? NoneMode then None else pair (target_mode x) <$> interrupt_code (pending x).

Lemma interrupt_code_find p : interrupt_code p = List.find (Z.testbit p) interrupt_priority.
Proof.
  unfold interrupt_code.
  change mip.meip with (mip_field 11). change mip.msip with (mip_field 3).
  change mip.mtip with (mip_field 7). change mip.seip with (mip_field 9).
  change mip.ssip with (mip_field 1). change mip.stip with (mip_field 5).
  change mip.ueip with (mip_field 8). change mip.usip with (mip_field 0).
  change mip.utip with (mip_field 4). rewrite !nonzero_field_1 by lia.
  reflexivity.
Qed.

Lemma find_ext_in {A} (f g : A -> bool) (l : list A) :
  (forall x, In x l -> f x = g x) -> List.find f l = List.find g l.
Proof.
  induction l as [|x l IH]; [done |]. intros Hx. simpl. rewrite (Hx x) by by left.
  rewrite IH; [done |]. intros. apply Hx. by right.
Qed.

Lemma find_none_zero p :
  is_uint 32 p -> Z.ldiff p MIE_MASK = 0 ->
  List.find (Z.testbit p) interrupt_priority = None <-> nonzero p = false.
Proof.
  intros Hp Hm. rewrite <- interrupt_code_find. unfold nonzero. split.
  - intros Hn. destruct (Z.eqb_spec p 0) as [|Hp0]; [done |].
    by destruct (interrupt_code_some p Hp Hm Hp0).
  - intros Hz. assert (p = 0) as -> by lia. done.
Qed.

Lemma ldiff_land_l v x M : Z.ldiff v M = 0 -> Z.ldiff (v .& x) M = 0.
Proof.
  intros Hv. apply Z.bits_inj'. intros k ?.
  assert (Hk := f_equal (fun z => Z.testbit z k) Hv). cbv beta in Hk.
  rewrite Z.ldiff_spec, Z.testbit_0_l in *. rewrite Z.land_spec.
  by destruct (Z.testbit v k), (Z.testbit M k), (Z.testbit x k).
Qed.

(** One level of the decision: [p] is the part of the enabled and pending bits
    that goes to mode [m]. *)
Lemma select_level s m p (rest : PendingInterrupts) :
  is_uint 32 p -> Z.ldiff p MIE_MASK = 0 -> (m =? NoneMode) = false ->
  (forall k, 0 <= k < 32 -> Z.testbit p k = interrupt_pending s m k) ->
  code_decision (if nonzero p && interrupts_enabled s m then mkPending m p else rest)
  = match select_for s m with Some x => Some x | None => code_decision rest end.
Proof.
  intros Hp Hmask Hm Hk. unfold select_for.
  assert (Hf : List.find (interrupt_pending s m) interrupt_priority
               = List.find (Z.testbit p) interrupt_priority).
  { apply find_ext_in. intros k Hin. symmetry. apply Hk.
    repeat (destruct Hin as [<-|Hin]; [lia |]). done. }
  rewrite Hf. destruct (interrupts_enabled s m); rewrite ?andb_false_r, ?andb_true_r; [| done].
  pose proof (find_none_zero p Hp Hmask) as Hz.
  destruct (nonzero p) eqn:E.
  - unfold code_decision. cbn [target_mode pending]. rewrite Hm.
    rewrite <- interrupt_code_find in *.
    destruct (interrupt_code p); [done |]. destruct Hz as [Hz _]. discriminate (Hz eq_refl).
  - by rewrite (proj2 Hz).
Qed.

Lemma code_decision_select (s : ISS) :
  core_ok s -> code_decision (pending_interrupts s) = select_interrupt s.
Proof.
  intros Hs. pose proof (ok_csrs Hs csrs.mie) as [Hmie Hmask]. simpl in Hmask.
  change (is_uint (reg_width csrs.mie)) with (is_uint 32) in Hmie.
  set (mie := csr_get (csr_regs s) csrs.mie) in *.
  set (mip := csr_get (csr_regs s) csrs.mip).
  assert (Hok : forall x, is_uint 32 (mie .& mip .& x) /\ Z.ldiff (mie .& mip .& x) MIE_MASK = 0).
  { intros x. rewrite <- Z.land_assoc. split; [by apply is_uint_land_l; [lia |] |].
    by apply ldiff_land_l. }
  set (del := csr_get (csr_regs s) csrs.mideleg). set (sdel := csr_get (csr_regs s) csrs.sideleg).
  assert (Htarget : forall m k, 0 <= k < 32 -> interrupt_pending s m k
    = Z.testbit mie k && Z.testbit mip k &&
      ((if Z.testbit del k then if Z.testbit sdel k then UserMode else SupervisorMode
        else MachineMode) =? m)) by done.
  assert (Hnot : forall v k, 0 <= k < 32 -> Z.testbit (uint32 (Z.lnot v)) k = negb (Z.testbit v k))
    by (intros; unfold uint32; by rewrite uint_testbit_low, Z.lnot_spec by lia).
  assert (Hlevel : forall m, select_for s m = None \/ exists k, In k interrupt_priority /\
    Z.testbit mie k && Z.testbit mip k = true).
  { intros m. unfold select_for. destruct (interrupts_enabled s m); [| by left].
    destruct (List.find (interrupt_pending s m) interrupt_priority) as [k|] eqn:Ef; [right | by left].
    apply List.find_some in Ef as [Hin Hk]. exists k. split; [done |].
    unfold interrupt_pending in Hk. by apply andb_true_iff in Hk as [Hk _]. }
  unfold pending_interrupts. fold mie mip del sdel. unfold select_interrupt.
  destruct (Z.eqb_spec (mie .& mip) 0) as [E0|E0].
  { assert (Hnone : forall m, select_for s m = None).
    { intros m. destruct (Hlevel m) as [|(k & _ & Hk)]; [done |].
      rewrite <- Z.land_spec, E0, Z.testbit_0_l in Hk. done. }
    by rewrite !Hnone. }
  destruct (Hok (uint32 (Z.lnot del))) as [Hu1 Hm1].
  pose proof (Hok (del .& uint32 (Z.lnot sdel))) as [Hu2 Hm2].
  pose proof (Hok (del .& sdel)) as [Hu3 Hm3].
  rewrite Z.land_assoc in Hu2, Hm2, Hu3, Hm3.
  change ((prv s <? MachineMode) || (prv s =? MachineMode) && nonzero (get_bits (csr_regs s) csrs.mstatus mstatus.mie))
    with (interrupts_enabled s MachineMode).
  rewrite (select_level s MachineMode); [| done | done | done |].
  2: { intros k Hk. rewrite Htarget, !Z.land_spec, Hnot by done. f_equal.
       by destruct (Z.testbit del k), (Z.testbit sdel k). }
  destruct (select_for s MachineMode); [done |].
  change ((prv s <? SupervisorMode) || (prv s =? SupervisorMode) && nonzero (get_bits (csr_regs s) csrs.mstatus mstatus.sie))
    with (interrupts_enabled s SupervisorMode).
  rewrite (select_level s SupervisorMode); [| done | done | done |].
  2: { intros k Hk. rewrite Htarget, !Z.land_spec, Hnot by done. rewrite <- !andb_assoc. do 2 f_equal.
       by destruct (Z.testbit del k), (Z.testbit sdel k). }
  destruct (select_for s SupervisorMode); [done |].
  assert (Euser : (prv s =? UserMode) && nonzero (get_bits (csr_regs s) csrs.mstatus mstatus.uie)
    = interrupts_enabled s UserMode).
  { unfold interrupts_enabled. pose proof (ok_prv Hs).
    by rewrite (proj2 (Z.ltb_ge (prv s) UserMode)) by (unfold UserMode; lia). }
  rewrite Euser, (select_level s UserMode); [by destruct (select_for s UserMode) | done | done | done |].
  intros k Hk. rewrite Htarget, !Z.land_spec by done. rewrite <- !andb_assoc. do 2 f_equal.
  by destruct (Z.testbit del k), (Z.testbit sdel k).
Qed.

(** C6: the interrupt the core takes.  The function the code computes with masks
    and a chain of tests, over the enabled and pending bits, the delegation
    registers, the mode and the enable bits of the status register, selects the
    interrupt the privileged architecture prescribes: that of the highest mode
    which has one pending and enabled, and there of the highest priority. *)
Theorem interrupt_selection (s : ISS) :
  core_ok s -> code_decision (pending_interrupts s) = select_interrupt s.
Proof. apply code_decision_select. Qed.

(** A core after reset with some interrupts enabled and pending. *)
Definition with_interrupts (mie mip mideleg prv : Z) : ISS :=
  set_prv prv (set_csr_regs (csr_set csrs.mideleg mideleg (csr_set csrs.mie mie
    (csr_set csrs.mip mip csr_table_init))) (ISS_new 0 false)).

Lemma with_interrupts_ok mie mip mideleg prv :
  is_uint 32 mie -> Z.ldiff mie MIE_MASK = 0 -> is_uint 32 mip -> is_uint 32 mideleg ->
  0 <= prv <= 3 -> core_ok (with_interrupts mie mip mideleg prv).
Proof.
  intros. apply core_ok_set_prv; [done |]. apply core_ok_set_csrs; [| by apply ISS_new_ok].
  apply csrs_ok_set; [by apply csr_value_ok_plain |]. apply csrs_ok_set; [by split |].
  apply csrs_ok_set; [by apply csr_value_ok_plain | apply csrs_ok_init].
Qed.

(** In supervisor mode, a delegated software interrupt and a machine timer
    interrupt are pending: the timer interrupt is taken, in machine mode. *)
Lemma interrupt_selection_witness :
  let s := with_interrupts 0xbbb 0x82 0x2 SupervisorMode in
  core_ok s /\ code_decision (pending_interrupts s) = Some (MachineMode, EXC_M_TIMER_INTERRUPT).
Proof.
  set (s := with_interrupts _ _ _ _).
  assert (Hs : core_ok s) by by apply with_interrupts_ok.
  split; [exact Hs |]. etransitivity; [exact (interrupt_selection s Hs) | by vm_compute].
Defined.

(** ** Taking an interrupt *)

Section interrupt.
Context {W : Type} `{platform_ok W} `{softfloat}.

Definition interrupted (m : PrivilegeLevel) (k : Z) (c : ISS) : ISS :=
  set_csr_regs (set_bits (cause_of m) mcause.interrupt 1
    (set_bits (cause_of m) mcause.exception_code k (csr_regs c))) c.

Lemma prepare_interrupt_run x k (s : machine W) :
  trap_mode (target_mode x) -> interrupt_code (pending x) = Some k ->
  prepare_interrupt x s = (Ret tt, Machine (interrupted (target_mode x) k (core s)) (env s)).
Proof.
  intros Hm Hk. unfold prepare_interrupt. rewrite Hk. destruct Hm as [->|[->| ->]]; reflexivity.
Qed.

Lemma take_interrupt_ends (s : machine W) :
  core_ok (core s) -> env_ok (env s) ->
  let x := pending_interrupts (core s) in
  match code_decision x with
  | None => take_interrupt s = (Ret tt, s)
  | Some (m, k) =>
      trap_mode m /\
      ends_with take_interrupt
        (fun c => enter_handler m (set_lr_sc_counter 0 (interrupted m k c))) s
  end.
Proof.
  intros Hs He x. unfold code_decision, take_interrupt, compute_pending_interrupts, ends_with.
  unfold mbind at 1 3, M_bind at 1 3. unfold read, gets. fold x.
  pose proof (pending_interrupts_ok (core s) Hs) as Hx. fold x in Hx.
  destruct (Z.eqb_spec (target_mode x) NoneMode) as [Ex|Ex]; [done |].
  destruct Hx as [Hx|[Hm Hk]]; [destruct (Ex Hx) |].
  destruct (interrupt_code (pending x)) as [k|] eqn:Ek; [| done]. cbn [fmap option_fmap option_map].
  split; [done |]. cbn [negb when].
  pose proof (safe_prepare_interrupt (fun _ => True) x ltac:(split; [done | by rewrite Ek]) s
    ltac:(by split)) as Hsafe.
  unfold mbind, M_bind. rewrite (prepare_interrupt_run x k s Hm Ek) in *.
  destruct Hsafe as (_ & Hc & _). by apply switch_ends.
Qed.
End interrupt.

Lemma select_interrupt_some s m k :
  select_interrupt s = Some (m, k) -> prv s <= m /\ 0 <= k <= 11.
Proof.
  assert (Hlevel : forall m', select_for s m' = Some (m, k) -> prv s <= m /\ 0 <= k <= 11).
  { intros m'. unfold select_for. destruct (interrupts_enabled s m') eqn:Een; [| done].
    destruct (List.find (interrupt_pending s m') interrupt_priority) as [k'|] eqn:Ef; [| done].
    intros [= <- <-]. apply List.find_some in Ef as [Hin _]. split.
    - unfold interrupts_enabled in Een. lia.
    - repeat (destruct Hin as [<-|Hin]; [lia |]). done. }
  unfold select_interrupt.
  destruct (select_for s MachineMode) eqn:E1; [intros [= ->]; by eapply Hlevel |].
  destruct (select_for s SupervisorMode) eqn:E2; [intros [= ->]; by eapply Hlevel |].
  apply Hlevel.
Qed.

Lemma interrupt_bit k : is_uint 31 k -> (1 .<< 31) .| k = 2 ^ 31 + k.
Proof.
  intros Hk. change (1 .<< 31) with (2 ^ 31). rewrite is_uint_bits in Hk by lia.
  assert (E : Z.land (2 ^ 31) k = 0).
  { apply Z.bits_inj'. intros j ?. rewrite Z.land_spec, Z.pow2_bits_eqb, Z.testbit_0_l by lia.
    destruct (Z.eqb_spec 31 j) as [<-|]; [by rewrite Hk | done]. }
  by rewrite Z.add_nocarry_lxor, Z.lxor_lor.
Qed.

(** Taking an interrupt.  After an instruction, the core continues unless
    the architecture selects an interrupt; then (unless a call of the platform
    fails) it enters the handler of the selected mode with the address of the
    next instruction in epc, the interrupt bit and the code in the cause
    register, at the base of the trap vector or, when the vector is in vectored
    mode, at the entry of that interrupt. *)
Theorem take_interrupt_spec {W} `{platform_ok W} `{softfloat} (s : machine W) :
  core_ok (core s) -> env_ok (env s) -> trap_mode (prv (core s)) ->
  match select_interrupt (core s) with
  | None => take_interrupt s = (Ret tt, s)
  | Some (m, k) =>
      match take_interrupt s with
      | (Ret _, s') =>
          handler_entered m (pc (core s)) (core s) (core s') /\
          csr_get (csr_regs (core s')) (cause_of m) = 2 ^ 31 + k /\
          csr_get (csr_regs (core s')) (tval_of m) = csr_get (csr_regs (core s)) (tval_of m) /\
          pc (core s') = handler_pc (csr_get (csr_regs (core s)) (tvec_of m)) 1 k
      | (Throw _, _) => False
      | (Fatal f, _) => env_fails f
      end
  end.
Proof.
  intros Hs He Hp. pose proof (take_interrupt_ends s Hs He) as Ht. cbv zeta in Ht.
  rewrite code_decision_select in Ht by done.
  destruct (select_interrupt (core s)) as [[m k]|] eqn:Esel; [| done].
  destruct Ht as [Hm Ht]. apply select_interrupt_some in Esel as (Hle & Hk).
  unfold ends_with in Ht. destruct (take_interrupt s) as [[u|e'|f] s']; [| done | done].
  destruct Ht as [-> _]. unfold interrupted.
  set (t := set_bits (cause_of m) _ _ _).
  assert (Hkr : is_uint 31 k) by (unfold is_uint; lia).
  assert (Et : t = cause_csrs m 1 k (csr_regs (core s))).
  { unfold t, cause_csrs, set_bits. rewrite !csr_get_set_same, !csr_set_set.
    by rewrite set_field_comm by by split. }
  rewrite Et. clear t Et.
  split; [| destruct (enter_handler_cause m (set_lr_sc_counter 0
    (set_csr_regs (cause_csrs m 1 k (csr_regs (core s))) (core s))) 1 k) as (Ec & Etv & Epc)].
  - apply (enter_handler_entered m (core s) _ (pc (core s))); [done.. |]. intros.
    by apply cause_csrs_other.
  - apply cause_csrs_ok, Hs.
  - done.
  - done.
  - by apply cause_csrs_get; [apply Hs | |].
  - pose proof (mode_csrs_neq m) as Hneq. destruct_and! Hneq.
    rewrite Ec, Etv, Epc. cbn [csr_regs set_lr_sc_counter set_csr_regs].
    rewrite !cause_csrs_other by done. split; [| done].
    apply interrupt_bit. unfold is_uint. lia.
Qed.

Lemma take_interrupt_spec_witness :
  let s := Machine (with_interrupts 0xbbb 0x82 0x2 SupervisorMode) (∅ : ram) in
  trap_mode (prv (core s)) /\
  match take_interrupt s with
  | (Ret _, s') => csr_get (csr_regs (core s')) csrs.mcause = 2 ^ 31 + EXC_M_TIMER_INTERRUPT
  | _ => False
  end.
Proof.
  set (s := Machine _ _).
  assert (Hs : core_ok (core s)) by by apply with_interrupts_ok.
  assert (Hp : trap_mode (prv (core s))) by (right; by left).
  split; [exact Hp |]. pose proof (take_interrupt_spec s Hs I Hp) as Ht.
  destruct (take_interrupt s) as [[u|e|f] s'].
  - exact (proj1 (proj2 Ht)).
  - exact Ht.
  - exact Ht.
Defined.

(** ** Returning from a handler *)

Definition saved_mode (m : PrivilegeLevel) (t : csr_table) : PrivilegeLevel :=
  match pp_of m with Some f => get_bits t csrs.mstatus f | None => UserMode end.

Definition leave_csrs (m : PrivilegeLevel) (t : csr_table) : csr_table :=
  let t' := set_bits csrs.mstatus (pie_of m) 1
    (set_bits csrs.mstatus (ie_of m) (get_bits t csrs.mstatus (pie_of m)) t) in
  set_previous m (if has_user_mode_extension (csr_get t csrs.misa) then UserMode else m) t'.

Definition leave_handler (m : PrivilegeLevel) (c : ISS) : ISS :=
  set_csr_regs (leave_csrs m (csr_regs c))
    (set_pc (csr_get (csr_regs c) (epc_of m)) (set_prv (saved_mode m (csr_regs c)) c)).

Lemma return_from_trap_handler_run {W} `{platform W} `{softfloat} m (s : machine W) :
  trap_mode m ->
  return_from_trap_handler m s = (Ret tt, Machine (leave_handler m (core s)) (env s)).
Proof.
  intros Hm.
  assert (Hepc : forall f g x y r t, r <> csrs.mstatus ->
    csr_get (set_bits csrs.mstatus f x (set_bits csrs.mstatus g y t)) r = csr_get t r)
    by (intros; by rewrite !csr_get_set_bits_other).
  unfold leave_handler, leave_csrs, set_previous, saved_mode.
  destruct Hm as [->|[->| ->]]; cbn -[has_user_mode_extension];
    unfold return_from_trap_handler, mbind, M_bind, csr_reg, csr_field, read, gets, set_csr_field,
      update_csrs, write_pc, update, modify; cbn -[has_user_mode_extension];
    by rewrite Hepc.
Qed.

(** C8: trap and return.  Let an exception be taken in mode [m], and let the
    handler end in a state [s2] in which epc and the status register are those it
    was entered with (it may have changed everything else).  Then returning from
    mode [m] always succeeds and restores the program counter of the trapping
    instruction, its privilege mode and the interrupt enable bit of mode [m]. *)
Theorem trap_round_trip {W} `{platform_ok W} `{softfloat} e (s s1 s2 : machine W) :
  trap_ok e -> trap_mode (prv (core s)) -> core_ok (core s) -> env_ok (env s) ->
  take_trap e s = (Ret tt, s1) ->
  let m := exception_target (core s) e in
  csr_get (csr_regs (core s2)) (epc_of m) = csr_get (csr_regs (core s1)) (epc_of m) ->
  csr_get (csr_regs (core s2)) csrs.mstatus = csr_get (csr_regs (core s1)) csrs.mstatus ->
  match return_from_trap_handler m s2 with
  | (Ret _, s3) =>
      pc (core s3) = last_pc (core s) /\ prv (core s3) = prv (core s) /\
      get_bits (csr_regs (core s3)) csrs.mstatus (ie_of m)
      = get_bits (csr_regs (core s)) csrs.mstatus (ie_of m) /\
      regs (core s3) = regs (core s2) /\ env s3 = env s2
  | _ => False
  end.
Proof.
  intros He Hp Hs Henv Htrap m Hepc Hst.
  destruct (take_trap_enters e s He Hp Hs Henv) as [Hle Ht]. fold m in Hle, Ht.
  rewrite Htrap in Ht. destruct Ht as ([] & _).
  assert (Hm : trap_mode m) by by apply exception_target_mode.
  rewrite return_from_trap_handler_run by done. cbn. split_and!; try done.
  - by rewrite Hepc.
  - unfold saved_mode. destruct (pp_of m) as [f|] eqn:Ef.
    + unfold get_bits. rewrite Hst. by apply entered_pp0.
    + destruct Hm as [Em|[Em|Em]]; rewrite Em in *; try done.
      destruct Hp as [E|[E|E]]; rewrite E in *; done.
  - unfold leave_csrs, set_previous.
    rewrite <- entered_pie0.
    assert (Hb : forall f, get_bits (csr_regs (core s2)) csrs.mstatus f
      = get_bits (csr_regs (core s1)) csrs.mstatus f) by (intros; unfold get_bits; by rewrite Hst).
    rewrite <- Hb. clear Hb entered_pie0 entered_ie0 entered_pp0 entered_status0.
    destruct Hm as [-> |[-> | ->]]; cbn -[has_user_mode_extension]; autorewrite with vp_csr;
      by apply get_bits_id.
Qed.

(** A core in user mode whose illegal instructions are delegated to supervisor
    mode. *)
Definition delegating : machine ram :=
  Machine (set_prv UserMode (set_csr_regs (csr_set csrs.medeleg 4 csr_table_init)
    (set_last_pc 64 (set_pc 68 (ISS_new 0 false))))) ∅.

Lemma delegating_ok : core_ok (core delegating).
Proof.
  apply core_ok_set_prv; [done |]. apply core_ok_set_csrs.
  - apply csrs_ok_set; [by apply csr_value_ok_plain | apply csrs_ok_init].
  - apply core_ok_set_last_pc; [done.. |]. apply core_ok_set_pc; [done.. |]. by apply ISS_new_ok.
Qed.

Definition illegal : SimulationTrap := mkTrap EXC_ILLEGAL_INSTR 0xffffffff.

Lemma illegal_ok : trap_ok illegal.
Proof. by repeat split. Qed.

Lemma take_trap_spec_witness :
  exception_target (core delegating) illegal = SupervisorMode /\
  match take_trap illegal delegating with
  | (Ret _, s') => csr_get (csr_regs (core s')) csrs.scause = EXC_ILLEGAL_INSTR
  | _ => False
  end.
Proof.
  split; [by vm_compute |].
  pose proof (take_trap_spec illegal delegating illegal_ok (or_intror (or_intror eq_refl))
    delegating_ok I) as [_ Ht].
  destruct (take_trap illegal delegating) as [[u|e|f] s'].
  - exact (proj1 (proj2 Ht)).
  - exact Ht.
  - exact Ht.
Defined.

Lemma trap_round_trip_witness :
  exists s1, take_trap illegal delegating = (Ret tt, s1) /\
  match return_from_trap_handler SupervisorMode s1 with
  | (Ret _, s3) => pc (core s3) = 64 /\ prv (core s3) = UserMode
  | _ => False
  end.
Proof.
  exists (snd (take_trap illegal delegating)).
  assert (E : take_trap illegal delegating = (Ret tt, snd (take_trap illegal delegating)))
    by by vm_compute.
  split; [exact E |].
  pose proof (trap_round_trip illegal delegating _ (snd (take_trap illegal delegating)) illegal_ok
    (or_intror (or_intror eq_refl)) delegating_ok I E eq_refl eq_refl) as Ht.
  change (exception_target (core delegating) illegal) with SupervisorMode in Ht.
  destruct (return_from_trap_handler SupervisorMode _) as [[u|e|f] s3].
  - exact (conj (proj1 Ht) (proj1 (proj2 Ht))).
  - exact Ht.
  - exact Ht.
Defined.
