(* ===== verification/IssCsrProps.v ===== *)
(** * Accesses to control and status registers

    The privilege checks of the CSR instructions, the values that are read back
    after a write, and the isolation of the machine-level state from
    the CSR instructions of the lower modes. *)

From S2P Require Import Prelude Instr Decode Trap Csr Fp Iss IssExec IssLogic IssInv IssValues IssSafe RamPlatform.

(** The lowest mode that may access a CSR, and whether the CSR is read-only,
    are fields of its address. *)
Definition csr_level (addr : Z) : PrivilegeLevel := addr / 256 mod 4.
Definition csr_read_only (addr : Z) : bool := addr / 1024 mod 4 =? 3.

Definition csr_op (op : Mapping) : Prop :=
  In op [CSRRW; CSRRS; CSRRC; CSRRWI; CSRRSI; CSRRCI].

(** CSRRW and CSRRWI always write, the others when their operand field is not 0. *)
Definition csr_op_writes (i : Instruction) (op : Mapping) : bool :=
  match op with
  | CSRRW | CSRRWI => true
  | CSRRS | CSRRC => negb (rs1 i =? 0)
  | _ => negb (zimm i =? 0)
  end.

Lemma csr_level_bits addr : (0x300 .& addr) .>> 8 = csr_level addr.
Proof.
  unfold csr_level. change (addr / 256) with (addr / 2 ^ 8). rewrite <- Z.shiftr_div_pow2 by lia.
  change (addr .>> 8 mod 4) with (uint 2 (addr .>> 8)).
  apply Z.bits_inj'. intros k ?.
  rewrite uint_testbit, !Z.shiftr_spec, Z.land_spec by lia.
  change 0x300 with (Z.ones 2 .<< 8). rewrite ones_shiftl_testbit by lia.
  destruct (Z.leb_spec 8 (k + 8)), (Z.ltb_spec (k + 8) (8 + 2)), (Z.ltb_spec k 2); lia || done.
Qed.

Lemma csr_read_only_bits addr : ((0xC00 .& addr) .>> 10 =? 3) = csr_read_only addr.
Proof.
  unfold csr_read_only. f_equal. change (addr / 1024) with (addr / 2 ^ 10).
  rewrite <- Z.shiftr_div_pow2 by lia. change (addr .>> 10 mod 4) with (uint 2 (addr .>> 10)).
  apply Z.bits_inj'. intros k ?.
  rewrite uint_testbit, !Z.shiftr_spec, Z.land_spec by lia.
  change 0xC00 with (Z.ones 2 .<< 10). rewrite ones_shiftl_testbit by lia.
  destruct (Z.leb_spec 10 (k + 10)), (Z.ltb_spec (k + 10) (10 + 2)), (Z.ltb_spec k 2); lia || done.
Qed.

Section csr.
Context {W : Type} `{platform_ok W} `{softfloat}.

Abbreviation R := (M (machine W) SimulationTrap).

Lemma is_invalid_csr_access_run addr w (s : machine W) :
  core_ok (core s) ->
  is_invalid_csr_access addr w s
  = (Ret (w && csr_read_only addr || (prv (core s) <? csr_level addr)), s).
Proof.
  intros Hs. unfold is_invalid_csr_access, mbind, M_bind.
  replace (when _ (REQUIRE_ISA F_ISA_EXT) s) with (Ret (E := SimulationTrap) tt, s).
  2: { destruct (_ || _); [| done]. symmetry. apply require_isa_run; [done | cbn; tauto]. }
  unfold csr_reg, read, gets. rewrite csr_level_bits, csr_read_only_bits.
  pose proof (ok_csrs Hs csrs.misa) as [_ Hm].
  rewrite misa_ok_S, misa_ok_U by apply Hm. cbn [negb]. rewrite !andb_false_r, !orb_false_r.
  done.
Qed.

Lemma illegal_run {A} (s : machine W) :
  (RAISE_ILLEGAL_INSTRUCTION : R A) s
  = (Throw (mkTrap EXC_ILLEGAL_INSTR (uint32 (instr (core s)))), s).
Proof. done. Qed.

Lemma exec_csr_invalid i op (s : machine W) :
  core_ok (core s) -> csr_op op ->
  csr_op_writes i op && csr_read_only (csr i) || (prv (core s) <? csr_level (csr i)) = true ->
  exec_csr i op s = (Throw (mkTrap EXC_ILLEGAL_INSTR (uint32 (instr (core s)))), s).
Proof.
  intros Hs Hop Hinv.
  repeat (destruct Hop as [<-|Hop]; [
    cbn [exec_csr csr_op_writes] in *; unfold exec_csrrw, exec_csr_update, mbind, M_bind;
    rewrite is_invalid_csr_access_run by done;
    unfold x_zero; rewrite Hinv; reflexivity |]).
  done.
Qed.
End csr.

(** The privilege check of the CSR instructions.  When the level in the
    address of the CSR is above the mode of the core, or the instruction writes
    a CSR whose address says it is read-only, every CSR instruction raises an
    illegal instruction exception with the instruction word, and changes
    nothing. *)
Theorem csr_access_denied {W} `{platform_ok W} `{softfloat} (i : Instruction) (op : Mapping)
    (s : machine W) :
  core_ok (core s) -> csr_op op ->
  prv (core s) < csr_level (csr i) \/ csr_op_writes i op = true /\ csr_read_only (csr i) = true ->
  exec_op i op s = (Throw (mkTrap EXC_ILLEGAL_INSTR (uint32 (instr (core s)))), s).
Proof.
  intros Hs Hop Hden.
  transitivity (exec_csr i op s);
    [by repeat (destruct Hop as [<-|Hop]; [done |]) | apply exec_csr_invalid; [done | done |]].
  destruct Hden as [Hlt|[-> ->]]; [| done].
  rewrite (proj2 (Z.ltb_lt _ _)) by done. apply orb_true_r.
Qed.

(** The read-only register [mhartid] cannot be written, even in machine mode. *)
Lemma csr_access_denied_witness :
  let s := ram_machine [] in
  csr_read_only (csr 0xf1409073) = true /\
  exec_op 0xf1409073 CSRRW s = (Throw (mkTrap EXC_ILLEGAL_INSTR 0), s).
Proof.
  split; [by vm_compute |].
  exact (csr_access_denied 0xf1409073 CSRRW (ram_machine []) (ISS_new_ok 0 false ltac:(done))
    (or_introl eq_refl) (or_intror (conj eq_refl eq_refl))).
Defined.

(** ** Reading back what was written *)

Definition all_bits : Z := 0xffffffff.

(** The register behind the address of a plain read-write CSR, the bits a read
    shows and the bits a write changes. *)
Definition csr_view (addr : Z) : option (csrs.reg * Z * Z) :=
  if addr =? MSTATUS_ADDR then Some (csrs.mstatus, MSTATUS_MASK, MSTATUS_MASK)
  else if addr =? SSTATUS_ADDR then Some (csrs.mstatus, SSTATUS_MASK, SSTATUS_MASK)
  else if addr =? USTATUS_ADDR then Some (csrs.mstatus, USTATUS_MASK, USTATUS_MASK)
  else if addr =? MIP_ADDR then Some (csrs.mip, MIP_READ_MASK, MIP_WRITE_MASK)
  else if addr =? SIP_ADDR then Some (csrs.mip, SIP_MASK, SIP_MASK)
  else if addr =? UIP_ADDR then Some (csrs.mip, UIP_MASK, UIP_MASK)
  else if addr =? MIE_ADDR then Some (csrs.mie, MIE_MASK, MIE_MASK)
  else if addr =? SIE_ADDR then Some (csrs.mie, SIE_MASK, SIE_MASK)
  else if addr =? UIE_ADDR then Some (csrs.mie, UIE_MASK, UIE_MASK)
  else if addr =? FCSR_ADDR then Some (csrs.fcsr, FCSR_MASK, FCSR_MASK)
  else if addr =? MTVEC_ADDR then Some (csrs.mtvec, all_bits, MTVEC_MASK)
  else if addr =? STVEC_ADDR then Some (csrs.stvec, all_bits, MTVEC_MASK)
  else if addr =? UTVEC_ADDR then Some (csrs.utvec, all_bits, MTVEC_MASK)
  else if addr =? MEPC_ADDR then Some (csrs.mepc, all_bits, 0xfffffffe)
  else if addr =? SEPC_ADDR then Some (csrs.sepc, all_bits, 0xfffffffe)
  else if addr =? UEPC_ADDR then Some (csrs.uepc, all_bits, 0xfffffffe)
  else if addr =? MIDELEG_ADDR then Some (csrs.mideleg, all_bits, MIDELEG_MASK)
  else if addr =? MEDELEG_ADDR then Some (csrs.medeleg, all_bits, MEDELEG_MASK)
  else if addr =? SIDELEG_ADDR then Some (csrs.sideleg, all_bits, SIDELEG_MASK)
  else if addr =? SEDELEG_ADDR then Some (csrs.sedeleg, all_bits, SEDELEG_MASK)
  else if addr =? MCOUNTEREN_ADDR then Some (csrs.mcounteren, all_bits, MCOUNTEREN_MASK)
  else if addr =? SCOUNTEREN_ADDR then Some (csrs.scounteren, all_bits, MCOUNTEREN_MASK)
  else if addr =? MCOUNTINHIBIT_ADDR then Some (csrs.mcountinhibit, all_bits, MCOUNTINHIBIT_MASK)
  else if addr =? MSCRATCH_ADDR then Some (csrs.mscratch, all_bits, all_bits)
  else if addr =? SSCRATCH_ADDR then Some (csrs.sscratch, all_bits, all_bits)
  else if addr =? USCRATCH_ADDR then Some (csrs.uscratch, all_bits, all_bits)
  else if addr =? MCAUSE_ADDR then Some (csrs.mcause, all_bits, all_bits)
  else if addr =? SCAUSE_ADDR then Some (csrs.scause, all_bits, all_bits)
  else if addr =? UCAUSE_ADDR then Some (csrs.ucause, all_bits, all_bits)
  else if addr =? MTVAL_ADDR then Some (csrs.mtval, all_bits, all_bits)
  else if addr =? STVAL_ADDR then Some (csrs.stval, all_bits, all_bits)
  else if addr =? UTVAL_ADDR then Some (csrs.utval, all_bits, all_bits)
  else None.

(** The value of a register after a masked write. *)
Definition merge (old mask v : Z) : Z := Z.ldiff old mask .| (v .& mask).

Lemma land_lnot old mask : is_uint 32 old -> old .& uint32 (Z.lnot mask) = Z.ldiff old mask.
Proof.
  intros Ho. apply Z.bits_inj'. intros k ?. rewrite Z.land_spec, Z.ldiff_spec.
  rewrite is_uint_bits in Ho by lia. unfold uint32. rewrite uint_testbit by lia.
  destruct (Z.ltb_spec k 32); [by rewrite Z.lnot_spec by lia | by rewrite Ho].
Qed.

Lemma merge_all old v : is_uint 32 old -> is_uint 32 v -> merge old all_bits v = v.
Proof.
  intros Ho Hv. unfold merge. apply (uint_bits_inj 32); [lia | | done |].
  - apply is_uint_lor; [lia | | by apply is_uint_land_l].
    rewrite is_uint_bits in * by lia. intros. by rewrite Z.ldiff_spec, Ho.
  - intros k ?. rewrite Z.lor_spec, Z.ldiff_spec, Z.land_spec.
    change all_bits with (Z.ones 32). rewrite Z.ones_spec_low by lia.
    by rewrite andb_false_r, andb_true_r.
Qed.

Section readback.
Context {W : Type} `{platform W} `{softfloat}.

Abbreviation R := (M (machine W) SimulationTrap).

Definition with_csr (r : csrs.reg) (v : Z) (s : machine W) : machine W :=
  Machine (set_csr_regs (csr_set r v (csr_regs (core s))) (core s)) (env s).

Lemma set_csr_value_view addr r rm wm v (s : machine W) :
  core_ok (core s) -> csr_view addr = Some (r, rm, wm) -> is_uint 32 v ->
  set_csr_value addr v s = (Ret tt, with_csr r (merge (csr_get (csr_regs (core s)) r) wm v) s).
Proof.
  intros Hs Hv Hvr. pose proof (ok_csrs Hs csrs.misa) as [_ Hm].
  assert (Hr : forall r', csrs.is_64 r' = false -> is_uint 32 (csr_get (csr_regs (core s)) r'))
    by (intros; by apply csr_get_range32; [apply Hs |]).
  unfold set_csr_value, mbind, M_bind, csr_reg, read, gets.
  rewrite (misa_ok_mask _ Hm).
  revert Hv. unfold csr_view.
  repeat (lazymatch goal with |- (if addr =? ?a then Some _ else _) = _ -> _ =>
    destruct (Z.eqb_spec addr a) as [->|]; [intros [= <- <- <-]; unfold with_csr;
      first [ unfold merge; rewrite <- land_lnot by (by apply Hr); reflexivity
            | rewrite merge_all by (done || by apply Hr); reflexivity ] |] end).
  intros [=].
Qed.

Lemma get_csr_value_view addr r rm wm (s : machine W) :
  core_ok (core s) -> csr_view addr = Some (r, rm, wm) ->
  get_csr_value addr s = (Ret (csr_get (csr_regs (core s)) r .& rm), s).
Proof.
  intros Hs.
  assert (Hr : forall r', csrs.is_64 r' = false ->
    csr_get (csr_regs (core s)) r' = csr_get (csr_regs (core s)) r' .& all_bits).
  { intros r' Hr'. change all_bits with (Z.ones 32). rewrite Z.land_ones by lia. symmetry.
    apply (uint_id 32). by apply csr_get_range32; [apply Hs |]. }
  unfold csr_view.
  repeat (lazymatch goal with |- (if addr =? ?a then Some _ else _) = _ -> _ =>
    destruct (Z.eqb_spec addr a) as [->|]; [intros [= <- <- <-];
      first [ reflexivity | rewrite <- Hr by done; reflexivity ] |] end).
  intros [=].
Qed.
End readback.

(** Reading back a CSR.  For every plain read-write CSR (its register and its
    masks are those of [csr_view]), writing [v] succeeds and changes only the bits
    of its write mask in its register; reading it then returns those bits of [v]
    and the old value elsewhere, as far as its read mask shows them, and reading
    changes nothing. *)
Theorem csr_write_read {W} `{platform_ok W} `{softfloat} addr r rm wm v (s : machine W) :
  core_ok (core s) -> env_ok (env s) -> csr_view addr = Some (r, rm, wm) -> is_uint 32 v ->
  let new := merge (csr_get (csr_regs (core s)) r) wm v in
  set_csr_value addr v s = (Ret tt, with_csr r new s) /\
  get_csr_value addr (with_csr r new s) = (Ret (new .& rm), with_csr r new s).
Proof.
  intros Hs He Hv Hvr new.
  assert (Hset : set_csr_value addr v s = (Ret tt, with_csr r new s))
    by by eapply set_csr_value_view.
  split; [done |].
  pose proof (safe_set_csr_value (fun _ => True) addr v Hvr s ltac:(by split)) as Hsafe.
  rewrite Hset in Hsafe. destruct Hsafe as (_ & Hs' & _).
  rewrite (get_csr_value_view addr r rm wm _ Hs' Hv). cbn [core csr_regs set_csr_regs with_csr].
  by rewrite csr_get_set_same.
Qed.

(** Through sstatus, a write of ones changes the supervisor bits only. *)
Lemma csr_write_read_witness :
  let s := ram_machine [] in
  csr_view SSTATUS_ADDR = Some (csrs.mstatus, SSTATUS_MASK, SSTATUS_MASK) /\
  get_csr_value SSTATUS_ADDR (with_csr csrs.mstatus (merge 0 SSTATUS_MASK all_bits) s)
  = (Ret SSTATUS_MASK, with_csr csrs.mstatus (merge 0 SSTATUS_MASK all_bits) s).
Proof.
  split; [by vm_compute |].
  exact (proj2 (csr_write_read SSTATUS_ADDR _ _ _ all_bits (ram_machine [])
    (ISS_new_ok 0 false ltac:(done)) I eq_refl ltac:(done))).
Defined.

(** ** Isolation of the machine-level state *)

(** The registers of machine mode. *)
Definition machine_csr (r : csrs.reg) : bool :=
  match r with
  | csrs.mvendorid | csrs.marchid | csrs.mimpid | csrs.mhartid | csrs.misa | csrs.medeleg
  | csrs.mideleg | csrs.mtvec | csrs.mcounteren | csrs.mcountinhibit | csrs.mscratch
  | csrs.mepc | csrs.mcause | csrs.mtval | csrs.pmpaddr _ | csrs.pmpcfg _ => true
  | _ => false
  end.

(** The bits of a 32-bit register that a mask of supervisor mode hides. *)
Definition machine_part (mask v : Z) : Z := v .& uint32 (Z.lnot mask).

(** Two cores with the same machine-level state: the same mode, the same
    machine-level registers, and the same bits of the three registers supervisor
    mode sees a part of, outside that part. *)
Record same_machine_state (c c' : ISS) : Prop := {
  same_prv : prv c' = prv c;
  same_csrs r : machine_csr r = true -> csr_get (csr_regs c') r = csr_get (csr_regs c) r;
  same_mstatus : machine_part SSTATUS_MASK (csr_get (csr_regs c') csrs.mstatus)
    = machine_part SSTATUS_MASK (csr_get (csr_regs c) csrs.mstatus);
  same_mie : machine_part SIE_MASK (csr_get (csr_regs c') csrs.mie)
    = machine_part SIE_MASK (csr_get (csr_regs c) csrs.mie);
  same_mip : machine_part SIP_MASK (csr_get (csr_regs c') csrs.mip)
    = machine_part SIP_MASK (csr_get (csr_regs c) csrs.mip)
}.

#[export] Instance same_machine_state_preorder : PreOrder same_machine_state.
Proof.
  split.
  - intros c. by constructor.
  - intros c1 c2 c3 [] []. constructor; [congruence | | congruence..].
    intros r Hr. by rewrite same_csrs1, same_csrs0.
Qed.

Section isolation.
Context {W : Type} `{platform_ok W} `{softfloat}.

Abbreviation R := (M (machine W) SimulationTrap).

(** A computation that keeps the machine-level state, however it ends. *)
Definition isolated {A} (m : R A) : Prop :=
  forall s, same_machine_state (core s) (core (snd (m s))).

Lemma isolated_pure {A} (m : R A) : (forall s, core (snd (m s)) = core s) -> isolated m.
Proof. intros Hm s. by rewrite Hm. Qed.

Lemma isolated_bind {A B} (m : R A) (k : A -> R B) :
  isolated m -> (forall a, isolated (k a)) -> isolated (m ≫= k).
Proof.
  intros Hm Hk s. specialize (Hm s). unfold mbind, M_bind.
  destruct (m s) as [[a|e|f] s']; simpl in *; [| done | done]. etransitivity; [done | apply Hk].
Qed.

Lemma isolated_when b (m : R unit) : isolated m -> isolated (when b m).
Proof. intros. destruct b; [done | by apply isolated_pure]. Qed.

Lemma isolated_set_reg i v : isolated (set_reg i v).
Proof. intros s. by constructor. Qed.

(** Writes of the table: of a register that is not protected, or of the visible
    part of one of the three shared registers. *)
Definition shared_mask (r : csrs.reg) : option Z :=
  match r with
  | csrs.mstatus => Some SSTATUS_MASK
  | csrs.mie => Some SIE_MASK
  | csrs.mip => Some SIP_MASK
  | _ => None
  end.

Lemma isolated_set_csr r v :
  machine_csr r = false -> shared_mask r = None -> isolated (set_csr r v).
Proof.
  intros Hr Hsh s. constructor; cbn; try done; [| by rewrite csr_get_set_other by by intros -> ..].
  intros r' Hr'. rewrite csr_get_set_other; [done |]. intros ->. congruence.
Qed.

Lemma masked_outside old mask v M :
  Z.ldiff mask M = 0 ->
  machine_part M ((old .& uint32 (Z.lnot mask)) .| (v .& mask)) = machine_part M old.
Proof.
  intros Hm. apply Z.bits_inj'. intros k ?. unfold machine_part, uint32.
  assert (Hk := f_equal (fun z => Z.testbit z k) Hm). cbv beta in Hk.
  rewrite Z.testbit_0_l, Z.ldiff_spec in Hk.
  rewrite !Z.land_spec, Z.lor_spec, !Z.land_spec, !uint_testbit, !Z.lnot_spec by lia.
  destruct (k <? 32), (Z.testbit old k), (Z.testbit mask k), (Z.testbit v k), (Z.testbit M k);
    done.
Qed.

Lemma isolated_csr_write r mask v :
  machine_csr r = false ->
  match shared_mask r with Some M => Z.ldiff mask M = 0 | None => True end ->
  isolated (csr_write r mask v).
Proof.
  intros Hr Hsh s. unfold csr_write, update_csrs, update, modify, masked_write.
  constructor; cbn; try done.
  - intros r' Hr'. rewrite csr_get_set_other; [done |]. intros ->. congruence.
  - rewrite csr_get_set. destruct (decide _) as [->|]; [by apply masked_outside | done].
  - rewrite csr_get_set. destruct (decide _) as [->|]; [by apply masked_outside | done].
  - rewrite csr_get_set. destruct (decide _) as [->|]; [by apply masked_outside | done].
Qed.

Lemma isolated_set_csr_field r f v :
  machine_csr r = false -> shared_mask r = None -> isolated (set_csr_field r f v).
Proof.
  intros Hr Hsh s.
  exact (isolated_set_csr r (set_field f v (csr_get (csr_regs (core s)) r)) Hr Hsh s).
Qed.

(** The map from addresses to registers respects the level of the address. *)
Lemma register_mapping_level addr p :
  register_mapping addr = Some p -> csr_level addr <= SupervisorMode ->
  machine_csr (ptr_reg p) = false /\ shared_mask (ptr_reg p) = None.
Proof.
  unfold register_mapping.
  repeat (lazymatch goal with
    | |- (if addr =? ?a then _ else _) = _ -> _ =>
        destruct (addr =? a) eqn:E; [apply Z.eqb_eq in E as ->; intros [= <-] Hl;
          first [by destruct Hl | by split] | clear E]
    | |- (if in_range ?a ?b addr then _ else _) = _ -> _ =>
        destruct (in_range a b addr) eqn:E;
          [intros [= <-] Hl; exfalso; unfold in_range, csr_level, PMPADDR0_ADDR, PMPCFG0_ADDR,
             SupervisorMode in *; Z.div_mod_to_equations; lia | clear E]
    end).
  intros [=].
Qed.

Lemma isolated_set_csr_value addr v :
  csr_level addr <= SupervisorMode -> isolated (set_csr_value addr v).
Proof.
  intros Hl. unfold set_csr_value. apply isolated_bind; [by apply isolated_pure | intros misa].
  destruct (_ || _); [by apply isolated_pure |].
  repeat (lazymatch goal with
    | |- isolated (if addr =? ?a then _ else _) =>
        destruct (addr =? a) eqn:E; [apply Z.eqb_eq in E as ->;
          lazymatch goal with
          | |- isolated (csr_write _ _ _) =>
              first [ apply isolated_csr_write; [reflexivity | first [exact I | reflexivity]]
                    | by destruct Hl ]
          | |- isolated (set_csr_field _ _ _) => by apply isolated_set_csr_field
          | |- _ => idtac
          end | clear E]
    end).
  - apply isolated_bind; [by apply isolated_pure | intros tvm].
    apply isolated_bind; [by apply isolated_when, isolated_pure | intros _].
    by apply isolated_csr_write.
  - destruct (_ || _); [by apply isolated_pure |]. unfold set_csr_default.
    apply isolated_bind; [by apply isolated_when, isolated_pure | intros _].
    intros s. unfold mbind, M_bind, read, gets, default_write32.
    destruct (register_mapping addr) as [p|] eqn:Hp; cbn [fmap option_fmap option_map]; [| done].
    destruct (register_mapping_level addr p Hp Hl) as [Hm Hsh].
    destruct p as [r|r|r]; by apply (isolated_set_csr r _ Hm Hsh s).
Qed.

Lemma isolated_get_csr_value addr : isolated (get_csr_value addr).
Proof using Type*.
  assert (Hraise : forall b, isolated (when b RAISE_ILLEGAL_INSTRUCTION))
    by (intros; by apply isolated_when, isolated_pure).
  assert (Hvalid : isolated (validate_csr_counter_read_access_rights addr)).
  { unfold validate_csr_counter_read_access_rights. apply isolated_when. cbv zeta.
    repeat (apply isolated_bind; [first [done | by apply isolated_pure] | intros]). done. }
  assert (Htime : forall f : Z -> Z, isolated
    (mtime ← update_and_get_mtime; set_csr csrs.time mtime ;; mret (f mtime))).
  { intros f. apply isolated_bind; [apply isolated_pure; intros; apply (update_and_get_mtime_core 32 misa_ok) | intros mtime].
    apply isolated_bind; [by apply isolated_set_csr | intros _]. by apply isolated_pure. }
  assert (Hcycle : forall f : Z -> Z, isolated
    (c ← _compute_and_get_current_cycles; set_csr csrs.cycle c ;; mret (f c))).
  { intros f. apply isolated_bind; [| intros c; apply isolated_bind;
      [by apply isolated_set_csr | intros _; by apply isolated_pure]].
    apply isolated_pure. intros s. unfold _compute_and_get_current_cycles, mbind, M_bind, read, gets.
    by destruct (_ =? 0). }
  assert (Hdef : isolated (get_csr_default addr)).
  { unfold get_csr_default. apply isolated_bind; [done | intros _].
    apply isolated_pure. intros s. unfold mbind, M_bind, read, gets. by destruct (default_read32 _ _). }
  unfold get_csr_value. apply isolated_bind; [done | intros _].
  repeat (lazymatch goal with
    | |- isolated (if ?b then _ else _) => destruct b
    | |- isolated (mbind _ update_and_get_mtime) => apply Htime
    | |- isolated (mbind _ _compute_and_get_current_cycles) => apply Hcycle
    | |- isolated (mbind _ _) => apply isolated_bind; [first [done | by apply isolated_pure] | intros]
    | |- isolated (get_csr_default _) => exact Hdef
    | |- isolated _ => by apply isolated_pure
    end).
Qed.

Lemma isolated_exec_csr i op (s : machine W) :
  core_ok (core s) -> csr_op op -> prv (core s) <= SupervisorMode ->
  same_machine_state (core s) (core (snd (exec_csr i op s))).
Proof using Type*.
  intros Hs Hop Hp.
  destruct (csr_op_writes i op && csr_read_only (csr i) || (prv (core s) <? csr_level (csr i))) eqn:Hinv.
  { by rewrite exec_csr_invalid. }
  assert (Hl : csr_level (csr i) <= SupervisorMode) by lia.
  pose proof (isolated_get_csr_value (csr i)) as Hget.
  pose proof (fun v => isolated_set_csr_value (csr i) v Hl) as Hset.
  assert (Hw : forall x v, isolated (when x (set_csr_value (csr i) v)))
    by (intros; by apply isolated_when).
  assert (Hrd : forall x v, isolated (when x (set_reg (rd i) v)))
    by (intros; apply isolated_when, isolated_set_reg).
  repeat (destruct Hop as [<-|Hop]; [
    cbn [exec_csr csr_op_writes] in *; unfold exec_csrrw, exec_csr_update; cbv zeta;
    unfold mbind at 1, M_bind at 1; rewrite is_invalid_csr_access_run by done;
    unfold x_zero; rewrite Hinv;
    match goal with |- same_machine_state _ (core (snd (?m s))) =>
      enough (Him : isolated m) by apply Him end;
    repeat (lazymatch goal with |- isolated (mbind _ _) => apply isolated_bind; [| intros] end);
    first [ done | by apply isolated_pure
          | (apply isolated_when; apply isolated_bind; [done | intros; apply isolated_set_reg]) ] |]).
  done.
Qed.
End isolation.

(** C7: isolation of machine mode.  Whatever CSR instruction a core executes in
    supervisor or user mode, with whatever operands, however it ends, the
    machine-level state is the one before: the mode, every machine-level CSR, and
    the bits of mstatus, mie and mip that are outside the view of supervisor
    mode. *)
Theorem csr_instruction_isolation {W} `{platform_ok W} `{softfloat} i op (s : machine W) :
  core_ok (core s) -> csr_op op -> prv (core s) <= SupervisorMode ->
  same_machine_state (core s) (core (snd (exec_op i op s))).
Proof.
  intros Hs Hop Hp.
  replace (exec_op i op s) with (exec_csr i op s)
    by by repeat (destruct Hop as [<-|Hop]; [done |]).
  by apply isolated_exec_csr.
Qed.

(** In supervisor mode, csrrs x0, sstatus with ones in register x1 executes and
    leaves the machine-level bits of mstatus alone. *)
Lemma csr_instruction_isolation_witness :
  let s := Machine (set_prv SupervisorMode (set_regs (regs_set 1 (-1) (replicate 32 0))
    (ISS_new 0 false))) (∅ : ram) in
  fst (exec_op 0x1000a073 CSRRS s) = Ret tt /\
  same_machine_state (core s) (core (snd (exec_op 0x1000a073 CSRRS s))).
Proof.
  set (s := Machine _ _).
  assert (Hs : core_ok (core s)).
  { apply core_ok_set_prv; [done |].
    exact (core_ok_set_reg (xlen := 32) 1 (-1) (ISS_new 0 false) ltac:(done) (ISS_new_ok 0 false ltac:(done))). }
  split; [by vm_compute |].
  exact (csr_instruction_isolation 0x1000a073 CSRRS s Hs (or_intror (or_introl eq_refl)) ltac:(done)).
Defined.
