(* ===== verification/IssControl.v ===== *)
(** * Control flow, floating point, and privileged returns

    Functional specifications of the jumps and branches and of the
    single-precision arithmetic instructions; the instructions that always trap;
    and two properties of the privileged instructions as the code has them: xRET
    does not check the mode it is executed in, and a reserved value of
    mstatus.mpp reaches the mode of the core. *)

From S2P Require Import Prelude Instr Decode Trap Csr Fp Iss IssExec IssLogic IssInv IssValues IssSafe RamPlatform.

(** ** Jumps and branches *)

(** Whether a branch is taken, for the words of its two registers. *)
Definition branch_condition (op : Mapping) (x y : Z) : bool :=
  match op with
  | BEQ => x =? y
  | BNE => negb (x =? y)
  | BLT => int32 x <? int32 y
  | BGE => int32 y <=? int32 x
  | BLTU => x <? y
  | BGEU => y <=? x
  | _ => false
  end.

(** The address of the next instruction, from the address of this one, the
    address of its successor, and the words of its two registers. *)
Definition next_pc (i : Instruction) (op : Mapping) (this next x y : Z) : Z :=
  match op with
  | JAL => (this + J_imm i) mod word_size
  | JALR => 2 * (((x + I_imm i) mod word_size) / 2)
  | BEQ | BNE | BLT | BGE | BLTU | BGEU =>
      if branch_condition op x y then (this + B_imm i) mod word_size else next
  | _ => next
  end.

Definition control_op (op : Mapping) : Prop :=
  In op [JAL; JALR; BEQ; BNE; BLT; BGE; BLTU; BGEU].
Definition links (op : Mapping) : bool :=
  match op with JAL | JALR => true | _ => false end.

Lemma clear_bit0 v : uint32 (int32 v .& Z.lnot 1) = 2 * ((v mod word_size) / 2).
Proof.
  change word_size with (2 ^ 32). change (v mod 2 ^ 32) with (uint 32 v).
  replace (2 * (uint 32 v / 2)) with ((uint 32 v .>> 1) .<< 1).
  2: { rewrite Z.shiftl_mul_pow2, Z.shiftr_div_pow2 by lia. change (2 ^ 1) with 2. lia. }
  apply (uint_bits_inj 32); [lia | apply uint_range; lia | |].
  - apply is_uint_shiftl_sub; [lia |]. apply is_uint_shiftr_sub; [lia | lia |].
    apply uint_range. lia.
  - intros k ?. unfold uint32, int32.
    rewrite uint_testbit_low, Z.land_spec, sint_testbit, Z.lnot_spec, Z.shiftl_spec by lia.
    destruct (Z.eqb_spec k 0) as [->|].
    + rewrite (Z.testbit_neg_r (uint 32 v .>> 1) (0 - 1)) by lia. by rewrite andb_false_r.
    + rewrite Z.shiftr_spec, uint_testbit_low by lia.
      replace (k - 1 + 1) with k by lia.
      replace (Z.testbit 1 k) with false; [apply andb_true_r |].
      change 1 with (2 ^ 0). rewrite Z.pow2_bits_eqb by lia. symmetry. apply Z.eqb_neq. lia.
Qed.

Section control.
Context {W : Type} `{platform W} `{softfloat}.

Abbreviation R := (M (machine W) SimulationTrap).

Lemma pc_alignment_run (s : machine W) :
  core_ok (core s) -> even (pc (core s)) -> trap_check_pc_alignment s = (Ret tt, s).
Proof.
  intros Hs He. unfold trap_check_pc_alignment, mbind, M_bind, csr_reg, read, gets.
  rewrite (proj1 (even_spec (pc (core s)))) by done.
  pose proof (ok_csrs Hs csrs.misa) as [_ Hm].
  rewrite misa_ok_C by done. by rewrite andb_false_r.
Qed.

Definition jumped (i : Instruction) (op : Mapping) (target : Z) (s : machine W) : machine W :=
  let c := set_pc target (core s) in
  Machine (if links op then set_regs (regs_set (rd i) (int32 (pc (core s))) (regs c)) c else c) (env s).

Lemma core_ok_pc_eta (s : machine W) : Machine (set_pc (pc (core s)) (core s)) (env s) = s.
Proof. by destruct s as [[] e]. Qed.
(** Set the program counter and check its alignment. *)
Lemma jump_run (target : Z) (s : machine W) (k : R unit) :
  core_ok (core s) -> is_uint 32 target -> even target ->
  (write_pc target ;; trap_check_pc_alignment ;; k) s
  = k (Machine (set_pc target (core s)) (env s)).
Proof.
  intros. unfold mbind at 1 2, M_bind at 1 2. unfold write_pc, update, modify.
  set (s1 := Machine _ _).
  by rewrite pc_alignment_run by by first [apply core_ok_set_pc | cbn].
Qed.
Lemma branch_run (target : Z) (s : machine W) :
  core_ok (core s) -> is_uint 32 target -> even target ->
  (write_pc target ;; trap_check_pc_alignment) s = (Ret tt, Machine (set_pc target (core s)) (env s)).
Proof.
  intros. unfold mbind at 1, M_bind at 1. unfold write_pc, update, modify.
  set (s1 := Machine _ _).
  by rewrite pc_alignment_run by by first [apply core_ok_set_pc | cbn].
Qed.
End control.

(** C9: jumps and branches.  From a machine that satisfies the invariant, with
    [last_pc] the address of the instruction and [pc] that of its successor, the
    case of every jump and branch ends without a trap, sets the program counter
    to the target of the ISA manual (addresses modulo 2^32, bit 0 of a JALR
    target cleared, signed and unsigned comparisons), stores the successor's
    address in rd for the two jumps, and changes nothing else. *)
Theorem control_flow_spec {W} `{platform W} `{softfloat} (i : Instruction) (op : Mapping)
    (s : machine W) :
  core_ok (core s) -> is_sint 32 i -> control_op op ->
  exec_op i op s
  = (Ret tt, jumped i op (next_pc i op (last_pc (core s)) (pc (core s))
       (uint32 (regs_get (regs (core s)) (rs1 i)))
       (uint32 (regs_get (regs (core s)) (rs2 i)))) s).
Proof.
  intros Hs Hi Hop.
  pose proof (regs_get_range32 (regs (core s)) (rs1 i) (ok_regs Hs)) as Ha.
  pose proof (regs_get_range32 (regs (core s)) (rs2 i) (ok_regs Hs)) as Hb.
  pose proof (ok_last_pc Hs) as [_ Hl].
  assert (Htarget : forall imm, even imm -> is_uint 32 (uint32 (last_pc (core s) + imm)) /\
    even (uint32 (last_pc (core s) + imm))) by (intros; split; [apply uint_uint32 | by apply even_add]).
  pose proof (Htarget _ (J_imm_even i Hi)) as [HJ HJe].
  pose proof (Htarget _ (B_imm_even i Hi)) as [HB HBe].
  set (a := regs_get (regs (core s)) (rs1 i)) in *. set (b := regs_get (regs (core s)) (rs2 i)) in *.
  destruct (decide (links op = true)) as [Hlink|Hlink].
  - destruct Hop as [<-|[<-|Hop]]; [| | by repeat destruct Hop as [<-|Hop]].
    + transitivity ((write_pc (uint32 (last_pc (core s) + J_imm i)) ;; trap_check_pc_alignment ;;
        set_reg (rd i) (int32 (pc (core s)))) s); [reflexivity |]. by rewrite jump_run.
    + transitivity ((write_pc (uint32 (int32 (a + I_imm i) .& Z.lnot 1)) ;; trap_check_pc_alignment ;;
        set_reg (rd i) (int32 (pc (core s)))) s); [reflexivity |].
      rewrite jump_run; [| done | apply uint_uint32 | apply even_clear_bit0].
      unfold jumped, next_pc, links. rewrite clear_bit0.
      rewrite Z.add_mod, <- (uint32_mod a), <- Z.add_mod by done. done.
  - assert (Htaken : branch_taken op a b = branch_condition op (uint32 a) (uint32 b)).
    { unfold branch_condition. rewrite !int32_uint32_id by done.
      assert (Heq : (uint32 a =? uint32 b) = (a =? b)).
      { apply eq_true_iff_eq. rewrite !Z.eqb_eq. split; [| congruence]. intros E.
        by rewrite <- (int32_uint32_id a), <- (int32_uint32_id b), E. }
      rewrite Heq. by repeat destruct Hop as [<-|Hop]. }
    transitivity (when (branch_taken op a b)
      (write_pc (uint32 (last_pc (core s) + B_imm i)) ;; trap_check_pc_alignment) s).
    { transitivity (exec_branch i op s);
        [by repeat (destruct Hop as [<-|Hop]; [first [by destruct Hlink | reflexivity] |]) |].
      unfold exec_branch, mbind at 1 2, M_bind at 1 2. unfold reg, read, gets. fold a b.
      by destruct (branch_taken op a b). }
    rewrite Htaken. unfold jumped, next_pc. replace (links op) with false by by destruct (links op).
    assert (Hb' : match op with JAL | JALR => False | _ => True end) by by destruct op.
    destruct (branch_condition op (uint32 a) (uint32 b)) eqn:Ec; cbn [when].
    + rewrite branch_run by done. by destruct op.
    + replace (match op with JAL => _ | _ => _ end) with (pc (core s)) by by destruct op.
      by rewrite core_ok_pc_eta.
Qed.

Lemma control_flow_spec_witness :
  let s := Machine (set_pc 0x84 (set_last_pc 0x80 (ISS_new 0 false))) (∅ : ram) in
  exec_op (int32 0xfe000ee3) BEQ s = (Ret tt, jumped (int32 0xfe000ee3) BEQ 0x7c s).
Proof.
  set (s := Machine _ _).
  assert (Hs : core_ok (core s)).
  { apply core_ok_set_pc; [done.. |]. apply core_ok_set_last_pc; [done.. |]. by apply ISS_new_ok. }
  etransitivity; [exact (control_flow_spec (int32 0xfe000ee3) BEQ s Hs ltac:(apply sint_range; lia)
    ltac:(cbn; tauto)) |].
  by vm_compute.
Defined.

(** ** Floating-point instructions *)

(** The library call of each instruction that rounds, for the values of its three
    operand registers. *)
Definition f32_call `{softfloat} (op : Mapping) (rm a b c : Z) : option (Z * Z) :=
  match op with
  | FADD_S => Some (f32_add rm a b)
  | FSUB_S => Some (f32_sub rm a b)
  | FMUL_S => Some (f32_mul rm a b)
  | FDIV_S => Some (f32_div rm a b)
  | FSQRT_S => Some (f32_sqrt rm a)
  | FMADD_S => Some (f32_mulAdd rm a b c)
  | FMSUB_S => Some (f32_mulAdd rm a b (f32_neg c))
  | FNMADD_S => Some (f32_mulAdd rm (f32_neg a) b (f32_neg c))
  | FNMSUB_S => Some (f32_mulAdd rm (f32_neg a) b c)
  | _ => None
  end.

(** The rounding mode of an instruction: its field, or the dynamic one. *)
Definition rounding_mode (c : ISS) (i : Instruction) : Z :=
  if frm i =? FRM_DYN then get_bits (csr_regs c) csrs.fcsr fcsr.frm else frm i.

Definition fp_off (c : ISS) : bool := get_bits (csr_regs c) csrs.mstatus mstatus.fs =? FS_OFF.

(** The instructions that use the floating-point unit; loads and stores do not
    ask whether it is on. *)
Definition f_op (op : Mapping) : bool :=
  match op with
  | FADD_S | FSUB_S | FMUL_S | FDIV_S | FSQRT_S | FMADD_S | FMSUB_S | FNMADD_S | FNMSUB_S
  | FMIN_S | FMAX_S | FCVT_W_S | FCVT_WU_S | FCVT_S_W | FCVT_S_WU | FSGNJ_S | FSGNJN_S
  | FSGNJX_S | FMV_W_X | FMV_X_W | FEQ_S | FLT_S | FLE_S | FCLASS_S => true
  | _ => false
  end.
Definition f_rounds (op : Mapping) : bool :=
  match op with
  | FADD_S | FSUB_S | FMUL_S | FDIV_S | FSQRT_S | FMADD_S | FMSUB_S | FNMADD_S | FNMSUB_S
  | FCVT_W_S | FCVT_WU_S | FCVT_S_W | FCVT_S_WU => true
  | _ => false
  end.
Definition d_op (op : Mapping) : bool :=
  match op with
  | FLD | FSD | FADD_D | FSUB_D | FMUL_D | FDIV_D | FSQRT_D | FMADD_D | FMSUB_D | FNMADD_D
  | FNMSUB_D | FMIN_D | FMAX_D | FSGNJ_D | FSGNJN_D | FSGNJX_D | FCVT_S_D | FCVT_D_S
  | FCVT_W_D | FCVT_WU_D | FCVT_D_W | FCVT_D_WU | FEQ_D | FLT_D | FLE_D | FCLASS_D => true
  | _ => false
  end.

Section fp.
Context {W : Type} `{platform W} `{softfloat}.

Abbreviation R := (M (machine W) SimulationTrap).

Definition illegal_instruction (s : machine W) : SimulationTrap :=
  mkTrap EXC_ILLEGAL_INSTR (uint32 (instr (core s))).

Lemma fp_prepare_run (s : machine W) :
  softfloat_exceptionFlags (core s) = 0 ->
  fp_prepare_instr s
  = if fp_off (core s) then (Throw (illegal_instruction s), s) else (Ret tt, s).
Proof.
  intros Hf. unfold fp_prepare_instr, fp_require_not_off, mbind, M_bind, csr_field, read, gets.
  rewrite Hf. cbn [Z.eqb assert skip mret M_ret]. unfold fp_off.
  by destruct (_ =? FS_OFF).
Qed.

Lemma fp_setup_rm_run (s : machine W) :
  fp_setup_rm (Machine (core s) (env s))
  = if FRM_RMM <=? rounding_mode (core s) (instr (core s))
    then (Throw (illegal_instruction s), s)
    else (Ret tt, Machine (set_softfloat_roundingMode
            (rounding_mode (core s) (instr (core s))) (core s)) (env s)).
Proof.
  destruct s as [c e]. unfold fp_setup_rm, rounding_mode, mbind, M_bind, csr_field, read, gets.
  cbn [core]. destruct (frm (instr c) =? FRM_DYN); cbn -[Z.leb get_bits];
    by destruct (FRM_RMM <=? _).
Qed.

Definition dirty (t : csr_table) : csr_table :=
  set_bits csrs.mstatus mstatus.fs FS_DIRTY (set_bits csrs.mstatus mstatus.sd 1 t).

Lemma fp_set_dirty_run (s : machine W) :
  fp_set_dirty s = (Ret tt, Machine (set_csr_regs (dirty (csr_regs (core s))) (core s)) (env s)).
Proof. done. Qed.

(** What remains after the result has been written: the unit is dirty, and the
    flags move from the library to the register. *)
Lemma fp_finish_run flags (s : machine W) :
  is_uint 5 flags -> softfloat_exceptionFlags (core s) = flags ->
  exists t, fp_finish_instr s
    = (Ret tt, Machine (set_softfloat_exceptionFlags 0 (set_csr_regs t (core s))) (env s)) /\
  get_bits t csrs.mstatus mstatus.fs = FS_DIRTY /\ get_bits t csrs.mstatus mstatus.sd = 1 /\
  get_bits t csrs.fcsr fcsr.fflags = get_bits (csr_regs (core s)) csrs.fcsr fcsr.fflags .| flags /\
  get_bits t csrs.fcsr fcsr.frm = get_bits (csr_regs (core s)) csrs.fcsr fcsr.frm /\
  (forall r, r <> csrs.mstatus -> r <> csrs.fcsr -> csr_get t r = csr_get (csr_regs (core s)) r).
Proof.
  intros Hr <-. set (t := csr_regs (core s)) in *.
  set (flags := softfloat_exceptionFlags (core s)) in *.
  set (t1 := dirty t).
  assert (Hold : is_uint 5 (get_bits t csrs.fcsr fcsr.fflags .| flags)).
  { apply is_uint_lor; [lia | | done]. apply (get_field_range fcsr.fflags). by split. }
  destruct (nonzero flags) eqn:Hnz.
  - exists (set_bits csrs.fcsr fcsr.fflags (get_bits t csrs.fcsr fcsr.fflags .| flags) (dirty t1)).
    split; [| split_and!].
    + unfold fp_finish_instr, mbind at 1, M_bind at 1.
      rewrite fp_set_dirty_run. fold t t1. unfold fp_update_exception_flags, mbind at 1, M_bind at 1, read, gets.
      cbn [core softfloat_exceptionFlags set_csr_regs]. fold flags. rewrite Hnz. cbn [when].
      unfold mbind, M_bind.
      rewrite fp_set_dirty_run.
      unfold csr_field, read, gets, set_csr_field, update_csrs, update, modify.
      cbn [core env csr_regs set_csr_regs set_softfloat_exceptionFlags].
      replace (get_bits t csrs.fcsr fcsr.fflags) with (get_bits (dirty t1) csrs.fcsr fcsr.fflags)
        by (unfold t1, dirty; by autorewrite with vp_csr).
      reflexivity.
    + unfold t1, dirty. by autorewrite with vp_csr.
    + unfold t1, dirty. by autorewrite with vp_csr.
    + rewrite get_bits_set_same by by split. by apply uint_id.
    + unfold t1, dirty. by autorewrite with vp_csr.
    + intros r ??. unfold t1, dirty. by rewrite !csr_get_set_bits_other.
  - assert (E0 : flags = 0) by (unfold nonzero in Hnz; lia).
    exists t1. split; [| split_and!].
    + unfold fp_finish_instr, mbind at 1, M_bind at 1.
      rewrite fp_set_dirty_run. fold t t1. unfold fp_update_exception_flags, mbind at 1, M_bind at 1, read, gets.
      cbn [core softfloat_exceptionFlags set_csr_regs]. fold flags. rewrite Hnz. cbn [when].
      unfold skip, mret, M_ret. do 2 f_equal. unfold flags in E0. destruct (core s); cbn in *. by subst.
    + unfold t1, dirty. by autorewrite with vp_csr.
    + unfold t1, dirty. by autorewrite with vp_csr.
    + unfold t1, dirty. autorewrite with vp_csr. by rewrite E0, Z.lor_0_r.
    + unfold t1, dirty. by autorewrite with vp_csr.
    + intros r ??. unfold t1, dirty. by rewrite !csr_get_set_bits_other.
Qed.
Lemma fp_rounding_run (f : Z -> Z * Z) (idx : Z) (s : machine W) :
  softfloat_exceptionFlags (core s) = 0 -> fp_off (core s) = false ->
  let rm := rounding_mode (core s) (instr (core s)) in
  rm < FRM_RMM ->
  fp_rounding f (fp_set_f32 idx) s
  = fp_finish_instr (Machine (set_fp_regs (fp_write_f32 idx (fst (f rm)) (fp_regs (core s)))
      (set_softfloat_exceptionFlags (snd (f rm)) (set_softfloat_roundingMode rm (core s)))) (env s)).
Proof.
  intros Hf Hoff rm Hrm. unfold fp_rounding. unfold mbind at 1 2, M_bind at 1 2.
  rewrite fp_prepare_run, Hoff by done.
  assert (Hset := fp_setup_rm_run s). destruct s as [c e]. cbn [core env] in *. rewrite Hset.
  fold rm. rewrite (proj2 (Z.leb_gt FRM_RMM rm)) by done.
  unfold mbind, M_bind, read, gets, fp_call, fp_set_f32, update, modify, mret, M_ret.
  unfold mbind, M_bind.
  cbn [core env softfloat_roundingMode set_softfloat_roundingMode softfloat_exceptionFlags].
  by rewrite Hf, Z.lor_0_l.
Qed.

Lemma fp_f32_write idx x r :
  length r = 32%nat -> 0 <= idx < 32 -> is_uint 32 x -> fp_f32 (fp_write_f32 idx x r) idx = x.
Proof.
  intros Hl Hi Hx. unfold fp_f32, fp_get, fp_write_f32, fp_write_f64, FpRegs in *.
  rewrite list_lookup_insert_eq by lia. change (default 0 (Some (box_f32 x))) with (box_f32 x).
  rewrite is_boxed_box_f32 by done. by apply unbox_box_f32.
Qed.
End fp.

(** Single-precision arithmetic.  When the floating-point unit is on and the
    rounding mode (of the instruction, or of fcsr) is one of the four the code
    supports, each arithmetic instruction ends without a trap: the result of the
    library call for its operands is in rd as a single-precision value, the
    library's flags have been added to fflags and cleared, mstatus says dirty,
    and the rounding mode of fcsr, all other CSRs, the integer registers and the
    program counter are unchanged. *)
Theorem f_arith_spec {W} `{platform W} `{softfloat_ok} (op : Mapping) (s : machine W) r :
  let i := instr (core s) in let c := core s in let rm := rounding_mode c i in
  core_ok c -> softfloat_exceptionFlags c = 0 -> fp_off c = false -> rm < FRM_RMM ->
  f32_call op rm (fp_f32 (fp_regs c) (rs1 i)) (fp_f32 (fp_regs c) (rs2 i))
    (fp_f32 (fp_regs c) (rs3 i)) = Some r ->
  match exec_op i op s with
  | (Ret _, s') =>
      let c' := core s' in
      fp_f32 (fp_regs c') (rd i) = fst r /\
      get_bits (csr_regs c') csrs.fcsr fcsr.fflags
      = get_bits (csr_regs c) csrs.fcsr fcsr.fflags .| snd r /\
      softfloat_exceptionFlags c' = 0 /\
      get_bits (csr_regs c') csrs.mstatus mstatus.fs = FS_DIRTY /\
      get_bits (csr_regs c') csrs.mstatus mstatus.sd = 1 /\
      get_bits (csr_regs c') csrs.fcsr fcsr.frm = get_bits (csr_regs c) csrs.fcsr fcsr.frm /\
      (forall x, x <> csrs.mstatus -> x <> csrs.fcsr -> csr_get (csr_regs c') x = csr_get (csr_regs c) x) /\
      regs c' = regs c /\ pc c' = pc c /\ env s' = env s
  | _ => False
  end.
Proof.
  intros i c rm Hc Hf Hoff Hrm Hcall.
  assert (Hres : f32_result r).
  { destruct op; try discriminate Hcall; injection Hcall as <-;
      eauto using f32_add_ok, f32_sub_ok, f32_mul_ok, f32_div_ok, f32_sqrt_ok, f32_mulAdd_ok. }
  destruct Hres as [Hr1 Hr2].
  assert (E : exec_op i op s = fp_finish_instr (Machine (set_fp_regs (fp_write_f32 (rd i) (fst r)
    (fp_regs c)) (set_softfloat_exceptionFlags (snd r) (set_softfloat_roundingMode rm c))) (env s))).
  { destruct op; try discriminate Hcall; injection Hcall as <-; cbn [exec_op];
      unfold exec_f_arith; unfold mbind at 1, M_bind at 1;
      rewrite (require_isa_run F_ISA_EXT s Hc) by (cbn; tauto);
      unfold mbind, M_bind, fp_reg_f32, read, gets; by rewrite fp_rounding_run. }
  rewrite E.
  destruct (fp_finish_run (snd r) (Machine (set_fp_regs (fp_write_f32 (rd i) (fst r)
    (fp_regs c)) (set_softfloat_exceptionFlags (snd r) (set_softfloat_roundingMode rm c))) (env s)))
    as (t & -> & Hfs & Hsd & Hfl & Hfrm & Hother); [done | done |].
  cbn. split_and!; try done. apply fp_f32_write; [apply Hc | | done].
  rewrite rd_bits. unfold bits. rewrite Z.shiftl_0_r. apply (uint_range 5). lia.
Qed.

(** A core about to execute fadd.s f3, f1, f2 with dynamic rounding, its
    floating-point unit on. *)
Definition fp_demo : machine ram :=
  Machine (set_instr 0x0020f1d3 (set_csr_regs
    (set_bits csrs.mstatus mstatus.fs FS_INITIAL csr_table_init) (ISS_new 0 false))) ∅.

Lemma fp_demo_ok : core_ok (core fp_demo).
Proof.
  apply core_ok_set_instr; [done |]. apply core_ok_set_csrs; [| by apply ISS_new_ok].
  apply set_bits_ok; [done | by split | done | apply csrs_ok_init].
Qed.

Lemma f_arith_spec_witness :
  match exec_op 0x0020f1d3 FADD_S fp_demo with
  | (Ret _, s') => fp_f32 (fp_regs (core s')) 3 = 0
  | _ => False
  end.
Proof.
  pose proof (f_arith_spec FADD_S fp_demo (0, 0) fp_demo_ok eq_refl eq_refl eq_refl eq_refl) as Ht.
  change (instr (core fp_demo)) with 0x0020f1d3 in Ht.
  destruct (exec_op 0x0020f1d3 FADD_S fp_demo) as [[u|e|f] s'].
  - exact (proj1 Ht).
  - exact Ht.
  - exact Ht.
Defined.

(** The floating-point instructions that trap.  An instruction of the D
    extension always does, since misa never has D; one of the F extension other
    than a load or a store does when mstatus says the unit is off, and one that
    rounds does when its rounding mode is reserved or is round-to-nearest with
    ties to max magnitude, which the code does not support: an illegal
    instruction exception with the instruction word, and no change of state. *)
Theorem fp_illegal {W} `{platform W} `{softfloat} (op : Mapping) (s : machine W) :
  let i := instr (core s) in
  core_ok (core s) -> softfloat_exceptionFlags (core s) = 0 ->
  d_op op || f_op op && fp_off (core s) || f_rounds op && (FRM_RMM <=? rounding_mode (core s) i)
  = true ->
  exec_op i op s = (Throw (illegal_instruction s), s).
Proof.
  intros i Hs Hf Hop.
  assert (HD : forall (k : M (machine W) SimulationTrap unit),
    (REQUIRE_ISA D_ISA_EXT ;; k) s = (Throw (illegal_instruction s), s)).
  { intros k. unfold REQUIRE_ISA, mbind, M_bind, csr_reg, read, gets.
    pose proof (ok_csrs Hs csrs.misa) as [_ Hm]. by rewrite (misa_ok_D _ Hm). }
  assert (HF : forall (k : M (machine W) SimulationTrap unit), (REQUIRE_ISA F_ISA_EXT ;; k) s = k s).
  { intros k. unfold mbind, M_bind. by rewrite require_isa_run by (done || cbn; tauto). }
  assert (Hsetup := fp_setup_rm_run s).
  replace (Machine (core s) (env s)) with s in Hsetup by by destruct s.
  assert (HP : forall (k : M (machine W) SimulationTrap unit), fp_off (core s) = true ->
    (fp_prepare_instr ;; k) s = (Throw (illegal_instruction s), s)).
  { intros k Hoff. unfold mbind, M_bind. by rewrite fp_prepare_run, Hoff. }
  assert (HR : forall f w, fp_off (core s) || (FRM_RMM <=? rounding_mode (core s) i) = true ->
    fp_rounding f w s = (Throw (illegal_instruction s), s)).
  { intros f w Hcond. unfold fp_rounding. destruct (fp_off (core s)) eqn:Hoff; [by apply HP |].
    unfold mbind at 1 2, M_bind at 1 2. rewrite fp_prepare_run, Hoff, Hsetup by done.
    fold i. cbn [orb] in Hcond. by rewrite Hcond. }
  destruct op; try discriminate Hop; cbn [exec_op]; try apply HD;
    unfold exec_f_arith, exec_f_minmax, exec_f_convert, exec_f_move, exec_f_compare; rewrite HF;
    cbn [d_op f_op f_rounds orb andb] in Hop;
    repeat lazymatch goal with
    | |- mbind ?k (fp_reg_f32 ?n) s = _ =>
        change (mbind k (fp_reg_f32 n) s) with (k (fp_f32 (fp_regs (core s)) n) s); cbv beta zeta
    | |- mbind ?k (reg ?n) s = _ =>
        change (mbind k (reg n) s) with (k (regs_get (regs (core s)) n) s); cbv beta zeta
    end;
    first [ exact (HR _ _ Hop) | apply HP; by rewrite orb_false_r in Hop ].
Qed.

(** The unit is off after reset. *)
Lemma fp_illegal_witness :
  exec_op 0 FEQ_S (ram_machine []) = (Throw (mkTrap EXC_ILLEGAL_INSTR 0), ram_machine []).
Proof.
  exact (fp_illegal FEQ_S (ram_machine []) (ISS_new_ok 0 false ltac:(done)) eq_refl eq_refl).
Defined.

(** ** Privileged returns *)

Lemma mpp_of_write old :
  get_field mstatus.mpp ((old .& uint32 (Z.lnot MSTATUS_MASK)) .| (0x1000 .& MSTATUS_MASK)) = 2.
Proof.
  change (uint32 (Z.lnot MSTATUS_MASK)) with 0x7f800644.
  change (0x1000 .& MSTATUS_MASK) with 0x1000.
  unfold get_field. change (bf_lo mstatus.mpp) with 11. change (bf_width mstatus.mpp) with 2.
  ubits 2%nat.
Qed.

(** The reserved privilege level is reachable and fatal.  The two bits of
    mstatus.mpp are written as they are: after a write of the reserved value 2, MRET
    (which executes in any mode, here from any mode of the core) puts the core
    in privilege level 2, where ECALL ends the simulation with a runtime error
    instead of raising an exception. *)
Theorem reserved_mode_is_fatal {W} `{platform W} `{softfloat} (i j : Instruction) (s : machine W) :
  execute_syscall = None ->
  exists s',
    (set_csr_value MSTATUS_ADDR 0x1000 ;; exec_op i MRET) s = (Ret tt, s') /\
    prv (core s') = HypervisorMode /\
    exec_op j ECALL s' = (Fatal RuntimeError, s').
Proof.
  intros Hsys. eexists. split; [reflexivity |].
  match goal with |- prv (core ?x) = _ /\ _ => set (s' := x) end.
  assert (Hp : prv (core s') = HypervisorMode).
  { change (prv (core s')) with (get_bits (masked_write csrs.mstatus MSTATUS_MASK 0x1000
      (csr_regs (core s))) csrs.mstatus mstatus.mpp).
    unfold get_bits, masked_write. rewrite csr_get_set_same. apply mpp_of_write. }
  split; [done |]. cbn [exec_op]. unfold exec_ecall. rewrite Hsys.
  unfold mbind, M_bind, read, gets. by rewrite Hp.
Qed.

Lemma reserved_mode_is_fatal_witness :
  exists s',
    (set_csr_value MSTATUS_ADDR 0x1000 ;; exec_op 0x30200073 MRET) (ram_machine []) = (Ret tt, s') /\
    prv (core s') = HypervisorMode /\
    exec_op 0x73 ECALL s' = (Fatal RuntimeError, s').
Proof. exact (reserved_mode_is_fatal 0x30200073 0x73 (ram_machine []) eq_refl). Defined.
