(* ===== verification/IssRun.v ===== *)
(** * Running a core

    The loop of ISS::run as a relation between the machine it starts from and the
    one it ends in, the function that computes it, and small programs run to
    their end. *)

From S2P Require Import Prelude Instr Decode Trap Csr Fp Iss IssExec IssLogic IssInv CoreStep IssValues IssSafe RamPlatform IssExecSafe.

(** [runs s s']: the loop of [run] started in [s] ends in [s']; it executes a
    step at least once, and goes on while the core is runnable. *)
Inductive runs {W} `{platform W} `{softfloat} : machine W -> machine W -> Prop :=
  | runs_last s s' :
      run_step s = (Ret tt, s') -> status (core s') <> Runnable -> runs s s'
  | runs_more s s1 s' :
      run_step s = (Ret tt, s1) -> status (core s1) = Runnable -> runs s1 s' -> runs s s'.

Section run.
Context {W : Type} `{platform W} `{softfloat}.

Lemma run_loop_frame fuel : run_loop (W := W) fuel = loop_frame run_step fuel.
Proof. induction fuel as [|fuel IH]; [done |]. simpl. by rewrite IH. Qed.

Lemma run_loop_unfold fuel (s : machine W) :
  run_loop (S fuel) s =
  match run_step s with
  | (Ret _, s') =>
      if bool_decide (status (core s') = Runnable) then run_loop fuel s' else (Ret true, s')
  | (Throw e, s') => (Throw e, s')
  | (Fatal f, s') => (Fatal f, s')
  end.
Proof. rewrite !run_loop_frame. apply loop_frame_unfold. Qed.

Lemma run_loop_runs fuel (s s' : machine W) :
  run_loop fuel s = (Ret true, s') -> runs s s'.
Proof.
  revert s. induction fuel as [|fuel IH]; intros s; [done |].
  rewrite run_loop_unfold. destruct (run_step s) as [[[]|e|f] s1] eqn:Es; [| done | done].
  case_bool_decide.
  - intros Hr. eapply runs_more; eauto.
  - intros [= <-]. by apply runs_last.
Qed.

Lemma runs_run_loop (s s' : machine W) :
  runs s s' -> exists fuel, forall extra, run_loop (fuel + extra) s = (Ret true, s').
Proof.
  induction 1 as [s s' Hs Hst | s s1 s' Hs Hst _ [fuel IH]].
  - exists 1%nat. intros extra. simpl Nat.add. rewrite run_loop_unfold, Hs.
    by rewrite bool_decide_false.
  - exists (S fuel). intros extra. simpl Nat.add. rewrite run_loop_unfold, Hs.
    by rewrite bool_decide_true.
Qed.

(** A bound that ends the loop computes the same as every larger one. *)
Lemma run_loop_mono fuel extra (s s' : machine W) :
  run_loop fuel s = (Ret true, s') -> run_loop (fuel + extra) s = (Ret true, s').
Proof.
  revert s. induction fuel as [|fuel IH]; intros s; [done |].
  simpl Nat.add. rewrite !run_loop_unfold.
  destruct (run_step s) as [[[]|e|f] s1]; [| done | done].
  case_bool_decide; [apply IH | done].
Qed.
End run.

(** The bounded loop computes the loop of the code.  The loop of [run]
    started in [s] ends in [s'] exactly when some bound lets [run_loop] report
    that it has ended there, and then every larger bound does; so the result
    does not depend on the bound, and the loop has one end at most. *)
Theorem run_loop_adequate {W} `{platform W} `{softfloat} (s s' : machine W) :
  runs s s' <->
  exists fuel, forall extra, run_loop (fuel + extra) s = (Ret true, s').
Proof.
  split; [apply runs_run_loop |]. intros [fuel Hf]. specialize (Hf O).
  by apply run_loop_runs in Hf.
Qed.

(** The steps of a run keep the invariant. *)
Lemma run_loop_triple {W : Type} `{platform_ok W} `{softfloat_ok} (fuel : nat) (s : machine W) :
  step_ok s ->
  match run_loop fuel s with
  | (Ret ended, s') => step_ok s' /\ (ended = true -> fuel <> O /\ status (core s') <> Runnable)
  | (Throw _, _) => False
  | (Fatal f, s') => fails f s'
  end.
Proof.
  rewrite run_loop_frame. apply (loop_frame_keeps run_step step_ok fails). clear s. intros s Hs.
  pose proof (run_step_triple s Hs) as Ht. pose proof (nothrow_run_step s) as Hn.
  destruct (run_step s) as [[[]|e|f] s1]; [done | by destruct (Hn e s1) | done].
Qed.

(** C1: a run is safe.  However many steps a core runs, from a machine that
    satisfies the invariant of run_step_safe it ends in one that does, without a
    trap escaping; it can fail only as a single step can. *)
Theorem run_safe {W : Type} `{platform_ok W} `{softfloat_ok} (fuel : nat) (s : machine W) :
  step_ok s ->
  match run_loop fuel s with
  | (Ret ended, s') => step_ok s' /\ (ended = true -> fuel <> O /\ status (core s') <> Runnable)
  | (Throw _, _) => False
  | (Fatal f, s') => env_fails f \/ reserved_mode_fails f (core s')
  end.
Proof. apply run_loop_triple. Qed.

(** ** Programs

    The sum of 10, 9, .. 1 into a0, then EBREAK:
<<
      addi a1, x0, 10
    loop:
      add  a0, a0, a1
      addi a1, a1, -1
      bne  a1, x0, loop
      ebreak
>> *)
Definition sum_program : list Z :=
  [0x00a00593; 0x00b50533; 0xfff58593; 0xfe059ce3; 0x00100073].

Lemma sum_program_runs :
  let r := run_loop 100 (ram_machine sum_program) in
  fst r = Ret true /\ regs_get (regs (core (snd r))) 10 = 55 /\
  status (core (snd r)) = HitBreakpoint /\ total_num_instr (core (snd r)) = 32.
Proof. vm_compute. by repeat split. Qed.

Lemma run_safe_witness :
  step_ok (ram_machine sum_program) /\
  step_ok (snd (run_loop 100 (ram_machine sum_program))).
Proof.
  assert (Hs : step_ok (ram_machine sum_program)).
  { split; [| done]. split; [by apply ISS_new_ok |]. done. }
  split; [exact Hs |]. pose proof (run_safe 100 (ram_machine sum_program) Hs) as Ht.
  assert (E : fst (run_loop 100 (ram_machine sum_program)) = Ret true) by by vm_compute.
  destruct (run_loop 100 (ram_machine sum_program)) as [[b|e|f] s'].
  - exact (proj1 Ht).
  - destruct Ht.
  - discriminate E.
Defined.
