(* ===== verification/Memory.v ===== *)
(** * Bytes, transactions and memories

    Models struct SimpleMemory (platform/common/memory.h), class MemoryDMI
    (core/common/dmi.h) and the memory devices of platform/common/util.h.  Host
    memory is a heap of byte arrays: a [uint8_t *] is the block it points to, so
    that a memory and the direct memory ranges created from its [data] pointer
    share one array.  A copy beyond the end of an array is the failure
    [UndefinedBehaviour].  [tlm_generic_payload] is the transaction object of the
    TLM standard: the attributes the code sets and reads. *)

From S2P Require Import Prelude.

(** ** Bytes and integers

    The host is little-endian: [memcpy] between an integer object and an array
    of bytes is the following pair of functions. *)

Definition byte_ok (b : Z) : Prop := is_uint 8 b.

Fixpoint le_bytes (n : nat) (v : Z) : list Z :=
  match n with
  | O => []
  | S n => v mod 256 :: le_bytes n (v / 256)
  end.

Fixpoint le_value (bs : list Z) : Z :=
  match bs with
  | [] => 0
  | b :: bs => b + 256 * le_value bs
  end.

(** The integer types of the loads and stores. *)
Inductive int_type : Type :=
  | uint8_t | uint16_t | uint32_t | uint64_t | int8_t | int16_t | int32_t | int64_t.

Definition sizeof (T : int_type) : nat :=
  match T with
  | uint8_t | int8_t => 1
  | uint16_t | int16_t => 2
  | uint32_t | int32_t => 4
  | uint64_t | int64_t => 8
  end.

Definition width (T : int_type) : Z := 8 * Z.of_nat (sizeof T).

Definition signed (T : int_type) : bool :=
  match T with int8_t | int16_t | int32_t | int64_t => true | _ => false end.

(** The conversion of an integer to the type. *)
Definition to_type (T : int_type) (v : Z) : Z :=
  if signed T then sint (width T) v else uint (width T) v.

Definition in_type (T : int_type) (v : Z) : Prop :=
  if signed T then is_sint (width T) v else is_uint (width T) v.

Definition from_bytes (T : int_type) (bs : list Z) : Z := to_type T (le_value bs).
Definition to_bytes (T : int_type) (v : Z) : list Z := le_bytes (sizeof T) v.

(** ** The heap *)

Abbreviation block := nat (only parsing).
Abbreviation heap := (gmap nat (list Z)).

Section heap.
Context {E : Type}.

(** [memcpy(dst, p + off, n)] and [memcpy(p + off, src, n)] *)
Definition heap_read (p : block) (off n : Z) : M heap E (list Z) :=
  h ← gets id;
  match h !! p with
  | Some m =>
      if (0 <=? off) && (0 <=? n) && (off + n <=? Z.of_nat (length m))
      then mret (take (Z.to_nat n) (drop (Z.to_nat off) m)) else fatal UndefinedBehaviour
  | None => fatal UndefinedBehaviour
  end.

Definition heap_write (p : block) (off : Z) (src : list Z) : M heap E unit :=
  h ← gets id;
  match h !! p with
  | Some m =>
      if (0 <=? off) && (off + Z.of_nat (length src) <=? Z.of_nat (length m))
      then modify <[p := list_inserts (Z.to_nat off) src m]> else fatal UndefinedBehaviour
  | None => fatal UndefinedBehaviour
  end.

End heap.

(** ** Transactions *)

Inductive tlm_command : Type := TLM_READ_COMMAND | TLM_WRITE_COMMAND | TLM_IGNORE_COMMAND.

Inductive tlm_response_status : Type :=
  | TLM_OK_RESPONSE
  | TLM_INCOMPLETE_RESPONSE
  | TLM_GENERIC_ERROR_RESPONSE
  | TLM_ADDRESS_ERROR_RESPONSE
  | TLM_COMMAND_ERROR_RESPONSE
  | TLM_BURST_ERROR_RESPONSE
  | TLM_BYTE_ENABLE_ERROR_RESPONSE.

#[export] Instance tlm_command_eq_dec : EqDecision tlm_command.
Proof. solve_decision. Defined.
#[export] Instance tlm_response_status_eq_dec : EqDecision tlm_response_status.
Proof. solve_decision. Defined.

(** [payload_data] is the buffer of the initiator, as long as the data length. *)
Record tlm_generic_payload : Type := mkPayload {
  command : tlm_command;
  address : Z;
  payload_data : list Z;
  response_status : tlm_response_status
}.

Definition data_length (t : tlm_generic_payload) : Z := Z.of_nat (length (payload_data t)).
Definition set_address (a : Z) (t : tlm_generic_payload) : tlm_generic_payload :=
  mkPayload (command t) a (payload_data t) (response_status t).
Definition set_payload_data (d : list Z) (t : tlm_generic_payload) : tlm_generic_payload :=
  mkPayload (command t) (address t) d (response_status t).
Definition set_response_status (r : tlm_response_status) (t : tlm_generic_payload) :=
  mkPayload (command t) (address t) (payload_data t) r.
Definition is_response_error (t : tlm_generic_payload) : bool :=
  negb (bool_decide (response_status t = TLM_OK_RESPONSE)).

(** A target: it is given the transaction and the delay annotated so far, and
    gives back both. *)
Abbreviation transport_fn S E :=
  (tlm_generic_payload -> Z -> M S E (tlm_generic_payload * Z)).

(** sc_time(10, SC_NS), in picoseconds *)
Definition NS : Z := 1000.

(** ** struct SimpleMemory *)

Module SimpleMemory.

Record t : Type := mk { data : block; size : Z; read_only : bool }.

Section operations.
Context {E : Type}.
Implicit Types m : t.

(** The constructor allocates the array at the pointer [p], zeroed. *)
Definition create (p : block) (size : Z) (read_only : bool) : M heap E t :=
  modify <[p := replicate (Z.to_nat size) 0]> ;;
  mret (mk p size read_only).

Definition load_data m (src : list Z) (dst_addr : Z) : M heap E unit :=
  assert (uint64 (dst_addr + Z.of_nat (length src)) <=? size m) ;;
  heap_write (data m) dst_addr src.

Definition load_zero m (dst_addr n : Z) : M heap E unit :=
  assert (uint64 (dst_addr + n) <=? size m) ;;
  heap_write (data m) dst_addr (replicate (Z.to_nat n) 0).

Definition write_data m (addr : Z) (src : list Z) : M heap E unit :=
  assert (uint32 (addr + Z.of_nat (length src)) <=? size m) ;;
  heap_write (data m) addr src.

Definition read_data m (addr num_bytes : Z) : M heap E (list Z) :=
  assert (uint32 (addr + num_bytes) <=? size m) ;;
  heap_read (data m) addr num_bytes.

Definition transport_dbg m (trans : tlm_generic_payload) : M heap E (tlm_generic_payload * Z) :=
  let addr := uint32 (address trans) in
  let len := data_length trans in
  assert (addr <? size m) ;;
  match command trans with
  | TLM_WRITE_COMMAND => write_data m addr (payload_data trans) ;; mret (trans, len)
  | TLM_READ_COMMAND => d ← read_data m addr len; mret (set_payload_data d trans, len)
  | TLM_IGNORE_COMMAND => fatal AssertFailed
  end.

Definition transport m : transport_fn heap E := fun trans delay =>
  r ← transport_dbg m trans; mret (fst r, delay + 10 * NS).

(** The attributes of [tlm_dmi] the memory sets: start and end address, the
    pointer, and whether writes are allowed. *)
Definition get_direct_mem_ptr m : Z * Z * block * bool :=
  (0, size m, data m, negb (read_only m)).

End operations.

End SimpleMemory.

(** ** class MemoryDMI *)

Record MemoryDMI : Type := mkMemoryDMI { dmi_mem : block; dmi_start : Z; dmi_size : Z; dmi_end : Z }.

Section MemoryDMI.
Context {E : Type}.

Definition create_start_size_mapping {S} (mem : block) (start size : Z) : M S E MemoryDMI :=
  assert (start <? uint64 (start + size)) ;;
  mret (mkMemoryDMI mem start size (uint64 (start + size))).

Definition create_start_end_mapping {S} (mem : block) (start end_ : Z) : M S E MemoryDMI :=
  assert (start <? end_) ;;
  create_start_size_mapping mem start (uint64 (end_ - start)).

Definition dmi_contains (d : MemoryDMI) (addr : Z) : bool :=
  (dmi_start d <=? addr) && (addr <? dmi_end d).

(** The offset of a global address in the array of the range. *)
Definition get_mem_ptr_to_global_addr (T : int_type) (d : MemoryDMI) (addr : Z) : M heap E Z :=
  assert (dmi_contains d addr) ;;
  assert (uint64 (addr + Z.of_nat (sizeof T)) <=? dmi_end d) ;;
  mret (addr - dmi_start d).

Definition dmi_load (T : int_type) (d : MemoryDMI) (addr : Z) : M heap E Z :=
  off ← get_mem_ptr_to_global_addr T d addr;
  bs ← heap_read (dmi_mem d) off (Z.of_nat (sizeof T));
  mret (from_bytes T bs).

Definition dmi_store (T : int_type) (d : MemoryDMI) (addr value : Z) : M heap E unit :=
  off ← get_mem_ptr_to_global_addr T d addr;
  heap_write (dmi_mem d) off (to_bytes T value).

End MemoryDMI.

(** ** Memory devices of util.h *)

Record BlankDevice : Type := mkBlankDevice { blank_data : block; blank_size : Z }.

Definition blank_transport {E} (m : BlankDevice) : transport_fn heap E := fun trans delay =>
  assert (uint64 (address trans + data_length trans) <=? blank_size m) ;;
  match command trans with
  | TLM_READ_COMMAND =>
      d ← heap_read (blank_data m) (address trans) (data_length trans);
      mret (set_payload_data d trans, delay)
  | TLM_WRITE_COMMAND =>
      heap_write (blank_data m) (address trans) (payload_data trans) ;; mret (trans, delay)
  | TLM_IGNORE_COMMAND => fatal RuntimeError
  end.

Definition zero_transport {S E} : transport_fn S E := fun trans delay =>
  mret (if bool_decide (command trans = TLM_READ_COMMAND)
        then set_payload_data (replicate (length (payload_data trans)) 0) trans else trans, delay).

(** ** Bytes of integers *)

Lemma length_le_bytes (n : nat) (v : Z) : length (le_bytes n v) = n.
Proof. revert v. induction n as [|n IH]; intros v; simpl; [done | by rewrite IH]. Qed.

Lemma length_to_bytes (T : int_type) (v : Z) : length (to_bytes T v) = sizeof T.
Proof. apply length_le_bytes. Qed.

Lemma le_bytes_ok (n : nat) (v : Z) : Forall byte_ok (le_bytes n v).
Proof.
  revert v. induction n as [|n IH]; intros v; simpl; constructor; [| done].
  apply (Z.mod_pos_bound v 256). lia.
Qed.

Lemma pow2_bytes (n : nat) : 2 ^ (8 * Z.of_nat (S n)) = 256 * 2 ^ (8 * Z.of_nat n).
Proof.
  replace (8 * Z.of_nat (S n)) with (8 + 8 * Z.of_nat n) by lia. by rewrite Z.pow_add_r by lia.
Qed.

Lemma le_value_bytes (n : nat) (v : Z) : le_value (le_bytes n v) = uint (8 * Z.of_nat n) v.
Proof.
  revert v. induction n as [|n IH]; intros v; cbn [le_bytes le_value].
  - symmetry. apply Z.mod_1_r.
  - rewrite IH. unfold uint. rewrite pow2_bytes.
    rewrite Z.rem_mul_r; [lia | lia |]. apply Z.pow_pos_nonneg; lia.
Qed.

Lemma le_value_range (bs : list Z) :
  Forall byte_ok bs -> is_uint (8 * Z.of_nat (length bs)) (le_value bs).
Proof.
  induction 1 as [|b bs Hb _ IH]; unfold is_uint in *; cbn [le_value length]; [done |].
  rewrite pow2_bytes. unfold byte_ok, is_uint in Hb. change (2 ^ 8) with 256 in Hb. lia.
Qed.

Lemma le_bytes_value (bs : list Z) :
  Forall byte_ok bs -> le_bytes (length bs) (le_value bs) = bs.
Proof.
  induction 1 as [|b bs Hb _ IH]; cbn [le_value length le_bytes]; [done |].
  unfold byte_ok, is_uint in Hb. change (2 ^ 8) with 256 in Hb.
  rewrite (Z.mul_comm 256). rewrite Z_mod_plus by lia. rewrite Z.div_add by lia.
  rewrite Z.mod_small, Z.div_small by lia. by rewrite Z.add_0_l, IH.
Qed.

Lemma to_type_uint (T : int_type) (v : Z) : to_type T (uint (width T) v) = to_type T v.
Proof.
  unfold to_type. destruct (signed T) eqn:HT.
  - by destruct T; apply sint_uint.
  - by destruct T; apply Z.mod_mod.
Qed.

Lemma to_type_id (T : int_type) (v : Z) : in_type T v -> to_type T v = v.
Proof.
  unfold to_type, in_type. destruct (signed T).
  - by destruct T; apply sint_id.
  - apply uint_id.
Qed.

Lemma to_type_in (T : int_type) (v : Z) : in_type T (to_type T v).
Proof.
  unfold to_type, in_type. by destruct (signed T), T; first [apply sint_range | apply uint_range].
Qed.

(** What is read back from the bytes of a value: the value in the type read. *)
Lemma from_to_bytes (T U : int_type) (v : Z) :
  sizeof T = sizeof U -> from_bytes T (to_bytes U v) = to_type T v.
Proof.
  intros H. unfold from_bytes, to_bytes. rewrite le_value_bytes, <- H. apply to_type_uint.
Qed.

(** ** Arrays and their parts *)

Lemma take_drop_inserts (k : nat) (src l : list Z) :
  (k + length src <= length l)%nat ->
  take (length src) (drop k (list_inserts k src l)) = src.
Proof.
  intros Hk. apply list_eq. intros i. destruct (decide (i < length src)%nat) as [Hi|Hi].
  - rewrite lookup_take_lt, lookup_drop, list_lookup_inserts by lia. f_equal. lia.
  - rewrite lookup_take_ge by lia. symmetry. apply lookup_ge_None. lia.
Qed.

Lemma take_drop_inserts_frame (k k' n : nat) (src l : list Z) :
  (k' + n <= k \/ k + length src <= k')%nat ->
  take n (drop k' (list_inserts k src l)) = take n (drop k' l).
Proof.
  intros Hk. apply list_eq. intros i. destruct (decide (i < n)%nat) as [Hi|Hi].
  - rewrite !lookup_take_lt, !lookup_drop by lia.
    destruct Hk; [rewrite list_lookup_inserts_lt | rewrite list_lookup_inserts_ge]; done || lia.
  - by rewrite !lookup_take_ge by lia.
Qed.

Lemma inserts_app k (a b l : list Z) :
  list_inserts (k + length a) b (list_inserts k a l) = list_inserts k (a ++ b) l.
Proof.
  revert k. induction a as [|x a IH]; intros k; cbn [app list_inserts length]; [by rewrite Nat.add_0_r |].
  rewrite <- list_insert_inserts_lt by lia. f_equal. rewrite <- (IH (S k)). f_equal. lia.
Qed.

(** ** Heap accesses *)

Definition array (h : heap) (p : block) : list Z := default [] (h !! p).

Definition in_bounds (h : heap) (p : block) (off n : Z) : Prop :=
  is_Some (h !! p) /\ 0 <= off /\ 0 <= n /\ off + n <= Z.of_nat (length (array h p)).

(** [n] bytes from offset [off] of a block *)
Definition peek (h : heap) (p : block) (off n : Z) : list Z :=
  take (Z.to_nat n) (drop (Z.to_nat off) (array h p)).
Definition poke (p : block) (off : Z) (src : list Z) (h : heap) : heap :=
  <[p := list_inserts (Z.to_nat off) src (array h p)]> h.

Definition heap_ok (h : heap) : Prop := map_Forall (fun _ m => Forall byte_ok m) h.

Section heap_lemmas.
Context {E : Type}.

Lemma heap_read_in (h : heap) p off n :
  in_bounds h p off n -> heap_read (E := E) p off n h = (Ret (peek h p off n), h).
Proof.
  intros ([m Hm] & ? & ? & Hb). unfold heap_read, peek, array, gets in *. unfold mbind, M_bind. simpl.
  rewrite Hm in *. simpl in *.
  destruct (Z.leb_spec 0 off), (Z.leb_spec 0 n), (Z.leb_spec (off + n) (Z.of_nat (length m)));
    (done || lia).
Qed.

Lemma heap_write_in (h : heap) p off src :
  in_bounds h p off (Z.of_nat (length src)) ->
  heap_write (E := E) p off src h = (Ret tt, poke p off src h).
Proof.
  intros ([m Hm] & ? & ? & Hb). unfold heap_write, poke, array, gets in *. unfold mbind, M_bind. simpl.
  rewrite Hm in *. simpl in *.
  destruct (Z.leb_spec 0 off), (Z.leb_spec (off + Z.of_nat (length src)) (Z.of_nat (length m)));
    (done || lia).
Qed.

(** A read never changes the heap, and it succeeds or is undefined. *)
Lemma heap_read_cases (h : heap) p off n :
  heap_read (E := E) p off n h = (Ret (peek h p off n), h) /\ in_bounds h p off n \/
  heap_read (E := E) p off n h = (Fatal UndefinedBehaviour, h) /\ ~ in_bounds h p off n.
Proof.
  destruct (heap_read (E := E) p off n h) as [r h'] eqn:Hr.
  assert (Hd : in_bounds h p off n \/ ~ in_bounds h p off n).
  { unfold in_bounds. destruct (h !! p); [| right; by intros [[? ?] _]].
    destruct (decide (0 <= off)), (decide (0 <= n)),
      (decide (off + n <= Z.of_nat (length (array h p)))); try tauto. left. eauto. }
  destruct Hd as [Hb|Hb]; [left | right]; (split; [| done]).
  - rewrite <- Hr. by apply heap_read_in.
  - rewrite <- Hr. unfold heap_read, gets, mbind, M_bind. simpl.
    destruct (h !! p) as [m|] eqn:Hm; [| done].
    destruct ((0 <=? off) && (0 <=? n) && (off + n <=? Z.of_nat (length m))) eqn:Hc; [| done].
    destruct Hb. unfold in_bounds, array. rewrite Hm. simpl. split; [eauto | lia].
Qed.
End heap_lemmas.

Lemma array_poke h p off src : array (poke p off src h) p = list_inserts (Z.to_nat off) src (array h p).
Proof. unfold array, poke. by rewrite lookup_insert_eq. Qed.

Lemma array_poke_ne h p q off src : p <> q -> array (poke p off src h) q = array h q.
Proof. intros. unfold array, poke. by rewrite lookup_insert_ne. Qed.

Lemma length_array_poke h p q off src :
  length (array (poke p off src h) q) = length (array h q).
Proof.
  destruct (decide (p = q)) as [->|]; [rewrite array_poke | by rewrite array_poke_ne].
  apply length_inserts.
Qed.

Lemma in_bounds_poke h p q off src off' n :
  is_Some (h !! p) -> in_bounds (poke p off src h) q off' n <-> in_bounds h q off' n.
Proof.
  intros Hp. unfold in_bounds. rewrite length_array_poke. unfold poke.
  destruct (decide (p = q)) as [->|].
  - rewrite lookup_insert_eq. split; intros (?&?&?&?); repeat split; eauto.
  - by rewrite lookup_insert_ne.
Qed.

Lemma length_peek h p off n : in_bounds h p off n -> length (peek h p off n) = Z.to_nat n.
Proof. intros (_ & ? & ? & ?). unfold peek. rewrite length_take, length_drop. lia. Qed.

(** A read that covers what was written returns it; a disjoint one is not affected. *)
Lemma peek_poke h p off src :
  in_bounds h p off (Z.of_nat (length src)) ->
  peek (poke p off src h) p off (Z.of_nat (length src)) = src.
Proof.
  intros (_ & ? & ? & ?). unfold peek. rewrite array_poke, Nat2Z.id.
  apply take_drop_inserts. lia.
Qed.

Lemma peek_poke_frame h p q off src off' n :
  0 <= off -> 0 <= off' -> 0 <= n ->
  p <> q \/ off' + n <= off \/ off + Z.of_nat (length src) <= off' ->
  peek (poke p off src h) q off' n = peek h q off' n.
Proof.
  intros ??? Hd. unfold peek. destruct (decide (p = q)) as [->|]; [| by rewrite array_poke_ne].
  rewrite array_poke. apply take_drop_inserts_frame. destruct Hd as [?|Hd]; [done | lia].
Qed.

Lemma array_ok h p : heap_ok h -> Forall byte_ok (array h p).
Proof.
  intros Hh. unfold array. destruct (h !! p) eqn:Hp; simpl; [by apply (Hh p) | constructor].
Qed.

Lemma peek_ok h p off n : heap_ok h -> Forall byte_ok (peek h p off n).
Proof. intros Hh. unfold peek. by apply Forall_take, Forall_drop, array_ok. Qed.

Lemma heap_ok_poke h p off src : heap_ok h -> Forall byte_ok src -> heap_ok (poke p off src h).
Proof.
  intros Hh Hs. unfold poke. apply map_Forall_insert_2; [| done].
  pose proof (array_ok h p Hh) as Ha. generalize dependent (array h p). intros m Ha.
  rewrite Forall_lookup in *. intros i x Hx. apply list_lookup_inserts_Some in Hx.
  destruct Hx as [[_ Hx]|(_ & _ & Hx)]; by eauto.
Qed.

(** The blocks and their lengths, which no store changes. *)
Definition same_shape (h h' : heap) : Prop :=
  forall p, length <$> h' !! p = length <$> h !! p.

Lemma same_shape_poke h p off src : is_Some (h !! p) -> same_shape h (poke p off src h).
Proof.
  intros [m Hm] q. unfold poke, array. destruct (decide (p = q)) as [<-|].
  - rewrite lookup_insert_eq, Hm. simpl. f_equal. apply length_inserts.
  - by rewrite lookup_insert_ne.
Qed.

Lemma in_bounds_shape h h' p off n : same_shape h h' -> in_bounds h p off n -> in_bounds h' p off n.
Proof.
  intros Hs ([m Hm] & ? & ? & Hb). specialize (Hs p). rewrite Hm in Hs. simpl in Hs.
  unfold in_bounds, array in *. rewrite Hm in Hb. simpl in Hb.
  destruct (h' !! p) as [m'|]; simpl in *; [| done]. injection Hs as Hl. rewrite Hl. eauto.
Qed.

(** ** SimpleMemory: transactions *)

(** The array of a memory, of the size the memory says. *)
Definition memory_in (h : heap) (m : SimpleMemory.t) : Prop :=
  is_Some (h !! SimpleMemory.data m) /\
  Z.of_nat (length (array h (SimpleMemory.data m))) = SimpleMemory.size m.

Lemma memory_in_poke h m p off src :
  is_Some (h !! p) -> memory_in h m -> memory_in (poke p off src h) m.
Proof.
  intros Hp [Hd Hl]. split; [| by rewrite length_array_poke].
  unfold poke. destruct (decide (p = SimpleMemory.data m)) as [->|].
  - rewrite lookup_insert_eq. eauto.
  - by rewrite lookup_insert_ne.
Qed.

Lemma memory_in_shape h h' m : same_shape h h' -> memory_in h m -> memory_in h' m.
Proof.
  intros Hs [[a Ha] Hl]. specialize (Hs (SimpleMemory.data m)). rewrite Ha in Hs. simpl in Hs.
  unfold memory_in, array in *. rewrite Ha in Hl. simpl in Hl.
  destruct (h' !! SimpleMemory.data m) as [a'|]; simpl in *; [| done].
  injection Hs as Hs. rewrite Hs. eauto.
Qed.

Lemma memory_in_bounds h m off n :
  memory_in h m -> 0 <= off -> 0 <= n -> off + n <= SimpleMemory.size m ->
  in_bounds h (SimpleMemory.data m) off n.
Proof. intros [Hd Hl] ???. split; [done | lia]. Qed.

Lemma data_length_nonneg trans : 0 <= data_length trans.
Proof. unfold data_length. lia. Qed.

(** A memory that a 32-bit address and a transfer cannot overrun. *)
Definition no_wrap (m : SimpleMemory.t) (n : Z) : Prop := SimpleMemory.size m + n <= 2 ^ 32.

(** The transaction in bounds: the new heap and payload. *)
Definition memory_access (h : heap) (m : SimpleMemory.t) (trans : tlm_generic_payload) :
    tlm_generic_payload * heap :=
  let a := uint32 (address trans) in
  match command trans with
  | TLM_WRITE_COMMAND => (trans, poke (SimpleMemory.data m) a (payload_data trans) h)
  | _ => (set_payload_data (peek h (SimpleMemory.data m) a (data_length trans)) trans, h)
  end.

Lemma transport_in_bounds {E} h m trans delay :
  memory_in h m -> command trans <> TLM_IGNORE_COMMAND ->
  0 < data_length trans -> uint32 (address trans) + data_length trans <= SimpleMemory.size m ->
  SimpleMemory.size m < 2 ^ 32 ->
  SimpleMemory.transport (E := E) m trans delay h =
    (Ret (fst (memory_access h m trans), delay + 10 * NS), snd (memory_access h m trans)).
Proof.
  intros Hm Hc Hn Hb Hs. pose proof (uint_range 32 (address trans) ltac:(lia)) as Ha.
  assert (Hu : uint32 (uint32 (address trans) + data_length trans)
               = uint32 (address trans) + data_length trans).
  { apply uint_id. unfold is_uint in *. fold (uint32 (address trans)) in Ha. lia. }
  fold (uint32 (address trans)) in Ha. unfold is_uint in Ha.
  unfold SimpleMemory.transport, SimpleMemory.transport_dbg, mbind, M_bind, memory_access.
  destruct (Z.ltb_spec (uint32 (address trans)) (SimpleMemory.size m)); [| lia]. cbn [assert skip mret M_ret].
  assert (Hin : in_bounds h (SimpleMemory.data m) (uint32 (address trans)) (data_length trans)).
  { apply memory_in_bounds; (done || lia). }
  destruct (command trans); [| | done]; unfold SimpleMemory.read_data, SimpleMemory.write_data;
    unfold mbind, M_bind; [| fold (data_length trans)]; rewrite Hu;
    (destruct (Z.leb_spec (uint32 (address trans) + data_length trans) (SimpleMemory.size m)); [| lia]);
    cbn [assert skip mret M_ret].
  - by rewrite heap_read_in.
  - by rewrite heap_write_in.
Qed.

Lemma transport_out_of_bounds {E} h m trans delay :
  no_wrap m (data_length trans) ->
  command trans = TLM_IGNORE_COMMAND \/
  SimpleMemory.size m <= uint32 (address trans) \/
  SimpleMemory.size m < uint32 (address trans) + data_length trans ->
  SimpleMemory.transport (E := E) m trans delay h = (Fatal AssertFailed, h).
Proof.
  intros Hw Hb. pose proof (uint_range 32 (address trans) ltac:(lia)) as Ha.
  fold (uint32 (address trans)) in Ha. unfold is_uint, no_wrap in *.
  pose proof (data_length_nonneg trans).
  unfold SimpleMemory.transport, SimpleMemory.transport_dbg, mbind, M_bind.
  destruct (Z.ltb_spec (uint32 (address trans)) (SimpleMemory.size m)); [| done].
  cbn [assert skip mret M_ret].
  assert (Hu : command trans <> TLM_IGNORE_COMMAND ->
               (uint32 (uint32 (address trans) + data_length trans) <=? SimpleMemory.size m) = false).
  { intros Hc. assert (uint32 (uint32 (address trans) + data_length trans)
                       = uint32 (address trans) + data_length trans) as ->.
    { apply uint_id. unfold is_uint. lia. }
    destruct Hb as [?|?]; [done | lia]. }
  destruct (command trans); unfold SimpleMemory.read_data, SimpleMemory.write_data;
    unfold mbind, M_bind; [| fold (data_length trans) | done]; by rewrite Hu.
Qed.

(** Without the restriction the check of the code wraps around, and the copy
    leaves the array: a memory of 2^32 - 1 bytes, accessed at its last bytes. *)
Lemma memory_check_wraps (h : heap) (m : SimpleMemory.t) (trans : tlm_generic_payload) :
  memory_in h m -> SimpleMemory.size m = 2 ^ 32 - 1 ->
  command trans = TLM_READ_COMMAND -> address trans = 2 ^ 32 - 2 -> data_length trans = 4 ->
  SimpleMemory.transport (E := unit) m trans 0 h = (Fatal UndefinedBehaviour, h).
Proof.
  intros [Hd Hl] Hs Hc Ha Hn.
  unfold SimpleMemory.transport, SimpleMemory.transport_dbg, SimpleMemory.read_data, mbind, M_bind.
  rewrite Ha, Hs, Hc, Hn. cbn [assert]. change (uint32 (2 ^ 32 - 2)) with (2 ^ 32 - 2).
  change (uint32 (2 ^ 32 - 2 + 4)) with 2. cbn [Z.ltb Z.leb Z.compare].
  destruct (heap_read_cases (E := unit) h (SimpleMemory.data m) (2 ^ 32 - 2) 4)
    as [[_ Hb]|[Hr _]].
  - destruct Hb as (_ & _ & _ & Hb). rewrite Hl, Hs in Hb. lia.
  - change (assert (2 ^ 32 - 2 <? 2 ^ 32 - 1)) with (@skip heap unit).
    change (assert (2 <=? 2 ^ 32 - 1)) with (@skip heap unit).
    cbn [skip mret M_ret]. by rewrite Hr.
Qed.

(** C15: a memory accepts exactly the reads and writes within its bounds.  With
    sizes that leave room for a transfer below 2^32, a transaction ends in an
    answer after 10 ns if it lies within the memory, and in a failed assertion,
    without effect, if not: no copy leaves the array.  The arrays keep their
    sizes, and the bytes of other arrays do not change. *)
Theorem memory_transport_safe {E} (h : heap) (m : SimpleMemory.t) trans delay :
  memory_in h m -> no_wrap m (data_length trans) -> 0 < data_length trans ->
  match SimpleMemory.transport (E := E) m trans delay h with
  | (Ret (trans', delay'), h') =>
      uint32 (address trans) + data_length trans <= SimpleMemory.size m /\
      command trans <> TLM_IGNORE_COMMAND /\ delay' = delay + 10 * NS /\
      data_length trans' = data_length trans /\ address trans' = address trans /\
      response_status trans' = response_status trans /\ same_shape h h' /\
      (forall p, p <> SimpleMemory.data m -> h' !! p = h !! p)
  | (Throw _, _) => False
  | (Fatal f, h') =>
      f = AssertFailed /\ h' = h /\
      (SimpleMemory.size m < uint32 (address trans) + data_length trans \/
       command trans = TLM_IGNORE_COMMAND)
  end.
Proof.
  intros Hm Hw Hn. pose proof Hm as [Hd _].
  destruct (decide (command trans = TLM_IGNORE_COMMAND)) as [Hc|Hc];
    [rewrite transport_out_of_bounds by auto; auto |].
  destruct (Z_le_gt_dec (uint32 (address trans) + data_length trans) (SimpleMemory.size m)) as [Hb|Hb];
    [| rewrite transport_out_of_bounds by (try right; try right; done || lia); repeat split; lia].
  rewrite transport_in_bounds by (unfold no_wrap in Hw; done || lia). unfold memory_access.
  assert (Hin : in_bounds h (SimpleMemory.data m) (uint32 (address trans)) (data_length trans)).
  { pose proof (uint_range 32 (address trans) ltac:(lia)) as [? _].
    apply memory_in_bounds; (done || lia). }
  destruct (command trans); [| | done]; cbn [fst snd]; repeat split; try done.
  - unfold data_length, set_payload_data. cbn [payload_data]. rewrite length_peek by done.
    unfold data_length. lia.
  - by apply same_shape_poke.
  - intros p ?. unfold poke. by rewrite lookup_insert_ne.
Qed.

Definition example_memory : SimpleMemory.t := SimpleMemory.mk 0%nat 8 false.
Definition example_heap : heap := {[ 0%nat := replicate 8 0 ]}.

Lemma memory_transport_safe_witness :
  memory_in example_heap example_memory
  /\ (uint32 4 + 4 <= 8 /\ exists h',
     SimpleMemory.transport (E := unit) example_memory
       (mkPayload TLM_WRITE_COMMAND 4 [1; 2; 3; 4] TLM_OK_RESPONSE) 0 example_heap
     = (Ret (mkPayload TLM_WRITE_COMMAND 4 [1; 2; 3; 4] TLM_OK_RESPONSE, 10000), h')
     /\ same_shape example_heap h').
Proof.
  assert (Hm : memory_in example_heap example_memory) by (split; [by eexists | done]).
  split; [done |].
  pose proof (memory_transport_safe (E := unit) example_heap example_memory
    (mkPayload TLM_WRITE_COMMAND 4 [1; 2; 3; 4] TLM_OK_RESPONSE) 0 Hm
    ltac:(done) ltac:(done)) as Ht.
  split; [done |]. eexists. split; [reflexivity |].
  by destruct Ht as (_ & _ & _ & _ & _ & _ & Hs & _).
Defined.

(** ** Reading back what was written *)

(** The byte at offset [k] after a write of [src] at offset [a]. *)
Definition written (a : Z) (src m : list Z) (k : Z) : option Z :=
  if (a <=? k) && (k <? a + Z.of_nat (length src)) then src !! Z.to_nat (k - a)
  else m !! Z.to_nat k.

Lemma lookup_inserts_written (a k : Z) (src m : list Z) :
  0 <= a -> 0 <= k -> a + Z.of_nat (length src) <= Z.of_nat (length m) ->
  list_inserts (Z.to_nat a) src m !! Z.to_nat k = written a src m k.
Proof.
  intros ???. unfold written.
  destruct (Z.leb_spec a k), (Z.ltb_spec k (a + Z.of_nat (length src))); cbn [andb];
    [rewrite list_lookup_inserts by lia; f_equal; lia | | |];
    [rewrite list_lookup_inserts_ge by lia | rewrite list_lookup_inserts_lt by lia
      | rewrite list_lookup_inserts_lt by lia]; done.
Qed.

Lemma lookup_peek h p off n i :
  0 <= off -> 0 <= i < n -> peek h p off n !! Z.to_nat i = array h p !! Z.to_nat (off + i).
Proof.
  intros ??. unfold peek. rewrite lookup_take_lt, lookup_drop by lia. f_equal. lia.
Qed.

(** A memory returns what was written to it.  A read transaction after a
    write transaction, both within the memory, answers with the bytes of the
    write where the two overlap and with the bytes the memory held before
    elsewhere; the write answers with the transaction unchanged, and each takes
    10 ns. *)
Theorem memory_read_after_write {E} (h : heap) (m : SimpleMemory.t) w r d1 d2 :
  memory_in h m -> SimpleMemory.size m < 2 ^ 32 ->
  command w = TLM_WRITE_COMMAND -> command r = TLM_READ_COMMAND ->
  0 < data_length w -> 0 < data_length r ->
  uint32 (address w) + data_length w <= SimpleMemory.size m ->
  uint32 (address r) + data_length r <= SimpleMemory.size m ->
  exists h1 data,
    SimpleMemory.transport (E := E) m w d1 h = (Ret (w, d1 + 10 * NS), h1) /\
    SimpleMemory.transport (E := E) m r d2 h1
      = (Ret (set_payload_data data r, d2 + 10 * NS), h1) /\
    length data = length (payload_data r) /\
    forall i, 0 <= i < data_length r ->
      data !! Z.to_nat i
      = written (uint32 (address w)) (payload_data w) (array h (SimpleMemory.data m))
          (uint32 (address r) + i).
Proof.
  intros Hm Hs Hw Hr Hlw Hlr Hbw Hbr. pose proof Hm as [Hd Hl].
  pose proof (uint_range 32 (address w) ltac:(lia)) as [Haw _].
  pose proof (uint_range 32 (address r) ltac:(lia)) as [Har _].
  fold (uint32 (address w)) in Haw. fold (uint32 (address r)) in Har.
  set (h1 := poke (SimpleMemory.data m) (uint32 (address w)) (payload_data w) h).
  assert (Hm1 : memory_in h1 m) by (by apply memory_in_poke).
  exists h1, (peek h1 (SimpleMemory.data m) (uint32 (address r)) (data_length r)).
  rewrite !transport_in_bounds by (rewrite ?Hw, ?Hr; done).
  unfold memory_access. rewrite Hw, Hr. cbn [fst snd].
  split; [done |]. split; [done |]. split.
  - rewrite length_peek; [unfold data_length; lia |]. apply memory_in_bounds; (done || lia).
  - intros i Hi. rewrite lookup_peek by lia. unfold h1. rewrite array_poke.
    apply lookup_inserts_written; [lia | lia |]. unfold data_length in Hbw. lia.
Qed.

Definition example_write := mkPayload TLM_WRITE_COMMAND 2 [7; 8; 9] TLM_OK_RESPONSE.
Definition example_read := mkPayload TLM_READ_COMMAND 3 [0; 0; 0; 0] TLM_OK_RESPONSE.

Lemma memory_read_after_write_witness :
  memory_in example_heap example_memory /\
  exists h1 data,
    SimpleMemory.transport (E := unit) example_memory example_write 0 example_heap
      = (Ret (example_write, 10000), h1) /\
    SimpleMemory.transport (E := unit) example_memory example_read 10000 h1
      = (Ret (set_payload_data data example_read, 20000), h1) /\
    data = [8; 9; 0; 0].
Proof.
  assert (Hm : memory_in example_heap example_memory) by (split; [by eexists | done]).
  split; [exact Hm |].
  destruct (memory_read_after_write (E := unit) example_heap example_memory example_write
    example_read 0 10000 Hm ltac:(done) ltac:(done) ltac:(done) ltac:(done) ltac:(done)
    ltac:(by vm_compute) ltac:(by vm_compute)) as (h1 & data & H1 & H2 & Hl & Hd).
  exists h1, data. split; [exact H1 |]. split; [exact H2 |].
  destruct data as [|b0 [|b1 [|b2 [|b3 [|? ?]]]]]; try discriminate Hl.
  pose proof (Hd 0 ltac:(by vm_compute)) as E0. pose proof (Hd 1 ltac:(by vm_compute)) as E1.
  pose proof (Hd 2 ltac:(by vm_compute)) as E2. pose proof (Hd 3 ltac:(by vm_compute)) as E3.
  vm_compute in E0, E1, E2, E3. by simplify_eq.
Defined.

(** ** Direct memory access *)

(** A range within its array, as create_start_size_mapping makes it. *)
Record dmi_in (h : heap) (d : MemoryDMI) : Prop := {
  dmi_block : is_Some (h !! dmi_mem d);
  dmi_length : Z.of_nat (length (array h (dmi_mem d))) = dmi_size d;
  dmi_range : 0 <= dmi_start d /\ 0 < dmi_size d;
  dmi_end_eq : dmi_end d = dmi_start d + dmi_size d;
  dmi_end_fits : dmi_end d + 8 <= 2 ^ 64
}.

Lemma dmi_in_shape h h' d : same_shape h h' -> dmi_in h d -> dmi_in h' d.
Proof.
  intros Hs [[a Ha] Hl Hr He Hf]. specialize (Hs (dmi_mem d)). rewrite Ha in Hs. simpl in Hs.
  unfold array in *. rewrite Ha in Hl. simpl in Hl.
  destruct (h' !! dmi_mem d) as [a'|] eqn:Ha'; simpl in *; [| done]. injection Hs as Hs.
  constructor; [by eexists | | done | done | done]. unfold array. rewrite Ha'. simpl. lia.
Qed.

Lemma create_mapping_in {S E} h mem start size (s : S) :
  is_Some (h !! mem) -> Z.of_nat (length (array h mem)) = size ->
  0 <= start -> 0 < size -> start + size + 8 <= 2 ^ 64 ->
  exists d, create_start_size_mapping (E := E) mem start size s = (Ret d, s) /\ dmi_in h d /\
    dmi_mem d = mem /\ dmi_start d = start /\ dmi_size d = size.
Proof.
  intros Hd Hl ???. exists (mkMemoryDMI mem start size (start + size)).
  unfold create_start_size_mapping, mbind, M_bind, uint64. rewrite uint_id by (unfold is_uint; lia).
  destruct (Z.ltb_spec start (start + size)); [| lia].
  split; [done |]. split; [| done]. by constructor.
Qed.

(** The accesses of a range: a failed assertion unless all bytes are in it. *)
Definition dmi_fits (T : int_type) (d : MemoryDMI) (addr : Z) : Prop :=
  dmi_start d <= addr /\ addr + Z.of_nat (sizeof T) <= dmi_end d.

Lemma dmi_ptr {E} h d T addr :
  dmi_in h d -> is_uint 64 addr ->
  dmi_fits T d addr /\ get_mem_ptr_to_global_addr (E := E) T d addr h = (Ret (addr - dmi_start d), h)
  \/ ~ dmi_fits T d addr /\
     get_mem_ptr_to_global_addr (E := E) T d addr h = (Fatal AssertFailed, h).
Proof.
  intros [_ _ Hr He Hf] Ha. unfold is_uint, dmi_fits in *.
  assert (0 < Z.of_nat (sizeof T) <= 8) by (by destruct T).
  unfold get_mem_ptr_to_global_addr, dmi_contains, mbind, M_bind.
  destruct (Z.leb_spec (dmi_start d) addr); [| right; split; [lia | done]].
  destruct (Z.ltb_spec addr (dmi_end d)); [| right; split; [lia | done]].
  cbn [andb assert skip mret M_ret].
  destruct (Z.eqb_spec (addr + Z.of_nat (sizeof T)) (2 ^ 64)); [lia |].
  unfold uint64. rewrite uint_id by (unfold is_uint; lia).
  destruct (Z.leb_spec (addr + Z.of_nat (sizeof T)) (dmi_end d)); [left | right]; split; done || lia.
Qed.

Lemma dmi_in_bounds h d T addr :
  dmi_in h d -> dmi_fits T d addr ->
  in_bounds h (dmi_mem d) (addr - dmi_start d) (Z.of_nat (sizeof T)).
Proof. intros [Hb Hl Hr He Hf] [??]. split; [done |]. lia. Qed.

Lemma dmi_load_fits {E} h d T addr :
  dmi_in h d -> is_uint 64 addr -> dmi_fits T d addr ->
  dmi_load (E := E) T d addr h
  = (Ret (from_bytes T (peek h (dmi_mem d) (addr - dmi_start d) (Z.of_nat (sizeof T)))), h).
Proof.
  intros Hd Ha Hf. unfold dmi_load, mbind, M_bind.
  destruct (dmi_ptr (E := E) h d T addr Hd Ha) as [[_ ->]|[? _]]; [| done].
  by rewrite heap_read_in by (by apply dmi_in_bounds).
Qed.

Lemma dmi_store_fits {E} h d T addr v :
  dmi_in h d -> is_uint 64 addr -> dmi_fits T d addr ->
  dmi_store (E := E) T d addr v h
  = (Ret tt, poke (dmi_mem d) (addr - dmi_start d) (to_bytes T v) h).
Proof.
  intros Hd Ha Hf. unfold dmi_store, mbind, M_bind.
  destruct (dmi_ptr (E := E) h d T addr Hd Ha) as [[_ ->]|[? _]]; [| done].
  rewrite heap_write_in; [done |]. rewrite length_to_bytes. by apply dmi_in_bounds.
Qed.

Lemma dmi_misfit {E} h d T addr :
  dmi_in h d -> is_uint 64 addr -> ~ dmi_fits T d addr ->
  dmi_load (E := E) T d addr h = (Fatal AssertFailed, h) /\
  forall v, dmi_store (E := E) T d addr v h = (Fatal AssertFailed, h).
Proof.
  intros Hd Ha Hf. unfold dmi_load, dmi_store, mbind, M_bind.
  destruct (dmi_ptr (E := E) h d T addr Hd Ha) as [[? _]|[_ Hm]]; [done |].
  by rewrite Hm.
Qed.
