(* ===== verification/Bus.v ===== *)
(** * The bus and the bus lock

    Models platform/common/bus.h and core/common/bus_lock_if.h: PortMapping,
    SimpleBus, PeripheralWriteConnector, and BusLock, the lock that LR/SC pairs
    and atomic memory operations hold.  The bus is generic in the state of the
    targets its sockets are bound to.  The waiting functions of the lock are
    generic in the state of the process that calls them: [wait_lock_event] is
    the call of [sc_core::wait], during which other processes run. *)

From S2P Require Import Prelude Memory.

(** ** PortMapping *)

Record PortMapping : Type := mkPortMapping { port_start : Z; port_end : Z }.

Definition PortMapping_new {S E} (start end_ : Z) : M S E PortMapping :=
  assert (start <=? end_) ;; mret (mkPortMapping start end_).

Definition port_contains (p : PortMapping) (addr : Z) : bool :=
  (port_start p <=? addr) && (addr <=? port_end p).

Definition global_to_local (p : PortMapping) (addr : Z) : Z := uint64 (addr - port_start p).

(** ** SimpleBus *)

(** The index of the first port that contains the address; [None] is -1. *)
Fixpoint decode (ports : list PortMapping) (addr : Z) : option nat :=
  match ports with
  | [] => None
  | p :: ports => if port_contains p addr then Some O else S <$> decode ports addr
  end.

Section SimpleBus.
Context {S E : Type}.

(** A bus: its ports, and the targets bound to its initiator sockets. *)
Record SimpleBus : Type := mkSimpleBus {
  ports : list PortMapping;
  isocks : list (transport_fn S E)
}.

Definition bus_transport (b : SimpleBus) : transport_fn S E := fun trans delay =>
  match decode (ports b) (address trans) with
  | None => mret (set_response_status TLM_ADDRESS_ERROR_RESPONSE trans, delay)
  | Some id =>
      match ports b !! id, isocks b !! id with
      | Some p, Some target =>
          target (set_address (global_to_local p (address trans)) trans) delay
      | _, _ => fatal UndefinedBehaviour
      end
  end.

End SimpleBus.
Arguments SimpleBus S E : clear implicits.

(** ** BusLock *)

Record BusLock : Type := mkBusLock { locked : bool; owner : Z }.

Definition BusLock_init : BusLock := mkBusLock false 0.

Definition is_locked (l : BusLock) : bool := locked l.
Definition is_locked_by (hart_id : Z) (l : BusLock) : bool := locked l && (owner l =? hart_id).

Section BusLock.
Context {S E : Type} (get_lock : S -> BusLock) (set_lock : BusLock -> S -> S).
Context (wait_lock_event notify_lock_event : M S E unit) (wait_bound : nat).

(** [while (locked) sc_core::wait(lock_event)]: a process that is not woken to
    an open lock within the bound stays blocked. *)
Fixpoint wait_while_locked (n : nat) : M S E unit :=
  l ← gets get_lock;
  if locked l then
    match n with
    | O => fatal Blocked
    | Datatypes.S n => wait_lock_event ;; wait_while_locked n
    end
  else skip.

Definition wait_until_unlocked : M S E unit := wait_while_locked wait_bound.

Definition lock (hart_id : Z) : M S E unit :=
  l ← gets get_lock;
  when (locked l && negb (hart_id =? owner l)) wait_until_unlocked ;;
  l ← gets get_lock;
  assert (negb (locked l) || (hart_id =? owner l)) ;;
  modify (set_lock (mkBusLock true hart_id)).

Definition unlock (hart_id : Z) : M S E unit :=
  l ← gets get_lock;
  when (locked l && (owner l =? hart_id))
    (modify (set_lock (mkBusLock false (owner l))) ;; notify_lock_event).

Definition wait_for_access_rights (hart_id : Z) : M S E unit :=
  l ← gets get_lock;
  when (is_locked l && negb (is_locked_by hart_id l)) wait_until_unlocked.

(** ** PeripheralWriteConnector *)

Definition connector_transport (isock : transport_fn S E) : transport_fn S E := fun trans delay =>
  wait_until_unlocked ;;
  r ← isock trans delay;
  if bool_decide (response_status (fst r) = TLM_ADDRESS_ERROR_RESPONSE)
  then fatal RuntimeError else mret r.

End BusLock.

(** ** Routing *)

Lemma decode_Some ports addr i :
  decode ports addr = Some i <->
  (exists p, ports !! i = Some p /\ port_contains p addr = true) /\
  (forall j p, (j < i)%nat -> ports !! j = Some p -> port_contains p addr = false).
Proof.
  revert i. induction ports as [|q ports IH]; intros i; cbn [decode].
  - split; [done |]. intros [(p & Hp & _) _]. by rewrite lookup_nil in Hp.
  - destruct (port_contains q addr) eqn:Hq.
    + split.
      * intros [= <-]. split; [by exists q | lia].
      * intros [_ Hj]. destruct i as [|i]; [done |].
        specialize (Hj 0%nat q ltac:(lia) eq_refl). congruence.
    + destruct i as [|i].
      * split; [by destruct (decode ports addr) |].
        intros [(p & [= <-] & Hp) _]. congruence.
      * split.
        -- intros Hd. destruct (decode ports addr) as [j|] eqn:Hj; [| done].
           injection Hd as ->. destruct (proj1 (IH i) eq_refl) as [Hi Hbefore]. split; [done |].
           intros [|k] p Hk Hp; [by injection Hp as <- |]. apply (Hbefore k p); [lia | done].
        -- intros [Hi Hbefore]. rewrite (proj2 (IH i)); [done |]. split; [done |].
           intros k p Hk Hp. apply (Hbefore (Datatypes.S k) p); [lia | done].
Qed.

Lemma decode_None ports addr :
  decode ports addr = None <-> Forall (fun p => port_contains p addr = false) ports.
Proof.
  induction ports as [|q ports IH]; cbn [decode]; [done |]. rewrite Forall_cons.
  destruct (port_contains q addr); [by split; [| intros [? _]] |]. rewrite <- IH.
  destruct (decode ports addr); simpl; split; (done || by intros [_ ?]).
Qed.

Lemma port_contains_spec p addr :
  port_contains p addr = true <-> port_start p <= addr <= port_end p.
Proof. unfold port_contains. lia. Qed.

(** The ports of a platform do not overlap. *)
Definition disjoint_ports (ports : list PortMapping) : Prop :=
  forall i j p q addr, ports !! i = Some p -> ports !! j = Some q ->
    port_contains p addr = true -> port_contains q addr = true -> i = j.

Lemma decode_disjoint ports addr i p :
  disjoint_ports ports -> ports !! i = Some p -> port_contains p addr = true ->
  decode ports addr = Some i.
Proof.
  intros Hd Hi Hp. apply decode_Some. split; [by exists p |]. intros j q Hj Hq.
  destruct (port_contains q addr) eqn:Hc; [| done].
  assert (j = i) by (by eapply (Hd j i q p addr)). lia.
Qed.

(** The bus delivers a transaction to the port it belongs to.  With ports
    that do not overlap and a socket bound for each, a transaction whose address
    lies in a port reaches that port's target, whatever the order of the ports,
    with the address relative to the start of the port and everything else
    unchanged, and the target's answer is the answer; if no port contains the
    address, no target is called and the response is an address error. *)
Theorem bus_routing {S E} (b : SimpleBus S E) trans delay (s : S) :
  disjoint_ports (ports b) -> length (isocks b) = length (ports b) ->
  is_uint 64 (address trans) -> Forall (fun p => 0 <= port_start p) (ports b) ->
  (forall i p, ports b !! i = Some p -> port_contains p (address trans) = true ->
     exists target, isocks b !! i = Some target /\
       bus_transport b trans delay s
       = target (set_address (address trans - port_start p) trans) delay s) /\
  (Forall (fun p => port_contains p (address trans) = false) (ports b) ->
     bus_transport b trans delay s
     = (Ret (set_response_status TLM_ADDRESS_ERROR_RESPONSE trans, delay), s)).
Proof.
  intros Hd Hl Ha Hs. unfold bus_transport. split.
  - intros i p Hi Hp. rewrite (decode_disjoint _ _ _ _ Hd Hi Hp), Hi.
    assert (is_Some (isocks b !! i)) as [target Ht].
    { apply lookup_lt_is_Some. rewrite Hl. by eapply lookup_lt_Some. }
    exists target. split; [done |]. rewrite Ht. unfold global_to_local, uint64.
    rewrite uint_id; [done |]. apply port_contains_spec in Hp.
    rewrite Forall_lookup in Hs. specialize (Hs i p Hi). simpl in Hs. unfold is_uint in *. lia.
  - intros Hn. by rewrite (proj2 (decode_None _ _) Hn).
Qed.

Definition example_bus : SimpleBus heap unit :=
  mkSimpleBus [mkPortMapping 0x1000 0x1007; mkPortMapping 0 0xfff]
    [SimpleMemory.transport example_memory; zero_transport].

Lemma bus_routing_witness :
  disjoint_ports (ports example_bus) /\
  bus_transport example_bus (mkPayload TLM_READ_COMMAND 0x1004 [0] TLM_OK_RESPONSE) 0 example_heap
  = SimpleMemory.transport example_memory
      (mkPayload TLM_READ_COMMAND 4 [0] TLM_OK_RESPONSE) 0 example_heap.
Proof.
  assert (Hd : disjoint_ports (ports example_bus)).
  { intros [|[|i]] [|[|j]] p q addr Hp Hq; simpl in Hp, Hq; simplify_eq; try done;
      rewrite !port_contains_spec; simpl; lia. }
  split; [exact Hd |].
  destruct (bus_routing example_bus (mkPayload TLM_READ_COMMAND 0x1004 [0] TLM_OK_RESPONSE) 0
    example_heap Hd eq_refl ltac:(by apply is_uint_literal) ltac:(repeat constructor; simpl; lia))
    as [Hr _].
  destruct (Hr 0%nat (mkPortMapping 0x1000 0x1007) eq_refl eq_refl) as (target & Ht & E).
  injection Ht as <-. exact E.
Defined.

(** ** Mutual exclusion *)

(** What a bus master does with the lock: it takes it, releases it, or waits for
    its right to access the bus. *)
Inductive bus_op : Type := Lock | Unlock | Access.

(** An operation of a hart, when no other process can open the lock for it: a
    hart that has to wait is blocked. *)
Definition run_op (hart_id : Z) (op : bus_op) : M BusLock unit unit :=
  match op with
  | Lock => lock id (fun l _ => l) (fatal Blocked) 1 hart_id
  | Unlock => unlock id (fun l _ => l) skip hart_id
  | Access => wait_for_access_rights id (fatal Blocked) 1 hart_id
  end.

(** The operations of all harts, one after the other: [lock_trace l tr l'] if
    none of them is blocked. *)
Inductive lock_trace : BusLock -> list (Z * bus_op) -> BusLock -> Prop :=
  | trace_nil l : lock_trace l [] l
  | trace_cons l h op l1 tr l2 :
      run_op h op l = (Ret tt, l1) -> lock_trace l1 tr l2 -> lock_trace l ((h, op) :: tr) l2.

Lemma run_op_eq h op l :
  run_op h op l =
  match op with
  | Lock =>
      if locked l && negb (h =? owner l) then (Fatal Blocked, l) else (Ret tt, mkBusLock true h)
  | Unlock => (Ret tt, if locked l && (owner l =? h) then mkBusLock false (owner l) else l)
  | Access => if locked l && negb (h =? owner l) then (Fatal Blocked, l) else (Ret tt, l)
  end.
Proof.
  destruct l as [b o], op; unfold run_op, lock, unlock, wait_for_access_rights, wait_until_unlocked,
    wait_while_locked, is_locked, is_locked_by, gets, mbind, M_bind; cbn [locked owner id].
  - by destruct b; simpl; destruct (h =? o) eqn:E; simpl; rewrite ?E.
  - destruct b; cbn [andb when]; [| done]. by destruct (o =? h).
  - rewrite (Z.eqb_sym o h). destruct b; cbn [andb negb when skip mret M_ret]; [| done].
    by destruct (h =? o).
Qed.

(** C14: the bus lock excludes the other harts.  From the moment a hart holds the
    lock until it releases it, every operation that is not blocked and that
    takes the lock or accesses the bus is one of that hart, and the lock stays
    taken; once it is released, no operation of any hart is blocked. *)
Theorem lock_mutual_exclusion (l l' : BusLock) (h : Z) (tr : list (Z * bus_op)) :
  run_op h Lock l = (Ret tt, l') ->
  (forall l2, lock_trace l' tr l2 -> ~ In (h, Unlock) tr ->
     is_locked_by h l2 = true /\
     forall h' op, In (h', op) tr -> op = Unlock \/ h' = h) /\
  (exists l2, run_op h Unlock l' = (Ret tt, l2) /\ is_locked l2 = false /\
     forall h' op, exists l3, run_op h' op l2 = (Ret tt, l3)).
Proof.
  intros Hlock.
  assert (Hl : l' = mkBusLock true h).
  { rewrite run_op_eq in Hlock. by destruct (_ && _); [| injection Hlock]. }
  subst l'. split.
  - induction tr as [|[h' op] tr IH]; intros l2 Htr Hno; inversion Htr; subst.
    { split; [| done]. unfold is_locked_by. simpl. apply Z.eqb_refl. }
    match goal with H : run_op _ _ _ = _ |- _ => rewrite run_op_eq in H; simpl in H end.
    assert (Hstep : l1 = mkBusLock true h /\ (op = Unlock \/ h' = h)).
    { destruct op.
      - destruct (Z.eqb_spec h' h) as [->|]; simpl in *; [| done]. by simplify_eq; auto.
      - destruct (Z.eqb_spec h h') as [->|]; simpl in *; [| by simplify_eq; auto].
        exfalso. apply Hno. by left.
      - destruct (Z.eqb_spec h' h) as [->|]; simpl in *; [| done]. by simplify_eq; auto. }
    destruct Hstep as [-> Hop]. destruct (IH l2) as [? Hin]; [done | |].
    { intros Hin. apply Hno. by right. }
    split; [done |]. intros h2 op2 [[= <- <-]|?]; [done | by apply Hin].
  - exists (mkBusLock false h). rewrite run_op_eq. simpl. rewrite Z.eqb_refl.
    split; [done |]. split; [done |]. intros h' op. rewrite run_op_eq. by destruct op; eexists.
Qed.

Lemma lock_mutual_exclusion_witness :
  run_op 1 Lock BusLock_init = (Ret tt, mkBusLock true 1) /\
  run_op 2 Access (mkBusLock true 1) = (Fatal Blocked, mkBusLock true 1) /\
  is_locked_by 1 (mkBusLock true 1) = true.
Proof.
  split; [done |]. split; [done |].
  apply (proj1 (lock_mutual_exclusion BusLock_init (mkBusLock true 1) 1 [(1, Access); (2, Unlock)]
    eq_refl) (mkBusLock true 1)).
  - repeat (eapply trace_cons; [reflexivity |]). apply trace_nil.
  - intros [[=]|[[=]|[]]].
Defined.
