(* ===== verification/Mmu.v ===== *)
(** * The memory management unit

    Models core/common/mmu.h: page table entries, the page table walk with its
    permission checks and its updates of the accessed and dirty bits, and the
    TLB.  GenericMMU is a template over the core; what it reads of the core is
    the record [vm_regs], and the accesses to page tables are those of the
    interface mmu_memory_if (mmu_mem_if.h). *)

From S2P Require Import Prelude Instr Trap.

Definition PTE_PPN_SHIFT : Z := 10.
Definition PGSHIFT : Z := 12.
Definition PGSIZE : Z := 1 .<< PGSHIFT.
Definition PGMASK : Z := PGSIZE - 1.

Definition PTE_V : Z := 1.
Definition PTE_R : Z := 1 .<< 1.
Definition PTE_W : Z := 1 .<< 2.
Definition PTE_X : Z := 1 .<< 3.
Definition PTE_U : Z := 1 .<< 4.
Definition PTE_G : Z := 1 .<< 5.
Definition PTE_A : Z := 1 .<< 6.
Definition PTE_D : Z := 1 .<< 7.
Definition PTE_RSW : Z := 3 .<< 8.

(** struct pte_t: a 64-bit value and its flags. *)
Definition pte_t : Type := Z.
Definition pte_V_bit (pte : pte_t) : bool := nonzero (pte .& PTE_V).
Definition pte_R_bit (pte : pte_t) : bool := nonzero (pte .& PTE_R).
Definition pte_W_bit (pte : pte_t) : bool := nonzero (pte .& PTE_W).
Definition pte_X_bit (pte : pte_t) : bool := nonzero (pte .& PTE_X).
Definition pte_U_bit (pte : pte_t) : bool := nonzero (pte .& PTE_U).
Definition pte_G_bit (pte : pte_t) : bool := nonzero (pte .& PTE_G).
Definition pte_A_bit (pte : pte_t) : bool := nonzero (pte .& PTE_A).
Definition pte_D_bit (pte : pte_t) : bool := nonzero (pte .& PTE_D).

Record vm_info : Type := mkVmInfo { levels : Z; idxbits : Z; ptesize : Z; ptbase : Z }.

Inductive MemoryAccessType : Type := FETCH | LOAD | STORE.

#[export] Instance MemoryAccessType_eq_dec : EqDecision MemoryAccessType.
Proof. solve_decision. Defined.

Definition SATP_MODE_BARE : Z := 0.
Definition SATP_MODE_SV32 : Z := 1.
Definition SATP_MODE_SV39 : Z := 8.
Definition SATP_MODE_SV48 : Z := 9.
Definition SATP_MODE_SV57 : Z := 10.
Definition SATP_MODE_SV64 : Z := 11.

(** What the unit reads of the core: its privilege level, and fields of satp
    and mstatus. *)
Record vm_regs : Type := mkVmRegs {
  vm_prv : PrivilegeLevel;
  satp_mode : Z;
  satp_ppn : Z;
  vm_mprv : bool;
  vm_mpp : PrivilegeLevel;
  vm_sum : bool;
  vm_mxr : bool
}.

(** tlb_entry_t; the array is indexed by mode, access type and the low bits of
    the page number, and a flush sets every bit of every entry. *)
Record tlb_entry_t : Type := mkTlbEntry { entry_ppn : Z; entry_vpn : Z }.
Definition tlb_empty_entry : tlb_entry_t := mkTlbEntry (uint64 (-1)) (uint64 (-1)).

Definition TLB_ENTRIES : Z := 256.

Definition access_index (type : MemoryAccessType) : Z :=
  match type with FETCH => 0 | LOAD => 1 | STORE => 2 end.

Definition tlb_t : Type := gmap (Z * Z * Z) tlb_entry_t.
Definition tlb_get (t : tlb_t) (mode : Z) (type : MemoryAccessType) (idx : Z) : tlb_entry_t :=
  default tlb_empty_entry ((t : gmap (Z * Z * Z) tlb_entry_t) !! (mode, access_index type, idx)).
Definition tlb_set (mode : Z) (type : MemoryAccessType) (idx : Z) (x : tlb_entry_t) (t : tlb_t) :
    tlb_t := <[(mode, access_index type, idx) := x]> (t : gmap (Z * Z * Z) tlb_entry_t).
Definition tlb_flushed : tlb_t := (∅ : gmap (Z * Z * Z) tlb_entry_t).

Record MMU : Type := mkMMU { tlb : tlb_t; page_fault_on_AD : bool }.
Definition MMU_new : MMU := mkMMU tlb_flushed false.

Definition clock_cycle : Z := 10000.
Definition mmu_access_delay : Z := clock_cycle * 3.

(** The interface mmu_memory_if, the quantum keeper, and the state of the unit
    and the core within the state of the program. *)
Class mmu_interface (S : Type) : Type := {
  vm_regs_of : S -> vm_regs;
  get_mmu : S -> MMU;
  set_mmu : MMU -> S -> S;
  xlen : Z;
  mmu_load_pte64 : Z -> M S SimulationTrap Z;
  mmu_load_pte32 : Z -> M S SimulationTrap Z;
  mmu_store_pte32 : Z -> Z -> M S SimulationTrap unit;
  mmu_quantum_inc : Z -> M S SimulationTrap unit
}.

Section GenericMMU.
Context {S : Type} `{mmu_interface S}.

Abbreviation R := (M S SimulationTrap).

Definition core_reg {A} (f : vm_regs -> A) : R A := gets (fun s => f (vm_regs_of s)).

Definition mmu_flush_tlb : R unit :=
  modify (fun s => set_mmu (mkMMU tlb_flushed (page_fault_on_AD (get_mmu s))) s).

Definition vm_info_of_mode (mode ptbase : Z) : option vm_info :=
  if mode =? SATP_MODE_SV32 then Some (mkVmInfo 2 10 4 ptbase)
  else if mode =? SATP_MODE_SV39 then Some (mkVmInfo 3 9 8 ptbase)
  else if mode =? SATP_MODE_SV48 then Some (mkVmInfo 4 9 8 ptbase)
  else if mode =? SATP_MODE_SV57 then Some (mkVmInfo 5 9 8 ptbase)
  else if mode =? SATP_MODE_SV64 then Some (mkVmInfo 6 9 8 ptbase)
  else None.

Definition decode_vm_info (prv : PrivilegeLevel) : R vm_info :=
  assert (prv <=? SupervisorMode) ;;
  ppn ← core_reg satp_ppn;
  mode ← core_reg satp_mode;
  match vm_info_of_mode mode (uint64 (ppn .<< PGSHIFT)) with
  | Some vm => mret vm
  | None => fatal RuntimeError
  end.

(** The shift count is computed in [unsigned]: shifting by 64 or more, which
    SATP_MODE_SV64 leads to, is undefined. *)
Definition check_vaddr_extension (vaddr : Z) (vm : vm_info) : R bool :=
  let highbit := idxbits vm * levels vm + PGSHIFT - 1 in
  assert (0 <? highbit) ;;
  let n := uint32 (xlen - highbit) in
  if (64 <=? n) || (64 <=? highbit) then fatal UndefinedBehaviour
  else
    let ext_mask := uint64 (uint64 (1 .<< n) - 1) in
    let bits := (vaddr .>> highbit) .& ext_mask in
    mret ((bits =? 0) || (bits =? ext_mask)).

Definition page_fault {A} (type : MemoryAccessType) (vaddr : Z) : R A :=
  match type with
  | FETCH => raise_trap EXC_INSTR_PAGE_FAULT vaddr
  | LOAD => raise_trap EXC_LOAD_PAGE_FAULT vaddr
  | STORE => raise_trap EXC_STORE_AMO_PAGE_FAULT vaddr
  end.

(** The tests of a leaf entry after which the walk ends in a page fault. *)
Definition leaf_denied (pte : pte_t) (type : MemoryAccessType) (s_mode sum mxr : bool)
    (ptshift : Z) : bool :=
  let ppn := pte .>> PTE_PPN_SHIFT in
  match type with
  | FETCH => negb (pte_X_bit pte)
  | LOAD => negb (pte_R_bit pte) && negb (mxr && pte_X_bit pte)
  | STORE => negb (pte_R_bit pte && pte_W_bit pte)
  end
  || (if pte_U_bit pte then s_mode && (bool_decide (type = FETCH) || negb sum) else negb s_mode)
  || nonzero (ppn .& (uint64 (1 .<< ptshift) - 1)).

Definition ad_bits (type : MemoryAccessType) : Z :=
  PTE_A .| (b2z (bool_decide (type = STORE)) * PTE_D).

Definition leaf_address (pte : pte_t) (ptshift vaddr : Z) : Z :=
  let ppn := pte .>> PTE_PPN_SHIFT in
  let mask := uint64 (1 .<< ptshift) - 1 in
  let vpn := vaddr .>> PGSHIFT in
  let pgoff := vaddr .& (PGSIZE - 1) in
  uint64 (((ppn .& uint64 (Z.lnot mask)) .| (vpn .& mask)) .<< PGSHIFT) .| pgoff.

Definition pte_address (vm : vm_info) (base vaddr : Z) (i : nat) : Z :=
  let ptshift := Z.of_nat i * idxbits vm in
  let vpn_field := uint32 ((vaddr .>> (PGSHIFT + ptshift)) .& ((1 .<< idxbits vm) - 1)) in
  uint64 (base + vpn_field * ptesize vm).

(** The loop over the levels: [n] is [i + 1]. *)
Fixpoint walk_levels (vm : vm_info) (vaddr : Z) (type : MemoryAccessType)
    (s_mode sum mxr : bool) (n : nat) (base : Z) : R Z :=
  match n with
  | O => page_fault type vaddr
  | Datatypes.S i =>
      let ptshift := Z.of_nat i * idxbits vm in
      let pte_paddr := pte_address vm base vaddr i in
      assert ((ptesize vm =? 4) || (ptesize vm =? 8)) ;;
      pte ← (if ptesize vm =? 4 then mmu_load_pte32 pte_paddr else mmu_load_pte64 pte_paddr);
      let ppn := pte .>> PTE_PPN_SHIFT in
      if negb (pte_V_bit pte) || (negb (pte_R_bit pte) && pte_W_bit pte) then page_fault type vaddr
      else if negb (pte_R_bit pte) && negb (pte_X_bit pte) then
        walk_levels vm vaddr type s_mode sum mxr i (uint64 (ppn .<< PGSHIFT))
      else if leaf_denied pte type s_mode sum mxr ptshift then page_fault type vaddr
      else
        let ad := ad_bits type in
        pf ← gets (fun s => page_fault_on_AD (get_mmu s));
        if negb (pte .& ad =? ad) && pf then page_fault type vaddr
        else
          when (negb (pte .& ad =? ad)) (mmu_store_pte32 pte_paddr (uint32 (pte .| ad))) ;;
          mret (leaf_address pte ptshift vaddr)
  end.

Definition walk (vaddr : Z) (type : MemoryAccessType) (mode : PrivilegeLevel) : R Z :=
  let s_mode := mode =? SupervisorMode in
  sum ← core_reg vm_sum;
  mxr ← core_reg vm_mxr;
  vm ← decode_vm_info mode;
  ok ← check_vaddr_extension vaddr vm;
  walk_levels vm vaddr type s_mode sum mxr (if (ok : bool) then Z.to_nat (levels vm) else 0)
    (ptbase vm).

Definition translate_virtual_to_physical_addr (vaddr : Z) (type : MemoryAccessType) : R Z :=
  satp ← core_reg satp_mode;
  if satp =? SATP_MODE_BARE then mret vaddr
  else
    prv ← core_reg vm_prv; mprv ← core_reg vm_mprv; mpp ← core_reg vm_mpp;
    let mode := if negb (bool_decide (type = FETCH)) && mprv then mpp else prv in
    if mode =? MachineMode then mret vaddr
    else
      mmu_quantum_inc mmu_access_delay ;;
      assert ((mode =? 0) || (mode =? 1)) ;;
      let vpn := vaddr .>> PGSHIFT in
      let idx := vpn mod TLB_ENTRIES in
      x ← gets (fun s => tlb_get (tlb (get_mmu s)) mode type idx);
      if entry_vpn x =? vpn then mret (entry_ppn x .| (vaddr .& PGMASK))
      else
        paddr ← walk vaddr type mode;
        modify (fun s =>
          let m := get_mmu s in
          let x := mkTlbEntry (paddr .& uint32 (Z.lnot PGMASK)) vpn in
          set_mmu (mkMMU (tlb_set mode type idx x (tlb m)) (page_fault_on_AD m)) s) ;;
        mret paddr.

End GenericMMU.

Lemma tlb_get_set t mode type idx x mode' type' idx' :
  tlb_get (tlb_set mode type idx x t) mode' type' idx'
  = if decide ((mode, type, idx) = (mode', type', idx')) then x else tlb_get t mode' type' idx'.
Proof.
  unfold tlb_get, tlb_set. destruct (decide ((mode, type, idx) = (mode', type', idx'))) as [E|E].
  - simplify_eq. by rewrite lookup_insert_eq.
  - rewrite lookup_insert_ne; [done |]. intros E'. apply E. by destruct type, type'; simplify_eq/=.
Qed.
