(* ===== verification/MmuSpec.v ===== *)
(** * Address translation: the walk and the TLB against the page tables

    The specification is the translation of the privileged architecture: the
    leaf entry a virtual address leads to, the accesses it permits, and the
    physical address.  The theorems are proved against the class [pte_memory]:
    what a walk relies on from the memory that holds the page tables. *)

From S2P Require Import Prelude Instr Trap Mmu.

(** ** The page tables *)

Definition flag_V (pte : Z) : bool := Z.testbit pte 0.
Definition flag_R (pte : Z) : bool := Z.testbit pte 1.
Definition flag_W (pte : Z) : bool := Z.testbit pte 2.
Definition flag_X (pte : Z) : bool := Z.testbit pte 3.
Definition flag_U (pte : Z) : bool := Z.testbit pte 4.
Definition flag_A (pte : Z) : bool := Z.testbit pte 6.
Definition flag_D (pte : Z) : bool := Z.testbit pte 7.
Definition pte_ppn (pte : Z) : Z := pte / 2 ^ 10.

Definition pte_valid (pte : Z) : Prop := flag_V pte = true /\ (flag_W pte = true -> flag_R pte = true).
Definition pte_leaf (pte : Z) : Prop := flag_R pte = true \/ flag_X pte = true.

(** The address of the entry for the virtual address in a table of level [i]. *)
Definition entry_address (vm : vm_info) (table vaddr : Z) (i : nat) : Z :=
  uint64 (table + ptesize vm * (vaddr / 2 ^ (12 + Z.of_nat i * idxbits vm) mod 2 ^ idxbits vm)).

Definition next_table (pte : Z) : Z := uint64 (pte_ppn pte * 4096).

(** [leaf_at mem vm vaddr n table i a pte]: from a table of level [n - 1] the
    virtual address leads to the leaf entry [pte] of level [i] at address [a]. *)
Inductive leaf_at (mem : Z -> Z) (vm : vm_info) (vaddr : Z) : nat -> Z -> nat -> Z -> Z -> Prop :=
  | leaf_here i table pte :
      pte = mem (entry_address vm table vaddr i) -> pte_valid pte -> pte_leaf pte ->
      leaf_at mem vm vaddr (S i) table i (entry_address vm table vaddr i) pte
  | leaf_below i table pte j a leaf :
      pte = mem (entry_address vm table vaddr i) -> pte_valid pte -> ~ pte_leaf pte ->
      leaf_at mem vm vaddr i (next_table pte) j a leaf ->
      leaf_at mem vm vaddr (S i) table j a leaf.

Definition permits (pte : Z) (type : MemoryAccessType) (s_mode sum mxr : bool) : Prop :=
  match type with
  | FETCH => flag_X pte = true
  | LOAD => flag_R pte = true \/ mxr = true /\ flag_X pte = true
  | STORE => flag_W pte = true
  end /\
  (if flag_U pte then s_mode = true -> sum = true /\ type <> FETCH else s_mode = true).

(** A superpage starts at a multiple of its size. *)
Definition aligned_page (vm : vm_info) (pte : Z) (i : nat) : Prop :=
  pte_ppn pte mod 2 ^ (Z.of_nat i * idxbits vm) = 0.

Definition recorded (pte : Z) (type : MemoryAccessType) : Prop :=
  flag_A pte = true /\ (type = STORE -> flag_D pte = true).

Definition physical_address (vm : vm_info) (pte vaddr : Z) (i : nat) : Z :=
  uint64 ((pte_ppn pte + vaddr / 4096 mod 2 ^ (Z.of_nat i * idxbits vm)) * 4096) + vaddr mod 4096.

(** The bits of the virtual address above the translated ones are equal. *)
Definition top_bit (vm : vm_info) : Z := idxbits vm * levels vm + 11.
Definition canonical (xlen : Z) (vm : vm_info) (vaddr : Z) : Prop :=
  forall k, top_bit vm <= k < xlen -> Z.testbit vaddr k = Z.testbit vaddr (top_bit vm).

Record vm_info_ok (xlen : Z) (vm : vm_info) : Prop := {
  vm_levels : 0 < levels vm;
  vm_idxbits : 0 < idxbits vm <= 31;
  vm_ptesize : ptesize vm = 4 \/ ptesize vm = 8;
  vm_ptbase : is_uint 64 (ptbase vm) /\ ptbase vm mod 4096 = 0;
  vm_top : top_bit vm < xlen;
  vm_shift : xlen - top_bit vm < 64;
  vm_xlen : xlen <= 64;
  vm_below : levels vm * idxbits vm <= 63
}.

(** Accesses through the page tables to a virtual address: the leaf, and what
    is required of it. *)
Record access (xlen : Z) (mem : Z -> Z) (vm : vm_info) (type : MemoryAccessType)
    (s_mode sum mxr soft_AD : bool) (vaddr : Z) (i : nat) (a pte : Z) : Prop := {
  access_canonical : canonical xlen vm vaddr;
  access_leaf : leaf_at mem vm vaddr (Z.to_nat (levels vm)) (ptbase vm) i a pte;
  access_permits : permits pte type s_mode sum mxr;
  access_aligned : aligned_page vm pte i;
  access_recorded : soft_AD = true -> recorded pte type
}.

(** ** Flags and addresses of the code *)

Lemma land_bit (x k : Z) : 0 <= k -> nonzero (x .& (1 .<< k)) = Z.testbit x k.
Proof.
  intros Hk. rewrite Z.shiftl_mul_pow2, Z.mul_1_l by lia. unfold nonzero.
  destruct (Z.testbit x k) eqn:Hb.
  - destruct (Z.eqb_spec (x .& 2 ^ k) 0) as [E|]; [| done].
    assert (Ht : Z.testbit (x .& 2 ^ k) k = true).
    { by rewrite Z.land_spec, Hb, Z.pow2_bits_eqb, Z.eqb_refl by lia. }
    by rewrite E, Z.bits_0 in Ht.
  - assert (x .& 2 ^ k = 0) as ->; [| done].
    apply Z.bits_inj'. intros j ?. rewrite Z.land_spec, Z.pow2_bits_eqb, Z.bits_0 by lia.
    destruct (Z.eqb_spec k j) as [<-|]; [by rewrite Hb | apply andb_false_r].
Qed.

Lemma pte_flags (pte : Z) :
  pte_V_bit pte = flag_V pte /\ pte_R_bit pte = flag_R pte /\ pte_W_bit pte = flag_W pte /\
  pte_X_bit pte = flag_X pte /\ pte_U_bit pte = flag_U pte /\ pte_A_bit pte = flag_A pte /\
  pte_D_bit pte = flag_D pte.
Proof.
  unfold pte_V_bit, pte_R_bit, pte_W_bit, pte_X_bit, pte_U_bit, pte_A_bit, pte_D_bit,
    PTE_V, PTE_R, PTE_W, PTE_X, PTE_U, PTE_A, PTE_D.
  rewrite !land_bit by lia. split; [| done]. apply (land_bit pte 0). lia.
Qed.

Lemma ad_bits_recorded (pte : Z) (type : MemoryAccessType) :
  (pte .& ad_bits type =? ad_bits type) = true <-> recorded pte type.
Proof.
  unfold ad_bits, recorded, flag_A, flag_D. rewrite Z.eqb_eq.
  assert (Hbits : forall ad, 0 <= ad -> (pte .& ad = ad <->
            forall k, 0 <= k -> Z.testbit ad k = true -> Z.testbit pte k = true)).
  { intros ad _. split.
    - intros Ha k Hk Hb. rewrite <- Ha, Z.land_spec in Hb. by apply andb_true_iff in Hb as [? _].
    - intros Ha. apply Z.bits_inj'. intros k Hk. rewrite Z.land_spec.
      destruct (Z.testbit ad k) eqn:Hb; [by rewrite (Ha k) | apply andb_false_r]. }
  destruct (decide (type = STORE)) as [->|Ht].
  - change (PTE_A .| (b2z (bool_decide (STORE = STORE)) * PTE_D)) with 192.
    rewrite Hbits by lia. split.
    + intros Ha. split; [apply Ha; (lia || done) | intros _; apply Ha; (lia || done)].
    + intros [HA HD] k Hk Hb. specialize (HD eq_refl).
      destruct (decide (k = 6)) as [->|]; [done |]. destruct (decide (k = 7)) as [->|]; [done |].
      destruct (decide (k < 8)).
      * assert (Hk' : k = 0 \/ k = 1 \/ k = 2 \/ k = 3 \/ k = 4 \/ k = 5) by lia.
        repeat (destruct Hk' as [->|Hk']; [done |]). by subst.
      * rewrite Z.bits_above_log2 in Hb; [done | lia | simpl; lia].
  - assert (b2z (bool_decide (type = STORE)) = 0) as -> by (by rewrite bool_decide_false).
    rewrite Z.mul_0_l, Z.lor_0_r. unfold PTE_A. change (1 .<< 6) with 64. rewrite Hbits by lia. split.
    + intros Ha. split; [apply Ha; (lia || done) | done].
    + intros [HA _] k Hk Hb. destruct (decide (k = 6)) as [->|]; [done |].
      destruct (decide (k < 7)).
      * assert (Hk' : k = 0 \/ k = 1 \/ k = 2 \/ k = 3 \/ k = 4 \/ k = 5) by lia.
        repeat (destruct Hk' as [->|Hk']; [done |]). by subst.
      * rewrite Z.bits_above_log2 in Hb; [done | lia | simpl; lia].
Qed.

Lemma ones_mask (p : Z) : 0 <= p < 64 -> uint64 (1 .<< p) - 1 = Z.ones p.
Proof.
  intros. rewrite Z.ones_equiv, Z.shiftl_mul_pow2, Z.mul_1_l by lia.
  unfold uint64. rewrite uint_id; [lia |]. unfold is_uint.
  pose proof (Z.pow_pos_nonneg 2 p ltac:(lia) ltac:(lia)).
  pose proof (Z.pow_lt_mono_r 2 p 64 ltac:(lia) ltac:(lia) ltac:(lia)). lia.
Qed.

Lemma lor_add (a b k : Z) : 0 <= k -> a mod 2 ^ k = 0 -> 0 <= b < 2 ^ k -> a .| b = a + b.
Proof.
  intros Hk Ha Hb. rewrite <- Z.add_lor_land.
  assert (a .& b = 0) as ->; [| lia].
  apply Z.bits_inj'. intros j Hj. rewrite Z.land_spec, Z.bits_0. destruct (decide (j < k)).
  - rewrite <- (Z.mod_pow2_bits_low a k j) by lia. by rewrite Ha, Z.bits_0.
  - rewrite <- (Z.mod_small b (2 ^ k)) by lia. rewrite Z.mod_pow2_bits_high by lia.
    apply andb_false_r.
Qed.

Lemma pte_shift (pte : Z) : pte .>> PTE_PPN_SHIFT = pte_ppn pte.
Proof. unfold PTE_PPN_SHIFT, pte_ppn. by rewrite Z.shiftr_div_pow2. Qed.

Lemma pte_ppn_range pte : is_uint 64 pte -> 0 <= pte_ppn pte < 2 ^ 54.
Proof.
  unfold is_uint, pte_ppn. intros. split; [apply Z.div_pos; lia |].
  apply Z.div_lt_upper_bound; lia.
Qed.

Lemma land_ones_mod (x p : Z) : 0 <= p < 64 -> x .& (uint64 (1 .<< p) - 1) = x mod 2 ^ p.
Proof. intros. by rewrite ones_mask, Z.land_ones by lia. Qed.

Lemma leaf_denied_spec vm pte type s_mode sum mxr i :
  pte_valid pte -> 0 <= Z.of_nat i * idxbits vm < 64 ->
  leaf_denied pte type s_mode sum mxr (Z.of_nat i * idxbits vm) = false <->
  permits pte type s_mode sum mxr /\ aligned_page vm pte i.
Proof.
  intros [_ Hw] Hi. unfold leaf_denied, permits, aligned_page.
  destruct (pte_flags pte) as (_ & -> & -> & -> & -> & _).
  rewrite land_ones_mod by done. rewrite pte_shift. unfold nonzero.
  rewrite !orb_false_iff, negb_false_iff, Z.eqb_eq.
  assert ((if flag_U pte then s_mode && (bool_decide (type = FETCH) || negb sum) else negb s_mode) = false
          <-> (if flag_U pte then s_mode = true -> sum = true /\ type <> FETCH else s_mode = true)) as ->.
  { destruct (flag_U pte); [| by destruct s_mode].
    destruct s_mode; [| by split]. destruct sum; simpl.
    - rewrite orb_false_r, bool_decide_eq_false. tauto.
    - rewrite orb_true_r. split; [done |]. intros Hs. by destruct (Hs eq_refl). }
  match goal with |- context [if flag_U pte then ?A else ?B] =>
    generalize (if flag_U pte then A else B); intros user end.
  destruct type; simpl.
  - destruct (flag_X pte); simpl; intuition congruence.
  - destruct (flag_R pte), (flag_X pte), mxr; simpl; intuition congruence.
  - destruct (flag_R pte), (flag_W pte); simpl in *; intuition congruence.
Qed.

Lemma pte_address_spec vm table vaddr i :
  0 < idxbits vm <= 31 -> pte_address vm table vaddr i = entry_address vm table vaddr i.
Proof.
  intros Hb. unfold pte_address, entry_address, PGSHIFT.
  assert (Hpos : 0 < 2 ^ idxbits vm) by (apply Z.pow_pos_nonneg; lia).
  assert ((1 .<< idxbits vm) - 1 = Z.ones (idxbits vm)) as ->.
  { rewrite Z.ones_equiv, Z.shiftl_mul_pow2 by lia. lia. }
  rewrite Z.land_ones, Z.shiftr_div_pow2 by lia.
  unfold uint32. rewrite uint_id; [f_equal; lia |].
  pose proof (Z.mod_pos_bound (vaddr / 2 ^ (12 + Z.of_nat i * idxbits vm)) (2 ^ idxbits vm) Hpos).
  pose proof (Z.pow_le_mono_r 2 (idxbits vm) 31). unfold is_uint. lia.
Qed.

Lemma aligned_land_mask (x p : Z) :
  0 <= p -> is_uint 64 x -> x mod 2 ^ p = 0 -> x .& uint64 (Z.lnot (Z.ones p)) = x.
Proof.
  intros Hp Hx Ha. apply Z.bits_inj'. intros k Hk. rewrite Z.land_spec.
  destruct (decide (k < 64)).
  - unfold uint64. rewrite uint_testbit_low, Z.lnot_spec by lia. destruct (decide (k < p)).
    + rewrite <- (Z.mod_pow2_bits_low x p k), Ha, Z.bits_0 by lia. done.
    + rewrite Z.ones_spec_high by lia. apply andb_true_r.
  - rewrite is_uint_bits in Hx by lia. by rewrite Hx by lia.
Qed.

Lemma mult_4096_lor (x b : Z) : 0 <= b < 4096 -> uint64 (x * 4096) .| b = uint64 (x * 4096) + b.
Proof.
  intros. apply (lor_add _ _ 12); [lia | | done]. unfold uint64, uint.
  replace (2 ^ 64) with (2 ^ 12 * 2 ^ 52) by reflexivity. change 4096 with (2 ^ 12).
  rewrite Z.rem_mul_r by lia. rewrite (Z.mul_comm (2 ^ 12)), Z_mod_plus_full, Z.mod_mod by lia.
  by apply Z_mod_mult.
Qed.

Lemma leaf_address_spec vm pte vaddr i :
  is_uint 64 pte -> 0 <= Z.of_nat i * idxbits vm < 64 -> aligned_page vm pte i ->
  leaf_address pte (Z.of_nat i * idxbits vm) vaddr = physical_address vm pte vaddr i.
Proof.
  intros Hpte Hi Ha. unfold leaf_address, physical_address, aligned_page in *.
  pose proof (pte_ppn_range pte Hpte). set (p := Z.of_nat i * idxbits vm) in *.
  rewrite pte_shift, ones_mask by done. unfold PGSIZE, PGSHIFT.
  change ((1 .<< 12) - 1) with (Z.ones 12).
  rewrite (aligned_land_mask (pte_ppn pte) p) by (done || (unfold is_uint; lia)).
  rewrite !Z.land_ones by lia. rewrite (Z.shiftr_div_pow2 vaddr) by lia.
  change (2 ^ 12) with 4096.
  pose proof (Z.mod_pos_bound (vaddr / 4096) (2 ^ p) ltac:(apply Z.pow_pos_nonneg; lia)).
  rewrite (lor_add (pte_ppn pte) _ p) by first [done | lia]. rewrite Z.shiftl_mul_pow2 by lia.
  apply mult_4096_lor. apply Z.mod_pos_bound. lia.
Qed.

(** ** The canonical form of an address *)

Lemma extension_bits (vaddr h n : Z) :
  0 <= h -> 0 < n ->
  ((vaddr .>> h) .& Z.ones n = 0 <-> forall k, h <= k < h + n -> Z.testbit vaddr k = false) /\
  ((vaddr .>> h) .& Z.ones n = Z.ones n <-> forall k, h <= k < h + n -> Z.testbit vaddr k = true).
Proof.
  intros Hh Hn.
  assert (Hbit : forall k, 0 <= k ->
    Z.testbit ((vaddr .>> h) .& Z.ones n) k = Z.testbit vaddr (k + h) && (k <? n)).
  { intros k Hk. rewrite Z.land_spec, Z.shiftr_spec by lia.
    by rewrite Z.testbit_ones_nonneg by lia. }
  split; split.
  - intros E k Hk. specialize (Hbit (k - h) ltac:(lia)). rewrite E, Z.bits_0 in Hbit.
    destruct (Z.ltb_spec (k - h) n); [| lia]. rewrite andb_true_r in Hbit.
    by rewrite Z.sub_add in Hbit.
  - intros Hz. apply Z.bits_inj'. intros k Hk. rewrite Hbit, Z.bits_0 by lia.
    destruct (Z.ltb_spec k n); [| apply andb_false_r]. by rewrite Hz by lia.
  - intros E k Hk. specialize (Hbit (k - h) ltac:(lia)).
    rewrite E, Z.testbit_ones_nonneg in Hbit by lia.
    destruct (Z.ltb_spec (k - h) n); [| lia]. rewrite andb_true_r in Hbit.
    by rewrite Z.sub_add in Hbit.
  - intros Hz. apply Z.bits_inj'. intros k Hk. rewrite Hbit, Z.testbit_ones_nonneg by lia.
    destruct (Z.ltb_spec k n); [| apply andb_false_r]. by rewrite Hz by lia.
Qed.

Lemma canonical_check xlen vm vaddr :
  vm_info_ok xlen vm ->
  let n := xlen - top_bit vm in
  let bits := (vaddr .>> top_bit vm) .& Z.ones n in
  (bits =? 0) || (bits =? Z.ones n) = true <-> canonical xlen vm vaddr.
Proof.
  intros [] n bits. assert (0 <= top_bit vm) by (unfold top_bit; nia).
  destruct (extension_bits vaddr (top_bit vm) n ltac:(lia) ltac:(unfold n; lia)) as [H0 H1].
  rewrite orb_true_iff, !Z.eqb_eq. unfold bits. rewrite H0, H1.
  replace (top_bit vm + n) with xlen by (unfold n; lia). unfold canonical. split.
  - intros [Hz|Hz] k Hk; rewrite !Hz by lia; done.
  - intros Hc. destruct (Z.testbit vaddr (top_bit vm)) eqn:E; [right | left]; intros k Hk;
      by apply Hc.
Qed.

(** ** The memory of the page tables *)

(** The memory holds an entry of [ptesize vm] bytes at each accessible address. *)
Definition replace_low (v old : Z) : Z := old / 2 ^ 32 * 2 ^ 32 + v.

Class pte_memory (S : Type) `{mmu_interface S} (size : Z) : Type := {
  mem_inv : S -> Prop;
  pte_at : S -> Z -> Z;
  accessible : Z -> Prop;
  unchanged s s' :=
    mem_inv s' /\ vm_regs_of s' = vm_regs_of s /\ get_mmu s' = get_mmu s /\
    forall a, pte_at s' a = pte_at s a;
  pte_at_range s a : mem_inv s -> is_uint (8 * size) (pte_at s a);
  pte_load_ok s a : mem_inv s -> accessible a -> a mod size = 0 -> exists s',
    (if size =? 4 then mmu_load_pte32 a else mmu_load_pte64 a) s = (Ret (pte_at s a), s') /\
    unchanged s s';
  pte_store_ok s a v : mem_inv s -> accessible a -> a mod size = 0 -> is_uint 32 v -> exists s',
    mmu_store_pte32 a v s = (Ret tt, s') /\
    mem_inv s' /\ vm_regs_of s' = vm_regs_of s /\ get_mmu s' = get_mmu s /\
    forall b, b mod size = 0 ->
      pte_at s' b = if b =? a then replace_low v (pte_at s a) else pte_at s b;
  mmu_quantum_inc_ok s t : mem_inv s -> exists s',
    mmu_quantum_inc t s = (Ret tt, s') /\ unchanged s s';
  set_mmu_ok s m : mem_inv s ->
    mem_inv (set_mmu m s) /\ get_mmu (set_mmu m s) = m /\
    vm_regs_of (set_mmu m s) = vm_regs_of s /\ forall a, pte_at (set_mmu m s) a = pte_at s a
}.

Lemma unchanged_refl {S w} `{!mmu_interface S, !pte_memory S w} s : mem_inv s -> unchanged s s.
Proof. by repeat split. Qed.

(** The entries the walk reads are in the memory. *)
Fixpoint tables_accessible {S w} `{!mmu_interface S, !pte_memory S w} (mem : Z -> Z) (vm : vm_info) (vaddr : Z)
    (n : nat) (table : Z) : Prop :=
  match n with
  | O => True
  | S i =>
      let a := entry_address vm table vaddr i in
      accessible a /\
      (pte_valid (mem a) -> ~ pte_leaf (mem a) ->
       tables_accessible mem vm vaddr i (next_table (mem a)))
  end.

Lemma tables_accessible_ext {S w} `{!mmu_interface S, !pte_memory S w} (mem mem' : Z -> Z) vm vaddr n t :
  (forall a, mem' a = mem a) ->
  tables_accessible mem vm vaddr n t -> tables_accessible mem' vm vaddr n t.
Proof.
  intros E. revert t. induction n as [|n IH]; intros t; cbn [tables_accessible]; [done |].
  intros [Ha Hn]. split; [done |]. rewrite E. intros Hv Hl. apply IH. by apply Hn.
Qed.

Definition fault_code (type : MemoryAccessType) : Z :=
  match type with
  | FETCH => EXC_INSTR_PAGE_FAULT | LOAD => EXC_LOAD_PAGE_FAULT | STORE => EXC_STORE_AMO_PAGE_FAULT
  end.

Lemma page_fault_eq {S A} type vaddr (s : S) :
  page_fault (A := A) type vaddr s = (Throw (mkTrap (fault_code type) vaddr), s).
Proof. by destruct type. Qed.

Lemma replace_low_ad pte type :
  0 <= pte -> replace_low (uint32 (pte .| ad_bits type)) pte = pte .| ad_bits type.
Proof.
  intros Hp. unfold replace_low, uint32, uint.
  assert (ad_bits type / 2 ^ 32 = 0) as Had by (by destruct type).
  rewrite (Z.div_mod (pte .| ad_bits type) (2 ^ 32)) at 2 by lia.
  rewrite <- (Z.shiftr_div_pow2 (_ .| _)) by lia.
  rewrite Z.shiftr_lor, !Z.shiftr_div_pow2, Had, Z.lor_0_r by lia. lia.
Qed.

Lemma recorded_lor pte type : recorded pte type -> pte .| ad_bits type = pte.
Proof.
  intros Hr. apply ad_bits_recorded, Z.eqb_eq in Hr. rewrite <- Hr.
  apply Z.bits_inj'. intros k _. rewrite Z.lor_spec, Z.land_spec.
  by destruct (Z.testbit pte k), (Z.testbit (ad_bits type) k).
Qed.

Lemma entry_aligned vm table vaddr i :
  ptesize vm = 4 \/ ptesize vm = 8 -> table mod 4096 = 0 ->
  entry_address vm table vaddr i mod ptesize vm = 0.
Proof.
  intros Hs Ht. unfold entry_address, uint64, uint.
  set (k := vaddr / _ mod _). clearbody k. apply Z.mod_divide in Ht as [t ->]; [| lia].
  destruct Hs as [-> | ->].
  - replace (t * 4096 + 4 * k) with ((t * 1024 + k) * 4) by lia.
    rewrite (Z.mod_mod_divide _ (2 ^ 64) 4) by (by exists (2 ^ 62)). apply Z_mod_mult.
  - replace (t * 4096 + 8 * k) with ((t * 512 + k) * 8) by lia.
    rewrite (Z.mod_mod_divide _ (2 ^ 64) 8) by (by exists (2 ^ 61)). apply Z_mod_mult.
Qed.

Lemma next_table_aligned pte : next_table pte mod 4096 = 0.
Proof.
  unfold next_table, uint64, uint.
  rewrite (Z.mod_mod_divide _ (2 ^ 64) 4096) by (by exists (2 ^ 52)). apply Z_mod_mult.
Qed.

Lemma next_table_shift pte : uint64 ((pte .>> PTE_PPN_SHIFT) .<< PGSHIFT) = next_table pte.
Proof. unfold next_table. rewrite pte_shift. unfold PGSHIFT. by rewrite Z.shiftl_mul_pow2 by lia. Qed.

Section walk.
Context {S : Type} {w : Z} `{!mmu_interface S, !pte_memory S w}.
Context (vm : vm_info) (vaddr : Z) (type : MemoryAccessType) (s_mode sum mxr : bool).
Hypothesis vm_ok : vm_info_ok xlen vm.
Hypothesis w_size : ptesize vm = w.

(** A leaf below a table that grants the access. *)
Definition grants (s : S) (n : nat) (table : Z) (i : nat) (a pte : Z) : Prop :=
  leaf_at (pte_at s) vm vaddr n table i a pte /\ permits pte type s_mode sum mxr /\
  aligned_page vm pte i /\ (page_fault_on_AD (get_mmu s) = true -> recorded pte type).

(** The state after the entry at [a] has been recorded as accessed. *)
Definition records (s s' : S) (a pte : Z) : Prop :=
  mem_inv s' /\ vm_regs_of s' = vm_regs_of s /\ get_mmu s' = get_mmu s /\
  forall b, b mod w = 0 ->
    pte_at s' b = if b =? a then pte .| ad_bits type else pte_at s b.

Definition walk_post (s : S) (n : nat) (table : Z) (r : outcome SimulationTrap Z * S) : Prop :=
  match r with
  | (Ret paddr, s') => exists i a pte, grants s n table i a pte /\
      paddr = physical_address vm pte vaddr i /\ records s s' a pte
  | (Throw e, s') => e = mkTrap (fault_code type) vaddr /\
      (forall i a pte, ~ grants s n table i a pte) /\ unchanged s s'
  | (Fatal _, _) => False
  end.

Lemma leaf_at_inv mem n table i a pte :
  leaf_at mem vm vaddr n table i a pte ->
  exists m, n = Datatypes.S m /\
    let b := entry_address vm table vaddr m in
    pte_valid (mem b) /\
    (pte_leaf (mem b) /\ i = m /\ a = b /\ pte = mem b \/
     ~ pte_leaf (mem b) /\ leaf_at mem vm vaddr m (next_table (mem b)) i a pte).
Proof. destruct 1 as [j t e -> |j t e k b e' -> ???]; eexists; (split; [done |]); auto 10. Qed.

Lemma grants_ext s s' n table i a pte :
  unchanged s s' -> grants s' n table i a pte -> grants s n table i a pte.
Proof.
  intros (_ & _ & Hm & Hp) (Hl & ? & ? & Hr). unfold grants. rewrite Hm in Hr.
  split; [| done]. clear Hr. induction Hl as [j t e -> |j t e k a e' -> ? ? ? IH].
  - rewrite Hp in *. by apply leaf_here.
  - rewrite Hp in *. eapply leaf_below; [done | done | done | by apply IH].
Qed.

Lemma unchanged_trans s1 s2 s3 : unchanged s1 s2 -> unchanged s2 s3 -> unchanged s1 s3.
Proof.
  intros (? & E1 & E2 & Hp) (? & E3 & E4 & Hp'). split; [done |].
  rewrite E3, E4. split; [done |]. split; [done |]. intros a. by rewrite Hp'.
Qed.

Lemma unchanged_records s1 s2 s3 a pte : unchanged s1 s2 -> records s2 s3 a pte -> records s1 s3 a pte.
Proof.
  intros (? & E1 & E2 & Hp) (? & E3 & E4 & Hp'). split; [done |].
  rewrite E3, E4. split; [done |]. split; [done |]. intros b ?. rewrite Hp' by done.
  by rewrite Hp.
Qed.

(** The last step of a walk: the access is granted by a leaf. *)
Lemma walk_leaf s i table :
  let a := entry_address vm table vaddr i in
  let pte := pte_at s a in
  mem_inv s -> accessible a -> a mod w = 0 -> 0 <= Z.of_nat i * idxbits vm < 64 ->
  pte_valid pte -> pte_leaf pte ->
  walk_post s (Datatypes.S i) table
    ((if leaf_denied pte type s_mode sum mxr (Z.of_nat i * idxbits vm) then page_fault type vaddr
      else
        let ad := ad_bits type in
        pf ← gets (fun s => page_fault_on_AD (get_mmu s));
        if negb (pte .& ad =? ad) && pf then page_fault type vaddr
        else
          when (negb (pte .& ad =? ad)) (mmu_store_pte32 a (uint32 (pte .| ad))) ;;
          mret (leaf_address pte (Z.of_nat i * idxbits vm) vaddr)) s).
Proof using Type vm_ok w_size.
  intros a pte Hs Ha Haw Hi Hv Hl.
  assert (Hr : is_uint 64 pte).
  { eapply is_uint_weaken; [| by apply pte_at_range]. destruct (vm_ptesize _ _ vm_ok); lia. }
  assert (Hinv : forall j b e, grants s (Datatypes.S i) table j b e -> j = i /\ b = a /\ e = pte).
  { intros j b e [Hg _]. apply leaf_at_inv in Hg as (m & [= <-] & _ & [(_ & -> & -> & ->)|[Hnl _]]);
      [done | by destruct Hnl]. }
  assert (Hnot : ~ (permits pte type s_mode sum mxr /\ aligned_page vm pte i /\
                    (page_fault_on_AD (get_mmu s) = true -> recorded pte type)) ->
                 walk_post s (Datatypes.S i) table (page_fault type vaddr s)).
  { intros Hn. rewrite page_fault_eq. split; [done |]. split; [| by apply unchanged_refl].
    intros j b e Hg. pose proof (Hinv _ _ _ Hg) as (-> & -> & ->). by destruct Hg as (_ & Hg). }
  destruct (leaf_denied pte type s_mode sum mxr (Z.of_nat i * idxbits vm)) eqn:Hd.
  { apply Hnot. intros (Hp & Hal & _).
    by rewrite (proj2 (leaf_denied_spec vm pte type s_mode sum mxr i Hv Hi)) in Hd. }
  apply leaf_denied_spec in Hd as [Hp Hal]; [| done | done].
  cbn zeta. unfold mbind, M_bind, gets.
  destruct (pte .& ad_bits type =? ad_bits type) eqn:Had; cbn [negb andb when].
  - apply ad_bits_recorded in Had. exists i, a, pte. split; [by split; [apply leaf_here |] |].
    split; [by apply leaf_address_spec |]. split; [done |]. split; [done |]. split; [done |].
    intros b _. rewrite recorded_lor by done. by destruct (Z.eqb_spec b a) as [->|].
  - assert (~ recorded pte type) as Hnr by (intros Hc; apply ad_bits_recorded in Hc; congruence).
    destruct (page_fault_on_AD (get_mmu s)) eqn:Hpf; [by apply Hnot; tauto |].
    destruct (pte_store_ok s a (uint32 (pte .| ad_bits type)) Hs Ha Haw) as (s' & -> & Hs' & E1 & E2 & Hst).
    { by apply uint_range. }
    exists i, a, pte. split; [by split; [apply leaf_here | repeat (split; [done |]); congruence] |].
    split; [by apply leaf_address_spec |]. split; [done |]. split; [done |]. split; [done |].
    intros b Hbw. rewrite (Hst b Hbw). rewrite replace_low_ad; [done |].
    destruct Hr. fold a pte. lia.
Qed.

Lemma walk_levels_spec n s table :
  mem_inv s -> table mod 4096 = 0 -> Z.of_nat n <= levels vm ->
  tables_accessible (pte_at s) vm vaddr n table ->
  walk_post s n table (walk_levels vm vaddr type s_mode sum mxr n table s).
Proof using Type vm_ok w_size.
  revert s table. induction n as [|i IH]; intros s table Hs Ht Hn Hacc.
  - cbn [walk_levels]. rewrite page_fault_eq. split; [done |]. split; [| by apply unchanged_refl].
    intros j a e [Hg _]. by apply leaf_at_inv in Hg as (m & ? & _).
  - cbn [walk_levels]. destruct vm_ok as [Hlev Hidx Hsize _ _ _ _ Hbelow].
    rewrite pte_address_spec by done. set (a := entry_address vm table vaddr i) in *.
    assert (assert ((ptesize vm =? 4) || (ptesize vm =? 8)) = (skip : M S SimulationTrap unit)) as ->.
    { by destruct Hsize as [-> | ->]. }
    destruct Hacc as [Ha Hnext].
    assert (Haw : a mod w = 0) by (rewrite <- w_size; by apply entry_aligned).
    destruct (pte_load_ok s a Hs Ha Haw) as (s1 & Hload & Hs1). pose proof Hs1 as (Hinv1 & _ & _ & Hp1).
    unfold mbind at 1 2, M_bind at 1 2. cbn [skip mret M_ret]. rewrite w_size, Hload.
    cbn zeta. set (pte := pte_at s a) in *.
    destruct (pte_flags pte) as (-> & -> & -> & -> & _).
    assert (Hpte : pte_at s1 a = pte) by apply Hp1.
    assert (Hbad : ~ pte_valid pte -> walk_post s (Datatypes.S i) table (page_fault type vaddr s1)).
    { intros Hv. rewrite page_fault_eq. split; [done |]. split; [| done].
      intros j b e [Hg _]. by apply leaf_at_inv in Hg as (m & [= <-] & ? & _). }
    destruct (negb (flag_V pte) || negb (flag_R pte) && flag_W pte) eqn:Hv.
    { apply Hbad. intros [HV HW]. rewrite HV in Hv. simpl in Hv.
      apply andb_true_iff in Hv as [HR HW']. by rewrite (HW HW') in HR. }
    assert (Hvalid : pte_valid pte).
    { unfold pte_valid. destruct (flag_V pte), (flag_R pte), (flag_W pte); simpl in Hv; by try tauto. }
    destruct (negb (flag_R pte) && negb (flag_X pte)) eqn:Hl.
    + assert (Hnl : ~ pte_leaf pte).
      { unfold pte_leaf. destruct (flag_R pte), (flag_X pte); simpl in Hl; intuition congruence. }
      rewrite next_table_shift.
      specialize (IH s1 (next_table pte) Hinv1 (next_table_aligned pte) ltac:(lia)).
      assert (Hacc1 : tables_accessible (pte_at s1) vm vaddr i (next_table pte)).
      { by apply (tables_accessible_ext (pte_at s)), Hnext. }
      specialize (IH Hacc1). unfold walk_post in *.
      destruct (walk_levels vm vaddr type s_mode sum mxr i (next_table pte) s1) as [[pa|e|f] s2].
      * destruct IH as (j & b & e & Hg & Hpa & Hrec). exists j, b, e.
        split; [| split; [done | by eapply unchanged_records]].
        destruct (grants_ext _ _ _ _ _ _ _ Hs1 Hg) as [Hleaf Hrest]. split; [| exact Hrest].
        by apply (leaf_below _ _ _ i table pte).
      * destruct IH as (-> & Hno & Hun). split; [done |]. split; [| by eapply unchanged_trans].
        intros j b e [Hg Hrest]. apply leaf_at_inv in Hg as (m & [= <-] & _ & [[? _]|[_ Hg]]); [done |].
        apply (Hno j b e). apply (grants_ext s1 s); [| by split].
        destruct Hs1 as (? & E1 & E2 & E3). split; [done |]. split; [done |]. split; [done |]. done.
      * done.
    + assert (Hleaf : pte_leaf pte).
      { unfold pte_leaf. destruct (flag_R pte), (flag_X pte); simpl in Hl; intuition congruence. }
      pose proof (walk_leaf s1 i table Hinv1) as Hw. cbn zeta in Hw. fold a in Hw. rewrite Hpte in Hw.
      specialize (Hw Ha Haw ltac:(nia) Hvalid Hleaf). revert Hw. cbn zeta.
      match goal with |- walk_post _ _ _ ?r -> walk_post _ _ _ ?r' => change r' with r; destruct r as [[pa|e|f] s2] end.
      * intros (j & b & e & Hg & Hpa & Hrec). exists j, b, e.
        split; [by eapply grants_ext | split; [done | by eapply unchanged_records]].
      * intros (-> & Hno & Hun). split; [done |]. split; [| by eapply unchanged_trans].
        intros j b e Hg. apply (Hno j b e). apply (grants_ext s1 s); [| done].
        destruct Hs1 as (? & E1 & E2 & E3). by repeat split.
      * done.
Qed.

End walk.

(** ** The walk *)

Lemma check_extension_eq {S} `{!mmu_interface S} vm vaddr (s : S) :
  vm_info_ok xlen vm ->
  exists ok, check_vaddr_extension vaddr vm s = (Ret ok, s) /\
    (ok = true <-> canonical xlen vm vaddr).
Proof.
  intros Hvm. pose proof (canonical_check xlen vm vaddr Hvm) as Hc. destruct Hvm. cbn zeta in Hc.
  assert (0 < top_bit vm) by (unfold top_bit; nia).
  eexists. split; [| exact Hc]. unfold check_vaddr_extension, mbind, M_bind.
  replace (idxbits vm * levels vm + PGSHIFT - 1) with (top_bit vm) by (unfold top_bit, PGSHIFT; lia).
  destruct (Z.ltb_spec 0 (top_bit vm)); [| lia]. cbn [assert skip mret M_ret].
  unfold uint32. rewrite uint_id by (unfold is_uint; lia).
  destruct (Z.leb_spec 64 (xlen - top_bit vm)); [lia |].
  destruct (Z.leb_spec 64 (top_bit vm)); [lia |]. cbn [orb].
  rewrite ones_mask by lia. unfold uint64. rewrite uint_id; [done |].
  unfold is_uint. rewrite Z.ones_equiv.
  set (n := xlen - top_bit vm) in *.
  pose proof (Z.pow_pos_nonneg 2 n ltac:(lia) ltac:(lia)).
  pose proof (Z.pow_lt_mono_r 2 n 64 ltac:(lia) ltac:(lia) ltac:(lia)). lia.
Qed.

Section translation.
Context {S : Type} {w : Z} `{!mmu_interface S, !pte_memory S w}.

(** The translation a state prescribes: its page tables and registers. *)
Definition current_vm (s : S) : option vm_info :=
  vm_info_of_mode (satp_mode (vm_regs_of s)) (uint64 (satp_ppn (vm_regs_of s) .<< PGSHIFT)).

Definition accesses (s : S) (vm : vm_info) (mode : PrivilegeLevel) (type : MemoryAccessType) :=
  access xlen (pte_at s) vm type (mode =? SupervisorMode) (vm_sum (vm_regs_of s))
    (vm_mxr (vm_regs_of s)) (page_fault_on_AD (get_mmu s)).

Definition translates (s : S) vm mode type (vaddr paddr : Z) : Prop :=
  exists i a pte, accesses s vm mode type vaddr i a pte /\
    paddr = physical_address vm pte vaddr i.

Definition recorded_at (s s' : S) (type : MemoryAccessType) (a pte : Z) : Prop :=
  records type s s' a pte.

Lemma walk_eq vm vaddr type mode s :
  current_vm s = Some vm -> vm_info_ok xlen vm -> mode <= SupervisorMode ->
  exists ok, (ok = true <-> canonical xlen vm vaddr) /\
    walk vaddr type mode s
    = walk_levels vm vaddr type (mode =? SupervisorMode) (vm_sum (vm_regs_of s))
        (vm_mxr (vm_regs_of s)) (if ok then Z.to_nat (levels vm) else 0) (ptbase vm) s.
Proof.
  intros Hvm Hok Hm. destruct (check_extension_eq vm vaddr s Hok) as (ok & Hc & Hcan).
  exists ok. split; [done |]. unfold walk, decode_vm_info, core_reg, gets.
  unfold mbind, M_bind. destruct (Z.leb_spec mode SupervisorMode); [| lia].
  cbn [assert skip mret M_ret]. unfold current_vm in Hvm. rewrite Hvm. cbn [mret M_ret].
  by rewrite Hc.
Qed.

Lemma walk_post_translation vm vaddr type mode s :
  mem_inv s -> current_vm s = Some vm -> vm_info_ok xlen vm -> ptesize vm = w ->
  mode <= SupervisorMode ->
  tables_accessible (pte_at s) vm vaddr (Z.to_nat (levels vm)) (ptbase vm) ->
  match walk vaddr type mode s with
  | (Ret paddr, s') => exists i a pte, accesses s vm mode type vaddr i a pte /\
      paddr = physical_address vm pte vaddr i /\ recorded_at s s' type a pte
  | (Throw e, s') => e = mkTrap (fault_code type) vaddr /\
      (forall i a pte, ~ accesses s vm mode type vaddr i a pte) /\ unchanged s s'
  | (Fatal _, _) => False
  end.
Proof.
  intros Hs Hvm Hok Hw Hm Hacc. destruct (walk_eq vm vaddr type mode s Hvm Hok Hm) as (ok & Hcan & ->).
  destruct ok.
  - pose proof (walk_levels_spec vm vaddr type (mode =? SupervisorMode) (vm_sum (vm_regs_of s))
      (vm_mxr (vm_regs_of s)) Hok Hw (Z.to_nat (levels vm)) s (ptbase vm) Hs
      (proj2 (vm_ptbase _ _ Hok)) ltac:(pose proof (vm_levels _ _ Hok); lia) Hacc) as Hp.
    unfold walk_post in Hp. destruct (walk_levels _ _ _ _ _ _ _ _ s) as [[paddr|e|f] s'].
    + destruct Hp as (i & a & pte & (Hl & Hp & Ha & Hr) & Hpa & Hrec). exists i, a, pte.
      split; [| done]. constructor; (done || by apply Hcan).
    + destruct Hp as (-> & Hno & Hun). split; [done |]. split; [| done].
      intros i a pte [? ? ? ? ?]. by apply (Hno i a pte).
    + done.
  - cbn [walk_levels]. rewrite page_fault_eq. split; [done |]. split; [| by apply unchanged_refl].
    intros i a pte [Hc _ _ _ _]. apply Hcan in Hc. done.
Qed.

End translation.

(** C10: the page table walk implements the translation of the privileged
    architecture.  For a canonical virtual address whose page tables are in
    memory, the walk returns a physical address exactly if the tables lead to a
    leaf entry that is aligned and permits the access (and, if the unit is set
    up to leave this to software, is marked accessed and dirty); the address is
    the one the leaf maps to, and the only change is that the leaf is marked
    accessed, and dirty for a store.  In every other case the walk raises the
    page fault of the access type with the virtual address, and changes
    nothing.  It never fails. *)
Theorem walk_refines_tables {S w} `{!mmu_interface S, !pte_memory S w} vm vaddr type mode (s : S) :
  mem_inv s -> current_vm s = Some vm -> vm_info_ok xlen vm -> ptesize vm = w ->
  mode <= SupervisorMode ->
  tables_accessible (pte_at s) vm vaddr (Z.to_nat (levels vm)) (ptbase vm) ->
  match walk vaddr type mode s with
  | (Ret paddr, s') => exists i a pte, accesses s vm mode type vaddr i a pte /\
      paddr = physical_address vm pte vaddr i /\ recorded_at s s' type a pte
  | (Throw e, s') => e = mkTrap (fault_code type) vaddr /\
      (forall i a pte, ~ accesses s vm mode type vaddr i a pte) /\ unchanged s s'
  | (Fatal _, _) => False
  end.
Proof. apply walk_post_translation. Qed.
