(* ===== verification/MmuTlb.v ===== *)
(** * The TLB

    The TLB caches translations and must not be seen: as long as its entries
    agree with the page tables, a translation through it is the translation of
    the tables.  That holds for physical addresses below 4 GB only: the entry
    keeps the physical page number with a 32-bit mask. *)

From S2P Require Import Prelude Instr Trap Mmu MmuSpec.

Lemma leaf_at_ext (mem mem' : Z -> Z) vm v n t i a pte :
  (forall b, mem' b = mem b) -> leaf_at mem vm v n t i a pte -> leaf_at mem' vm v n t i a pte.
Proof.
  intros E. induction 1 as [j t e -> |j t e k a e' -> ? ? ? IH]; rewrite <- E in *.
  - by apply leaf_here.
  - by eapply leaf_below.
Qed.

(** ** Pages: what depends on the page number only *)

Definition same_page (v v' : Z) : Prop := v / 4096 = v' / 4096.

Lemma same_page_div v v' k : same_page v v' -> 0 <= k -> v / 2 ^ (12 + k) = v' / 2 ^ (12 + k).
Proof.
  intros Hv Hk. rewrite Z.pow_add_r by lia. change (2 ^ 12) with 4096.
  rewrite <- !Z.div_div by (try apply Z.pow_nonzero; lia). by rewrite Hv.
Qed.

Lemma same_page_bits v v' k : same_page v v' -> 12 <= k -> Z.testbit v k = Z.testbit v' k.
Proof.
  intros Hv Hk. replace k with (k - 12 + 12) by lia.
  rewrite <- !Z.shiftr_spec, !Z.shiftr_div_pow2 by lia. change (2 ^ 12) with 4096. by rewrite Hv.
Qed.

Lemma entry_address_page vm t v v' i :
  same_page v v' -> 0 < idxbits vm -> entry_address vm t v i = entry_address vm t v' i.
Proof. intros Hv Hi. unfold entry_address. by rewrite (same_page_div v v') by (done || lia). Qed.

Lemma leaf_at_page mem vm v v' n t i a pte :
  same_page v v' -> 0 < idxbits vm ->
  leaf_at mem vm v n t i a pte -> leaf_at mem vm v' n t i a pte.
Proof.
  intros Hv Hi. induction 1 as [j t e -> ? ?|j t e k a e' -> ? ? ? IH];
    rewrite (entry_address_page vm t v v') in * by done.
  - by apply leaf_here.
  - by eapply leaf_below.
Qed.

Lemma access_page xlen mem vm type sm sum mxr soft v v' i a pte :
  same_page v v' -> 0 < idxbits vm -> 12 <= top_bit vm ->
  access xlen mem vm type sm sum mxr soft v i a pte ->
  access xlen mem vm type sm sum mxr soft v' i a pte.
Proof.
  intros Hv Hi Ht [Hc Hl ? ? ?]. constructor; try done.
  - intros k Hk. rewrite <- !(same_page_bits v v') by (done || lia). by apply Hc.
  - by eapply leaf_at_page.
Qed.

Lemma physical_address_page vm pte v v' i :
  same_page v v' -> physical_address vm pte v i - v mod 4096 = physical_address vm pte v' i - v' mod 4096.
Proof. unfold physical_address. intros ->. lia. Qed.

Lemma physical_address_offset vm pte v i :
  physical_address vm pte v i mod 4096 = v mod 4096 /\ 0 <= physical_address vm pte v i.
Proof.
  unfold physical_address. set (x := uint64 _).
  assert (0 <= x /\ x mod 4096 = 0) as [? Hx].
  { split; [by apply uint_range |]. unfold x, uint64, uint.
    rewrite (Z.mod_mod_divide _ (2 ^ 64) 4096) by (by exists (2 ^ 52)). apply Z_mod_mult. }
  pose proof (Z.mod_pos_bound v 4096 ltac:(lia)). split; [| lia].
  rewrite Z.add_mod, Hx, Z.add_0_l, !Z.mod_mod by lia. done.
Qed.

(** ** Marking an entry as accessed keeps the translations *)

Lemma ad_flags pte type k : 0 <= k < 6 -> Z.testbit (pte .| ad_bits type) k = Z.testbit pte k.
Proof.
  intros Hk. rewrite Z.lor_spec.
  assert (Z.testbit (ad_bits type) k = false) as ->; [| apply orb_false_r].
  assert (k = 0 \/ k = 1 \/ k = 2 \/ k = 3 \/ k = 4 \/ k = 5) as E by lia.
  repeat (destruct E as [->|E]; [by destruct type |]). by subst; destruct type.
Qed.

Lemma ad_ppn pte type : pte_ppn (pte .| ad_bits type) = pte_ppn pte.
Proof.
  unfold pte_ppn. rewrite <- !Z.shiftr_div_pow2, Z.shiftr_lor by lia.
  assert (ad_bits type .>> 10 = 0) as -> by (by destruct type). apply Z.lor_0_r.
Qed.

Lemma ad_valid pte type : pte_valid (pte .| ad_bits type) <-> pte_valid pte.
Proof. unfold pte_valid, flag_V, flag_W, flag_R. by rewrite !ad_flags by lia. Qed.

Lemma ad_leaf pte type : pte_leaf (pte .| ad_bits type) <-> pte_leaf pte.
Proof. unfold pte_leaf, flag_X, flag_R. by rewrite !ad_flags by lia. Qed.

Lemma ad_permits pte type t sm sum mxr :
  permits (pte .| ad_bits type) t sm sum mxr <-> permits pte t sm sum mxr.
Proof. unfold permits, flag_X, flag_R, flag_W, flag_U. by rewrite !ad_flags by lia. Qed.

Lemma ad_recorded pte type t : recorded pte t -> recorded (pte .| ad_bits type) t.
Proof.
  unfold recorded, flag_A, flag_D. rewrite !Z.lor_spec. intros [-> Hd]. split; [done |].
  intros Ht. by rewrite (Hd Ht).
Qed.

Section tlb.
Context {S : Type} {w : Z} `{!mmu_interface S, !pte_memory S w}.

Lemma leaf_at_recorded s s' type a pte vm v n t i b e :
  recorded_at s s' type a pte -> pte = pte_at s a -> pte_leaf pte ->
  ptesize vm = w -> ptesize vm = 4 \/ ptesize vm = 8 -> t mod 4096 = 0 ->
  leaf_at (pte_at s) vm v n t i b e ->
  leaf_at (pte_at s') vm v n t i b (if b =? a then e .| ad_bits type else e).
Proof.
  intros (_ & _ & _ & Hp) Hpte Hleaf Hw Hsize Ht Hl.
  assert (Hal : forall table j, table mod 4096 = 0 -> entry_address vm table v j mod w = 0).
  { intros table j Htab. rewrite <- Hw. by apply entry_aligned. }
  induction Hl as [j t e He Hv Hlf|j t e k b e' He Hv Hlf Hl IH].
  - pose proof (Hp (entry_address vm t v j) (Hal t j Ht)) as Hat. apply leaf_here.
    + rewrite Hat. destruct (Z.eqb_spec (entry_address vm t v j) a) as [<-|]; [| done].
      by rewrite He, Hpte.
    + destruct (_ =? a); [by apply ad_valid | done].
    + destruct (_ =? a); [by apply ad_leaf | done].
  - pose proof (Hp (entry_address vm t v j) (Hal t j Ht)) as Hat.
    destruct (Z.eqb_spec (entry_address vm t v j) a) as [<-|]; [by rewrite He, <- Hpte in Hlf |].
    apply (leaf_below _ _ _ j t e); [by rewrite Hat | done | done |].
    apply IH. apply next_table_aligned.
Qed.

Lemma accesses_recorded s s' type a pte vm mode t v i b e :
  recorded_at s s' type a pte -> pte = pte_at s a -> pte_leaf pte ->
  vm_info_ok xlen vm -> ptesize vm = w ->
  accesses s vm mode t v i b e ->
  accesses s' vm mode t v i b (if b =? a then e .| ad_bits type else e).
Proof.
  intros Hrec Hpte Hleaf Hok Hw [Hc Hl Hper Hal Hr]. pose proof Hrec as (_ & Er & Em & _).
  unfold accesses. rewrite Er, Em. constructor; try done.
  - eapply leaf_at_recorded; try done; [apply (vm_ptesize _ _ Hok) | apply (vm_ptbase _ _ Hok)].
  - destruct (b =? a); [by apply ad_permits | done].
  - unfold aligned_page in *. destruct (b =? a); [by rewrite ad_ppn | done].
  - intros Hs. destruct (b =? a); [by apply ad_recorded, Hr | by apply Hr].
Qed.

Lemma translates_recorded s s' type a pte vm mode t v p :
  recorded_at s s' type a pte -> pte = pte_at s a -> pte_leaf pte ->
  vm_info_ok xlen vm -> ptesize vm = w ->
  translates s vm mode t v p -> translates s' vm mode t v p.
Proof.
  intros Hrec Hpte Hleaf Hok Hw (i & b & e & Ha & ->).
  exists i, b, (if b =? a then e .| ad_bits type else e).
  split; [by eapply accesses_recorded |].
  unfold physical_address. destruct (b =? a); [by rewrite ad_ppn | done].
Qed.

Lemma translates_unchanged s s' vm mode t v p :
  unchanged s s' -> translates s vm mode t v p -> translates s' vm mode t v p.
Proof.
  intros (_ & Er & Em & Hp) (i & a & e & [Hc Hl ? ? ?] & ->).
  exists i, a, e. split; [| done]. unfold accesses. rewrite Er, Em. constructor; try done.
  by apply (leaf_at_ext (pte_at s)).
Qed.

Lemma leaf_at_entry mem vm v n t i a pte :
  leaf_at mem vm v n t i a pte -> pte = mem a /\ pte_leaf pte.
Proof. induction 1; by subst. Qed.

(** ** Consistency *)

(** Every entry maps its page as the page tables do. *)
Definition entry_ok (s : S) (vm : vm_info) mode type (x : tlb_entry_t) : Prop :=
  entry_vpn x = uint64 (-1) \/
  entry_ppn x mod 4096 = 0 /\
  forall v, v / 4096 = entry_vpn x -> translates s vm mode type v (entry_ppn x + v mod 4096).

Definition tlb_ok (s : S) (vm : vm_info) : Prop :=
  forall mode type idx, entry_ok s vm mode type (tlb_get (tlb (get_mmu s)) mode type idx).

(** Every address the tables map is below 4 GB. *)
Definition below_4GB (s : S) (vm : vm_info) : Prop :=
  forall v i a pte, leaf_at (pte_at s) vm v (Z.to_nat (levels vm)) (ptbase vm) i a pte ->
    physical_address vm pte v i < 2 ^ 32.

Lemma leaf_at_recorded_inv s s' type a pte vm v n t i b e :
  recorded_at s s' type a pte -> pte = pte_at s a -> pte_leaf pte ->
  ptesize vm = w -> ptesize vm = 4 \/ ptesize vm = 8 -> t mod 4096 = 0 ->
  leaf_at (pte_at s') vm v n t i b e ->
  exists e0, leaf_at (pte_at s) vm v n t i b e0 /\ pte_ppn e = pte_ppn e0.
Proof.
  intros (_ & _ & _ & Hp) Hpte Hleaf Hw Hsize Ht Hl.
  assert (Hal : forall table j, table mod 4096 = 0 -> entry_address vm table v j mod w = 0).
  { intros table j Htab. rewrite <- Hw. by apply entry_aligned. }
  induction Hl as [j t e He Hv Hlf|j t e k b e' He Hv Hlf Hl IH].
  - rewrite (Hp _ (Hal t j Ht)) in He.
    destruct (Z.eqb_spec (entry_address vm t v j) a) as [Ha|].
    + exists pte. rewrite He in Hv |- *. rewrite ad_valid in Hv. split; [| apply ad_ppn].
      apply leaf_here; [by rewrite Ha | done | done].
    + exists e. split; [by apply leaf_here | done].
  - rewrite (Hp _ (Hal t j Ht)) in He.
    destruct (Z.eqb_spec (entry_address vm t v j) a) as [Ha|].
    + rewrite He, ad_leaf in Hlf. done.
    + destruct (IH (next_table_aligned e)) as (e0 & Hl0 & Hppn). exists e0. split; [| done].
      by apply (leaf_below _ _ _ j t e).
Qed.

Lemma below_4GB_recorded s s' type a pte vm :
  recorded_at s s' type a pte -> pte = pte_at s a -> pte_leaf pte ->
  vm_info_ok xlen vm -> ptesize vm = w -> below_4GB s vm -> below_4GB s' vm.
Proof.
  intros Hrec Hpte Hleaf Hok Hw Hb v i b e Hl.
  destruct (leaf_at_recorded_inv s s' type a pte vm v _ _ i b e Hrec Hpte Hleaf Hw
    (vm_ptesize _ _ Hok) (proj2 (vm_ptbase _ _ Hok)) Hl) as (e0 & Hl0 & Hppn).
  unfold physical_address. rewrite Hppn. by apply (Hb v i b e0).
Qed.

Lemma tlb_ok_flushed s vm : tlb (get_mmu s) = tlb_flushed -> tlb_ok s vm.
Proof. intros E mode type idx. left. rewrite E. unfold tlb_get, tlb_flushed. by rewrite lookup_empty. Qed.

Lemma entry_ok_mono s s' vm mode type x :
  (forall v p, translates s vm mode type v p -> translates s' vm mode type v p) ->
  entry_ok s vm mode type x -> entry_ok s' vm mode type x.
Proof. intros Ht [?|[? He]]; [by left | right]. split; [done |]. intros v Hv. by apply Ht, He. Qed.

Lemma page_mask (p : Z) : 0 <= p < 2 ^ 32 -> p .& uint32 (Z.lnot PGMASK) = p - p mod 4096.
Proof.
  intros Hp. assert (p .& uint32 (Z.lnot PGMASK) = Z.ldiff p (Z.ones 12)) as ->.
  { apply Z.bits_inj'. intros k Hk. rewrite Z.land_spec, Z.ldiff_spec. destruct (decide (k < 32)).
    - unfold uint32. rewrite uint_testbit_low, Z.lnot_spec by lia. done.
    - assert (Z.testbit p k = false) as ->; [| done].
      apply (proj1 (is_uint_bits 32 p ltac:(lia))); [done | lia]. }
  rewrite Z.ldiff_ones_r, Z.shiftl_mul_pow2, Z.shiftr_div_pow2 by lia. change (2 ^ 12) with 4096.
  pose proof (Z.div_mod p 4096). lia.
Qed.

Lemma page_base_aligned (p : Z) : (p - p mod 4096) mod 4096 = 0.
Proof. rewrite Zminus_mod_idemp_r. by rewrite Z.sub_diag. Qed.

Lemma hit_address x v : entry_ppn x mod 4096 = 0 -> entry_ppn x .| (v .& PGMASK) = entry_ppn x + v mod 4096.
Proof.
  intros Hx. change PGMASK with (Z.ones 12). rewrite Z.land_ones by lia. change (2 ^ 12) with 4096.
  apply (lor_add _ _ 12); [lia | done | apply Z.mod_pos_bound; lia].
Qed.

(** ** Translation *)

(** The mode of an access: mstatus.mprv lets loads and stores use the previous one. *)
Definition access_mode (s : S) (type : MemoryAccessType) : PrivilegeLevel :=
  let r := vm_regs_of s in
  if negb (bool_decide (type = FETCH)) && vm_mprv r then vm_mpp r else vm_prv r.

Record mmu_ready (s : S) (vm : vm_info) : Prop := {
  ready_inv : mem_inv s;
  ready_vm : current_vm s = Some vm;
  ready_tlb : tlb_ok s vm;
  ready_4GB : below_4GB s vm
}.

Lemma unchanged_ready s s' vm : unchanged s s' -> mmu_ready s vm -> mmu_ready s' vm.
Proof.
  intros Hu [Hi Hv Ht Hb]. pose proof Hu as (Hi' & Er & Em & Hp). constructor; [done | | |].
  - unfold current_vm in *. by rewrite Er.
  - intros m t idx. rewrite Em. eapply entry_ok_mono; [| apply Ht].
    intros v p. by apply translates_unchanged.
  - intros v i a pte Hl. apply (Hb v i a pte). by apply (leaf_at_ext (pte_at s')).
Qed.

Lemma fill_ready s s' vm vaddr type mode i a pte :
  mmu_ready s vm -> vm_info_ok xlen vm -> ptesize vm = w ->
  accesses s vm mode type vaddr i a pte -> recorded_at s s' type a pte ->
  let p := physical_address vm pte vaddr i in
  let vpn := vaddr .>> PGSHIFT in
  let x := mkTlbEntry (p .& uint32 (Z.lnot PGMASK)) vpn in
  forall idx, let m := get_mmu s' in
  mmu_ready (set_mmu (mkMMU (tlb_set mode type idx x (tlb m)) (page_fault_on_AD m)) s') vm.
Proof.
  intros [Hi Hv Ht Hb] Hok Hw Hacc Hrec p vpn x idx m.
  destruct (leaf_at_entry _ _ _ _ _ _ _ _ (access_leaf _ _ _ _ _ _ _ _ _ _ _ _ Hacc)) as [Hpte Hleaf].
  pose proof Hrec as (Hi' & Er & Em & _).
  set (m' := mkMMU _ _). destruct (set_mmu_ok s' m' Hi') as (Hinv & Eg & Ergs & Hat).
  assert (Htr : forall k t v q, translates s vm k t v q -> translates (set_mmu m' s') vm k t v q).
  { intros k t v q Hq. apply (translates_recorded s s' type a pte) in Hq; [| done ..].
    destruct Hq as (j & b & e & [Hc Hl Hp ? Hr] & ->). exists j, b, e. split; [| done].
    unfold accesses. rewrite Ergs, Eg. constructor; try done.
    by apply (leaf_at_ext (pte_at s')). }
  assert (Hp : 0 <= p < 2 ^ 32).
  { split; [apply physical_address_offset | apply (Hb vaddr i a pte), Hacc]. }
  constructor; [done | | |].
  - unfold current_vm in *. by rewrite Ergs, Er.
  - intros k t j. rewrite Eg. unfold m'. cbn [tlb]. rewrite tlb_get_set.
    case_decide as E.
    + simplify_eq. right. change (entry_ppn x) with (p .& uint32 (Z.lnot PGMASK)).
      change (entry_vpn x) with vpn.
      assert (p mod 4096 = vaddr mod 4096) as Hoff by apply physical_address_offset.
      split; [rewrite page_mask by done; apply page_base_aligned |].
      intros v Hvp. unfold vpn in Hvp. rewrite Z.shiftr_div_pow2 in Hvp by (unfold PGSHIFT; lia).
      change (2 ^ PGSHIFT) with 4096 in Hvp. apply Htr. exists i, a, (pte_at s a).
      assert (12 <= top_bit vm) by (pose proof (vm_levels _ _ Hok); pose proof (vm_idxbits _ _ Hok);
        unfold top_bit; nia).
      split; [eapply access_page; [by symmetry | apply Hok | done | done] |].
      pose proof (physical_address_page vm (pte_at s a) v vaddr i Hvp).
      rewrite page_mask by done. unfold p in *. lia.
    + eapply entry_ok_mono; [apply Htr |]. unfold m. rewrite Em. apply Ht.
  - pose proof (below_4GB_recorded s s' type a pte vm Hrec Hpte Hleaf Hok Hw Hb) as Hb'.
    intros v j b e Hl. apply (Hb' v j b e).
    apply (leaf_at_ext (pte_at (set_mmu m' s'))); [intros; by symmetry | done].
Qed.

End tlb.

(** The code after the mode of the access has been chosen. *)
Lemma translate_eq {S} `{!mmu_interface S} vaddr type (s : S) :
  satp_mode (vm_regs_of s) <> SATP_MODE_BARE -> access_mode s type <> MachineMode ->
  let mode := access_mode s type in
  let vpn := vaddr .>> PGSHIFT in
  let idx := vpn mod TLB_ENTRIES in
  translate_virtual_to_physical_addr vaddr type s
  = (mmu_quantum_inc mmu_access_delay ;;
     assert ((mode =? 0) || (mode =? 1)) ;;
     x ← gets (fun s => tlb_get (tlb (get_mmu s)) mode type idx);
     if entry_vpn x =? vpn then mret (entry_ppn x .| (vaddr .& PGMASK))
     else
       paddr ← walk vaddr type mode;
       modify (fun s =>
         let m := get_mmu s in
         let x := mkTlbEntry (paddr .& uint32 (Z.lnot PGMASK)) vpn in
         set_mmu (mkMMU (tlb_set mode type idx x (tlb m)) (page_fault_on_AD m)) s) ;;
       mret paddr) s.
Proof.
  intros Hb Hm. unfold translate_virtual_to_physical_addr, core_reg, gets.
  unfold mbind at 1, M_bind at 1. cbv beta iota.
  destruct (Z.eqb_spec (satp_mode (vm_regs_of s)) SATP_MODE_BARE) as [E|_]; [done |].
  unfold mbind at 1, M_bind at 1. cbv beta iota. unfold mbind at 1, M_bind at 1. cbv beta iota.
  unfold mbind at 1, M_bind at 1. cbv beta iota.
  unfold access_mode in *. cbn zeta in *.
  match goal with |- context [?m =? MachineMode] => destruct (Z.eqb_spec m MachineMode) end;
    [done | reflexivity].
Qed.

(** C11: the TLB is transparent.  If its entries agree with the page tables (as
    they do after a flush) and every address the tables map is below 4 GB, then
    with translation switched on a user or supervisor access to a virtual
    address whose tables are in memory returns a physical address exactly if the
    page tables translate the access, and returns that translation, on a hit and
    on a miss; otherwise it raises the page fault of the access.  The TLB agrees
    with the tables afterwards, although the walk may have marked entries. *)
Theorem tlb_transparent {S w} `{!mmu_interface S, !pte_memory S w} vm vaddr type (s : S) :
  mmu_ready s vm -> vm_info_ok xlen vm -> ptesize vm = w ->
  satp_mode (vm_regs_of s) <> SATP_MODE_BARE ->
  access_mode s type = UserMode \/ access_mode s type = SupervisorMode ->
  is_uint 64 vaddr ->
  tables_accessible (pte_at s) vm vaddr (Z.to_nat (levels vm)) (ptbase vm) ->
  match translate_virtual_to_physical_addr vaddr type s with
  | (Ret paddr, s') => translates s vm (access_mode s type) type vaddr paddr /\ mmu_ready s' vm
  | (Throw e, s') => e = mkTrap (fault_code type) vaddr /\
      (forall paddr, ~ translates s vm (access_mode s type) type vaddr paddr) /\ mmu_ready s' vm
  | (Fatal _, _) => False
  end.
Proof.
  intros Hrdy Hok Hw Hbare Hmode Hva Hacc.
  rewrite translate_eq by (try done; by destruct Hmode as [-> | ->]). cbn zeta.
  set (mode := access_mode s type) in *.
  destruct (mmu_quantum_inc_ok s mmu_access_delay (ready_inv _ _ Hrdy)) as (s1 & Hinc & Hun).
  pose proof (unchanged_ready s s1 vm Hun Hrdy) as Hrdy1. pose proof Hun as (_ & Er & Em & Hp).
  unfold mbind at 1 2 3, M_bind at 1 2 3. rewrite Hinc.
  assert (assert ((mode =? 0) || (mode =? 1)) = (skip : M S SimulationTrap unit)) as ->.
  { by destruct Hmode as [-> | ->]. }
  cbn [skip mret M_ret]. unfold gets. set (idx := (vaddr .>> PGSHIFT) mod TLB_ENTRIES).
  destruct (Z.eqb_spec (entry_vpn (tlb_get (tlb (get_mmu s1)) mode type idx)) (vaddr .>> PGSHIFT))
    as [Hhit|_].
  - assert (Hvpn : vaddr .>> PGSHIFT = vaddr / 4096) by (by rewrite Z.shiftr_div_pow2).
    destruct (ready_tlb _ _ Hrdy1 mode type idx) as [Hnone|[Hal Htr]].
    { exfalso. rewrite Hhit, Hvpn in Hnone. pose proof (Z.div_le_upper_bound vaddr 4096 (2 ^ 52)).
      unfold is_uint in Hva. change (uint64 (-1)) with (2 ^ 64 - 1) in Hnone. lia. }
    rewrite hit_address by done. split; [| done].
    rewrite Hvpn in Hhit. destruct (Htr vaddr (eq_sym Hhit)) as (i & a & pte & Ha & ->).
    exists i, a, pte. split; [| done]. destruct Ha as [Hc Hl Hper ? Hr]. unfold accesses.
    rewrite <- Er, <- Em. constructor; try done.
    apply (leaf_at_ext (pte_at s1)); [by intros | done].
  - assert (Hacc1 : tables_accessible (pte_at s1) vm vaddr (Z.to_nat (levels vm)) (ptbase vm)).
    { by apply (tables_accessible_ext (pte_at s)). }
    assert (Hm : mode <= SupervisorMode) by (by destruct Hmode as [-> | ->]).
    pose proof (walk_post_translation vm vaddr type mode s1 (ready_inv _ _ Hrdy1) (ready_vm _ _ Hrdy1)
      Hok Hw Hm Hacc1) as Hwalk.
    assert (Hback : forall p, translates s1 vm mode type vaddr p -> translates s vm mode type vaddr p).
    { intros p. apply translates_unchanged. split; [apply Hrdy |].
      rewrite Er, Em. split; [done |]. split; [done |]. intros b. by rewrite Hp. }
    unfold mbind at 1, M_bind at 1.
    destruct (walk vaddr type mode s1) as [[paddr|e|f] s2]; [| | done].
    + destruct Hwalk as (i & a & pte & Ha & -> & Hrec).
      unfold mbind, M_bind, modify. cbn [mret M_ret]. split.
      * apply Hback. by exists i, a, pte.
      * by eapply fill_ready.
    + destruct Hwalk as (-> & Hno & Hun2). split; [done |].
      split; [| by eapply unchanged_ready].
      intros p Htr. assert (Ht1 : translates s1 vm mode type vaddr p) by (by eapply translates_unchanged).
      destruct Ht1 as (i & a & pte & Ha & _). by apply (Hno i a pte).
Qed.
