(* ===== verification/MemIf.v ===== *)
(** * The memory interface of a core

    Models core/rv32/mem.h: InstrMemoryProxy and CombinedMemoryInterface, through
    which a core reaches the bus, with direct access to memory ranges (DMI),
    address translation, and the bus lock for LR/SC and atomic operations.  The
    environment of a core is the record [mem_env]: the host memory, the lock
    shared with the other bus masters, the members of the interface and of the
    MMU, and [devices], what the sockets and the SystemC kernel lead to.  The
    operations on the latter are the class [system]. *)

From S2P Require Import Prelude Instr Trap Csr Iss Memory Bus Mmu.

Record mem_env (X : Type) : Type := mkMemEnv {
  mem_heap : heap;
  bus_lock : BusLock;
  lr_addr : Z;
  dmi_ranges : list MemoryDMI;
  mmu : option MMU;
  devices : X
}.
Arguments mkMemEnv {X} mem_heap bus_lock lr_addr dmi_ranges mmu devices.
Arguments mem_heap {X} m.
Arguments bus_lock {X} m.
Arguments lr_addr {X} m.
Arguments dmi_ranges {X} m.
Arguments mmu {X} m.
Arguments devices {X} m.

Definition set_mem_heap {X} (h : heap) (e : mem_env X) : mem_env X :=
  mkMemEnv h (bus_lock e) (lr_addr e) (dmi_ranges e) (mmu e) (devices e).
Definition set_bus_lock {X} (l : BusLock) (e : mem_env X) : mem_env X :=
  mkMemEnv (mem_heap e) l (lr_addr e) (dmi_ranges e) (mmu e) (devices e).
Definition set_lr_addr {X} (a : Z) (e : mem_env X) : mem_env X :=
  mkMemEnv (mem_heap e) (bus_lock e) a (dmi_ranges e) (mmu e) (devices e).
Definition set_mem_mmu {X} (m : option MMU) (e : mem_env X) : mem_env X :=
  mkMemEnv (mem_heap e) (bus_lock e) (lr_addr e) (dmi_ranges e) m (devices e).
Definition set_devices {X} (x : X) (e : mem_env X) : mem_env X :=
  mkMemEnv (mem_heap e) (bus_lock e) (lr_addr e) (dmi_ranges e) (mmu e) x.

(** What the interface and the core reach outside of the modelled state: the
    target of the initiator socket, the TLM quantum keeper, SystemC events, the
    CLINT and the system call emulator. *)
Class system (X : Type) : Type := {
  isock_b_transport : transport_fn (machine (mem_env X)) SimulationTrap;
  quantum_get_local_time : M (machine (mem_env X)) SimulationTrap Z;
  quantum_set : Z -> M (machine (mem_env X)) SimulationTrap unit;
  quantum_inc : Z -> M (machine (mem_env X)) SimulationTrap unit;
  quantum_need_sync : M (machine (mem_env X)) SimulationTrap bool;
  quantum_sync : M (machine (mem_env X)) SimulationTrap unit;
  wait_lock_event : M (machine (mem_env X)) SimulationTrap unit;
  notify_lock_event : M (machine (mem_env X)) SimulationTrap unit;
  lock_wait_bound : nat;
  clint_update_and_get_mtime : M (machine (mem_env X)) SimulationTrap Z;
  system_execute_syscall : option (M (machine (mem_env X)) SimulationTrap unit);
  system_wait_wfi_event : M (machine (mem_env X)) SimulationTrap unit;
  system_notify_wfi_event : M (machine (mem_env X)) SimulationTrap unit
}.

Section memory_interface.
Context {X : Type} `{system X}.

Abbreviation R := (M (machine (mem_env X)) SimulationTrap).

Definition env_get {A} (f : mem_env X -> A) : R A := gets (fun s => f (env s)).
Definition env_update (f : mem_env X -> mem_env X) : R unit :=
  modify (fun s => Machine (core s) (f (env s))).

(** Run a computation on the host memory. *)
Definition on_heap {A} (m : M heap SimulationTrap A) : R A := fun s =>
  let r := m (mem_heap (env s)) in (fst r, Machine (core s) (set_mem_heap (snd r) (env s))).

Definition lock_of (s : machine (mem_env X)) : BusLock := bus_lock (env s).
Definition with_lock (l : BusLock) (s : machine (mem_env X)) : machine (mem_env X) :=
  Machine (core s) (set_bus_lock l (env s)).

Definition hart_id : R Z := read (fun s => csr_get (csr_regs s) csrs.mhartid).

Definition bus_lock_lock : R unit :=
  h ← hart_id; lock lock_of with_lock wait_lock_event lock_wait_bound h.
Definition mem_atomic_unlock : R unit :=
  h ← hart_id; unlock lock_of with_lock notify_lock_event h.
Definition bus_lock_wait_for_access_rights : R unit :=
  h ← hart_id; wait_for_access_rights lock_of wait_lock_event lock_wait_bound h.
Definition bus_lock_is_locked_by_me : R bool :=
  h ← hart_id; gets (fun s => is_locked_by h (lock_of s)).

(** ** Transactions *)

Definition dmi_access_delay : Z := clock_cycle * 4.

Definition _do_transaction (cmd : tlm_command) (addr : Z) (data : list Z) : R (list Z) :=
  let trans := mkPayload cmd addr data TLM_OK_RESPONSE in
  local_delay ← quantum_get_local_time;
  r ← isock_b_transport trans local_delay;
  now ← quantum_get_local_time;
  assert (now <=? snd r) ;;
  quantum_set (snd r) ;;
  if is_response_error (fst r) then
    match cmd with
    | TLM_READ_COMMAND => raise_trap EXC_LOAD_PAGE_FAULT addr
    | TLM_WRITE_COMMAND => raise_trap EXC_STORE_AMO_PAGE_FAULT addr
    | TLM_IGNORE_COMMAND => fatal RuntimeError
    end
  else mret (payload_data (fst r)).

Fixpoint find_dmi (ranges : list MemoryDMI) (addr : Z) : option MemoryDMI :=
  match ranges with
  | [] => None
  | d :: ranges => if dmi_contains d addr then Some d else find_dmi ranges addr
  end.

(** The buffer of a load is not initialised by the code; its bytes do not
    matter to a target that answers a read. *)
Definition _raw_load_data (T : int_type) (addr : Z) : R Z :=
  bus_lock_wait_for_access_rights ;;
  ranges ← env_get dmi_ranges;
  match find_dmi ranges addr with
  | Some d => quantum_inc dmi_access_delay ;; on_heap (dmi_load T d addr)
  | None =>
      bs ← _do_transaction TLM_READ_COMMAND addr (replicate (sizeof T) 0);
      mret (from_bytes T bs)
  end.

(** The loop does not stop at the first range that contains the address. *)
Fixpoint store_dmi (T : int_type) (ranges : list MemoryDMI) (addr value : Z) (done : bool) : R bool :=
  match ranges with
  | [] => mret done
  | d :: ranges =>
      if dmi_contains d addr then
        quantum_inc dmi_access_delay ;;
        on_heap (dmi_store T d addr value) ;;
        store_dmi T ranges addr value true
      else store_dmi T ranges addr value done
  end.

Definition _raw_store_data (T : int_type) (addr value : Z) : R unit :=
  bus_lock_wait_for_access_rights ;;
  ranges ← env_get dmi_ranges;
  done ← store_dmi T ranges addr value false;
  when (negb done) (_do_transaction TLM_WRITE_COMMAND addr (to_bytes T value) ;; skip) ;;
  mem_atomic_unlock.

(** ** Address translation *)

Definition core_vm_regs (s : machine (mem_env X)) : vm_regs :=
  let t := csr_regs (core s) in
  mkVmRegs (prv (core s))
    (get_bits t csrs.satp satp.mode) (get_bits t csrs.satp satp.ppn)
    (nonzero (get_bits t csrs.mstatus mstatus.mprv)) (get_bits t csrs.mstatus mstatus.mpp)
    (nonzero (get_bits t csrs.mstatus mstatus.sum)) (nonzero (get_bits t csrs.mstatus mstatus.mxr)).

#[export] Instance rv32_mmu : mmu_interface (machine (mem_env X)) := {
  vm_regs_of := core_vm_regs;
  get_mmu s := default MMU_new (mmu (env s));
  set_mmu m s := Machine (core s) (set_mem_mmu (Some m) (env s));
  xlen := 32;
  mmu_load_pte64 := _raw_load_data uint64_t;
  mmu_load_pte32 := _raw_load_data uint32_t;
  mmu_store_pte32 := _raw_store_data uint32_t;
  mmu_quantum_inc := quantum_inc
}.

Definition v2p (vaddr : Z) (type : MemoryAccessType) : R Z :=
  m ← env_get mmu;
  match m with
  | None => mret vaddr
  | Some _ => translate_virtual_to_physical_addr vaddr type
  end.

Definition mem_flush_tlb : R unit :=
  m ← env_get mmu;
  match m with
  | None => fatal NullDereference
  | Some _ => mmu_flush_tlb
  end.

(** ** The interfaces of the core *)

Definition _load_data (T : int_type) (addr : Z) : R Z :=
  paddr ← v2p addr LOAD; _raw_load_data T paddr.
Definition _store_data (T : int_type) (addr value : Z) : R unit :=
  paddr ← v2p addr STORE; _raw_store_data T paddr value.

Definition mem_load_instr (addr : Z) : R Z :=
  paddr ← v2p addr FETCH; _raw_load_data uint32_t paddr.

Definition mem_atomic_load_word (addr : Z) : R Z :=
  bus_lock_lock ;; _load_data int32_t addr.
Definition mem_atomic_store_word (addr value : Z) : R unit :=
  mine ← bus_lock_is_locked_by_me;
  assert mine ;; _store_data uint32_t addr value.
Definition mem_atomic_load_reserved_word (addr : Z) : R Z :=
  bus_lock_lock ;; env_update (set_lr_addr addr) ;; _load_data int32_t addr.
Definition mem_atomic_store_conditional_word (addr value : Z) : R bool :=
  mine ← bus_lock_is_locked_by_me;
  if (mine : bool) then
    lr ← env_get lr_addr;
    if addr =? lr then _store_data uint32_t addr value ;; mret true
    else mem_atomic_unlock ;; mret false
  else mret false.

(** A core whose instruction and data memory is the combined interface. *)
#[export] Instance memory_platform : platform (mem_env X) := {
  load_instr := mem_load_instr;
  load_double := _load_data int64_t;
  load_word := _load_data int32_t;
  load_half := _load_data int16_t;
  load_byte := _load_data int8_t;
  load_uhalf := _load_data uint16_t;
  load_ubyte := _load_data uint8_t;
  store_double := _store_data uint64_t;
  store_word := _store_data uint32_t;
  store_half := _store_data uint16_t;
  store_byte := _store_data uint8_t;
  atomic_load_word := mem_atomic_load_word;
  atomic_store_word := mem_atomic_store_word;
  atomic_load_reserved_word := mem_atomic_load_reserved_word;
  atomic_store_conditional_word := mem_atomic_store_conditional_word;
  atomic_unlock := mem_atomic_unlock;
  flush_tlb := mem_flush_tlb;
  update_and_get_mtime := clint_update_and_get_mtime;
  execute_syscall := system_execute_syscall;
  wait_wfi_event := system_wait_wfi_event;
  notify_wfi_event := system_notify_wfi_event;
  quantum_keeper_inc := quantum_inc;
  quantum_keeper_need_sync := quantum_need_sync;
  quantum_keeper_sync := quantum_sync
}.

(** ** InstrMemoryProxy: instructions fetched through a memory range, untranslated *)

Definition proxy_load_instr (dmi : MemoryDMI) (pc : Z) : R Z :=
  quantum_inc (clock_cycle * 2) ;; on_heap (dmi_load uint32_t dmi pc).

End memory_interface.
