(* ===== verification/MemAccess.v ===== *)
(** * Accesses to memory

    What the memory interface of a core relies on from the rest of a platform is
    the class [system_safe].  Given it, no access copies outside of a host
    array, and every access returns a value of its type or raises a page fault.
    The width of the core is a parameter, and so is the way it controls the MMU:
    the class [core_mmu] is what the walk of the page tables relies on. *)

From S2P Require Import Prelude Instr Trap Csr Fp Iss IssLogic CoreInv Memory Bus Mmu MemIf.

(** ** The contract of the platform behind the interface *)

Definition payload_ok (t : tlm_generic_payload) : Prop :=
  command t <> TLM_IGNORE_COMMAND /\ is_uint 64 (address t) /\
  0 < data_length t <= 8 /\ Forall byte_ok (payload_data t).

(** The physical page numbers of the TLB are 64-bit numbers. *)
Definition mmu_ok (m : option MMU) : Prop :=
  forall mode type idx, is_uint 64 (entry_ppn (tlb_get (tlb (default MMU_new m)) mode type idx)).

(** The environment after a step of the interface itself. *)
Definition env_step {X} (e e' : mem_env X) : Prop :=
  same_shape (mem_heap e) (mem_heap e') /\ heap_ok (mem_heap e') /\
  dmi_ranges e' = dmi_ranges e /\ mmu_ok (mmu e') /\ devices e' = devices e.

(** A call that reaches neither the core nor the interface. *)
Definition device_op {X A} (sys_ok : mem_env X -> Prop) (sys_fails : failure -> Prop)
    (m : M (machine (mem_env X)) SimulationTrap A) (Q : A -> Prop) : Prop :=
  nothrow m /\ (forall s, core (snd (m s)) = core s) /\
  forall s, sys_ok (env s) ->
    match m s with
    | (Ret a, s') => Q a /\ sys_ok (env s') /\ env s' = set_devices (devices (env s')) (env s)
    | (Throw _, _) => False
    | (Fatal f, _) => sys_fails f
    end.

(** [phys_width] bounds the physical addresses that reach a trap: those of
    the core without an MMU, 64 bits with one. *)
Class system_safe (xlen : Z) (misa_inv : Z -> Prop) (X : Type) `{system X} : Type := {
  sys_ok : mem_env X -> Prop;
  sys_fails : failure -> Prop;
  phys_width : Z;
  phys_width_ok : phys_width = 64 \/ phys_width = xlen /\ forall e, sys_ok e -> mmu e = None;
  sys_heap_ok e : sys_ok e -> heap_ok (mem_heap e);
  sys_dmi_ok e : sys_ok e -> Forall (dmi_in (mem_heap e)) (dmi_ranges e);
  sys_mmu_ok e : sys_ok e -> mmu_ok (mmu e);
  sys_step e e' : sys_ok e -> env_step e e' -> (phys_width = 64 \/ mmu e' = mmu e) -> sys_ok e';
  isock_ok t d s : payload_ok t -> core_inv xlen misa_inv (core s) -> sys_ok (env s) ->
    match isock_b_transport t d s with
    | (Ret (t', _), s') =>
        length (payload_data t') = length (payload_data t) /\ Forall byte_ok (payload_data t') /\
        line_change xlen (core s) (core s') /\ sys_ok (env s')
    | (Throw _, _) => False
    | (Fatal f, _) => sys_fails f
    end;
  quantum_get_ok : device_op sys_ok sys_fails quantum_get_local_time (fun _ => True);
  quantum_set_ok t : device_op sys_ok sys_fails (quantum_set t) (fun _ => True);
  quantum_inc_ok t : device_op sys_ok sys_fails (quantum_inc t) (fun _ => True);
  quantum_need_sync_ok : device_op sys_ok sys_fails quantum_need_sync (fun _ => True);
  notify_lock_ok : device_op sys_ok sys_fails notify_lock_event (fun _ => True);
  clint_mtime_ok : device_op sys_ok sys_fails clint_update_and_get_mtime (is_uint 64);
  notify_wfi_ok : device_op sys_ok sys_fails system_notify_wfi_event (fun _ => True);
  wait_lock_ok : core_wait xlen misa_inv sys_ok sys_fails wait_lock_event;
  wait_wfi_ok : core_wait xlen misa_inv sys_ok sys_fails system_wait_wfi_event;
  quantum_sync_ok : core_wait xlen misa_inv sys_ok sys_fails quantum_sync;
  syscall_ok m : system_execute_syscall = Some m -> syscall_spec (core_inv xlen misa_inv) (trap_inv xlen) sys_ok sys_fails m;
  quantum_sync_nothrow : nothrow quantum_sync;
  quantum_sync_regs s : regs (core (snd (quantum_sync s))) = regs (core s)
}.

(** ** Accesses *)

(** A property of the core that interrupt lines do not affect. *)
Class Stable (xlen : Z) (P : ISS -> Prop) : Prop :=
  stable c c' : line_change xlen c c' -> P c -> P c'.

Section accesses.
Context {xlen : Z} {misa_inv : Z -> Prop} {X : Type}
  `{Htype : core_type xlen misa_inv, Hsys : system_safe xlen misa_inv X}.

Abbreviation core_ok := (core_inv xlen misa_inv).
Abbreviation mip_change := (line_change xlen).
Abbreviation env_wait := (core_wait xlen misa_inv).

Abbreviation R := (M (machine (mem_env X)) SimulationTrap).

Context (P : ISS -> Prop) {P_stable : Stable xlen P}.

(** The failures of an access: an assertion of the code, a process blocked by
    the bus lock, or a failure of the platform behind. *)
Definition access_fails (f : failure) : Prop :=
  f = AssertFailed \/ f = Blocked \/ sys_fails f.

Definition fault_ok (e : SimulationTrap) : Prop :=
  0 <= reason e <= 15 /\ is_uint phys_width (mtval e).

Definition acc {A} (m : R A) (Q : A -> Prop) : Prop :=
  forall s, core_ok (core s) -> P (core s) -> sys_ok (env s) ->
    match m s with
    | (Ret a, s') => Q a /\ mip_change (core s) (core s') /\ sys_ok (env s')
    | (Throw e, s') => fault_ok e /\ mip_change (core s) (core s') /\ sys_ok (env s')
    | (Fatal f, _) => access_fails f
    end.

Lemma mip_change_trans c1 c2 c3 : mip_change c1 c2 -> mip_change c2 c3 -> mip_change c1 c3.
Proof.
  intros H12 [->|(v & Hv & ->)]; [done |]. destruct H12 as [->|(u & _ & ->)]; right; exists v;
    (split; [done |]); [done |]. destruct c1. unfold set_csr_regs. simpl. by rewrite csr_set_set.
Qed.

Lemma acc_ret {A} (a : A) (Q : A -> Prop) : Q a -> acc (mret a) Q.
Proof. intros HQ s ???. split; [done |]. split; [by left | done]. Qed.

Lemma acc_bind {A B} (m : R A) (k : A -> R B) Q Q' :
  acc m Q -> (forall a, Q a -> acc (k a) Q') -> acc (m ≫= k) Q'.
Proof using Type Htype P_stable.
  intros Hm Hk s Hc HP Hs. specialize (Hm s Hc HP Hs). unfold mbind, M_bind.
  destruct (m s) as [[a|e|f] s1]; [| done | done]. destruct Hm as (HQ & Hmip & Hs1).
  specialize (Hk a HQ s1 (mip_change_ok _ _ Hmip Hc) (stable _ _ Hmip HP) Hs1).
  destruct (k a s1) as [[b|e|f] s2]; [| | done]; destruct Hk as (? & Hmip2 & ?);
    (split; [done |]); (split; [by eapply mip_change_trans | done]).
Qed.

Lemma acc_conseq {A} (m : R A) (Q Q' : A -> Prop) :
  acc m Q -> (forall a, Q a -> Q' a) -> acc m Q'.
Proof.
  intros Hm HQ s Hc HP Hs. specialize (Hm s Hc HP Hs). destruct (m s) as [[a|e|f] s1]; [| done | done].
  destruct Hm as (? & ? & ?). auto.
Qed.

Lemma acc_assert b : acc (assert b) (fun _ => b = true).
Proof.
  destruct b; [exact (acc_ret tt (fun _ => true = true) eq_refl) |].
  intros s ???. hnf. by left.
Qed.

Lemma acc_gets {A} (f : machine (mem_env X) -> A) (Q : A -> Prop) :
  (forall s, core_ok (core s) -> P (core s) -> sys_ok (env s) -> Q (f s)) -> acc (gets f) Q.
Proof. intros HQ s Hc HP Hs. split; [by apply HQ |]. split; [by left | done]. Qed.

Lemma acc_gets_any {A} (f : machine (mem_env X) -> A) : acc (gets f) (fun _ => True).
Proof. by apply acc_gets. Qed.

Lemma acc_skip : acc skip (fun _ => True).
Proof. exact (acc_ret tt (fun _ => True) I). Qed.

Lemma acc_when b (m : R unit) : (b = true -> acc m (fun _ => True)) -> acc (when b m) (fun _ => True).
Proof. destruct b; [auto |]. intros _. apply acc_skip. Qed.

Lemma acc_throw {A} c v (Q : A -> Prop) :
  0 <= c <= 15 -> is_uint phys_width v -> acc (raise_trap c v) Q.
Proof. intros ?? s ???. split; [by split |]. split; [by left | done]. Qed.

Lemma acc_device {A} (m : R A) Q : device_op sys_ok sys_fails m Q -> acc m Q.
Proof.
  intros (_ & Hcore & Hm) s Hc HP Hs. specialize (Hm s Hs). specialize (Hcore s).
  destruct (m s) as [[a|e|f] s1]; simpl in Hcore; [| done | by right; right].
  destruct Hm as (? & ? & _). split; [done |]. split; [by left | done].
Qed.

Lemma acc_wait (m : R unit) : env_wait sys_ok sys_fails m -> acc m (fun _ => True).
Proof.
  intros Hm s Hc HP Hs. specialize (Hm s Hc Hs).
  destruct (m s) as [[a|e|f] s1]; [tauto | done | by right; right].
Qed.

(** A change of the environment by the interface. *)
Lemma acc_step (g : machine (mem_env X) -> machine (mem_env X)) :
  (forall s, sys_ok (env s) -> core (g s) = core s /\ env_step (env s) (env (g s)) /\
     (phys_width = 64 \/ mmu (env (g s)) = mmu (env s))) ->
  acc (modify g) (fun _ => True).
Proof.
  intros Hg s Hc HP Hs. destruct (Hg s Hs) as (Hcore & Hstep & Hmmu). split; [done |].
  split; [by left | by eapply sys_step].
Qed.

Lemma env_step_refl e : sys_ok e -> env_step e e.
Proof.
  intros He. split; [done |]. split; [by apply sys_heap_ok |]. split; [done |].
  split; [by apply sys_mmu_ok | done].
Qed.

(** ** The bus lock *)

#[local] Set Default Proof Using "Type Htype P_stable".

Lemma acc_wait_while_locked n :
  acc (wait_while_locked lock_of wait_lock_event n) (fun _ => True).
Proof.
  induction n as [|n IH]; cbn [wait_while_locked];
    (eapply acc_bind; [apply acc_gets_any |]); intros l _; destruct (locked l);
    try apply acc_skip.
  - intros s ???. hnf. by right; left.
  - eapply acc_bind; [apply acc_wait, wait_lock_ok | by intros].
Qed.

Lemma acc_hart_id : acc hart_id (fun _ => True).
Proof. by apply acc_gets. Qed.

Lemma acc_set_lock l : acc (modify (with_lock l)) (fun _ => True).
Proof.
  apply acc_step. intros s Hs. split; [done |]. split; [exact (env_step_refl _ Hs) | by right].
Qed.

Lemma acc_lock : acc bus_lock_lock (fun _ => True).
Proof.
  unfold bus_lock_lock, lock. eapply acc_bind; [apply acc_hart_id | intros h _].
  eapply acc_bind; [apply acc_gets_any | intros l _].
  eapply acc_bind; [apply acc_when; intros _; apply acc_wait_while_locked | intros _ _].
  eapply acc_bind; [apply acc_gets_any | intros l' _].
  eapply acc_bind; [apply acc_assert | intros _ _]. apply acc_set_lock.
Qed.

Lemma acc_unlock : acc mem_atomic_unlock (fun _ => True).
Proof.
  unfold mem_atomic_unlock, unlock. eapply acc_bind; [apply acc_hart_id | intros h _].
  eapply acc_bind; [apply acc_gets_any | intros l _]. apply acc_when. intros _.
  eapply acc_bind; [apply acc_set_lock | intros _ _]. apply acc_device, notify_lock_ok.
Qed.

Lemma acc_access_rights : acc bus_lock_wait_for_access_rights (fun _ => True).
Proof.
  unfold bus_lock_wait_for_access_rights, wait_for_access_rights.
  eapply acc_bind; [apply acc_hart_id | intros h _].
  eapply acc_bind; [apply acc_gets_any | intros l _].
  apply acc_when. intros _. apply acc_wait_while_locked.
Qed.

(** ** Transactions and memory ranges *)

Lemma phys_width_range : xlen <= phys_width <= 64.
Proof using Type Htype. pose proof xlen_range. destruct phys_width_ok as [->|[-> _]]; lia. Qed.

Lemma core_phys a : is_uint xlen a -> is_uint phys_width a.
Proof using Type Htype.
  apply is_uint_weaken. pose proof xlen_range. pose proof phys_width_range. lia.
Qed.

Lemma phys_uint64 a : is_uint phys_width a -> is_uint 64 a.
Proof using Type Htype. apply is_uint_weaken. pose proof xlen_range. pose proof phys_width_range. lia. Qed.

Lemma acc_transaction cmd addr data :
  cmd <> TLM_IGNORE_COMMAND -> is_uint phys_width addr ->
  0 < Z.of_nat (length data) <= 8 -> Forall byte_ok data ->
  acc (_do_transaction cmd addr data)
    (fun bs => length bs = length data /\ Forall byte_ok bs).
Proof.
  intros Hcmd Ha Hl Hd. unfold _do_transaction.
  eapply acc_bind; [apply acc_device, quantum_get_ok | intros local _].
  eapply (acc_bind _ _ (fun r => length (payload_data (fst r)) = length data /\
                                 Forall byte_ok (payload_data (fst r)))).
  - intros s Hc HP Hs. pose proof (isock_ok (mkPayload cmd addr data TLM_OK_RESPONSE) local s) as Hi.
    specialize (Hi ltac:(split; [done | split; [by apply phys_uint64 | done]]) Hc Hs).
    destruct (isock_b_transport _ local s) as [[[t' d']|e|f] s1]; [| done | by right; right].
    destruct Hi as (? & ? & ? & ?). cbn [fst]. done.
  - intros [t' d'] Ht. cbn [fst snd] in *.
    eapply acc_bind; [apply acc_device, quantum_get_ok | intros now _].
    eapply acc_bind; [apply acc_assert | intros _ _].
    eapply acc_bind; [apply acc_device, quantum_set_ok | intros _ _].
    destruct (is_response_error t'); [| by apply acc_ret].
    destruct cmd; [by apply acc_throw | by apply acc_throw | done].
Qed.

Lemma find_dmi_in ranges addr d : find_dmi ranges addr = Some d -> d ∈ ranges.
Proof using Type Htype.
  induction ranges as [|e ranges IH]; cbn [find_dmi]; [done |].
  destruct (dmi_contains e addr); [intros [= ->]; by left | right; by apply IH].
Qed.

Lemma from_bytes_in T bs : in_type T (from_bytes T bs).
Proof using Type Htype. apply to_type_in. Qed.

Lemma acc_dmi_load T d addr :
  is_uint 64 addr ->
  forall s, core_ok (core s) -> sys_ok (env s) -> d ∈ dmi_ranges (env s) ->
    match on_heap (X := X) (dmi_load T d addr) s with
    | (Ret v, s') => in_type T v /\ core s' = core s /\ env s' = env s
    | (Throw _, _) => False
    | (Fatal f, _) => f = AssertFailed
    end.
Proof using Type Htype.
  intros Ha s Hc Hs Hd. pose proof (sys_dmi_ok _ Hs) as Hall. rewrite Forall_forall in Hall.
  specialize (Hall d Hd). unfold on_heap.
  destruct (dmi_ptr (E := SimulationTrap) (mem_heap (env s)) d T addr Hall Ha) as [[Hf _]|[Hf _]].
  - rewrite dmi_load_fits by done. cbn [fst snd]. split; [apply from_bytes_in |].
    split; [done |]. by destruct (env s).
  - by rewrite (proj1 (dmi_misfit _ _ T addr Hall Ha Hf)).
Qed.

Lemma on_heap_store T d addr v s :
  is_uint 64 addr -> core_ok (core s) -> sys_ok (env s) -> d ∈ dmi_ranges (env s) ->
    match on_heap (X := X) (dmi_store T d addr v) s with
    | (Ret _, s') => core s' = core s /\ sys_ok (env s') /\ dmi_ranges (env s') = dmi_ranges (env s)
    | (Throw _, _) => False
    | (Fatal f, _) => f = AssertFailed
    end.
Proof using Type Htype.
  intros Ha Hc Hs Hd. pose proof (sys_dmi_ok _ Hs) as Hall. rewrite Forall_forall in Hall.
  specialize (Hall d Hd). unfold on_heap.
  destruct (dmi_ptr (E := SimulationTrap) (mem_heap (env s)) d T addr Hall Ha) as [[Hf _]|[Hf _]].
  - rewrite dmi_store_fits by done. cbn [fst snd core env]. split; [done |]. split; [| done].
    eapply sys_step; [exact Hs | | by right]. destruct (env_step_refl _ Hs) as (_ & _ & ? & ? & ?).
    split; [apply same_shape_poke, Hall |].
    split; [apply heap_ok_poke; [by apply sys_heap_ok | apply le_bytes_ok] | done].
  - by rewrite (proj2 (dmi_misfit _ _ T addr Hall Ha Hf) v).
Qed.

(** A step on the host memory of a range that is still there. *)
Lemma acc_delayed {A} t d (m : R A) Q :
  (forall s, core_ok (core s) -> P (core s) -> sys_ok (env s) -> d ∈ dmi_ranges (env s) ->
     match m s with
     | (Ret a, s') => Q a /\ mip_change (core s) (core s') /\ sys_ok (env s')
     | (Throw e, s') => fault_ok e /\ mip_change (core s) (core s') /\ sys_ok (env s')
     | (Fatal f, _) => access_fails f
     end) ->
  forall s, core_ok (core s) -> P (core s) -> sys_ok (env s) -> d ∈ dmi_ranges (env s) ->
    match (quantum_inc t ;; m) s with
    | (Ret a, s') => Q a /\ mip_change (core s) (core s') /\ sys_ok (env s')
    | (Throw e, s') => fault_ok e /\ mip_change (core s) (core s') /\ sys_ok (env s')
    | (Fatal f, _) => access_fails f
    end.
Proof.
  intros Hm s Hc HP Hs Hd. destruct (quantum_inc_ok t) as (_ & Hcore & Hq).
  specialize (Hcore s). specialize (Hq s Hs). unfold mbind, M_bind.
  destruct (quantum_inc t s) as [[u|e|f] s1]; simpl in Hcore; [| done | by right; right].
  destruct Hq as (_ & Hs1 & He). rewrite <- Hcore in *.
  apply Hm; [done | done | done |]. by rewrite He.
Qed.

Lemma acc_raw_load T addr : is_uint phys_width addr -> acc (_raw_load_data T addr) (in_type T).
Proof.
  intros Ha. pose proof (phys_uint64 _ Ha) as Ha64. unfold _raw_load_data.
  eapply acc_bind; [apply acc_access_rights | intros _ _].
  intros s Hc HP Hs. unfold mbind at 1, M_bind at 1, env_get, gets.
  destruct (find_dmi (dmi_ranges (env s)) addr) as [d|] eqn:Hd.
  - apply find_dmi_in in Hd. apply (acc_delayed _ d); [| done ..].
    clear s Hc HP Hs Hd. intros s Hc HP Hs Hd.
    pose proof (acc_dmi_load T d addr Ha64 s Hc Hs Hd) as Hl.
    destruct (on_heap (dmi_load T d addr) s) as [[v|e|f] s1]; [| done | by left].
    destruct Hl as (Hv & Hcore & Henv). rewrite Hcore, Henv. split; [done |]. split; [by left | done].
  - apply (acc_bind _ _ (fun bs => length bs = sizeof T /\ Forall byte_ok bs)); [| | done ..].
    + eapply acc_conseq; [apply acc_transaction; [done | done | |] |].
      * rewrite length_replicate. destruct T; simpl; lia.
      * apply Forall_replicate. by apply is_uint_literal.
      * intros bs. by rewrite length_replicate.
    + intros bs _. apply acc_ret, from_bytes_in.
Qed.

Lemma acc_store_dmi T addr v : is_uint 64 addr ->
  forall ranges b s, core_ok (core s) -> P (core s) -> sys_ok (env s) ->
    (forall d, d ∈ ranges -> d ∈ dmi_ranges (env s)) ->
    match store_dmi T ranges addr v b s with
    | (Ret _, s') => mip_change (core s) (core s') /\ sys_ok (env s')
    | (Throw _, _) => False
    | (Fatal f, _) => access_fails f
    end.
Proof.
  intros Ha. induction ranges as [|d ranges IH]; intros b s Hc HP Hs Hin; cbn [store_dmi].
  { split; [by left | done]. }
  assert (Hrest : forall d', d' ∈ ranges -> d' ∈ dmi_ranges (env s)) by (intros; apply Hin; by right).
  destruct (dmi_contains d addr); [| by apply IH].
  destruct (quantum_inc_ok dmi_access_delay) as (_ & Hcore & Hq).
  specialize (Hcore s). specialize (Hq s Hs). unfold mbind at 1, M_bind at 1.
  destruct (quantum_inc dmi_access_delay s) as [[u|e|f] s1]; simpl in Hcore; [| done | by right; right].
  destruct Hq as (_ & Hs1 & He). rewrite <- Hcore in Hc, HP |- *.
  assert (Hranges : dmi_ranges (env s1) = dmi_ranges (env s)) by (by rewrite He).
  unfold mbind at 1, M_bind at 1.
  pose proof (on_heap_store T d addr v s1 Ha Hc Hs1 ltac:(rewrite Hranges; apply Hin; by left)) as Hst.
  destruct (on_heap (dmi_store T d addr v) s1) as [[w|e|f] s2]; [| done | by left].
  destruct Hst as (Hcore2 & Hs2 & Hr2). rewrite <- Hcore2 in Hc, HP |- *.
  apply IH; [done | done | done |]. intros d' Hd'. rewrite Hr2, Hranges. by apply Hrest.
Qed.

Lemma acc_raw_store T addr v : is_uint phys_width addr -> acc (_raw_store_data T addr v) (fun _ => True).
Proof.
  intros Ha. pose proof (phys_uint64 _ Ha) as Ha64. unfold _raw_store_data.
  eapply acc_bind; [apply acc_access_rights | intros _ _].
  intros s Hc HP Hs. unfold mbind at 1, M_bind at 1, env_get, gets.
  assert (Hrest : forall b : bool, acc
    (when (negb b) (_do_transaction TLM_WRITE_COMMAND addr (to_bytes T v) ;; skip) ;;
     mem_atomic_unlock) (fun _ => True)).
  { intros b. eapply acc_bind; [apply acc_when; intros _ | intros _ _; apply acc_unlock].
    eapply acc_bind; [apply acc_transaction; [done | done | |] | intros _ _; apply acc_skip].
    - rewrite length_to_bytes. destruct T; simpl; lia.
    - apply le_bytes_ok. }
  pose proof (acc_store_dmi T addr v Ha64 (dmi_ranges (env s)) false s Hc HP Hs ltac:(done)) as Hst.
  unfold mbind at 1, M_bind at 1.
  destruct (store_dmi T (dmi_ranges (env s)) addr v false s) as [[b|e|f] s1]; [| done | done].
  destruct Hst as [Hmip Hs1].
  specialize (Hrest b s1 (mip_change_ok _ _ Hmip Hc) (stable _ _ Hmip HP) Hs1). revert Hrest.
  match goal with |- (match ?m s1 with _ => _ end) -> _ => destruct (m s1) as [[[]|e|f] s2] end;
    [| | done]; intros (? & Hmip2 & ?); (split; [done |]);
    (split; [by eapply mip_change_trans | done]).
Qed.

End accesses.

Definition any_core (_ : ISS) : Prop := True.

#[export] Instance any_stable xlen : Stable xlen any_core.
Proof. done. Qed.

(** ** The MMU of a core *)

(** The modes that the walk supports: page table entries of 4 or 8 bytes, and
    shift counts within range in the check of the upper bits of an address. *)
Definition walkable (w : Z) (vm : vm_info) : bool :=
  let highbit := idxbits vm * levels vm + PGSHIFT - 1 in
  (0 <? highbit) && (highbit <? 64) && (highbit <=? w) && (w - highbit <? 64)
  && ((ptesize vm =? 4) || (ptesize vm =? 8)).

Definition walkable_mode (w mode : Z) : Prop :=
  forall base, exists vm, vm_info_of_mode mode base = Some vm /\ walkable w vm = true.

(** An MMU whose state is in the environment and which reads page tables through
    the memory interface. *)
Class core_mmu (xlen : Z) (misa_inv : Z -> Prop) (X : Type) `{system X}
    (I : mmu_interface (machine (mem_env X))) : Type := {
  mmu_mode : ISS -> Z;
  mmu_mode_regs s : satp_mode (vm_regs_of s) = mmu_mode (core s);
  mmu_mode_cases c : core_inv xlen misa_inv c ->
    mmu_mode c = SATP_MODE_BARE \/ walkable_mode xlen (mmu_mode c);
  mmu_mode_stable c c' : line_change xlen c c' -> mmu_mode c' = mmu_mode c;
  mmu_state s : get_mmu s = default MMU_new (mmu (env s));
  mmu_update m s : set_mmu m s = Machine (core s) (set_mem_mmu (Some m) (env s));
  mmu_width : Mmu.xlen = xlen;
  mmu_pte64 a : mmu_load_pte64 a = _raw_load_data uint64_t a;
  mmu_pte32 a : mmu_load_pte32 a = _raw_load_data uint32_t a;
  mmu_store a v : mmu_store_pte32 a v = _raw_store_data uint32_t a v;
  mmu_delay t : mmu_quantum_inc t = quantum_inc t
}.

Section translation.
Context {xlen : Z} {misa_inv : Z -> Prop} {X : Type}
  `{Htype : core_type xlen misa_inv, Hsys : system_safe xlen misa_inv X}
  {I : mmu_interface (machine (mem_env X))} {Hmmu : core_mmu xlen misa_inv X I}.

Abbreviation R := (M (machine (mem_env X)) SimulationTrap).

Definition walking (c : ISS) : Prop := walkable_mode xlen (mmu_mode c).

#[export] Instance walking_stable : Stable xlen walking.
Proof using Type. intros c c' Hc. unfold walking. by rewrite (mmu_mode_stable c c' Hc). Qed.

#[local] Set Default Proof Using "Type*".

Lemma acc_page_fault {A} P type vaddr (Q : A -> Prop) :
  is_uint xlen vaddr -> acc P (page_fault type vaddr) Q.
Proof. intros Hv%core_phys. destruct type; by apply acc_throw. Qed.

Lemma acc_core_reg {A} (P : ISS -> Prop) (f : vm_regs -> A) (Q : A -> Prop) :
  (forall s : machine (mem_env X), P (core s) -> Q (f (vm_regs_of s))) -> acc P (core_reg f) Q.
Proof. intros HQ. apply acc_gets. auto. Qed.

Lemma acc_core_any {A} (P : ISS -> Prop) (f : vm_regs -> A) : acc P (core_reg f) (fun _ => True).
Proof. by apply acc_core_reg. Qed.

Hypothesis width64 : phys_width = 64.

Lemma acc_walk_levels vm vaddr type sm sum mxr n base :
  is_uint xlen vaddr -> ptesize vm = 4 \/ ptesize vm = 8 ->
  acc walking (walk_levels vm vaddr type sm sum mxr n base) (is_uint 64).
Proof.
  intros Hv Hsize. revert base. induction n as [|i IH]; intros base; cbn [walk_levels].
  { by apply acc_page_fault. }
  eapply acc_bind; [apply _ | apply acc_assert | intros _ _].
  apply (acc_bind _ _ _ (is_uint 64)).
  { destruct Hsize as [-> | ->]; cbn [Z.eqb Pos.eqb]; rewrite ?mmu_pte32, ?mmu_pte64.
    - eapply acc_conseq; [apply acc_raw_load; [apply _ | rewrite width64; by apply uint_range] |].
      intros v. apply (is_uint_weaken 32). lia.
    - apply (acc_raw_load _ uint64_t). rewrite width64. by apply uint_range. }
  intros pte Hpte. cbv zeta. destruct (_ || _); [by apply acc_page_fault |].
  destruct (_ && _); [apply IH |]. destruct (leaf_denied _ _ _ _ _ _); [by apply acc_page_fault |].
  eapply acc_bind; [apply _ | apply acc_gets_any | intros pf _].
  destruct (_ && pf); [by apply acc_page_fault |].
  eapply acc_bind; [apply _ | apply acc_when; intros _; rewrite mmu_store; apply acc_raw_store;
    [apply _ | rewrite width64; by apply uint_range] | intros _ _].
  apply acc_ret. unfold leaf_address. apply is_uint_lor; [lia | by apply uint_range |].
  apply is_uint_land_r; [lia | by apply is_uint_literal].
Qed.

Lemma acc_decode_vm_info prv :
  acc walking (decode_vm_info prv) (fun vm => walkable xlen vm = true).
Proof.
  unfold decode_vm_info. eapply acc_bind; [apply _ | apply acc_assert | intros _ _].
  eapply acc_bind; [apply _ | apply acc_core_any | intros ppn _].
  eapply acc_bind; [apply _ | apply (acc_core_reg _ _ (walkable_mode xlen)) | intros mode Hm].
  { intros s Hs. by rewrite mmu_mode_regs. }
  destruct (Hm (uint64 (ppn .<< PGSHIFT))) as (vm & -> & Hvm). by apply acc_ret.
Qed.

Lemma acc_check_extension vaddr vm :
  walkable xlen vm = true -> acc walking (check_vaddr_extension vaddr vm) (fun _ => True).
Proof.
  intros Hvm. unfold walkable in Hvm. cbv zeta in Hvm. unfold check_vaddr_extension. cbv zeta.
  rewrite mmu_width. set (h := idxbits vm * levels vm + PGSHIFT - 1) in *. clearbody h.
  repeat (apply andb_prop in Hvm as [Hvm ?]).
  eapply acc_bind; [apply _ | apply acc_assert | intros _ _].
  rewrite (uint_id 32) by (unfold is_uint; lia).
  replace ((64 <=? xlen - h) || (64 <=? h)) with false by lia. by apply acc_ret.
Qed.

Lemma acc_walk vaddr type mode :
  is_uint xlen vaddr -> acc walking (walk vaddr type mode) (is_uint 64).
Proof.
  intros Hv. unfold walk.
  do 2 (eapply acc_bind; [apply _ | apply acc_core_any | intros ? _]).
  eapply acc_bind; [apply _ | apply acc_decode_vm_info | intros vm Hvm].
  eapply acc_bind; [apply _ | by apply acc_check_extension | intros ok _].
  apply acc_walk_levels; [done |]. unfold walkable in Hvm. cbv zeta in Hvm. lia.
Qed.

Lemma acc_remember type paddr mode vpn idx :
  is_uint 64 paddr ->
  acc walking (modify (fun s : machine (mem_env X) =>
      let m := get_mmu s in
      let x := mkTlbEntry (paddr .& uint32 (Z.lnot PGMASK)) vpn in
      set_mmu (mkMMU (tlb_set mode type idx x (tlb m)) (page_fault_on_AD m)) s))
    (fun _ => True).
Proof.
  intros Hpa. apply acc_step. intros s Hs. cbv zeta.
  rewrite mmu_update, mmu_state. split; [done |]. split; [| by left].
  destruct (env_step_refl _ Hs) as (Hsh & Hh & Hd & Ht & Hdev).
  split; [done |]. split; [done |]. split; [done |]. split; [| done].
  intros m t i. cbn. rewrite tlb_get_set. case_decide; [| apply Ht]. cbn. by apply is_uint_land_l.
Qed.

Lemma acc_translate vaddr type :
  is_uint xlen vaddr -> acc any_core (translate_virtual_to_physical_addr vaddr type) (is_uint 64).
Proof.
  intros Hv s Hc _ Hs. pose proof (core_phys _ Hv) as Hv64. rewrite width64 in Hv64.
  unfold translate_virtual_to_physical_addr. unfold mbind at 1, M_bind at 1, core_reg at 1, gets at 1.
  rewrite mmu_mode_regs. destruct (Z.eqb_spec (mmu_mode (core s)) SATP_MODE_BARE) as [|Hbare].
  { split; [done |]. split; [by left | done]. }
  assert (Hw : walking (core s)) by (by destruct (mmu_mode_cases _ Hc)). clear Hbare.
  revert s Hc Hw Hs.
  match goal with |- forall s, _ -> _ -> _ -> match ?m s with _ => _ end =>
    change (acc walking m (is_uint 64)) end.
  do 3 (eapply acc_bind; [apply _ | apply acc_core_any | intros ? _]).
  cbv zeta.
  match goal with |- acc _ (if ?m =? MachineMode then _ else _) _ => set (mode := m) end.
  destruct (mode =? MachineMode); [by apply acc_ret |]. rewrite mmu_delay.
  eapply acc_bind; [apply _ | apply acc_device, quantum_inc_ok | intros _ _].
  eapply acc_bind; [apply _ | apply acc_assert | intros [] _].
  eapply acc_bind; [apply _ | apply (acc_gets _ _ (fun x => is_uint 64 (entry_ppn x))) | intros x Hx].
  { intros s _ _ Hs. rewrite mmu_state. apply (sys_mmu_ok _ Hs). }
  destruct (entry_vpn x =? _).
  { apply acc_ret. apply is_uint_lor; [lia | done |].
    apply is_uint_land_r; [lia | by apply is_uint_literal]. }
  eapply acc_bind; [apply _ | by apply acc_walk | intros paddr Hpa].
  eapply acc_bind; [apply _ | by apply acc_remember | intros _ _; by apply acc_ret].
Qed.

End translation.

(** ** The operations of the interfaces *)

Section operations.
Context {xlen : Z} {misa_inv : Z -> Prop} {X : Type}
  `{Htype : core_type xlen misa_inv, Hsys : system_safe xlen misa_inv X}.

Abbreviation R := (M (machine (mem_env X)) SimulationTrap).
#[local] Set Default Proof Using "Type*".

(** A load that takes the lock, and one that records its address. *)
Lemma acc_locked {A} (m : R A) Q : acc any_core m Q -> acc any_core (bus_lock_lock ;; m) Q.
Proof. intros Hm. by eapply acc_bind; [apply _ | apply acc_lock, _ | intros _ _]. Qed.

Lemma acc_reserved {A} a (m : R A) Q :
  acc any_core m Q -> acc any_core (bus_lock_lock ;; env_update (set_lr_addr a) ;; m) Q.
Proof.
  intros Hm. apply acc_locked. eapply acc_bind; [apply _ | apply acc_step | by intros ? _].
  intros s Hs. split; [done |]. split; [exact (env_step_refl _ Hs) | by right].
Qed.

Lemma acc_mine : acc any_core bus_lock_is_locked_by_me (fun _ => True).
Proof.
  eapply acc_bind; [apply _ | apply acc_hart_id, _ | intros h _]. apply acc_gets_any.
Qed.

Lemma acc_owned (m : R unit) :
  acc any_core m (fun _ => True) ->
  acc any_core (mine ← bus_lock_is_locked_by_me; assert mine ;; m) (fun _ => True).
Proof.
  intros Hm. eapply acc_bind; [apply _ | apply acc_mine | intros mine _].
  by eapply acc_bind; [apply _ | apply acc_assert | intros _ _].
Qed.

Lemma acc_conditional a (m : R unit) :
  acc any_core m (fun _ => True) ->
  acc any_core
    (mine ← bus_lock_is_locked_by_me;
     if (mine : bool) then
       lr ← env_get lr_addr;
       if a =? lr then m ;; mret true else mem_atomic_unlock ;; mret false
     else mret false) (fun _ => True).
Proof.
  intros Hm. eapply acc_bind; [apply _ | apply acc_mine | intros mine _].
  destruct mine; [| by apply acc_ret].
  eapply acc_bind; [apply _ | apply acc_gets_any | intros lr _].
  destruct (a =? lr).
  - eapply acc_bind; [apply _ | exact Hm | intros _ _; by apply acc_ret].
  - eapply acc_bind; [apply _ | apply acc_unlock, _ | intros _ _; by apply acc_ret].
Qed.

(** ** The contract of the core's platform *)

Context (fails : failure -> Prop) (Hfails : forall f, access_fails f -> fails f)
  (Hwidth : phys_width = xlen).

Lemma acc_env_access {A} (m : R A) Q :
  acc any_core m Q -> core_access xlen misa_inv sys_ok fails m Q.
Proof.
  intros Hm s Hc Hs. specialize (Hm s Hc I Hs). destruct (m s) as [[a|e|f] s']; [done | | auto].
  destruct Hm as ([Hr Hv] & ? & ?). by rewrite Hwidth in Hv.
Qed.

Lemma load_signed T w (m : R Z) : acc any_core m (in_type T) -> signed T = true -> width T <= w ->
  core_access xlen misa_inv sys_ok fails m (is_sint w).
Proof.
  intros Ha HT Hw. apply acc_env_access. eapply acc_conseq; [done |].
  intros v. unfold in_type. rewrite HT. apply is_sint_weaken. split; [by destruct T | done].
Qed.

Lemma load_unsigned T w (m : R Z) : acc any_core m (in_type T) -> signed T = false -> width T <= w ->
  core_access xlen misa_inv sys_ok fails m (is_uint w).
Proof.
  intros Ha HT Hw. apply acc_env_access. eapply acc_conseq; [done |].
  intros v. unfold in_type. rewrite HT. by apply is_uint_weaken.
Qed.

#[local] Set Default Proof Using "Type Htype Hfails".

Lemma fails_sys f : sys_fails f -> fails f.
Proof. intros. apply Hfails. by right; right. Qed.

Lemma device_env_op {A} (m : R A) Q :
  device_op sys_ok sys_fails m Q -> core_op xlen misa_inv sys_ok fails m Q.
Proof.
  intros (_ & Hcore & Hm) s Hc Hs. specialize (Hm s Hs). specialize (Hcore s).
  destruct (m s) as [[a|e|f] s']; simpl in Hcore; [tauto | done | by apply fails_sys].
Qed.

Lemma wait_env_wait (m : R unit) :
  core_wait xlen misa_inv sys_ok sys_fails m -> core_wait xlen misa_inv sys_ok fails m.
Proof.
  intros Hm s Hc Hs. specialize (Hm s Hc Hs).
  destruct (m s) as [[a|e|f] s']; [done | done | by apply fails_sys].
Qed.

Lemma unlock_device :
  nothrow (mem_atomic_unlock (X := X)) /\
  (forall s, core (snd (mem_atomic_unlock (X := X) s)) = core s).
Proof using Type Hsys.
  destruct notify_lock_ok as (Hn & Hcore & _).
  unfold mem_atomic_unlock, hart_id, read, unlock, gets, modify. split.
  - intros e s s'. unfold mbind, M_bind. cbv beta iota.
    destruct (_ && _); cbn [when]; [| done]. unfold mbind, M_bind. apply Hn.
  - intros s. unfold mbind, M_bind. cbv beta iota.
    destruct (_ && _); cbn [when]; [| done]. unfold mbind, M_bind. by rewrite Hcore.
Qed.

Lemma unlock_regs s : regs (core (snd (mem_atomic_unlock (X := X) s))) = regs (core s).
Proof using Type Hsys. by rewrite (proj2 unlock_device). Qed.

Lemma unlock_env_op : core_op xlen misa_inv sys_ok fails (mem_atomic_unlock (X := X)) (fun _ => True).
Proof.
  intros s Hc Hs. pose proof (acc_unlock any_core s Hc I Hs) as Hm.
  destruct unlock_device as [Hn Hcore]. specialize (Hcore s). specialize (Hn).
  destruct (mem_atomic_unlock s) as [[a|e|f] s'] eqn:E; simpl in Hcore; [tauto | | auto].
  by destruct (Hn _ _ _ E).
Qed.

Lemma syscall_env m : system_execute_syscall (X := X) = Some m ->
  syscall_spec (core_inv xlen misa_inv) (trap_inv xlen) sys_ok fails m.
Proof.
  intros Hm s Hc Hs. pose proof (syscall_ok m Hm s Hc Hs) as Hp.
  destruct (m s) as [[a|e|f] s']; [done | done | by apply fails_sys].
Qed.

Lemma device_regs {A} (m : R A) Q s :
  device_op sys_ok sys_fails m Q -> regs (core (snd (m s))) = regs (core s).
Proof using Type. intros (_ & Hc & _). by rewrite Hc. Qed.

Lemma device_nothrow {A} (m : R A) Q : device_op sys_ok sys_fails m Q -> nothrow m.
Proof using Type. by intros (Hn & _). Qed.

Lemma device_core {A} (m : R A) Q s : device_op sys_ok sys_fails m Q -> core (snd (m s)) = core s.
Proof using Type. by intros (_ & Hc & _). Qed.

End operations.

(** The fields of [environment_ok] for a core in front of its memory interface,
    whose accesses are in the hint database. *)
Create HintDb mem_contract.
#[export] Hint Resolve quantum_inc_ok quantum_need_sync_ok notify_wfi_ok clint_mtime_ok
  wait_wfi_ok quantum_sync_ok : mem_contract.

Ltac memory_contract fails_access width :=
  cbn [load_instr load_double load_word load_half load_byte load_uhalf load_ubyte store_double
    store_word store_half store_byte atomic_load_word atomic_store_word
    atomic_load_reserved_word atomic_store_conditional_word atomic_unlock flush_tlb
    update_and_get_mtime execute_syscall wait_wfi_event notify_wfi_event quantum_keeper_inc
    quantum_keeper_need_sync quantum_keeper_sync];
  intros;
  first
    [ solve [apply (acc_env_access _ fails_access width); auto with mem_contract]
    | solve [eapply (load_signed _ fails_access width); auto with mem_contract; done]
    | solve [eapply (load_unsigned _ fails_access width); auto with mem_contract; done]
    | apply (unlock_env_op _ fails_access)
    | solve [apply (device_env_op _ fails_access); auto with mem_contract]
    | solve [apply (wait_env_wait _ fails_access); auto with mem_contract]
    | apply unlock_device
    | apply unlock_regs
    | apply quantum_sync_nothrow
    | apply quantum_sync_regs
    | solve [eapply device_regs; eauto with mem_contract]
    | solve [eapply device_core; eauto with mem_contract]
    | solve [eapply device_nothrow; eauto with mem_contract]
    | solve [unshelve eapply (syscall_env _ fails_access); done]
    | solve [auto with mem_contract] ].
