(* ===== verification/MemIfSafe.v ===== *)
(** * Safety of the memory interface of the 32-bit core

    The accesses of MemIf.v are safe, with and without address translation, and
    the interface without an MMU keeps the contract [platform_ok] of the core. *)

From S2P Require Import Prelude Instr Trap Csr Fp Iss IssLogic IssInv IssValues Memory Bus Mmu MemIf.
From S2P Require Export MemAccess.

Abbreviation system_ok := (system_safe 32 misa_ok).

Section interface.
Context {X : Type} `{Hsys : !system X} `{Hok : !system_ok X}.

(** The mode of satp has one bit: Sv32 or no translation. *)
Lemma satp_mode_cases c : csrs_ok (csr_regs c) ->
  let mode := get_bits (csr_regs c) csrs.satp satp.mode in
  mode = SATP_MODE_BARE \/ walkable_mode 32 mode.
Proof.
  intros Hc mode.
  pose proof (get_field_range satp.mode (csr_get (csr_regs c) csrs.satp) ltac:(by split)) as Hr.
  assert (mode = SATP_MODE_BARE \/ mode = SATP_MODE_SV32) as [->| ->].
  { unfold SATP_MODE_BARE, SATP_MODE_SV32. unfold is_uint in Hr. unfold mode, get_bits. simpl in *. lia. }
  - by left.
  - right. intros base. by eexists.
Qed.

#[export] Program Instance rv32_core_mmu : core_mmu 32 misa_ok X rv32_mmu := {
  mmu_mode c := get_bits (csr_regs c) csrs.satp satp.mode
}.
Next Obligation. done. Qed.
Next Obligation. intros c Hc. apply satp_mode_cases, Hc. Qed.
Next Obligation.
  intros c c' [->|(v & _ & ->)]; [done |]. unfold set_csr_regs. cbn [csr_regs].
  by rewrite get_bits_csr_set_other.
Qed.
Solve All Obligations with done.

Lemma acc_v2p vaddr type : is_uint 32 vaddr -> acc any_core (v2p vaddr type) (is_uint phys_width).
Proof.
  intros Hv. unfold v2p. intros s Hc _ Hs. unfold mbind at 1, M_bind at 1, env_get, gets.
  destruct (mmu (env s)) as [m|] eqn:Hm.
  - destruct phys_width_ok as [Hw|[_ Hn]]; [| specialize (Hn _ Hs); congruence].
    pose proof (acc_translate Hw vaddr type Hv s Hc I Hs) as Ht. by rewrite Hw.
  - split; [by apply core_phys |]. split; [by left | done].
Qed.

(** ** The interfaces of the core *)

Lemma acc_load T addr : is_uint 32 addr -> acc any_core (_load_data T addr) (in_type T).
Proof.
  intros Ha. eapply acc_bind; [apply _ | by apply acc_v2p | intros p Hp].
  by apply acc_raw_load; [apply _ |].
Qed.

Lemma acc_store T addr v : is_uint 32 addr -> acc any_core (_store_data T addr v) (fun _ => True).
Proof.
  intros Ha. eapply acc_bind; [apply _ | by apply acc_v2p | intros p Hp].
  by apply acc_raw_store; [apply _ |].
Qed.

Lemma acc_load_instr addr : is_uint 32 addr -> acc any_core (mem_load_instr addr) (is_uint 32).
Proof.
  intros Ha. eapply acc_bind; [apply _ | by apply acc_v2p | intros p Hp].
  by apply (acc_raw_load any_core uint32_t).
Qed.

Lemma acc_atomic_load addr : is_uint 32 addr -> acc any_core (mem_atomic_load_word addr) (is_sint 32).
Proof. intros Ha. apply acc_locked. by apply (acc_load int32_t). Qed.

Lemma acc_atomic_store addr v :
  is_uint 32 addr -> acc any_core (mem_atomic_store_word addr v) (fun _ => True).
Proof. intros Ha. apply acc_owned. by apply acc_store. Qed.

Lemma acc_load_reserved addr :
  is_uint 32 addr -> acc any_core (mem_atomic_load_reserved_word addr) (is_sint 32).
Proof. intros Ha. apply acc_reserved. by apply (acc_load int32_t). Qed.

Lemma acc_store_conditional addr v :
  is_uint 32 addr -> acc any_core (mem_atomic_store_conditional_word addr v) (fun _ => True).
Proof. intros Ha. apply acc_conditional. by apply acc_store. Qed.

End interface.

(** C12: every access of the interface is safe.  In front of a platform that keeps
    [system_ok], with or without address translation, a load, a store, an
    instruction fetch and the accesses of LR, SC and AMO instructions at any
    32-bit address return a value of their type or raise an exception with a
    valid cause; none copies outside of a host array; and nothing changes in the
    core but its interrupt lines.  They fail only with an assertion of the code,
    for a lock that is never released, or in the platform behind. *)
Theorem memory_access_safe {X} `{!system X, !system_ok X} (a v : Z) :
  is_uint 32 a ->
  (forall T, acc any_core (_load_data T a) (in_type T)) /\
  (forall T, acc any_core (_store_data T a v) (fun _ => True)) /\
  acc any_core (mem_load_instr a) (is_uint 32) /\
  acc any_core (mem_atomic_load_word a) (is_sint 32) /\
  acc any_core (mem_atomic_store_word a v) (fun _ => True) /\
  acc any_core (mem_atomic_load_reserved_word a) (is_sint 32) /\
  acc any_core (mem_atomic_store_conditional_word a v) (fun _ => True).
Proof.
  intros Ha. split; [intros T; by apply acc_load |]. split; [intros T; by apply acc_store |].
  split; [by apply acc_load_instr |]. split; [by apply acc_atomic_load |].
  split; [by apply acc_atomic_store |]. split; [by apply acc_load_reserved |].
  by apply acc_store_conditional.
Qed.

(** ** The contract of the core's platform *)

(** A platform without an MMU. *)
Class no_mmu (X : Type) `{!system X, !system_ok X} : Prop := no_mmu_width : phys_width = 32.

Section platform.
Context {X : Type} `{Hsys : !system X, Hok : !system_ok X, !no_mmu X}.

(** SFENCE.VMA dereferences the null pointer to the MMU. *)
Definition memory_fails (f : failure) : Prop := access_fails f \/ f = NullDereference.

Lemma flush_env_op : env_op sys_ok memory_fails (mem_flush_tlb (X := X)) (fun _ => True).
Proof using Type*.
  intros s Hc Hs. unfold mem_flush_tlb, mbind, M_bind, env_get, gets.
  destruct phys_width_ok as [Hw|[_ Hn]]; [pose proof no_mmu_width; congruence |].
  rewrite (Hn _ Hs). by right.
Qed.

Lemma memory_fails_access f : access_fails f -> memory_fails f.
Proof. by left. Qed.

#[local] Hint Resolve acc_load acc_store acc_load_instr acc_atomic_load acc_atomic_store
  acc_load_reserved acc_store_conditional flush_env_op : mem_contract.

(** A core in front of the interface: every theorem about the core that needs
    the contract of its environment holds of it. *)
#[export] Instance memory_platform_ok : platform_ok (mem_env X).
Proof using Type*.
  refine {| platform_environment := {| env_ok := sys_ok; env_fails := memory_fails |} |};
    unfold memory_platform; memory_contract memory_fails_access no_mmu_width.
Defined.
End platform.
