(* ===== verification/ClockSystem.v ===== *)
(** * The smallest system behind the memory interface

    A local time, a system clock that stands still, and no targets: every
    transaction ends in an address error.  The theorems about the interface are
    instantiated with it. *)

From S2P Require Import Prelude Instr Trap Csr Iss IssLogic IssInv Memory Bus Mmu MemIf MemIfSafe.

#[export] Instance clock_system : system Z := {
  isock_b_transport t delay :=
    mret (set_response_status TLM_ADDRESS_ERROR_RESPONSE t, delay);
  quantum_get_local_time := env_get devices;
  quantum_set t := env_update (set_devices t);
  quantum_inc t := modify (fun s => Machine (core s) (set_devices (devices (env s) + t) (env s)));
  quantum_need_sync := mret false;
  quantum_sync := skip;
  wait_lock_event := skip;
  notify_lock_event := skip;
  lock_wait_bound := 0;
  clint_update_and_get_mtime := mret 0;
  system_execute_syscall := None;
  system_wait_wfi_event := skip;
  system_notify_wfi_event := skip
}.
Lemma clock_device {A} (m : M (machine (mem_env Z)) SimulationTrap A) (I : mem_env Z -> Prop) Q :
  (forall s, exists a x, m s = (Ret a, Machine (core s) (set_devices x (env s))) /\ Q a) ->
  (forall e x, I e -> I (set_devices x e)) -> device_op I (fun _ => False) m Q.
Proof.
  intros Hm HI. split; [| split].
  - intros s e s' E. destruct (Hm s) as (a & x & Hs & _). rewrite Hs in E. done.
  - intros s. destruct (Hm s) as (a & x & -> & _). done.
  - intros s Hs. destruct (Hm s) as (a & x & -> & HQ). split; [done |]. split; [by apply HI | done].
Qed.

Lemma clock_same (s : machine (mem_env Z)) : s = Machine (core s) (set_devices (devices (env s)) (env s)).
Proof. by destruct s as [? []]. Qed.

Lemma mmu_ok_empty m : tlb (default MMU_new m) = tlb_flushed -> mmu_ok m.
Proof.
  intros E mode type idx. rewrite E. unfold tlb_get, tlb_flushed.
  rewrite lookup_empty. by apply is_uint_literal.
Qed.
Lemma mmu_ok_None : mmu_ok None.
Proof. by apply mmu_ok_empty. Qed.

(** With and without translation. *)
Record clock_ok (translated : bool) (e : mem_env Z) : Prop := {
  clock_heap : heap_ok (mem_heap e);
  clock_dmi : Forall (dmi_in (mem_heap e)) (dmi_ranges e);
  clock_mmu : mmu_ok (mmu e);
  clock_translation : translated = false -> mmu e = None
}.

Section contract.
Context (translated : bool) {xlen : Z} {misa_inv : Z -> Prop} `{core_type xlen misa_inv}.

Abbreviation inv := (clock_ok translated).
Abbreviation never := (fun _ : failure => False).

Lemma clock_ok_devices e x : inv e -> inv (set_devices x e).
Proof. by intros [? ? ?]. Qed.

Lemma clock_skip (Q : unit -> Prop) : Q tt -> device_op inv never skip Q.
Proof.
  intros HQ. apply clock_device; [| exact clock_ok_devices].
  intros s. exists tt, (devices (env s)). split; [by rewrite <- clock_same | done].
Qed.

Lemma clock_wait : core_wait xlen misa_inv inv never (skip (S := machine (mem_env Z))).
Proof. intros s Hc Hs. split; [done | by left]. Qed.

Definition clock_system_safe : (translated = false -> xlen = 32) -> system_safe xlen misa_inv Z.
Proof.
  intros Hwidth.
  refine {| sys_ok := inv; sys_fails := never; phys_width := if translated then 64 else xlen |};
    try done.
  - destruct translated eqn:Ht; [by left |]. right. split; [done |]. intros e He. by apply He.
  - by intros e [].
  - by intros e [].
  - by intros e [].
  - intros e e' [Hh Hd Hm Ht] (Hsh & Hh' & Hr & Hm' & _) Hmmu.
    constructor; [done | | done |].
    + rewrite Hr. eapply Forall_impl; [exact Hd |]. intros d. by apply dmi_in_shape.
    + intros Hf. rewrite Hf in Hmmu. destruct Hmmu as [Hw| ->]; [| auto].
      rewrite (Hwidth Hf) in Hw. done.
  - intros t d s (_ & _ & _ & Hb) Hc Hs. cbn. split; [done |]. split; [done |]. split; [by left | done].
  - apply clock_device; [| exact clock_ok_devices]. intros s.
    exists (devices (env s)), (devices (env s)). split; [| done]. by rewrite <- clock_same.
  - intros t. apply clock_device; [| exact clock_ok_devices]. intros s. by exists tt, t.
  - intros t. apply clock_device; [| exact clock_ok_devices]. intros s. by eexists tt, _.
  - apply clock_device; [| exact clock_ok_devices]. intros s. exists false, (devices (env s)).
    by rewrite <- clock_same.
  - by apply clock_skip.
  - apply clock_device; [| exact clock_ok_devices]. intros s. exists 0, (devices (env s)).
    split; [by rewrite <- clock_same | by apply is_uint_literal].
  - by apply clock_skip.
  - apply clock_wait.
  - apply clock_wait.
  - apply clock_wait.
Defined.
End contract.

#[export] Instance clock_system_ok : system_ok Z := clock_system_safe false (fun _ => eq_refl).

#[export] Instance clock_no_mmu : no_mmu Z.
Proof. done. Qed.
