(* ===== verification/MemIfDmi.v ===== *)
(** * The memory interface in front of directly accessible memory

    When the only memory range of the interface is an array of the host, loads
    and stores within it are reads and writes of the array.  This gives the
    functional behaviour of LR/SC, and makes the interface an instance of
    [pte_memory], against which the address translation is proved. *)

From S2P Require Import Prelude Instr Trap Csr Iss IssLogic IssInv Memory Bus Mmu MmuSpec MmuTlb MemIf MemIfSafe ClockSystem.

(** A system whose local time and waiting processes are part of the devices. *)
Class prompt_system (X : Type) `{system X} : Prop := {
  quantum_inc_prompt t s : exists x,
    quantum_inc t s = (Ret tt, Machine (core s) (set_devices x (env s)));
  notify_lock_prompt s : exists x,
    notify_lock_event s = (Ret tt, Machine (core s) (set_devices x (env s)))
}.

(** The host memory with the range, and a lock that lets the hart through. *)
Definition may_access {X} (s : machine (mem_env X)) : Prop :=
  locked (bus_lock (env s)) = false \/
  owner (bus_lock (env s)) = csr_get (csr_regs (core s)) csrs.mhartid.

Record dmi_backed {X} (d : MemoryDMI) (e : mem_env X) : Prop := {
  backed_ranges : dmi_ranges e = [d];
  backed_in : dmi_in (mem_heap e) d;
  backed_heap : heap_ok (mem_heap e)
}.

Definition word_at {X} (T : int_type) (d : MemoryDMI) (a : Z) (e : mem_env X) : Z :=
  from_bytes T (peek (mem_heap e) (dmi_mem d) (a - dmi_start d) (Z.of_nat (sizeof T))).

Definition write_at {X} (T : int_type) (d : MemoryDMI) (a v : Z) (e : mem_env X) : mem_env X :=
  set_mem_heap (poke (dmi_mem d) (a - dmi_start d) (to_bytes T v) (mem_heap e)) e.

Definition set_env {W} (f : W -> W) (s : machine W) : machine W := Machine (core s) (f (env s)).

(** The lock when the hart has released it. *)
Definition release {X} (e : mem_env X) : mem_env X :=
  set_bus_lock (mkBusLock false (owner (bus_lock e))) e.

Section dmi.
Context {X : Type} `{Hq : prompt_system X} (d : MemoryDMI).

Lemma access_granted s : may_access s -> bus_lock_wait_for_access_rights s = (Ret tt, s).
Proof.
  intros Hm. unfold bus_lock_wait_for_access_rights, wait_for_access_rights, hart_id, read, gets.
  unfold mbind, M_bind. unfold is_locked, is_locked_by, lock_of.
  destruct Hm as [-> | ->]; [done |]. rewrite Z.eqb_refl. by destruct (locked _).
Qed.

Lemma unlock_released s : may_access s ->
  exists x, mem_atomic_unlock s = (Ret tt, set_env (fun e => set_devices x (release e)) s).
Proof using Type*.
  intros Hm. unfold mem_atomic_unlock, unlock, hart_id, read, gets.
  unfold mbind at 1, M_bind at 1. unfold mbind at 1, M_bind at 1. unfold lock_of.
  destruct s as [c [h [l o] lr r m x]]. unfold may_access in Hm. cbn [core env bus_lock locked owner] in *.
  destruct l; cbn [andb].
  - destruct Hm as [?|Ho]; [done |]. rewrite (proj2 (Z.eqb_eq _ _) Ho). cbn [when].
    unfold mbind, M_bind, modify. edestruct notify_lock_prompt as [y ->]. by exists y.
  - by exists x.
Qed.

Lemma fits_contains T a : dmi_fits T d a -> dmi_contains d a = true.
Proof. unfold dmi_fits, dmi_contains. destruct T; simpl; lia. Qed.

Lemma fits_uint h T a : dmi_in h d -> dmi_fits T d a -> is_uint 64 a.
Proof. intros [? ? [? ?] ? ?]. unfold dmi_fits, is_uint. destruct T; simpl; lia. Qed.

Lemma raw_load_dmi T a s :
  dmi_backed d (env s) -> may_access s -> dmi_fits T d a ->
  exists x, _raw_load_data T a s = (Ret (word_at T d a (env s)), set_env (set_devices x) s).
Proof using Type*.
  intros [Hr Hd _] Hm Hf. pose proof (fits_uint _ _ _ Hd Hf) as Ha.
  unfold _raw_load_data. unfold mbind at 1, M_bind at 1.
  rewrite access_granted by done. unfold mbind at 1, M_bind at 1, env_get, gets. rewrite Hr.
  cbn [find_dmi]. rewrite (fits_contains T) by done.
  destruct (quantum_inc_prompt dmi_access_delay s) as [x Hx]. exists x.
  unfold mbind at 1, M_bind at 1. rewrite Hx. unfold on_heap. cbn [core env mem_heap set_devices].
  rewrite dmi_load_fits by done. done.
Qed.

Lemma raw_store_dmi T a v s :
  dmi_backed d (env s) -> may_access s -> dmi_fits T d a ->
  exists x, _raw_store_data T a v s
    = (Ret tt, set_env (fun e => set_devices x (release (write_at T d a v e))) s).
Proof using Type*.
  intros [Hr Hd _] Hm Hf. pose proof (fits_uint _ _ _ Hd Hf) as Ha.
  unfold _raw_store_data. unfold mbind at 1, M_bind at 1.
  rewrite access_granted by done. unfold mbind at 1, M_bind at 1, env_get, gets. rewrite Hr.
  cbn [store_dmi]. rewrite (fits_contains T) by done.
  destruct (quantum_inc_prompt dmi_access_delay s) as [x Hx].
  unfold mbind at 1, M_bind at 1. unfold mbind at 1, M_bind at 1. rewrite Hx.
  unfold mbind at 1, M_bind at 1, on_heap. cbn [core env mem_heap set_devices].
  rewrite dmi_store_fits by done. cbn [fst snd negb when mret M_ret].
  unfold mbind at 1, M_bind at 1. cbn [skip mret M_ret].
  edestruct unlock_released as [y ->]; [| by exists y]. exact Hm.
Qed.

(** What the range holds after a store. *)
Lemma word_at_write T a v U b (e : mem_env X) :
  dmi_backed d e -> dmi_fits T d a -> dmi_fits U d b ->
  (b = a /\ sizeof U = sizeof T ->
   word_at U d b (write_at T d a v e) = to_type U v) /\
  (a + Z.of_nat (sizeof T) <= b \/ b + Z.of_nat (sizeof U) <= a ->
   word_at U d b (write_at T d a v e) = word_at U d b e).
Proof.
  intros [_ Hd _] Hf Hf'. pose proof (dmi_in_bounds _ _ _ _ Hd Hf) as Hb.
  pose proof (proj1 Hf) as ?. pose proof (proj1 Hf') as ?. unfold word_at, write_at.
  cbn [mem_heap set_mem_heap]. split.
  - intros [-> Hs]. rewrite Hs, <- (length_to_bytes T v), peek_poke by by rewrite length_to_bytes.
    by apply from_to_bytes.
  - intros Hdis. rewrite peek_poke_frame; [done | lia | lia | lia |].
    rewrite length_to_bytes. right. lia.
Qed.

Lemma backed_write T a v (e : mem_env X) : dmi_backed d e -> dmi_fits T d a -> dmi_backed d (write_at T d a v e).
Proof.
  intros [Hr Hd Hh] Hf. constructor; [done | |].
  - eapply dmi_in_shape; [apply same_shape_poke, Hd | done].
  - apply heap_ok_poke; [done | apply le_bytes_ok].
Qed.

Lemma backed_proper (e e' : mem_env X) :
  dmi_ranges e' = dmi_ranges e -> mem_heap e' = mem_heap e -> dmi_backed d e -> dmi_backed d e'.
Proof. intros Er Eh [Hr Hd Hh]. constructor; by rewrite ?Er, ?Eh. Qed.

(** ** Page tables in the range *)

Definition fits_dec T a : Decision (dmi_fits T d a) := and_dec (Z_le_dec _ _) (Z_le_dec _ _).
#[local] Existing Instance fits_dec.

Definition table_inv (s : machine (mem_env X)) : Prop :=
  dmi_backed d (env s) /\ locked (bus_lock (env s)) = false.

Definition table_entry (s : machine (mem_env X)) (a : Z) : Z :=
  if decide (dmi_fits uint32_t d a) then word_at uint32_t d a (env s) else 0.

Lemma table_inv_env (f : mem_env X -> mem_env X) s :
  (forall e, dmi_ranges (f e) = dmi_ranges e) -> (forall e, mem_heap (f e) = mem_heap e) ->
  (forall e, bus_lock (f e) = bus_lock e) -> table_inv s -> table_inv (set_env f s).
Proof.
  intros Hr Hh Hl [Hb Hf]. split.
  { apply (backed_proper (env s)); [apply Hr | apply Hh | done]. }
  unfold set_env. cbn [env]. by rewrite Hl.
Qed.

Lemma release_free (e : mem_env X) : locked (bus_lock e) = false -> release e = e.
Proof. destruct e as [h [l o] ????]. cbn. by intros ->. Qed.

#[local] Arguments word_at : simpl never.
#[export] Instance dmi_tables : pte_memory (machine (mem_env X)) 4.
Proof using Type* d.
  refine {| mem_inv := table_inv; pte_at := table_entry; accessible := dmi_fits uint32_t d |};
    change (4 =? 4) with true; cbv iota.
  - intros s a _. unfold table_entry. case_decide; [| by apply is_uint_literal].
    apply (to_type_in uint32_t).
  - intros s a [Hb Hl] Hf _. change (mmu_load_pte32 a s) with (_raw_load_data uint32_t a s).
    destruct (raw_load_dmi uint32_t a s Hb ltac:(by left) Hf) as [x ->]. eexists. split.
    + unfold table_entry. by rewrite decide_True.
    + split; [| by repeat split]. apply (table_inv_env (set_devices x)); done || by split.
  - intros s a v [Hb Hl] Hf Ha Hv. change (mmu_store_pte32 a v s) with (_raw_store_data uint32_t a v s).
    destruct (raw_store_dmi uint32_t a v s Hb ltac:(by left) Hf) as [x ->]. eexists. split; [done |].
    unfold set_env. rewrite release_free by done. split; [| split; [done | split; [done |]]].
    + split; [| done]. apply (backed_proper (write_at uint32_t d a v (env s))); [done | done |].
      by apply backed_write.
    + intros b Hbm. unfold table_entry, set_env. cbn [env].
      assert (Hdev : forall e, word_at uint32_t d b (set_devices x e) = word_at uint32_t d b e) by done.
      rewrite Hdev. destruct (Z.eqb_spec b a) as [->|Hne].
      * rewrite !(decide_True _ _ Hf). rewrite (proj1 (word_at_write uint32_t a v uint32_t a _ Hb Hf Hf)) by done.
        rewrite to_type_id by done. unfold replace_low.
        assert (Hw : is_uint 32 (word_at uint32_t d a (env s))) by apply (to_type_in uint32_t).
        rewrite Z.div_small by exact Hw. lia.
      * case_decide as Hfb; [| done]. apply (word_at_write uint32_t a v uint32_t b _ Hb Hf Hfb).
        change (Z.of_nat (sizeof uint32_t)) with 4.
        pose proof (Z.div_mod a 4 ltac:(done)). pose proof (Z.div_mod b 4 ltac:(done)). lia.
  - intros s t Hs. destruct (quantum_inc_prompt t s) as [x Hx]. eexists. split; [exact Hx |].
    split; [by apply (table_inv_env (set_devices x)) | by repeat split].
  - intros s m Hs. split; [by apply (table_inv_env (set_mem_mmu (Some m))) | by repeat split].
Defined.

End dmi.

(** ** Loads, stores and LR/SC *)

Section accesses.
Context {X : Type} `{Hq : prompt_system X} (d : MemoryDMI).

(** A core without an MMU, whose hart has access to the memory. *)
Record direct (s : machine (mem_env X)) : Prop := {
  direct_backed : dmi_backed d (env s);
  direct_mmu : mmu (env s) = None;
  direct_access : may_access s
}.

Lemma load_direct T a s : direct s -> dmi_fits T d a ->
  exists x, _load_data T a s = (Ret (word_at T d a (env s)), set_env (set_devices x) s).
Proof using Type*.
  intros [Hb Hm Ha] Hf. unfold _load_data, v2p, env_get, gets. unfold mbind at 1, M_bind at 1.
  unfold mbind at 1, M_bind at 1. rewrite Hm. by apply raw_load_dmi.
Qed.

Lemma store_direct T a v s : direct s -> dmi_fits T d a ->
  exists x, _store_data T a v s
    = (Ret tt, set_env (fun e => set_devices x (release (write_at T d a v e))) s).
Proof using Type*.
  intros [Hb Hm Ha] Hf. unfold _store_data, v2p, env_get, gets. unfold mbind at 1, M_bind at 1.
  unfold mbind at 1, M_bind at 1. rewrite Hm. by apply raw_store_dmi.
Qed.

Definition hart (s : machine (mem_env X)) : Z := csr_get (csr_regs (core s)) csrs.mhartid.

(** The lock taken by the hart, and the reservation. *)
Definition take_lock (s : machine (mem_env X)) : mem_env X -> mem_env X :=
  set_bus_lock (mkBusLock true (hart s)).

Lemma lock_granted s : may_access s -> bus_lock_lock s = (Ret tt, set_env (take_lock s) s).
Proof using Type.
  intros Hm. unfold bus_lock_lock, lock, hart_id, read, gets. unfold mbind, M_bind.
  unfold lock_of, take_lock, with_lock, modify. destruct Hm as [Hl|Ho].
  - rewrite Hl. cbn [andb negb orb when skip mret M_ret assert]. unfold lock_of.
    rewrite Hl. done.
  - rewrite Ho. unfold hart. rewrite Z.eqb_refl. rewrite andb_false_r. cbn [when skip mret M_ret].
    unfold lock_of. rewrite Ho, Z.eqb_refl, orb_true_r. done.
Qed.

Lemma direct_env (f : mem_env X -> mem_env X) s :
  (forall e, mem_heap (f e) = mem_heap e /\ dmi_ranges (f e) = dmi_ranges e /\ mmu (f e) = mmu e) ->
  may_access (set_env f s) -> direct s -> direct (set_env f s).
Proof using Type.
  intros Hf Hm [Hb Hn _]. destruct (Hf (env s)) as (Hh & Hr & Hu). constructor; [| | done].
  - by apply (backed_proper d (env s)).
  - unfold set_env. cbn [env]. by rewrite Hu.
Qed.

Lemma load_reserved_direct a s : direct s -> dmi_fits int32_t d a ->
  exists x, mem_atomic_load_reserved_word a s
    = (Ret (word_at int32_t d a (env s)),
       set_env (fun e => set_devices x (set_lr_addr a (take_lock s e))) s).
Proof using Type*.
  intros Hd Hf. unfold mem_atomic_load_reserved_word. unfold mbind at 1, M_bind at 1.
  rewrite lock_granted by apply Hd. unfold mbind at 1, M_bind at 1, env_update, modify.
  set (s1 := Machine _ _).
  assert (Hd1 : direct s1).
  { apply (direct_env (fun e => set_lr_addr a (take_lock s e)) s); [done | by right | done]. }
  destruct (load_direct int32_t a s1 Hd1 Hf) as [x ->]. by exists x.
Qed.

Lemma store_conditional_direct a v s : direct s -> dmi_fits uint32_t d a ->
  locked (bus_lock (env s)) = true ->
  exists x, mem_atomic_store_conditional_word a v s
    = if a =? lr_addr (env s)
      then (Ret true, set_env (fun e => set_devices x (release (write_at uint32_t d a v e))) s)
      else (Ret false, set_env (fun e => set_devices x (release e)) s).
Proof using Type*.
  intros Hd Hf Hl. pose proof (direct_access _ Hd) as [Hl'|Ho]; [congruence |].
  unfold mem_atomic_store_conditional_word, bus_lock_is_locked_by_me, hart_id, read, gets.
  unfold mbind at 1, M_bind at 1. unfold mbind at 1, M_bind at 1. unfold is_locked_by, lock_of.
  rewrite Hl, Ho, Z.eqb_refl. cbn [andb]. unfold mbind at 1, M_bind at 1, env_get, gets.
  destruct (a =? lr_addr (env s)); unfold mbind at 1, M_bind at 1.
  - destruct (store_direct uint32_t a v s Hd Hf) as [x ->]. by exists x.
  - destruct (unlock_released s (direct_access _ Hd)) as [x ->]. by exists x.
Qed.

End accesses.

(** C13: LR/SC.  On directly accessible memory LR.W returns the word at its
    address, takes the bus lock and reserves the address.  SC.W after it stores
    its value, reports success and releases the lock if the address is the
    reserved one, and stores nothing, reports failure and releases the lock if
    it is another; without the lock it does nothing but report failure. *)
Theorem lr_sc_pair {X} `{prompt_system X} (d : MemoryDMI) (s : machine (mem_env X)) a b v :
  direct d s -> locked (bus_lock (env s)) = false ->
  dmi_fits int32_t d a -> dmi_fits uint32_t d b ->
  mem_atomic_store_conditional_word b v s = (Ret false, s) /\
  exists s1 x, mem_atomic_load_reserved_word a s = (Ret (word_at int32_t d a (env s)), s1) /\
    locked (bus_lock (env s1)) = true /\ owner (bus_lock (env s1)) = hart s /\
    mem_heap (env s1) = mem_heap (env s) /\
    mem_atomic_store_conditional_word b v s1
    = if b =? a
      then (Ret true, set_env (fun e => set_devices x (release (write_at uint32_t d b v e))) s1)
      else (Ret false, set_env (fun e => set_devices x (release e)) s1).
Proof.
  intros Hd Hl Ha Hb. split.
  - unfold mem_atomic_store_conditional_word, bus_lock_is_locked_by_me, hart_id, read, gets.
    unfold mbind, M_bind, is_locked_by, lock_of. by rewrite Hl.
  - destruct (load_reserved_direct d a s Hd Ha) as [y Hy]. eexists.
    set (s1 := set_env _ s) in Hy.
    assert (Hd1 : direct d s1).
    { apply (direct_env d (fun e => set_devices y (set_lr_addr a (take_lock s e)))); [done | by right | done]. }
    destruct (store_conditional_direct d b v s1 Hd1 Hb eq_refl) as [x Hx].
    exists x. split; [exact Hy |]. done.
Qed.

(** The memory keeps what is stored.  On directly accessible memory, without
    address translation, a load after a store returns the value stored,
    converted to the type of the load, if both access the same bytes, and what
    the memory held before if they access disjoint ones. *)
Theorem load_after_store {X} `{prompt_system X} (d : MemoryDMI) (s : machine (mem_env X)) T U a b v :
  direct d s -> dmi_fits T d a -> dmi_fits U d b ->
  exists s1 s2 w, _store_data T a v s = (Ret tt, s1) /\ _load_data U b s1 = (Ret w, s2) /\
    (b = a /\ sizeof U = sizeof T -> w = to_type U v) /\
    (a + Z.of_nat (sizeof T) <= b \/ b + Z.of_nat (sizeof U) <= a ->
     exists s3, _load_data U b s = (Ret w, s3)).
Proof.
  intros Hd Ha Hb. destruct (store_direct d T a v s Hd Ha) as [x Hx].
  set (s1 := set_env _ s) in Hx.
  assert (Hd1 : direct d s1).
  { destruct Hd as [Hbk ? ?]. constructor; [| done | by left].
    by apply (backed_proper d (write_at T d a v (env s))), backed_write. }
  destruct (load_direct d U b s1 Hd1 Hb) as [y Hy].
  exists s1. do 2 eexists. split; [exact Hx |]. split; [exact Hy |].
  destruct (word_at_write d T a v U b (env s) (direct_backed _ _ Hd) Ha Hb) as [Hsame Hother].
  split; [exact Hsame |]. intros Hdis. destruct (load_direct d U b s Hd Hb) as [z Hz].
  eexists. rewrite Hz. do 2 f_equal. symmetry. by apply Hother.
Qed.

(** ** The smallest system *)

#[export] Instance clock_prompt : prompt_system Z.
Proof.
  split; intros; eexists; [reflexivity |].
  match goal with |- _ = (_, ?x) => instantiate (1 := devices (env s)) end. by destruct s as [? []].
Qed.

Definition page_dmi : MemoryDMI := mkMemoryDMI 0 0 64 64.
Definition page_machine : machine (mem_env Z) :=
  Machine (ISS_new 0 false)
    (mkMemEnv {[ 0%nat := replicate 64 1 ]} BusLock_init 0 [page_dmi] None 0).

Lemma page_machine_direct : direct page_dmi page_machine.
Proof.
  constructor; [| done | by left]. constructor; [done | |].
  - constructor; [by eexists | done | done | done | done].
  - apply map_Forall_singleton. apply Forall_replicate. by apply is_uint_literal.
Qed.

Lemma lr_sc_pair_witness :
  direct page_dmi page_machine /\
  exists s1 x, mem_atomic_load_reserved_word 8 page_machine = (Ret 0x01010101, s1) /\
    mem_atomic_store_conditional_word 8 7 s1
    = (Ret true, set_env (fun e => set_devices x (release (write_at uint32_t page_dmi 8 7 e))) s1).
Proof.
  split; [exact page_machine_direct |].
  destruct (lr_sc_pair page_dmi page_machine 8 8 7 page_machine_direct eq_refl
    ltac:(done) ltac:(done)) as (_ & s1 & x & Hl & _ & _ & _ & Hs).
  exists s1, x. split; [| exact Hs]. rewrite Hl. by vm_compute.
Defined.

Lemma load_after_store_witness :
  direct page_dmi page_machine /\
  exists s1 s2, _store_data uint8_t 8 200 page_machine = (Ret tt, s1) /\
    _load_data int8_t 8 s1 = (Ret (-56), s2).
Proof.
  split; [exact page_machine_direct |].
  destruct (load_after_store page_dmi page_machine uint8_t int8_t 8 8 200 page_machine_direct
    ltac:(done) ltac:(done)) as (s1 & s2 & w & Hs & Hl & Hw & _).
  exists s1, s2. split; [exact Hs |]. rewrite Hl. rewrite (Hw ltac:(done)). by vm_compute.
Defined.

Lemma memory_access_safe_witness :
  is_uint 32 8 /\ exists v s', _load_data int32_t 8 page_machine = (Ret v, s') /\ is_sint 32 v.
Proof.
  assert (Ha : is_uint 32 8) by by apply is_uint_literal. split; [exact Ha |].
  assert (Hs : sys_ok (env page_machine)).
  { destruct (direct_backed _ _ page_machine_direct) as [Hr Hd Hh]. constructor; [done | | exact mmu_ok_None | done].
    rewrite Hr. by constructor. }
  pose proof (proj1 (memory_access_safe (X := Z) 8 0 Ha) int32_t page_machine
    (ISS_new_ok 0 false ltac:(by apply is_uint_literal)) I Hs) as Hl.
  assert (E : fst (_load_data int32_t 8 page_machine) = Ret 0x01010101) by by vm_compute.
  destruct (_load_data int32_t 8 page_machine) as [r s']. cbn [fst] in E. rewrite E in Hl |- *.
  exists 0x01010101, s'. split; [done | apply Hl].
Defined.
