(* ===== verification/MmuExample.v ===== *)
(** * An address translation, run

    A core in supervisor mode behind the memory interface, whose page table is
    one superpage entry in directly accessible memory: the theorems on the walk
    and the TLB at a concrete machine. *)

From S2P Require Import Prelude Instr Trap Csr Iss IssLogic IssInv Memory Bus Mmu MmuSpec MmuTlb MemIf ClockSystem MemIfDmi.

(** The entry maps the first 4 MB to themselves: D, A, X, W, R and V are set. *)
Definition table_dmi : MemoryDMI := mkMemoryDMI 0 0 4 4.
Definition sv32_machine : machine (mem_env Z) :=
  Machine
    (set_prv SupervisorMode
      (set_csr_regs (csr_set csrs.satp 0x80000000 csr_table_init) (ISS_new 0 false)))
    (mkMemEnv {[ 0%nat := [0xcf; 0; 0; 0] ]} BusLock_init 0 [table_dmi] (Some MMU_new) 0).
Definition sv32_vm : vm_info := mkVmInfo 2 10 4 0.

#[local] Existing Instance dmi_tables.
#[local] Instance table_memory : pte_memory (machine (mem_env Z)) 4 := dmi_tables table_dmi.

Lemma sv32_machine_inv : mem_inv sv32_machine.
Proof.
  split; [| done]. constructor; [done | |].
  - constructor; [by eexists | done | done | done | done].
  - apply map_Forall_singleton. by repeat (constructor; [by apply is_uint_literal |]).
Qed.

Lemma sv32_vm_ok : vm_info_ok xlen sv32_vm.
Proof. constructor; try done. by left. Qed.

Lemma sv32_accessible : tables_accessible (pte_at sv32_machine) sv32_vm 0x1234 2 0.
Proof.
  split; [by split |]. intros _ Hl. exfalso. apply Hl. left. by vm_compute.
Qed.

Lemma walk_refines_tables_witness :
  exists s', walk 0x1234 LOAD SupervisorMode sv32_machine = (Ret 0x1234, s') /\
    exists i a pte, accesses sv32_machine sv32_vm SupervisorMode LOAD 0x1234 i a pte.
Proof.
  pose proof (walk_refines_tables sv32_vm 0x1234 LOAD SupervisorMode sv32_machine sv32_machine_inv
    ltac:(by vm_compute) sv32_vm_ok eq_refl ltac:(done) sv32_accessible) as Hw.
  assert (E : fst (walk 0x1234 LOAD SupervisorMode sv32_machine) = Ret 0x1234) by by vm_compute.
  destruct (walk 0x1234 LOAD SupervisorMode sv32_machine) as [r s']. cbn [fst] in E. rewrite E in Hw.
  destruct Hw as (i & a & pte & Ha & _). exists s'. split; [by rewrite E |]. by exists i, a, pte.
Defined.

(** The only entry of the table is the superpage. *)
Lemma table_entry_cases a : pte_at sv32_machine a = 0xcf \/ pte_at sv32_machine a = 0.
Proof.
  change (pte_at sv32_machine a) with (table_entry table_dmi sv32_machine a).
  unfold table_entry. case_decide as Hf; [left | by right].
  assert (a = 0) as -> by (destruct Hf as [H1 H2]; simpl in H1, H2; lia). by vm_compute.
Qed.

Lemma sv32_below_4GB : below_4GB sv32_machine sv32_vm.
Proof.
  intros v i a pte Hl. destruct (leaf_at_entry _ _ _ _ _ _ _ _ Hl) as [Hp Hleaf].
  assert (i = 1%nat) as ->.
  { change (Z.to_nat (levels sv32_vm)) with 2%nat in Hl. inversion Hl; subst; [done |].
    match goal with H : ~ pte_leaf ?e, V : pte_valid ?e |- _ =>
      destruct (table_entry_cases (entry_address sv32_vm (ptbase sv32_vm) v 1)) as [E|E];
      rewrite E in H, V end.
    - exfalso. match goal with H : ~ _ |- _ => apply H end. by left.
    - by match goal with H : pte_valid 0 |- _ => destruct H end. }
  unfold physical_address. destruct (table_entry_cases a) as [E|E]; rewrite Hp, E.
  - change (pte_ppn 0xcf) with 0. change (2 ^ (Z.of_nat 1 * idxbits sv32_vm)) with 1024.
    pose proof (Z.mod_pos_bound (v / 4096) 1024 ltac:(done)). pose proof (Z.mod_pos_bound v 4096 ltac:(done)).
    unfold uint64. rewrite uint_id by (unfold is_uint; lia). lia.
  - rewrite Hp, E in Hleaf. by destruct Hleaf.
Qed.

Lemma tlb_transparent_witness :
  exists s', translate_virtual_to_physical_addr 0x1234 LOAD sv32_machine = (Ret 0x1234, s') /\
    translates sv32_machine sv32_vm SupervisorMode LOAD 0x1234 0x1234 /\ mmu_ready s' sv32_vm.
Proof.
  assert (Hr : mmu_ready sv32_machine sv32_vm).
  { constructor; [exact sv32_machine_inv | by vm_compute | by apply tlb_ok_flushed | exact sv32_below_4GB]. }
  pose proof (tlb_transparent sv32_vm 0x1234 LOAD sv32_machine Hr sv32_vm_ok eq_refl
    ltac:(by vm_compute) ltac:(by right; vm_compute) ltac:(by apply is_uint_literal) sv32_accessible) as Ht.
  assert (E : fst (translate_virtual_to_physical_addr 0x1234 LOAD sv32_machine) = Ret 0x1234)
    by by vm_compute.
  destruct (translate_virtual_to_physical_addr 0x1234 LOAD sv32_machine) as [r s'].
  cbn [fst] in E. rewrite E in Ht. exists s'. rewrite E. split; [done |].
  assert (Hm : access_mode sv32_machine LOAD = SupervisorMode) by by vm_compute.
  rewrite Hm in Ht. exact Ht.
Defined.
