(* ===== verification/MemoryMap.v ===== *)
(** * Register ranges

    Models util/memory_map.h: RegisterRange, the bytes of memory mapped registers
    with their callbacks; IntegerView and ArrayView, integers within them; and
    [route], the dispatch of a transaction to the range that contains its
    address.  The bytes of a range are part of the state of the device, which the
    range reads and replaces with [rr_mem] and [rr_set_mem]. *)

From S2P Require Import Prelude Memory.

(** ReadInfo and WriteInfo, with the address relative to the range. *)
Record AccessInfo : Type := mkAccessInfo {
  info_addr : Z;
  info_size : Z;
  info_trans : tlm_generic_payload;
  info_delay : Z
}.

(** An exception that a device throws ends the simulation. *)
Definition ensure {S E} (cond : bool) : M S E unit := if cond then skip else fatal RuntimeError.

Section RegisterRange.
Context {S E : Type}.

Record RegisterRange : Type := mkRegisterRange {
  rr_start : Z;
  rr_end : Z;
  rr_mem : S -> list Z;
  rr_set_mem : list Z -> S -> S;
  rr_readonly : bool;
  rr_alignment : Z;
  pre_write_callback : option (AccessInfo -> M S E bool);
  post_write_callback : option (AccessInfo -> M S E unit);
  pre_read_callback : option (AccessInfo -> M S E bool);
  post_read_callback : option (AccessInfo -> M S E unit)
}.

(** The constructor, for a range whose bytes are at the given place of the state. *)
Definition RegisterRange_new (get : S -> list Z) (set : list Z -> S -> S) (start size : Z) :
    M S E RegisterRange :=
  assert (0 <? size) ;;
  let end_ := uint64 (start + size - 1) in
  assert (start <=? end_) ;;
  modify (set (replicate (Z.to_nat size) 0)) ;;
  mret (mkRegisterRange start end_ get set false 1 None None None None).

Implicit Types r : RegisterRange.

Definition range_contains r (addr : Z) : bool := (rr_start r <=? addr) && (addr <=? rr_end r).
Definition to_local r (addr : Z) : Z := uint64 (addr - rr_start r).
Definition rr_size (s : S) r : Z := Z.of_nat (length (rr_mem r s)).

Definition run_pre (c : option (AccessInfo -> M S E bool)) (i : AccessInfo) : M S E bool :=
  match c with Some f => f i | None => mret true end.
Definition run_post (c : option (AccessInfo -> M S E unit)) (i : AccessInfo) : M S E unit :=
  match c with Some f => f i | None => skip end.

(** The check of both accesses. *)
Definition range_check r (addr len : Z) : M S E Z :=
  assert (range_contains r addr) ;;
  let local_addr := to_local r addr in
  size ← gets (fun s => rr_size s r);
  assert (uint64 (local_addr + len) <=? size) ;;
  mret local_addr.

Definition range_write r (addr : Z) (src : list Z) (trans : tlm_generic_payload) (delay : Z) :
    M S E unit :=
  let len := Z.of_nat (length src) in
  local_addr ← range_check r addr len;
  let info := mkAccessInfo local_addr len trans delay in
  go ← run_pre (pre_write_callback r) info;
  if (go : bool) then
    modify (fun s => rr_set_mem r (list_inserts (Z.to_nat local_addr) src (rr_mem r s)) s) ;;
    run_post (post_write_callback r) info
  else skip.

(** The buffer keeps its contents if the callback before the read refuses it. *)
Definition range_read r (addr : Z) (dst : list Z) (trans : tlm_generic_payload) (delay : Z) :
    M S E (list Z) :=
  let len := Z.of_nat (length dst) in
  local_addr ← range_check r addr len;
  let info := mkAccessInfo local_addr len trans delay in
  go ← run_pre (pre_read_callback r) info;
  if (go : bool) then
    bs ← gets (fun s => take (length dst) (drop (Z.to_nat local_addr) (rr_mem r s)));
    run_post (post_read_callback r) info ;;
    mret bs
  else mret dst.

Definition range_match r (trans : tlm_generic_payload) : bool := range_contains r (address trans).

Definition range_process r (trans : tlm_generic_payload) (delay : Z) : M S E tlm_generic_payload :=
  ensure ((address trans mod rr_alignment r =? 0) && (data_length trans mod rr_alignment r =? 0)) ;;
  match command trans with
  | TLM_READ_COMMAND =>
      bs ← range_read r (address trans) (payload_data trans) trans delay;
      mret (set_payload_data bs trans)
  | TLM_WRITE_COMMAND =>
      ensure (negb (rr_readonly r)) ;;
      range_write r (address trans) (payload_data trans) trans delay ;; mret trans
  | TLM_IGNORE_COMMAND => fatal RuntimeError
  end.

Fixpoint route (ranges : list RegisterRange) (trans : tlm_generic_payload) (delay : Z) :
    M S E tlm_generic_payload :=
  match ranges with
  | [] => fatal RuntimeError
  | r :: ranges => if range_match r trans then range_process r trans delay else route ranges trans delay
  end.

End RegisterRange.
Arguments RegisterRange S E : clear implicits.

(** ** IntegerView and ArrayView

    A view is a range and an integer type; reads and writes go to its bytes. *)

Definition bytes_read (T : int_type) (mem : list Z) (off : nat) : Z :=
  from_bytes T (take (sizeof T) (drop off mem)).
Definition bytes_write (T : int_type) (off : nat) (v : Z) (mem : list Z) : list Z :=
  list_inserts off (to_bytes T v) mem.

Definition view_size (T : int_type) (mem : list Z) : Z := Z.of_nat (length mem) / Z.of_nat (sizeof T).

Definition elem (T : int_type) (idx : Z) (mem : list Z) : Z := bytes_read T mem (sizeof T * Z.to_nat idx).
Definition set_elem (T : int_type) (idx v : Z) (mem : list Z) : list Z :=
  bytes_write T (sizeof T * Z.to_nat idx) v mem.

Section views.
Context {S E : Type} (T : int_type).
Implicit Types r : RegisterRange S E.

Definition integer_read r : M S E Z := gets (fun s => elem T 0 (rr_mem r s)).
Definition integer_write r (v : Z) : M S E unit :=
  modify (fun s => rr_set_mem r (set_elem T 0 v (rr_mem r s)) s).

(** The accesses of [ptr] by index; they are undefined beyond the bytes. *)
Definition index_read r (idx : Z) : M S E Z :=
  mem ← gets (rr_mem r);
  if (0 <=? idx) && (idx <? view_size T mem) then mret (elem T idx mem)
  else fatal UndefinedBehaviour.
Definition index_write r (idx v : Z) : M S E unit :=
  mem ← gets (rr_mem r);
  if (0 <=? idx) && (idx <? view_size T mem) then
    modify (fun s => rr_set_mem r (set_elem T idx v (rr_mem r s)) s)
  else fatal UndefinedBehaviour.

(** [operator[]] *)
Definition array_read r (idx : Z) : M S E Z :=
  mem ← gets (rr_mem r); assert (idx <? view_size T mem) ;; index_read r idx.
Definition array_write r (idx v : Z) : M S E unit :=
  mem ← gets (rr_mem r); assert (idx <? view_size T mem) ;; index_write r idx v.

(** [at] *)
Definition array_at r (idx : Z) : M S E Z :=
  mem ← gets (rr_mem r);
  if view_size T mem <=? idx then fatal OutOfRange else index_read r idx.

End views.

(** ** Elements and bytes *)

Lemma length_set_elem T i v mem : length (set_elem T i v mem) = length mem.
Proof. apply length_inserts. Qed.

Lemma view_size_spec T mem i :
  0 <= i < view_size T mem -> (sizeof T * Z.to_nat i + sizeof T <= length mem)%nat.
Proof.
  unfold view_size. intros Hi. assert (0 < Z.of_nat (sizeof T)) by (by destruct T).
  assert ((i + 1) * Z.of_nat (sizeof T) <= Z.of_nat (length mem)); [| nia].
  pose proof (Z.mul_div_le (Z.of_nat (length mem)) (Z.of_nat (sizeof T))). nia.
Qed.

Lemma elem_set_same T U i v mem :
  sizeof U = sizeof T -> 0 <= i < view_size T mem -> elem U i (set_elem T i v mem) = to_type U v.
Proof.
  intros Hs Hi. pose proof (view_size_spec T mem i Hi). unfold elem, set_elem, bytes_read, bytes_write.
  rewrite Hs, <- (length_to_bytes T v), take_drop_inserts by (rewrite length_to_bytes; lia).
  by apply from_to_bytes.
Qed.

Lemma elem_set_other T U i j v mem :
  sizeof U = sizeof T -> 0 <= i -> 0 <= j -> i <> j -> elem U j (set_elem T i v mem) = elem U j mem.
Proof.
  intros Hs ???. unfold elem, set_elem, bytes_read, bytes_write. rewrite Hs. f_equal.
  apply take_drop_inserts_frame. rewrite length_to_bytes. nia.
Qed.

Lemma elem_range T i mem : in_type T (elem T i mem).
Proof. apply to_type_in. Qed.

Lemma view_size_set T U i v mem : view_size U (set_elem T i v mem) = view_size U mem.
Proof. unfold view_size. by rewrite length_set_elem. Qed.

Lemma set_elem_ok T i v mem : Forall byte_ok mem -> Forall byte_ok (set_elem T i v mem).
Proof.
  intros Hm. unfold set_elem, bytes_write. rewrite Forall_lookup in *. intros k x Hx.
  apply list_lookup_inserts_Some in Hx. destruct Hx as [[_ Hx]|(_ & _ & Hx)]; [by eapply Hm |].
  pose proof (le_bytes_ok (sizeof T) v) as Hb. rewrite Forall_lookup in Hb. by eapply Hb.
Qed.

(** ** Ranges *)

Section ranges.
Context {S E : Type}.
Implicit Types r : RegisterRange S E.

(** The bytes of the range in the state, and the bounds of the constructor. *)
Record range_ok (s : S) r : Prop := {
  range_get_set m : rr_mem r (rr_set_mem r m s) = m;
  range_bounds : 0 <= rr_start r <= rr_end r /\ rr_end r < 2 ^ 64;
  range_length : rr_size s r = rr_end r - rr_start r + 1
}.

Lemma RegisterRange_new_ok get set start size (s : S) :
  (forall m, get (set m s) = m) -> (forall m m', get (set m (set m' s)) = m) ->
  0 <= start -> 0 < size -> start + size <= 2 ^ 64 ->
  exists r s', RegisterRange_new (E := E) get set start size s = (Ret r, s') /\
    range_ok s' r /\ rr_start r = start /\ rr_end r = start + size - 1 /\
    rr_mem r s' = replicate (Z.to_nat size) 0 /\ rr_readonly r = false /\ rr_alignment r = 1.
Proof.
  intros Hg Hgg Hs Hn Hb. unfold RegisterRange_new, mbind, M_bind.
  destruct (Z.ltb_spec 0 size); [| lia]. cbn [assert skip mret M_ret].
  unfold uint64. rewrite uint_id by (unfold is_uint; lia).
  destruct (Z.leb_spec start (start + size - 1)); [| lia]. cbn [assert skip mret M_ret].
  do 2 eexists. split; [reflexivity |]. split; [| by rewrite Hg].
  split; [intros m; apply Hgg | simpl; lia |]. unfold rr_size. simpl. rewrite Hg, length_replicate. lia.
Qed.

Lemma route_first (ranges : list (RegisterRange S E)) pre r post trans delay :
  ranges = pre ++ r :: post -> range_match r trans = true ->
  Forall (fun q => range_match q trans = false) pre ->
  route ranges trans delay = range_process r trans delay.
Proof.
  intros -> Hr. induction 1 as [|q pre Hq _ IH]; cbn [route app]; [by rewrite Hr | by rewrite Hq].
Qed.

Lemma route_none (ranges : list (RegisterRange S E)) trans delay s :
  Forall (fun q => range_match q trans = false) ranges ->
  route ranges trans delay s = (Fatal RuntimeError, s).
Proof. induction 1 as [|q ranges Hq _ IH]; cbn [route]; [done | by rewrite Hq]. Qed.

Lemma range_check_eq r addr len s :
  range_ok s r -> range_contains r addr = true -> 0 <= len < 2 ^ 32 -> rr_end r + 2 ^ 32 <= 2 ^ 64 ->
  range_check r addr len s =
    (if addr + len <=? rr_end r + 1 then Ret (addr - rr_start r) else Fatal AssertFailed, s).
Proof.
  intros [_ Hb Hl] Hc Hn He. unfold range_contains in Hc. unfold range_check, gets, mbind, M_bind.
  unfold range_contains. rewrite Hc. cbn [assert skip mret M_ret]. unfold to_local, uint64.
  rewrite !uint_id by (rewrite ?uint_id; unfold is_uint; lia). rewrite Hl.
  destruct (Z.leb_spec (addr + len) (rr_end r + 1)), (Z.leb_spec (addr - rr_start r + len)
    (rr_end r - rr_start r + 1)); (done || lia).
Qed.

(** The requirements on a transaction to a range. *)
Record range_access (s : S) r (trans : tlm_generic_payload) : Prop := {
  access_ok : range_ok s r;
  access_contains : range_contains r (address trans) = true;
  access_aligned_addr : address trans mod rr_alignment r = 0;
  access_aligned_len : data_length trans mod rr_alignment r = 0;
  access_fits : address trans + data_length trans <= rr_end r + 1;
  access_small : data_length trans < 2 ^ 32 /\ rr_end r + 2 ^ 32 <= 2 ^ 64
}.

Definition access_info r (trans : tlm_generic_payload) (delay : Z) : AccessInfo :=
  mkAccessInfo (address trans - rr_start r) (data_length trans) trans delay.

Definition write_bytes r (trans : tlm_generic_payload) (s : S) : S :=
  rr_set_mem r
    (list_inserts (Z.to_nat (address trans - rr_start r)) (payload_data trans) (rr_mem r s)) s.

Definition read_bytes r (trans : tlm_generic_payload) (s : S) : list Z :=
  take (length (payload_data trans)) (drop (Z.to_nat (address trans - rr_start r)) (rr_mem r s)).

Lemma access_check s r trans :
  range_access s r trans ->
  range_check r (address trans) (data_length trans) s = (Ret (address trans - rr_start r), s).
Proof.
  intros [Hok Hc _ _ Hf [Hl He]]. rewrite range_check_eq by (done || (pose proof (data_length_nonneg trans); lia)).
  by destruct (Z.leb_spec (address trans + data_length trans) (rr_end r + 1)); [| lia].
Qed.

Lemma process_write_eq s r trans delay :
  range_access s r trans -> command trans = TLM_WRITE_COMMAND -> rr_readonly r = false ->
  pre_write_callback r = None ->
  range_process r trans delay s
  = (run_post (post_write_callback r) (access_info r trans delay) ;; mret trans) (write_bytes r trans s).
Proof.
  intros Ha Hc Hr Hp. pose proof (access_check _ _ _ Ha) as Hchk. destruct Ha as [_ _ Ha1 Ha2 _ _].
  unfold range_process, ensure. rewrite Ha1, Ha2, Hc, Hr. cbn [Z.eqb andb negb].
  unfold mbind at 1, M_bind at 1. cbn [skip mret M_ret]. unfold mbind at 1, M_bind at 1. cbn [skip mret M_ret].
  unfold mbind at 1, M_bind at 1. unfold range_write.
  unfold mbind at 1, M_bind at 1. fold (data_length trans). rewrite Hchk, Hp. cbn [run_pre].
  unfold mbind at 1, M_bind at 1. cbn [mret M_ret]. unfold mbind at 1, M_bind at 1, modify.
  reflexivity.
Qed.

Lemma process_read_eq s r trans delay :
  range_access s r trans -> command trans = TLM_READ_COMMAND -> post_read_callback r = None ->
  range_process r trans delay s
  = (go ← run_pre (pre_read_callback r) (access_info r trans delay);
     if (go : bool) then s' ← gets id; mret (set_payload_data (read_bytes r trans s') trans)
     else mret trans) s.
Proof.
  intros Ha Hc Hp. pose proof (access_check _ _ _ Ha) as Hchk. destruct Ha as [_ _ Ha1 Ha2 _ _].
  unfold range_process, ensure. rewrite Ha1, Ha2, Hc. cbn [Z.eqb andb].
  unfold mbind at 1, M_bind at 1. cbn [skip mret M_ret]. unfold mbind at 1, M_bind at 1.
  unfold range_read. unfold mbind at 1, M_bind at 1. fold (data_length trans). rewrite Hchk, Hp.
  unfold mbind, M_bind, access_info.
  destruct (run_pre _ _ s) as [[[]|e|f] s1]; cbn [run_post skip mret M_ret gets]; try done.
  destruct trans; done.
Qed.

(** An access that the checks of the range refuse. *)
Lemma process_refused s r trans delay :
  range_ok s r -> range_contains r (address trans) = true ->
  data_length trans < 2 ^ 32 -> rr_end r + 2 ^ 32 <= 2 ^ 64 ->
  address trans mod rr_alignment r <> 0 \/ data_length trans mod rr_alignment r <> 0 \/
  rr_end r + 1 < address trans + data_length trans \/
  command trans = TLM_WRITE_COMMAND /\ rr_readonly r = true \/ command trans = TLM_IGNORE_COMMAND ->
  exists f, range_process r trans delay s = (Fatal f, s) /\ (f = RuntimeError \/ f = AssertFailed).
Proof.
  intros Hok Hc Hl He Hbad. unfold range_process, ensure.
  destruct (Z.eqb_spec (address trans mod rr_alignment r) 0); [| by exists RuntimeError; auto].
  destruct (Z.eqb_spec (data_length trans mod rr_alignment r) 0); [| by exists RuntimeError; auto].
  pose proof (data_length_nonneg trans).
  pose proof (range_check_eq r (address trans) (data_length trans) s Hok Hc ltac:(lia) He) as Hchk.
  cbn [andb]. unfold mbind at 1, M_bind at 1. cbn [skip mret M_ret].
  destruct (command trans) eqn:Hcmd; [| | by exists RuntimeError; auto].
  - exists AssertFailed. unfold mbind at 1, M_bind at 1, range_read. unfold mbind at 1, M_bind at 1.
    fold (data_length trans). rewrite Hchk.
    destruct (Z.leb_spec (address trans + data_length trans) (rr_end r + 1)); [| by auto].
    exfalso. by destruct Hbad as [?|[?|[?|[[? _]|?]]]]; try done; lia.
  - destruct (rr_readonly r) eqn:Hr; [by exists RuntimeError; auto |].
    exists AssertFailed. cbn [negb]. unfold mbind at 1, M_bind at 1. cbn [skip mret M_ret].
    unfold mbind at 1, M_bind at 1, range_write. unfold mbind at 1, M_bind at 1.
    fold (data_length trans). rewrite Hchk.
    destruct (Z.leb_spec (address trans + data_length trans) (rr_end r + 1)); [| by auto].
    exfalso. by destruct Hbad as [?|[?|[?|[[_ ?]|?]]]]; try done; lia.
Qed.

(** Whole elements are written and read as the views do. *)
Lemma write_elem r T i v trans (s : S) :
  0 <= i -> address trans = rr_start r + Z.of_nat (sizeof T) * i -> payload_data trans = to_bytes T v ->
  write_bytes r trans s = rr_set_mem r (set_elem T i v (rr_mem r s)) s.
Proof.
  intros Hi Ha Hd. unfold write_bytes, set_elem, bytes_write. rewrite Hd. do 3 f_equal.
  rewrite Ha. lia.
Qed.

Lemma read_elem r T i trans (s : S) :
  0 <= i -> address trans = rr_start r + Z.of_nat (sizeof T) * i ->
  length (payload_data trans) = sizeof T ->
  from_bytes T (read_bytes r trans s) = elem T i (rr_mem r s).
Proof.
  intros Hi Ha Hd. unfold read_bytes, elem, bytes_read. rewrite Hd. do 3 f_equal. rewrite Ha. lia.
Qed.
End ranges.

(** ** Accesses by index within the bytes *)

Section accesses.
Context {S E : Type} (T : int_type).
Implicit Types r : RegisterRange S E.

Lemma ptr_read_eq r idx s : 0 <= idx < view_size T (rr_mem r s) ->
  index_read (E := E) T r idx s = (Ret (elem T idx (rr_mem r s)), s).
Proof.
  intros Hi. unfold index_read, gets, mbind, M_bind.
  assert ((0 <=? idx) = true) as -> by lia.
  by assert ((idx <? view_size T (rr_mem r s)) = true) as -> by lia.
Qed.

Lemma array_read_eq r idx s : 0 <= idx < view_size T (rr_mem r s) ->
  array_read (E := E) T r idx s = (Ret (elem T idx (rr_mem r s)), s).
Proof.
  intros Hi. unfold array_read, gets. unfold mbind at 1, M_bind at 1.
  assert ((idx <? view_size T (rr_mem r s)) = true) as -> by lia.
  unfold mbind at 1, M_bind at 1. cbn [assert skip mret M_ret]. by apply ptr_read_eq.
Qed.

Lemma array_read_out r idx s : view_size T (rr_mem r s) <= idx ->
  array_read (E := E) T r idx s = (Fatal AssertFailed, s).
Proof.
  intros Hi. unfold array_read, gets, mbind, M_bind.
  by assert ((idx <? view_size T (rr_mem r s)) = false) as -> by lia.
Qed.

Lemma array_write_eq r idx v s : 0 <= idx < view_size T (rr_mem r s) ->
  array_write (E := E) T r idx v s = (Ret tt, rr_set_mem r (set_elem T idx v (rr_mem r s)) s).
Proof.
  intros Hi. unfold array_write, index_write, gets. unfold mbind at 1, M_bind at 1.
  assert (Hb : (idx <? view_size T (rr_mem r s)) = true) by lia. rewrite Hb.
  unfold mbind, M_bind. cbn [assert skip mret M_ret]. rewrite Hb.
  by assert ((0 <=? idx) = true) as -> by lia.
Qed.
End accesses.
