(* ===== verification/Clint.v ===== *)
(** * The core local interrupt controller

    Models core/common/clint.h: the registers mtime, mtimecmp and msip, their
    callbacks, the transport of the device and the body of its thread.  The
    kernel's time and event, and the interrupt lines of the harts, are the class
    [clint_interface].  Times are in picoseconds. *)

From S2P Require Import Prelude Memory MemoryMap.

(** The bytes of the three register ranges. *)
Record CLINT : Type := mkCLINT {
  mtime_mem : list Z;
  mtimecmp_mem : list Z;
  msip_mem : list Z
}.

Class clint_interface (S E : Type) : Type := {
  NumberOfCores : nat;
  get_clint : S -> CLINT;
  set_clint : CLINT -> S -> S;
  sc_time_stamp : S -> Z;
  irq_event_notify : Z -> M S E unit;
  target_timer_interrupt : nat -> bool -> M S E unit;
  target_software_interrupt : nat -> bool -> M S E unit
}.

Definition scaler : Z := 1000000.
Definition clint_clock_cycle : Z := 10 * NS.
Definition UINT64_MAX : Z := 2 ^ 64 - 1.

Section CLINT.
Context {S E : Type} `{clint_interface S E}.

Abbreviation R := (M S E).

Definition set_mtime_mem (m : list Z) (s : S) : S :=
  set_clint (mkCLINT m (mtimecmp_mem (get_clint s)) (msip_mem (get_clint s))) s.
Definition set_mtimecmp_mem (m : list Z) (s : S) : S :=
  set_clint (mkCLINT (mtime_mem (get_clint s)) m (msip_mem (get_clint s))) s.
Definition set_msip_mem (m : list Z) (s : S) : S :=
  set_clint (mkCLINT (mtime_mem (get_clint s)) (mtimecmp_mem (get_clint s)) m) s.

(** The ranges without their callbacks, as the views see them. *)
Definition clint_range (start size : Z) (get : CLINT -> list Z) (set : list Z -> S -> S) :
    RegisterRange S E :=
  mkRegisterRange start (start + size - 1) (fun s => get (get_clint s)) set false 4 None None None None.

Definition mtime_view : RegisterRange S E := clint_range 0xbff8 8 mtime_mem set_mtime_mem.
Definition mtimecmp_view : RegisterRange S E :=
  clint_range 0x4000 (8 * Z.of_nat NumberOfCores) mtimecmp_mem set_mtimecmp_mem.
Definition msip_view : RegisterRange S E :=
  clint_range 0 (4 * Z.of_nat NumberOfCores) msip_mem set_msip_mem.

Definition CLINT_update_and_get_mtime : R Z :=
  now ← gets (fun s => sc_time_stamp s / scaler);
  mtime ← integer_read uint64_t mtime_view;
  when (mtime <? now) (integer_write uint64_t mtime_view now) ;;
  integer_read uint64_t mtime_view.

(** ** The thread *)

(** One core of the loop of [run]. *)
Definition update_timer_interrupt (i : nat) : R unit :=
  cmp ← array_read uint64_t mtimecmp_view (Z.of_nat i);
  mtime ← integer_read uint64_t mtime_view;
  if (0 <? cmp) && (cmp <=? mtime) then target_timer_interrupt i true
  else
    target_timer_interrupt i false ;;
    when ((0 <? cmp) && (cmp <? UINT64_MAX))
      (let time := uint64 (mtime * scaler) in
       let goal := uint64 (cmp * scaler) in
       irq_event_notify (uint64 (goal - time))).

Fixpoint update_timer_interrupts (i n : nat) : R unit :=
  match n with
  | O => skip
  | Datatypes.S n => update_timer_interrupt i ;; update_timer_interrupts (Datatypes.S i) n
  end.

(** The body of the loop of [run], after the wait for the event. *)
Definition clint_run : R unit :=
  CLINT_update_and_get_mtime ;; update_timer_interrupts 0 NumberOfCores.

(** ** The registers *)

Definition pre_read_mtime (t : AccessInfo) : R bool :=
  now ← gets (fun s => sc_time_stamp s + info_delay t);
  integer_write uint64_t mtime_view (now / scaler) ;;
  mret true.

Definition post_write_mtimecmp (t : AccessInfo) : R unit := irq_event_notify (info_delay t).

Definition post_write_msip (t : AccessInfo) : R unit :=
  assert (info_addr t mod 4 =? 0) ;;
  let idx := uint32 (info_addr t / 4) in
  v ← array_read uint32_t msip_view idx;
  array_write uint32_t msip_view idx (v .& 1) ;;
  v ← array_read uint32_t msip_view idx;
  target_software_interrupt (Z.to_nat idx) (negb (v =? 0)).

Definition regs_mtime : RegisterRange S E :=
  mkRegisterRange (rr_start mtime_view) (rr_end mtime_view) (rr_mem mtime_view)
    (rr_set_mem mtime_view) false 4 None None (Some pre_read_mtime) None.
Definition regs_mtimecmp : RegisterRange S E :=
  mkRegisterRange (rr_start mtimecmp_view) (rr_end mtimecmp_view) (rr_mem mtimecmp_view)
    (rr_set_mem mtimecmp_view) false 4 None (Some post_write_mtimecmp) None None.
Definition regs_msip : RegisterRange S E :=
  mkRegisterRange (rr_start msip_view) (rr_end msip_view) (rr_mem msip_view)
    (rr_set_mem msip_view) false 4 None (Some post_write_msip) None None.

Definition clint_register_ranges : list (RegisterRange S E) := [regs_mtime; regs_mtimecmp; regs_msip].

Definition clint_transport : transport_fn S E := fun trans delay =>
  let delay := delay + 2 * clint_clock_cycle in
  trans ← route clint_register_ranges trans delay; mret (trans, delay).

End CLINT.

(** The constructor: every register is zero. *)
Definition CLINT_new (cores : nat) : CLINT :=
  mkCLINT (replicate 8 0) (replicate (8 * cores) 0) (replicate (4 * cores) 0).

(** ** The environment *)

(** What the theorems use of the kernel and the harts: a call changes only the
    line or the event it names.  A notification that is pending is replaced by an
    earlier one and overrides a later one. *)
Class clint_system (S E : Type) `{clint_interface S E} : Type := {
  timer_line : S -> nat -> bool;
  software_line : S -> nat -> bool;
  irq_event_time : S -> option Z;
  same_rest s s' :=
    get_clint s' = get_clint s /\ sc_time_stamp s' = sc_time_stamp s;
  set_clint_ok c s :
    get_clint (set_clint c s) = c /\ sc_time_stamp (set_clint c s) = sc_time_stamp s /\
    timer_line (set_clint c s) = timer_line s /\ software_line (set_clint c s) = software_line s /\
    irq_event_time (set_clint c s) = irq_event_time s;
  notify_ok t s : exists s', irq_event_notify t s = (Ret tt, s') /\ same_rest s s' /\
    timer_line s' = timer_line s /\ software_line s' = software_line s /\
    irq_event_time s' = Some (match irq_event_time s with
                              | Some old => Z.min old (sc_time_stamp s + t)
                              | None => sc_time_stamp s + t
                              end);
  target_timer_ok i b s : exists s', target_timer_interrupt i b s = (Ret tt, s') /\ same_rest s s' /\
    (forall j, timer_line s' j = if decide (j = i) then b else timer_line s j) /\
    software_line s' = software_line s /\ irq_event_time s' = irq_event_time s;
  target_software_ok i b s : exists s', target_software_interrupt i b s = (Ret tt, s') /\ same_rest s s' /\
    (forall j, software_line s' j = if decide (j = i) then b else software_line s j) /\
    timer_line s' = timer_line s /\ irq_event_time s' = irq_event_time s
}.

Section timer.
Context {S E : Type} `{Hsys : clint_system S E}.
#[local] Set Default Proof Using "Type Hsys".

Definition mtime_of (s : S) : Z := elem uint64_t 0 (mtime_mem (get_clint s)).
Definition mtimecmp_of (s : S) (i : nat) : Z := elem uint64_t (Z.of_nat i) (mtimecmp_mem (get_clint s)).
Definition msip_of (s : S) (i : nat) : Z := elem uint32_t (Z.of_nat i) (msip_mem (get_clint s)).

(** The sizes of the register ranges, and a time of the kernel. *)
Record clint_ok (s : S) : Prop := {
  clint_mtime_len : length (mtime_mem (get_clint s)) = 8%nat;
  clint_mtimecmp_len : length (mtimecmp_mem (get_clint s)) = (8 * NumberOfCores)%nat;
  clint_msip_len : length (msip_mem (get_clint s)) = (4 * NumberOfCores)%nat;
  clint_time : is_uint 64 (sc_time_stamp s)
}.

(** The comparator of a hart: reached, or a time to wake up at. *)
Definition timer_due (s : S) (i : nat) : bool := (0 <? mtimecmp_of s i) && (mtimecmp_of s i <=? mtime_of s).
Definition timer_armed (s : S) (i : nat) : bool :=
  negb (timer_due s i) && (0 <? mtimecmp_of s i) && (mtimecmp_of s i <? UINT64_MAX).

Lemma mtime_size s : clint_ok s -> view_size uint64_t (mtime_mem (get_clint s)) = 1.
Proof. intros [Hl _ _ _]. unfold view_size. by rewrite Hl. Qed.

Lemma mtimecmp_size s : clint_ok s ->
  view_size uint64_t (mtimecmp_mem (get_clint s)) = Z.of_nat NumberOfCores.
Proof.
  intros [_ Hl _ _]. unfold view_size. rewrite Hl. change (Z.of_nat (sizeof uint64_t)) with 8.
  rewrite Nat2Z.inj_mul. change (Z.of_nat 8) with 8. rewrite Z.mul_comm. by apply Z.div_mul.
Qed.

Lemma msip_size s : clint_ok s ->
  view_size uint32_t (msip_mem (get_clint s)) = Z.of_nat NumberOfCores.
Proof.
  intros [_ _ Hl _]. unfold view_size. rewrite Hl. change (Z.of_nat (sizeof uint32_t)) with 4.
  rewrite Nat2Z.inj_mul. change (Z.of_nat 4) with 4. rewrite Z.mul_comm. by apply Z.div_mul.
Qed.

Lemma same_rest_ok s s' : same_rest s s' -> clint_ok s -> clint_ok s'.
Proof. intros [Hc Ht] [? ? ? ?]. constructor; by rewrite ?Hc, ?Ht. Qed.

Lemma same_rest_regs s s' i : same_rest s s' ->
  mtime_of s' = mtime_of s /\ mtimecmp_of s' i = mtimecmp_of s i /\ msip_of s' i = msip_of s i /\
  timer_due s' i = timer_due s i /\ timer_armed s' i = timer_armed s i.
Proof.
  intros [Hc _]. unfold timer_armed, timer_due, mtime_of, mtimecmp_of, msip_of. by rewrite Hc.
Qed.

Lemma same_rest_trans s1 s2 s3 : same_rest s1 s2 -> same_rest s2 s3 -> same_rest s1 s3.
Proof. intros [H1 H2] [H3 H4]. split; congruence. Qed.

(** ** update_and_get_mtime *)

Lemma update_mtime_eq s : clint_ok s ->
  exists s', CLINT_update_and_get_mtime s = (Ret (mtime_of s'), s') /\ clint_ok s' /\
    mtime_of s' = Z.max (mtime_of s) (sc_time_stamp s / scaler) /\
    (forall i, mtimecmp_of s' i = mtimecmp_of s i /\ msip_of s' i = msip_of s i) /\
    sc_time_stamp s' = sc_time_stamp s /\ timer_line s' = timer_line s /\
    software_line s' = software_line s /\ irq_event_time s' = irq_event_time s.
Proof.
  intros Hok. pose proof (mtime_size s Hok) as Hsz. pose proof (clint_time _ Hok) as Ht.
  set (now := sc_time_stamp s / scaler).
  assert (Hnow : is_uint 64 now).
  { unfold is_uint, now, scaler in *. split; [apply Z.div_pos; lia |].
    apply Z.div_lt_upper_bound; lia. }
  unfold CLINT_update_and_get_mtime, integer_read, gets. unfold mbind at 1, M_bind at 1.
  unfold mbind at 1, M_bind at 1. cbv beta iota. fold now.
  change (rr_mem mtime_view s) with (mtime_mem (get_clint s)). fold (mtime_of s).
  destruct (Z.ltb_spec (mtime_of s) now) as [Hlt|Hge]; cbn [when]; unfold mbind, M_bind.
  - unfold integer_write, modify. set (s' := rr_set_mem _ _ _).
    destruct (set_clint_ok (mkCLINT (set_elem uint64_t 0 now (mtime_mem (get_clint s)))
      (mtimecmp_mem (get_clint s)) (msip_mem (get_clint s))) s) as (Hc & Hts & Htl & Hsl & He).
    change (set_clint _ s) with s' in Hc, Hts, Htl, Hsl, He.
    assert (Hm : mtime_of s' = now).
    { unfold mtime_of. rewrite Hc. cbn [mtime_mem].
      rewrite elem_set_same by (done || (rewrite Hsz; lia)). by apply (to_type_id uint64_t). }
    exists s'. split; [done |]. split.
    { destruct Hok. constructor; rewrite ?Hc, ?Hts; cbn [mtime_mem mtimecmp_mem msip_mem]; rewrite ?length_set_elem; done. }
    split; [rewrite Hm; lia |]. split; [| done].
    intros i. unfold mtimecmp_of, msip_of. by rewrite Hc.
  - exists s. cbn [skip mret M_ret]. split; [done |]. split; [done |]. split; [lia | done].
Qed.

(** ** One core *)

Definition wake_up (s : S) (i : nat) : Z :=
  sc_time_stamp s + uint64 ((mtimecmp_of s i - mtime_of s) * scaler).

Definition earlier (e : option Z) (t : Z) : option Z :=
  Some (match e with Some old => Z.min old t | None => t end).

Lemma wake_up_eq s i :
  sc_time_stamp s + uint64 (uint64 (mtimecmp_of s i * scaler) - uint64 (mtime_of s * scaler)) = wake_up s i.
Proof.
  unfold wake_up, uint64, uint. f_equal. rewrite Z.mul_sub_distr_r. symmetry. apply Zminus_mod.
Qed.

Lemma update_timer_eq i s : clint_ok s -> (i < NumberOfCores)%nat ->
  exists s', update_timer_interrupt i s = (Ret tt, s') /\ same_rest s s' /\
    (forall j, timer_line s' j = if decide (j = i) then timer_due s i else timer_line s j) /\
    software_line s' = software_line s /\
    irq_event_time s' = if timer_armed s i then earlier (irq_event_time s) (wake_up s i)
                        else irq_event_time s.
Proof.
  intros Hok Hi. pose proof (mtimecmp_size s Hok) as Hsz.
  unfold update_timer_interrupt, array_read, index_read, integer_read, gets.
  unfold mbind at 1, M_bind at 1. unfold mbind at 1, M_bind at 1. cbv beta iota.
  change (rr_mem mtimecmp_view s) with (mtimecmp_mem (get_clint s)). rewrite Hsz.
  assert (Hb : (Z.of_nat i <? Z.of_nat NumberOfCores) = true) by lia.
  assert (H0 : (0 <=? Z.of_nat i) = true) by lia. rewrite Hb. cbn [assert].
  unfold mbind at 1, M_bind at 1. cbn [skip mret M_ret].
  unfold mbind at 1, M_bind at 1. cbv beta iota.
  change (rr_mem mtimecmp_view s) with (mtimecmp_mem (get_clint s)). rewrite Hsz, H0, Hb.
  cbn [andb mret M_ret]. fold (mtimecmp_of s i). unfold mbind at 1, M_bind at 1. cbv beta iota.
  change (elem uint64_t 0 (rr_mem mtime_view s)) with (mtime_of s). fold (timer_due s i).
  unfold timer_armed. destruct (timer_due s i) eqn:Hdue; cbn [negb andb].
  - destruct (target_timer_ok i true s) as (s' & -> & Hs & Hl & Hsw & He). by exists s'.
  - destruct (target_timer_ok i false s) as (s1 & Hs1 & Hr1 & Hl1 & Hsw1 & He1).
    unfold mbind at 1, M_bind at 1. rewrite Hs1.
    destruct ((0 <? mtimecmp_of s i) && (mtimecmp_of s i <? UINT64_MAX)); cbn [when]; [| by exists s1].
    cbv zeta.
    destruct (notify_ok (uint64 (uint64 (mtimecmp_of s i * scaler) - uint64 (mtime_of s * scaler))) s1)
      as (s2 & -> & Hr2 & Hl2 & Hsw2 & He2).
    exists s2. split; [done |]. split; [by eapply same_rest_trans |].
    split; [by rewrite Hl2 |]. split; [congruence |]. rewrite He2, He1.
    destruct Hr1 as [_ Hts]. rewrite Hts, wake_up_eq. done.
Qed.

(** ** All cores *)

Lemma update_timers_eq n : forall i s, clint_ok s -> (i + n <= NumberOfCores)%nat ->
  exists s', update_timer_interrupts i n s = (Ret tt, s') /\ same_rest s s' /\
    (forall j, timer_line s' j
               = if decide (i <= j < i + n)%nat then timer_due s j else timer_line s j) /\
    software_line s' = software_line s /\
    (forall w, irq_event_time s = Some w -> exists w', irq_event_time s' = Some w' /\ w' <= w) /\
    (forall j, (i <= j < i + n)%nat -> timer_armed s j = true ->
       exists w, irq_event_time s' = Some w /\ w <= wake_up s j).
Proof.
  induction n as [|n IH]; intros i s Hok Hi; cbn [update_timer_interrupts].
  - exists s. split; [done |]. split; [done |]. split; [intros j; by rewrite decide_False by lia |].
    split; [done |]. split; [intros w ->; exists w; split; [done | lia] | lia].
  - destruct (update_timer_eq i s Hok ltac:(lia)) as (s1 & Hs1 & Hr1 & Hl1 & Hsw1 & He1).
    unfold mbind, M_bind. rewrite Hs1.
    destruct (IH (Datatypes.S i) s1 (same_rest_ok _ _ Hr1 Hok) ltac:(lia))
      as (s2 & -> & Hr2 & Hl2 & Hsw2 & Hmono & Harm).
    assert (Hw : forall j, wake_up s1 j = wake_up s j).
    { intros j. destruct (same_rest_regs _ _ j Hr1) as (Hm & Hc & _). destruct Hr1 as [_ Ht].
      unfold wake_up. by rewrite Hm, Hc, Ht. }
    exists s2. split; [done |]. split; [by eapply same_rest_trans |]. split; [| split; [congruence |]].
    + intros j. rewrite Hl2, Hl1. destruct (same_rest_regs _ _ j Hr1) as (_ & _ & _ & -> & _).
      repeat case_decide; subst; try done; lia.
    + split.
      * intros w Hwt. destruct (timer_armed s i); [| rewrite Hwt in He1; by apply Hmono].
        rewrite Hwt in He1. destruct (Hmono _ He1) as (w' & ? & ?). exists w'. split; [done | lia].
      * intros j Hj Ha. destruct (decide (j = i)) as [->|].
        -- rewrite Ha in He1. destruct (Hmono _ He1) as (w' & ? & Hle). exists w'. split; [done |].
           destruct (irq_event_time s); lia.
        -- destruct (same_rest_regs _ _ j Hr1) as (_ & _ & _ & _ & Ha1).
           destruct (Harm j ltac:(lia) ltac:(congruence)) as (w & ? & ?). exists w.
           by rewrite <- Hw.
Qed.

(** C17: the timer interrupts.  A pass of the thread of the CLINT sets mtime to the
    time of the kernel in microseconds, unless it is already ahead, and then
    raises the timer interrupt of every hart whose comparator is not zero and
    has been reached and clears that of every other; nothing else changes.
    While the comparator of a hart is ahead, the thread is going to run again,
    and not later than when it is reached. *)
Theorem clint_timer_interrupts (s : S) :
  clint_ok s ->
  exists s', clint_run s = (Ret tt, s') /\ clint_ok s' /\
    mtime_of s' = Z.max (mtime_of s) (sc_time_stamp s / scaler) /\
    (forall i, mtimecmp_of s' i = mtimecmp_of s i) /\
    (forall i, (i < NumberOfCores)%nat ->
       (timer_line s' i = true <-> mtimecmp_of s i <> 0 /\ mtimecmp_of s i <= mtime_of s')) /\
    software_line s' = software_line s /\
    (forall i, (i < NumberOfCores)%nat -> mtime_of s' < mtimecmp_of s i < UINT64_MAX ->
       exists w, irq_event_time s' = Some w /\
         w <= sc_time_stamp s + (mtimecmp_of s i - mtime_of s') * scaler).
Proof.
  intros Hok. destruct (update_mtime_eq s Hok) as (s1 & Hs1 & Hok1 & Hm1 & Hc1 & Ht1 & Hl1 & Hsw1 & He1).
  unfold clint_run, mbind, M_bind. rewrite Hs1.
  destruct (update_timers_eq NumberOfCores 0 s1 Hok1 ltac:(lia))
    as (s2 & -> & Hr2 & Hl2 & Hsw2 & _ & Harm).
  destruct (same_rest_regs _ _ 0 Hr2) as (Hm2 & _). exists s2. split; [done |].
  split; [by eapply same_rest_ok |]. split; [congruence |].
  assert (Hcmp : forall i, mtimecmp_of s1 i = mtimecmp_of s i) by (intros i; apply Hc1).
  split. { intros i. destruct (same_rest_regs _ _ i Hr2) as (_ & -> & _). apply Hcmp. }
  assert (Hpos : forall i, 0 <= mtimecmp_of s i) by (intros i; apply (elem_range uint64_t)).
  split; [| split; [congruence |]].
  - intros i Hi. rewrite Hl2, decide_True by lia. unfold timer_due. rewrite Hm2, Hcmp.
    specialize (Hpos i). lia.
  - intros i Hi Hcmpi. destruct (Harm i ltac:(lia)) as (w & Hw & Hle).
    { unfold timer_armed, timer_due. rewrite Hcmp, <- Hm2. unfold UINT64_MAX in *.
      assert (0 <= mtime_of s2) by apply (elem_range uint64_t). lia. }
    exists w. split; [done |]. unfold wake_up in Hle. rewrite Hcmp, <- Hm2, Ht1 in Hle.
    assert (0 <= (mtimecmp_of s i - mtime_of s2) * scaler) by (unfold scaler; lia).
    pose proof (Z.mod_le ((mtimecmp_of s i - mtime_of s2) * scaler) (2 ^ 64) ltac:(done) ltac:(lia)).
    unfold uint64, uint in Hle. lia.
Qed.

(** ** Writes of the registers *)

Definition cores_ok : Prop := (NumberOfCores < 4096)%nat.

Lemma msip_range_ok s : clint_ok s -> (0 < NumberOfCores)%nat -> cores_ok -> range_ok s regs_msip.
Proof.
  intros Hok Hn Hc. unfold cores_ok in Hc. constructor.
  - intros m. change (msip_mem (get_clint (set_msip_mem m s)) = m). unfold set_msip_mem.
    by destruct (set_clint_ok (mkCLINT (mtime_mem (get_clint s)) (mtimecmp_mem (get_clint s)) m) s) as [-> _].
  - cbn. lia.
  - unfold rr_size. cbn [rr_mem regs_msip msip_view clint_range rr_start rr_end].
    rewrite (clint_msip_len _ Hok). lia.
Qed.

Lemma mtimecmp_range_ok s :
  clint_ok s -> (0 < NumberOfCores)%nat -> cores_ok -> range_ok s regs_mtimecmp.
Proof.
  intros Hok Hn Hc. unfold cores_ok in Hc. constructor.
  - intros m. change (mtimecmp_mem (get_clint (set_mtimecmp_mem m s)) = m). unfold set_mtimecmp_mem.
    by destruct (set_clint_ok (mkCLINT (mtime_mem (get_clint s)) m (msip_mem (get_clint s))) s) as [-> _].
  - cbn. lia.
  - unfold rr_size. cbn [rr_mem regs_mtimecmp mtimecmp_view clint_range rr_start rr_end].
    rewrite (clint_mtimecmp_len _ Hok). lia.
Qed.

Definition word_write (addr : Z) (T : int_type) (v : Z) : tlm_generic_payload :=
  mkPayload TLM_WRITE_COMMAND addr (to_bytes T v) TLM_OK_RESPONSE.

Lemma data_length_word addr T v : data_length (word_write addr T v) = Z.of_nat (sizeof T).
Proof. unfold data_length. cbn [payload_data word_write]. by rewrite length_to_bytes. Qed.

Lemma msip_access s i v : clint_ok s -> (i < NumberOfCores)%nat -> cores_ok ->
  range_access s regs_msip (word_write (4 * Z.of_nat i) uint32_t v).
Proof.
  intros Hok Hi Hc. constructor; try rewrite data_length_word; unfold cores_ok in *.
  - apply msip_range_ok; (done || lia).
  - unfold range_contains. cbn. lia.
  - cbn [rr_alignment regs_msip address word_write]. rewrite Z.mul_comm. apply Z_mod_mult.
  - done.
  - cbn. lia.
  - cbn. lia.
Qed.

Lemma mtimecmp_access s i v : clint_ok s -> (i < NumberOfCores)%nat -> cores_ok ->
  range_access s regs_mtimecmp (word_write (0x4000 + 8 * Z.of_nat i) uint64_t v).
Proof.
  intros Hok Hi Hc. constructor; try rewrite data_length_word; unfold cores_ok in *.
  - apply mtimecmp_range_ok; (done || lia).
  - unfold range_contains. cbn. lia.
  - cbn [rr_alignment regs_mtimecmp address word_write].
    replace (0x4000 + 8 * Z.of_nat i) with ((0x1000 + 2 * Z.of_nat i) * 4) by lia. apply Z_mod_mult.
  - done.
  - cbn. lia.
  - cbn. lia.
Qed.

Lemma set_elem_sizes s (mt mc ms : list Z) :
  clint_ok s -> length mt = length (mtime_mem (get_clint s)) ->
  length mc = length (mtimecmp_mem (get_clint s)) -> length ms = length (msip_mem (get_clint s)) ->
  clint_ok (set_clint (mkCLINT mt mc ms) s).
Proof.
  intros [? ? ? ?] ???. destruct (set_clint_ok (mkCLINT mt mc ms) s) as (Hc & Ht & _).
  constructor; rewrite ?Hc, ?Ht; cbn [mtime_mem mtimecmp_mem msip_mem]; congruence.
Qed.

Lemma to_nat_small (i : nat) : (i < 4096)%nat -> Z.to_nat (uint32 (4 * Z.of_nat i / 4)) = i.
Proof.
  intros. rewrite Z.mul_comm, Z.div_mul by done. unfold uint32.
  rewrite uint_id by (unfold is_uint; lia). apply Nat2Z.id.
Qed.

(** The callback, after the word of hart [i] has been written. *)
Lemma post_write_msip_eq s i info : clint_ok s -> (i < NumberOfCores)%nat -> cores_ok ->
  info_addr info = 4 * Z.of_nat i ->
  exists s', post_write_msip info s = (Ret tt, s') /\ clint_ok s' /\
    msip_of s' i = msip_of s i .& 1 /\
    (forall j, j <> i -> msip_of s' j = msip_of s j) /\
    (forall j, mtimecmp_of s' j = mtimecmp_of s j) /\ timer_line s' = timer_line s /\
    (forall j, software_line s' j
               = if decide (j = i) then negb (msip_of s i .& 1 =? 0) else software_line s j).
Proof.
  intros Hok Hi Hc Ha. pose proof (msip_size s Hok) as Hsz. unfold cores_ok in Hc.
  assert (Hidx : uint32 (info_addr info / 4) = Z.of_nat i).
  { rewrite Ha. rewrite <- (Z2Nat.id (uint32 _)) by (apply uint_range; lia). by rewrite to_nat_small by lia. }
  assert (Hb : (Z.of_nat i <? Z.of_nat NumberOfCores) = true) by lia.
  assert (H0 : (0 <=? Z.of_nat i) = true) by lia.
  assert (Hrd : forall t, view_size uint32_t (msip_mem (get_clint t)) = Z.of_nat NumberOfCores ->
            array_read uint32_t msip_view (Z.of_nat i) t = (Ret (msip_of t i), t)).
  { intros t Ht. unfold array_read, index_read, gets, mbind, M_bind.
    change (rr_mem msip_view t) with (msip_mem (get_clint t)). rewrite Ht, Hb. cbn [assert skip mret M_ret].
    change (rr_mem msip_view t) with (msip_mem (get_clint t)). rewrite Ht, Hb, H0. done. }
  set (v := msip_of s i .& 1).
  set (s1 := set_clint (mkCLINT (mtime_mem (get_clint s)) (mtimecmp_mem (get_clint s))
                          (set_elem uint32_t (Z.of_nat i) v (msip_mem (get_clint s)))) s).
  assert (Hwr : array_write uint32_t msip_view (Z.of_nat i) v s = (Ret tt, s1)).
  { unfold array_write, index_write, gets, mbind, M_bind.
    change (rr_mem msip_view s) with (msip_mem (get_clint s)). rewrite Hsz, Hb. cbn [assert skip mret M_ret].
    change (rr_mem msip_view s) with (msip_mem (get_clint s)). rewrite Hsz, Hb, H0. done. }
  assert (Hok1 : clint_ok s1) by (apply set_elem_sizes; (done || apply length_set_elem)).
  pose proof (set_clint_ok (mkCLINT (mtime_mem (get_clint s)) (mtimecmp_mem (get_clint s))
    (set_elem uint32_t (Z.of_nat i) v (msip_mem (get_clint s)))) s) as (Hg & _ & Htl & Hsl & _).
  fold s1 in Hg, Htl, Hsl.
  assert (Hv : is_uint 32 v).
  { unfold v. apply is_uint_land_r; [lia | by apply is_uint_literal]. }
  assert (Hm : msip_of s1 i = v).
  { unfold msip_of. rewrite Hg. cbn [msip_mem]. rewrite elem_set_same by (done || (rewrite Hsz; lia)).
    by apply (to_type_id uint32_t). }
  destruct (target_software_ok i (negb (v =? 0)) s1) as (s2 & Hs2 & Hr2 & Hsw2 & Htl2 & _).
  exists s2. split.
  { unfold post_write_msip. rewrite Ha at 1. replace (4 * Z.of_nat i) with (Z.of_nat i * 4) by lia.
    rewrite Z_mod_mult. unfold mbind at 1, M_bind at 1. cbn [Z.eqb assert skip mret M_ret]. cbv zeta.
    rewrite Hidx. unfold mbind at 1, M_bind at 1. rewrite Hrd by done. fold v.
    unfold mbind at 1, M_bind at 1. rewrite Hwr. unfold mbind at 1, M_bind at 1.
    rewrite Hrd by (by apply msip_size). rewrite Hm, Nat2Z.id. done. }
  destruct (same_rest_regs _ _ i Hr2) as (_ & _ & Hm2 & _).
  split; [by eapply same_rest_ok |]. split; [congruence |]. split.
  { intros j Hj. destruct (same_rest_regs _ _ j Hr2) as (_ & _ & -> & _). unfold msip_of. rewrite Hg.
    cbn [msip_mem]. rewrite elem_set_other by (done || lia). done. }
  split.
  { intros j. destruct (same_rest_regs _ _ j Hr2) as (_ & -> & _). unfold mtimecmp_of. by rewrite Hg. }
  split; [congruence |]. intros j. rewrite Hsw2, Hsl. done.
Qed.

(** Software interrupts.  A write of the 32-bit register msip of a hart, at
    address 4 times its number, keeps bit 0 of the value in the register, and
    raises the software interrupt of the hart if it is set and clears it if it
    is not; the registers and the interrupts of the other harts and the timer
    interrupts do not change, and the transaction takes 20 ns. *)
Theorem clint_software_interrupts (s : S) (i : nat) (v delay : Z) :
  clint_ok s -> (i < NumberOfCores)%nat -> cores_ok -> is_uint 32 v ->
  let trans := word_write (4 * Z.of_nat i) uint32_t v in
  exists s', clint_transport trans delay s = (Ret (trans, delay + 20 * NS), s') /\ clint_ok s' /\
    msip_of s' i = v mod 2 /\
    (software_line s' i = true <-> v mod 2 = 1) /\
    (forall j, j <> i -> msip_of s' j = msip_of s j /\ software_line s' j = software_line s j) /\
    (forall j, mtimecmp_of s' j = mtimecmp_of s j) /\ timer_line s' = timer_line s.
Proof.
  intros Hok Hi Hc Hv trans. pose proof (msip_access s i v Hok Hi Hc) as Hacc. unfold cores_ok in *.
  set (s1 := write_bytes regs_msip trans s).
  assert (Hs1 : s1 = set_clint (mkCLINT (mtime_mem (get_clint s)) (mtimecmp_mem (get_clint s))
                          (set_elem uint32_t (Z.of_nat i) v (msip_mem (get_clint s)))) s).
  { apply (write_elem regs_msip uint32_t); [lia | cbn; lia | done]. }
  pose proof (set_clint_ok (mkCLINT (mtime_mem (get_clint s)) (mtimecmp_mem (get_clint s))
    (set_elem uint32_t (Z.of_nat i) v (msip_mem (get_clint s)))) s) as (Hg & _ & Htl & Hsl & _).
  rewrite <- Hs1 in Hg, Htl, Hsl.
  assert (Hok1 : clint_ok s1) by (rewrite Hs1; apply set_elem_sizes; (done || apply length_set_elem)).
  assert (Hm1 : msip_of s1 i = v).
  { unfold msip_of. rewrite Hg. cbn [msip_mem]. rewrite elem_set_same; [by apply (to_type_id uint32_t) | done |].
    rewrite msip_size by done. lia. }
  destruct (post_write_msip_eq s1 i (access_info regs_msip trans (delay + 2 * clint_clock_cycle)) Hok1 Hi Hc
    ltac:(cbn; lia)) as (s2 & Hs2 & Hok2 & Hm2 & Ho2 & Hcmp2 & Htl2 & Hsw2).
  exists s2. split.
  { unfold clint_transport, clint_register_ranges. cbv zeta. unfold mbind at 1, M_bind at 1.
    rewrite (route_first _ [regs_mtime; regs_mtimecmp] regs_msip []); [| done | |].
    - rewrite process_write_eq by done. fold s1. unfold mbind at 1, M_bind at 1.
      cbn [run_post post_write_callback regs_msip]. rewrite Hs2. done.
    - apply Hacc.
    - repeat constructor; unfold range_match, range_contains; cbn; lia. }
  assert (Hbit : v .& 1 = v mod 2) by (change 1 with (Z.ones 1); by rewrite Z.land_ones).
  split; [done |]. split; [by rewrite Hm2, Hm1 |]. split.
  { rewrite Hsw2, decide_True, Hm1, Hbit by done. pose proof (Z.mod_pos_bound v 2 ltac:(done)).
    destruct (Z.eqb_spec (v mod 2) 0); simpl; split; (done || lia). }
  split.
  { intros j Hj. rewrite Ho2 by done. rewrite Hsw2, decide_False, Hsl by done. split; [| done].
    unfold msip_of. rewrite Hg. cbn [msip_mem]. by rewrite elem_set_other by (done || lia). }
  split; [| congruence]. intros j. rewrite Hcmp2. unfold mtimecmp_of. by rewrite Hg.
Qed.

End timer.

(** ** A bench

    The controller with two harts whose interrupt lines are flags. *)
Record bench : Type := mkBench {
  bench_clint : CLINT;
  bench_time : Z;
  bench_timer : nat -> bool;
  bench_software : nat -> bool;
  bench_event : option Z
}.

Definition set_line (i : nat) (b : bool) (f : nat -> bool) (j : nat) : bool :=
  if decide (j = i) then b else f j.

#[export] Instance bench_interface : clint_interface bench unit := {
  NumberOfCores := 2;
  get_clint := bench_clint;
  set_clint c s := mkBench c (bench_time s) (bench_timer s) (bench_software s) (bench_event s);
  sc_time_stamp := bench_time;
  irq_event_notify t := modify (fun s =>
    mkBench (bench_clint s) (bench_time s) (bench_timer s) (bench_software s)
      (earlier (bench_event s) (bench_time s + t)));
  target_timer_interrupt i b := modify (fun s =>
    mkBench (bench_clint s) (bench_time s) (set_line i b (bench_timer s)) (bench_software s)
      (bench_event s));
  target_software_interrupt i b := modify (fun s =>
    mkBench (bench_clint s) (bench_time s) (bench_timer s) (set_line i b (bench_software s))
      (bench_event s))
}.

#[export] Instance bench_system : clint_system bench unit.
Proof.
  refine {| timer_line := bench_timer; software_line := bench_software; irq_event_time := bench_event |};
    intros; try (eexists; split; [reflexivity |]); done.
Defined.

Definition bench_start : bench :=
  mkBench
    (mkCLINT (replicate 8 0) (to_bytes uint64_t 3 ++ to_bytes uint64_t 9) (replicate 8 0))
    5000000 (fun _ => false) (fun _ => false) None.

Lemma bench_start_ok : clint_ok bench_start.
Proof.
  constructor; [done | done | done |].
  change (is_uint 64 5000000). by apply is_uint_literal.
Qed.

Lemma clint_timer_interrupts_witness :
  exists s', clint_run bench_start = (Ret tt, s') /\ timer_line s' 0 = true /\ mtime_of s' = 5 /\
    exists w, irq_event_time s' = Some w /\ w <= 9000000.
Proof.
  destruct (clint_timer_interrupts bench_start bench_start_ok)
    as (s' & Hs & _ & Hm & _ & Ht & _ & Hw).
  assert (Hm5 : mtime_of s' = 5) by (rewrite Hm; by vm_compute).
  exists s'. split; [exact Hs |]. split; [| split; [exact Hm5 |]].
  - apply Ht; [simpl; lia |]. rewrite Hm5. by vm_compute.
  - destruct (Hw 1%nat) as (w & Hev & Hle); [simpl; lia | rewrite Hm5; by vm_compute |].
    exists w. split; [exact Hev |]. rewrite Hm5 in Hle.
    assert (E : sc_time_stamp bench_start + (mtimecmp_of bench_start 1 - 5) * scaler = 9000000)
      by by vm_compute.
    by rewrite E in Hle.
Defined.

Lemma clint_software_interrupts_witness :
  exists s', clint_transport (word_write 4 uint32_t 7) 0 bench_start
    = (Ret (word_write 4 uint32_t 7, 20000), s') /\ software_line s' 1 = true /\ msip_of s' 1 = 1.
Proof.
  destruct (clint_software_interrupts bench_start 1 7 0 bench_start_ok ltac:(simpl; lia)
    ltac:(unfold cores_ok; simpl; lia) ltac:(by apply is_uint_literal))
    as (s' & Hs & _ & Hm & Hl & _).
  exists s'. split; [exact Hs |]. split; [by apply Hl | exact Hm].
Defined.
