(* ===== verification/RealClint.v ===== *)
(** * The core local interrupt controller in real time

    Models core/common/real_clint.h, real_clint.cpp and timer.cpp: the registers
    of clint.h, with a clock of the host instead of the time of the simulation, and
    a timer thread per hart that sleeps until the hart's comparator is reached.
    The clock of the host and its threads are the class [real_clint_interface];
    its calls are taken to succeed, as the code takes errors for exceptions. *)

From S2P Require Import Prelude Memory MemoryMap Clint.

(** ** State *)

(** The bytes of the three register ranges, and the flags [running] of the timers. *)
Record RealCLINT : Type := mkRealCLINT { rc_regs : CLINT; rc_running : list bool }.

Class real_clint_interface (S E : Type) : Type := {
  rc_harts : nat;
  get_rc : S -> RealCLINT;
  set_rc : RealCLINT -> S -> S;
  (** microseconds since the construction *)
  rc_now : M S E Z;
  (** the thread of a timer: [pthread_create] with the duration for [callback],
      [pthread_cancel] with [pthread_kill], and [pthread_join] *)
  timer_create : nat -> Z -> M S E unit;
  timer_cancel : nat -> M S E unit;
  timer_join : nat -> M S E unit;
  (** false when the sleep was interrupted *)
  nanosleep : Z -> M S E bool;
  rc_event_notify : M S E unit;
  rc_timer_interrupt : nat -> bool -> M S E unit;
  rc_software_interrupt : nat -> bool -> M S E unit
}.

Definition MSIP_BASE : Z := 0.
Definition MSIP_SIZE : Z := 4.
Definition MTIMECMP_BASE : Z := 0x4000.
Definition MTIMECMP_SIZE : Z := 8.
Definition MTIME_BASE : Z := 0xBFF8.
Definition MTIME_SIZE : Z := 8.
Definition MSIP_MASK : Z := 0x1.
Definition DIVIDEND : Z := 15625 / 512.

Definition NS_MAX : Z := 999999999.
Definition US_MAX : Z := NS_MAX / 1000.
Definition LONG_MAX : Z := 2 ^ 63 - 1.

Section RealCLINT.
Context {S E : Type} `{real_clint_interface S E}.

Abbreviation R := (M S E).

Definition set_rc_regs (f : CLINT -> CLINT) (s : S) : S :=
  set_rc (mkRealCLINT (f (rc_regs (get_rc s))) (rc_running (get_rc s))) s.
Definition rc_set_mtime (m : list Z) : S -> S :=
  set_rc_regs (fun c => mkCLINT m (mtimecmp_mem c) (msip_mem c)).
Definition rc_set_mtimecmp (m : list Z) : S -> S :=
  set_rc_regs (fun c => mkCLINT (mtime_mem c) m (msip_mem c)).
Definition rc_set_msip (m : list Z) : S -> S :=
  set_rc_regs (fun c => mkCLINT (mtime_mem c) (mtimecmp_mem c) m).

(** The ranges without their callbacks, as the views see them. *)
Definition rc_range (start size : Z) (get : CLINT -> list Z) (set : list Z -> S -> S)
    (post_write : option (AccessInfo -> R unit)) (pre_read : option (AccessInfo -> R bool)) : RegisterRange S E :=
  mkRegisterRange start (start + size - 1) (fun s => get (rc_regs (get_rc s))) set false 4
    None post_write pre_read None.

Definition rc_mtime_range := rc_range MTIME_BASE MTIME_SIZE mtime_mem rc_set_mtime.
Definition rc_mtimecmp_range :=
  rc_range MTIMECMP_BASE (MTIMECMP_SIZE * Z.of_nat rc_harts) mtimecmp_mem rc_set_mtimecmp.
Definition rc_msip_range := rc_range MSIP_BASE (MSIP_SIZE * Z.of_nat rc_harts) msip_mem rc_set_msip.

Definition rc_mtime : RegisterRange S E := rc_mtime_range None None.
Definition rc_mtimecmp : RegisterRange S E := rc_mtimecmp_range None None.
Definition rc_msip : RegisterRange S E := rc_msip_range None None.

(** ** timer.cpp *)

(** [timers.at(i)->running] *)
Definition timer_running (i : nat) : R bool :=
  d ← gets get_rc;
  match rc_running d !! i with Some b => mret b | None => fatal OutOfRange end.
Definition set_timer_running (i : nat) (b : bool) : R unit :=
  modify (fun s => set_rc (mkRealCLINT (rc_regs (get_rc s)) (<[i := b]> (rc_running (get_rc s)))) s).

Definition Timer_start (i : nat) (duration : Z) : R unit :=
  running ← timer_running i;
  when running (timer_join i) ;;
  timer_create i duration ;;
  set_timer_running i true.

Definition Timer_stop_thread (i : nat) : R unit :=
  running ← timer_running i;
  assert running ;;
  timer_cancel i ;;
  timer_join i ;;
  set_timer_running i false.

(** The signal handler of the main thread is set around [stop_thread]. *)
Definition Timer_pause (i : nat) : R unit :=
  running ← timer_running i;
  if negb running then skip else Timer_stop_thread i.

(** The thread: it sleeps in parts; [fuel] bounds their number. *)
Fixpoint callback_sleep (fuel : nat) (count : Z) : R bool :=
  if US_MAX <? count then
    match fuel with
    | O => fatal Blocked
    | Datatypes.S fuel =>
        ok ← nanosleep NS_MAX;
        if (ok : bool) then callback_sleep fuel (count - US_MAX) else mret false
    end
  else
    let ns := uint64 (count * 1000) in
    assert (count <? ns) ;;
    assert (ns <=? LONG_MAX) ;;
    nanosleep ns.

Definition Timer_callback (duration : Z) : R unit :=
  ok ← callback_sleep (Z.to_nat (duration / US_MAX)) duration;
  when ok rc_event_notify.

(** ** real_clint.cpp *)

Definition usec_to_ticks (usec : Z) : Z := usec / DIVIDEND.
Definition ticks_to_usec (ticks : Z) : Z := uint64 (ticks * DIVIDEND).

Definition rc_update_and_get_mtime : R Z :=
  duration ← rc_now;
  integer_write uint64_t rc_mtime (usec_to_ticks duration) ;;
  integer_read uint64_t rc_mtime.

(** [harts.at(i)] *)
Definition rc_hart (i : Z) (m : nat -> R unit) : R unit :=
  if i <? Z.of_nat rc_harts then m (Z.to_nat i) else fatal OutOfRange.

Definition rc_post_write_mtimecmp (info : AccessInfo) : R unit :=
  assert (info_addr info mod 4 =? 0) ;;
  let hart := uint32 (info_addr info / MTIMECMP_SIZE) in
  cmp ← array_at uint64_t rc_mtimecmp hart;
  time ← rc_update_and_get_mtime;
  Timer_pause (Z.to_nat hart) ;;
  if cmp <=? time then rc_hart hart (fun i => rc_timer_interrupt i true)
  else
    rc_hart hart (fun i => rc_timer_interrupt i false) ;;
    let goal_ticks := uint64 (cmp - time) in
    Timer_start (Z.to_nat hart) (ticks_to_usec goal_ticks).

Definition rc_post_write_msip (info : AccessInfo) : R unit :=
  assert (info_addr info mod 4 =? 0) ;;
  let hart := uint32 (info_addr info / MSIP_SIZE) in
  v ← array_at uint32_t rc_msip hart;
  index_write uint32_t rc_msip hart (v .& MSIP_MASK) ;;
  v ← array_at uint32_t rc_msip hart;
  rc_hart hart (fun i => rc_software_interrupt i (negb (v =? 0))).

Definition rc_post_write_mtime (info : AccessInfo) : R unit := skip.

Definition rc_pre_read_mtime (info : AccessInfo) : R bool := rc_update_and_get_mtime ;; mret true.

(** The loop of [interrupt] from hart [i], with [n] harts to go. *)
Fixpoint rc_interrupts (i n : nat) : R unit :=
  match n with
  | O => skip
  | Datatypes.S n =>
      cmp ← array_at uint64_t rc_mtimecmp (Z.of_nat i);
      mtime ← integer_read uint64_t rc_mtime;
      when (cmp <=? mtime) (rc_hart (Z.of_nat i) (fun i => rc_timer_interrupt i true)) ;;
      rc_interrupts (Datatypes.S i) n
  end.

Definition rc_interrupt : R unit := rc_update_and_get_mtime ;; rc_interrupts 0 rc_harts.

Definition rc_register_ranges : list (RegisterRange S E) :=
  [rc_mtimecmp_range (Some rc_post_write_mtimecmp) None;
   rc_msip_range (Some rc_post_write_msip) None;
   rc_mtime_range (Some rc_post_write_mtime) (Some rc_pre_read_mtime)].

Definition rc_transport : transport_fn S E := fun trans delay =>
  trans ← route rc_register_ranges trans delay; mret (trans, delay).

End RealCLINT.

(** The constructor: the registers are zero and no timer runs. *)
Definition RealCLINT_new (harts : nat) : RealCLINT :=
  mkRealCLINT (CLINT_new harts) (replicate harts false).

(** ** The environment *)

(** What the theorems use of the host and the harts.  [rc_clock] is the clock in
    nanoseconds, which every call may let advance; [timer_thread] is the duration
    of the thread of a timer that has been created and not joined. *)
Class real_clint_system (S E : Type) `{real_clint_interface S E} : Type := {
  rc_clock : S -> Z;
  rc_timer_line : S -> nat -> bool;
  rc_software_line : S -> nat -> bool;
  timer_thread : S -> nat -> option Z;
  rc_same s s' := get_rc s' = get_rc s /\ rc_clock s <= rc_clock s' /\ rc_software_line s' = rc_software_line s;
  rc_clock_nonneg s : 0 <= rc_clock s;
  set_rc_ok d s : get_rc (set_rc d s) = d /\ rc_clock (set_rc d s) = rc_clock s /\
    rc_timer_line (set_rc d s) = rc_timer_line s /\ rc_software_line (set_rc d s) = rc_software_line s /\
    timer_thread (set_rc d s) = timer_thread s;
  rc_now_ok s : exists s', rc_now s = (Ret (rc_clock s' / 1000), s') /\ rc_same s s' /\
    rc_timer_line s' = rc_timer_line s /\ timer_thread s' = timer_thread s;
  timer_create_ok i d s : exists s', timer_create i d s = (Ret tt, s') /\ rc_same s s' /\
    rc_timer_line s' = rc_timer_line s /\
    (forall j, timer_thread s' j = if decide (j = i) then Some d else timer_thread s j);
  timer_cancel_ok i s : exists s', timer_cancel i s = (Ret tt, s') /\ rc_same s s' /\
    rc_timer_line s' = rc_timer_line s /\ timer_thread s' = timer_thread s;
  timer_join_ok i s : exists s', timer_join i s = (Ret tt, s') /\ rc_same s s' /\
    rc_timer_line s' = rc_timer_line s /\
    (forall j, timer_thread s' j = if decide (j = i) then None else timer_thread s j);
  rc_timer_ok i b s : exists s', rc_timer_interrupt i b s = (Ret tt, s') /\ rc_same s s' /\
    (forall j, rc_timer_line s' j = if decide (j = i) then b else rc_timer_line s j) /\
    timer_thread s' = timer_thread s;
  (** a sleep that no signal interrupts; what the other threads do meanwhile is open *)
  nanosleep_ok ns s : exists s', nanosleep ns s = (Ret true, s') /\ rc_clock s + ns <= rc_clock s'
}.

Section real.
Context {S E : Type} `{Hsys : real_clint_system S E}.
#[local] Set Default Proof Using "Type Hsys".

Definition rc_mtime_of (s : S) : Z := elem uint64_t 0 (mtime_mem (rc_regs (get_rc s))).
Definition rc_mtimecmp_of (s : S) (i : nat) : Z := elem uint64_t (Z.of_nat i) (mtimecmp_mem (rc_regs (get_rc s))).

(** The sizes of the register ranges; a timer that does not run has no thread. *)
Record rc_ok (s : S) : Prop := {
  rc_mtime_len : length (mtime_mem (rc_regs (get_rc s))) = 8%nat;
  rc_mtimecmp_len : length (mtimecmp_mem (rc_regs (get_rc s))) = (8 * rc_harts)%nat;
  rc_running_len : length (rc_running (get_rc s)) = rc_harts;
  rc_threads i : rc_running (get_rc s) !! i = Some false -> timer_thread s i = None
}.

(** The ticks of the clock. *)
Definition ticks (t : Z) : Z := t / 1000 / DIVIDEND.

Lemma ticks_later t t' k : 0 <= k -> t + k * DIVIDEND * 1000 <= t' -> ticks t + k <= ticks t'.
Proof using Type.
  intros Hk Ht. unfold ticks. change DIVIDEND with 30 in *. rewrite !Z.div_div by done. change (1000 * 30) with 30000.
  rewrite <- Z.div_add by done. apply Z.div_le_mono; lia.
Qed.

(** A call that leaves the registers and the lines as they are. *)
Record rc_calm (s s' : S) : Prop := {
  calm_regs : mtimecmp_mem (rc_regs (get_rc s')) = mtimecmp_mem (rc_regs (get_rc s));
  calm_msip : msip_mem (rc_regs (get_rc s')) = msip_mem (rc_regs (get_rc s));
  calm_clock : rc_clock s <= rc_clock s';
  calm_software : rc_software_line s' = rc_software_line s
}.

Lemma calm_trans s1 s2 s3 : rc_calm s1 s2 -> rc_calm s2 s3 -> rc_calm s1 s3.
Proof. intros [] []. constructor; (congruence || lia). Qed.

Lemma same_calm s s' : rc_same s s' -> rc_calm s s'.
Proof. intros (Hg & Hc & Hl). constructor; rewrite ?Hg; done. Qed.

Lemma calm_mtimecmp s s' i : rc_calm s s' -> rc_mtimecmp_of s' i = rc_mtimecmp_of s i.
Proof. intros [Hg _ _ _]. unfold rc_mtimecmp_of. by rewrite Hg. Qed.

Lemma rc_ok_same s s' : get_rc s' = get_rc s -> timer_thread s' = timer_thread s -> rc_ok s -> rc_ok s'.
Proof. intros Hg Ht [? ? ? Hth]. constructor; rewrite ?Hg; try done. intros i. rewrite Ht. apply Hth. Qed.

Lemma rc_mtimecmp_size s : rc_ok s -> view_size uint64_t (mtimecmp_mem (rc_regs (get_rc s))) = Z.of_nat rc_harts.
Proof.
  intros [_ Hl _ _]. unfold view_size. rewrite Hl. change (Z.of_nat (sizeof uint64_t)) with 8.
  rewrite Nat2Z.inj_mul, Z.mul_comm. by apply Z.div_mul.
Qed.

Lemma at_mtimecmp s i : rc_ok s -> (i < rc_harts)%nat ->
  array_at uint64_t rc_mtimecmp (Z.of_nat i) s = (Ret (rc_mtimecmp_of s i), s).
Proof.
  intros Hok Hi. pose proof (rc_mtimecmp_size s Hok) as Hsz. unfold array_at, gets. unfold mbind at 1, M_bind at 1.
  change (rr_mem rc_mtimecmp s) with (mtimecmp_mem (rc_regs (get_rc s))). rewrite Hsz.
  assert ((Z.of_nat rc_harts <=? Z.of_nat i) = false) as -> by lia.
  apply (ptr_read_eq uint64_t rc_mtimecmp). change (rr_mem rc_mtimecmp s) with (mtimecmp_mem (rc_regs (get_rc s))).
  rewrite Hsz. lia.
Qed.

(** mtime is set to the ticks of the clock. *)
Lemma rc_update_eq s : rc_ok s ->
  exists s' t, rc_update_and_get_mtime s = (Ret (rc_mtime_of s'), s') /\ rc_ok s' /\ rc_calm s s' /\
    rc_mtime_of s' = uint64 (ticks t) /\ rc_clock s <= t <= rc_clock s' /\ rc_clock s' = t /\
    rc_running (get_rc s') = rc_running (get_rc s) /\
    rc_timer_line s' = rc_timer_line s /\ timer_thread s' = timer_thread s.
Proof.
  intros Hok. destruct (rc_now_ok s) as (s1 & Hs1 & Hsame & Hl1 & Hth1).
  pose proof (rc_ok_same _ _ (proj1 Hsame) Hth1 Hok) as Hok1. pose proof (rc_clock_nonneg s1).
  set (t := rc_clock s1). set (v := usec_to_ticks (t / 1000)).
  set (regs := rc_regs (get_rc s1)).
  set (d := mkRealCLINT (mkCLINT (set_elem uint64_t 0 v (mtime_mem regs)) (mtimecmp_mem regs) (msip_mem regs))
              (rc_running (get_rc s1))).
  destruct (set_rc_ok d s1) as (Hg & Hc & Hl & Hsl & Hth). set (s2 := set_rc d s1) in *.
  assert (Hm : rc_mtime_of s2 = uint64 (ticks t)).
  { unfold rc_mtime_of. rewrite Hg. cbn [rc_regs d mtime_mem]. rewrite elem_set_same; [done | done |].
    unfold view_size, regs. rewrite (rc_mtime_len _ Hok1). done. }
  exists s2, t. split.
  { unfold rc_update_and_get_mtime. unfold mbind at 1, M_bind at 1. rewrite Hs1. reflexivity. }
  split.
  { destruct Hok1 as [? ? ? Hthr]. constructor; rewrite ?Hg; cbn [d rc_regs rc_running mtime_mem mtimecmp_mem]; try done.
    - by rewrite length_set_elem.
    - intros i. rewrite Hth. apply Hthr. }
  destruct Hsame as (Hg1 & Hc1 & Hsl1). split; [constructor; rewrite ?Hg, ?Hc; cbn; unfold regs; rewrite ?Hg1; (done || congruence) |].
  split; [done |]. rewrite Hc. split; [fold t; lia |]. split; [done |]. rewrite Hg. cbn [rc_running d].
  rewrite Hg1. split; [done |]. split; congruence.
Qed.

(** ** The timers *)

Lemma timer_running_eq s i b : rc_running (get_rc s) !! i = Some b -> timer_running i s = (Ret b, s).
Proof using Type. intros Hb. unfold timer_running, gets, mbind, M_bind. by rewrite Hb. Qed.

Lemma set_running_eq s i b : exists s', set_timer_running i b s = (Ret tt, s') /\
  rc_regs (get_rc s') = rc_regs (get_rc s) /\ rc_running (get_rc s') = <[i := b]> (rc_running (get_rc s)) /\
  rc_calm s s' /\ rc_timer_line s' = rc_timer_line s /\ timer_thread s' = timer_thread s.
Proof.
  destruct (set_rc_ok (mkRealCLINT (rc_regs (get_rc s)) (<[i := b]> (rc_running (get_rc s)))) s) as (Hg & Hc & Hl & Hsl & Hth).
  eexists. split; [reflexivity |]. rewrite Hg. split; [done |]. split; [done |]. split; [| done].
  constructor; rewrite ?Hg, ?Hc; (done || lia).
Qed.

(** The state of the timers after an operation on timer [i]. *)
Definition timer_becomes (i : nat) (b : bool) (d : option Z) (s s' : S) : Prop :=
  rc_regs (get_rc s') = rc_regs (get_rc s) /\ rc_running (get_rc s') = <[i := b]> (rc_running (get_rc s)) /\
  rc_calm s s' /\ rc_timer_line s' = rc_timer_line s /\
  forall j, timer_thread s' j = if decide (j = i) then d else timer_thread s j.

Lemma timer_becomes_ok i b d s s' : (b = false -> d = None) -> timer_becomes i b d s s' -> rc_ok s -> rc_ok s'.
Proof.
  intros Hd (Hr & Hrun & _ & _ & Hth) [? ? Hlen Hthr]. constructor; rewrite ?Hr, ?Hrun, ?length_insert; try done.
  intros j Hj. rewrite Hth. case_decide as Hji.
  - subst j. destruct b; [| by apply Hd]. rewrite list_lookup_insert_eq in Hj; [done |].
    apply lookup_lt_Some in Hj. by rewrite length_insert in Hj.
  - rewrite list_lookup_insert_ne in Hj by done. by apply Hthr.
Qed.

Lemma pause_eq s i : rc_ok s -> (i < rc_harts)%nat ->
  exists s', Timer_pause i s = (Ret tt, s') /\ timer_becomes i false None s s'.
Proof.
  intros Hok Hi. destruct (lookup_lt_is_Some_2 (rc_running (get_rc s)) i) as [b Hb]; [by rewrite (rc_running_len _ Hok) |].
  unfold Timer_pause. unfold mbind at 1, M_bind at 1. rewrite (timer_running_eq s i b Hb).
  destruct b; cbn [negb].
  - unfold Timer_stop_thread. unfold mbind at 1, M_bind at 1. rewrite (timer_running_eq s i true Hb).
    unfold mbind at 1, M_bind at 1. cbn [assert skip mret M_ret].
    destruct (timer_cancel_ok i s) as (s1 & Hs1 & Hsame1 & Hl1 & Hth1).
    destruct (timer_join_ok i s1) as (s2 & Hs2 & Hsame2 & Hl2 & Hth2).
    destruct (set_running_eq s2 i false) as (s3 & Hs3 & Hr3 & Hrun3 & Hc3 & Hl3 & Hth3).
    exists s3. unfold mbind at 1, M_bind at 1. rewrite Hs1. unfold mbind at 1, M_bind at 1. rewrite Hs2.
    split; [done |]. pose proof (proj1 Hsame1) as Hg1. pose proof (proj1 Hsame2) as Hg2.
    split; [congruence |]. split; [congruence |].
    split; [eapply calm_trans; [by apply same_calm | eapply calm_trans; [by apply same_calm | done]] |].
    split; [congruence |]. intros j. by rewrite Hth3, Hth2, Hth1.
  - exists s. split; [done |]. split; [done |]. split; [by rewrite list_insert_id |].
    split; [constructor; (done || lia) |]. split; [done |]. intros j. case_decide; [subst j | done].
    by apply (rc_threads _ Hok).
Qed.

Lemma start_eq s i d : rc_running (get_rc s) !! i = Some false ->
  exists s', Timer_start i d s = (Ret tt, s') /\ timer_becomes i true (Some d) s s'.
Proof.
  intros Hb. unfold Timer_start. unfold mbind at 1, M_bind at 1. rewrite (timer_running_eq s i false Hb).
  unfold mbind at 1, M_bind at 1. cbn [when skip mret M_ret].
  destruct (timer_create_ok i d s) as (s1 & Hs1 & Hsame1 & Hl1 & Hth1).
  destruct (set_running_eq s1 i true) as (s2 & Hs2 & Hr2 & Hrun2 & Hc2 & Hl2 & Hth2).
  exists s2. unfold mbind at 1, M_bind at 1. rewrite Hs1. split; [done |]. pose proof (proj1 Hsame1) as Hg1.
  split; [congruence |]. split; [congruence |]. split; [eapply calm_trans; [by apply same_calm | done] |].
  split; [congruence |]. intros j. by rewrite Hth2, Hth1.
Qed.

(** The thread: it sleeps at least as long as it was told to. *)
Lemma callback_sleep_ok fuel : forall d s, 0 < d -> d / US_MAX <= Z.of_nat fuel ->
  exists s', callback_sleep fuel d s = (Ret true, s') /\ rc_clock s + d * 1000 <= rc_clock s'.
Proof.
  change US_MAX with 999999. induction fuel as [|fuel IH]; intros d s Hd Hf; cbn [callback_sleep]; change US_MAX with 999999.
  all: destruct (Z.ltb_spec 999999 d) as [Hgt|Hle].
  1: { exfalso. assert (1 <= d / 999999) by (apply Z.div_le_lower_bound; lia). lia. }
  2: { destruct (nanosleep_ok NS_MAX s) as (s1 & Hs1 & Hc1). destruct (IH (d - 999999) s1) as (s2 & Hs2 & Hc2).
    - lia.
    - assert (Hdiv : (d - 999999) / 999999 = d / 999999 - 1) by (replace (d - 999999) with (d + -1 * 999999) by lia; rewrite Z.div_add by done; lia). lia.
    - exists s2. unfold mbind, M_bind. rewrite Hs1. split; [done |]. unfold NS_MAX in Hc1. lia. }
  all: assert (Hns : uint64 (d * 1000) = d * 1000) by (apply uint_id; unfold is_uint; lia); cbv zeta; rewrite Hns;
    assert ((d <? d * 1000) = true) as -> by lia;
    assert ((d * 1000 <=? LONG_MAX) = true) as -> by (unfold LONG_MAX; lia); unfold mbind, M_bind; cbn [assert skip mret M_ret];
    destruct (nanosleep_ok (d * 1000) s) as (s1 & Hs1 & Hc1); exists s1; by rewrite Hs1.
Qed.

(** ** A write of a comparator *)

Definition rc_harts_ok : Prop := (rc_harts < 4096)%nat.

Lemma hart_eq i (m : nat -> M S E unit) : (i < rc_harts)%nat -> rc_hart (Z.of_nat i) m = m i.
Proof using Type.
  intros Hi. unfold rc_hart. assert ((Z.of_nat i <? Z.of_nat rc_harts) = true) as -> by lia. by rewrite Nat2Z.id.
Qed.

Lemma mtime_regs s s' : rc_regs (get_rc s') = rc_regs (get_rc s) -> rc_mtime_of s' = rc_mtime_of s.
Proof using Type. intros Hr. unfold rc_mtime_of. by rewrite Hr. Qed.

(** The interrupt line and the thread of hart [i] after its comparator was set. *)
Definition armed (i : nat) (cmp : Z) (s : S) : Prop :=
  let time := rc_mtime_of s in
  (cmp <= time -> rc_timer_line s i = true /\ timer_thread s i = None) /\
  (time < cmp -> rc_timer_line s i = false /\ timer_thread s i = Some (ticks_to_usec (cmp - time))).

Lemma post_write_eq s i info : rc_ok s -> rc_harts_ok -> (i < rc_harts)%nat -> info_addr info = 8 * Z.of_nat i ->
  exists s' t, rc_post_write_mtimecmp info s = (Ret tt, s') /\ rc_ok s' /\ rc_calm s s' /\
    (forall j, j <> i -> rc_timer_line s' j = rc_timer_line s j) /\
    rc_mtime_of s' = uint64 (ticks t) /\ 0 <= t <= rc_clock s' /\ armed i (rc_mtimecmp_of s i) s'.
Proof.
  intros Hok Hh Hi Ha. unfold rc_harts_ok in Hh. unfold rc_post_write_mtimecmp. rewrite Ha.
  replace (8 * Z.of_nat i mod 4) with 0 by (replace (8 * Z.of_nat i) with (2 * Z.of_nat i * 4) by lia; by rewrite Z_mod_mult).
  unfold mbind at 1, M_bind at 1. cbn [assert Z.eqb skip mret M_ret]. cbv zeta.
  assert (Hidx : uint32 (8 * Z.of_nat i / MTIMECMP_SIZE) = Z.of_nat i).
  { unfold MTIMECMP_SIZE. rewrite Z.mul_comm, Z.div_mul by done. apply uint_id. unfold is_uint. lia. }
  rewrite Hidx, Nat2Z.id. unfold mbind at 1, M_bind at 1. rewrite at_mtimecmp by done.
  destruct (rc_update_eq s Hok) as (s1 & t & Hs1 & Hok1 & Hc1 & Hm1 & Ht & Hct & Hrun1 & Hl1 & Hth1).
  unfold mbind at 1, M_bind at 1. rewrite Hs1. pose proof (rc_clock_nonneg s).
  destruct (pause_eq s1 i Hok1 Hi) as (s2 & Hs2 & Hb2). unfold mbind at 1, M_bind at 1. rewrite Hs2.
  pose proof (timer_becomes_ok i false None s1 s2 ltac:(done) Hb2 Hok1) as Hok2.
  destruct Hb2 as (Hr2 & Hrun2 & Hc2 & Hl2 & Hth2). pose proof (mtime_regs _ _ Hr2) as Hm2.
  set (cmp := rc_mtimecmp_of s i). rewrite !hart_eq by done. destruct (Z.leb_spec cmp (rc_mtime_of s1)) as [Hle|Hgt].
  - destruct (rc_timer_ok i true s2) as (s3 & Hs3 & Hsame3 & Hl3 & Hth3). exists s3, t. split; [done |].
    pose proof (mtime_regs s2 s3 ltac:(by rewrite (proj1 Hsame3))) as Hm3.
    split; [by eapply rc_ok_same; [apply Hsame3 | | done] |].
    split; [eapply calm_trans; [done | eapply calm_trans; [done | by apply same_calm]] |].
    split; [intros j Hj; by rewrite Hl3, decide_False, Hl2, Hl1 by done |].
    split; [congruence |]. split; [destruct Hsame3 as (_ & ? & _), Hc2; lia |].
    unfold armed. rewrite Hm3, Hm2. split; [| intros; lia]. intros _.
    rewrite Hl3, Hth3, Hth2, !decide_True by done. done.
  - destruct (rc_timer_ok i false s2) as (s3 & Hs3 & Hsame3 & Hl3 & Hth3).
    unfold mbind at 1, M_bind at 1. rewrite Hs3. pose proof (mtime_regs s2 s3 ltac:(by rewrite (proj1 Hsame3))) as Hm3.
    assert (Hgoal : uint64 (cmp - rc_mtime_of s1) = cmp - rc_mtime_of s1).
    { assert (is_uint 64 cmp) by apply (elem_range uint64_t). assert (is_uint 64 (rc_mtime_of s1)) by apply (elem_range uint64_t).
      apply uint_id. unfold is_uint in *. lia. }
    rewrite Hgoal.
    assert (Hrunf : rc_running (get_rc s3) !! i = Some false).
    { rewrite (proj1 Hsame3), Hrun2. apply list_lookup_insert_eq. by rewrite (rc_running_len _ Hok1). }
    pose proof (rc_ok_same _ _ (proj1 Hsame3) Hth3 Hok2) as Hok3.
    destruct (start_eq s3 i (ticks_to_usec (cmp - rc_mtime_of s1)) Hrunf) as (s4 & Hs4 & Hb4).
    assert (Hok4 : rc_ok s4) by (by eapply timer_becomes_ok; [| exact Hb4 | exact Hok3]).
    destruct Hb4 as (Hr4 & _ & Hc4 & Hl4 & Hth4). pose proof (mtime_regs _ _ Hr4) as Hm4.
    exists s4, t. split; [done |]. split; [done |].
    split; [eapply calm_trans; [done | eapply calm_trans; [done | eapply calm_trans; [by apply same_calm | done]]] |].
    split; [intros j Hj; by rewrite Hl4, Hl3, decide_False, Hl2, Hl1 by done |].
    split; [congruence |]. split; [destruct Hsame3 as (_ & ? & _), Hc2, Hc4; lia |].
    unfold armed. rewrite Hm4, Hm3, Hm2. split; [intros; lia |]. intros _.
    by rewrite Hl4, Hl3, Hth4, !decide_True by done.
Qed.

(** ** A pass of interrupt *)

Lemma interrupts_eq n : forall i s, rc_ok s -> (i + n <= rc_harts)%nat ->
  exists s', rc_interrupts i n s = (Ret tt, s') /\ rc_ok s' /\ rc_calm s s' /\ rc_mtime_of s' = rc_mtime_of s /\
    (forall j, (i <= j < i + n)%nat -> rc_mtimecmp_of s j <= rc_mtime_of s -> rc_timer_line s' j = true) /\
    (forall j, rc_timer_line s j = true -> rc_timer_line s' j = true).
Proof.
  induction n as [|n IH]; intros i s Hok Hi; cbn [rc_interrupts].
  - exists s. split; [done |]. split; [done |]. split; [constructor; (done || lia) |]. split; [done |]. split; [lia | done].
  - unfold mbind at 1, M_bind at 1. rewrite at_mtimecmp by (done || lia). unfold mbind at 1, M_bind at 1.
    unfold integer_read, gets. change (elem uint64_t 0 (rr_mem rc_mtime s)) with (rc_mtime_of s).
    assert (Hstep : exists s1, when (rc_mtimecmp_of s i <=? rc_mtime_of s)
        (rc_hart (Z.of_nat i) (fun i => rc_timer_interrupt i true)) s = (Ret tt, s1) /\ get_rc s1 = get_rc s /\
      rc_calm s s1 /\ timer_thread s1 = timer_thread s /\
      (rc_mtimecmp_of s i <= rc_mtime_of s -> rc_timer_line s1 i = true) /\
      (forall j, rc_timer_line s j = true -> rc_timer_line s1 j = true)).
    { destruct (Z.leb_spec (rc_mtimecmp_of s i) (rc_mtime_of s)); cbn [when].
      - rewrite hart_eq by lia. destruct (rc_timer_ok i true s) as (s1 & Hs1 & Hsame1 & Hl1 & Hth1). exists s1.
        split; [done |]. split; [apply Hsame1 |]. split; [by apply same_calm |]. split; [done |].
        split; [intros _; by rewrite Hl1, decide_True |]. intros j Hj. rewrite Hl1. by case_decide.
      - exists s. split; [done |]. split; [done |]. split; [constructor; (done || lia) |]. split; [done |]. split; [lia | done]. }
    destruct Hstep as (s1 & Hs1 & Hg1 & Hc1 & Hth1 & Hline & Hmono). unfold mbind, M_bind. rewrite Hs1.
    pose proof (mtime_regs s s1 ltac:(by rewrite Hg1)) as Hm1.
    destruct (IH (Datatypes.S i) s1 (rc_ok_same _ _ Hg1 Hth1 Hok) ltac:(lia)) as (s2 & Hs2 & Hok2 & Hc2 & Hm2 & Hdue & Hmono2).
    exists s2. split; [done |]. split; [done |]. split; [by eapply calm_trans |]. split; [congruence |]. split.
    + intros j Hj Hcmp. destruct (decide (j = i)) as [-> |]; [by apply Hmono2, Hline |].
      apply Hdue; [lia |]. by rewrite Hm1, (calm_mtimecmp _ _ j Hc1).
    + intros j Hj. by apply Hmono2, Hmono.
Qed.

(** Once the clock has reached the comparator, a pass raises the line. *)
Lemma interrupt_eq s i : rc_ok s -> (i < rc_harts)%nat ->
  exists s', rc_interrupt s = (Ret tt, s') /\
    (rc_clock s' < 2 ^ 64 * (DIVIDEND * 1000) -> rc_mtimecmp_of s i <= ticks (rc_clock s) -> rc_timer_line s' i = true).
Proof.
  intros Hok Hi. destruct (rc_update_eq s Hok) as (s1 & t & Hs1 & Hok1 & Hc1 & Hm1 & Ht & Hct & _ & Hl1 & Hth1).
  destruct (interrupts_eq rc_harts 0 s1 Hok1 ltac:(lia)) as (s2 & Hs2 & _ & Hc2 & _ & Hdue & _).
  exists s2. unfold rc_interrupt, mbind, M_bind. rewrite Hs1. split; [done |]. intros Hsmall Hcmp.
  apply Hdue; [lia |]. rewrite (calm_mtimecmp _ _ i Hc1), Hm1. pose proof (rc_clock_nonneg s).
  assert (Hmono : ticks (rc_clock s) <= ticks t).
  { unfold ticks. do 2 (apply Z.div_le_mono; [done |]). lia. }
  assert (Hr : is_uint 64 (ticks t)).
  { destruct Hc2 as [_ _ Hcl _]. unfold is_uint, ticks. change DIVIDEND with 30 in *. split.
    - do 2 (apply Z.div_pos; [| done]). lia.
    - apply Z.div_lt_upper_bound; [done |]. apply Z.div_lt_upper_bound; [done |]. lia. }
  unfold uint64. rewrite uint_id by done. lia.
Qed.

(** ** The timer interrupt *)

Lemma rc_mtimecmp_access s i v : rc_ok s -> rc_harts_ok -> (i < rc_harts)%nat ->
  range_access s (rc_mtimecmp_range (Some rc_post_write_mtimecmp) None)
    (word_write (MTIMECMP_BASE + 8 * Z.of_nat i) uint64_t v).
Proof.
  intros Hok Hh Hi. unfold rc_harts_ok in Hh. constructor; try rewrite data_length_word.
  - constructor.
    + intros m. change (mtimecmp_mem (rc_regs (get_rc (rc_set_mtimecmp m s))) = m). unfold rc_set_mtimecmp, set_rc_regs.
      by destruct (set_rc_ok (mkRealCLINT (mkCLINT (mtime_mem (rc_regs (get_rc s))) m (msip_mem (rc_regs (get_rc s))))
        (rc_running (get_rc s))) s) as [-> _].
    + cbn. unfold MTIMECMP_BASE, MTIMECMP_SIZE. lia.
    + unfold rr_size. cbn [rr_mem rc_mtimecmp_range rc_range rr_start rr_end].
      rewrite (rc_mtimecmp_len _ Hok). unfold MTIMECMP_SIZE. lia.
  - unfold range_contains. cbn. unfold MTIMECMP_BASE, MTIMECMP_SIZE. lia.
  - cbn [rr_alignment rc_mtimecmp_range rc_range address word_write]. unfold MTIMECMP_BASE.
    replace (0x4000 + 8 * Z.of_nat i) with ((0x1000 + 2 * Z.of_nat i) * 4) by lia. apply Z_mod_mult.
  - done.
  - cbn. unfold MTIMECMP_BASE, MTIMECMP_SIZE. lia.
  - cbn. unfold MTIMECMP_BASE, MTIMECMP_SIZE. lia.
Qed.

(** The bytes of a comparator. *)
Lemma write_mtimecmp s i v : rc_ok s -> rc_harts_ok -> (i < rc_harts)%nat -> is_uint 64 v ->
  let s' := write_bytes (rc_mtimecmp_range (Some rc_post_write_mtimecmp) None)
    (word_write (MTIMECMP_BASE + 8 * Z.of_nat i) uint64_t v) s in
  rc_ok s' /\ rc_mtimecmp_of s' i = v /\ (forall j, j <> i -> rc_mtimecmp_of s' j = rc_mtimecmp_of s j) /\
  rc_clock s' = rc_clock s /\ rc_timer_line s' = rc_timer_line s /\ rc_software_line s' = rc_software_line s /\
  msip_mem (rc_regs (get_rc s')) = msip_mem (rc_regs (get_rc s)).
Proof.
  intros Hok Hh Hi Hv s'.
  set (d := mkRealCLINT (mkCLINT (mtime_mem (rc_regs (get_rc s)))
    (set_elem uint64_t (Z.of_nat i) v (mtimecmp_mem (rc_regs (get_rc s)))) (msip_mem (rc_regs (get_rc s))))
    (rc_running (get_rc s))).
  assert (Hs' : s' = set_rc d s) by (unfold s'; by rewrite (write_elem _ uint64_t (Z.of_nat i) v) by (done || lia)).
  destruct (set_rc_ok d s) as (Hg & Hc & Hl & Hsl & Hth). rewrite <- Hs' in Hg, Hc, Hl, Hsl, Hth.
  split.
  { destruct Hok as [? ? ? Hthr]. constructor; rewrite ?Hg; cbn [d rc_regs rc_running mtime_mem mtimecmp_mem];
      rewrite ?length_set_elem; try done. intros j. rewrite Hth. apply Hthr. }
  unfold rc_mtimecmp_of. rewrite Hg. cbn [d rc_regs mtimecmp_mem msip_mem]. split.
  { rewrite elem_set_same; [by apply (to_type_id uint64_t) | done |]. rewrite rc_mtimecmp_size by done. lia. }
  split; [| done]. intros j Hj. by rewrite elem_set_other by (done || lia).
Qed.

(** C18: the timer of a hart wakes it.  A write of the comparator of a hart sets
    mtime to the ticks of the clock and leaves the other registers and lines as
    they are.  If the comparator has been reached, the interrupt line of the hart
    goes up and it has no timer thread; if not, the line goes down, and the thread
    of the hart sleeps for the ticks that are missing.  Unless these are so many
    that their microseconds do not fit in 64 bits, the thread notifies the
    device, not before the clock has reached the comparator, and a pass of
    [interrupt] from then on raises the line. *)
Theorem real_clint_timer (s : S) (i : nat) (cmp delay : Z) :
  rc_ok s -> rc_harts_ok -> (i < rc_harts)%nat -> is_uint 64 cmp ->
  let trans := word_write (MTIMECMP_BASE + 8 * Z.of_nat i) uint64_t cmp in
  exists s1, rc_transport trans delay s = (Ret (trans, delay), s1) /\ rc_ok s1 /\
    rc_mtimecmp_of s1 i = cmp /\
    (forall j, j <> i -> rc_mtimecmp_of s1 j = rc_mtimecmp_of s j /\ rc_timer_line s1 j = rc_timer_line s j) /\
    msip_mem (rc_regs (get_rc s1)) = msip_mem (rc_regs (get_rc s)) /\ rc_software_line s1 = rc_software_line s /\
    armed i cmp s1 /\
    (rc_mtime_of s1 < cmp -> (cmp - rc_mtime_of s1) * DIVIDEND < 2 ^ 64 ->
     forall s2, rc_clock s1 <= rc_clock s2 ->
     exists s3, Timer_callback (ticks_to_usec (cmp - rc_mtime_of s1)) s2 = rc_event_notify s3 /\
       forall s4, rc_clock s3 <= rc_clock s4 -> rc_ok s4 -> rc_mtimecmp_of s4 i = cmp ->
       exists s5, rc_interrupt s4 = (Ret tt, s5) /\
         (rc_clock s5 < 2 ^ 64 * (DIVIDEND * 1000) -> rc_timer_line s5 i = true)).
Proof.
  intros Hok Hh Hi Hcmp trans. pose proof (rc_mtimecmp_access s i cmp Hok Hh Hi) as Hacc. fold trans in Hacc.
  destruct (write_mtimecmp s i cmp Hok Hh Hi Hcmp) as (Hok0 & Hv0 & Ho0 & Hc0 & Hl0 & Hsl0 & Hms0).
  fold trans in Hok0, Hv0, Ho0, Hc0, Hl0, Hsl0, Hms0. set (s0 := write_bytes _ trans s) in *.
  destruct (post_write_eq s0 i (access_info (rc_mtimecmp_range (Some rc_post_write_mtimecmp) None) trans delay)
    Hok0 Hh Hi ltac:(cbn; lia)) as (s1 & t & Hs1 & Hok1 & Hc1 & Hl1 & Hm1 & Ht & Harm). rewrite Hv0 in Harm.
  exists s1. split.
  { unfold rc_transport. unfold mbind at 1, M_bind at 1. unfold rc_register_ranges.
    rewrite (route_first _ [] (rc_mtimecmp_range (Some rc_post_write_mtimecmp) None)
      [rc_msip_range (Some rc_post_write_msip) None; rc_mtime_range (Some rc_post_write_mtime) (Some rc_pre_read_mtime)]);
      [| done | apply Hacc | done].
    rewrite process_write_eq by done. unfold mbind at 1, M_bind at 1. fold s0.
    cbn [run_post post_write_callback rc_mtimecmp_range rc_range]. by rewrite Hs1. }
  split; [done |]. split; [by rewrite (calm_mtimecmp _ _ i Hc1) |].
  split; [intros j Hj; by rewrite (calm_mtimecmp _ _ j Hc1), Ho0, Hl1, Hl0 by done |].
  split; [by rewrite (calm_msip _ _ Hc1) |]. split; [by rewrite (calm_software _ _ Hc1) |]. split; [done |].
  intros Hlt Hsmall s2 Hc2. assert (Hk0 : 0 < cmp - rc_mtime_of s1) by lia.
  set (k := cmp - rc_mtime_of s1) in *.
  assert (Hd : ticks_to_usec k = k * DIVIDEND).
  { apply uint_id. unfold is_uint. change DIVIDEND with 30 in *. lia. }
  rewrite Hd. destruct (callback_sleep_ok (Z.to_nat (k * DIVIDEND / US_MAX)) (k * DIVIDEND) s2) as (s3 & Hs3 & Hc3).
  { change DIVIDEND with 30. lia. }
  { change DIVIDEND with 30. rewrite Z2Nat.id by (apply Z.div_pos; [lia | done]). lia. }
  exists s3. split.
  { unfold Timer_callback, mbind, M_bind. rewrite Hs3. done. }
  intros s4 Hc4 Hok4 Hv4. destruct (interrupt_eq s4 i Hok4 Hi) as (s5 & Hs5 & Hline). exists s5. split; [done |].
  intros Hend. apply Hline; [done |]. rewrite Hv4. 
  assert (Hk : ticks t + k <= ticks (rc_clock s4)) by (apply ticks_later; [lia |]; change DIVIDEND with 30 in *; lia).
  enough (rc_mtime_of s1 <= ticks t) by lia. rewrite Hm1. apply Z.mod_le; [| done].
  unfold ticks. do 2 (apply Z.div_pos; [| done]). lia.
Qed.

End real.

(** ** A bench

    A clock that stands still except while a thread sleeps. *)
Record rc_bench : Type := mkRcBench {
  rb_rc : RealCLINT;
  rb_clock : Z;
  rb_timer : nat -> bool;
  rb_software : nat -> bool;
  rb_threads : nat -> option Z
}.

Definition rb_set_timer (i : nat) (b : bool) (s : rc_bench) : rc_bench :=
  mkRcBench (rb_rc s) (rb_clock s) (set_line i b (rb_timer s)) (rb_software s) (rb_threads s).
Definition rb_set_thread (i : nat) (d : option Z) (s : rc_bench) : rc_bench :=
  mkRcBench (rb_rc s) (rb_clock s) (rb_timer s) (rb_software s)
    (fun j => if decide (j = i) then d else rb_threads s j).

#[export] Instance rc_bench_interface : real_clint_interface rc_bench unit := {
  rc_harts := 1;
  get_rc := rb_rc;
  set_rc d s := mkRcBench d (rb_clock s) (rb_timer s) (rb_software s) (rb_threads s);
  rc_now := gets (fun s => Z.max 0 (rb_clock s) / 1000);
  timer_create i d := modify (rb_set_thread i (Some d));
  timer_cancel _ := skip;
  timer_join i := modify (rb_set_thread i None);
  nanosleep ns s := (Ret true, mkRcBench (rb_rc s) (Z.max 0 (rb_clock s) + ns) (rb_timer s) (rb_software s) (rb_threads s));
  rc_event_notify := skip;
  rc_timer_interrupt i b := modify (rb_set_timer i b);
  rc_software_interrupt i b := modify (fun s =>
    mkRcBench (rb_rc s) (rb_clock s) (rb_timer s) (set_line i b (rb_software s)) (rb_threads s))
}.

#[export] Instance rc_bench_system : real_clint_system rc_bench unit.
Proof.
  refine {| rc_clock s := Z.max 0 (rb_clock s); rc_timer_line := rb_timer; rc_software_line := rb_software;
            timer_thread := rb_threads |}; intros; try (eexists; split; [reflexivity |]); cbn; (done || lia).
Defined.

Definition rc_bench_start : rc_bench :=
  mkRcBench (RealCLINT_new 1) 0 (fun _ => false) (fun _ => false) (fun _ => None).

Lemma rc_bench_ok : rc_ok rc_bench_start.
Proof. constructor; done. Qed.

(** Three ticks: the thread sleeps for 90 microseconds, then the line goes up. *)
Lemma real_clint_timer_witness :
  exists s1 s3 s5, rc_transport (word_write MTIMECMP_BASE uint64_t 3) 0 rc_bench_start
      = (Ret (word_write MTIMECMP_BASE uint64_t 3, 0), s1) /\
    rc_timer_line s1 0 = false /\ timer_thread s1 0 = Some 90 /\
    Timer_callback 90 s1 = rc_event_notify s3 /\ rc_interrupt s3 = (Ret tt, s5) /\ rc_timer_line s5 0 = true.
Proof.
  destruct (real_clint_timer (E := unit) rc_bench_start 0 3 0 rc_bench_ok ltac:(unfold rc_harts_ok; cbn; lia)
    ltac:(cbn; lia) ltac:(by apply is_uint_literal)) as (s1 & Hs & Hok & Hcmp & _ & _ & _ & [_ Harm] & Hwake).
  assert (E1 : s1 = snd (rc_transport (E := unit) (word_write MTIMECMP_BASE uint64_t 3) 0 rc_bench_start)).
  { change (word_write MTIMECMP_BASE uint64_t 3) with (word_write (MTIMECMP_BASE + 8 * Z.of_nat 0) uint64_t 3).
    by rewrite Hs. }
  assert (Hm : rc_mtime_of s1 = 0) by (rewrite E1; by vm_compute). rewrite Hm in Harm, Hwake.
  destruct (Harm ltac:(lia)) as [Hline Hth].
  destruct (Hwake ltac:(lia) ltac:(done) s1 ltac:(lia)) as (s3 & Hs3 & Hint).
  assert (E3 : s3 = snd (Timer_callback (E := unit) 90 s1)) by (change 90 with (ticks_to_usec (3 - 0)); by rewrite Hs3).
  destruct (Hint s3 ltac:(lia)) as (s5 & Hs5 & Hup).
  { rewrite E3, E1. constructor; try by vm_compute. intros [|i]; vm_compute; done. }
  { rewrite E3, E1. by vm_compute. }
  assert (E5 : s5 = snd (rc_interrupt (E := unit) s3)) by (by rewrite Hs5).
  exists s1, s3, s5. split; [exact Hs |]. split; [exact Hline |]. split; [exact Hth |]. split; [exact Hs3 |].
  split; [exact Hs5 |]. apply Hup. rewrite E5, E3, E1. by vm_compute.
Defined.
