(* ===== verification/IrqSearch.v ===== *)
(** * Interrupt sources

    Lemmas the interrupt controllers share: the bits of an array of 32-bit words
    that stand for the sources, and the search for the source of the highest
    priority. *)

From S2P Require Import Prelude Memory MemoryMap.

(** ** Words of bits *)

(** The bit of source [i]. *)
Definition source_bit (mem : list Z) (i : nat) : bool :=
  Z.testbit (elem uint32_t (Z.of_nat i / 32) mem) (Z.of_nat i mod 32).

Lemma bit_test v k : 0 <= k -> nonzero (v .& (1 .<< k)) = Z.testbit v k.
Proof.
  intros Hk. rewrite Z.shiftl_1_l. unfold nonzero. destruct (Z.testbit v k) eqn:Hb.
  - destruct (Z.eqb_spec (v .& 2 ^ k) 0) as [E0|]; [| done].
    assert (Ht : Z.testbit (v .& 2 ^ k) k = true).
    { by rewrite Z.land_spec, Hb, Z.pow2_bits_true. }
    by rewrite E0, Z.bits_0 in Ht.
  - destruct (Z.eqb_spec (v .& 2 ^ k) 0) as [|E0]; [done |]. exfalso. apply E0.
    apply Z.bits_inj'. intros j Hj. rewrite Z.land_spec, Z.bits_0.
    destruct (decide (j = k)) as [->|]; [by rewrite Hb |].
    rewrite Z.pow2_bits_false by lia. apply andb_false_r.
Qed.

Lemma view_size_words (mem : list Z) n : length mem = (4 * n)%nat -> view_size uint32_t mem = Z.of_nat n.
Proof.
  intros Hl. unfold view_size. rewrite Hl. change (Z.of_nat (sizeof uint32_t)) with 4.
  rewrite Nat2Z.inj_mul, Z.mul_comm. by apply Z.div_mul.
Qed.

Lemma word_index_pos i : 0 <= Z.of_nat i / 32.
Proof. apply Z.div_pos; lia. Qed.

Lemma word_index i n : (i < 32 * n)%nat -> 0 <= Z.of_nat i / 32 < Z.of_nat n.
Proof. intros ?. split; [apply word_index_pos |]. apply Z.div_lt_upper_bound; lia. Qed.

Lemma same_source i j :
  Z.of_nat j / 32 = Z.of_nat i / 32 -> (Z.of_nat j mod 32 = Z.of_nat i mod 32 <-> j = i).
Proof.
  intros Hd. split; [| by intros ->]. intros Hm.
  pose proof (Z.div_mod (Z.of_nat j) 32 ltac:(done)). pose proof (Z.div_mod (Z.of_nat i) 32 ltac:(done)). lia.
Qed.

Definition source_word (mem : list Z) (i : nat) : Z := elem uint32_t (Z.of_nat i / 32) mem.
Definition source_mask (i : nat) : Z := 1 .<< (Z.of_nat i mod 32).

Definition clear_source (i : nat) (mem : list Z) : list Z :=
  set_elem uint32_t (Z.of_nat i / 32) (source_word mem i .& uint32 (Z.lnot (source_mask i))) mem.
Definition set_source (i : nat) (mem : list Z) : list Z :=
  set_elem uint32_t (Z.of_nat i / 32) (source_word mem i .| source_mask i) mem.

Lemma source_mask_range i : is_uint 32 (source_mask i).
Proof.
  unfold source_mask. rewrite Z.shiftl_1_l. pose proof (Z.mod_pos_bound (Z.of_nat i) 32 ltac:(done)).
  unfold is_uint. pose proof (Z.pow_lt_mono_r 2 (Z.of_nat i mod 32) 32 ltac:(lia) ltac:(lia) ltac:(lia)).
  pose proof (Z.pow_pos_nonneg 2 (Z.of_nat i mod 32)). lia.
Qed.

(** A write to the word of a source: only its bits change. *)
Lemma source_bit_set_word i j v mem : 0 <= Z.of_nat i / 32 < view_size uint32_t mem -> is_uint 32 v ->
  source_bit (set_elem uint32_t (Z.of_nat i / 32) v mem) j
  = if Z.of_nat j / 32 =? Z.of_nat i / 32 then Z.testbit v (Z.of_nat j mod 32) else source_bit mem j.
Proof.
  intros Hi Hv. unfold source_bit.
  destruct (Z.eqb_spec (Z.of_nat j / 32) (Z.of_nat i / 32)) as [->|].
  - rewrite elem_set_same by done. by rewrite (to_type_id uint32_t).
  - rewrite elem_set_other; [done | done | lia | apply word_index_pos | done].
Qed.

Lemma mask_testbit i j : 0 <= j < 32 -> Z.testbit (source_mask i) j = (Z.of_nat i mod 32 =? j).
Proof.
  intros Hj. pose proof (Z.mod_pos_bound (Z.of_nat i) 32 ltac:(done)).
  unfold source_mask. by rewrite Z.shiftl_1_l, Z.pow2_bits_eqb by lia.
Qed.

Lemma clear_source_spec i j mem : 0 <= Z.of_nat i / 32 < view_size uint32_t mem ->
  source_bit (clear_source i mem) j = source_bit mem j && negb (Nat.eqb j i).
Proof.
  intros Hi. pose proof (Z.mod_pos_bound (Z.of_nat j) 32 ltac:(done)). unfold clear_source.
  rewrite source_bit_set_word; [| done | apply is_uint_land_l; [lia | apply (elem_range uint32_t)]].
  destruct (Z.eqb_spec (Z.of_nat j / 32) (Z.of_nat i / 32)) as [Hd|Hd].
  - rewrite Z.land_spec. unfold uint32. rewrite uint_testbit_low, Z.lnot_spec, mask_testbit by lia.
    unfold source_bit, source_word. rewrite <- Hd. f_equal. f_equal. pose proof (same_source i j Hd).
    destruct (Z.eqb_spec (Z.of_nat i mod 32) (Z.of_nat j mod 32)), (Nat.eqb_spec j i); (done || lia).
  - destruct (Nat.eqb_spec j i) as [->|]; [done | by rewrite andb_true_r].
Qed.

Lemma set_source_spec i j mem : 0 <= Z.of_nat i / 32 < view_size uint32_t mem ->
  source_bit (set_source i mem) j = source_bit mem j || Nat.eqb j i.
Proof.
  intros Hi. pose proof (Z.mod_pos_bound (Z.of_nat j) 32 ltac:(done)). unfold set_source.
  rewrite source_bit_set_word; [| done |].
  2: { apply is_uint_lor; [lia | apply (elem_range uint32_t) | apply source_mask_range]. }
  destruct (Z.eqb_spec (Z.of_nat j / 32) (Z.of_nat i / 32)) as [Hd|Hd].
  - rewrite Z.lor_spec, mask_testbit by lia. unfold source_bit, source_word. rewrite <- Hd. f_equal.
    pose proof (same_source i j Hd).
    destruct (Z.eqb_spec (Z.of_nat i mod 32) (Z.of_nat j mod 32)), (Nat.eqb_spec j i); (done || lia).
  - destruct (Nat.eqb_spec j i) as [->|]; [done | by rewrite orb_false_r].
Qed.

(** ** The search *)

Section search.
Context (cand : nat -> bool) (prio : nat -> Z).

(** The loop over [n] sources from [i]: the best so far and its priority. *)
Fixpoint best (i n : nat) (id mx : Z) : Z :=
  match n with
  | O => id
  | S n =>
      if cand i && (mx <? prio i) then best (S i) n (Z.of_nat i) (prio i) else best (S i) n id mx
  end.

(** The candidate with the highest priority, the lowest numbered one among
    equals; 0 if there is none. *)
Definition most_urgent (N r : nat) : Prop :=
  (r = 0%nat /\ forall i, (1 <= i < N)%nat -> cand i = false) \/
  (1 <= r < N)%nat /\ cand r = true /\
  forall i, (1 <= i < N)%nat -> cand i = true -> prio i < prio r \/ prio i = prio r /\ (r <= i)%nat.

Lemma best_spec n : forall i id mx,
  let r := best i n id mx in
  (r = id /\ forall j, (i <= j < i + n)%nat -> cand j = true -> prio j <= mx) \/
  exists k, r = Z.of_nat k /\ (i <= k < i + n)%nat /\ cand k = true /\ mx < prio k /\
    forall j, (i <= j < i + n)%nat -> cand j = true ->
      prio j < prio k \/ prio j = prio k /\ (k <= j)%nat.
Proof.
  induction n as [|n IH]; intros i id mx; cbn [best]; [left; split; [done | lia] |].
  destruct (cand i && (mx <? prio i)) eqn:Hc.
  - apply andb_true_iff in Hc as [Hc Hp]. right.
    destruct (IH (S i) (Z.of_nat i) (prio i)) as [[Hr Hj]|(k & Hr & Hk & Hck & Hpk & Hj)].
    + exists i. split; [exact Hr |]. split; [lia |]. split; [done |]. split; [lia |].
      intros j Hji Hcj. destruct (decide (j = i)) as [->|]; [right; lia |].
      specialize (Hj j ltac:(lia) Hcj). lia.
    + exists k. split; [exact Hr |]. split; [lia |]. split; [done |]. split; [lia |].
      intros j Hji Hcj. destruct (decide (j = i)) as [->|]; [left; lia |]. apply Hj; [lia | done].
  - destruct (IH (S i) id mx) as [[Hr Hj]|(k & Hr & Hk & Hck & Hpk & Hj)].
    + left. split; [exact Hr |]. intros j Hji Hcj.
      destruct (decide (j = i)) as [->|]; [rewrite Hcj in Hc; simpl in Hc; lia |]. apply Hj; [lia | done].
    + right. exists k. split; [exact Hr |]. split; [lia |]. split; [done |]. split; [lia |].
      intros j Hji Hcj. destruct (decide (j = i)) as [->|]; [| apply Hj; [lia | done]].
      rewrite Hcj in Hc. simpl in Hc. left. lia.
Qed.

Lemma best_most_urgent N : (0 < N)%nat -> (forall i, cand i = true -> 0 < prio i) ->
  exists r, best 1 (N - 1) 0 0 = Z.of_nat r /\ most_urgent N r.
Proof.
  intros HN Hpos. destruct (best_spec (N - 1) 1 0 0) as [[-> Hj]|(k & -> & Hk & Hck & _ & Hj)].
  - exists 0%nat. split; [done |]. left. split; [done |]. intros i Hi.
    destruct (cand i) eqn:Hc; [| done]. exfalso.
    specialize (Hj i ltac:(lia) Hc). apply Hpos in Hc. lia.
  - exists k. split; [done |]. right. split; [lia |]. split; [done |]. intros i Hi. apply Hj. lia.
Qed.

Lemma most_urgent_zero N : most_urgent N 0 <-> forall i, (1 <= i < N)%nat -> cand i = false.
Proof. split; [intros [[_ ?]|[? _]]; [done | lia] | intros ?; by left]. Qed.

Lemma most_urgent_some N r : most_urgent N r -> r <> 0%nat -> (1 <= r < N)%nat /\ cand r = true.
Proof. intros [[-> _]|(? & ? & _)]; done. Qed.

Lemma most_urgent_lt N r : (0 < N)%nat -> most_urgent N r -> (r < N)%nat.
Proof. intros ? [[-> _]|(? & _)]; lia. Qed.

End search.
