(* ===== verification/Plic.v ===== *)
(** * The platform level interrupt controller of the FE310

    Models platform/common/fe310_plic.h: the registers, the gateway of the
    interrupt sources, the search for the interrupt a hart takes next, the claim
    and completion register, and the body of the thread that raises the external
    interrupt of the harts.  The kernel's event and the harts are the class
    [plic_interface]. *)

From Stdlib Require Import FunctionalExtensionality.
From S2P Require Import Prelude Memory MemoryMap IrqSearch.

Record FE310_PLIC : Type := mkPLIC {
  priorities_mem : list Z;
  pending_mem : list Z;
  enabled_mem : list Z;
  config_mem : list Z;
  irq_level : Z;
  hart_eip : list bool
}.

Class plic_interface (S E : Type) : Type := {
  NumberCores : nat;
  NumberInterrupts : nat;
  NumberInterruptEntries : nat;
  MaxPriority : Z;
  get_plic : S -> FE310_PLIC;
  set_plic : FE310_PLIC -> S -> S;
  e_run_notify : Z -> M S E unit;
  target_trigger_external : nat -> Z -> M S E unit;
  target_clear_external : nat -> Z -> M S E unit
}.

Definition plic_clock_cycle : Z := 10 * NS.

Section PLIC.
Context {S E : Type} `{plic_interface S E}.

Abbreviation R := (M S E).

Definition with_priorities (m : list Z) (p : FE310_PLIC) : FE310_PLIC :=
  mkPLIC m (pending_mem p) (enabled_mem p) (config_mem p) (irq_level p) (hart_eip p).
Definition with_pending (m : list Z) (p : FE310_PLIC) : FE310_PLIC :=
  mkPLIC (priorities_mem p) m (enabled_mem p) (config_mem p) (irq_level p) (hart_eip p).
Definition with_enabled (m : list Z) (p : FE310_PLIC) : FE310_PLIC :=
  mkPLIC (priorities_mem p) (pending_mem p) m (config_mem p) (irq_level p) (hart_eip p).
Definition with_config (m : list Z) (p : FE310_PLIC) : FE310_PLIC :=
  mkPLIC (priorities_mem p) (pending_mem p) (enabled_mem p) m (irq_level p) (hart_eip p).
Definition with_eip (b : list bool) (p : FE310_PLIC) : FE310_PLIC :=
  mkPLIC (priorities_mem p) (pending_mem p) (enabled_mem p) (config_mem p) (irq_level p) b.

Definition plic_range (start size : Z) (get : FE310_PLIC -> list Z)
    (set : list Z -> FE310_PLIC -> FE310_PLIC) (readonly : bool) (alignment : Z)
    (post_write : option (AccessInfo -> R unit)) (pre_read : option (AccessInfo -> R bool)) :
    RegisterRange S E :=
  mkRegisterRange start (start + size - 1) (fun s => get (get_plic s))
    (fun m s => set_plic (set m (get_plic s)) s) readonly alignment None post_write pre_read None.

(** The ranges as the views see them. *)
Definition priorities_view : RegisterRange S E :=
  plic_range 0 (4 * (Z.of_nat NumberInterrupts + 1)) priorities_mem with_priorities false 1 None None.
Definition pending_view : RegisterRange S E :=
  plic_range 0x1000 (4 * Z.of_nat NumberInterruptEntries) pending_mem with_pending true 1 None None.
Definition enabled_view : RegisterRange S E :=
  plic_range 0x2000 (4 * Z.of_nat NumberInterruptEntries * Z.of_nat NumberCores) enabled_mem
    with_enabled false 1 None None.
Definition config_view : RegisterRange S E :=
  plic_range 0x200000 (8 * Z.of_nat NumberCores) config_mem with_config false 4 None None.

(** [hart_config[hart]]: its priority threshold and its claim register. *)
Definition config_index (hart : Z) : R unit :=
  mem ← gets (fun s => config_mem (get_plic s));
  assert (hart <? Z.of_nat (length mem) / 8).
Definition priority_threshold (hart : Z) : R Z :=
  config_index hart ;; index_read uint32_t config_view (2 * hart).
Definition set_claim_response (hart v : Z) : R unit :=
  config_index hart ;; index_write uint32_t config_view (2 * hart + 1) v.

(** ** Pending interrupts *)

Definition plic_gateway_trigger_interrupt (irq_id : Z) : R unit :=
  assert ((0 <? irq_id) && (irq_id <? Z.of_nat NumberInterrupts)) ;;
  let idx := irq_id / 32 in
  let off := irq_id mod 32 in
  v ← array_read uint32_t pending_view idx;
  array_write uint32_t pending_view idx (v .| (1 .<< off)) ;;
  e_run_notify plic_clock_cycle.

Definition clear_pending_interrupt (irq_id : Z) : R unit :=
  assert (irq_id <? Z.of_nat NumberInterrupts) ;;
  let idx := irq_id / 32 in
  let off := irq_id mod 32 in
  v ← array_read uint32_t pending_view idx;
  array_write uint32_t pending_view idx (v .& uint32 (Z.lnot (1 .<< off))).

(** The loop of hart_get_next_pending_interrupt from [i], with [n] rounds to go. *)
Fixpoint next_pending (hart_id : Z) (consider_threshold : bool) (i n : nat) (min_id max_priority : Z) : R Z :=
  match n with
  | O => mret min_id
  | Datatypes.S n =>
      let idx := Z.of_nat i / 32 in
      let off := Z.of_nat i mod 32 in
      let continue := next_pending hart_id consider_threshold (Datatypes.S i) n in
      e ← index_read uint32_t enabled_view (hart_id + idx);
      if nonzero (e .& (1 .<< off)) then
        p ← array_read uint32_t pending_view idx;
        if nonzero (p .& (1 .<< off)) then
          prio ← array_read uint32_t priorities_view (Z.of_nat i);
          if 0 <? prio then
            above ← (if consider_threshold then t ← priority_threshold hart_id; mret (t <? prio)
                     else mret true);
            if (above : bool) && (max_priority <? prio) then continue (Z.of_nat i) prio
            else continue min_id max_priority
          else continue min_id max_priority
        else continue min_id max_priority
      else continue min_id max_priority
  end.

Definition hart_get_next_pending_interrupt (hart_id : Z) (consider_threshold : bool) : R Z :=
  next_pending hart_id consider_threshold 1 (NumberInterrupts - 1) 0 0.

Definition hart_has_pending_enabled_interrupts (hart_id : Z) : R bool :=
  id ← hart_get_next_pending_interrupt hart_id true; mret (0 <? id).

(** ** The registers *)

(** [end()] points at the last element, which the loop leaves out. *)
Fixpoint clamp_priorities (i n : nat) : R unit :=
  match n with
  | O => skip
  | Datatypes.S n =>
      v ← index_read uint32_t priorities_view (Z.of_nat i);
      index_write uint32_t priorities_view (Z.of_nat i) (Z.min v MaxPriority) ;;
      clamp_priorities (Datatypes.S i) n
  end.

Definition post_write_interrupt_priorities (t : AccessInfo) : R unit :=
  mem ← gets (fun s => priorities_mem (get_plic s));
  clamp_priorities 0 (length mem / 4 - 1).

Definition pre_read_hart_config (t : AccessInfo) : R bool :=
  assert (info_addr t mod 4 =? 0) ;;
  let idx := uint32 (info_addr t / 4) in
  when (idx mod 2 =? 1)
    (assert (info_size t =? 4) ;;
     let idx := idx - 1 in
     min_id ← hart_get_next_pending_interrupt 0 false;
     set_claim_response idx min_id ;;
     clear_pending_interrupt min_id) ;;
  mret true.

(** [hart_eip[idx]] of a std::array *)
Definition read_eip (idx : Z) : R bool :=
  b ← gets (fun s => hart_eip (get_plic s) !! Z.to_nat idx);
  match b with Some b => mret b | None => fatal UndefinedBehaviour end.
Definition write_eip (idx : Z) (b : bool) : R unit :=
  old ← read_eip idx;
  modify (fun s => set_plic (with_eip (<[Z.to_nat idx := b]> (hart_eip (get_plic s))) (get_plic s)) s).

Definition post_write_hart_config (t : AccessInfo) : R unit :=
  assert (info_addr t mod 4 =? 0) ;;
  let idx := uint32 (info_addr t / 4) in
  when (idx mod 2 =? 1)
    (assert (info_size t =? 4) ;;
     let idx := idx - 1 in
     level ← gets (fun s => irq_level (get_plic s));
     more ← hart_has_pending_enabled_interrupts idx;
     if (more : bool) then
       eip ← read_eip idx;
       assert eip ;;
       target_trigger_external (Z.to_nat idx) level
     else
       write_eip idx false ;;
       target_clear_external (Z.to_nat idx) level).

Definition regs_interrupt_priorities : RegisterRange S E :=
  plic_range 0 (4 * (Z.of_nat NumberInterrupts + 1)) priorities_mem with_priorities false 1
    (Some post_write_interrupt_priorities) None.
Definition regs_pending_interrupts : RegisterRange S E := pending_view.
Definition regs_hart_enabled_interrupts : RegisterRange S E := enabled_view.
Definition regs_hart_config : RegisterRange S E :=
  plic_range 0x200000 (8 * Z.of_nat NumberCores) config_mem with_config false 4
    (Some post_write_hart_config) (Some pre_read_hart_config).

Definition plic_register_ranges : list (RegisterRange S E) :=
  [regs_interrupt_priorities; regs_pending_interrupts; regs_hart_enabled_interrupts; regs_hart_config].

Definition plic_transport : transport_fn S E := fun trans delay =>
  let delay := delay + 4 * plic_clock_cycle in
  trans ← route plic_register_ranges trans delay; mret (trans, delay).

(** ** The thread *)

(** One hart of the loop of [run]. *)
Definition raise_external (i : nat) : R unit :=
  eip ← read_eip (Z.of_nat i);
  when (negb eip)
    (pending ← hart_has_pending_enabled_interrupts (Z.of_nat i);
     when pending
       (write_eip (Z.of_nat i) true ;;
        level ← gets (fun s => irq_level (get_plic s));
        target_trigger_external i level)).

Fixpoint raise_externals (i n : nat) : R unit :=
  match n with
  | O => skip
  | Datatypes.S n => raise_external i ;; raise_externals (Datatypes.S i) n
  end.

(** The body of the loop of [run], after the wait for the event. *)
Definition plic_run : R unit := raise_externals 0 NumberCores.

End PLIC.

(** The constructor: every priority but the last is one, everything is disabled. *)
Definition FE310_PLIC_new (cores interrupts entries : nat) (level : Z) : FE310_PLIC :=
  mkPLIC (concat (replicate interrupts (to_bytes uint32_t 1)) ++ replicate 4 0)
    (replicate (4 * entries) 0) (replicate (4 * entries * cores) 0) (replicate (8 * cores) 0)
    level (replicate cores false).

(** ** The environment *)

(** What the theorems use of the kernel and the harts: a call changes only the
    interrupt line or the event it names. *)
Class plic_system (S E : Type) `{plic_interface S E} : Type := {
  external_line : S -> nat -> bool;
  run_notified : S -> bool;
  set_plic_ok p s :
    get_plic (set_plic p s) = p /\ external_line (set_plic p s) = external_line s /\
    run_notified (set_plic p s) = run_notified s;
  e_run_notify_ok t s : exists s', e_run_notify t s = (Ret tt, s') /\
    get_plic s' = get_plic s /\ external_line s' = external_line s /\ run_notified s' = true;
  trigger_external_ok i l s : exists s', target_trigger_external i l s = (Ret tt, s') /\
    get_plic s' = get_plic s /\
    (forall j, external_line s' j = if decide (j = i) then true else external_line s j) /\
    run_notified s' = run_notified s;
  clear_external_ok i l s : exists s', target_clear_external i l s = (Ret tt, s') /\
    get_plic s' = get_plic s /\
    (forall j, external_line s' j = if decide (j = i) then false else external_line s j) /\
    run_notified s' = run_notified s
}.

Section plic.
Context {S E : Type} `{Hsys : plic_system S E}.
#[local] Set Default Proof Using "Type Hsys".

(** The fields of the registers. *)
Definition priority (s : S) (i : nat) : Z := elem uint32_t (Z.of_nat i) (priorities_mem (get_plic s)).
Definition pending (s : S) (i : nat) : bool :=
  source_bit (pending_mem (get_plic s)) i.
Definition enabled (s : S) (h i : nat) : bool :=
  Z.testbit (elem uint32_t (Z.of_nat h + Z.of_nat i / 32) (enabled_mem (get_plic s))) (Z.of_nat i mod 32).
Definition threshold (s : S) (h : nat) : Z := elem uint32_t (2 * Z.of_nat h) (config_mem (get_plic s)).
Definition eip (s : S) (h : nat) : bool := default false (hart_eip (get_plic s) !! h).

Definition candidate (s : S) (h : nat) (above : bool) (i : nat) : bool :=
  enabled s h i && pending s i && (0 <? priority s i) && (negb above || (threshold s h <? priority s i)).

(** The interrupt a hart takes next: the pending and enabled one with the highest
    priority, the lowest numbered one among equals; 0 if there is none. *)
Definition selects (s : S) (h : nat) (above : bool) (r : nat) : Prop :=
  most_urgent (candidate s h above) (priority s) NumberInterrupts r.

Record plic_ok (s : S) : Prop := {
  plic_sizes : (0 < NumberCores)%nat /\ Z.of_nat NumberCores <= 15360 /\
    (0 < NumberInterrupts <= 32 * NumberInterruptEntries)%nat /\ Z.of_nat NumberInterrupts <= 4096;
  plic_layout : 4 * Z.of_nat NumberInterruptEntries * Z.of_nat NumberCores <= 0x1fe000;
  plic_priorities : length (priorities_mem (get_plic s)) = (4 * (NumberInterrupts + 1))%nat;
  plic_pending : length (pending_mem (get_plic s)) = (4 * NumberInterruptEntries)%nat;
  plic_enabled : length (enabled_mem (get_plic s)) = (4 * NumberInterruptEntries * NumberCores)%nat;
  plic_config : length (config_mem (get_plic s)) = (8 * NumberCores)%nat;
  plic_eip : length (hart_eip (get_plic s)) = NumberCores
}.

(** ** Reads of the registers *)

Lemma enabled_words s : plic_ok s ->
  view_size uint32_t (enabled_mem (get_plic s)) = Z.of_nat NumberInterruptEntries * Z.of_nat NumberCores.
Proof.
  intros Hok. rewrite (view_size_words _ (NumberInterruptEntries * NumberCores)); [lia |].
  rewrite (plic_enabled _ Hok). by rewrite Nat.mul_assoc.
Qed.

Lemma priority_threshold_eq s h : plic_ok s -> (h < NumberCores)%nat ->
  priority_threshold (Z.of_nat h) s = (Ret (threshold s h), s).
Proof.
  intros Hok Hh. pose proof (plic_config _ Hok) as Hl.
  unfold priority_threshold, config_index, gets. unfold mbind at 1, M_bind at 1.
  unfold mbind at 1, M_bind at 1. cbv beta iota. rewrite Hl.
  assert ((Z.of_nat h <? Z.of_nat (8 * NumberCores) / 8) = true) as ->.
  { rewrite Nat2Z.inj_mul, Z.mul_comm, Z.div_mul by done. lia. }
  cbn [assert skip mret M_ret]. rewrite ptr_read_eq; [done |].
  change (rr_mem config_view s) with (config_mem (get_plic s)).
  rewrite (view_size_words _ (2 * NumberCores)) by lia. lia.
Qed.

(** ** The search *)

Lemma next_pending_eq s h above n : plic_ok s -> (h < NumberCores)%nat ->
  forall i id mx, (i + n <= NumberInterrupts)%nat ->
  next_pending (Z.of_nat h) above i n id mx s = (Ret (best (candidate s h above) (priority s) i n id mx), s).
Proof.
  intros Hok Hh. pose proof (plic_sizes _ Hok) as (Hc & _ & Hn & _).
  induction n as [|n IH]; intros i id mx Hi; cbn [next_pending best]; [done |].
  pose proof (word_index i NumberInterruptEntries ltac:(lia)) as Hw.
  assert (Hoff : 0 <= Z.of_nat i mod 32) by (apply Z.mod_pos_bound; lia).
  unfold mbind at 1, M_bind at 1. rewrite ptr_read_eq.
  2: { change (rr_mem enabled_view s) with (enabled_mem (get_plic s)).
       rewrite enabled_words by done. nia. }
  change (rr_mem enabled_view s) with (enabled_mem (get_plic s)). rewrite bit_test by done.
  fold (enabled s h i). replace (candidate s h above i) with (enabled s h i && pending s i && (0 <? priority s i)
    && (negb above || (threshold s h <? priority s i))) by done.
  destruct (enabled s h i); cbn [andb]; [| apply IH; lia].
  unfold mbind at 1, M_bind at 1. rewrite array_read_eq.
  2: { change (rr_mem pending_view s) with (pending_mem (get_plic s)).
       rewrite (view_size_words _ NumberInterruptEntries) by (by apply plic_pending). lia. }
  change (rr_mem pending_view s) with (pending_mem (get_plic s)). rewrite bit_test by done.
  change (Z.testbit _ _) with (pending s i). destruct (pending s i); cbn [andb]; [| apply IH; lia].
  unfold mbind at 1, M_bind at 1. rewrite array_read_eq.
  2: { change (rr_mem priorities_view s) with (priorities_mem (get_plic s)).
       rewrite (view_size_words _ (NumberInterrupts + 1)) by (by apply plic_priorities). lia. }
  change (rr_mem priorities_view s) with (priorities_mem (get_plic s)). fold (priority s i).
  destruct (0 <? priority s i); cbn [andb]; [| apply IH; lia].
  destruct above; cbn [negb orb].
  - unfold mbind at 1, M_bind at 1. unfold mbind at 1, M_bind at 1.
    rewrite priority_threshold_eq by done. cbn [mret M_ret].
    destruct (_ && _); apply IH; lia.
  - unfold mbind at 1, M_bind at 1. cbn [mret M_ret andb]. destruct (mx <? priority s i); apply IH; lia.
Qed.

Lemma candidate_priority s h above i : candidate s h above i = true -> 0 < priority s i.
Proof. unfold candidate. intros Hc. lia. Qed.

Lemma next_pending_selects s h above : plic_ok s -> (h < NumberCores)%nat ->
  exists r, hart_get_next_pending_interrupt (Z.of_nat h) above s = (Ret (Z.of_nat r), s) /\
    selects s h above r.
Proof.
  intros Hok Hh. pose proof (plic_sizes _ Hok) as (_ & _ & Hn & _).
  unfold hart_get_next_pending_interrupt. rewrite next_pending_eq by (done || lia).
  destruct (best_most_urgent (candidate s h above) (priority s) NumberInterrupts) as (r & -> & Hr);
    [lia | apply candidate_priority | by exists r].
Qed.

(** ** Changes of the pending interrupts *)

Lemma pending_ok s : plic_ok s -> view_size uint32_t (pending_mem (get_plic s)) = Z.of_nat NumberInterruptEntries.
Proof. intros Hok. by apply view_size_words, plic_pending. Qed.

Lemma source_word_ok s i : plic_ok s -> (i < NumberInterrupts)%nat ->
  0 <= Z.of_nat i / 32 < view_size uint32_t (rr_mem (pending_view (E := E)) s).
Proof.
  intros Hok Hi. pose proof (plic_sizes _ Hok) as (_ & _ & Hn & _).
  change (rr_mem (pending_view (E := E)) s) with (pending_mem (get_plic s)). rewrite pending_ok by done.
  apply word_index. lia.
Qed.

(** The state with another word of pending interrupts. *)
Definition set_pending_word (idx v : Z) (s : S) : S :=
  set_plic (with_pending (set_elem uint32_t idx v (pending_mem (get_plic s))) (get_plic s)) s.

Lemma set_pending_word_ok idx v s : plic_ok s -> plic_ok (set_pending_word idx v s).
Proof.
  intros [? ? ? ? ? ? ?]. unfold set_pending_word.
  destruct (set_plic_ok (with_pending (set_elem uint32_t idx v (pending_mem (get_plic s))) (get_plic s)) s)
    as (Hg & _ & _).
  constructor; rewrite ?Hg; cbn [priorities_mem pending_mem enabled_mem config_mem hart_eip with_pending];
    rewrite ?length_set_elem; done.
Qed.

(** What the other registers hold is the same. *)
Definition other_registers (s s' : S) : Prop :=
  (forall i, priority s' i = priority s i) /\ (forall h i, enabled s' h i = enabled s h i) /\
  (forall h, threshold s' h = threshold s h) /\ (forall h, eip s' h = eip s h).

Lemma set_pending_word_rest idx v s : other_registers s (set_pending_word idx v s).
Proof.
  unfold other_registers, priority, enabled, threshold, eip, set_pending_word.
  by rewrite (proj1 (set_plic_ok _ _)).
Qed.

Lemma clear_pending_eq s r : plic_ok s -> (r < NumberInterrupts)%nat ->
  exists s', clear_pending_interrupt (Z.of_nat r) s = (Ret tt, s') /\ plic_ok s' /\
    (forall i, pending s' i = pending s i && negb (Nat.eqb i r)) /\ other_registers s s' /\
    external_line s' = external_line s /\ config_mem (get_plic s') = config_mem (get_plic s).
Proof.
  intros Hok Hr. pose proof (source_word_ok s r Hok Hr) as Hw.
  set (v := source_word (pending_mem (get_plic s)) r .& uint32 (Z.lnot (source_mask r))).
  destruct (set_plic_ok (with_pending (clear_source r (pending_mem (get_plic s))) (get_plic s)) s)
    as (Hg & Hl & _).
  exists (set_pending_word (Z.of_nat r / 32) v s). split.
  { unfold clear_pending_interrupt. unfold mbind at 1, M_bind at 1.
    assert ((Z.of_nat r <? Z.of_nat NumberInterrupts) = true) as -> by lia. cbn [assert skip mret M_ret].
    unfold mbind at 1, M_bind at 1. rewrite array_read_eq by done. by rewrite array_write_eq. }
  split; [by apply set_pending_word_ok |]. split; [| split; [apply set_pending_word_rest |]].
  - intros i. unfold pending. change (set_pending_word (Z.of_nat r / 32) v s)
      with (set_plic (with_pending (clear_source r (pending_mem (get_plic s))) (get_plic s)) s).
    rewrite Hg. by apply clear_source_spec.
  - change (set_pending_word (Z.of_nat r / 32) v s)
      with (set_plic (with_pending (clear_source r (pending_mem (get_plic s))) (get_plic s)) s).
    by rewrite Hg.
Qed.

Lemma gateway_eq s i : plic_ok s -> (0 < i < NumberInterrupts)%nat ->
  exists s', plic_gateway_trigger_interrupt (Z.of_nat i) s = (Ret tt, s') /\ plic_ok s' /\
    (forall j, pending s' j = pending s j || Nat.eqb j i) /\ other_registers s s' /\
    external_line s' = external_line s /\ run_notified s' = true.
Proof.
  intros Hok Hi. pose proof (source_word_ok s i Hok ltac:(lia)) as Hw.
  set (v := source_word (pending_mem (get_plic s)) i .| source_mask i).
  set (s1 := set_pending_word (Z.of_nat i / 32) v s).
  pose proof (set_pending_word_ok (Z.of_nat i / 32) v s Hok) as Hok1. fold s1 in Hok1.
  destruct (set_plic_ok (with_pending (set_source i (pending_mem (get_plic s))) (get_plic s)) s)
    as (Hg & Hl & _).
  change (set_plic _ s) with s1 in Hg, Hl.
  destruct (e_run_notify_ok plic_clock_cycle s1) as (s2 & Hs2 & Hg2 & Hl2 & Hn2).
  exists s2. split.
  { unfold plic_gateway_trigger_interrupt. unfold mbind at 1, M_bind at 1.
    assert ((0 <? Z.of_nat i) && (Z.of_nat i <? Z.of_nat NumberInterrupts) = true) as -> by lia.
    cbn [assert skip mret M_ret]. cbv zeta. unfold mbind at 1, M_bind at 1. rewrite array_read_eq by done.
    unfold mbind at 1, M_bind at 1. rewrite array_write_eq by done. exact Hs2. }
  assert (Hok2 : plic_ok s2) by (destruct Hok1; constructor; by rewrite ?Hg2).
  split; [done |]. split; [| split; [| split; [| done]]].
  - intros j. unfold pending. rewrite Hg2, Hg. by apply set_source_spec.
  - pose proof (set_pending_word_rest (Z.of_nat i / 32) v s) as Hrest. fold s1 in Hrest.
    unfold other_registers, priority, enabled, threshold, eip in *. by rewrite Hg2.
  - by rewrite Hl2.
Qed.

(** ** Claim and completion *)

Definition claim_address : Z := 0x200004.
Definition claim_read : tlm_generic_payload :=
  mkPayload TLM_READ_COMMAND claim_address (replicate 4 0) TLM_OK_RESPONSE.
Definition claim_write (v : Z) : tlm_generic_payload :=
  mkPayload TLM_WRITE_COMMAND claim_address (to_bytes uint32_t v) TLM_OK_RESPONSE.

Lemma config_words s : plic_ok s -> view_size uint32_t (config_mem (get_plic s)) = 2 * Z.of_nat NumberCores.
Proof. intros Hok. rewrite (view_size_words _ (2 * NumberCores)); [lia |]. rewrite (plic_config _ Hok). lia. Qed.

Lemma config_access s trans : plic_ok s -> address trans = claim_address ->
  length (payload_data trans) = 4%nat -> range_access s regs_hart_config trans.
Proof.
  intros Hok Ha Hd. pose proof (plic_sizes _ Hok) as (Hc & Hc' & _).
  assert (Hlen : data_length trans = 4) by (unfold data_length; by rewrite Hd).
  constructor; rewrite ?Ha, ?Hlen.
  - constructor.
    + intros m. change (config_mem (get_plic (set_plic (with_config m (get_plic s)) s)) = m).
      by rewrite (proj1 (set_plic_ok _ _)).
    + cbn. lia.
    + unfold rr_size. change (rr_mem regs_hart_config s) with (config_mem (get_plic s)).
      rewrite (plic_config _ Hok). cbn. lia.
  - unfold range_contains, claim_address. cbn. lia.
  - done.
  - done.
  - unfold claim_address. cbn. lia.
  - cbn. lia.
Qed.

Lemma route_config trans delay s : plic_ok s -> address trans = claim_address ->
  route plic_register_ranges trans delay s = range_process (E := E) regs_hart_config trans delay s.
Proof.
  intros Hok Ha. pose proof (plic_sizes _ Hok) as (Hc & Hc' & Hn & Hn'). pose proof (plic_layout _ Hok) as Hl.
  rewrite (route_first _ [regs_interrupt_priorities; regs_pending_interrupts; regs_hart_enabled_interrupts]
    regs_hart_config []); [done | done | |].
  - unfold range_match, range_contains. rewrite Ha. unfold claim_address. cbn. lia.
  - repeat constructor; unfold range_match, range_contains; rewrite Ha; unfold claim_address; cbn; nia.
Qed.

(** The state with another word of the configuration of hart 0. *)
Definition set_config_word (idx v : Z) (s : S) : S :=
  set_plic (with_config (set_elem uint32_t idx v (config_mem (get_plic s))) (get_plic s)) s.

Lemma set_config_word_ok idx v s : plic_ok s -> plic_ok (set_config_word idx v s).
Proof.
  intros [? ? ? ? ? ? ?]. unfold set_config_word.
  destruct (set_plic_ok (with_config (set_elem uint32_t idx v (config_mem (get_plic s))) (get_plic s)) s)
    as (Hg & _ & _).
  constructor; rewrite ?Hg; cbn [priorities_mem pending_mem enabled_mem config_mem hart_eip with_config];
    rewrite ?length_set_elem; done.
Qed.

(** Claim registers are odd words: the fields of the model do not include them. *)
Lemma set_claim_rest h v s : 0 <= h ->
  let s' := set_config_word (2 * h + 1) v s in
  other_registers s s' /\ (forall i, pending s' i = pending s i) /\ external_line s' = external_line s.
Proof.
  intros Hh s'. unfold s', other_registers, priority, enabled, threshold, eip, pending, set_config_word.
  destruct (set_plic_ok (with_config (set_elem uint32_t (2 * h + 1) v (config_mem (get_plic s))) (get_plic s)) s)
    as (Hg & Hl & _). rewrite Hg, Hl. split; [| done]. split; [done |]. split; [done |].
  split; [| done]. intros k. cbn [config_mem with_config]. rewrite elem_set_other by (done || lia). done.
Qed.

Lemma set_claim_eq s v : plic_ok s ->
  set_claim_response 0 v s = (Ret tt, set_config_word 1 v s).
Proof.
  intros Hok. pose proof (plic_sizes _ Hok) as (Hc & _). pose proof (config_words s Hok) as Hw.
  unfold set_claim_response, config_index, gets. unfold mbind at 1, M_bind at 1.
  unfold mbind at 1, M_bind at 1. cbv beta iota. rewrite (plic_config _ Hok).
  assert ((0 <? Z.of_nat (8 * NumberCores) / 8) = true) as ->.
  { rewrite Nat2Z.inj_mul, Z.mul_comm, Z.div_mul by done. lia. }
  cbn [assert skip mret M_ret]. unfold index_write, gets, mbind, M_bind. cbv beta iota.
  change (rr_mem config_view s) with (config_mem (get_plic s)). rewrite Hw.
  by assert ((0 <=? 2 * 0 + 1) && (2 * 0 + 1 <? 2 * Z.of_nat NumberCores) = true) as -> by lia.
Qed.

Lemma other_registers_trans s1 s2 s3 : other_registers s1 s2 -> other_registers s2 s3 -> other_registers s1 s3.
Proof.
  intros (H1 & H2 & H3 & H4) (K1 & K2 & K3 & K4).
  split; [| split; [| split]]; intros; by rewrite ?K1, ?K2, ?K3, ?K4.
Qed.

(** C19: a hart claims the most urgent interrupt.  A read of the claim register of
    hart 0 answers with the number of a pending and enabled interrupt that no
    other exceeds in priority, the lowest one among equals, or with 0 if there is
    none; it clears the pending bit of that interrupt and changes no other
    pending bit, no priority, enable bit or threshold and no interrupt line. *)
Theorem plic_claim (s : S) (delay : Z) :
  plic_ok s ->
  exists r s',
    plic_transport claim_read delay s
      = (Ret (set_payload_data (to_bytes uint32_t (Z.of_nat r)) claim_read, delay + 40 * NS), s') /\
    selects s 0 false r /\ plic_ok s' /\
    (forall i, pending s' i = pending s i && negb (Nat.eqb i r)) /\
    other_registers s s' /\ external_line s' = external_line s.
Proof.
  intros Hok. pose proof (plic_sizes _ Hok) as (Hc & _ & Hn & Hn').
  destruct (next_pending_selects s 0 false Hok Hc) as (r & Hr & Hsel).
  change (Z.of_nat 0) with 0 in Hr.
  assert (Hrn : (r < NumberInterrupts)%nat) by (destruct Hsel as [[-> _]|[? _]]; lia).
  set (s1 := set_config_word 1 (Z.of_nat r) s).
  pose proof (set_config_word_ok 1 (Z.of_nat r) s Hok) as Hok1. fold s1 in Hok1.
  destruct (set_claim_rest 0 (Z.of_nat r) s ltac:(lia)) as (Hrest1 & Hp1 & Hl1).
  change (set_config_word (2 * 0 + 1) (Z.of_nat r) s) with s1 in Hrest1, Hp1, Hl1.
  destruct (clear_pending_eq s1 r Hok1 Hrn) as (s2 & Hs2 & Hok2 & Hp2 & Hrest2 & Hl2 & Hcfg2).
  assert (Hbytes : read_bytes regs_hart_config claim_read s2 = to_bytes uint32_t (Z.of_nat r)).
  { unfold read_bytes. change (rr_mem regs_hart_config s2) with (config_mem (get_plic s2)).
    rewrite Hcfg2. unfold s1, set_config_word. rewrite (proj1 (set_plic_ok _ _)).
    cbn [config_mem with_config]. unfold set_elem, bytes_write.
    change (length (payload_data claim_read)) with (length (to_bytes uint32_t (Z.of_nat r))).
    change (Z.to_nat (address claim_read - rr_start regs_hart_config)) with (sizeof uint32_t * Z.to_nat 1)%nat.
    apply take_drop_inserts. rewrite length_to_bytes, (plic_config _ Hok). simpl. lia. }
  exists r, s2. split.
  { unfold plic_transport. unfold mbind at 1, M_bind at 1. rewrite route_config by done.
    rewrite process_read_eq; [| by apply config_access | done | done].
    cbn [run_pre pre_read_callback regs_hart_config plic_range].
    unfold mbind at 1, M_bind at 1. unfold pre_read_hart_config, access_info.
    change (info_addr _) with 4. change (info_size _) with 4. change (uint32 (4 / 4)) with 1.
    change (4 mod 4 =? 0) with true. change (1 mod 2 =? 1) with true. change (4 =? 4) with true.
    cbn [assert when]. unfold mbind at 1, M_bind at 1. cbn [skip mret M_ret].
    unfold mbind at 1, M_bind at 1. unfold mbind at 1, M_bind at 1. cbn [skip mret M_ret].
    unfold mbind at 1, M_bind at 1. rewrite Hr.
    unfold mbind at 1, M_bind at 1. change (1 - 1) with 0. rewrite set_claim_eq by done. fold s1.
    rewrite Hs2. unfold mbind, M_bind, gets. cbn [mret M_ret id]. by rewrite Hbytes. }
  split; [done |]. split; [done |]. split; [intros i; by rewrite Hp2, Hp1 |].
  split; [by eapply other_registers_trans | congruence].
Qed.

(** ** Delivery *)

(** An interrupt above the threshold of the hart waits for it. *)
Definition waiting (s : S) (h : nat) : bool :=
  existsb (candidate s h true) (seq 1 (NumberInterrupts - 1)).

Lemma waiting_spec s h : waiting s h = true <->
  exists i, (1 <= i < NumberInterrupts)%nat /\ candidate s h true i = true.
Proof.
  unfold waiting. rewrite existsb_exists. split; intros (i & Hi & Hc); exists i; (split; [| done]).
  - apply in_seq in Hi. lia.
  - apply in_seq. lia.
Qed.

Lemma has_pending_eq s h : plic_ok s -> (h < NumberCores)%nat ->
  hart_has_pending_enabled_interrupts (Z.of_nat h) s = (Ret (waiting s h), s).
Proof.
  intros Hok Hh. destruct (next_pending_selects s h true Hok Hh) as (r & Hr & Hsel).
  unfold hart_has_pending_enabled_interrupts, mbind, M_bind. rewrite Hr. cbn [mret M_ret].
  enough ((0 <? Z.of_nat r) = waiting s h) as -> by done. destruct (waiting s h) eqn:Hw.
  - apply waiting_spec in Hw as (i & Hi & Hc). destruct (decide (r = 0%nat)) as [->|]; [| lia].
    apply most_urgent_zero with (i := i) in Hsel; [congruence | done].
  - destruct (decide (r = 0%nat)) as [->|Hr0]; [done |].
    destruct (most_urgent_some _ _ _ _ Hsel Hr0) as [Hi Hc].
    assert (waiting s h = true) by (apply waiting_spec; by exists r). congruence.
Qed.

Definition set_eip (h : nat) (b : bool) (s : S) : S :=
  set_plic (with_eip (<[h := b]> (hart_eip (get_plic s))) (get_plic s)) s.

Lemma read_eip_eq s h : plic_ok s -> (h < NumberCores)%nat ->
  read_eip (Z.of_nat h) s = (Ret (eip s h), s).
Proof.
  intros Hok Hh. unfold read_eip, gets, eip, mbind, M_bind. rewrite Nat2Z.id.
  assert (is_Some (hart_eip (get_plic s) !! h)) as [b Hb].
  { apply lookup_lt_is_Some. by rewrite (plic_eip _ Hok). }
  by rewrite Hb.
Qed.

Lemma write_eip_eq s h b : plic_ok s -> (h < NumberCores)%nat ->
  write_eip (Z.of_nat h) b s = (Ret tt, set_eip h b s).
Proof.
  intros Hok Hh. unfold write_eip. unfold mbind at 1, M_bind at 1. rewrite read_eip_eq by done.
  unfold modify, set_eip. by rewrite Nat2Z.id.
Qed.

(** The registers of the search. *)
Definition same_search (s s' : S) : Prop :=
  (forall i, priority s' i = priority s i) /\ (forall h i, enabled s' h i = enabled s h i) /\
  (forall h, threshold s' h = threshold s h) /\ (forall i, pending s' i = pending s i).

Lemma same_search_waiting s s' h : same_search s s' -> waiting s' h = waiting s h.
Proof.
  intros (Hp & He & Ht & Hn). unfold waiting. f_equal.
  apply functional_extensionality. intros i. unfold candidate. by rewrite Hp, He, Ht, Hn.
Qed.

Lemma set_eip_ok s h b : plic_ok s -> (h < NumberCores)%nat ->
  plic_ok (set_eip h b s) /\ same_search s (set_eip h b s) /\
  (forall j, eip (set_eip h b s) j = if decide (j = h) then b else eip s j) /\
  external_line (set_eip h b s) = external_line s.
Proof.
  intros [? ? ? ? ? ? Hl] Hh. unfold set_eip, same_search, priority, enabled, threshold, eip, pending.
  destruct (set_plic_ok (with_eip (<[h := b]> (hart_eip (get_plic s))) (get_plic s)) s) as (Hg & Hline & _).
  rewrite !Hg, Hline. split; [| split; [done | split; [| done]]].
  - constructor; rewrite ?Hg; cbn [priorities_mem pending_mem enabled_mem config_mem hart_eip with_eip];
      rewrite ?length_insert; done.
  - intros j. cbn [hart_eip with_eip]. case_decide as Hj.
    + subst j. by rewrite list_lookup_insert_eq by (rewrite Hl; lia).
    + by rewrite list_lookup_insert_ne by done.
Qed.

Lemma plic_ok_same s s' : get_plic s' = get_plic s -> plic_ok s -> plic_ok s'.
Proof. intros Hg [? ? ? ? ? ? ?]. constructor; by rewrite ?Hg. Qed.

Lemma same_search_same s s' : get_plic s' = get_plic s -> same_search s s'.
Proof. intros Hg. unfold same_search, priority, enabled, threshold, pending. by rewrite Hg. Qed.

Lemma eip_same s s' h : get_plic s' = get_plic s -> eip s' h = eip s h.
Proof. intros Hg. unfold eip. by rewrite Hg. Qed.

Lemma same_search_trans s1 s2 s3 : same_search s1 s2 -> same_search s2 s3 -> same_search s1 s3.
Proof.
  intros (H1 & H2 & H3 & H4) (K1 & K2 & K3 & K4).
  split; [| split; [| split]]; intros; by rewrite ?K1, ?K2, ?K3, ?K4.
Qed.

Lemma raise_external_eq s h : plic_ok s -> (h < NumberCores)%nat ->
  exists s', raise_external h s = (Ret tt, s') /\ plic_ok s' /\ same_search s s' /\
    (forall j, eip s' j = if decide (j = h) then eip s h || waiting s h else eip s j) /\
    (forall j, external_line s' j
               = if decide (j = h) then external_line s h || negb (eip s h) && waiting s h
                 else external_line s j).
Proof.
  intros Hok Hh. unfold raise_external. unfold mbind at 1, M_bind at 1. rewrite read_eip_eq by done.
  destruct (eip s h) eqn:He; cbn [negb when].
  { exists s. split; [done |]. split; [done |]. split; [by apply same_search_same |].
    split; intros j; case_decide as Hj; subst; cbn [andb orb]; rewrite ?orb_false_r; done. }
  unfold mbind at 1, M_bind at 1. rewrite has_pending_eq by done.
  destruct (waiting s h); cbn [when].
  2: { exists s. split; [done |]. split; [done |]. split; [by apply same_search_same |].
       split; intros j; case_decide as Hj; subst; cbn [andb orb negb]; rewrite ?orb_false_r; done. }
  unfold mbind at 1, M_bind at 1. rewrite write_eip_eq by done.
  destruct (set_eip_ok s h true Hok Hh) as (Hok1 & Hs1 & He1 & Hl1).
  unfold mbind at 1, M_bind at 1, gets.
  destruct (trigger_external_ok h (irq_level (get_plic (set_eip h true s))) (set_eip h true s))
    as (s2 & -> & Hg2 & Hl2 & _).
  exists s2. split; [done |]. split; [by eapply plic_ok_same |].
  split; [eapply same_search_trans; [done | by apply same_search_same] |]. split.
  - intros j. rewrite (eip_same _ _ _ Hg2), He1. by case_decide.
  - intros j. rewrite Hl2, Hl1. case_decide; [| done]. by rewrite orb_true_r.
Qed.

Lemma raise_externals_eq n : forall i s, plic_ok s -> (i + n <= NumberCores)%nat ->
  exists s', raise_externals i n s = (Ret tt, s') /\ plic_ok s' /\ same_search s s' /\
    (forall j, eip s' j = if decide (i <= j < i + n)%nat then eip s j || waiting s j else eip s j) /\
    (forall j, external_line s' j
               = if decide (i <= j < i + n)%nat then external_line s j || negb (eip s j) && waiting s j
                 else external_line s j).
Proof.
  induction n as [|n IH]; intros i s Hok Hi; cbn [raise_externals].
  - exists s. split; [done |]. split; [done |]. split; [by apply same_search_same |].
    split; intros j; by rewrite decide_False by lia.
  - destruct (raise_external_eq s i Hok ltac:(lia)) as (s1 & Hs1 & Hok1 & Hss1 & He1 & Hl1).
    unfold mbind, M_bind. rewrite Hs1.
    destruct (IH (Datatypes.S i) s1 Hok1 ltac:(lia)) as (s2 & -> & Hok2 & Hss2 & He2 & Hl2).
    exists s2. split; [done |]. split; [done |]. split; [by eapply same_search_trans |].
    split; intros j; [rewrite He2, He1 | rewrite Hl2, Hl1];
      rewrite ?He1, (same_search_waiting _ _ j Hss1); repeat case_decide; subst; try done; lia.
Qed.


(** Completion of an interrupt.  A write to the claim register of hart 0
    raises the external interrupt again if another interrupt waits for the hart,
    and otherwise unmarks the hart and clears its external interrupt; pending
    bits, priorities, enable bits and thresholds do not change.  If an interrupt
    waits for a hart that the thread has not marked yet, the write ends the
    simulation with a failed assertion. *)
Theorem plic_completion (s : S) (v delay : Z) :
  plic_ok s ->
  (waiting s 0 = true -> eip s 0 = false ->
   exists s', plic_transport (claim_write v) delay s = (Fatal AssertFailed, s')) /\
  (waiting s 0 = false \/ eip s 0 = true ->
   exists s', plic_transport (claim_write v) delay s = (Ret (claim_write v, delay + 40 * NS), s') /\
     plic_ok s' /\ same_search s s' /\
     eip s' 0 = waiting s 0 /\ external_line s' 0 = waiting s 0 /\
     forall h, h <> 0%nat -> eip s' h = eip s h /\ external_line s' h = external_line s h).
Proof.
  intros Hok. pose proof (plic_sizes _ Hok) as (Hc & _).
  set (s1 := set_config_word 1 v s).
  pose proof (set_config_word_ok 1 v s Hok) as Hok1. fold s1 in Hok1.
  destruct (set_claim_rest 0 v s ltac:(lia)) as ((Hp1 & Hen1 & Hth1 & He1) & Hpd1 & Hl1).
  change (set_config_word (2 * 0 + 1) v s) with s1 in Hp1, Hen1, Hth1, He1, Hpd1, Hl1.
  assert (Hss1 : same_search s s1) by done.
  pose proof (same_search_waiting _ _ 0 Hss1) as Hw1.
  pose proof (has_pending_eq s1 0 Hok1 Hc) as Hpend. rewrite Hw1 in Hpend.
  pose proof (read_eip_eq s1 0 Hok1 Hc) as Heip. rewrite He1 in Heip.
  pose proof (write_eip_eq s1 0 false Hok1 Hc) as Hweip.
  change (Z.of_nat 0) with 0 in Hpend, Heip, Hweip.
  assert (Heq : plic_transport (claim_write v) delay s
    = (level ← gets (fun s => irq_level (get_plic s));
       more ← hart_has_pending_enabled_interrupts 0;
       (if (more : bool) then eip ← read_eip 0; assert eip ;; target_trigger_external 0 level
        else write_eip 0 false ;; target_clear_external 0 level) ;;
       mret (claim_write v, delay + 40 * NS)) s1).
  { unfold plic_transport. unfold mbind at 1, M_bind at 1. rewrite route_config by done.
    rewrite process_write_eq; [| by apply config_access | done | done | done].
    rewrite (write_elem regs_hart_config uint32_t 1 v) by (done || lia).
    change (rr_set_mem regs_hart_config _ s) with s1.
    cbn [run_post post_write_callback regs_hart_config plic_range].
    unfold mbind at 1, M_bind at 1. unfold post_write_hart_config, access_info.
    change (info_addr _) with 4. change (info_size _) with 4. change (uint32 (4 / 4)) with 1.
    change (4 mod 4 =? 0) with true. change (1 mod 2 =? 1) with true. change (4 =? 4) with true.
    change (1 - 1) with 0. cbn [assert when].
    unfold mbind, M_bind, gets. cbn [skip mret M_ret]. change (Z.to_nat 0) with 0%nat.
    destruct (hart_has_pending_enabled_interrupts 0 s1) as [[[]|e|f] s2]; [| | done | done].
    - destruct (read_eip 0 s2) as [[b|e|f] s3]; [| done | done]. destruct b; cbn [assert skip mret M_ret].
      + by destruct (target_trigger_external 0 _ s3) as [[[]|e|f] s4].
      + done.
    - destruct (write_eip 0 false s2) as [[[]|e|f] s3]; [| done | done].
      by destruct (target_clear_external 0 _ s3) as [[[]|e|f] s4]. }
  unfold gets in Heq. unfold mbind at 1, M_bind at 1 in Heq. unfold mbind at 1, M_bind at 1 in Heq.
  rewrite Hpend in Heq. rewrite Heq.
  split.
  - intros Hw He. rewrite Hw. unfold mbind, M_bind. cbv beta iota. rewrite Heip, He. by exists s1.
  - intros Hcase. destruct (waiting s 0) eqn:Hw.
    + assert (He : eip s 0 = true) by (by destruct Hcase). unfold mbind, M_bind. cbv beta iota. rewrite Heip, He.
      cbn [assert skip mret M_ret].
      destruct (trigger_external_ok 0 (irq_level (get_plic s1)) s1) as (s2 & -> & Hg2 & Hl2 & _).
      exists s2. split; [done |]. split; [by eapply plic_ok_same |].
      split; [eapply same_search_trans; [done | by apply same_search_same] |].
      rewrite (eip_same _ _ _ Hg2), He1, Hl2. split; [done |]. split; [done |].
      intros h Hh. by rewrite (eip_same _ _ _ Hg2), He1, Hl2, decide_False, Hl1.
    + unfold mbind, M_bind. cbv beta iota. rewrite Hweip.
      destruct (set_eip_ok s1 0 false Hok1 Hc) as (Hok2 & Hss2 & He2 & Hl2).
      destruct (clear_external_ok 0 (irq_level (get_plic s1)) (set_eip 0 false s1)) as (s3 & -> & Hg3 & Hl3 & _).
      exists s3. split; [done |]. split; [by eapply plic_ok_same |].
      split; [eapply same_search_trans; [done | eapply same_search_trans; [done | by apply same_search_same]] |].
      rewrite (eip_same _ _ _ Hg3), He2, Hl3. split; [done |]. split; [done |].
      intros h Hh. rewrite (eip_same _ _ _ Hg3), He2, Hl3, !decide_False by done. by rewrite Hl2, Hl1, He1.
Qed.

End plic.

(** ** A bench

    The controller of the HiFive board with a hart whose line is a flag. *)
Record plic_bench : Type := mkPlicBench {
  pb_plic : FE310_PLIC;
  pb_lines : nat -> bool;
  pb_notified : bool
}.

Definition pb_set_line (i : nat) (b : bool) (f : nat -> bool) (j : nat) : bool :=
  if decide (j = i) then b else f j.

#[export] Instance plic_bench_interface : plic_interface plic_bench unit := {
  NumberCores := 1;
  NumberInterrupts := 53;
  NumberInterruptEntries := 64;
  MaxPriority := 7;
  get_plic := pb_plic;
  set_plic p s := mkPlicBench p (pb_lines s) (pb_notified s);
  e_run_notify _ := modify (fun s => mkPlicBench (pb_plic s) (pb_lines s) true);
  target_trigger_external i _ := modify (fun s =>
    mkPlicBench (pb_plic s) (pb_set_line i true (pb_lines s)) (pb_notified s));
  target_clear_external i _ := modify (fun s =>
    mkPlicBench (pb_plic s) (pb_set_line i false (pb_lines s)) (pb_notified s))
}.

#[export] Instance plic_bench_system : plic_system plic_bench unit.
Proof.
  refine {| external_line := pb_lines; run_notified := pb_notified |};
    intros; try (eexists; split; [reflexivity |]); done.
Defined.

(** Interrupts 3 and 5 are pending and enabled; 5 has the higher priority. *)
Definition plic_bench_start : plic_bench :=
  mkPlicBench
    (mkPLIC (concat (map (to_bytes uint32_t) [0; 1; 1; 1; 1; 2]) ++ replicate 192 0)
       (to_bytes uint32_t 40 ++ replicate 252 0) (to_bytes uint32_t 40 ++ replicate 252 0)
       (replicate 8 0) 3 [false])
    (fun _ => false) false.

Lemma plic_bench_start_ok : plic_ok plic_bench_start.
Proof. constructor; [simpl; lia | simpl; lia | done | done | done | done | done]. Qed.

Lemma plic_claim_witness :
  exists s', plic_transport claim_read 0 plic_bench_start
    = (Ret (set_payload_data (to_bytes uint32_t 5) claim_read, 40000), s') /\
    pending s' 5 = false /\ pending s' 3 = true.
Proof.
  destruct (plic_claim plic_bench_start 0 plic_bench_start_ok) as (r & s' & Hs & Hsel & _ & Hp & _).
  assert (r = 5%nat) as ->.
  { assert (E : fst (plic_transport claim_read 0 plic_bench_start)
                = Ret (set_payload_data (to_bytes uint32_t 5) claim_read, 40000)) by by vm_compute.
    rewrite Hs in E. cbn [fst] in E.
    apply (f_equal (fun o => match o with Ret (t, _) => le_value (payload_data t) | _ => 0 end)) in E.
    rename E into Hb. cbv beta iota in Hb. cbn [payload_data set_payload_data] in Hb.
    unfold to_bytes in Hb. rewrite !le_value_bytes in Hb.
    assert (r < 53)%nat by (destruct Hsel as [[-> _]|[Hr _]]; simpl in *; lia).
    rewrite !uint_id in Hb by (unfold is_uint; simpl; lia). lia. }
  exists s'. split; [exact Hs |]. rewrite !Hp. by vm_compute.
Defined.


Lemma plic_completion_witness :
  exists s', plic_transport (claim_write 5) 0 plic_bench_start = (Fatal AssertFailed, s').
Proof.
  apply (proj1 (plic_completion plic_bench_start 5 0 plic_bench_start_ok)); by vm_compute.
Defined.
