(* ===== verification/TlmMap.v ===== *)
(** * Local routers

    Models util/tlm_map.h: banks of 32-bit registers and address ranges with
    their handlers, and the router that hands a transaction to the first of
    them that accepts it.  A pointer to a register of a device is a value of a
    type [V] of its members, with the class [register_file] to load and store
    them in the state of the device. *)

From S2P Require Import Prelude Memory MemoryMap.

Record access_mode : Type := mkAccessMode { allow_read : bool; allow_write : bool }.
Definition can_read (m : access_mode) : bool := allow_read m.
Definition can_write (m : access_mode) : bool := allow_write m.
Definition read_write : access_mode := mkAccessMode true true.
Definition read_only : access_mode := mkAccessMode true false.
Definition write_only : access_mode := mkAccessMode false true.

Class register_file (S V : Type) : Type := {
  register_eq_dec :: EqDecision V;
  load_reg : V -> S -> Z;
  store_reg : V -> Z -> S -> S
}.

Section router.
Context {S V E : Type} `{register_file S V}.

Abbreviation R := (M S E).

Record reg_mapping_t : Type := mkReg {
  reg_addr : Z;
  reg_vptr : V;
  reg_mode : access_mode;
  reg_mask : Z
}.

(** The defaults of the members. *)
Definition register (addr : Z) (vptr : V) : reg_mapping_t := mkReg addr vptr read_write 0xffffffff.

Definition reg_value (r : reg_mapping_t) : R Z := gets (load_reg (reg_vptr r)).
Definition bus_write (r : reg_mapping_t) (new_value : Z) : R unit :=
  assert (can_write (reg_mode r)) ;;
  modify (store_reg (reg_vptr r) (new_value .& reg_mask r)).
Definition bus_read (r : reg_mapping_t) : R Z :=
  assert (can_read (reg_mode r)) ;; reg_value r.

(** What a handler is given.  [access_fn] performs the access and returns the
    data of the transaction after it; a handler that does not call it leaves
    [access_data] as it is. *)
Record register_access_t : Type := mkAccess {
  access_read : bool;
  access_write : bool;
  access_vptr : V;
  access_nv : Z;
  access_fn : R (list Z);
  access_data : list Z;
  access_addr : Z
}.

Definition handler_t : Type := register_access_t -> R (list Z).

Definition register_fn (r : reg_mapping_t) (trans : tlm_generic_payload) : R (list Z) :=
  let off := Z.to_nat (address trans mod 4) in
  match command trans with
  | TLM_READ_COMMAND =>
      n ← bus_read r;
      mret (take (length (payload_data trans)) (drop off (to_bytes uint32_t n)))
  | TLM_WRITE_COMMAND =>
      n ← reg_value r;
      bus_write r (from_bytes uint32_t (list_inserts off (payload_data trans) (to_bytes uint32_t n))) ;;
      mret (payload_data trans)
  | TLM_IGNORE_COMMAND => fatal RuntimeError
  end.

(** [*new_vptr] reads four bytes of the data, however long it is. *)
Definition new_value (trans : tlm_generic_payload) : R Z :=
  match command trans with
  | TLM_WRITE_COMMAND =>
      if (4 <=? length (payload_data trans))%nat then mret (from_bytes uint32_t (payload_data trans))
      else fatal UndefinedBehaviour
  | _ => mret 0
  end.

Fixpoint find_reg (regs : list reg_mapping_t) (addr : Z) : option reg_mapping_t :=
  match regs with
  | [] => None
  | r :: regs => if reg_addr r =? addr then Some r else find_reg regs addr
  end.

Inductive AbstractMapping : Type :=
  | RegisterMapping (regs : list reg_mapping_t) (handler : option handler_t)
  | AddressMapping (start end_ : Z) (mode : access_mode) (handler : option (transport_fn S E)).

Definition is_read (cmd : tlm_command) : bool :=
  match cmd with TLM_READ_COMMAND => true | _ => false end.
Definition is_write (cmd : tlm_command) : bool :=
  match cmd with TLM_WRITE_COMMAND => true | _ => false end.

Definition register_try_handle (regs : list reg_mapping_t) (handler : option handler_t)
    (trans : tlm_generic_payload) (delay : Z) : R (option (tlm_generic_payload * Z)) :=
  let addr := address trans in let len := data_length trans in let cmd := command trans in
  match find_reg regs (addr - addr mod 4) with
  | None => mret None
  | Some r =>
      assert (uint64 (len + addr mod 4) <=? 4) ;;
      assert (is_read cmd || is_write cmd) ;;
      assert (can_read (reg_mode r) || negb (is_read cmd)) ;;
      assert (can_write (reg_mode r) || negb (is_write cmd)) ;;
      match handler with
      | None => fatal AssertFailed
      | Some f =>
          nv ← new_value trans;
          data ← f (mkAccess (is_read cmd) (is_write cmd) (reg_vptr r) nv (register_fn r trans)
                     (payload_data trans) addr);
          mret (Some (set_payload_data data trans, delay))
      end
  end.

(** A call of an empty std::function throws. *)
Definition address_try_handle (start end_ : Z) (mode : access_mode) (handler : option (transport_fn S E))
    (trans : tlm_generic_payload) (delay : Z) : R (option (tlm_generic_payload * Z)) :=
  let addr := address trans in let len := data_length trans in let cmd := command trans in
  if (start <=? addr) && (addr <? end_) then
    assert (uint64 (addr + len) <=? end_) ;;
    assert (can_read mode || negb (is_read cmd)) ;;
    assert (can_write mode || negb (is_write cmd)) ;;
    match handler with
    | None => fatal RuntimeError
    | Some f => r ← f (set_address (addr - start) trans) delay; mret (Some r)
    end
  else mret None.

Definition try_handle (m : AbstractMapping) (trans : tlm_generic_payload) (delay : Z) :
    R (option (tlm_generic_payload * Z)) :=
  match m with
  | RegisterMapping regs handler => register_try_handle regs handler trans delay
  | AddressMapping start end_ mode handler => address_try_handle start end_ mode handler trans delay
  end.

(** LocalRouter::transport *)
Fixpoint router_transport (maps : list AbstractMapping) : transport_fn S E := fun trans delay =>
  match maps with
  | [] => fatal RuntimeError
  | m :: maps =>
      r ← try_handle m trans delay;
      match r with Some r => mret r | None => router_transport maps trans delay end
  end.

(** add_register_bank: a bank has one register at an address. *)
Fixpoint add_registers (regs added : list reg_mapping_t) : R (list reg_mapping_t) :=
  match regs with
  | [] => mret added
  | r :: regs =>
      assert (match find_reg added (reg_addr r) with None => true | Some _ => false end) ;;
      add_registers regs (added ++ [r])
  end.
Definition add_register_bank (regs : list reg_mapping_t) (handler : handler_t) : R AbstractMapping :=
  regs ← add_registers regs []; mret (RegisterMapping regs (Some handler)).
Definition add_start_end_mapping (start end_ : Z) (mode : access_mode) (handler : transport_fn S E) :
    AbstractMapping := AddressMapping start end_ mode (Some handler).
Definition add_start_size_mapping (start size : Z) (mode : access_mode) (handler : transport_fn S E) :
    AbstractMapping := add_start_end_mapping start (uint64 (start + size)) mode handler.

(** execute_memory_access on an array of the device. *)
Definition execute_memory_access (get : S -> list Z) (set : list Z -> S -> S)
    (trans : tlm_generic_payload) : R tlm_generic_payload :=
  let off := Z.to_nat (address trans) in let n := length (payload_data trans) in
  mem ← gets get;
  if (length mem <? off + n)%nat then fatal UndefinedBehaviour
  else
    match command trans with
    | TLM_WRITE_COMMAND => modify (fun s => set (list_inserts off (payload_data trans) (get s)) s) ;; mret trans
    | TLM_READ_COMMAND => mret (set_payload_data (take n (drop off mem)) trans)
    | TLM_IGNORE_COMMAND => fatal RuntimeError
    end.

End router.
Arguments reg_mapping_t V : clear implicits.
Arguments register_access_t S V E : clear implicits.
Arguments handler_t S V E : clear implicits.
Arguments AbstractMapping S V E : clear implicits.

(** ** Accesses to whole registers *)

Lemma whole_write (n : Z) (data : list Z) : length data = 4%nat ->
  from_bytes uint32_t (list_inserts 0 data (to_bytes uint32_t n)) .& 0xffffffff = from_bytes uint32_t data.
Proof.
  intros Hl. replace (list_inserts 0 data (to_bytes uint32_t n)) with data.
  - change 0xffffffff with (Z.ones 32). rewrite Z.land_ones by done.
    apply Z.mod_small. apply (to_type_in uint32_t).
  - rewrite <- (drop_0 (list_inserts 0 data _)). rewrite <- (take_drop_inserts 0 data (to_bytes uint32_t n)) at 1
      by (rewrite length_to_bytes; simpl; lia).
    rewrite take_ge; [done |]. rewrite length_drop, length_inserts, length_to_bytes. simpl. lia.
Qed.

Lemma set_payload_data_same trans : set_payload_data (payload_data trans) trans = trans.
Proof. by destruct trans. Qed.

Section whole.
Context {S V E : Type} `{register_file S V}.

(** An aligned access to a register, when the router has found it. *)
Lemma register_fn_whole (reg : V) addr trans (s : S) : address trans mod 4 = 0 -> data_length trans = 4 ->
  register_fn (E := E) (register addr reg) trans s =
  match command trans with
  | TLM_READ_COMMAND => (Ret (to_bytes uint32_t (load_reg reg s)), s)
  | TLM_WRITE_COMMAND => (Ret (payload_data trans), store_reg reg (from_bytes uint32_t (payload_data trans)) s)
  | TLM_IGNORE_COMMAND => (Fatal RuntimeError, s)
  end.
Proof.
  intros Ha Hl. unfold register_fn. rewrite Ha. assert (Hn : length (payload_data trans) = 4%nat) by (unfold data_length in Hl; lia).
  destruct (command trans); [| | done]; unfold mbind, M_bind, bus_read, bus_write, reg_value, gets, modify;
    cbn [assert can_read can_write allow_read allow_write reg_mode reg_vptr reg_mask register read_write].
  - unfold mbind, M_bind. cbn [skip mret M_ret]. by rewrite Hn.
  - unfold mbind, M_bind. cbn [skip mret M_ret]. change (Z.to_nat 0) with 0%nat. by rewrite whole_write.
Qed.

(** The router hands it to the handler of the bank. *)
Lemma bank_access regs (f : handler_t S V E) trans delay addr reg (s : S) :
  address trans = addr -> find_reg regs addr = Some (register addr reg) -> addr mod 4 = 0 -> data_length trans = 4 ->
  is_read (command trans) || is_write (command trans) = true ->
  router_transport [RegisterMapping regs (Some f)] trans delay s =
  (data ← f (mkAccess (is_read (command trans)) (is_write (command trans)) reg
     (if is_write (command trans) then from_bytes uint32_t (payload_data trans) else 0)
     (register_fn (register addr reg) trans) (payload_data trans) addr);
   mret (set_payload_data data trans, delay)) s.
Proof.
  intros <- Hf Hm Hl Hc. cbn [router_transport try_handle]. unfold register_try_handle. rewrite Hm, Z.sub_0_r, Hf, Hl, Hc.
  change (uint64 (4 + 0) <=? 4) with true.
  cbn [can_read can_write allow_read allow_write reg_mode reg_vptr register read_write orb assert].
  assert (Hnv : new_value (E := E) trans s
    = (Ret (if is_write (command trans) then from_bytes uint32_t (payload_data trans) else 0), s)).
  { unfold new_value. assert (Hn : (4 <=? length (payload_data trans))%nat = true)
      by (unfold data_length in Hl; apply Nat.leb_le; lia). rewrite Hn. by destruct (command trans). }
  unfold mbind, M_bind. cbn [skip mret M_ret]. rewrite Hnv.
  by destruct (f _ s) as [[data|e|f'] s'].
Qed.

End whole.
