(* ===== verification/Uart.v ===== *)
(** * UARTs

    Models class AbstractUART (platform/common/abstract_uart.h, abstract_uart.cpp):
    its registers, the two queues between the SystemC thread and the transmit
    and receive threads of the host, and their semaphores.  What a UART writes to
    and reads from is the class [uart_backend], with UART (uart.cpp) here and SLIP
    in Slip.v.  The queues are accessed under their mutexes only, so that a
    critical section is one step of the thread that executes it. *)

From S2P Require Import Prelude Memory MemoryMap TlmMap.

(** The memory mapped registers. *)
Inductive uart_reg : Type := txdata | rxdata | txctrl | rxctrl | ie | ip | div.

#[export] Instance uart_reg_eq_dec : EqDecision uart_reg.
Proof. solve_decision. Defined.

Definition UART_TXWM : Z := 1.
Definition UART_RXWM : Z := 2.
Definition UART_FULL : Z := uint32 (1 .<< 31).
Definition UART_FIFO_DEPTH : nat := 8.
Definition UART_CTRL_CNT (reg : Z) : Z := reg .>> 16.

Definition TXDATA_REG_ADDR : Z := 0x0.
Definition RXDATA_REG_ADDR : Z := 0x4.
Definition TXCTRL_REG_ADDR : Z := 0x8.
Definition RXCTRL_REG_ADDR : Z := 0xC.
Definition IE_REG_ADDR : Z := 0x10.
Definition IP_REG_ADDR : Z := 0x14.
Definition DIV_REG_ADDR : Z := 0x18.

(** [async_notified]: the event that the method [interrupt] is sensitive to. *)
Record AbstractUART : Type := mkUART {
  uart_regs : uart_reg -> Z;
  tx_fifo : list Z;
  rx_fifo : list Z;
  txfull : nat;
  rxempty : nat;
  async_notified : bool
}.

Definition set_uart_regs (f : uart_reg -> Z) (u : AbstractUART) : AbstractUART :=
  mkUART f (tx_fifo u) (rx_fifo u) (txfull u) (rxempty u) (async_notified u).
Definition set_tx_fifo (q : list Z) (u : AbstractUART) : AbstractUART :=
  mkUART (uart_regs u) q (rx_fifo u) (txfull u) (rxempty u) (async_notified u).
Definition set_rx_fifo (q : list Z) (u : AbstractUART) : AbstractUART :=
  mkUART (uart_regs u) (tx_fifo u) q (txfull u) (rxempty u) (async_notified u).
Definition set_txfull (n : nat) (u : AbstractUART) : AbstractUART :=
  mkUART (uart_regs u) (tx_fifo u) (rx_fifo u) n (rxempty u) (async_notified u).
Definition set_rxempty (n : nat) (u : AbstractUART) : AbstractUART :=
  mkUART (uart_regs u) (tx_fifo u) (rx_fifo u) (txfull u) n (async_notified u).
Definition set_notified (b : bool) (u : AbstractUART) : AbstractUART :=
  mkUART (uart_regs u) (tx_fifo u) (rx_fifo u) (txfull u) (rxempty u) b.

Definition set_uart_reg (r : uart_reg) (v : Z) (u : AbstractUART) : AbstractUART :=
  set_uart_regs (fun r' => if decide (r' = r) then v else uart_regs u r') u.

#[export] Instance uart_registers : register_file AbstractUART uart_reg := {
  load_reg r u := uart_regs u r;
  store_reg := set_uart_reg
}.

(** The constructor. *)
Definition AbstractUART_new : AbstractUART :=
  mkUART (fun _ => 0) [] [] 0 UART_FIFO_DEPTH false.

Section uart.
Context {E : Type}.

Abbreviation R := (M AbstractUART E).

Definition uart_reg_value (r : uart_reg) : R Z := gets (load_reg r).
Definition uart_store (r : uart_reg) (v : Z) : R unit := modify (store_reg r v).
Definition asyncEvent_notify : R unit := modify (set_notified true).
Definition spost_txfull : R unit := modify (fun u => set_txfull (S (txfull u)) u).
Definition spost_rxempty : R unit := modify (fun u => set_rxempty (S (rxempty u)) u).

(** ** The critical sections *)

Definition tx_status : R unit :=
  modify (fun u => store_reg txdata (if (UART_FIFO_DEPTH <=? length (tx_fifo u))%nat then UART_FULL else 0) u).

Definition rx_take : R unit :=
  q ← gets rx_fifo;
  match q with
  | [] => uart_store rxdata UART_FULL
  | b :: q => uart_store rxdata b ;; modify (set_rx_fifo q) ;; spost_rxempty
  end.

Definition tx_below (u : AbstractUART) : bool :=
  Z.of_nat (length (tx_fifo u)) <? UART_CTRL_CNT (uart_regs u txctrl).
Definition rx_above (u : AbstractUART) : bool :=
  UART_CTRL_CNT (uart_regs u rxctrl) <? Z.of_nat (length (rx_fifo u)).

(** The queue holds bytes; [true] if the byte was accepted. *)
Definition tx_push : R bool :=
  u ← gets id;
  if (UART_FIFO_DEPTH <=? length (tx_fifo u))%nat then mret false
  else modify (set_tx_fifo (tx_fifo u ++ [uint8 (uart_regs u txdata)])) ;; mret true.

(** ** Accesses to the registers *)

Definition register_access_callback : handler_t AbstractUART uart_reg E := fun r =>
  let v := access_vptr r in
  when (access_read r)
    (if decide (v = txdata) then tx_status
     else if decide (v = rxdata) then rx_take
     else if decide (v = ip) then
       tx ← gets tx_below;
       rx ← gets rx_above;
       uart_store ip ((if (tx : bool) then UART_TXWM else 0) .| (if (rx : bool) then UART_RXWM else 0))
     else skip) ;;
  txcnt ← gets (fun u => UART_CTRL_CNT (uart_regs u txctrl));
  rxcnt ← gets (fun u => UART_CTRL_CNT (uart_regs u rxctrl));
  let notify :=
    access_write r &&
    (bool_decide (v = txctrl) && (UART_CTRL_CNT (access_nv r) <? txcnt)
     || bool_decide (v = rxctrl) && (UART_CTRL_CNT (access_nv r) <? rxcnt)) in
  data ← access_fn r;
  when (notify || access_write r && bool_decide (v = ie)) asyncEvent_notify ;;
  when (access_write r && bool_decide (v = txdata))
    (accepted ← tx_push; when accepted spost_txfull) ;;
  mret data.

Definition uart_register_bank : list (reg_mapping_t uart_reg) :=
  [register TXDATA_REG_ADDR txdata; register RXDATA_REG_ADDR rxdata; register TXCTRL_REG_ADDR txctrl;
   register RXCTRL_REG_ADDR rxctrl; register IE_REG_ADDR ie; register IP_REG_ADDR ip;
   register DIV_REG_ADDR div].

Definition uart_router : list (AbstractMapping AbstractUART uart_reg E) :=
  [RegisterMapping uart_register_bank (Some register_access_callback)].
Definition uart_transport : transport_fn AbstractUART E := router_transport uart_router.

(** The method that the event triggers. *)
Definition interrupt (gateway_trigger_interrupt : R unit) : R unit :=
  rx ← gets (fun u => nonzero (uart_regs u ie .& UART_RXWM) && rx_above u);
  tx ← gets (fun u => nonzero (uart_regs u ie .& UART_TXWM) && tx_below u);
  when (rx || tx) gateway_trigger_interrupt.

End uart.

(** ** The threads *)

(** What a UART writes to, and how it turns input into received bytes. *)
Class uart_backend (D E : Type) : Type := {
  write_data : Z -> M D E unit;
  handle_input : list Z -> M D E (list Z)
}.

(** Where the threads are.  The SystemC thread is between two critical sections
    or before the [spost] after it has pushed a byte; the transmit thread waits
    for the semaphore, is about to take a byte, or to write one; the receive
    thread polls, or is within [rxpush] for the first of the bytes it has. *)
Inductive main_pc : Type := MainIdle | MainPost.
Inductive tx_pc : Type := TxWait | TxPop | TxWrite (b : Z).
Inductive rx_pc : Type := RxPoll | RxWait (b : Z) (bs : list Z) | RxPush (b : Z) (bs : list Z).

(** The steps of the SystemC thread: the critical sections of
    [register_access_callback] and [interrupt], stores to registers, notifications. *)
Inductive main_act : Type :=
  | ActTxStatus | ActRxTake | ActStore (r : uart_reg) (v : Z) | ActNotify | ActMethod
  | ActTxPush | ActPost.

Record config (D : Type) : Type := mkConfig {
  c_uart : AbstractUART;
  c_backend : D;
  c_main : main_pc;
  c_tx : tx_pc;
  c_rx : rx_pc
}.
Arguments mkConfig {D}.
Arguments c_uart {D}.
Arguments c_backend {D}.
Arguments c_main {D}.
Arguments c_tx {D}.
Arguments c_rx {D}.

(** What can be observed: bytes that the guest has written and the queue has
    accepted, bytes passed to [write_data], bytes received, bytes that the guest
    has read. *)
Inductive event : Type := Accepted (b : Z) | Sent (b : Z) | Received (b : Z) | Taken (b : Z).

Section threads.
Context {D E : Type} `{uart_backend D E}.

(** A step of the SystemC thread. *)
Definition main_step (a : main_act) (pc : main_pc) : M AbstractUART E (main_pc * list event) :=
  match pc, a with
  | MainPost, ActPost => spost_txfull ;; mret (MainIdle, [])
  | MainIdle, ActTxStatus => tx_status ;; mret (MainIdle, [])
  | MainIdle, ActRxTake =>
      q ← gets rx_fifo; rx_take ;;
      mret (MainIdle, match q with [] => [] | b :: _ => [Taken b] end)
  | MainIdle, ActStore r v => uart_store r v ;; mret (MainIdle, [])
  | MainIdle, ActNotify => asyncEvent_notify ;; mret (MainIdle, [])
  | MainIdle, ActMethod => modify (set_notified false) ;; mret (MainIdle, [])
  | MainIdle, ActTxPush =>
      v ← uart_reg_value txdata; accepted ← tx_push;
      mret (if (accepted : bool) then (MainPost, [Accepted (uint8 v)]) else (MainIdle, []))
  | _, _ => mret (pc, [])
  end.

(** A step of the transmit thread; [sem_wait] blocks at zero. *)
Definition tx_enabled (pc : tx_pc) (u : AbstractUART) : bool :=
  match pc with TxWait => negb (txfull u =? 0)%nat | _ => true end.

Definition tx_step (pc : tx_pc) : M (AbstractUART * D) E (tx_pc * list event) :=
  match pc with
  | TxWait => modify (fun s => (set_txfull (txfull (fst s) - 1) (fst s), snd s)) ;; mret (TxPop, [])
  | TxPop =>
      q ← gets (fun s => tx_fifo (fst s));
      match q with
      | [] => fatal UndefinedBehaviour
      | b :: q =>
          modify (fun s => (set_notified true (set_tx_fifo q (fst s)), snd s)) ;; mret (TxWrite b, [])
      end
  | TxWrite b => fun s =>
      let r := write_data b (snd s) in
      (match fst r with Ret _ => Ret (TxWait, [Sent b]) | Throw e => Throw e | Fatal f => Fatal f end,
       (fst s, snd r))
  end.

(** A step of the receive thread, which finds [input] when it polls. *)
Definition rx_enabled (pc : rx_pc) (u : AbstractUART) : bool :=
  match pc with RxWait _ _ => negb (rxempty u =? 0)%nat | _ => true end.

Definition rx_next (bs : list Z) : rx_pc := match bs with [] => RxPoll | b :: bs => RxWait b bs end.

Definition rx_step (input : list Z) (pc : rx_pc) : M (AbstractUART * D) E (rx_pc * list event) :=
  match pc with
  | RxPoll => fun s =>
      let r := handle_input input (snd s) in
      (match fst r with Ret bs => Ret (rx_next bs, []) | Throw e => Throw e | Fatal f => Fatal f end,
       (fst s, snd r))
  | RxWait b bs =>
      modify (fun s => (set_rxempty (rxempty (fst s) - 1) (fst s), snd s)) ;; mret (RxPush b bs, [])
  | RxPush b bs =>
      modify (fun s => (set_notified true (set_rx_fifo (rx_fifo (fst s) ++ [b]) (fst s)), snd s)) ;;
      mret (rx_next bs, [Received b])
  end.

(** The system: any thread that is not blocked takes a step. *)
Inductive uart_step : config D -> list event -> config D -> Prop :=
  | step_main a u d m t r u' m' l :
      main_step a m u = (Ret (m', l), u') ->
      uart_step (mkConfig u d m t r) l (mkConfig u' d m' t r)
  | step_tx u d m t r u' d' t' l :
      tx_enabled t u = true -> tx_step t (u, d) = (Ret (t', l), (u', d')) ->
      uart_step (mkConfig u d m t r) l (mkConfig u' d' m t' r)
  | step_rx input u d m t r u' d' r' l :
      rx_enabled r u = true -> rx_step input r (u, d) = (Ret (r', l), (u', d')) ->
      uart_step (mkConfig u d m t r) l (mkConfig u' d' m t r').

Inductive uart_run (c : config D) : list event -> config D -> Prop :=
  | run_here : uart_run c [] c
  | run_step l c1 l' c2 : uart_run c l c1 -> uart_step c1 l' c2 -> uart_run c (l ++ l') c2.

Definition uart_start (d : D) : config D := mkConfig AbstractUART_new d MainIdle TxWait RxPoll.

End threads.

(** ** The queues *)

Fixpoint accepted (l : list event) : list Z :=
  match l with [] => [] | Accepted b :: l => b :: accepted l | _ :: l => accepted l end.
Fixpoint sent (l : list event) : list Z :=
  match l with [] => [] | Sent b :: l => b :: sent l | _ :: l => sent l end.
Fixpoint received (l : list event) : list Z :=
  match l with [] => [] | Received b :: l => b :: received l | _ :: l => received l end.
Fixpoint taken (l : list event) : list Z :=
  match l with [] => [] | Taken b :: l => b :: taken l | _ :: l => taken l end.

Lemma accepted_app l l' : accepted (l ++ l') = accepted l ++ accepted l'.
Proof. induction l as [|[]]; simpl; congruence. Qed.
Lemma sent_app l l' : sent (l ++ l') = sent l ++ sent l'.
Proof. induction l as [|[]]; simpl; congruence. Qed.
Lemma received_app l l' : received (l ++ l') = received l ++ received l'.
Proof. induction l as [|[]]; simpl; congruence. Qed.
Lemma taken_app l l' : taken (l ++ l') = taken l ++ taken l'.
Proof. induction l as [|[]]; simpl; congruence. Qed.

(** The byte that the transmit thread has taken out of the queue. *)
Definition in_flight (pc : tx_pc) : list Z := match pc with TxWrite b => [b] | _ => [] end.

Definition tx_reserved (pc : tx_pc) : nat := match pc with TxPop => 1 | _ => 0 end.
Definition main_reserved (pc : main_pc) : nat := match pc with MainPost => 1 | _ => 0 end.
Definition rx_reserved (pc : rx_pc) : nat := match pc with RxPush _ _ => 1 | _ => 0 end.

Record uart_inv {D} (c : config D) (l : list event) : Prop := {
  inv_txfull : (txfull (c_uart c) + tx_reserved (c_tx c) + main_reserved (c_main c)
                = length (tx_fifo (c_uart c)))%nat;
  inv_txdepth : (length (tx_fifo (c_uart c)) <= UART_FIFO_DEPTH)%nat;
  inv_rxempty : (rxempty (c_uart c) + rx_reserved (c_rx c) + length (rx_fifo (c_uart c))
                 = UART_FIFO_DEPTH)%nat;
  inv_tx : accepted l = sent l ++ in_flight (c_tx c) ++ tx_fifo (c_uart c);
  inv_rx : received l = taken l ++ rx_fifo (c_uart c)
}.

Section queues.
Context {D E : Type} `{uart_backend D E}.
Implicit Types c : config D.

Lemma uart_start_inv (d : D) : uart_inv (uart_start d) [].
Proof. by constructor; simpl; try lia. Qed.

(** The invariant after a step: the counts, then the histories. *)
Ltac step_inv :=
  constructor; rewrite ?accepted_app, ?sent_app, ?received_app, ?taken_app;
  cbn [accepted sent received taken c_uart c_tx c_main c_rx tx_fifo rx_fifo txfull rxempty tx_reserved
    main_reserved rx_reserved in_flight set_uart_regs set_uart_reg set_tx_fifo set_rx_fifo set_txfull
    set_rxempty set_notified app] in *;
  unfold UART_FIFO_DEPTH in *; rewrite ?app_nil_r, ?length_app in *; cbn [length] in *; try done; try lia.

Lemma main_step_inv a u (d : D) m t r u' m' l0 l :
  uart_inv (mkConfig u d m t r) l0 -> main_step (E := E) a m u = (Ret (m', l), u') ->
  uart_inv (mkConfig u' d m' t r) (l0 ++ l).
Proof.
  intros [H1 H2 H3 H4 H5] E0. simpl in *.
  destruct m, a; simpl in E0; try (injection E0 as <- <- <-; by step_inv).
  - unfold rx_take, gets, mbind, M_bind in E0. destruct (rx_fifo u) as [|b q] eqn:Hq;
      cbn in E0; injection E0 as <- <- <-; step_inv; rewrite ?Hq in *; cbn [length] in *; try done; try lia.
    all: rewrite H5; by rewrite ?app_nil_r, <- ?app_assoc.
  - unfold uart_reg_value, tx_push, gets, mbind, M_bind in E0. cbv beta iota zeta in E0.
    change (id u) with u in E0.
    destruct (UART_FIFO_DEPTH <=? length (tx_fifo u))%nat eqn:Hf;
      [| apply Nat.leb_gt in Hf]; cbn in E0; injection E0 as <- <- <-;
      step_inv.
    rewrite H4. by rewrite <- !app_assoc.
Qed.

Lemma tx_step_inv u (d : D) m t r u' d' t' l0 l :
  uart_inv (mkConfig u d m t r) l0 -> tx_enabled t u = true -> tx_step t (u, d) = (Ret (t', l), (u', d')) ->
  uart_inv (mkConfig u' d' m t' r) (l0 ++ l).
Proof.
  intros [H1 H2 H3 H4 H5] He E0. simpl in *.
  destruct t as [| |b]; simpl in E0.
  - injection E0 as <- <- <- <-. simpl in He. apply negb_true_iff, Nat.eqb_neq in He. step_inv.
  - unfold gets, mbind, M_bind in E0. cbn in E0. destruct (tx_fifo u) as [|b q] eqn:Hq; [done |].
    injection E0 as <- <- <- <-. step_inv.
  - destruct (write_data b d) as [[[]|e|f] d1]; simpl in E0; [| done | done]. injection E0 as <- <- <- <-.
    step_inv. rewrite H4. by rewrite <- app_assoc.
Qed.

Lemma rx_step_inv input u (d : D) m t r u' d' r' l0 l :
  uart_inv (mkConfig u d m t r) l0 -> rx_enabled r u = true ->
  rx_step input r (u, d) = (Ret (r', l), (u', d')) ->
  uart_inv (mkConfig u' d' m t r') (l0 ++ l).
Proof.
  intros [H1 H2 H3 H4 H5] He E0. simpl in *.
  assert (Hn : forall bs, rx_reserved (rx_next bs) = 0%nat) by (by intros []).
  destruct r as [|b bs|b bs]; simpl in E0.
  - destruct (handle_input input d) as [[bs|e|f] d1]; simpl in E0; [| done | done]. injection E0 as <- <- <- <-.
    step_inv. by rewrite Hn.
  - injection E0 as <- <- <- <-. simpl in He. apply negb_true_iff, Nat.eqb_neq in He. step_inv.
  - injection E0 as <- <- <- <-. step_inv; rewrite ?Hn; [lia |]. rewrite H5. by rewrite <- app_assoc.
Qed.

Lemma uart_run_inv (d : D) l c : uart_run (uart_start d) l c -> uart_inv c l.
Proof.
  induction 1 as [|l c1 l' c2 _ IH Hs]; [apply uart_start_inv |].
  destruct Hs; eauto using main_step_inv, tx_step_inv, rx_step_inv.
Qed.

End queues.

(** ** Accesses as steps *)

Section accesses.
Context {D E : Type} `{uart_backend D E}.

(** The steps that take the SystemC thread from [u] to [u']. *)
Definition main_steps (u u' : AbstractUART) : Prop :=
  forall (d : D) t r, exists l, uart_run (mkConfig u d MainIdle t r) l (mkConfig u' d MainIdle t r).

Lemma main_steps_refl u : main_steps u u.
Proof. intros d t r. exists []. apply run_here. Qed.

Lemma uart_run_trans (c1 c2 c3 : config D) l l' :
  uart_run c1 l c2 -> uart_run c2 l' c3 -> uart_run c1 (l ++ l') c3.
Proof.
  intros H12. induction 1 as [|l' c l2 c' _ IH Hs]; [by rewrite app_nil_r |].
  rewrite app_assoc. by eapply run_step.
Qed.

Lemma main_steps_trans u1 u2 u3 : main_steps u1 u2 -> main_steps u2 u3 -> main_steps u1 u3.
Proof.
  intros H12 H23 d t r. destruct (H12 d t r) as [l Hl], (H23 d t r) as [l' Hl'].
  exists (l ++ l'). by eapply uart_run_trans.
Qed.

Lemma main_steps_act a u u' l :
  main_step (E := E) a MainIdle u = (Ret (MainIdle, l), u') -> main_steps u u'.
Proof.
  intros Ha d t r. exists ([] ++ l). eapply run_step; [apply run_here |]. by eapply step_main.
Qed.

(** A part of the callback that always returns and is made of steps. *)
Definition steps_of {A} (m : M AbstractUART E A) : Prop :=
  forall u r u', m u = (r, u') -> main_steps u u'.

Lemma steps_bind {A B} (m : M AbstractUART E A) (k : A -> M AbstractUART E B) :
  steps_of m -> (forall a, steps_of (k a)) -> steps_of (m ≫= k).
Proof.
  intros Hm Hk u r u' Er. unfold mbind, M_bind in Er. destruct (m u) as [[a|e|f] u1] eqn:Em.
  - eapply main_steps_trans; [by eapply Hm | by eapply Hk].
  - injection Er as <- <-. by eapply Hm.
  - injection Er as <- <-. by eapply Hm.
Qed.

Lemma steps_pure {A} (m : M AbstractUART E A) : (forall u, snd (m u) = u) -> steps_of m.
Proof. intros Hm u r u' Er. pose proof (Hm u) as Hu. rewrite Er in Hu. simpl in Hu. subst. apply main_steps_refl. Qed.

Lemma steps_when b (m : M AbstractUART E unit) : steps_of m -> steps_of (when b m).
Proof. intros Hm. destruct b; [done | by apply steps_pure]. Qed.

Lemma steps_store r v : steps_of (uart_store r v).
Proof. intros u x u' [= <- <-]. by apply (main_steps_act (ActStore r v) u _ []). Qed.

Lemma steps_notify : steps_of asyncEvent_notify.
Proof. intros u x u' [= <- <-]. by apply (main_steps_act ActNotify u _ []). Qed.

Lemma steps_tx_status : steps_of tx_status.
Proof. intros u x u' [= <- <-]. by apply (main_steps_act ActTxStatus u _ []). Qed.

Lemma steps_rx_take : steps_of rx_take.
Proof.
  intros u x u' Er.
  apply (main_steps_act ActRxTake u u' (match rx_fifo u with [] => [] | b :: _ => [Taken b] end)).
  cbn [main_step]. unfold rx_take, gets, mbind, M_bind in *.
  destruct (rx_fifo u); cbn in *; by injection Er as _ <-.
Qed.

(** The push and the [spost] after it are two steps. *)
Lemma steps_tx_push : steps_of (accepted ← tx_push; when accepted spost_txfull).
Proof.
  intros u x u' Er. unfold tx_push, gets, mbind, M_bind in Er. change (id u) with u in Er.
  destruct (UART_FIFO_DEPTH <=? length (tx_fifo u))%nat eqn:Hf; cbn in Er; injection Er as _ <-;
    [apply main_steps_refl |].
  intros d t r. set (b := uint8 (uart_regs u txdata)).
  exists (([] ++ [Accepted b]) ++ []). eapply run_step; [eapply run_step; [apply run_here |] |].
  - eapply (step_main ActTxPush). cbn [main_step]. unfold uart_reg_value, tx_push, gets, mbind, M_bind.
    change (id u) with u. rewrite Hf. reflexivity.
  - by eapply (step_main ActPost).
Qed.

Lemma steps_register_fn (r : reg_mapping_t uart_reg) trans : steps_of (register_fn r trans).
Proof.
  unfold register_fn, bus_read, bus_write, reg_value. destruct (command trans).
  - apply steps_bind; [| intros n; by apply steps_pure]. apply steps_bind; [| intros _; by apply steps_pure].
    destruct (can_read _); by apply steps_pure.
  - apply steps_bind; [by apply steps_pure | intros n]. apply steps_bind; [| intros _; by apply steps_pure].
    apply steps_bind; [destruct (can_write _); by apply steps_pure | intros _]. apply steps_store.
  - by apply steps_pure.
Qed.

Lemma steps_callback (a : register_access_t AbstractUART uart_reg E) :
  steps_of (access_fn a) -> steps_of (register_access_callback a).
Proof.
  intros Hfn. unfold register_access_callback. apply steps_bind.
  { apply steps_when. case_decide; [apply steps_tx_status |]. case_decide; [apply steps_rx_take |].
    case_decide; [| by apply steps_pure].
    do 2 (apply steps_bind; [by apply steps_pure | intros ?]). apply steps_store. }
  intros _. do 2 (apply steps_bind; [by apply steps_pure | intros ?]).
  apply steps_bind; [done | intros data].
  apply steps_bind; [apply steps_when, steps_notify | intros _].
  apply steps_bind; [apply steps_when, steps_tx_push | intros _]. by apply steps_pure.
Qed.

Lemma steps_transport trans delay : steps_of (uart_transport trans delay).
Proof.
  unfold uart_transport, uart_router. cbn [router_transport]. apply steps_bind.
  - cbn [try_handle]. unfold register_try_handle.
    destruct (find_reg _ _) as [r|]; [| by apply steps_pure].
    do 4 (apply steps_bind; [unfold assert; case_match; by apply steps_pure | intros _]).
    apply steps_bind; [unfold new_value; repeat case_match; by apply steps_pure | intros nv].
    apply steps_bind; [apply steps_callback, steps_register_fn | intros data]. by apply steps_pure.
  - intros [x|]; by apply steps_pure.
Qed.

End accesses.

(** C25: the threads of a UART exchange every byte, once and in order.  However
    the SystemC thread, the transmit thread and the receive thread interleave:
    the bytes the guest has written and the queue has accepted are the bytes
    passed to [write_data], then the one the transmit thread holds, then the
    transmit queue; the bytes received are those the guest has read, then the
    receive queue; neither queue grows beyond its depth; no thread takes a byte
    from an empty queue; and none waits for ever: with bytes to transmit the
    transmit thread can run, at the latest after the [spost] that the SystemC
    thread is about to execute, and with room in the receive queue the receive
    thread can.  The transmit thread fails only where [write_data] does.  An
    access of the guest to the registers is a sequence of such steps. *)
Theorem uart_queues {D E : Type} `{uart_backend D E} (d : D) (l : list event) (c : config D) :
  uart_run (uart_start d) l c ->
  let u := c_uart c in
  accepted l = sent l ++ in_flight (c_tx c) ++ tx_fifo u /\
  received l = taken l ++ rx_fifo u /\
  (length (tx_fifo u) <= UART_FIFO_DEPTH)%nat /\ (length (rx_fifo u) <= UART_FIFO_DEPTH)%nat /\
  (tx_fifo u <> [] -> c_main c = MainIdle -> tx_enabled (c_tx c) u = true) /\
  ((length (rx_fifo u) < UART_FIFO_DEPTH)%nat -> rx_enabled (c_rx c) u = true) /\
  (forall f s, tx_step (c_tx c) (u, c_backend c) = (Fatal f, s) ->
     exists b, c_tx c = TxWrite b /\ fst (write_data b (c_backend c)) = Fatal f) /\
  (c_main c = MainIdle -> forall trans delay r u',
     uart_transport (E := E) trans delay u = (r, u') ->
     exists l', uart_run (uart_start d) (l ++ l') (mkConfig u' (c_backend c) MainIdle (c_tx c) (c_rx c))).
Proof.
  intros Hr u. pose proof (uart_run_inv d l c Hr) as [H1 H2 H3 H4 H5]. fold u in H1, H2, H3, H4, H5.
  split; [done |]. split; [done |]. split; [done |]. split; [lia |]. split; [| split; [| split]].
  - intros Hne Hm. destruct (c_tx c); [| done | done]. simpl. rewrite Hm in H1. simpl in H1.
    destruct (tx_fifo u); [done |]. simpl in H1. apply negb_true_iff, Nat.eqb_neq. lia.
  - intros Hlt. destruct (c_rx c); [done | | done]. simpl in *. apply negb_true_iff, Nat.eqb_neq. lia.
  - intros f s Hs. destruct (c_tx c) as [| |b]; simpl in Hs; [done | | ].
    + exfalso. unfold gets, mbind, M_bind in Hs. cbn in Hs.
      destruct (tx_fifo u); [simpl in H1; lia | done].
    + exists b. split; [done |]. destruct (write_data b (c_backend c)) as [[]]; simpl in *; congruence.
  - intros Hm trans delay r u' Ht.
    destruct (steps_transport trans delay u r u' Ht (c_backend c) (c_tx c) (c_rx c)) as [l' Hl'].
    exists l'. eapply uart_run_trans; [exact Hr |]. unfold u in Hl'. rewrite <- Hm in Hl' at 1. by destruct c.
Qed.

(** ** Schedules

    A schedule names the thread that takes the next step; a blocked or failing
    thread ends it. *)

Inductive choice : Type := Main (a : main_act) | Transmit | Receive (input : list Z).

Section schedules.
Context {D E : Type} `{uart_backend D E}.

Definition sched_step (k : choice) (c : config D) : option (list event * config D) :=
  let u := c_uart c in let d := c_backend c in
  match k with
  | Main a =>
      match main_step (E := E) a (c_main c) u with
      | (Ret (m, l), u') => Some (l, mkConfig u' d m (c_tx c) (c_rx c))
      | _ => None
      end
  | Transmit =>
      if tx_enabled (c_tx c) u then
        match tx_step (c_tx c) (u, d) with
        | (Ret (t, l), (u', d')) => Some (l, mkConfig u' d' (c_main c) t (c_rx c))
        | _ => None
        end
      else None
  | Receive input =>
      if rx_enabled (c_rx c) u then
        match rx_step input (c_rx c) (u, d) with
        | (Ret (r, l), (u', d')) => Some (l, mkConfig u' d' (c_main c) (c_tx c) r)
        | _ => None
        end
      else None
  end.

Fixpoint sched_run (ks : list choice) (l : list event) (c : config D) : option (list event * config D) :=
  match ks with
  | [] => Some (l, c)
  | k :: ks => '(l', c') ← sched_step k c; sched_run ks (l ++ l') c'
  end.

Lemma sched_step_sound k c l c' : sched_step k c = Some (l, c') -> uart_step c l c'.
Proof.
  destruct c as [u d m t r], k as [a| |input]; cbn.
  - destruct (main_step a m u) as [[[m' l']|e|f] u'] eqn:Es; [| done | done].
    intros [= -> <-]. by eapply step_main.
  - destruct (tx_enabled t u) eqn:He; [| done].
    destruct (tx_step t (u, d)) as [[[t' l']|e|f] [u' d']] eqn:Es; [| done | done].
    intros [= -> <-]. by eapply step_tx.
  - destruct (rx_enabled r u) eqn:He; [| done].
    destruct (rx_step input r (u, d)) as [[[r' l']|e|f] [u' d']] eqn:Es; [| done | done].
    intros [= -> <-]. by eapply step_rx.
Qed.

Lemma sched_run_sound c0 ks : forall l c l' c',
  uart_run c0 l c -> sched_run ks l c = Some (l', c') -> uart_run c0 l' c'.
Proof.
  induction ks as [|k ks IH]; intros l c l' c' Hr; cbn [sched_run]; [by intros [= <- <-] |].
  destruct (sched_step k c) as [[l1 c1]|] eqn:Hs; [| done]. cbn.
  apply IH. eapply run_step; [done | exact (sched_step_sound k c l1 c1 Hs)].
Qed.
End schedules.

(** ** UART: a terminal (uart.h, uart.cpp) *)

Definition CTRL (c : Z) : Z := c .& 0x1f.
Definition KEY_ESC : Z := CTRL 97.
Definition KEY_EXIT : Z := 120.
Definition KEY_CEXIT : Z := CTRL KEY_EXIT.

Inductive uart_state : Type := STATE_COMMAND | STATE_NORMAL.
#[export] Instance uart_state_eq_dec : EqDecision uart_state.
Proof. solve_decision. Defined.

(** The terminal of the host, and [exit]. *)
Class tty (D E : Type) : Type := {
  get_uart_state : D -> uart_state;
  set_uart_state : uart_state -> D -> D;
  tty_write : list Z -> M D E Z;
  tty_exit : M D E unit
}.

Section UART.
Context {D E : Type} `{tty D E}.

Definition uart_handle_cmd (cmd : Z) : M D E (list Z) :=
  if cmd =? KEY_ESC then mret [cmd]
  else if (cmd =? KEY_EXIT) || (cmd =? KEY_CEXIT) then tty_exit ;; mret []
  else mret [].

(** [input]: what [read] of one byte has returned. *)
Definition uart_handle_input (input : list Z) : M D E (list Z) :=
  match input with
  | [buf] =>
      state ← gets get_uart_state;
      bs ← (match state with STATE_NORMAL => mret [buf] | STATE_COMMAND => uart_handle_cmd buf end);
      modify (set_uart_state
        (if (buf =? KEY_ESC) && bool_decide (state <> STATE_COMMAND) then STATE_COMMAND else STATE_NORMAL)) ;;
      mret bs
  | _ => fatal RuntimeError
  end.

Definition uart_write_data (data : Z) : M D E unit :=
  nwritten ← tty_write [data]; ensure (nwritten =? 1).

#[export] Instance UART_backend : uart_backend D E := {
  write_data := uart_write_data;
  handle_input := uart_handle_input
}.

End UART.

(** A terminal that records its output. *)
Record tty_bench : Type := mkTty { tty_state : uart_state; tty_output : list Z; tty_exited : bool }.

#[export] Instance tty_bench_tty : tty tty_bench unit := {
  get_uart_state := tty_state;
  set_uart_state st d := mkTty st (tty_output d) (tty_exited d);
  tty_write bs := modify (fun d => mkTty (tty_state d) (tty_output d ++ bs) (tty_exited d)) ;; mret 1;
  tty_exit := modify (fun d => mkTty (tty_state d) (tty_output d) true) ;; throw tt
}.

Definition tty_start : tty_bench := mkTty STATE_NORMAL [] false.

(** The guest writes two bytes, of which one is transmitted, while one is received. *)
Definition two_bytes : list choice :=
  [Main (ActStore txdata 65); Main ActTxPush; Receive [97]; Main ActPost; Transmit; Transmit; Receive [];
   Main (ActStore txdata 66); Main ActTxPush; Transmit; Receive []; Main ActPost].

Lemma uart_queues_witness :
  exists l c, uart_run (uart_start tty_start) l c /\ accepted l = [65; 66] /\ sent l = [65] /\
    received l = [97] /\ tty_output (c_backend c) = [65] /\
    tx_enabled (c_tx c) (c_uart c) = true.
Proof.
  destruct (sched_run two_bytes [] (uart_start tty_start)) as [[l c]|] eqn:Er; [| by vm_compute in Er].
  pose proof (sched_run_sound (uart_start tty_start) two_bytes [] _ l c (run_here _) Er) as Hr.
  exists l, c. split; [exact Hr |].
  destruct (uart_queues tty_start l c Hr) as (_ & _ & _ & _ & Ht & _).
  vm_compute in Er. injection Er as <- <-. do 4 (split; [done |]). by apply Ht.
Defined.
