(* ===== verification/Slip.v ===== *)
(** * SLIP: network packets over a UART

    Models class SLIP (platform/common/slip.h, slip.cpp), the UART whose input
    and output are the packets of a network device of the host, framed as RFC
    1055 says.  The buffer of outgoing bytes is its contents, of length [sndsiz],
    and the size it was allocated with.  The network device and [realloc] are the
    class [tun]. *)

From S2P Require Import Prelude Memory MemoryMap Uart.

Definition SLIP_SNDBUF_STEP : nat := 1500.
Definition SLIP_END : Z := 0xc0.
Definition SLIP_ESC : Z := 0xdb.
Definition SLIP_ESC_END : Z := 0xdc.
Definition SLIP_ESC_ESC : Z := 0xdd.

Record SLIP : Type := mkSLIP { sndbuf : list Z; snd_allocated : nat }.
Definition SLIP_new : SLIP := mkSLIP [] SLIP_SNDBUF_STEP.
Definition sndsiz (s : SLIP) : nat := length (sndbuf s).

Class tun (D E : Type) : Type := {
  get_slip : D -> SLIP;
  set_slip : SLIP -> D -> D;
  tun_write : list Z -> M D E Z;
  tun_realloc : nat -> M D E bool
}.

Section SLIP.
Context {D E : Type} `{tun D E}.

Abbreviation R := (M D E).

(** Reallocation keeps the contents. *)
Definition resize (size : nat) : R unit :=
  done ← tun_realloc size;
  ensure done ;;
  modify (fun d => set_slip (mkSLIP (sndbuf (get_slip d)) size) d).

Definition send_packet : R unit :=
  s ← gets get_slip;
  ret ← tun_write (sndbuf s);
  ensure (negb (ret =? -1)) ;;
  ensure (ret =? Z.of_nat (sndsiz s)) ;;
  when (SLIP_SNDBUF_STEP <? sndsiz s)%nat (resize SLIP_SNDBUF_STEP) ;;
  modify (fun d => set_slip (mkSLIP [] (snd_allocated (get_slip d))) d).

(** [sndbuf[sndsiz - 1]], if there is one. *)
Definition last_byte (s : SLIP) : option Z := last (sndbuf s).
Definition replace_last (b : Z) (s : SLIP) : SLIP :=
  mkSLIP (removelast (sndbuf s) ++ [b]) (snd_allocated s).

(** The end of write_data: the byte is appended. *)
Definition append_byte (data : Z) : R unit :=
  s ← gets get_slip;
  when (negb (sndsiz s =? 0)%nat && (sndsiz s mod SLIP_SNDBUF_STEP =? 0)%nat)
    (resize (sndsiz s + SLIP_SNDBUF_STEP)) ;;
  s ← gets get_slip;
  if (sndsiz s <? snd_allocated s)%nat
  then modify (set_slip (mkSLIP (sndbuf s ++ [data]) (snd_allocated s)))
  else fatal UndefinedBehaviour.

Definition slip_write_data (data : Z) : R unit :=
  s ← gets get_slip;
  if data =? SLIP_END then when (0 <? sndsiz s)%nat send_packet
  else
    match last_byte s with
    | Some l =>
        if (l =? SLIP_ESC) && (data =? SLIP_ESC_END) then modify (set_slip (replace_last SLIP_END s))
        else if (l =? SLIP_ESC) && (data =? SLIP_ESC_ESC) then modify (set_slip (replace_last SLIP_ESC s))
        else append_byte data
    | None => append_byte data
    end.

(** The loop of handle_input over the bytes of a packet. *)
Fixpoint slip_encode (bs : list Z) : list Z :=
  match bs with
  | [] => []
  | b :: bs =>
      (if b =? SLIP_END then [SLIP_ESC; SLIP_ESC_END]
       else if b =? SLIP_ESC then [SLIP_ESC; SLIP_ESC_ESC]
       else [b]) ++ slip_encode bs
  end.

(** [input]: the packet that [read] has returned. *)
Definition slip_handle_input (input : list Z) : R (list Z) := mret (slip_encode input ++ [SLIP_END]).

#[export] Instance SLIP_backend : uart_backend D E := {
  write_data := slip_write_data;
  handle_input := slip_handle_input
}.

End SLIP.

(** ** RFC 1055

    A decoder with a state of its own for the escape character: the packets in a
    sequence of bytes. *)
Fixpoint rfc_decode (bs : list Z) (escaped : bool) (packet : list Z) : list (list Z) :=
  match bs with
  | [] => []
  | b :: bs =>
      if escaped then
        rfc_decode bs false (packet ++ [if b =? SLIP_ESC_END then SLIP_END
                                        else if b =? SLIP_ESC_ESC then SLIP_ESC else b])
      else if b =? SLIP_END then packet :: rfc_decode bs false []
      else if b =? SLIP_ESC then rfc_decode bs true packet
      else rfc_decode bs false (packet ++ [b])
  end.

Lemma rfc_decode_encode p rest packet :
  rfc_decode (slip_encode p ++ rest) false packet = rfc_decode rest false (packet ++ p).
Proof.
  revert packet. induction p as [|b p IH]; intros packet; cbn [slip_encode app]; [by rewrite app_nil_r |].
  replace (packet ++ b :: p) with ((packet ++ [b]) ++ p) by (by rewrite <- app_assoc).
  destruct (Z.eqb_spec b SLIP_END) as [->|]; [| destruct (Z.eqb_spec b SLIP_ESC) as [->|]];
    cbn [app rfc_decode].
  - change (SLIP_ESC =? SLIP_END) with false. change (SLIP_ESC =? SLIP_ESC) with true.
    change (SLIP_ESC_END =? SLIP_ESC_END) with true. cbv iota. apply IH.
  - change (SLIP_ESC =? SLIP_END) with false. change (SLIP_ESC =? SLIP_ESC) with true.
    change (SLIP_ESC_ESC =? SLIP_ESC_END) with false. change (SLIP_ESC_ESC =? SLIP_ESC_ESC) with true.
    cbv iota. apply IH.
  - destruct (Z.eqb_spec b SLIP_END); [done |]. destruct (Z.eqb_spec b SLIP_ESC); [done |]. apply IH.
Qed.

(** ** What the decoder of the code computes *)

(** The buffer after the encoding of a byte. *)
Definition receive_byte (buf : list Z) (b : Z) : list Z :=
  if bool_decide (last buf = Some SLIP_ESC) && (b =? SLIP_ESC_END) then removelast buf ++ [SLIP_END]
  else if bool_decide (last buf = Some SLIP_ESC) && (b =? SLIP_ESC_ESC) then buf
  else buf ++ [b].

Definition receive_packet (p : list Z) : list Z := foldl receive_byte [] p.

(** No escape character before one of the characters that follow it in an
    escape sequence; [l] is the byte before. *)
Definition bad_pair (l : option Z) (b : Z) : bool :=
  bool_decide (l = Some SLIP_ESC) && ((b =? SLIP_ESC_END) || (b =? SLIP_ESC_ESC)).

Fixpoint clean_after (l : option Z) (p : list Z) : bool :=
  match p with
  | [] => true
  | b :: p => negb (bad_pair l b) && clean_after (Some b) p
  end.
Definition clean (p : list Z) : bool := clean_after None p.

Lemma last_removelast (l : list Z) x : last l = Some x -> removelast l ++ [x] = l.
Proof.
  induction l as [|a l IH]; [done |]. destruct l as [|b l]; [by intros [= <-] |].
  intros Hl. cbn [removelast app]. f_equal. by apply IH.
Qed.

Lemma length_removelast (l : list Z) : l <> [] -> length (removelast l) = (length l - 1)%nat.
Proof.
  induction l as [|a l IH]; [done |]. intros _. destruct l as [|b l]; [done |].
  cbn [removelast]. simpl in *. rewrite IH by done. lia.
Qed.

Lemma receive_byte_good buf b : bad_pair (last buf) b = false -> receive_byte buf b = buf ++ [b].
Proof.
  unfold bad_pair, receive_byte. destruct (bool_decide _); [| done].
  destruct (b =? SLIP_ESC_END), (b =? SLIP_ESC_ESC); done.
Qed.

Lemma receive_byte_bad buf b : bad_pair (last buf) b = true -> length (receive_byte buf b) = length buf.
Proof.
  unfold bad_pair, receive_byte. intros [Hl%bool_decide_eq_true Hb]%andb_prop.
  rewrite bool_decide_true by done. cbn [andb]. assert (buf <> []) by (by intros ->).
  destruct (b =? SLIP_ESC_END); [rewrite length_app, length_removelast by done; simpl; destruct buf; simpl in *; [done | lia] |].
  simpl in Hb. by rewrite Hb.
Qed.

Lemma receive_byte_length buf b : (length (receive_byte buf b) <= S (length buf))%nat.
Proof.
  destruct (bad_pair (last buf) b) eqn:Hb; [by rewrite receive_byte_bad by done; lia |].
  rewrite receive_byte_good by done. rewrite length_app. simpl. lia.
Qed.

Lemma receive_byte_nonempty buf b : receive_byte buf b <> [].
Proof.
  destruct (bad_pair (last buf) b) eqn:Hb; [| rewrite receive_byte_good by done; by destruct buf].
  intros E. pose proof (receive_byte_bad buf b Hb) as Hl. rewrite E in Hl. by destruct buf.
Qed.

Lemma receive_nonempty p buf : buf <> [] -> foldl receive_byte buf p <> [].
Proof.
  revert buf. induction p as [|b p IH]; intros buf Hb; [done |]. apply IH, receive_byte_nonempty.
Qed.

Lemma receive_length p buf : (length (foldl receive_byte buf p) <= length buf + length p)%nat.
Proof.
  revert buf. induction p as [|b p IH]; intros buf; simpl; [lia |].
  specialize (IH (receive_byte buf b)). pose proof (receive_byte_length buf b). lia.
Qed.

Lemma receive_clean p buf :
  if clean_after (last buf) p then foldl receive_byte buf p = buf ++ p
  else (length (foldl receive_byte buf p) < length buf + length p)%nat.
Proof.
  revert buf. induction p as [|b p IH]; intros buf; cbn [clean_after foldl]; [by rewrite app_nil_r |].
  destruct (bad_pair (last buf) b) eqn:Hb; cbn [negb andb].
  - pose proof (receive_length p (receive_byte buf b)) as Hl. rewrite receive_byte_bad in Hl by done.
    simpl. lia.
  - rewrite receive_byte_good by done. specialize (IH (buf ++ [b])). rewrite last_snoc in IH.
    destruct (clean_after (Some b) p).
    + rewrite IH. by rewrite <- app_assoc.
    + rewrite length_app in IH. simpl in *. lia.
Qed.

Lemma receive_packet_clean p : receive_packet p = p <-> clean p = true.
Proof.
  pose proof (receive_clean p []) as Hr. unfold receive_packet, clean. simpl in Hr.
  destruct (clean_after None p); [done |]. split; [| done]. intros E. rewrite E in Hr. lia.
Qed.

(** ** The code *)

(** The network device takes every packet, and memory is not exhausted. *)
Class tun_host (D E : Type) `{tun D E} : Type := {
  sent_packets : D -> list (list Z);
  set_slip_ok s d : get_slip (set_slip s d) = s /\ sent_packets (set_slip s d) = sent_packets d;
  tun_write_ok bs d : exists d', tun_write bs d = (Ret (Z.of_nat (length bs)), d') /\
    get_slip d' = get_slip d /\ sent_packets d' = sent_packets d ++ [bs];
  tun_realloc_ok n d : exists d', tun_realloc n d = (Ret true, d') /\
    get_slip d' = get_slip d /\ sent_packets d' = sent_packets d
}.

(** The buffer has the size the code needs and no more. *)
Definition slip_ok (s : SLIP) : Prop :=
  exists k, (0 < k)%nat /\ snd_allocated s = (SLIP_SNDBUF_STEP * k)%nat /\
    (sndsiz s <= snd_allocated s)%nat /\ (k = 1 \/ SLIP_SNDBUF_STEP * (k - 1) < sndsiz s)%nat.

Section slip.
Context {D E : Type} `{Hhost : tun_host D E}.
#[local] Set Default Proof Using "Type Hhost".

Abbreviation R := (M D E).

Definition writes (bs : list Z) : R unit := foldr (fun b m => slip_write_data b ;; m) skip bs.

(** The state has the buffer [buf] and the packets [ps] have been sent. *)
Definition slip_state (buf : list Z) (ps : list (list Z)) (d : D) : Prop :=
  slip_ok (get_slip d) /\ sndbuf (get_slip d) = buf /\ sent_packets d = ps.

Definition leads (m : R unit) (buf : list Z) ps buf' ps' : Prop :=
  forall d, slip_state buf ps d -> exists d', m d = (Ret tt, d') /\ slip_state buf' ps' d'.

Lemma slip_bind m k buf ps buf1 ps1 buf2 ps2 :
  leads m buf ps buf1 ps1 -> leads k buf1 ps1 buf2 ps2 -> leads (m ;; k) buf ps buf2 ps2.
Proof using Type.
  intros Hm Hk d Hd. destruct (Hm d Hd) as (d1 & E1 & Hd1). destruct (Hk d1 Hd1) as (d2 & E2 & Hd2).
  exists d2. split; [| done]. unfold mbind, M_bind. by rewrite E1.
Qed.

Lemma resize_eq n d : exists d', resize n d = (Ret tt, d') /\
  get_slip d' = mkSLIP (sndbuf (get_slip d)) n /\ sent_packets d' = sent_packets d.
Proof.
  destruct (tun_realloc_ok n d) as (d1 & E1 & Hg & Hs).
  eexists. split; [unfold resize, mbind, M_bind; rewrite E1; reflexivity |].
  destruct (set_slip_ok (mkSLIP (sndbuf (get_slip d1)) n) d1) as [-> ->]. by rewrite Hg.
Qed.

Lemma append_leads buf ps b : leads (append_byte b) buf ps (buf ++ [b]) ps.
Proof.
  intros d ((k & Hk & Ha & Hle & Hlow) & Hb & Hp). unfold sndsiz in *. rewrite Hb in *.
  unfold append_byte, gets. unfold mbind at 1, M_bind at 1. unfold sndsiz. rewrite Hb.
  destruct (negb (length buf =? 0)%nat && (length buf mod SLIP_SNDBUF_STEP =? 0)%nat) eqn:Hfull.
  - apply andb_prop in Hfull as [H0%negb_true_iff%Nat.eqb_neq Hm%Nat.eqb_eq].
    destruct (resize_eq (length buf + SLIP_SNDBUF_STEP) d) as (d1 & E1 & Hg1 & Hs1).
    cbn [when]. unfold mbind, M_bind. rewrite E1, Hg1. cbn [sndbuf snd_allocated]. rewrite Hb.
    rewrite (proj2 (Nat.ltb_lt _ _)) by (unfold SLIP_SNDBUF_STEP; lia).
    eexists. split; [reflexivity |]. unfold slip_state.
    destruct (set_slip_ok (mkSLIP (buf ++ [b]) (length buf + SLIP_SNDBUF_STEP)) d1) as [-> ->].
    split; [| by rewrite Hs1]. apply Nat.Div0.div_exact in Hm.
    exists (S (length buf / SLIP_SNDBUF_STEP)). unfold sndsiz. cbn [sndbuf snd_allocated].
    rewrite length_app. simpl length. unfold SLIP_SNDBUF_STEP in *. lia.
  - cbn [when]. unfold mbind, M_bind. cbn [skip mret M_ret]. rewrite Hb.
    assert (Hlt : (length buf < snd_allocated (get_slip d))%nat).
    { destruct (decide (length buf = snd_allocated (get_slip d))) as [E0|]; [| lia].
      exfalso. assert (Hm : (length buf mod SLIP_SNDBUF_STEP = 0)%nat).
      { rewrite E0, Ha, Nat.mul_comm. apply Nat.Div0.mod_mul. }
      rewrite Hm in Hfull. apply andb_false_iff in Hfull as [Hz|Hz]; [| done].
      apply negb_false_iff, Nat.eqb_eq in Hz. unfold SLIP_SNDBUF_STEP in *. lia. }
    rewrite (proj2 (Nat.ltb_lt _ _) Hlt). eexists. split; [reflexivity |]. unfold slip_state.
    destruct (set_slip_ok (mkSLIP (buf ++ [b]) (snd_allocated (get_slip d))) d) as [-> ->].
    split; [| done]. exists k. unfold sndsiz. cbn [sndbuf snd_allocated]. rewrite length_app. simpl length.
    unfold SLIP_SNDBUF_STEP in *. lia.
Qed.

Lemma replace_leads buf ps b c : last buf = Some c ->
  leads (s ← gets get_slip; modify (set_slip (replace_last b s))) buf ps (removelast buf ++ [b]) ps.
Proof.
  intros Hl d ((k & Hk & Ha & Hle & Hlow) & Hb & Hp). eexists. split; [reflexivity |].
  unfold slip_state. destruct (set_slip_ok (replace_last b (get_slip d)) d) as [-> ->].
  unfold replace_last. rewrite Hb. split; [| done]. exists k. unfold sndsiz in *. cbn [sndbuf snd_allocated].
  rewrite length_app, length_removelast by (by intros ->). rewrite Hb in *. simpl length.
  assert (buf <> []) by (by intros ->). destruct buf; [done |]. simpl in *. lia.
Qed.

Lemma write_leads buf ps b : b <> SLIP_END ->
  leads (slip_write_data b) buf ps
    (if bool_decide (last buf = Some SLIP_ESC) && (b =? SLIP_ESC_END) then removelast buf ++ [SLIP_END]
     else if bool_decide (last buf = Some SLIP_ESC) && (b =? SLIP_ESC_ESC) then buf
     else buf ++ [b]) ps.
Proof.
  intros Hne d Hd. pose proof Hd as (_ & Hb & _). unfold slip_write_data, gets. unfold mbind at 1, M_bind at 1.
  rewrite (proj2 (Z.eqb_neq _ _) Hne). unfold last_byte. rewrite Hb.
  destruct (last buf) as [l|] eqn:Hl; [| exact (append_leads buf ps b d Hd)].
  destruct (Z.eqb_spec l SLIP_ESC) as [->|Hesc].
  - rewrite bool_decide_true by done. cbn [andb].
    destruct (b =? SLIP_ESC_END); [exact (replace_leads buf ps SLIP_END _ Hl d Hd) |].
    destruct (b =? SLIP_ESC_ESC); [| exact (append_leads buf ps b d Hd)].
    destruct (replace_leads buf ps SLIP_ESC _ Hl d Hd) as (d' & E1 & Hd').
    rewrite (last_removelast _ _ Hl) in Hd'. by exists d'.
  - rewrite bool_decide_false by congruence. exact (append_leads buf ps b d Hd).
Qed.

Lemma writes_app bs bs' d : writes (bs ++ bs') d = (writes bs ;; writes bs') d.
Proof using Type.
  revert d. induction bs as [|b bs IH]; intros d; [done |].
  cbn [app writes foldr]. unfold mbind, M_bind. fold (writes (bs ++ bs')) (writes bs).
  destruct (slip_write_data b d) as [[[]|e|f] d1]; [| done | done]. rewrite IH. done.
Qed.

Lemma writes_leads_app bs bs' buf ps buf1 ps1 buf2 ps2 :
  leads (writes bs) buf ps buf1 ps1 -> leads (writes bs') buf1 ps1 buf2 ps2 ->
  leads (writes (bs ++ bs')) buf ps buf2 ps2.
Proof using Type. intros H1 H2 d Hd. rewrite writes_app. by eapply slip_bind. Qed.

Lemma writes_one buf ps b buf' ps' :
  leads (slip_write_data b) buf ps buf' ps' -> leads (writes [b]) buf ps buf' ps'.
Proof using Type. intros H1. eapply slip_bind; [done |]. intros d Hd. by exists d. Qed.

(** The encoding of a byte appends the byte, or is mistaken for the rest of an
    escape sequence. *)
Lemma encode_byte_leads buf ps b : leads (writes (slip_encode [b])) buf ps (receive_byte buf b) ps.
Proof.
  unfold receive_byte. cbn [slip_encode]. rewrite app_nil_r.
  destruct (Z.eqb_spec b SLIP_END) as [->|Hend]; [| destruct (Z.eqb_spec b SLIP_ESC) as [->|Hesc]].
  - change (SLIP_END =? SLIP_ESC_END) with false. change (SLIP_END =? SLIP_ESC_ESC) with false.
    rewrite !andb_false_r. apply (writes_leads_app [SLIP_ESC] [SLIP_ESC_END] _ _ (buf ++ [SLIP_ESC]) ps).
    + apply writes_one. pose proof (write_leads buf ps SLIP_ESC ltac:(done)) as Hw.
      change (SLIP_ESC =? SLIP_ESC_END) with false in Hw. change (SLIP_ESC =? SLIP_ESC_ESC) with false in Hw.
      by rewrite !andb_false_r in Hw.
    + apply writes_one. pose proof (write_leads (buf ++ [SLIP_ESC]) ps SLIP_ESC_END ltac:(done)) as Hw.
      rewrite last_snoc, bool_decide_true, removelast_last in Hw by done. exact Hw.
  - change (SLIP_ESC =? SLIP_ESC_END) with false. change (SLIP_ESC =? SLIP_ESC_ESC) with false.
    rewrite !andb_false_r. apply (writes_leads_app [SLIP_ESC] [SLIP_ESC_ESC] _ _ (buf ++ [SLIP_ESC]) ps).
    + apply writes_one. pose proof (write_leads buf ps SLIP_ESC ltac:(done)) as Hw.
      change (SLIP_ESC =? SLIP_ESC_END) with false in Hw. change (SLIP_ESC =? SLIP_ESC_ESC) with false in Hw.
      by rewrite !andb_false_r in Hw.
    + apply writes_one. pose proof (write_leads (buf ++ [SLIP_ESC]) ps SLIP_ESC_ESC ltac:(done)) as Hw.
      rewrite last_snoc, bool_decide_true in Hw by done. exact Hw.
  - apply writes_one. by apply write_leads.
Qed.

Lemma encode_leads p ps buf : leads (writes (slip_encode p)) buf ps (foldl receive_byte buf p) ps.
Proof.
  revert buf. induction p as [|b p IH]; intros buf; [intros d Hd; by exists d |].
  pose proof (encode_byte_leads buf ps b) as Hb. cbn [slip_encode] in *. rewrite app_nil_r in Hb.
  by eapply writes_leads_app.
Qed.

Lemma send_leads buf ps : buf <> [] -> leads (slip_write_data SLIP_END) buf ps [] (ps ++ [buf]).
Proof.
  intros Hne d ((k & Hk & Ha & Hle & Hlow) & Hb & Hp). unfold sndsiz in *. rewrite Hb in *.
  assert (Hpos : (0 < length buf)%nat) by (destruct buf; [done | simpl; lia]).
  unfold slip_write_data, gets. unfold mbind at 1, M_bind at 1. unfold sndsiz. rewrite Hb, Z.eqb_refl.
  rewrite (proj2 (Nat.ltb_lt _ _) Hpos). cbn [when]. unfold send_packet, gets. unfold mbind at 1, M_bind at 1.
  unfold mbind at 1, M_bind at 1. rewrite Hb. unfold sndsiz. rewrite Hb.
  destruct (tun_write_ok buf d) as (d1 & -> & Hg1 & Hs1).
  assert ((Z.of_nat (length buf) =? -1) = false) as -> by lia. rewrite Z.eqb_refl.
  unfold ensure. cbn [negb]. unfold mbind at 1, M_bind at 1. cbn [skip mret M_ret].
  unfold mbind at 1, M_bind at 1. cbn [skip mret M_ret].
  assert (exists d2, when (SLIP_SNDBUF_STEP <? length buf)%nat (resize (E := E) SLIP_SNDBUF_STEP) d1 = (Ret tt, d2) /\
    snd_allocated (get_slip d2) = SLIP_SNDBUF_STEP /\ sent_packets d2 = sent_packets d1) as (d2 & E2 & Hg2 & Hs2).
  { destruct (Nat.ltb_spec SLIP_SNDBUF_STEP (length buf)) as [Hlt|Hge]; cbn [when].
    - destruct (resize_eq SLIP_SNDBUF_STEP d1) as (d2 & E2 & Hg2 & Hs2). exists d2. by rewrite Hg2.
    - exists d1. split; [done |]. rewrite Hg1, Ha. split; [| done]. unfold SLIP_SNDBUF_STEP in *. lia. }
  unfold mbind, M_bind. rewrite E2. eexists. split; [reflexivity |]. unfold slip_state.
  destruct (set_slip_ok (mkSLIP [] (snd_allocated (get_slip d2))) d2) as [-> ->].
  rewrite Hs2, Hs1, Hp. split; [| done]. exists 1%nat. unfold sndsiz. cbn [sndbuf snd_allocated length].
  rewrite Hg2. unfold SLIP_SNDBUF_STEP. lia.
Qed.

(** C26: what the guest sends as a SLIP packet reaches the network, unless the
    packet holds an escape character before one of the two characters that end
    an escape sequence.  Let the network device take every packet and memory
    suffice, and let the guest write the RFC 1055 encoding of a packet to an
    empty buffer: the writes stay within the buffer, exactly one packet is sent,
    and it is the packet of the guest if and only if that pair of characters
    does not occur in it; otherwise the packet sent is a different, shorter one.
    In the other direction the bytes received are an encoding that a decoder
    after RFC 1055 turns into the packet of the network. *)
Theorem slip_packets (p : list Z) (ps : list (list Z)) (d : D) :
  p <> [] -> slip_state [] ps d ->
  (exists d', writes (slip_encode p ++ [SLIP_END]) d = (Ret tt, d') /\
     slip_state [] (ps ++ [receive_packet p]) d' /\
     (receive_packet p = p <-> clean p = true) /\
     (clean p = false -> (length (receive_packet p) < length p)%nat)) /\
  (exists bs, slip_handle_input (E := E) p d = (Ret bs, d) /\ rfc_decode bs false [] = [p]).
Proof.
  intros Hne Hd. split.
  - assert (Hr : receive_packet p <> []).
    { destruct p as [|b p]; [done |]. unfold receive_packet. cbn [foldl].
      apply receive_nonempty, receive_byte_nonempty. }
    destruct (writes_leads_app (slip_encode p) [SLIP_END] [] ps _ ps [] (ps ++ [receive_packet p])
      (encode_leads p ps []) (writes_one _ _ _ _ _ (send_leads _ ps Hr)) d Hd) as (d' & Ew & Hd').
    exists d'. split; [done |]. split; [done |]. split; [apply receive_packet_clean |].
    intros Hc. pose proof (receive_clean p []) as Hlen. unfold clean in Hc. simpl in Hlen.
    by rewrite Hc in Hlen.
  - eexists. split; [reflexivity |]. by rewrite rfc_decode_encode.
Qed.

End slip.

(** ** A network that records the packets *)

Record tun_bench : Type := mkTun { tb_slip : SLIP; tb_sent : list (list Z) }.

#[export] Instance tun_bench_tun : tun tun_bench unit := {
  get_slip := tb_slip;
  set_slip s d := mkTun s (tb_sent d);
  tun_write bs d := (Ret (Z.of_nat (length bs)), mkTun (tb_slip d) (tb_sent d ++ [bs]));
  tun_realloc _ := mret true
}.

#[export] Instance tun_bench_host : tun_host tun_bench unit.
Proof.
  refine {| sent_packets := tb_sent |}; intros; try done; by eexists.
Defined.

Definition tun_start : tun_bench := mkTun SLIP_new [].

Lemma tun_start_state : slip_state [] [] tun_start.
Proof. split; [| done]. exists 1%nat. unfold sndsiz. simpl. unfold SLIP_SNDBUF_STEP. lia. Qed.

(** A packet of the three special characters, and one that is corrupted. *)
Lemma slip_packets_witness :
  (exists d', writes (slip_encode [SLIP_END; SLIP_ESC; 1] ++ [SLIP_END]) tun_start = (Ret tt, d') /\
     tb_sent d' = [[SLIP_END; SLIP_ESC; 1]]) /\
  exists d', writes (slip_encode [SLIP_ESC; SLIP_ESC_END] ++ [SLIP_END]) tun_start = (Ret tt, d') /\
     tb_sent d' = [[SLIP_END]].
Proof.
  split.
  - destruct (slip_packets [SLIP_END; SLIP_ESC; 1] [] tun_start ltac:(done) tun_start_state)
      as [(d' & Hw & (_ & _ & Hs) & _) _]. exists d'. split; [exact Hw |]. exact Hs.
  - destruct (slip_packets [SLIP_ESC; SLIP_ESC_END] [] tun_start ltac:(done) tun_start_state)
      as [(d' & Hw & (_ & _ & Hs) & _) _]. exists d'. split; [exact Hw |]. exact Hs.
Defined.
