(* ===== verification/Fu540.v ===== *)
(** * The platform level interrupt controller of the FU540

    Models platform/common/fu540_plic.h and fu540_plic.cpp, the controller of the
    Linux platform: every hart but the first has a context for machine mode and
    one for supervisor mode, with its own enable bits, priority threshold and
    claim register.  The registers of the contexts are lists in the order in which
    the constructor creates them. *)

From S2P Require Import Prelude Trap Memory MemoryMap IrqSearch.

Record FU540_PLIC : Type := mkFU540 {
  f_priorities : list Z;
  f_pending : list Z;
  f_enabled : list (list Z);
  f_context : list (list Z)
}.

Class fu540_interface (S E : Type) : Type := {
  fu540_harts : nat;
  get_fu540 : S -> FU540_PLIC;
  set_fu540 : FU540_PLIC -> S -> S;
  fu540_run_notify : Z -> M S E unit;
  fu540_trigger_external : nat -> PrivilegeLevel -> M S E unit;
  fu540_clear_external : nat -> PrivilegeLevel -> M S E unit
}.

Definition fu540_clock_cycle : Z := 10 * NS.
Definition NUMIRQ : nat := 53.
Definition MAX_THR : Z := 7.
Definition MAX_PRIO : Z := 7.
Definition ENABLE_BASE : Z := 0x2000.
Definition ENABLE_PER_HART : Z := 0x80.
Definition CONTEXT_BASE : Z := 0x200000.
Definition CONTEXT_PER_HART : Z := 0x1000.
Definition HART_REG_SIZE : Z := 8.

Definition GET_IDX (irq : Z) : Z := irq / 32.
Definition GET_OFF (irq : Z) : Z := uint32 (1 .<< (irq mod 32)).

Section FU540.
Context {S E : Type} `{fu540_interface S E}.

Abbreviation R := (M S E).

Definition f_with_priorities (m : list Z) (p : FU540_PLIC) : FU540_PLIC :=
  mkFU540 m (f_pending p) (f_enabled p) (f_context p).
Definition f_with_pending (m : list Z) (p : FU540_PLIC) : FU540_PLIC :=
  mkFU540 (f_priorities p) m (f_enabled p) (f_context p).
Definition f_with_enabled (m : list (list Z)) (p : FU540_PLIC) : FU540_PLIC :=
  mkFU540 (f_priorities p) (f_pending p) m (f_context p).
Definition f_with_context (m : list (list Z)) (p : FU540_PLIC) : FU540_PLIC :=
  mkFU540 (f_priorities p) (f_pending p) (f_enabled p) m.

Definition f_range (start size : Z) (get : FU540_PLIC -> list Z)
    (set : list Z -> FU540_PLIC -> FU540_PLIC) (pre_write : option (AccessInfo -> R bool))
    (post_write : option (AccessInfo -> R unit)) (pre_read : option (AccessInfo -> R bool)) :
    RegisterRange S E :=
  mkRegisterRange start (start + size - 1) (fun s => get (get_fu540 s))
    (fun m s => set_fu540 (set m (get_fu540 s)) s) false 4 pre_write post_write pre_read None.

(** The registers of the [k]-th context. *)
Definition enabled_of (k : nat) (p : FU540_PLIC) : list Z := nth k (f_enabled p) [].
Definition context_of (k : nat) (p : FU540_PLIC) : list Z := nth k (f_context p) [].
Definition with_enabled_of (k : nat) (m : list Z) (p : FU540_PLIC) : FU540_PLIC :=
  f_with_enabled (<[k := m]> (f_enabled p)) p.
Definition with_context_of (k : nat) (m : list Z) (p : FU540_PLIC) : FU540_PLIC :=
  f_with_context (<[k := m]> (f_context p)) p.

Definition f_priorities_view : RegisterRange S E :=
  f_range 0x4 (4 * Z.of_nat NUMIRQ) f_priorities f_with_priorities None None None.
Definition f_pending_view : RegisterRange S E :=
  f_range 0x1000 8 f_pending f_with_pending None None None.
Definition f_enabled_view (k : nat) (addr : Z) : RegisterRange S E :=
  f_range addr HART_REG_SIZE (enabled_of k) (with_enabled_of k) None None None.
Definition f_context_view (k : nat) (addr : Z) : RegisterRange S E :=
  f_range addr HART_REG_SIZE (context_of k) (with_context_of k) None None None.

(** HartConfig: the contexts of a hart, [m_mode] and [s_mode].  The first hart
    has one context, which is both. *)
Definition m_mode (hart : nat) : nat := match hart with O => 0 | Datatypes.S h => 2 * h + 1 end.
Definition s_mode (hart : nat) : nat := match hart with O => 0 | Datatypes.S h => 2 * h + 2 end.

(** The context a privilege level stands for; the other levels fail an assertion. *)
Definition context_index (hart : nat) (level : PrivilegeLevel) : R nat :=
  if level =? MachineMode then mret (m_mode hart)
  else if level =? SupervisorMode then mret (s_mode hart)
  else fatal AssertFailed.

(** ** Pending interrupts *)

Definition fu540_gateway_trigger_interrupt (irq : Z) : R unit :=
  if (irq =? 0) || (Z.of_nat NUMIRQ <? irq) then fatal InvalidArgument
  else
    v ← array_read uint32_t f_pending_view (GET_IDX irq);
    array_write uint32_t f_pending_view (GET_IDX irq) (v .| GET_OFF irq) ;;
    fu540_run_notify fu540_clock_cycle.

Definition f_clear_pending (irq : Z) : R unit :=
  assert ((0 <? irq) && (irq <=? Z.of_nat NUMIRQ)) ;;
  v ← array_read uint32_t f_pending_view (GET_IDX irq);
  array_write uint32_t f_pending_view (GET_IDX irq) (v .& uint32 (Z.lnot (GET_OFF irq))).

Definition f_is_pending (irq : Z) : R bool :=
  assert ((0 <? irq) && (irq <=? Z.of_nat NUMIRQ)) ;;
  v ← array_read uint32_t f_pending_view (GET_IDX irq);
  mret (nonzero (v .& GET_OFF irq)).

(** HartConfig::is_enabled, for the enable bits of a hart. *)
Definition f_is_enabled (hart : nat) (irq : Z) (level : PrivilegeLevel) : R bool :=
  assert ((0 <? irq) && (irq <=? Z.of_nat NUMIRQ)) ;;
  k ← context_index hart level;
  v ← array_read uint32_t (f_enabled_view k 0) (GET_IDX irq);
  mret (nonzero (v .& GET_OFF irq)).

Definition get_threshold (hart : nat) (level : PrivilegeLevel) : R Z :=
  if (hart =? 0)%nat && (level =? SupervisorMode) then fatal InvalidArgument
  else if (level =? MachineMode) || (level =? SupervisorMode) then
    k ← context_index hart level; array_read uint32_t (f_context_view k 0) 0
  else fatal InvalidArgument.

(** The loop of next_pending_irq over [n] interrupts from [irq]. *)
Fixpoint f_next_pending (hart : nat) (lvl : PrivilegeLevel) (ignth : bool) (irq n : nat)
    (selirq maxpri : Z) : R Z :=
  match n with
  | O => mret selirq
  | Datatypes.S n =>
      let continue := f_next_pending hart lvl ignth (Datatypes.S irq) n in
      enabled ← f_is_enabled hart (Z.of_nat irq) lvl;
      pending ← (if (enabled : bool) then f_is_pending (Z.of_nat irq) else mret false);
      if (pending : bool) then
        prio ← array_read uint32_t f_priorities_view (Z.of_nat irq);
        below ← (if ignth then mret false
                 else t ← get_threshold hart lvl; mret (prio <? t));
        if (below : bool) then continue selirq maxpri
        else if maxpri <? prio then continue (Z.of_nat irq) prio
        else continue selirq maxpri
      else continue selirq maxpri
  end.

Definition next_pending_irq (hart : nat) (lvl : PrivilegeLevel) (ignth : bool) : R Z :=
  assert (negb ((hart =? 0)%nat && (lvl =? SupervisorMode))) ;;
  f_next_pending hart lvl ignth 1 NUMIRQ 0 0.

(** The level at which a hart has an interrupt to take. *)
Definition has_pending_irq (hart : nat) : R (option PrivilegeLevel) :=
  s ← (if (hart =? 0)%nat then mret false
       else irq ← next_pending_irq hart SupervisorMode false; mret (0 <? irq));
  if (s : bool) then mret (Some SupervisorMode)
  else irq ← next_pending_irq hart MachineMode false;
       mret (if 0 <? irq then Some MachineMode else None).

(** ** The registers *)

Definition is_claim_access (addr : Z) : bool := uint32 (addr / 4) mod 2 =? 1.

Definition read_hartctx (hart : nat) (level : PrivilegeLevel) (t : AccessInfo) : R bool :=
  assert (info_addr t mod 4 =? 0) ;;
  assert (info_size t =? 4) ;;
  when (is_claim_access (info_addr t))
    (irq ← next_pending_irq hart level true;
     k ← context_index hart level;
     array_write uint32_t (f_context_view k 0) 1 irq ;;
     when (negb (irq =? 0)) (f_clear_pending irq)) ;;
  mret true.

Definition write_hartctx (hart : nat) (level : PrivilegeLevel) (t : AccessInfo) : R unit :=
  assert (info_addr t mod 4 =? 0) ;;
  assert (info_size t =? 4) ;;
  if is_claim_access (info_addr t) then fu540_clear_external hart level
  else
    k ← context_index hart level;
    thr ← array_read uint32_t (f_context_view k 0) 0;
    array_write uint32_t (f_context_view k 0) 0 (Z.min thr MAX_THR).

Definition write_irq_prios (t : AccessInfo) : R unit :=
  let idx := info_addr t / 4 in
  assert (idx <=? Z.of_nat NUMIRQ) ;;
  elem ← array_read uint32_t f_priorities_view idx;
  array_write uint32_t f_priorities_view idx (Z.min elem MAX_PRIO).

(** create_hart_regs: the loop over the harts, with the address and the number of
    contexts so far. *)
Fixpoint create_hart_regs (add_reg : nat -> PrivilegeLevel -> nat -> Z -> RegisterRange S E)
    (i n k : nat) (addr inc : Z) : list (RegisterRange S E) :=
  match n with
  | O => []
  | Datatypes.S n =>
      let mreg := add_reg i MachineMode k addr in
      if (i =? 0)%nat then
        mreg :: create_hart_regs add_reg (Datatypes.S i) n (k + 1) (addr + inc) inc
      else
        let addr := addr + inc in
        mreg :: add_reg i SupervisorMode (k + 1)%nat addr
             :: create_hart_regs add_reg (Datatypes.S i) n (k + 2) (addr + inc) inc
  end.

Definition enable_reg (_ : nat) (_ : PrivilegeLevel) (k : nat) (addr : Z) : RegisterRange S E :=
  f_enabled_view k addr.
Definition context_reg (h : nat) (l : PrivilegeLevel) (k : nat) (addr : Z) : RegisterRange S E :=
  f_range addr HART_REG_SIZE (context_of k) (with_context_of k) None
    (Some (write_hartctx h l)) (Some (read_hartctx h l)).

Definition f_regs_interrupt_priorities : RegisterRange S E :=
  f_range 0x4 (4 * Z.of_nat NUMIRQ) f_priorities f_with_priorities None (Some write_irq_prios) None.
Definition f_regs_pending_interrupts : RegisterRange S E :=
  f_range 0x1000 8 f_pending f_with_pending (Some (fun _ => mret false)) None None.

Definition fu540_register_ranges : list (RegisterRange S E) :=
  f_regs_interrupt_priorities :: f_regs_pending_interrupts ::
  create_hart_regs enable_reg 0 fu540_harts 0 ENABLE_BASE ENABLE_PER_HART ++
  create_hart_regs context_reg 0 fu540_harts 0 CONTEXT_BASE CONTEXT_PER_HART.

Definition fu540_transport : transport_fn S E := fun trans delay =>
  let delay := delay + 4 * fu540_clock_cycle in
  trans ← route fu540_register_ranges trans delay; mret (trans, delay).

(** ** The thread *)

Fixpoint raise_levels (i n : nat) : R unit :=
  match n with
  | O => skip
  | Datatypes.S n =>
      l ← has_pending_irq i;
      match l with Some lvl => fu540_trigger_external i lvl | None => skip end ;;
      raise_levels (Datatypes.S i) n
  end.

(** The body of the loop of [run], after the wait for the event. *)
Definition fu540_run : R unit := raise_levels 0 fu540_harts.

End FU540.

(** The constructor: all registers are zero. *)
Definition FU540_PLIC_new (harts : nat) : FU540_PLIC :=
  let contexts := replicate (2 * harts - 1) (replicate 8 0) in
  mkFU540 (replicate (4 * NUMIRQ) 0) (replicate 8 0) contexts contexts.

(** ** The environment *)

(** What the theorems use of the kernel and the harts: a call changes nothing of
    the controller, and of the lines only the one it names. *)
Class fu540_system (S E : Type) `{fu540_interface S E} : Type := {
  fu540_line : S -> nat -> PrivilegeLevel -> bool;
  set_fu540_ok p s : get_fu540 (set_fu540 p s) = p /\ fu540_line (set_fu540 p s) = fu540_line s
}.

Section fu540.
Context {S E : Type} `{Hsys : fu540_system S E}.
#[local] Set Default Proof Using "Type Hsys".

(** The priority of interrupt [i] as the manual and the guest know it: the word at
    the address [4 * i] of the controller (the lemma [priority_read_spec]). *)
Definition f_guest_priority (s : S) (i : nat) : Z := elem uint32_t (Z.of_nat i - 1) (f_priorities (get_fu540 s)).

(** The word that next_pending_irq compares for interrupt [i], [interrupt_priorities[irq]]:
    the view starts at the address 4, so this is the priority of interrupt [i + 1]. *)
Definition f_used_priority (s : S) (i : nat) : Z := elem uint32_t (Z.of_nat i) (f_priorities (get_fu540 s)).
Lemma f_used_next s i : f_used_priority s i = f_guest_priority s (i + 1).
Proof using Type. unfold f_used_priority, f_guest_priority. f_equal. lia. Qed.

(** The fields of the registers; [k] is the number of a context. *)
Definition f_waits (s : S) (i : nat) : bool := source_bit (f_pending (get_fu540 s)) i.
Definition f_accepts (s : S) (k i : nat) : bool := source_bit (enabled_of k (get_fu540 s)) i.
Definition f_threshold (s : S) (k : nat) : Z := elem uint32_t 0 (context_of k (get_fu540 s)).

Definition f_candidate (s : S) (k : nat) (ignth : bool) (i : nat) : bool :=
  f_accepts s k i && f_waits s i && (0 <? f_used_priority s i) && (ignth || (f_threshold s k <=? f_used_priority s i)).

(** The context of a hart at a level. *)
Definition hart_context (h : nat) (l : PrivilegeLevel) : nat :=
  if l =? MachineMode then m_mode h else s_mode h.
Definition has_context (h : nat) (l : PrivilegeLevel) : Prop :=
  (h < fu540_harts)%nat /\ (l = MachineMode \/ l = SupervisorMode /\ h <> 0%nat).

(** The last interrupt, whose priority register does not exist. *)
Definition last_blocks (s : S) (k : nat) : bool := f_accepts s k NUMIRQ && f_waits s NUMIRQ.

Record fu540_ok (s : S) : Prop := {
  fu540_few : Z.of_nat fu540_harts <= 1024;
  fu540_priorities : length (f_priorities (get_fu540 s)) = (4 * NUMIRQ)%nat;
  fu540_pending : length (f_pending (get_fu540 s)) = 8%nat;
  fu540_contexts : length (f_enabled (get_fu540 s)) = (2 * fu540_harts - 1)%nat /\
    length (f_context (get_fu540 s)) = (2 * fu540_harts - 1)%nat;
  fu540_bytes : Forall (fun m => length m = 8%nat) (f_enabled (get_fu540 s)) /\
    Forall (fun m => length m = 8%nat) (f_context (get_fu540 s))
}.

Lemma hart_context_lt h l : has_context h l -> (hart_context h l < 2 * fu540_harts - 1)%nat.
Proof.
  intros [Hh [->|[-> H0]]]; unfold hart_context.
  - change (MachineMode =? MachineMode) with true. destruct h; cbn [m_mode]; lia.
  - change (SupervisorMode =? MachineMode) with false. destruct h; [done |]. cbn [s_mode]. lia.
Qed.

Lemma nth_length_8 (ms : list (list Z)) k : (k < length ms)%nat -> Forall (fun m => length m = 8%nat) ms ->
  length (nth k ms []) = 8%nat.
Proof. intros Hk Hm. rewrite Forall_forall in Hm. apply Hm, list_elem_of_In, nth_In, Hk. Qed.

Lemma enabled_of_length s k : fu540_ok s -> (k < 2 * fu540_harts - 1)%nat ->
  length (enabled_of k (get_fu540 s)) = 8%nat.
Proof. intros Hok Hk. apply nth_length_8; [rewrite (proj1 (fu540_contexts _ Hok)); lia | apply (fu540_bytes _ Hok)]. Qed.

Lemma context_of_length s k : fu540_ok s -> (k < 2 * fu540_harts - 1)%nat ->
  length (context_of k (get_fu540 s)) = 8%nat.
Proof. intros Hok Hk. apply nth_length_8; [rewrite (proj2 (fu540_contexts _ Hok)); lia | apply (fu540_bytes _ Hok)]. Qed.

Lemma GET_OFF_mask i : GET_OFF (Z.of_nat i) = source_mask i.
Proof. unfold GET_OFF, uint32. apply uint_id, source_mask_range. Qed.

(** ** Reads of the registers *)

Lemma irq_index i : (i <= NUMIRQ)%nat -> 0 <= Z.of_nat i / 32 < 2.
Proof. intros Hi. change 2 with (Z.of_nat 2). apply word_index. unfold NUMIRQ in Hi. lia. Qed.

Lemma pending_index s i : fu540_ok s -> (i <= NUMIRQ)%nat ->
  0 <= Z.of_nat i / 32 < view_size uint32_t (f_pending (get_fu540 s)).
Proof. intros Hok Hi. rewrite (view_size_words _ 2) by apply (fu540_pending _ Hok). by apply irq_index. Qed.

Lemma is_pending_eq s i : fu540_ok s -> (0 < i <= NUMIRQ)%nat ->
  f_is_pending (Z.of_nat i) s = (Ret (f_waits s i), s).
Proof.
  intros Hok Hi. unfold f_is_pending. unfold mbind at 1, M_bind at 1.
  assert ((0 <? Z.of_nat i) && (Z.of_nat i <=? Z.of_nat NUMIRQ) = true) as -> by lia.
  cbn [assert skip mret M_ret]. unfold mbind at 1, M_bind at 1.
  rewrite array_read_eq by (apply pending_index; (done || lia)).
  rewrite GET_OFF_mask. unfold source_mask. rewrite bit_test by (apply Z.mod_pos_bound; lia). done.
Qed.

Lemma context_index_eq h l s : has_context h l ->
  context_index (S := S) (E := E) h l s = (Ret (hart_context h l), s).
Proof. intros [_ [->|[-> _]]]; done. Qed.

Lemma is_enabled_eq s h l i : fu540_ok s -> has_context h l -> (0 < i <= NUMIRQ)%nat ->
  f_is_enabled h (Z.of_nat i) l s = (Ret (f_accepts s (hart_context h l) i), s).
Proof.
  intros Hok Hc Hi. unfold f_is_enabled. unfold mbind at 1, M_bind at 1.
  assert ((0 <? Z.of_nat i) && (Z.of_nat i <=? Z.of_nat NUMIRQ) = true) as -> by lia.
  cbn [assert skip mret M_ret]. unfold mbind at 1, M_bind at 1. rewrite context_index_eq by done.
  unfold mbind at 1, M_bind at 1. rewrite array_read_eq.
  2: { cbn [rr_mem f_enabled_view f_range].
       rewrite (view_size_words _ 2) by (apply enabled_of_length; [done | by apply hart_context_lt]).
       apply irq_index. lia. }
  rewrite GET_OFF_mask. unfold source_mask. rewrite bit_test by (apply Z.mod_pos_bound; lia). done.
Qed.

Lemma get_threshold_eq s h l : fu540_ok s -> has_context h l ->
  get_threshold h l s = (Ret (f_threshold s (hart_context h l)), s).
Proof.
  intros Hok Hc. unfold get_threshold.
  assert ((h =? 0)%nat && (l =? SupervisorMode) = false) as ->.
  { destruct Hc as [_ [->|[-> H0]]]; [by rewrite andb_false_r |]. destruct h; done. }
  assert ((l =? MachineMode) || (l =? SupervisorMode) = true) as -> by (by destruct Hc as [_ [->|[-> _]]]).
  unfold mbind at 1, M_bind at 1. rewrite context_index_eq by done. rewrite array_read_eq; [done |].
  cbn [rr_mem f_context_view f_range].
  rewrite (view_size_words _ 2) by (apply context_of_length; [done | by apply hart_context_lt]). lia.
Qed.

(** ** The search *)

Lemma f_next_pending_eq s h l ignth n : fu540_ok s -> has_context h l ->
  let k := hart_context h l in
  forall i id mx, (0 < i)%nat -> (i + n)%nat = Datatypes.S NUMIRQ -> 0 <= mx ->
  f_next_pending h l ignth i n id mx s
  = (if last_blocks s k && (0 <? n)%nat then Fatal AssertFailed
     else Ret (best (f_candidate s k ignth) (f_used_priority s) i n id mx), s).
Proof.
  intros Hok Hc k. induction n as [|n IH]; intros i id mx Hi Hn Hmx; cbn [f_next_pending best].
  { by rewrite andb_false_r. }
  change (0 <? Datatypes.S n)%nat with true. rewrite andb_true_r.
  unfold mbind at 1, M_bind at 1. rewrite is_enabled_eq by (done || lia). fold k.
  assert (Hcont : forall id' mx', 0 <= mx' ->
    (i = NUMIRQ -> last_blocks s k = false) ->
    f_next_pending h l ignth (Datatypes.S i) n id' mx' s
    = (if last_blocks s k then Fatal AssertFailed
       else Ret (best (f_candidate s k ignth) (f_used_priority s) (Datatypes.S i) n id' mx'), s)).
  { intros id' mx' Hmx' Hlast. rewrite IH by lia. destruct n as [|n]; [| by rewrite andb_true_r].
    rewrite Hlast by lia. done. }
  clear IH. unfold mbind at 1, M_bind at 1.
  assert (Hcand : f_candidate s k ignth i = f_accepts s k i && f_waits s i && (0 <? f_used_priority s i)
                  && (ignth || (f_threshold s k <=? f_used_priority s i))) by done.
  destruct (f_accepts s k i) eqn:Hen.
  2: { rewrite Hcand. cbn [mret M_ret andb]. apply Hcont; [done |]. intros ->. unfold last_blocks. by rewrite Hen. }
  rewrite is_pending_eq by (done || lia). destruct (f_waits s i) eqn:Hp.
  2: { rewrite Hcand. cbn [andb]. apply Hcont; [done |]. intros ->. unfold last_blocks. by rewrite Hp, andb_false_r. }
  unfold mbind at 1, M_bind at 1. pose proof (fu540_priorities _ Hok) as Hl.
  destruct (decide (i = NUMIRQ)) as [->|Hne].
  { rewrite array_read_out.
    2: { change (rr_mem f_priorities_view s) with (f_priorities (get_fu540 s)).
         by rewrite (view_size_words _ NUMIRQ) by exact Hl. }
    unfold last_blocks. by rewrite Hen, Hp. }
  rewrite array_read_eq.
  2: { change (rr_mem f_priorities_view s) with (f_priorities (get_fu540 s)).
       rewrite (view_size_words _ NUMIRQ) by exact Hl. lia. }
  change (elem _ _ _) with (f_used_priority s i).
  pose proof (elem_range uint32_t (Z.of_nat i) (f_priorities (get_fu540 s))) as Hpr.
  change (is_uint 32 (f_used_priority s i)) in Hpr. unfold is_uint in Hpr.
  unfold mbind at 1, M_bind at 1. rewrite Hcand. cbn [andb].
  destruct ignth; cbn [orb mret M_ret].
  - rewrite andb_true_r. destruct (mx <? f_used_priority s i) eqn:Hm.
    + assert ((0 <? f_used_priority s i) = true) as -> by lia. cbn [andb]. apply Hcont; [lia | by intros ?].
    + rewrite andb_false_r. apply Hcont; [done | by intros ?].
  - unfold mbind at 1, M_bind at 1. rewrite get_threshold_eq by done. fold k. cbn [mret M_ret].
    destruct (f_used_priority s i <? f_threshold s k) eqn:Hth.
    + assert ((f_threshold s k <=? f_used_priority s i) = false) as -> by lia.
      rewrite andb_false_r. cbn [andb]. apply Hcont; [done | by intros ?].
    + assert ((f_threshold s k <=? f_used_priority s i) = true) as -> by lia. rewrite andb_true_r.
      destruct (mx <? f_used_priority s i) eqn:Hm.
      * assert ((0 <? f_used_priority s i) = true) as -> by lia. cbn [andb]. apply Hcont; [lia | by intros ?].
      * rewrite andb_false_r. apply Hcont; [done | by intros ?].
Qed.

Lemma next_pending_irq_best s h l ignth : fu540_ok s -> has_context h l ->
  let k := hart_context h l in
  next_pending_irq h l ignth s
  = (if last_blocks s k then Fatal AssertFailed
     else Ret (best (f_candidate s k ignth) (f_used_priority s) 1 NUMIRQ 0 0), s).
Proof.
  intros Hok Hc k. unfold next_pending_irq. unfold mbind at 1, M_bind at 1.
  assert (negb ((h =? 0)%nat && (l =? SupervisorMode)) = true) as ->.
  { destruct Hc as [_ [->|[-> H0]]]; [by rewrite andb_false_r |]. destruct h; done. }
  cbn [assert skip mret M_ret]. rewrite f_next_pending_eq by (done || lia). fold k.
  change (0 <? NUMIRQ)%nat with true. by rewrite andb_true_r.
Qed.

(** The search fails if the last interrupt waits, and otherwise finds the most
    urgent one. *)
Lemma next_pending_irq_eq s h l ignth : fu540_ok s -> has_context h l ->
  let k := hart_context h l in
  (last_blocks s k = true -> next_pending_irq h l ignth s = (Fatal AssertFailed, s)) /\
  (last_blocks s k = false -> exists r, next_pending_irq h l ignth s = (Ret (Z.of_nat r), s) /\
     (r < NUMIRQ)%nat /\ most_urgent (f_candidate s k ignth) (f_used_priority s) (Datatypes.S NUMIRQ) r).
Proof.
  intros Hok Hc k. rewrite next_pending_irq_best by done. fold k.
  split; intros Hlast; rewrite Hlast; [done |].
  destruct (best_most_urgent (f_candidate s k ignth) (f_used_priority s) (Datatypes.S NUMIRQ)) as (r & Hr & Hmu).
  - lia.
  - intros i Hi. unfold f_candidate in Hi. lia.
  - change (Datatypes.S NUMIRQ - 1)%nat with NUMIRQ in Hr. rewrite Hr.
    exists r. split; [done |]. split; [| done]. pose proof (most_urgent_lt _ _ _ _ (Nat.lt_0_succ _) Hmu).
    destruct (decide (r = NUMIRQ)) as [->|]; [| lia].
    destruct (most_urgent_some _ _ _ _ Hmu ltac:(done)) as [_ Hcand].
    unfold f_candidate in Hcand. unfold last_blocks in Hlast. by rewrite Hlast in Hcand.
Qed.

(** ** The layout of the registers *)

(** The contexts of [n] harts from hart [i], in the order of their numbers. *)
Fixpoint contexts_from (i n : nat) : list (nat * PrivilegeLevel) :=
  match n with
  | O => []
  | Datatypes.S n =>
      if (i =? 0)%nat then (i, MachineMode) :: contexts_from (Datatypes.S i) n
      else (i, MachineMode) :: (i, SupervisorMode) :: contexts_from (Datatypes.S i) n
  end.

Lemma create_hart_regs_lookup add_reg inc n : forall i k addr j,
  create_hart_regs (S := S) (E := E) add_reg i n k addr inc !! j
  = (fun c => add_reg c.1 c.2 (k + j)%nat (addr + Z.of_nat j * inc)) <$> contexts_from i n !! j.
Proof using Type.
  induction n as [|n IH]; intros i k addr j; cbn [create_hart_regs contexts_from]; [done |].
  destruct (i =? 0)%nat; destruct j as [|j]; cbn [lookup list_lookup fmap option_fmap option_map fst snd].
  - by rewrite Nat.add_0_r, Z.add_0_r.
  - rewrite IH. destruct (contexts_from _ n !! j); [| done]. cbn [fmap option_fmap option_map].
    do 2 f_equal; lia.
  - by rewrite Nat.add_0_r, Z.add_0_r.
  - destruct j as [|j]; cbn [lookup list_lookup fmap option_fmap option_map fst snd]; [do 2 f_equal; lia |].
    rewrite IH. destruct (contexts_from _ n !! j); [| done]. cbn [fmap option_fmap option_map].
    do 2 f_equal; lia.
Qed.

Lemma contexts_lookup h l n : l = MachineMode \/ l = SupervisorMode /\ h <> 0%nat ->
  forall i, (i <= h < i + n)%nat -> exists j,
    hart_context h l = (m_mode i + j)%nat /\ contexts_from i n !! j = Some (h, l).
Proof using Type.
  intros Hl. induction n as [|n IH]; intros i Hi; [lia |]. cbn [contexts_from].
  destruct (decide (h = i)) as [->|Hne].
  - destruct Hl as [->|[-> H0]].
    + exists 0%nat. split; [unfold hart_context; change (MachineMode =? MachineMode) with true; lia |].
      by destruct (i =? 0)%nat.
    + exists 1%nat. unfold hart_context. change (SupervisorMode =? MachineMode) with false.
      destruct i; [done |]. split; [cbn [m_mode s_mode]; lia | done].
  - destruct (IH (Datatypes.S i) ltac:(lia)) as (j & Hj & Hlk).
    destruct i; [exists (Datatypes.S j) | exists (Datatypes.S (Datatypes.S j))];
      (split; [rewrite Hj; cbn [m_mode]; lia | exact Hlk]).
Qed.

Lemma contexts_length n : forall i, (length (contexts_from (Datatypes.S i) n) = 2 * n)%nat.
Proof using Type. induction n as [|n IH]; intros i; cbn [contexts_from length Nat.eqb]; [done |]. rewrite IH. lia. Qed.

Lemma contexts_length_0 n : (length (contexts_from 0 n) = 2 * n - 1)%nat.
Proof using Type. destruct n; cbn [contexts_from length Nat.eqb]; [done |]. rewrite contexts_length. lia. Qed.

(** The ranges of the harts: the one of a context is where its number says. *)
Lemma hart_regs_split add_reg base inc h l : has_context h l ->
  let regs := create_hart_regs (S := S) (E := E) add_reg 0 fu540_harts 0 base inc in
  let c := hart_context h l in
  exists pre post, regs = pre ++ add_reg h l c (base + Z.of_nat c * inc) :: post /\
    Forall (fun r => exists h' l' c', (c' < c)%nat /\ r = add_reg h' l' c' (base + Z.of_nat c' * inc)) pre.
Proof using Type.
  intros [Hh Hl] regs c. destruct (contexts_lookup h l fu540_harts Hl 0 ltac:(lia)) as (j & Hj & Hlk).
  cbn [m_mode Nat.add] in Hj. subst c. rewrite Hj.
  assert (Hr : regs !! j = Some (add_reg h l j (base + Z.of_nat j * inc))).
  { unfold regs. by rewrite create_hart_regs_lookup, Hlk. }
  exists (take j regs), (drop (Datatypes.S j) regs). split; [by rewrite take_drop_middle |].
  rewrite Forall_lookup. intros m r Hm. apply lookup_take_Some in Hm as [Hm Hlt].
  unfold regs in Hm. rewrite create_hart_regs_lookup in Hm.
  destruct (contexts_from 0 fu540_harts !! m) as [[h' l']|]; [| done].
  cbn [fmap option_fmap option_map fst snd] in Hm. exists h', l', m. split; [done |]. by injection Hm as <-.
Qed.

Lemma hart_regs_all add_reg base inc :
  Forall (fun r => exists h' l' c', (c' < 2 * fu540_harts - 1)%nat /\
                     r = add_reg h' l' c' (base + Z.of_nat c' * inc))
    (create_hart_regs (S := S) (E := E) add_reg 0 fu540_harts 0 base inc).
Proof using Type.
  rewrite Forall_lookup. intros m r Hm. rewrite create_hart_regs_lookup in Hm.
  destruct (contexts_from 0 fu540_harts !! m) as [[h' l']|] eqn:Hlk; [| done].
  cbn [fmap option_fmap option_map fst snd] in Hm. exists h', l', m. split; [| by injection Hm as <-].
  rewrite <- contexts_length_0. by apply lookup_lt_Some in Hlk.
Qed.

#[local] Ltac layout :=
  cbn [rr_start rr_end context_reg enable_reg f_enabled_view f_range f_regs_interrupt_priorities
    f_regs_pending_interrupts];
  unfold CONTEXT_BASE, CONTEXT_PER_HART, ENABLE_BASE, ENABLE_PER_HART, HART_REG_SIZE in *;
  change (Z.of_nat NUMIRQ) with 53; lia.

(** An access to a register of a context reaches its range. *)
Lemma route_context h l off trans delay s : fu540_ok s -> has_context h l -> 0 <= off < 8 ->
  address trans = CONTEXT_BASE + Z.of_nat (hart_context h l) * CONTEXT_PER_HART + off ->
  route fu540_register_ranges trans delay s
  = range_process (context_reg h l (hart_context h l)
      (CONTEXT_BASE + Z.of_nat (hart_context h l) * CONTEXT_PER_HART)) trans delay s.
Proof.
  intros Hok Hc Hoff Ha. pose proof (hart_context_lt _ _ Hc) as Hlt. pose proof (fu540_few _ Hok) as Hfew.
  destruct (hart_regs_split context_reg CONTEXT_BASE CONTEXT_PER_HART h l Hc) as (pre & post & Hsplit & Hpre).
  rewrite (route_first _ (f_regs_interrupt_priorities :: f_regs_pending_interrupts ::
    create_hart_regs enable_reg 0 fu540_harts 0 ENABLE_BASE ENABLE_PER_HART ++ pre)
    (context_reg h l (hart_context h l) (CONTEXT_BASE + Z.of_nat (hart_context h l) * CONTEXT_PER_HART)) post).
  - done.
  - unfold fu540_register_ranges. rewrite Hsplit. by rewrite <- !app_comm_cons, app_assoc.
  - unfold range_match, range_contains. rewrite Ha. layout.
  - apply Forall_cons; split; [| apply Forall_cons; split; [| apply Forall_app; split]].
    + unfold range_match, range_contains. rewrite Ha. layout.
    + unfold range_match, range_contains. rewrite Ha. layout.
    + eapply Forall_impl; [apply hart_regs_all |]. intros r (h' & l' & c' & Hc' & ->).
      unfold range_match, range_contains. rewrite Ha. layout.
    + eapply Forall_impl; [exact Hpre |]. intros r (h' & l' & c' & Hc' & ->).
      unfold range_match, range_contains. rewrite Ha. layout.
Qed.

(** ** Claims *)

(** What the registers hold apart from the pending bits and the claim registers. *)
Definition f_rest (s s' : S) : Prop :=
  (forall i, f_used_priority s' i = f_used_priority s i) /\ (forall k i, f_accepts s' k i = f_accepts s k i) /\
  (forall k, f_threshold s' k = f_threshold s k) /\ fu540_line s' = fu540_line s.

Lemma f_rest_trans s1 s2 s3 : f_rest s1 s2 -> f_rest s2 s3 -> f_rest s1 s3.
Proof.
  intros (H1 & H2 & H3 & H4) (K1 & K2 & K3 & K4).
  repeat split; intros; by rewrite ?K1, ?K2, ?K3, ?K4.
Qed.

Definition set_claim (k : nat) (v : Z) (s : S) : S :=
  let p := get_fu540 s in
  set_fu540 (with_context_of k (set_elem uint32_t 1 v (context_of k p)) p) s.

Lemma context_of_insert k k' m p : (k < length (f_context p))%nat ->
  context_of k' (with_context_of k m p) = if decide (k' = k) then m else context_of k' p.
Proof.
  intros Hk. unfold context_of, with_context_of. cbn [f_context f_with_context].
  rewrite !nth_lookup. case_decide as Hd; [subst; by rewrite list_lookup_insert_eq |].
  by rewrite list_lookup_insert_ne.
Qed.

Lemma set_claim_spec s k v : fu540_ok s -> (k < 2 * fu540_harts - 1)%nat ->
  let s' := set_claim k v s in
  fu540_ok s' /\ f_rest s s' /\ (forall i, f_waits s' i = f_waits s i) /\
  context_of k (get_fu540 s') = set_elem uint32_t 1 v (context_of k (get_fu540 s)).
Proof.
  intros Hok Hk s'. unfold s', set_claim.
  set (p := with_context_of k (set_elem uint32_t 1 v (context_of k (get_fu540 s))) (get_fu540 s)).
  destruct (set_fu540_ok p s) as (Hg & Hl). pose proof (context_of_length s k Hok Hk) as Hlen.
  assert (Hc : forall k', context_of k' p = if decide (k' = k) then
    set_elem uint32_t 1 v (context_of k (get_fu540 s)) else context_of k' (get_fu540 s)).
  { intros k'. apply context_of_insert. rewrite (proj2 (fu540_contexts _ Hok)). lia. }
  split; [| split; [| split]].
  - destruct Hok as [? ? ? [? ?] [? Hb]]. constructor; rewrite ?Hg; [done | done | done | |].
    + unfold p. cbn [f_context f_enabled f_with_context with_context_of]. by rewrite length_insert.
    + split; [done |]. unfold p. cbn [f_context f_enabled f_with_context with_context_of]. apply Forall_insert; [done |]. cbv beta. by rewrite length_set_elem.
  - unfold f_rest, f_used_priority, f_accepts, f_threshold. rewrite Hg, Hl. repeat split; try done.
    intros k'. rewrite Hc. case_decide; [subst | done]. by rewrite elem_set_other by done.
  - intros i. unfold f_waits. by rewrite Hg.
  - rewrite Hg, Hc. by rewrite decide_True.
Qed.

Lemma clear_pending_spec s r : fu540_ok s -> (0 < r <= NUMIRQ)%nat ->
  exists s', f_clear_pending (Z.of_nat r) s = (Ret tt, s') /\ fu540_ok s' /\ f_rest s s' /\
    (forall i, f_waits s' i = f_waits s i && negb (Nat.eqb i r)) /\
    f_context (get_fu540 s') = f_context (get_fu540 s).
Proof.
  intros Hok Hr. pose proof (pending_index s r Hok ltac:(lia)) as Hi.
  set (p := f_with_pending (clear_source r (f_pending (get_fu540 s))) (get_fu540 s)).
  destruct (set_fu540_ok p s) as (Hg & Hl).
  exists (set_fu540 p s). split; [| split; [| split; [| split]]].
  - unfold f_clear_pending. unfold mbind at 1, M_bind at 1.
    assert ((0 <? Z.of_nat r) && (Z.of_nat r <=? Z.of_nat NUMIRQ) = true) as -> by lia.
    cbn [assert skip mret M_ret]. unfold mbind at 1, M_bind at 1.
    rewrite array_read_eq by exact Hi. rewrite array_write_eq by exact Hi. by rewrite GET_OFF_mask.
  - destruct Hok as [? ? ? [? ?] [? ?]]. constructor; rewrite ?Hg; try done.
    unfold p. cbn [f_pending f_with_pending]. unfold clear_source. by rewrite length_set_elem.
  - unfold f_rest, f_used_priority, f_accepts, f_threshold. by rewrite Hg, Hl.
  - intros i. unfold f_waits. rewrite Hg. by apply clear_source_spec.
  - by rewrite Hg.
Qed.

Definition claim_register (k : nat) : Z := CONTEXT_BASE + Z.of_nat k * CONTEXT_PER_HART + 4.
Definition fu540_claim_read (k : nat) : tlm_generic_payload :=
  mkPayload TLM_READ_COMMAND (claim_register k) (replicate 4 0) TLM_OK_RESPONSE.

Lemma claim_range_access s h l : fu540_ok s -> has_context h l ->
  let k := hart_context h l in
  range_access s (context_reg h l k (CONTEXT_BASE + Z.of_nat k * CONTEXT_PER_HART)) (fu540_claim_read k).
Proof.
  intros Hok Hc k. pose proof (hart_context_lt _ _ Hc) as Hk. pose proof (fu540_few _ Hok) as Hfew.
  fold k in Hk. constructor; cbn [fu540_claim_read address]; unfold claim_register.
  - constructor.
    + intros m. cbn [rr_mem rr_set_mem context_reg f_range]. rewrite (proj1 (set_fu540_ok _ _)).
      rewrite context_of_insert, decide_True; [done | done |]. rewrite (proj2 (fu540_contexts _ Hok)). lia.
    + layout.
    + unfold rr_size. cbn [rr_mem context_reg f_range]. rewrite context_of_length by done. layout.
  - unfold range_contains. layout.
  - cbn [rr_alignment context_reg f_range]. unfold CONTEXT_BASE, CONTEXT_PER_HART.
    replace (0x200000 + Z.of_nat k * 0x1000 + 4) with ((0x80001 + Z.of_nat k * 0x400) * 4) by lia.
    by apply Z.mod_mul.
  - done.
  - change (data_length _) with 4. layout.
  - change (data_length _) with 4. layout.
Qed.

(** The range of a context, and its callback for a claim. *)
Definition context_range (h : nat) (l : PrivilegeLevel) : RegisterRange S E :=
  context_reg h l (hart_context h l) (CONTEXT_BASE + Z.of_nat (hart_context h l) * CONTEXT_PER_HART).

Lemma claim_offset h l : address (fu540_claim_read (hart_context h l)) - rr_start (context_range h l) = 4.
Proof using Type. unfold context_range, fu540_claim_read, claim_register. cbn [address]. layout. Qed.

Lemma read_hartctx_claim h l delay s : has_context h l ->
  read_hartctx h l (access_info (context_range h l) (fu540_claim_read (hart_context h l)) delay) s
  = (irq ← next_pending_irq h l true;
     array_write uint32_t (f_context_view (hart_context h l) 0) 1 irq ;;
     when (negb (irq =? 0)) (f_clear_pending irq) ;; mret true) s.
Proof.
  intros Hc. unfold read_hartctx, access_info. cbn [info_addr info_size]. rewrite claim_offset.
  change (4 mod 4 =? 0) with true. change (data_length _ =? 4) with true.
  change (is_claim_access 4) with true. cbn [assert when].
  unfold mbind, M_bind. cbn [skip mret M_ret].
  destruct (next_pending_irq h l true s) as [[irq|e|f] s1]; [| done | done].
  rewrite context_index_eq by done. destruct (array_write _ _ _ _ s1) as [[[]|e|f] s2]; done.
Qed.

Lemma read_hartctx_eq s h l delay r : fu540_ok s -> has_context h l -> (r < NUMIRQ)%nat ->
  let k := hart_context h l in
  next_pending_irq h l true s = (Ret (Z.of_nat r), s) ->
  exists s', read_hartctx h l (access_info (context_range h l) (fu540_claim_read k) delay) s = (Ret true, s') /\
    fu540_ok s' /\ f_rest s s' /\
    (forall i, (0 < i)%nat -> f_waits s' i = f_waits s i && negb (Nat.eqb i r)) /\
    context_of k (get_fu540 s') = set_elem uint32_t 1 (Z.of_nat r) (context_of k (get_fu540 s)).
Proof.
  intros Hok Hc Hr k Hnext. pose proof (hart_context_lt _ _ Hc) as Hk. fold k in Hk.
  destruct (set_claim_spec s k (Z.of_nat r) Hok Hk) as (Hok1 & Hrest1 & Hw1 & Hctx1).
  set (s1 := set_claim k (Z.of_nat r) s) in *.
  assert (Hacc : exists s', (when (negb (Z.of_nat r =? 0)) (f_clear_pending (Z.of_nat r))) s1 = (Ret tt, s') /\
    fu540_ok s' /\ f_rest s1 s' /\ (forall i, (0 < i)%nat -> f_waits s' i = f_waits s1 i && negb (Nat.eqb i r)) /\
    f_context (get_fu540 s') = f_context (get_fu540 s1)).
  { destruct r as [|r].
    - exists s1. split; [done |]. split; [done |]. split; [done |]. split; [| done].
      intros i Hi. assert (Nat.eqb i 0 = false) as -> by (by apply Nat.eqb_neq; lia). by rewrite andb_true_r.
    - destruct (clear_pending_spec s1 (Datatypes.S r) Hok1 ltac:(lia)) as (s2 & Hs2 & Hok2 & Hr2 & Hw2 & Hc2).
      exists s2. split; [exact Hs2 |]. split; [done |]. split; [done |]. split; [| done].
      intros i _. apply Hw2. }
  destruct Hacc as (s2 & Hs2 & Hok2 & Hrest2 & Hw2 & Hctx2). exists s2. split.
  { unfold k. rewrite read_hartctx_claim by done. fold k. unfold mbind at 1, M_bind at 1. rewrite Hnext.
    unfold mbind at 1, M_bind at 1. rewrite array_write_eq.
    2: { cbn [rr_mem f_context_view f_range]. rewrite (view_size_words _ 2) by (by apply context_of_length). lia. }
    change (rr_set_mem (f_context_view k 0) _ s) with s1. unfold mbind, M_bind. by rewrite Hs2. }
  split; [done |]. split; [by eapply f_rest_trans |]. split; [intros i Hi; by rewrite Hw2, Hw1 |].
  unfold context_of in *. by rewrite Hctx2.
Qed.

(** What a claim reads from the range after the callback has stored [v]. *)
Lemma claim_bytes s s' h l v : fu540_ok s -> has_context h l ->
  let k := hart_context h l in
  context_of k (get_fu540 s') = set_elem uint32_t 1 v (context_of k (get_fu540 s)) ->
  read_bytes (context_range h l) (fu540_claim_read k) s' = to_bytes uint32_t v.
Proof.
  intros Hok Hc k Hctx. pose proof (hart_context_lt _ _ Hc) as Hk. fold k in Hk. unfold read_bytes.
  unfold k at 2. rewrite claim_offset. change (rr_mem (context_range h l) s') with (context_of k (get_fu540 s')).
  rewrite Hctx. unfold set_elem, bytes_write.
  change (length (payload_data (fu540_claim_read k))) with (length (to_bytes uint32_t v)).
  change (Z.to_nat 4) with (sizeof uint32_t * Z.to_nat 1)%nat.
  apply take_drop_inserts. rewrite length_to_bytes, (context_of_length s k) by done. simpl. lia.
Qed.

(** A guest finds the priority of interrupt [i] at the address [4 * i]. *)
Definition fu540_priority_read (i : nat) : tlm_generic_payload :=
  mkPayload TLM_READ_COMMAND (4 * Z.of_nat i) (replicate 4 0) TLM_OK_RESPONSE.

Lemma priority_read_spec (s : S) i delay : fu540_ok s -> (1 <= i <= NUMIRQ)%nat ->
  exists bytes, fu540_transport (fu540_priority_read i) delay s
    = (Ret (set_payload_data bytes (fu540_priority_read i), delay + 40 * NS), s) /\
    from_bytes uint32_t bytes = f_guest_priority s i.
Proof.
  intros Hok Hi. exists (read_bytes f_regs_interrupt_priorities (fu540_priority_read i) s). split.
  - unfold fu540_transport. cbv zeta. unfold mbind at 1, M_bind at 1.
    rewrite (route_first _ [] f_regs_interrupt_priorities
      (f_regs_pending_interrupts :: create_hart_regs enable_reg 0 fu540_harts 0 ENABLE_BASE ENABLE_PER_HART ++
       create_hart_regs context_reg 0 fu540_harts 0 CONTEXT_BASE CONTEXT_PER_HART)); [| done | | constructor].
    2: { unfold range_match, range_contains. cbn [fu540_priority_read address]. unfold NUMIRQ in Hi. layout. }
    rewrite process_read_eq; [done | | done | done]. unfold NUMIRQ in Hi.
    constructor; cbn [fu540_priority_read address]; change (data_length _) with 4.
    + constructor; [| layout |].
      * intros m. cbn [rr_mem rr_set_mem f_regs_interrupt_priorities f_range]. by rewrite (proj1 (set_fu540_ok _ _)).
      * unfold rr_size. cbn [rr_mem f_regs_interrupt_priorities f_range]. rewrite (fu540_priorities _ Hok). unfold NUMIRQ. layout.
    + unfold range_contains. layout.
    + rewrite Z.mul_comm. by apply Z.mod_mul.
    + done.
    + layout.
    + layout.
  - unfold f_guest_priority, elem, bytes_read, read_bytes.
    cbn [rr_mem rr_start f_regs_interrupt_priorities f_range fu540_priority_read address payload_data].
    do 3 f_equal. change (sizeof uint32_t) with 4%nat. lia.
Qed.

(** C27: what a claim does, in terms of the priorities as the guest sets them.  The
    word a guest reads at the address 4 * i of the controller, where the FU540 has
    the priority of interrupt i, is [f_guest_priority s i].  A read of the claim
    register of hart [h] at level [l] answers with the number of an interrupt that
    is pending and enabled there and among these the most urgent one, the lowest one
    among equals, whatever the threshold; or with 0 if there is none.  But the
    urgency of an interrupt i is measured by the guest's priority of interrupt i + 1,
    so that the answer need not be the interrupt the guest has made the most urgent.
    The read clears the pending bit of the interrupt it answers with and changes no
    other pending bit, no priority, enable bit or threshold and no interrupt line of
    any hart.  If interrupt 53 is pending and enabled for the context, the read ends
    the simulation instead: there is no word behind its priority. *)
Theorem fu540_claim (s : S) (h : nat) (l : PrivilegeLevel) (delay : Z) :
  fu540_ok s -> has_context h l ->
  let k := hart_context h l in
  let urgency i := f_guest_priority s (i + 1) in
  (forall i, (1 <= i <= NUMIRQ)%nat -> exists bytes, fu540_transport (fu540_priority_read i) delay s
     = (Ret (set_payload_data bytes (fu540_priority_read i), delay + 40 * NS), s) /\
     from_bytes uint32_t bytes = f_guest_priority s i) /\
  (last_blocks s k = true -> fu540_transport (fu540_claim_read k) delay s = (Fatal AssertFailed, s)) /\
  (last_blocks s k = false -> exists r s',
     fu540_transport (fu540_claim_read k) delay s
       = (Ret (set_payload_data (to_bytes uint32_t (Z.of_nat r)) (fu540_claim_read k), delay + 40 * NS), s') /\
     most_urgent (fun i => f_accepts s k i && f_waits s i && (0 <? urgency i)) urgency (NUMIRQ + 1) r /\ fu540_ok s' /\
     (forall i, (0 < i)%nat -> f_waits s' i = f_waits s i && negb (Nat.eqb i r)) /\ f_rest s s').
Proof.
  intros Hok Hc k urgency. split; [intros i Hi; by apply priority_read_spec |].
  destruct (next_pending_irq_eq s h l true Hok Hc) as [Hbad Hgood]. fold k in Hbad, Hgood.
  assert (Hroute : forall d, route fu540_register_ranges (fu540_claim_read k) d s
    = (go ← read_hartctx h l (access_info (context_range h l) (fu540_claim_read k) d);
       if (go : bool) then s' ← gets id;
         mret (set_payload_data (read_bytes (context_range h l) (fu540_claim_read k) s') (fu540_claim_read k))
       else mret (fu540_claim_read k)) s).
  { intros d. rewrite (route_context h l 4) by (done || lia). fold k.
    rewrite process_read_eq; [reflexivity | by apply claim_range_access | done | done]. }
  split; intros Hlast.
  - unfold fu540_transport. cbv zeta. unfold mbind at 1, M_bind at 1. rewrite Hroute. unfold k. unfold mbind at 1, M_bind at 1. rewrite read_hartctx_claim by done.
    unfold mbind at 1, M_bind at 1. by rewrite Hbad.
  - destruct (Hgood Hlast) as (r & Hnext & Hr & Hmu).
    destruct (read_hartctx_eq s h l (delay + 4 * fu540_clock_cycle) r Hok Hc Hr Hnext)
      as (s' & Hrun & Hok' & Hrest & Hw & Hctx). fold k in Hrun, Hctx.
    assert (Hmu' : most_urgent (fun i => f_accepts s k i && f_waits s i && (0 <? urgency i)) urgency (NUMIRQ + 1) r).
    { rewrite Nat.add_1_r. unfold most_urgent, f_candidate, urgency in *. cbn [orb] in Hmu.
      destruct Hmu as [[Hr0 Hno] | (Hr0 & Hcand & Hmax)]; [left | right]; setoid_rewrite <- f_used_next.
      - split; [done |]. intros i Hi. specialize (Hno i Hi). by rewrite andb_true_r in Hno.
      - rewrite andb_true_r in Hcand. split_and!; try done; try lia. intros i Hi Hc'. apply Hmax; [done | by rewrite andb_true_r]. }
    exists r, s'. split; [| done].
    unfold fu540_transport. cbv zeta. unfold mbind at 1, M_bind at 1. rewrite Hroute.
    unfold mbind, M_bind, gets. rewrite Hrun. cbn [mret M_ret id]. fold k.
    pose proof (claim_bytes s s' h l _ Hok Hc Hctx) as Hb. fold k in Hb. by rewrite Hb.
Qed.

End fu540.

(** ** A bench

    Two harts; the lines of the contexts are a list of the calls. *)
Record fu540_bench : Type := mkFu540Bench {
  fb_plic : FU540_PLIC;
  fb_lines : nat -> PrivilegeLevel -> bool
}.

#[export] Instance fu540_bench_interface : fu540_interface fu540_bench unit := {
  fu540_harts := 2;
  get_fu540 := fb_plic;
  set_fu540 p s := mkFu540Bench p (fb_lines s);
  fu540_run_notify _ := skip;
  fu540_trigger_external h l := modify (fun s => mkFu540Bench (fb_plic s)
    (fun h' l' => if (h' =? h)%nat && (l' =? l) then true else fb_lines s h' l'));
  fu540_clear_external h l := modify (fun s => mkFu540Bench (fb_plic s)
    (fun h' l' => if (h' =? h)%nat && (l' =? l) then false else fb_lines s h' l'))
}.

#[export] Instance fu540_bench_system : fu540_system fu540_bench unit := {
  fu540_line := fb_lines;
  set_fu540_ok _ _ := conj eq_refl eq_refl
}.

(** Interrupts 3 and 5 are pending and enabled for the supervisor of hart 1.  The guest
    has given 3 the priority 2 and 5 the priority 1, and 2 to interrupt 6. *)
Definition fu540_bench_start : fu540_bench :=
  mkFu540Bench
    (mkFU540 (concat (map (to_bytes uint32_t) [1; 1; 2; 1; 1; 2]) ++ replicate 188 0)
       (to_bytes uint32_t 40 ++ replicate 4 0)
       [replicate 8 0; replicate 8 0; to_bytes uint32_t 40 ++ replicate 4 0]
       (replicate 3 (replicate 8 0)))
    (fun _ _ => false).

Lemma fu540_bench_start_ok : fu540_ok fu540_bench_start.
Proof. constructor; [simpl; lia | done | done | done | repeat constructor]. Qed.

(** Interrupt 5 is claimed although the guest has given 3 a higher priority. *)
Lemma fu540_claim_witness :
  exists s', fu540_transport (fu540_claim_read 2) 0 fu540_bench_start
    = (Ret (set_payload_data (to_bytes uint32_t 5) (fu540_claim_read 2), 40000), s') /\
    f_waits s' 5 = false /\ f_waits s' 3 = true /\
    f_guest_priority fu540_bench_start 3 = 2 /\ f_guest_priority fu540_bench_start 5 = 1.
Proof.
  assert (Hc : has_context (S := fu540_bench) (E := unit) 1 SupervisorMode) by (split; [simpl; lia | by right]).
  destruct (proj2 (proj2 (fu540_claim fu540_bench_start 1 SupervisorMode 0 fu540_bench_start_ok Hc)) ltac:(by vm_compute))
    as (r & s' & Hs & Hmu & _ & Hw & _).
  assert (r = 5%nat) as ->.
  { destruct Hmu as [[-> Hno]|(Hr & Hcand & _)].
    - specialize (Hno 5%nat ltac:(unfold NUMIRQ; lia)). by vm_compute in Hno.
    - assert (E : fst (fu540_transport (fu540_claim_read 2) 0 fu540_bench_start)
                  = Ret (set_payload_data (to_bytes uint32_t 5) (fu540_claim_read 2), 40000)) by by vm_compute.
      change (hart_context 1 SupervisorMode) with 2%nat in Hs. rewrite Hs in E. cbn [fst] in E.
      apply (f_equal (fun o => match o with Ret (t, _) => le_value (payload_data t) | _ => 0 end)) in E.
      cbv beta iota in E. cbn [payload_data set_payload_data] in E. unfold to_bytes in E.
      rewrite !le_value_bytes in E. unfold NUMIRQ in Hr.
      rewrite !uint_id in E by (unfold is_uint; simpl; lia). lia. }
  exists s'. split; [exact Hs |]. rewrite !Hw by lia. by vm_compute.
Defined.
