(* ===== verification/ElfLoader.v ===== *)
(** * The ELF loader

    Models core/common/elf_loader.h with the file formats of core/rv32/elf_loader.h
    and core/rv64/elf_loader.h.  The mapped file is a list of bytes, a pointer into
    it an offset; a read beyond its end is the failure [UndefinedBehaviour].  What
    is loaded goes to a [load_if] (core/common/load_if.h), which a memory implements. *)

From Stdlib Require Ascii String.
Import (notations) String.
#[local] Delimit Scope string_scope with string.
From S2P Require Import Prelude Memory.

(** ** Structures

    A structure is the list of the types of its members, arrays written out; its
    layout follows the ABI of the host. *)

Definition align_up (n a : Z) : Z := (n + a - 1) / a * a.

Fixpoint member (ts : list int_type) (i : nat) (off : Z) : Z * int_type :=
  match ts with
  | [] => (off, uint8_t)
  | t :: ts =>
      let o := align_up off (Z.of_nat (sizeof t)) in
      match i with O => (o, t) | S i => member ts i (o + Z.of_nat (sizeof t)) end
  end.

Fixpoint struct_end (ts : list int_type) (off : Z) : Z :=
  match ts with
  | [] => off
  | t :: ts => struct_end ts (align_up off (Z.of_nat (sizeof t)) + Z.of_nat (sizeof t))
  end.

Definition struct_size (ts : list int_type) : Z :=
  align_up (struct_end ts 0) (foldr (fun t => Z.max (Z.of_nat (sizeof t))) 1 ts).

Definition ELF_NIDENT : nat := 16.

(** The header [Elf_Ehdr] has the same members in both formats. *)
Definition Elf_Ehdr (word half addr : int_type) : list int_type :=
  replicate ELF_NIDENT uint8_t ++
  [half; half; word; addr; addr; addr; word; half; half; half; half; half; half].

Definition Elf32_Ehdr : list int_type := Elf_Ehdr uint32_t uint16_t uint32_t.
Definition Elf32_Phdr : list int_type := replicate 8 uint32_t.
Definition Elf32_Shdr : list int_type := replicate 10 uint32_t.
Definition Elf32_Sym : list int_type := [uint32_t; uint32_t; uint32_t; uint8_t; uint8_t; uint16_t].

Definition Elf64_Ehdr : list int_type := Elf_Ehdr uint32_t uint16_t uint64_t.
Definition Elf64_Phdr : list int_type := [uint32_t; uint32_t] ++ replicate 6 uint64_t.
Definition Elf64_Shdr : list int_type :=
  [uint32_t; uint32_t; uint64_t; uint64_t; uint64_t; uint64_t; uint32_t; uint32_t; uint64_t; uint64_t].
Definition Elf64_Sym : list int_type := [uint32_t; uint8_t; uint8_t; uint16_t; uint64_t; uint64_t].

Inductive elf_types : Type := Elf32Types | Elf64Types.

Definition PT_LOAD : Z := 1.

Section formats.
Context (T : elf_types).

Definition addr_t : int_type := match T with Elf32Types => uint32_t | Elf64Types => uint64_t end.
Definition Ehdr : list int_type := match T with Elf32Types => Elf32_Ehdr | Elf64Types => Elf64_Ehdr end.
Definition Phdr : list int_type := match T with Elf32Types => Elf32_Phdr | Elf64Types => Elf64_Phdr end.
Definition Shdr : list int_type := match T with Elf32Types => Elf32_Shdr | Elf64Types => Elf64_Shdr end.
Definition Sym : list int_type := match T with Elf32Types => Elf32_Sym | Elf64Types => Elf64_Sym end.

(** The members the loader reads. *)
Definition e_entry : Z * int_type := member Ehdr 19 0.
Definition e_phoff : Z * int_type := member Ehdr 20 0.
Definition e_shoff : Z * int_type := member Ehdr 21 0.
Definition e_phentsize : Z * int_type := member Ehdr 24 0.
Definition e_phnum : Z * int_type := member Ehdr 25 0.
Definition e_shentsize : Z * int_type := member Ehdr 26 0.
Definition e_shnum : Z * int_type := member Ehdr 27 0.
Definition e_shstrndx : Z * int_type := member Ehdr 28 0.
Definition phdr_member (i32 i64 : nat) : Z * int_type :=
  member Phdr (match T with Elf32Types => i32 | Elf64Types => i64 end) 0.
Definition p_type : Z * int_type := phdr_member 0 0.
Definition p_offset : Z * int_type := phdr_member 1 2.
Definition p_vaddr : Z * int_type := phdr_member 2 3.
Definition p_paddr : Z * int_type := phdr_member 3 4.
Definition p_filesz : Z * int_type := phdr_member 4 5.
Definition p_memsz : Z * int_type := phdr_member 5 6.
Definition sh_name : Z * int_type := member Shdr 0 0.
Definition sh_offset : Z * int_type := member Shdr 4 0.
Definition sh_size : Z * int_type := member Shdr 5 0.
Definition st_name : Z * int_type := member Sym 0 0.
Definition st_value : Z * int_type := member Sym (match T with Elf32Types => 1 | Elf64Types => 4 end) 0.

End formats.

(** ** The loader *)

Class load_if (S E : Type) : Type := {
  load_data : list Z -> Z -> M S E unit;
  load_zero : Z -> Z -> M S E unit
}.

Inductive elf_exception : Type := load_executable_exception.

Section loader.
Context (T : elf_types) (elf : list Z) {S : Type}.

Abbreviation R := (M S elf_exception).

(** A member of the structure at offset [p] of the file. *)
Definition field_value (p : Z) (f : Z * int_type) : Z :=
  from_bytes (snd f) (take (sizeof (snd f)) (drop (Z.to_nat (p + fst f)) elf)).
Definition field (p : Z) (f : Z * int_type) : R Z :=
  if (0 <=? p + fst f) && (p + fst f + Z.of_nat (sizeof (snd f)) <=? Z.of_nat (length elf))
  then mret (field_value p f) else fatal UndefinedBehaviour.
Definition hdr (f : Z * int_type) : R Z := field 0 f.

(** [n] bytes from [elf.data() + off] *)
Definition file_bytes (off n : Z) : R (list Z) :=
  if (0 <=? off) && (off + n <=? Z.of_nat (length elf))
  then mret (take (Z.to_nat n) (drop (Z.to_nat off) elf)) else fatal UndefinedBehaviour.

(** The program header [i]: the product is an [int]. *)
Definition phdr (i : Z) : R Z :=
  off ← hdr (e_phoff T); size ← hdr (e_phentsize T); mret (off + int32 (size * i)).

(** The loop of get_load_sections from [i], with [n] headers to go. *)
Fixpoint load_sections (i n : nat) : R (list Z) :=
  match n with
  | O => mret []
  | Datatypes.S n =>
      let continue := load_sections (Datatypes.S i) n in
      p ← phdr (Z.of_nat i);
      type ← field p (p_type T);
      if negb (type =? PT_LOAD) then continue
      else
        filesz ← field p (p_filesz T);
        memsz ← field p (p_memsz T);
        if (filesz =? 0) && (memsz =? 0) then continue
        else rest ← continue; mret (p :: rest)
  end.

Definition get_load_sections : R (list Z) :=
  n ← hdr (e_phnum T); load_sections 0 (Z.to_nat n).

Section load.
Context `{!load_if S elf_exception}.

(** The body of the loop of load_executable_image. *)
Definition load_section (size offset : Z) (use_vaddr : bool) (p : Z) : R unit :=
  paddr ← field p (p_paddr T);
  addr ← (if use_vaddr then field p (p_vaddr T) else mret paddr);
  let end_ := to_type (addr_t T) (offset + size) in
  if negb ((offset <=? addr) && (addr <? end_)) then skip
  else if addr <? offset then throw load_executable_exception
  else
    memsz ← field p (p_memsz T);
    if end_ <=? to_type (addr_t T) (addr + memsz) then throw load_executable_exception
    else
      let idx := addr - offset in
      off ← field p (p_offset T);
      to_copy ← field p (p_filesz T);
      src ← file_bytes off to_copy;
      load_data src idx ;;
      assert (to_copy <=? memsz) ;;
      let idx := to_type (addr_t T) (idx + to_copy) in
      let to_copy := memsz - to_copy in
      load_zero idx to_copy.

Definition load_executable_image (size offset : Z) (use_vaddr : bool) : R unit :=
  ps ← get_load_sections; for_each ps (load_section size offset use_vaddr).

End load.

Definition get_memory_end : R Z :=
  n ← hdr (e_phnum T);
  last ← phdr (n - 1);
  vaddr ← field last (p_vaddr T);
  memsz ← field last (p_memsz T);
  mret (to_type (addr_t T) (vaddr + memsz)).

Definition get_heap_addr : R Z := s ← get_memory_end; mret (to_type (addr_t T) (s + s mod 8)).

Definition get_entrypoint : R Z := hdr (e_entry T).

(** ** Sections and symbols *)

(** [!strcmp(elf.data() + off, name)]; [name] has no zero byte. *)
Fixpoint string_eq (bs name : list Z) : R bool :=
  match bs, name with
  | [], _ => fatal UndefinedBehaviour
  | b :: _, [] => mret (b =? 0)
  | b :: bs, c :: name => if b =? c then string_eq bs name else mret false
  end.
Definition strcmp (off : Z) (name : list Z) : R bool :=
  if 0 <=? off then string_eq (drop (Z.to_nat off) elf) name else fatal UndefinedBehaviour.

Definition name_of (s : String.string) : list Z :=
  map (fun c => Z.of_nat (Ascii.nat_of_ascii c)) (String.list_ascii_of_string s).

Definition get_section_string_table : R Z :=
  shoff ← hdr (e_shoff T);
  assert (negb (shoff =? 0)) ;;
  size ← hdr (e_shentsize T);
  ndx ← hdr (e_shstrndx T);
  field (shoff + int32 (size * ndx)) (sh_offset T).

(** The loop of get_section; the index is unsigned. *)
Fixpoint find_section (name : list Z) (strings : Z) (i n : nat) : R Z :=
  match n with
  | O => fatal RuntimeError
  | Datatypes.S n =>
      shoff ← hdr (e_shoff T);
      size ← hdr (e_shentsize T);
      let s := shoff + uint32 (size * Z.of_nat i) in
      nm ← field s (sh_name T);
      eq ← strcmp (strings + nm) name;
      if (eq : bool) then mret s else find_section name strings (Datatypes.S i) n
  end.

Definition get_section (name : list Z) : R Z :=
  shoff ← hdr (e_shoff T);
  if shoff =? 0 then fatal RuntimeError
  else
    strings ← get_section_string_table;
    n ← hdr (e_shnum T);
    find_section name strings 0 (Z.to_nat n).

Definition get_symbol_string_table : R Z :=
  s ← get_section (name_of ".strtab"%string); field s (sh_offset T).

Fixpoint find_symbol (name : list Z) (strings table : Z) (i n : nat) : R Z :=
  match n with
  | O => fatal RuntimeError
  | Datatypes.S n =>
      let p := table + Z.of_nat i * struct_size (Sym T) in
      nm ← field p (st_name T);
      eq ← strcmp (strings + nm) name;
      if (eq : bool) then mret p else find_symbol name strings table (Datatypes.S i) n
  end.

Definition get_symbol (name : list Z) : R Z :=
  s ← get_section (name_of ".symtab"%string);
  strings ← get_symbol_string_table;
  size ← field s (sh_size T);
  assert (size mod struct_size (Sym T) =? 0) ;;
  let num_entries := size / struct_size (Sym T) in
  off ← field s (sh_offset T);
  find_symbol name strings off 0 (Z.to_nat num_entries).

Definition get_begin_signature_address : R Z :=
  p ← get_symbol (name_of "begin_signature"%string); field p (st_value T).
Definition get_end_signature_address : R Z :=
  p ← get_symbol (name_of "end_signature"%string); field p (st_value T).
Definition get_to_host_address : R Z := p ← get_symbol (name_of "tohost"%string); field p (st_value T).

End loader.

(** ** The memory that is loaded *)

(** What the loader relies on: a target takes what fits into it. *)
Class load_target (S E : Type) `{load_if S E} : Type := {
  target_ok : S -> Prop;
  target_mem : S -> list Z;
  load_data_ok src dst s :
    target_ok s -> 0 <= dst -> dst + Z.of_nat (length src) <= Z.of_nat (length (target_mem s)) ->
    exists s', load_data src dst s = (Ret tt, s') /\ target_ok s' /\
      target_mem s' = list_inserts (Z.to_nat dst) src (target_mem s);
  load_zero_ok dst n s :
    target_ok s -> 0 <= dst -> 0 <= n -> dst + n <= Z.of_nat (length (target_mem s)) ->
    exists s', load_zero dst n s = (Ret tt, s') /\ target_ok s' /\
      target_mem s' = list_inserts (Z.to_nat dst) (replicate (Z.to_nat n) 0) (target_mem s)
}.

(** A SimpleMemory is such a target. *)
Definition memory_load_if (m : SimpleMemory.t) {E} : load_if heap E := {|
  load_data src dst := SimpleMemory.load_data m src dst;
  load_zero dst n := SimpleMemory.load_zero m dst n
|}.

#[refine] Instance memory_load_target (m : SimpleMemory.t) {E} : @load_target heap E (memory_load_if m) := {|
  target_ok h := memory_in h m /\ SimpleMemory.size m < 2 ^ 64;
  target_mem h := array h (SimpleMemory.data m)
|}.
Proof.
  - intros src dst h [Hm Hs] Hd Hl. pose proof Hm as [Hp Hlen]. exists (poke (SimpleMemory.data m) dst src h).
    split; [| split; [split; [by apply memory_in_poke | done] | by rewrite array_poke]].
    cbn [load_data memory_load_if]. unfold SimpleMemory.load_data, uint64.
    rewrite uint_id by (unfold is_uint; lia). unfold mbind, M_bind.
    assert ((dst + Z.of_nat (length src) <=? SimpleMemory.size m) = true) as -> by lia. cbn [assert skip mret M_ret].
    apply heap_write_in, memory_in_bounds; (done || lia).
  - intros dst n h [Hm Hs] Hd Hn Hl. pose proof Hm as [Hp Hlen].
    exists (poke (SimpleMemory.data m) dst (replicate (Z.to_nat n) 0) h).
    split; [| split; [split; [by apply memory_in_poke | done] | by rewrite array_poke]].
    cbn [load_zero memory_load_if]. unfold SimpleMemory.load_zero, uint64.
    rewrite uint_id by (unfold is_uint; lia). unfold mbind, M_bind.
    assert ((dst + n <=? SimpleMemory.size m) = true) as -> by lia. cbn [assert skip mret M_ret].
    apply heap_write_in, memory_in_bounds; rewrite ?length_replicate; (done || lia).
Defined.

(** ** Segments *)

Section segments.
Context (T : elf_types) (elf : list Z) (size offset : Z) (use_vaddr : bool).

Abbreviation value := (field_value elf).

(** The program headers. *)
Definition header (i : nat) : Z := value 0 (e_phoff T) + value 0 (e_phentsize T) * Z.of_nat i.
Definition header_count : nat := Z.to_nat (value 0 (e_phnum T)).

Record headers_in_file : Prop := {
  elf_header : struct_size (Ehdr T) <= Z.of_nat (length elf);
  elf_entry_size : struct_size (Phdr T) <= value 0 (e_phentsize T);
  elf_table_size : value 0 (e_phentsize T) * Z.of_nat header_count < 2 ^ 31;
  elf_table : value 0 (e_phoff T) + value 0 (e_phentsize T) * Z.of_nat header_count <= Z.of_nat (length elf)
}.

Definition loadable (p : Z) : bool :=
  (value p (p_type T) =? PT_LOAD) && negb ((value p (p_filesz T) =? 0) && (value p (p_memsz T) =? 0)).
Definition segments : list Z := List.filter loadable (map header (seq 0 header_count)).

Definition segment_addr (p : Z) : Z := if use_vaddr then value p (p_vaddr T) else value p (p_paddr T).
Definition segment_size (p : Z) : Z := value p (p_memsz T).
Definition segment_start (p : Z) : nat := Z.to_nat (segment_addr p - offset).
Definition in_window (p : Z) : bool := (offset <=? segment_addr p) && (segment_addr p <? offset + size).
Definition window_segments : list Z := List.filter in_window segments.

(** The contents of a segment: its bytes in the file, then zeros. *)
Definition segment_image (p : Z) : list Z :=
  take (Z.to_nat (value p (p_filesz T))) (drop (Z.to_nat (value p (p_offset T))) elf) ++
  replicate (Z.to_nat (segment_size p - value p (p_filesz T))) 0.
Definition place (mem : list Z) (p : Z) : list Z := list_inserts (segment_start p) (segment_image p) mem.

(** A segment the loader accepts: the last byte of the window stays free. *)
Record fits (p : Z) : Prop := {
  fits_window : segment_addr p + segment_size p < offset + size;
  fits_sizes : value p (p_filesz T) <= segment_size p;
  fits_file : value p (p_offset T) + value p (p_filesz T) <= Z.of_nat (length elf)
}.
Definition overflows (p : Z) : Prop :=
  offset + size <= segment_addr p + segment_size p < 2 ^ width (addr_t T).

Definition apart (p q : Z) : Prop :=
  (segment_start p + length (segment_image p) <= segment_start q \/
   segment_start q + length (segment_image q) <= segment_start p)%nat.

End segments.

(** Members of the lists of the members the loader reads. *)
#[local] Ltac header_member := first [done | cbn [In]; tauto].

Section loading.
Context {S : Type} `{Htarget : load_target S elf_exception}.
Context (T : elf_types) (elf : list Z) (size offset : Z) (use_vaddr : bool).
#[local] Set Default Proof Using "Type".

Abbreviation value := (field_value elf).

Lemma value_range p f : in_type (snd f) (value p f).
Proof. apply to_type_in. Qed.

Lemma field_in p f (s : S) : 0 <= p -> 0 <= fst f -> p + fst f + Z.of_nat (sizeof (snd f)) <= Z.of_nat (length elf) ->
  field elf p f s = (Ret (value p f), s).
Proof.
  intros Hp Hf Hl. unfold field. assert ((0 <=? p + fst f) = true) as -> by lia.
  by assert ((p + fst f + Z.of_nat (sizeof (snd f)) <=? Z.of_nat (length elf)) = true) as -> by lia.
Qed.

Lemma ehdr_members :
  Forall (fun f => 0 <= fst f /\ fst f + Z.of_nat (sizeof (snd f)) <= struct_size (Ehdr T) /\ signed (snd f) = false)
    [e_entry T; e_phoff T; e_phentsize T; e_phnum T].
Proof. destruct T; repeat constructor; vm_compute; done. Qed.

Lemma phdr_members :
  Forall (fun f => 0 <= fst f /\ fst f + Z.of_nat (sizeof (snd f)) <= struct_size (Phdr T) /\ signed (snd f) = false)
    [p_type T; p_offset T; p_vaddr T; p_paddr T; p_filesz T; p_memsz T].
Proof. destruct T; repeat constructor; vm_compute; done. Qed.

Lemma ehdr_value f : In f [e_entry T; e_phoff T; e_phentsize T; e_phnum T] -> 0 <= value 0 f.
Proof.
  intros Hf. pose proof ehdr_members as Hm. rewrite Forall_forall in Hm.
  destruct (Hm f ltac:(by apply list_elem_of_In)) as (_ & _ & Hs).
  pose proof (value_range 0 f) as Hv. unfold in_type in Hv. rewrite Hs in Hv. apply Hv.
Qed.

Lemma hdr_eq f (s : S) : headers_in_file T elf -> In f [e_entry T; e_phoff T; e_phentsize T; e_phnum T] ->
  hdr elf f s = (Ret (value 0 f), s).
Proof.
  intros Hh Hf. pose proof ehdr_members as Hm. rewrite Forall_forall in Hm.
  destruct (Hm f ltac:(by apply list_elem_of_In)) as (? & ? & _).
  pose proof (elf_header _ _ Hh). apply field_in; lia.
Qed.

Lemma phdr_value p f : In f [p_type T; p_offset T; p_vaddr T; p_paddr T; p_filesz T; p_memsz T] -> 0 <= value p f.
Proof.
  intros Hf. pose proof phdr_members as Hm. rewrite Forall_forall in Hm.
  destruct (Hm f ltac:(by apply list_elem_of_In)) as (_ & _ & Hs).
  pose proof (value_range p f) as Hv. unfold in_type in Hv. rewrite Hs in Hv. apply Hv.
Qed.

(** A program header within the file. *)
Definition is_header (p : Z) : Prop := 0 <= p /\ p + struct_size (Phdr T) <= Z.of_nat (length elf).

Lemma phdr_field p f (s : S) : is_header p ->
  In f [p_type T; p_offset T; p_vaddr T; p_paddr T; p_filesz T; p_memsz T] ->
  field elf p f s = (Ret (value p f), s).
Proof.
  intros [H0 Hp] Hf. pose proof phdr_members as Hm. rewrite Forall_forall in Hm.
  destruct (Hm f ltac:(by apply list_elem_of_In)) as (? & ? & _). apply field_in; lia.
Qed.

Lemma header_in_file i : headers_in_file T elf -> (i < header_count T elf)%nat -> is_header (header T elf i).
Proof.
  intros [_ He Ht Hl] Hi. unfold is_header, header.
  pose proof (ehdr_value (e_phoff T) ltac:(header_member)). pose proof (ehdr_value (e_phentsize T) ltac:(header_member)).
  split; nia.
Qed.

Lemma phdr_eq i (s : S) : headers_in_file T elf -> (i < header_count T elf)%nat ->
  phdr T elf (Z.of_nat i) s = (Ret (header T elf i), s).
Proof.
  intros Hh Hi. pose proof (elf_table_size _ _ Hh) as Ht.
  pose proof (ehdr_value (e_phentsize T) ltac:(header_member)) as Hs.
  unfold phdr, mbind, M_bind. rewrite hdr_eq by header_member. rewrite hdr_eq by header_member.
  unfold header, int32. rewrite sint_id; [done | done |]. unfold is_sint. change (2 ^ (32 - 1)) with (2 ^ 31). nia.
Qed.

Lemma load_sections_eq (s : S) n : headers_in_file T elf -> forall i, (i + n <= header_count T elf)%nat ->
  load_sections T elf i n s = (Ret (List.filter (loadable T elf) (map (header T elf) (seq i n))), s).
Proof.
  intros Hh. induction n as [|n IH]; intros i Hi; cbn [load_sections seq map List.filter]; [done |].
  pose proof (header_in_file i Hh ltac:(lia)) as Hp.
  unfold mbind at 1, M_bind at 1. rewrite phdr_eq by (done || lia).
  unfold mbind at 1, M_bind at 1. rewrite phdr_field by header_member.
  unfold loadable at 1. destruct (value (header T elf i) (p_type T) =? PT_LOAD); cbn [negb andb]; [| apply IH; lia].
  unfold mbind at 1, M_bind at 1. rewrite phdr_field by header_member.
  unfold mbind at 1, M_bind at 1. rewrite phdr_field by header_member.
  destruct ((_ =? 0) && (_ =? 0)); cbn [negb]; [apply IH; lia |].
  unfold mbind, M_bind. rewrite IH by lia. done.
Qed.

Lemma get_load_sections_eq (s : S) : headers_in_file T elf ->
  get_load_sections T elf s = (Ret (segments T elf), s).
Proof.
  intros Hh. unfold get_load_sections, mbind, M_bind. rewrite hdr_eq by header_member.
  by apply load_sections_eq.
Qed.

Lemma segments_headers : headers_in_file T elf -> Forall is_header (segments T elf).
Proof.
  intros Hh. rewrite Forall_forall. intros p Hp. apply list_elem_of_In, filter_In in Hp as [Hp _].
  apply in_map_iff in Hp as (i & <- & Hi). apply in_seq in Hi. apply header_in_file; (done || lia).
Qed.

(** ** One segment *)

(** The window ends below the end of the address space. *)
Record window_ok (s : S) : Prop := {
  window_target : target_ok s;
  window_size : Z.of_nat (length (target_mem s)) = size;
  window_offset : 0 <= offset;
  window_end : offset + size < 2 ^ width (addr_t T)
}.

Lemma addr_unsigned v : 0 <= v < 2 ^ width (addr_t T) -> to_type (addr_t T) v = v.
Proof. intros Hv. apply to_type_id. unfold in_type. by destruct T. Qed.

Lemma load_section_addr p (s : S) : is_header p ->
  forall A (k : Z -> M S elf_exception A),
    (paddr ← field elf p (p_paddr T);
     addr ← (if use_vaddr then field elf p (p_vaddr T) else mret paddr); k addr) s
    = k (segment_addr T elf use_vaddr p) s.
Proof using All.
  intros Hp A k. unfold mbind, M_bind. rewrite phdr_field by header_member.
  unfold segment_addr. destruct use_vaddr; [| done]. by rewrite phdr_field by header_member.
Qed.

Lemma load_section_outside p (s : S) : is_header p -> window_ok s ->
  in_window T elf size offset use_vaddr p = false ->
  load_section T elf size offset use_vaddr p s = (Ret tt, s).
Proof.
  intros Hp [_ Hs Ho He] Hw. unfold load_section. rewrite load_section_addr by done.
  rewrite addr_unsigned by lia. unfold in_window in Hw. by rewrite Hw.
Qed.

Lemma load_section_overflow p (s : S) : is_header p -> window_ok s ->
  in_window T elf size offset use_vaddr p = true -> overflows T elf size offset use_vaddr p ->
  load_section T elf size offset use_vaddr p s = (Throw load_executable_exception, s).
Proof.
  intros Hp [_ Hs Ho He] Hw [Hl Hov]. unfold load_section. rewrite load_section_addr by done.
  rewrite addr_unsigned by lia. unfold in_window in Hw. rewrite Hw. cbn [negb].
  assert ((segment_addr T elf use_vaddr p <? offset) = false) as -> by lia.
  unfold mbind, M_bind. rewrite phdr_field by header_member.
  unfold segment_size in *. rewrite addr_unsigned by lia.
  by assert ((offset + size <=? segment_addr T elf use_vaddr p + value p (p_memsz T)) = true) as -> by lia.
Qed.

Lemma load_section_fits p (s : S) : is_header p -> window_ok s ->
  in_window T elf size offset use_vaddr p = true -> fits T elf size offset use_vaddr p ->
  exists s', load_section T elf size offset use_vaddr p s = (Ret tt, s') /\ window_ok s' /\
    target_mem s' = place T elf offset use_vaddr (target_mem s) p.
Proof.
  intros Hp Hok Hw [Hf Hfs Hff]. pose proof Hok as [Ht Hs Ho He].
  pose proof (phdr_value p (p_filesz T) ltac:(header_member)) as Hf0.
  pose proof (phdr_value p (p_offset T) ltac:(header_member)) as Hoff0.
  unfold in_window in Hw. unfold segment_size in *. set (a := segment_addr T elf use_vaddr p) in *.
  set (bs := take (Z.to_nat (value p (p_filesz T))) (drop (Z.to_nat (value p (p_offset T))) elf)).
  assert (Hbs : Z.of_nat (length bs) = value p (p_filesz T)).
  { unfold bs. rewrite length_take, length_drop. lia. }
  destruct (load_data_ok bs (a - offset) s Ht ltac:(lia) ltac:(lia)) as (s1 & Hs1 & Ht1 & Hm1).
  assert (Hl1 : length (target_mem s1) = length (target_mem s)) by (rewrite Hm1; apply length_inserts).
  destruct (load_zero_ok (a - offset + value p (p_filesz T)) (value p (p_memsz T) - value p (p_filesz T)) s1 Ht1
    ltac:(lia) ltac:(lia) ltac:(lia)) as (s2 & Hs2 & Ht2 & Hm2).
  exists s2. split; [| split].
  - unfold load_section. rewrite load_section_addr by done. fold a.
    rewrite addr_unsigned by lia. rewrite Hw. cbn [negb].
    assert ((a <? offset) = false) as -> by lia.
    unfold mbind, M_bind. rewrite phdr_field by header_member.
    rewrite addr_unsigned by lia.
    assert ((offset + size <=? a + value p (p_memsz T)) = false) as -> by lia.
    rewrite phdr_field by header_member. rewrite phdr_field by header_member.
    unfold file_bytes. assert ((0 <=? value p (p_offset T)) = true) as -> by lia.
    assert ((value p (p_offset T) + value p (p_filesz T) <=? Z.of_nat (length elf)) = true) as -> by lia.
    cbn [andb mret M_ret]. fold bs. rewrite Hs1.
    assert ((value p (p_filesz T) <=? value p (p_memsz T)) = true) as -> by lia. cbn [assert skip mret M_ret].
    by rewrite addr_unsigned by lia.
  - constructor; [done | | done | done]. rewrite Hm2, length_inserts. lia.
  - rewrite Hm2, Hm1. unfold place, segment_start, segment_image. fold a. fold bs.
    rewrite <- inserts_app. f_equal. lia.
Qed.

(** ** The whole image *)

Lemma load_fold l (s : S) : Forall is_header l -> window_ok s ->
  Forall (fits T elf size offset use_vaddr) (List.filter (in_window T elf size offset use_vaddr) l) ->
  exists s', for_each l (load_section T elf size offset use_vaddr) s = (Ret tt, s') /\ window_ok s' /\
    target_mem s' = foldl (place T elf offset use_vaddr) (target_mem s)
                      (List.filter (in_window T elf size offset use_vaddr) l).
Proof.
  intros Hh. revert s. induction Hh as [|p l Hp Hl IH]; intros s Hok Hfit; cbn [for_each List.filter].
  { by exists s. }
  cbn [List.filter] in Hfit. destruct (in_window T elf size offset use_vaddr p) eqn:Hw.
  - apply Forall_cons in Hfit as [Hpf Hfit].
    destruct (load_section_fits p s Hp Hok Hw Hpf) as (s1 & Hs1 & Hok1 & Hm1).
    destruct (IH s1 Hok1 Hfit) as (s2 & Hs2 & Hok2 & Hm2). exists s2.
    unfold mbind, M_bind. rewrite Hs1, Hs2. split; [done |]. split; [done |]. by rewrite Hm2, Hm1.
  - unfold mbind, M_bind. rewrite load_section_outside by done. by apply IH.
Qed.

Lemma load_stops l pre p post (s : S) : Forall is_header l -> window_ok s ->
  List.filter (in_window T elf size offset use_vaddr) l = pre ++ p :: post ->
  Forall (fits T elf size offset use_vaddr) pre -> overflows T elf size offset use_vaddr p ->
  exists s', for_each l (load_section T elf size offset use_vaddr) s = (Throw load_executable_exception, s') /\
    target_mem s' = foldl (place T elf offset use_vaddr) (target_mem s) pre.
Proof.
  intros Hh. revert s pre. induction Hh as [|q l Hq Hl IH]; intros s pre Hok Hsplit Hpre Hov; cbn [for_each].
  { by destruct pre. }
  cbn [List.filter] in Hsplit. destruct (in_window T elf size offset use_vaddr q) eqn:Hw.
  - destruct pre as [|q' pre]; cbn [app] in Hsplit; injection Hsplit as -> Hsplit.
    + exists s. unfold mbind, M_bind. by rewrite load_section_overflow.
    + apply Forall_cons in Hpre as [Hqf Hpre].
      destruct (load_section_fits q' s Hq Hok Hw Hqf) as (s1 & Hs1 & Hok1 & Hm1).
      destruct (IH s1 pre Hok1 Hsplit Hpre Hov) as (s2 & Hs2 & Hm2). exists s2.
      unfold mbind, M_bind. rewrite Hs1, Hs2. split; [done |]. cbn [foldl]. by rewrite Hm2, Hm1.
  - unfold mbind at 1, M_bind at 1. rewrite load_section_outside by done. by apply IH.
Qed.

(** ** Segments that do not overlap *)

Abbreviation put := (place T elf offset use_vaddr).
Abbreviation first := (segment_start T elf offset use_vaddr).
Abbreviation image := (segment_image T elf).

(** [n] bytes from [k] that no segment of [l] touches. *)
Definition untouched (l : list Z) (k n : nat) : Prop :=
  Forall (fun p => k + n <= first p \/ first p + length (image p) <= k)%nat l.

Lemma place_frame l k n : untouched l k n ->
  forall mem, take n (drop k (foldl put mem l)) = take n (drop k mem).
Proof.
  induction 1 as [|p l Hp Hl IH]; intros mem; cbn [foldl]; [done |].
  rewrite IH. unfold place. by apply take_drop_inserts_frame.
Qed.

Lemma place_length l mem : length (foldl put mem l) = length mem.
Proof. revert mem. induction l as [|p l IH]; intros mem; cbn [foldl]; [done |]. rewrite IH. apply length_inserts. Qed.

Lemma place_segments l : ForallOrdPairs (apart T elf offset use_vaddr) l ->
  forall mem, Forall (fun p => first p + length (image p) <= length mem)%nat l ->
  Forall (fun p => take (length (image p)) (drop (first p) (foldl put mem l)) = image p) l.
Proof.
  induction 1 as [|p l Hp Hl IH]; intros mem Hfit; cbn [foldl]; [constructor |].
  apply Forall_cons in Hfit as [Hpf Hfit]. constructor.
  - rewrite place_frame.
    + by apply take_drop_inserts.
    + unfold untouched. eapply Forall_impl; [exact Hp |]. intros q [Hq|Hq]; [by left | by right].
  - apply IH. eapply Forall_impl; [exact Hfit |]. intros q Hq. unfold place. by rewrite length_inserts.
Qed.

Lemma image_length p : fits T elf size offset use_vaddr p ->
  Z.of_nat (length (image p)) = segment_size T elf p.
Proof.
  intros [_ Hs Hf]. pose proof (phdr_value p (p_filesz T) ltac:(header_member)) as Hf0.
  pose proof (phdr_value p (p_offset T) ltac:(header_member)) as Ho0.
  unfold segment_image. rewrite length_app, length_take, length_drop, length_replicate. lia.
Qed.

Lemma fits_inside l (s : S) : window_ok s -> Forall (fits T elf size offset use_vaddr) (List.filter (in_window T elf size offset use_vaddr) l) ->
  Forall (fun p => first p + length (image p) <= length (target_mem s))%nat
    (List.filter (in_window T elf size offset use_vaddr) l).
Proof.
  intros [_ Hs Ho He] Hfit. rewrite Forall_forall in *. intros p Hp. pose proof (Hfit p Hp) as Hf.
  apply list_elem_of_In, filter_In in Hp as [_ Hw]. unfold in_window in Hw.
  pose proof (image_length p Hf). destruct Hf as [Hf _ _]. unfold segment_start. lia.
Qed.

(** C28: the loader brings the program into memory.  Let the program headers lie
    within the file and the window [offset, offset + size) be the target.  If
    every loadable segment that starts in the window ends before its last byte
    and has its contents in the file, the loader returns, and the memory is the
    old one with these segments placed in order: segments that do not overlap all
    have their bytes of the file followed by zeros, and what none of them touches
    is unchanged.  The first segment that reaches the last byte of the window is
    refused with an exception, after those before it have been loaded. *)
Theorem elf_load (s : S) :
  headers_in_file T elf -> window_ok s ->
  let segs := window_segments T elf size offset use_vaddr in
  (Forall (fits T elf size offset use_vaddr) segs ->
   exists s', load_executable_image T elf size offset use_vaddr s = (Ret tt, s') /\
     target_mem s' = foldl put (target_mem s) segs /\
     (ForallOrdPairs (apart T elf offset use_vaddr) segs ->
      Forall (fun p => take (length (image p)) (drop (first p) (target_mem s')) = image p) segs) /\
     forall k n, untouched segs k n -> take n (drop k (target_mem s')) = take n (drop k (target_mem s))) /\
  (forall pre p post, segs = pre ++ p :: post -> Forall (fits T elf size offset use_vaddr) pre ->
   overflows T elf size offset use_vaddr p ->
   exists s', load_executable_image T elf size offset use_vaddr s = (Throw load_executable_exception, s') /\
     target_mem s' = foldl put (target_mem s) pre).
Proof.
  intros Hh Hok segs. pose proof (segments_headers Hh) as Hall.
  unfold load_executable_image. unfold mbind, M_bind. rewrite get_load_sections_eq by done. split.
  - intros Hfit. destruct (load_fold (segments T elf) s Hall Hok Hfit) as (s' & Hs' & _ & Hm).
    exists s'. split; [done |]. fold (window_segments T elf size offset use_vaddr) in Hm. fold segs in Hm.
    split; [done |]. rewrite Hm. split.
    + intros Hap. apply place_segments; [done |]. by apply fits_inside.
    + intros k n Hun. by apply place_frame.
  - intros pre p post Hsplit Hpre Hov. by apply (load_stops (segments T elf) pre p post).
Qed.

(** The heap starts at a multiple of 8 only if the image ends at a multiple of 4. *)
Lemma heap_addr_aligned (s s' : S) (e h : Z) :
  get_memory_end T elf s = (Ret e, s') -> get_heap_addr T elf s = (Ret h, s') ->
  h mod 8 = 0 <-> e mod 4 = 0.
Proof.
  intros He Hh. unfold get_heap_addr, mbind, M_bind in Hh. rewrite He in Hh. injection Hh as <-.
  assert (Hw : to_type (addr_t T) (e + e mod 8) mod 8 = (e + e mod 8) mod 8).
  { unfold to_type. destruct T; cbn [addr_t signed]; unfold uint;
      apply Z.mod_mod_divide.
    - by exists (2 ^ 29).
    - by exists (2 ^ 61). }
  rewrite Hw. rewrite Z.add_mod_idemp_r by done. replace (e + e) with (2 * e) by lia.
  change 8 with (2 * 4). rewrite Z.mul_mod_distr_l by done. lia.
Qed.

End loading.

(** ** An example

    A file for a 32-bit core with a segment of four bytes and four zeros. *)
Definition small_elf : list Z :=
  replicate 16 0 ++ concat (map (uncurry to_bytes)
    [(uint16_t, 2); (uint16_t, 243); (uint32_t, 1); (uint32_t, 0x80000000); (uint32_t, 52); (uint32_t, 0);
     (uint32_t, 0); (uint16_t, 52); (uint16_t, 32); (uint16_t, 1); (uint16_t, 40); (uint16_t, 0); (uint16_t, 0);
     (uint32_t, 1); (uint32_t, 84); (uint32_t, 0x80000000); (uint32_t, 0x80000000); (uint32_t, 4);
     (uint32_t, 8); (uint32_t, 5); (uint32_t, 4)])
  ++ [1; 2; 3; 4].

Definition small_memory : SimpleMemory.t := SimpleMemory.mk 0%nat 16 false.
Definition small_heap : heap := {[0%nat := replicate 16 255]}.

#[local] Instance small_load_if : load_if heap elf_exception := memory_load_if small_memory.
#[local] Instance small_target : load_target heap elf_exception := memory_load_target small_memory.

Lemma small_window_ok : window_ok Elf32Types 16 0x80000000 small_heap.
Proof. constructor; [split; [split; [by eexists |] |] | | |]; done. Qed.

Lemma small_headers : headers_in_file Elf32Types small_elf.
Proof. constructor; by vm_compute. Qed.

Lemma elf_load_witness : exists h',
  load_executable_image Elf32Types small_elf 16 0x80000000 true small_heap
    = (Ret tt, h') /\
  array h' 0%nat = [1; 2; 3; 4; 0; 0; 0; 0] ++ replicate 8 255.
Proof.
  destruct (proj1 (elf_load Elf32Types small_elf 16 0x80000000 true small_heap
    small_headers small_window_ok)) as (h' & Hs & Hm & _).
  - repeat constructor; by vm_compute.
  - exists h'. split; [exact Hs |]. change (array h' 0%nat) with (target_mem h'). rewrite Hm. by vm_compute.
Defined.
