(* ===== verification/Dma.v ===== *)
(** * The DMA controller

    Models platform/basic/dma.h: the registers, the block-wise copy over the bus
    and the body of the thread.  The bus behind the initiator socket, the kernel
    and the interrupt controller are the class [dma_interface]. *)

From S2P Require Import Prelude Memory Bus.

Record SimpleDMA : Type := mkDMA {
  buffer : list Z;
  dma_src : Z;
  dma_dst : Z;
  dma_len : Z;
  dma_op : Z;
  dma_stat : Z
}.

(** The constructor; the buffer is not initialised, here zeros. *)
Definition BUFFER_SIZE : nat := 64.
Definition SimpleDMA_new : SimpleDMA := mkDMA (replicate BUFFER_SIZE 0) 0 0 0 0 0.

Definition OP_NOP : Z := 0.
Definition OP_MEMCPY : Z := 1.
Definition OP_MEMSET : Z := 2.
Definition OP_MEMCMP : Z := 3.
Definition OP_MEMCHR : Z := 4.
Definition OP_MEMMOVE : Z := 5.

Definition SRC_ADDR : Z := 0.
Definition DST_ADDR : Z := 4.
Definition LEN_ADDR : Z := 8.
Definition OP_ADDR : Z := 12.
Definition STAT_ADDR : Z := 16.

Class dma_interface (S E : Type) : Type := {
  get_dma : S -> SimpleDMA;
  set_dma : SimpleDMA -> S -> S;
  dma_irq_number : Z;
  dma_isock : transport_fn S E;
  dma_wait : Z -> M S E unit;
  dma_run_notify : Z -> M S E unit;
  dma_gateway_trigger : Z -> M S E unit
}.

Section DMA.
Context {S E : Type} `{dma_interface S E}.

Abbreviation R := (M S E).

Definition with_buffer (b : list Z) (d : SimpleDMA) : SimpleDMA :=
  mkDMA b (dma_src d) (dma_dst d) (dma_len d) (dma_op d) (dma_stat d).

(** The entries of [addr_to_reg]: how each register is read and written. *)
Definition dma_reg (addr : Z) : option ((SimpleDMA -> Z) * (Z -> SimpleDMA -> SimpleDMA)) :=
  if addr =? SRC_ADDR then Some (dma_src, fun v d => mkDMA (buffer d) v (dma_dst d) (dma_len d) (dma_op d) (dma_stat d))
  else if addr =? DST_ADDR then Some (dma_dst, fun v d => mkDMA (buffer d) (dma_src d) v (dma_len d) (dma_op d) (dma_stat d))
  else if addr =? LEN_ADDR then Some (dma_len, fun v d => mkDMA (buffer d) (dma_src d) (dma_dst d) v (dma_op d) (dma_stat d))
  else if addr =? OP_ADDR then Some (dma_op, fun v d => mkDMA (buffer d) (dma_src d) (dma_dst d) (dma_len d) v (dma_stat d))
  else None.

Definition dma_transport : transport_fn S E := fun trans delay =>
  let addr := address trans in
  let cmd := command trans in
  assert (data_length trans =? 4) ;;
  match dma_reg addr with
  | None => fatal AssertFailed
  | Some (get, set) =>
      trans ←
        match cmd with
        | TLM_READ_COMMAND =>
            v ← gets (fun s => get (get_dma s)); mret (set_payload_data (to_bytes uint32_t v) trans)
        | TLM_WRITE_COMMAND =>
            modify (fun s => set_dma (set (from_bytes uint32_t (payload_data trans)) (get_dma s)) s) ;; mret trans
        | TLM_IGNORE_COMMAND => fatal AssertFailed
        end;
      when (bool_decide (cmd = TLM_WRITE_COMMAND) && (addr =? OP_ADDR)) (dma_run_notify (10 * NS)) ;;
      mret (trans, delay)
  end.

(** do_transaction with the first [num_bytes] bytes of the buffer, which the
    target reads or writes; the response status is not looked at. *)
Definition dma_do_transaction (cmd : tlm_command) (addr num_bytes : Z) : R unit :=
  d ← gets get_dma;
  r ← dma_isock (mkPayload cmd addr (take (Z.to_nat num_bytes) (buffer d)) TLM_INCOMPLETE_RESPONSE) 0;
  modify (fun s => set_dma (with_buffer (list_inserts 0 (payload_data (fst r)) (buffer (get_dma s))) (get_dma s)) s) ;;
  when (negb (snd r =? 0)) (dma_wait (snd r)).

Definition _copy_block (off n : Z) : R unit :=
  d ← gets get_dma;
  dma_do_transaction TLM_READ_COMMAND (uint32 (dma_src d + off)) n ;;
  d ← gets get_dma;
  dma_do_transaction TLM_WRITE_COMMAND (uint32 (dma_dst d + off)) n.

(** The loop of _perform_memcpy and the last block; [fuel] bounds the blocks. *)
Fixpoint copy_blocks (fuel : nat) (n off : Z) : R unit :=
  if Z.of_nat BUFFER_SIZE <? n then
    match fuel with
    | O => fatal Blocked
    | Datatypes.S fuel =>
        _copy_block off (Z.of_nat BUFFER_SIZE) ;;
        copy_blocks fuel (n - Z.of_nat BUFFER_SIZE) (uint32 (off + Z.of_nat BUFFER_SIZE))
    end
  else _copy_block off n.

Definition _perform_memcpy : R unit :=
  d ← gets get_dma; copy_blocks (Z.to_nat (dma_len d / Z.of_nat BUFFER_SIZE)) (dma_len d) 0.

(** The body of the loop of [run], after the wait for the event. *)
Definition dma_run : R unit :=
  d ← gets get_dma;
  (if dma_op d =? OP_NOP then skip
   else if dma_op d =? OP_MEMCPY then _perform_memcpy
   else if dma_op d =? OP_MEMSET then fatal AssertFailed
   else if dma_op d =? OP_MEMCMP then fatal AssertFailed
   else if dma_op d =? OP_MEMCHR then fatal AssertFailed
   else if dma_op d =? OP_MEMMOVE then fatal AssertFailed
   else fatal AssertFailed) ;;
  dma_gateway_trigger dma_irq_number.

End DMA.

(** ** The environment *)

(** What the theorems use of the bus: the addresses from [dma_base] on are a
    memory that answers reads and writes within its bounds; while the controller
    waits, nobody else uses that memory or the registers. *)
Class dma_system (S E : Type) `{dma_interface S E} : Type := {
  dma_base : Z;
  dma_mem : S -> list Z;
  dma_ready : S -> Prop;
  set_dma_ok d s : dma_ready s ->
    get_dma (set_dma d s) = d /\ dma_mem (set_dma d s) = dma_mem s /\ dma_ready (set_dma d s);
  dma_wait_ok t s : dma_ready s -> exists s', dma_wait t s = (Ret tt, s') /\
      get_dma s' = get_dma s /\ dma_mem s' = dma_mem s /\ dma_ready s';
  dma_read_ok a d r s : dma_ready s -> d <> [] -> dma_base <= a ->
    a + Z.of_nat (length d) <= dma_base + Z.of_nat (length (dma_mem s)) ->
    exists tr t s', dma_isock (mkPayload TLM_READ_COMMAND a d r) 0 s = (Ret (tr, t), s') /\
      payload_data tr = take (length d) (drop (Z.to_nat (a - dma_base)) (dma_mem s)) /\
      get_dma s' = get_dma s /\ dma_mem s' = dma_mem s /\ dma_ready s';
  dma_write_ok a d r s : dma_ready s -> d <> [] -> dma_base <= a ->
    a + Z.of_nat (length d) <= dma_base + Z.of_nat (length (dma_mem s)) ->
    exists tr t s', dma_isock (mkPayload TLM_WRITE_COMMAND a d r) 0 s = (Ret (tr, t), s') /\
      payload_data tr = d /\ get_dma s' = get_dma s /\ dma_ready s' /\
      dma_mem s' = list_inserts (Z.to_nat (a - dma_base)) d (dma_mem s)
}.

Section dma.
Context {S E : Type} `{Hsys : dma_system S E}.
#[local] Set Default Proof Using "Type Hsys".

(** The state after a part of a transfer: the memory is [m], the registers are
    those of [d]. *)
Record dma_at (d : SimpleDMA) (m : list Z) (s : S) : Prop := {
  at_ready : dma_ready s;
  at_buffer : length (buffer (get_dma s)) = BUFFER_SIZE;
  at_regs : with_buffer [] (get_dma s) = with_buffer [] d;
  at_mem : dma_mem s = m
}.

(** Part [k], [n] of the memory. *)
Definition part (k n : nat) (m : list Z) : list Z := take n (drop k m).

Lemma wait_at t d m s : dma_at d m s ->
  exists s', when (negb (t =? 0)) (dma_wait t) s = (Ret tt, s') /\ get_dma s' = get_dma s /\ dma_at d m s'.
Proof.
  intros [Hr Hb Hd Hm]. destruct (negb (t =? 0)); cbn [when].
  - destruct (dma_wait_ok t s Hr) as (s' & Hs & Hg & Hm' & Hr'). exists s'. split; [done |]. split; [done |].
    constructor; rewrite ?Hg; (done || congruence).
  - exists s. split; [done |]. split; [done |]. by constructor.
Qed.

Lemma part_app k a b m : part k a m ++ part (k + a) b m = part k (a + b) m.
Proof using Type.
  unfold part. rewrite <- drop_drop, (take_drop_commute (drop k m)).
  transitivity (take a (take (a + b) (drop k m)) ++ drop a (take (a + b) (drop k m))); [| apply take_drop].
  by rewrite take_take, Nat.min_l by lia.
Qed.

(** The registers and the memory after the buffer has been filled. *)
Lemma fill_at b d m s : dma_at d m s -> length b = BUFFER_SIZE ->
  let s' := set_dma (with_buffer b (get_dma s)) s in buffer (get_dma s') = b /\ dma_at d m s'.
Proof.
  intros [Hr Hb Hd Hm] Hl s'. destruct (set_dma_ok (with_buffer b (get_dma s)) s Hr) as (Hg & Hm' & Hr').
  unfold s'. rewrite Hg. split; [done |]. constructor; rewrite ?Hg; (done || congruence).
Qed.

Lemma read_at d m s a n : dma_at d m s -> (0 < n <= BUFFER_SIZE)%nat -> dma_base <= a ->
  a + Z.of_nat n <= dma_base + Z.of_nat (length m) ->
  exists s', dma_do_transaction TLM_READ_COMMAND a (Z.of_nat n) s = (Ret tt, s') /\ dma_at d m s' /\
    take n (buffer (get_dma s')) = part (Z.to_nat (a - dma_base)) n m.
Proof.
  intros Hat Hn Ha Hl. pose proof Hat as [Hr Hb Hd Hm].
  assert (Htl : length (take n (buffer (get_dma s))) = n) by (rewrite length_take; lia).
  destruct (dma_read_ok a (take n (buffer (get_dma s))) TLM_INCOMPLETE_RESPONSE s Hr) as (tr & t & s1 & Hs1 & Hp1 & Hg1 & Hm1 & Hr1).
  { intros E0. rewrite E0 in Htl. simpl in Htl. lia. } { done. } { rewrite Htl, Hm. lia. }
  rewrite Htl, Hm in Hp1. fold (part (Z.to_nat (a - dma_base)) n m) in Hp1.
  assert (Hpl : length (part (Z.to_nat (a - dma_base)) n m) = n).
  { unfold part. rewrite length_take, length_drop. lia. }
  assert (Hat1 : dma_at d m s1) by (constructor; rewrite ?Hg1; (done || congruence)).
  destruct (fill_at (list_inserts 0 (part (Z.to_nat (a - dma_base)) n m) (buffer (get_dma s1))) d m s1 Hat1
    ltac:(rewrite length_inserts; apply (at_buffer _ _ _ Hat1))) as (Hbuf & Hat2).
  set (s2 := set_dma _ s1) in *. destruct (wait_at t d m s2 Hat2) as (s3 & Hs3 & Hg3 & Hat3).
  exists s3. split; [| split; [done |]].
  - unfold dma_do_transaction, gets, modify, mbind, M_bind. rewrite Nat2Z.id, Hs1. cbn [fst snd]. rewrite Hp1.
    exact Hs3.
  - rewrite Hg3, Hbuf. rewrite <- Hpl at 1. rewrite <- (drop_0 (list_inserts 0 _ _)).
    apply take_drop_inserts. rewrite Hpl, (at_buffer _ _ _ Hat1). lia.
Qed.

Lemma write_at d m s a n : dma_at d m s -> (0 < n <= BUFFER_SIZE)%nat -> dma_base <= a ->
  a + Z.of_nat n <= dma_base + Z.of_nat (length m) ->
  exists s', dma_do_transaction TLM_WRITE_COMMAND a (Z.of_nat n) s = (Ret tt, s') /\
    dma_at d (list_inserts (Z.to_nat (a - dma_base)) (take n (buffer (get_dma s))) m) s'.
Proof.
  intros Hat Hn Ha Hl. pose proof Hat as [Hr Hb Hd Hm].
  assert (Htl : length (take n (buffer (get_dma s))) = n) by (rewrite length_take; lia).
  destruct (dma_write_ok a (take n (buffer (get_dma s))) TLM_INCOMPLETE_RESPONSE s Hr) as (tr & t & s1 & Hs1 & Hp1 & Hg1 & Hr1 & Hm1).
  { intros E0. rewrite E0 in Htl. simpl in Htl. lia. } { done. } { rewrite Htl, Hm. lia. }
  set (m1 := list_inserts (Z.to_nat (a - dma_base)) (take n (buffer (get_dma s))) m).
  assert (Hat1 : dma_at d m1 s1).
  { constructor; rewrite ?Hg1; try done. unfold m1. by rewrite Hm1, Hm. }
  destruct (fill_at (list_inserts 0 (payload_data tr) (buffer (get_dma s1))) d m1 s1 Hat1
    ltac:(rewrite length_inserts; apply (at_buffer _ _ _ Hat1))) as (_ & Hat2).
  set (s2 := set_dma _ s1) in *. destruct (wait_at t d m1 s2 Hat2) as (s3 & Hs3 & _ & Hat3).
  exists s3. split; [| done].
  unfold dma_do_transaction, gets, modify, mbind, M_bind. rewrite Nat2Z.id, Hs1. exact Hs3.
Qed.

(** The regions of a transfer of [n] bytes from [a] to [b]: within the memory. *)
Definition in_memory (a n : Z) (m : list Z) : Prop :=
  dma_base <= a /\ a + n <= dma_base + Z.of_nat (length m) /\ 0 <= a /\ a + n < 2 ^ 32.

Definition at_offset (a : Z) : nat := Z.to_nat (a - dma_base).

Lemma with_buffer_regs d d' : with_buffer [] d = with_buffer [] d' ->
  dma_src d = dma_src d' /\ dma_dst d = dma_dst d' /\ dma_len d = dma_len d' /\ dma_op d = dma_op d'.
Proof using Type. destruct d, d'. intros [= -> -> -> -> ->]. done. Qed.

Lemma copy_block_at d m s off n : dma_at d m s -> (0 < n <= BUFFER_SIZE)%nat -> 0 <= off ->
  in_memory (dma_src d + off) (Z.of_nat n) m -> in_memory (dma_dst d + off) (Z.of_nat n) m ->
  exists s', _copy_block off (Z.of_nat n) s = (Ret tt, s') /\
    dma_at d (list_inserts (at_offset (dma_dst d + off)) (part (at_offset (dma_src d + off)) n m) m) s'.
Proof.
  intros Hat Hn Hoff (Hs1 & Hs2 & Hs3 & Hs4) (Hd1 & Hd2 & Hd3 & Hd4).
  destruct (with_buffer_regs _ _ (at_regs _ _ _ Hat)) as (Hsrc & _).
  destruct (read_at d m s (dma_src d + off) n Hat Hn Hs1 ltac:(lia)) as (s1 & Hr1 & Hat1 & Hb1).
  destruct (with_buffer_regs _ _ (at_regs _ _ _ Hat1)) as (_ & Hdst & _).
  destruct (write_at d m s1 (dma_dst d + off) n Hat1 Hn Hd1 ltac:(lia)) as (s2 & Hw2 & Hat2).
  exists s2. rewrite Hb1 in Hat2. split; [| done].
  unfold _copy_block, gets, mbind, M_bind. rewrite Hsrc. unfold uint32.
  rewrite uint_id by (unfold is_uint; lia). rewrite Hr1, Hdst.
  rewrite uint_id by (unfold is_uint; lia). done.
Qed.

(** A transfer that does not overwrite what it still has to read. *)
Definition safe_transfer (src dst n : Z) : Prop :=
  dst <= src \/ src + n <= dst \/ n <= Z.of_nat BUFFER_SIZE.

Lemma copy_blocks_at d fuel : forall m s n off, dma_at d m s -> 0 < n -> 0 <= off ->
  n <= Z.of_nat BUFFER_SIZE * (Z.of_nat fuel + 1) ->
  in_memory (dma_src d + off) n m -> in_memory (dma_dst d + off) n m -> off + n < 2 ^ 32 ->
  safe_transfer (dma_src d) (dma_dst d) n ->
  exists s', copy_blocks fuel n off s = (Ret tt, s') /\
    dma_at d (list_inserts (at_offset (dma_dst d + off)) (part (at_offset (dma_src d + off)) (Z.to_nat n) m) m) s'.
Proof.
  induction fuel as [|fuel IH]; intros m s n off Hat Hn Hoff Hfuel Hs Hd Hw Hsafe; cbn [copy_blocks].
  - assert ((Z.of_nat BUFFER_SIZE <? n) = false) as -> by lia.
    replace (_copy_block off n) with (_copy_block (S := S) (E := E) off (Z.of_nat (Z.to_nat n))) by (f_equal; lia). apply copy_block_at; rewrite ?Z2Nat.id by lia; (done || lia).
  - destruct (Z.ltb_spec (Z.of_nat BUFFER_SIZE) n) as [Hlt|Hle].
    2: { replace (_copy_block off n) with (_copy_block (S := S) (E := E) off (Z.of_nat (Z.to_nat n))) by (f_equal; lia). apply copy_block_at; rewrite ?Z2Nat.id by lia; (done || lia). }
    set (B := Z.of_nat BUFFER_SIZE) in *. assert (HB : B = 64) by done.
    unfold in_memory in *.
    destruct (copy_block_at d m s off BUFFER_SIZE Hat ltac:(unfold BUFFER_SIZE; lia) Hoff
      ltac:(unfold in_memory; fold B; lia) ltac:(unfold in_memory; fold B; lia)) as (s1 & Hs1 & Hat1).
    set (D := at_offset (dma_dst d + off)) in *. set (P := at_offset (dma_src d + off)) in *.
    set (m1 := list_inserts D (part P BUFFER_SIZE m) m) in *.
    assert (Hl1 : length m1 = length m) by apply length_inserts.
    destruct (IH m1 s1 (n - B) (off + B) Hat1 ltac:(lia) ltac:(lia) ltac:(lia) ltac:(rewrite Hl1; lia)
      ltac:(rewrite Hl1; lia) ltac:(lia) ltac:(unfold safe_transfer in *; fold B in Hsafe; fold B; lia)) as (s2 & Hs2 & Hat2).
    exists s2. split.
    { unfold mbind, M_bind. fold B in Hs1. rewrite Hs1. unfold uint32. rewrite uint_id by (unfold is_uint; lia). exact Hs2. }
    assert (HD : at_offset (dma_dst d + (off + B)) = (D + BUFFER_SIZE)%nat) by (unfold D, at_offset, BUFFER_SIZE; lia).
    assert (HP : at_offset (dma_src d + (off + B)) = (P + BUFFER_SIZE)%nat) by (unfold P, at_offset, BUFFER_SIZE; lia).
    rewrite HD, HP in Hat2.
    assert (Hrest : part (P + BUFFER_SIZE) (Z.to_nat (n - B)) m1 = part (P + BUFFER_SIZE) (Z.to_nat (n - B)) m).
    { unfold part, m1. apply take_drop_inserts_frame. unfold part. rewrite length_take, length_drop.
      unfold safe_transfer in Hsafe. fold B in Hsafe. unfold P, D, at_offset, BUFFER_SIZE. lia. }
    rewrite Hrest in Hat2. unfold m1 in Hat2.
    assert (Hpl : length (part P BUFFER_SIZE m) = BUFFER_SIZE).
    { unfold part. rewrite length_take, length_drop. unfold P, at_offset, BUFFER_SIZE. lia. }
    rewrite <- Hpl in Hat2 at 1. rewrite inserts_app in Hat2.
    rewrite part_app in Hat2.
    by replace (BUFFER_SIZE + Z.to_nat (n - B))%nat with (Z.to_nat n) in Hat2 by (unfold BUFFER_SIZE; lia).
Qed.

(** C29: a memcpy of the DMA controller copies.  Let [len] bytes at the source and
    at the destination address lie in the memory behind the bus and below 4 GB.
    Unless the destination lies behind the source and overlaps it in a transfer
    of more than one block, the pass of the thread ends, whatever the length, the
    memory is the old one with the bytes of the source at the destination, the
    registers keep their values, and the interrupt is triggered then, once. *)
Theorem dma_memcpy (s : S) :
  let d := get_dma s in
  let src := dma_src d in let dst := dma_dst d in let n := dma_len d in
  dma_ready s -> length (buffer d) = BUFFER_SIZE -> dma_op d = OP_MEMCPY -> 0 < n < 2 ^ 32 ->
  in_memory src n (dma_mem s) -> in_memory dst n (dma_mem s) -> safe_transfer src dst n ->
  exists s', dma_run s = dma_gateway_trigger dma_irq_number s' /\
    dma_mem s' = list_inserts (at_offset dst) (part (at_offset src) (Z.to_nat n) (dma_mem s)) (dma_mem s) /\
    with_buffer [] (get_dma s') = with_buffer [] d.
Proof.
  intros d src dst n Hr Hb Hop Hn Hs Hd Hsafe.
  assert (Hat : dma_at d (dma_mem s) s) by done.
  destruct (copy_blocks_at d (Z.to_nat (n / Z.of_nat BUFFER_SIZE)) (dma_mem s) s n 0 Hat) as (s' & Hrun & Hat');
    rewrite ?Z.add_0_r; try (done || lia).
  { rewrite Z2Nat.id by (apply Z.div_pos; unfold BUFFER_SIZE; lia).
    pose proof (Z.mul_succ_div_gt n (Z.of_nat BUFFER_SIZE) ltac:(done)). lia. }
  rewrite !Z.add_0_r in Hat'. exists s'. split; [| by destruct Hat'].
  unfold dma_run, gets. unfold mbind at 1, M_bind at 1. fold d. rewrite Hop. change (OP_MEMCPY =? OP_NOP) with false.
  change (OP_MEMCPY =? OP_MEMCPY) with true. unfold mbind, M_bind, _perform_memcpy, gets. unfold mbind, M_bind.
  fold d. fold n. by rewrite Hrun.
Qed.

End dma.

(** ** A bench

    The controller behind a bus with a memory of 256 bytes at 0x80000000. *)
Record dma_bench : Type := mkDmaBench { db_dma : SimpleDMA; db_heap : heap; db_interrupts : list Z }.

Definition db_memory : SimpleMemory.t := SimpleMemory.mk 0%nat 256 false.
Definition db_bus : SimpleBus heap unit :=
  mkSimpleBus [mkPortMapping 0x80000000 0x800000ff] [SimpleMemory.transport db_memory].

Definition on_db_heap {A} (m : M heap unit A) : M dma_bench unit A := fun s =>
  let r := m (db_heap s) in (fst r, mkDmaBench (db_dma s) (snd r) (db_interrupts s)).

#[export] Instance dma_bench_interface : dma_interface dma_bench unit := {
  get_dma := db_dma;
  set_dma d s := mkDmaBench d (db_heap s) (db_interrupts s);
  dma_irq_number := 4;
  dma_isock trans delay := on_db_heap (bus_transport db_bus trans delay);
  dma_wait _ := skip;
  dma_run_notify _ := skip;
  dma_gateway_trigger irq := modify (fun s => mkDmaBench (db_dma s) (db_heap s) (db_interrupts s ++ [irq]))
}.

(** The bus passes a transfer within the memory on, and the memory answers it. *)
Lemma db_bus_access cmd a d r h : cmd <> TLM_IGNORE_COMMAND -> memory_in h db_memory -> d <> [] ->
  0x80000000 <= a -> a + Z.of_nat (length d) <= 0x80000000 + 256 ->
  bus_transport (E := unit) db_bus (mkPayload cmd a d r) 0 h
  = (Ret (fst (memory_access h db_memory (mkPayload cmd (a - 0x80000000) d r)), 10 * NS),
     snd (memory_access h db_memory (mkPayload cmd (a - 0x80000000) d r))).
Proof.
  intros Hc Hm Hd Ha Hl. assert (Hn : (0 < length d)%nat) by (destruct d; [done | simpl; lia]).
  unfold bus_transport. cbn [decode ports db_bus address]. unfold port_contains. cbn [port_start port_end].
  assert ((0x80000000 <=? a) && (a <=? 0x800000ff) = true) as -> by lia. cbn [lookup list_lookup isocks db_bus].
  unfold global_to_local, set_address. cbn [command address payload_data response_status port_start].
  unfold uint64. rewrite uint_id by (unfold is_uint; lia).
  rewrite transport_in_bounds; [done | done | done | cbn; unfold data_length; cbn; lia | | done].
  unfold data_length, uint32. cbn [address payload_data]. rewrite uint_id by (unfold is_uint; lia). cbn. lia.
Qed.

#[export] Instance dma_bench_system : dma_system dma_bench unit.
Proof.
  refine {| dma_base := 0x80000000; dma_mem s := array (db_heap s) 0%nat;
            dma_ready s := memory_in (db_heap s) db_memory |}; try done.
  - intros t s Hr. by exists s.
  - intros a d r s Hr Hd Ha Hl. pose proof Hr as [_ Hlen]. cbn in Hlen.
    eexists _, _, _. cbn [dma_isock dma_bench_interface]. unfold on_db_heap.
    rewrite db_bus_access by (done || lia). cbn [fst snd memory_access command set_payload_data address payload_data].
    unfold peek, data_length. cbn [address payload_data SimpleMemory.data db_memory]. rewrite Nat2Z.id.
    unfold uint32. rewrite uint_id by (unfold is_uint; lia). split; [reflexivity |]. done.
  - intros a d r s Hr Hd Ha Hl. pose proof Hr as [Hp Hlen]. cbn in Hlen.
    eexists _, _, _. cbn [dma_isock dma_bench_interface]. unfold on_db_heap.
    rewrite db_bus_access by (done || lia). cbn [fst snd memory_access command address payload_data].
    unfold uint32. rewrite uint_id by (unfold is_uint; lia). split; [reflexivity |].
    cbn [payload_data get_dma dma_bench_interface db_dma db_heap]. split; [done |]. split; [done |].
    split; [by apply memory_in_poke |]. by rewrite array_poke.
Defined.

(** 100 bytes, in two blocks. *)
Definition dma_bench_start : dma_bench :=
  mkDmaBench (mkDMA (replicate 64 0) 0x80000000 0x80000080 100 OP_MEMCPY 0)
    {[0%nat := seqZ 0 256]} [].

Lemma dma_memcpy_witness : exists s',
  dma_run dma_bench_start = (Ret tt, s') /\ db_interrupts s' = [4] /\
  array (db_heap s') 0%nat = seqZ 0 128 ++ seqZ 0 100 ++ seqZ 228 28.
Proof.
  destruct (dma_memcpy dma_bench_start) as (s1 & Hs1 & Hm1 & _).
  - split; [by eexists | done].
  - done.
  - done.
  - by vm_compute.
  - repeat split; by vm_compute.
  - repeat split; by vm_compute.
  - right; left. by vm_compute.
  - eexists. split; [exact Hs1 |]. cbn [db_interrupts dma_gateway_trigger modify snd].
    assert (Hi : db_interrupts (snd (dma_run dma_bench_start)) = [4]) by by vm_compute.
    rewrite Hs1 in Hi. split; [exact Hi |]. change (array _ _) with (dma_mem s1). rewrite Hm1. by vm_compute.
Defined.
