(* ===== verification/Sensor.v ===== *)
(** * The sensors

    Models platform/basic/sensor.h and platform/basic/sensor2.h: the same device,
    once with a transport function of its own and once on the local router of
    util/tlm_map.h.  The kernel's event, the random numbers and the interrupt
    controller are the class [sensor_interface]. *)

From S2P Require Import Prelude Memory MemoryMap TlmMap.

Record SimpleSensor : Type := mkSensor { data_frame : list Z; scaler : Z; filter : Z }.

Definition FRAME_SIZE : nat := 64.
Definition SimpleSensor_new : SimpleSensor := mkSensor (replicate FRAME_SIZE 0) 25 0.

Definition SCALER_REG_ADDR : Z := 0x80.
Definition FILTER_REG_ADDR : Z := 0x84.
Definition MS : Z := 1000000000.

Class sensor_interface (S E : Type) : Type := {
  get_sensor : S -> SimpleSensor;
  set_sensor : SimpleSensor -> S -> S;
  sensor_irq : Z;
  sensor_cancel : M S E unit;
  sensor_notify : Z -> M S E unit;
  sensor_rand : M S E Z;
  sensor_gateway : Z -> M S E unit
}.

(** The registers. *)
Inductive sensor_reg : Type := ScalerReg | FilterReg.

#[export] Instance sensor_reg_eq_dec : EqDecision sensor_reg.
Proof. solve_decision. Defined.

Definition load_sensor_reg (r : sensor_reg) (d : SimpleSensor) : Z :=
  match r with ScalerReg => scaler d | FilterReg => filter d end.
Definition store_sensor_reg (r : sensor_reg) (v : Z) (d : SimpleSensor) : SimpleSensor :=
  match r with
  | ScalerReg => mkSensor (data_frame d) v (filter d)
  | FilterReg => mkSensor (data_frame d) (scaler d) v
  end.

Section sensor.
Context {S E : Type} `{sensor_interface S E}.

Abbreviation R := (M S E).

(** ** sensor.h *)

(** [addr_to_reg] *)
Definition addr_to_reg (addr : Z) : option sensor_reg :=
  if addr =? SCALER_REG_ADDR then Some ScalerReg
  else if addr =? FILTER_REG_ADDR then Some FilterReg else None.

Definition invalid_scaler (v : Z) : bool := (v <? 1) || (100 <? v).

Definition restart_event : R unit :=
  sensor_cancel ;; v ← gets (fun s => scaler (get_sensor s)); sensor_notify (v * MS).

Definition sensor_transport : transport_fn S E := fun trans delay =>
  let addr := address trans in
  let cmd := command trans in
  let len := data_length trans in
  if addr <=? 63 then
    assert (is_read cmd) ;;
    frame ← gets (fun s => data_frame (get_sensor s));
    assert (uint64 (addr + len) <=? Z.of_nat (length frame)) ;;
    mret (set_payload_data (take (length (payload_data trans)) (drop (Z.to_nat addr) frame)) trans, delay)
  else
    assert (len =? 4) ;;
    match addr_to_reg addr with
    | None => fatal AssertFailed
    | Some reg =>
        let value := from_bytes uint32_t (payload_data trans) in
        if is_write cmd && (addr =? SCALER_REG_ADDR) && invalid_scaler value then mret (trans, delay)
        else
          trans ←
            match cmd with
            | TLM_READ_COMMAND =>
                v ← gets (fun s => load_sensor_reg reg (get_sensor s));
                mret (set_payload_data (to_bytes uint32_t v) trans)
            | TLM_WRITE_COMMAND =>
                modify (fun s => set_sensor (store_sensor_reg reg value (get_sensor s)) s) ;; mret trans
            | TLM_IGNORE_COMMAND => fatal AssertFailed
            end;
          when (is_write cmd && (addr =? SCALER_REG_ADDR)) restart_event ;;
          mret (trans, delay)
    end.

(** [for (auto &n : data_frame) n = char(rand())] *)
Fixpoint fill_frame (char : Z -> Z) (i n : nat) : R unit :=
  match n with
  | O => skip
  | Datatypes.S n =>
      v ← sensor_rand;
      modify (fun s => let d := get_sensor s in
        set_sensor (mkSensor (<[i := uint8 (char v)]> (data_frame d)) (scaler d) (filter d)) s) ;;
      fill_frame char (Datatypes.S i) n
  end.

(** The character a filter makes of a random number. *)
Definition sensor_char (f v : Z) : Z :=
  if f =? 1 then v mod 10 + 48 else if f =? 2 then v mod 26 + 65 else v mod 92 + 32.

(** The body of the loop of [run] around its wait: the frame is filled when the
    event comes, and the event is notified again. *)
Definition sensor_rearm : R unit := v ← gets (fun s => scaler (get_sensor s)); sensor_notify (v * MS).
Definition sensor_run : R unit :=
  d ← gets get_sensor; fill_frame (sensor_char (filter d)) 0 FRAME_SIZE ;;
  sensor_gateway sensor_irq ;; sensor_rearm.

(** ** sensor2.h *)

#[export] Instance sensor_registers : register_file S sensor_reg := {
  load_reg r s := load_sensor_reg r (get_sensor s);
  store_reg r v s := set_sensor (store_sensor_reg r v (get_sensor s)) s
}.

Definition data_frame_access_callback : transport_fn S E := fun trans delay =>
  trans ← execute_memory_access (fun s => data_frame (get_sensor s))
    (fun m s => set_sensor (mkSensor m (scaler (get_sensor s)) (filter (get_sensor s))) s) trans;
  mret (trans, delay).

Definition sensor2_register_access : handler_t S sensor_reg E := fun r =>
  let to_scaler := access_write r && bool_decide (access_vptr r = ScalerReg) in
  if to_scaler && invalid_scaler (access_nv r) then mret (access_data r)
  else
    data ← access_fn r;
    when to_scaler restart_event ;;
    mret data.

Definition sensor2_router : list (AbstractMapping S sensor_reg E) :=
  [RegisterMapping [register SCALER_REG_ADDR ScalerReg; register FILTER_REG_ADDR FilterReg]
     (Some sensor2_register_access);
   add_start_size_mapping 0 (Z.of_nat FRAME_SIZE) read_only data_frame_access_callback].

Definition sensor2_transport : transport_fn S E := router_transport sensor2_router.

Definition sensor2_char (f v : Z) : Z :=
  if f =? 1 then v mod 10 + 48 else if f =? 2 then v mod 26 + 65 else v.
Definition sensor2_run : R unit :=
  d ← gets get_sensor; fill_frame (sensor2_char (filter d)) 0 FRAME_SIZE ;;
  sensor_gateway sensor_irq ;; sensor_rearm.

(** ** The two devices *)

(** The accesses that sensor.h answers: reads of the frame, and reads and writes
    of whole registers. *)
Definition sensor_accepts (trans : tlm_generic_payload) : bool :=
  let addr := address trans in let len := data_length trans in
  if addr <=? 63 then is_read (command trans) && (addr + len <=? 64)
  else (len =? 4) && ((addr =? SCALER_REG_ADDR) || (addr =? FILTER_REG_ADDR)) &&
       (is_read (command trans) || is_write (command trans)).

(** A read of a part of a register. *)
Definition part_of_register (trans : tlm_generic_payload) : bool :=
  let addr := address trans in
  is_read (command trans) && ((addr - addr mod 4 =? SCALER_REG_ADDR) || (addr - addr mod 4 =? FILTER_REG_ADDR)) &&
  (data_length trans + addr mod 4 <=? 4) && negb (data_length trans =? 4).

Definition register_at (addr : Z) : sensor_reg :=
  if addr - addr mod 4 =? SCALER_REG_ADDR then ScalerReg else FilterReg.

Definition sensor_bank : list (reg_mapping_t sensor_reg) :=
  [register SCALER_REG_ADDR ScalerReg; register FILTER_REG_ADDR FilterReg].

Lemma find_sensor_reg a : find_reg sensor_bank a =
  if a =? SCALER_REG_ADDR then Some (register SCALER_REG_ADDR ScalerReg)
  else if a =? FILTER_REG_ADDR then Some (register FILTER_REG_ADDR FilterReg) else None.
Proof using Type.
  cbn [find_reg sensor_bank reg_addr register]. rewrite (Z.eqb_sym SCALER_REG_ADDR), (Z.eqb_sym FILTER_REG_ADDR). done.
Qed.

Lemma aligned_register addr a : addr mod 4 = 0 -> (addr - addr mod 4 =? a) = (addr =? a).
Proof using Type. intros ->. by rewrite Z.sub_0_r. Qed.

(** ** Registers as the router accesses them *)

(** The router's answer for an access to a register, by its parts. *)
Lemma sensor2_register trans delay (s : S) reg base :
  address trans - address trans mod 4 = base -> (base = SCALER_REG_ADDR /\ reg = ScalerReg \/ base = FILTER_REG_ADDR /\ reg = FilterReg) ->
  data_length trans + address trans mod 4 <= 4 -> is_read (command trans) || is_write (command trans) = true ->
  sensor2_transport trans delay s =
  (nv ← new_value trans;
   data ← sensor2_register_access (mkAccess (is_read (command trans)) (is_write (command trans)) reg nv
     (register_fn (register base reg) trans) (payload_data trans) (address trans));
   mret (set_payload_data data trans, delay)) s.
Proof using Type.
  intros Hb Hreg Hl Hc. unfold sensor2_transport, sensor2_router. cbn [router_transport try_handle].
  unfold mbind at 1, M_bind at 1. unfold register_try_handle. rewrite Hb.
  change [register SCALER_REG_ADDR ScalerReg; register FILTER_REG_ADDR FilterReg] with sensor_bank.
  rewrite find_sensor_reg.
  assert (Hfind : (if base =? SCALER_REG_ADDR then Some (register SCALER_REG_ADDR ScalerReg)
    else if base =? FILTER_REG_ADDR then Some (register FILTER_REG_ADDR FilterReg) else None) = Some (register base reg)).
  { by destruct Hreg as [[-> ->]|[-> ->]]. }
  rewrite Hfind. pose proof (Z.mod_pos_bound (address trans) 4 ltac:(done)). pose proof (data_length_nonneg trans).
  unfold uint64. rewrite uint_id by (unfold is_uint; lia).
  assert ((data_length trans + address trans mod 4 <=? 4) = true) as -> by lia. rewrite Hc.
  cbn [can_read can_write allow_read allow_write reg_mode reg_vptr register read_write orb assert].
  unfold mbind, M_bind. cbn [skip mret M_ret].
  destruct (new_value trans s) as [[nv|e|f] s1]; [| done | done].
  by destruct (sensor2_register_access _ s1) as [[data|e|f] s2].
Qed.

Lemma sensor_whole_register trans delay (s : S) :
  63 < address trans -> sensor_accepts trans = true ->
  sensor2_transport trans delay s = sensor_transport trans delay s.
Proof using Type.
  intros Ha Hacc. unfold sensor_accepts in Hacc. assert ((address trans <=? 63) = false) as Hf by lia. rewrite Hf in Hacc.
  apply andb_true_iff in Hacc as [Hacc Hc]. apply andb_true_iff in Hacc as [Hl Hr].
  assert (Hl4 : data_length trans = 4) by lia.
  assert (Hn : (4 <=? length (payload_data trans))%nat = true) by (unfold data_length in Hl4; apply Nat.leb_le; lia).
  assert (Hreg : exists reg, (address trans = SCALER_REG_ADDR /\ reg = ScalerReg \/
                              address trans = FILTER_REG_ADDR /\ reg = FilterReg)).
  { destruct (Z.eqb_spec (address trans) SCALER_REG_ADDR) as [->|]; [exists ScalerReg; by left |].
    exists FilterReg. right. split; [lia | done]. }
  destruct Hreg as [reg Hreg].
  assert (Hm : address trans mod 4 = 0) by (by destruct Hreg as [[-> _]|[-> _]]).
  rewrite (sensor2_register _ _ _ reg (address trans)) by (rewrite ?Hm; (done || lia)).
  unfold sensor_transport. rewrite Hf, Hl. cbn [assert]. unfold mbind at 3, M_bind at 3. cbn [skip mret M_ret].
  assert (addr_to_reg (address trans) = Some reg) as -> by (by destruct Hreg as [[-> ->]|[-> ->]]).
  unfold mbind at 1, M_bind at 1, new_value.
  pose proof (register_fn_whole (E := E) reg (address trans) trans) as Hfn. cbn [load_reg store_reg sensor_registers] in Hfn.
  destruct (command trans) eqn:Hcmd; [| rewrite Hn | done]; cbn [is_read is_write mret M_ret andb];
    unfold mbind at 1, M_bind at 1, sensor2_register_access; cbn [access_write access_vptr access_nv access_fn access_data andb when].
  - unfold mbind, M_bind. rewrite Hfn by done. cbn [skip mret M_ret]. done.
  - assert (bool_decide (reg = ScalerReg) = (address trans =? SCALER_REG_ADDR)) as ->.
    { by destruct Hreg as [[-> ->]|[-> ->]]. }
    destruct ((address trans =? SCALER_REG_ADDR) && invalid_scaler _) eqn:Hinv.
    + cbn [mret M_ret]. by rewrite set_payload_data_same.
    + unfold mbind, M_bind, modify. rewrite Hfn by done. cbn [mret M_ret].
      destruct (when _ restart_event _) as [[[]|e|f] s2]; [| done | done]. cbn [mret M_ret]. by rewrite set_payload_data_same.
Qed.

(** An address below the registers is left to the frame. *)
Lemma sensor2_frame trans delay (s : S) : address trans < SCALER_REG_ADDR \/ FILTER_REG_ADDR + 4 <= address trans ->
  sensor2_transport trans delay s =
  (r ← address_try_handle 0 64 read_only (Some data_frame_access_callback) trans delay;
   match r with Some r => mret r | None => fatal RuntimeError end) s.
Proof using Type.
  intros Ha. unfold sensor2_transport, sensor2_router. cbn [router_transport]. unfold mbind at 1, M_bind at 1.
  cbn [try_handle]. unfold register_try_handle.
  change [register SCALER_REG_ADDR ScalerReg; register FILTER_REG_ADDR FilterReg] with sensor_bank.
  rewrite find_sensor_reg. pose proof (Z.mod_pos_bound (address trans) 4 ltac:(done)) as Hm.
  assert ((address trans - address trans mod 4 =? SCALER_REG_ADDR) = false) as ->.
  { unfold SCALER_REG_ADDR, FILTER_REG_ADDR in *. pose proof (Z.div_mod (address trans) 4 ltac:(done)). lia. }
  assert ((address trans - address trans mod 4 =? FILTER_REG_ADDR) = false) as ->.
  { unfold SCALER_REG_ADDR, FILTER_REG_ADDR in *. pose proof (Z.div_mod (address trans) 4 ltac:(done)). lia. }
  cbn [mret M_ret]. reflexivity.
Qed.

Lemma sensor_frame trans delay (s : S) :
  length (data_frame (get_sensor s)) = FRAME_SIZE -> 0 <= address trans <= 63 -> data_length trans < 2 ^ 32 ->
  (sensor_accepts trans = true -> sensor2_transport trans delay s = sensor_transport trans delay s) /\
  (sensor_accepts trans = false -> sensor_transport trans delay s = (Fatal AssertFailed, s) /\
     exists f, sensor2_transport trans delay s = (Fatal f, s)).
Proof using Type.
  intros Hlen Ha Hl. pose proof (data_length_nonneg trans) as Hl0.
  rewrite sensor2_frame by (unfold SCALER_REG_ADDR; lia). unfold sensor_accepts, sensor_transport, address_try_handle.
  assert ((address trans <=? 63) = true) as -> by lia. rewrite Z.sub_0_r.
  assert ((0 <=? address trans) && (address trans <? 64) = true) as -> by lia.
  unfold uint64. rewrite uint_id by (unfold is_uint; lia).
  unfold mbind, M_bind, gets. cbn [can_read can_write allow_read allow_write read_only orb].
  destruct (command trans) eqn:Hc; cbn [is_read is_write negb assert skip mret M_ret fatal andb]; split; intros Hacc; try done.
  - rewrite Hacc, Hlen. assert (Z.of_nat FRAME_SIZE = 64) as -> by done. rewrite Hacc. cbn [assert skip mret M_ret].
    unfold data_frame_access_callback, execute_memory_access, mbind, M_bind, gets.
    cbn [address payload_data set_address command]. rewrite Hlen, Hc.
    assert ((FRAME_SIZE <? Z.to_nat (address trans) + length (payload_data trans))%nat = false) as ->.
    { apply Nat.ltb_ge. unfold FRAME_SIZE, data_length in *. lia. }
    by destruct trans.
  - rewrite Hlen. assert (Z.of_nat FRAME_SIZE = 64) as -> by done. rewrite Hacc. by eauto.
  - split; [done |]. destruct (address trans + data_length trans <=? 64); cbn [assert skip mret M_ret]; eauto.
  - split; [done |]. destruct (address trans + data_length trans <=? 64); cbn [assert skip mret M_ret fatal]; [| eauto].
    unfold data_frame_access_callback, execute_memory_access, mbind, M_bind, gets. cbn [address payload_data set_address command].
    rewrite Hc. destruct (_ <? _)%nat; cbn [fatal]; eauto.
Qed.

Lemma sensor2_checks trans delay (s : S) :
  let base := address trans - address trans mod 4 in
  base = SCALER_REG_ADDR \/ base = FILTER_REG_ADDR -> data_length trans < 2 ^ 32 ->
  4 < data_length trans + address trans mod 4 \/ is_read (command trans) || is_write (command trans) = false ->
  sensor2_transport trans delay s = (Fatal AssertFailed, s).
Proof using Type.
  intros base Hb Hl Hbad. unfold sensor2_transport, sensor2_router. cbn [router_transport try_handle].
  unfold mbind at 1, M_bind at 1. unfold register_try_handle. fold base.
  change [register SCALER_REG_ADDR ScalerReg; register FILTER_REG_ADDR FilterReg] with sensor_bank.
  rewrite find_sensor_reg. pose proof (Z.mod_pos_bound (address trans) 4 ltac:(done)). pose proof (data_length_nonneg trans).
  unfold uint64. rewrite uint_id by (unfold is_uint; lia). unfold mbind, M_bind.
  assert (Hc : (data_length trans + address trans mod 4 <=? 4) && (is_read (command trans) || is_write (command trans)) = false).
  { destruct Hbad as [? | ->]; [lia | apply andb_false_r]. }
  destruct Hb as [-> | ->]; cbn [Z.eqb]; destruct (data_length trans + address trans mod 4 <=? 4); try done;
    cbn [andb] in Hc; by rewrite Hc.
Qed.

(** Every other refused access to a register: only a part of it can be read. *)
Lemma sensor_refused trans delay (s : S) :
  63 < address trans -> is_uint 64 (address trans) -> data_length trans < 2 ^ 32 -> sensor_accepts trans = false ->
  sensor_transport trans delay s = (Fatal AssertFailed, s) /\
  (part_of_register trans = true -> sensor2_transport trans delay s
     = (Ret (set_payload_data (take (length (payload_data trans)) (drop (Z.to_nat (address trans mod 4))
          (to_bytes uint32_t (load_sensor_reg (register_at (address trans)) (get_sensor s))))) trans, delay), s)) /\
  (part_of_register trans = false -> exists f, sensor2_transport trans delay s = (Fatal f, s)).
Proof using Type.
  intros Ha Hu Hl Hacc. pose proof (data_length_nonneg trans) as Hl0.
  pose proof (Z.mod_pos_bound (address trans) 4 ltac:(done)) as Hm.
  unfold sensor_accepts in Hacc. assert ((address trans <=? 63) = false) as Hf by lia. rewrite Hf in Hacc.
  split.
  { unfold sensor_transport. rewrite Hf. unfold mbind, M_bind. destruct (data_length trans =? 4); [| done].
    cbn [assert skip mret M_ret]. unfold addr_to_reg.
    destruct (address trans =? SCALER_REG_ADDR), (address trans =? FILTER_REG_ADDR); cbn [orb andb] in Hacc; try done;
      destruct (command trans); done. }
  unfold part_of_register. set (base := address trans - address trans mod 4).
  destruct ((base =? SCALER_REG_ADDR) || (base =? FILTER_REG_ADDR)) eqn:Hbase.
  2: { rewrite andb_false_r. split; [done |]. intros _. rewrite sensor2_frame.
       - unfold address_try_handle. assert ((0 <=? address trans) && (address trans <? 64) = false) as -> by lia.
         unfold mbind, M_bind. cbn [mret M_ret]. by eexists.
       - unfold base, SCALER_REG_ADDR, FILTER_REG_ADDR in *. pose proof (Z.div_mod (address trans) 4 ltac:(done)). lia. }
  assert (Hreg : base = SCALER_REG_ADDR /\ register_at (address trans) = ScalerReg \/
                 base = FILTER_REG_ADDR /\ register_at (address trans) = FilterReg).
  { unfold register_at. fold base. destruct (Z.eqb_spec base SCALER_REG_ADDR); [by left |]. right. split; [lia | done]. }
  destruct (Z.leb_spec (data_length trans + address trans mod 4) 4) as [Hfit|Hfit].
  2: { rewrite !andb_false_r. split; [done |]. intros _. exists AssertFailed. apply sensor2_checks; [|done|lia].
       unfold base in Hreg. by destruct Hreg as [[? _]|[? _]]; [left | right]. }
  assert (Hl4 : is_read (command trans) || is_write (command trans) = true -> data_length trans <> 4).
  { intros Hrw H4. rewrite Hrw, H4 in Hacc. assert (address trans mod 4 = 0) as Hm0 by lia.
    unfold base in Hbase. rewrite Hm0, Z.sub_0_r in Hbase. by rewrite Hbase in Hacc. }
  destruct (command trans) eqn:Hc; cbn [is_read is_write orb andb] in *.
  3: { split; [done |]. intros _. exists AssertFailed. apply sensor2_checks; [| done | right; by rewrite Hc].
       unfold base in Hreg. by destruct Hreg as [[? _]|[? _]]; [left | right]. }
  all: specialize (Hl4 eq_refl).
  all: rewrite (sensor2_register _ _ _ (register_at (address trans)) base) by (rewrite ?Hc; (done || lia)).
  all: unfold mbind at 1, M_bind at 1, new_value; rewrite Hc.
  - split; [| intros Hd; exfalso; lia]. intros _. cbn [is_read is_write mret M_ret]. unfold sensor2_register_access.
    cbn [access_write access_vptr access_nv access_fn access_data andb when]. unfold register_fn. rewrite Hc. done.
  - split; [done |]. intros _. assert ((4 <=? length (payload_data trans))%nat = false) as ->.
    { apply Nat.leb_gt. unfold data_length in *. lia. }
    by eexists.
Qed.

(** Sensor2.h provides the functionality of sensor.h.  The two devices give
    the same answer to every access the first one accepts: reads of the data
    frame, and reads and writes of whole registers, with the limits of the scaler.
    Every other access ends the simulation in both, except that the second one
    answers a read of a part of a register with that part.  They fill the frame
    with the same characters for the filters 1 and 2; for every other filter they
    do not: the first one takes printable characters only, the second one any. *)
Theorem sensors_agree (trans : tlm_generic_payload) (delay : Z) (s : S) :
  length (data_frame (get_sensor s)) = FRAME_SIZE -> is_uint 64 (address trans) -> data_length trans < 2 ^ 32 ->
  (sensor_accepts trans = true -> sensor2_transport trans delay s = sensor_transport trans delay s) /\
  (sensor_accepts trans = false ->
     sensor_transport trans delay s = (Fatal AssertFailed, s) /\
     (part_of_register trans = true -> sensor2_transport trans delay s
        = (Ret (set_payload_data (take (length (payload_data trans)) (drop (Z.to_nat (address trans mod 4))
             (to_bytes uint32_t (load_sensor_reg (register_at (address trans)) (get_sensor s))))) trans, delay), s)) /\
     (part_of_register trans = false -> exists f, sensor2_transport trans delay s = (Fatal f, s))) /\
  (let f := filter (get_sensor s) in
   (f = 1 \/ f = 2 -> sensor2_run s = sensor_run s) /\
   (f <> 1 -> f <> 2 -> (forall v, 32 <= uint8 (sensor_char f v) < 124) /\
                        forall c, is_uint 8 c -> exists v, 0 <= v /\ uint8 (sensor2_char f v) = c)).
Proof using Type.
  intros Hlen Ha Hl. split; [| split].
  - intros Hacc. destruct (Z.leb_spec (address trans) 63).
    + apply sensor_frame; (done || (unfold is_uint in Ha; lia)).
    + by apply sensor_whole_register.
  - intros Hacc. destruct (Z.leb_spec (address trans) 63) as [Hle|Hgt]; [| by apply sensor_refused].
    destruct (sensor_frame trans delay s Hlen ltac:(unfold is_uint in Ha; lia) Hl) as [_ Hr].
    destruct (Hr Hacc) as [Hs1 Hs2]. split; [done |]. split; [| done].
    intros Hp. exfalso. unfold part_of_register, SCALER_REG_ADDR, FILTER_REG_ADDR in Hp.
    pose proof (Z.mod_pos_bound (address trans) 4 ltac:(done)). unfold is_uint in Ha. lia.
  - intros f. split.
    + intros Hf. unfold sensor2_run, sensor_run, gets, mbind, M_bind. fold f.
      by destruct Hf as [-> | ->].
    + intros H1 H2. unfold sensor_char, sensor2_char.
      assert ((f =? 1) = false) as -> by lia. assert ((f =? 2) = false) as -> by lia. split.
      * intros v. pose proof (Z.mod_pos_bound v 92 ltac:(done)). unfold uint8. rewrite uint_id by (unfold is_uint; lia). lia.
      * intros c Hc. exists c. split; [apply Hc |]. by apply uint_id.
Qed.

End sensor.

(** ** A bench

    The random numbers count up. *)
Record sensor_bench : Type := mkSensorBench { sb_sensor : SimpleSensor; sb_rand : Z; sb_event : option Z }.

#[export] Instance sensor_bench_interface : sensor_interface sensor_bench unit := {
  get_sensor := sb_sensor;
  set_sensor d s := mkSensorBench d (sb_rand s) (sb_event s);
  sensor_irq := 2;
  sensor_cancel := modify (fun s => mkSensorBench (sb_sensor s) (sb_rand s) None);
  sensor_notify t := modify (fun s => mkSensorBench (sb_sensor s) (sb_rand s) (Some t));
  sensor_rand := fun s => (Ret (sb_rand s), mkSensorBench (sb_sensor s) (sb_rand s + 1) (sb_event s));
  sensor_gateway _ := skip
}.

Definition sensor_bench_start : sensor_bench := mkSensorBench SimpleSensor_new 0 None.

(** A write of 50 to the scaler, and a read of half of it. *)
Lemma sensors_agree_witness :
  sensor2_transport (E := unit) (mkPayload TLM_WRITE_COMMAND 0x80 [50; 0; 0; 0] TLM_OK_RESPONSE) 0 sensor_bench_start
    = sensor_transport (mkPayload TLM_WRITE_COMMAND 0x80 [50; 0; 0; 0] TLM_OK_RESPONSE) 0 sensor_bench_start /\
  sensor_transport (E := unit) (mkPayload TLM_READ_COMMAND 0x80 [0; 0] TLM_OK_RESPONSE) 0 sensor_bench_start
    = (Fatal AssertFailed, sensor_bench_start).
Proof.
  split.
  - apply (proj1 (sensors_agree (E := unit) (mkPayload TLM_WRITE_COMMAND 0x80 [50; 0; 0; 0] TLM_OK_RESPONSE) 0
      sensor_bench_start ltac:(by vm_compute) ltac:(split; done) ltac:(done))). by vm_compute.
  - refine (proj1 (proj1 (proj2 (sensors_agree (E := unit) (mkPayload TLM_READ_COMMAND 0x80 [0; 0] TLM_OK_RESPONSE) 0
      sensor_bench_start ltac:(by vm_compute) ltac:(split; done) ltac:(done))) _)). by vm_compute.
Defined.
