(* ===== verification/Flash.v ===== *)
(** * The flash controller

    Models platform/basic/flash.h: the buffer of one block and the controller with
    its registers.  The file of the host behind it is the class [flash_interface]:
    [dev_lseek], [dev_write] and [dev_read] are the calls on the file descriptor. *)

From S2P Require Import Prelude Memory.

Record Blockbuffer : Type := mkBlockbuffer { buf : list Z; offs : Z; dirty : bool; active : bool }.

(** The unions of the registers are their bytes. *)
Record Flashcontroller : Type := mkFlash {
  blockBuf : Blockbuffer;
  mTargetBlock : list Z;
  mDeviceNumBlocks : list Z;
  mFiledescriptor : Z
}.

Definition BLOCKSIZE : nat := 512.
Definition FLASH_ADDR_REG : Z := 0.
Definition FLASH_SIZE_REG : Z := 8.
Definition DATA_ADDR : Z := FLASH_SIZE_REG + 8.
Definition ADDR_SPACE : Z := DATA_ADDR + Z.of_nat BLOCKSIZE.

(** The constructor for a device of [blocks] blocks; the buffer starts as zeros. *)
Definition Blockbuffer_new : Blockbuffer := mkBlockbuffer (replicate BLOCKSIZE 0) 0 false false.
Definition Flashcontroller_new (fd blocks : Z) : Flashcontroller :=
  mkFlash Blockbuffer_new (replicate 8 0) (to_bytes uint64_t blocks) fd.

Class flash_interface (S E : Type) : Type := {
  get_flash : S -> Flashcontroller;
  set_flash : Flashcontroller -> S -> S;
  dev_lseek : Z -> M S E Z;
  dev_write : list Z -> M S E Z;
  dev_read : nat -> M S E (option (list Z))
}.

Definition US : Z := 1000000.

Section flash.
Context {S E : Type} `{flash_interface S E}.

Abbreviation R := (M S E).

Definition get_buffer (s : S) : Blockbuffer := blockBuf (get_flash s).
Definition set_buffer (b : Blockbuffer) (s : S) : S :=
  set_flash (mkFlash b (mTargetBlock (get_flash s)) (mDeviceNumBlocks (get_flash s))
    (mFiledescriptor (get_flash s))) s.
Definition update_buffer (f : Blockbuffer -> Blockbuffer) : R unit :=
  modify (fun s => set_buffer (f (get_buffer s)) s).

Definition set_dirty (d : bool) (b : Blockbuffer) : Blockbuffer := mkBlockbuffer (buf b) (offs b) d (active b).
Definition set_active (a : bool) (b : Blockbuffer) : Blockbuffer := mkBlockbuffer (buf b) (offs b) (dirty b) a.
Definition set_offs (o : Z) (b : Blockbuffer) : Blockbuffer := mkBlockbuffer (buf b) o (dirty b) (active b).
Definition set_buf (l : list Z) (b : Blockbuffer) : Blockbuffer := mkBlockbuffer l (offs b) (dirty b) (active b).

(** ** Blockbuffer *)

Definition seek_block (blockOffset : Z) : R Z := dev_lseek (int64 (uint64 (blockOffset * Z.of_nat BLOCKSIZE))).

(** After an error the functions return. *)
Definition writeBlock (blockOffset : Z) : R unit :=
  r ← seek_block blockOffset;
  if r <? 0 then skip
  else
    b ← gets get_buffer;
    n ← dev_write (buf b);
    if negb (n =? Z.of_nat BLOCKSIZE) then skip else update_buffer (set_dirty false).

Definition readBlock (blockOffset : Z) : R unit :=
  r ← seek_block blockOffset;
  if r <? 0 then skip
  else
    d ← dev_read BLOCKSIZE;
    match d with
    | None => skip
    | Some bytes =>
        update_buffer (fun b => set_buf (list_inserts 0 bytes (buf b)) b) ;;
        if negb (length bytes =? BLOCKSIZE)%nat then skip else update_buffer (set_dirty false)
    end.

Definition setPos (blockOffset : Z) : R unit :=
  b ← gets get_buffer;
  when (negb (blockOffset =? offs b) || negb (active b))
    (when (dirty b && active b) (writeBlock (offs b)) ;;
     update_buffer (set_offs blockOffset) ;;
     readBlock blockOffset ;;
     update_buffer (set_active true)).

(** The position and the length are 16-bit integers. *)
Definition setData (source : list Z) (pos length : Z) : R unit :=
  b ← gets get_buffer;
  assert (active b) ;;
  let pos := uint16 pos in let n := uint16 length in
  if Z.of_nat (Datatypes.length (buf b)) <? pos + n then fatal UndefinedBehaviour
  else
    update_buffer (fun b => set_buf (list_inserts (Z.to_nat pos) (take (Z.to_nat n) source) (buf b)) b) ;;
    update_buffer (set_dirty true).

(** The bytes of the buffer that replace the first ones of [target]. *)
Definition getData (target : list Z) (pos length : Z) : R (list Z) :=
  b ← gets get_buffer;
  assert (active b) ;;
  let pos := uint16 pos in let n := uint16 length in
  if Z.of_nat (Datatypes.length (buf b)) <? pos + n then fatal UndefinedBehaviour
  else mret (list_inserts 0 (take (Z.to_nat n) (drop (Z.to_nat pos) (buf b))) target).

Definition clear : R unit :=
  b ← gets get_buffer;
  when (active b && dirty b) (writeBlock (offs b)) ;;
  update_buffer (set_active false).

(** ** Flashcontroller *)

Definition target_block (s : S) : Z := from_bytes uint64_t (mTargetBlock (get_flash s)).
Definition num_blocks (s : S) : Z := from_bytes uint64_t (mDeviceNumBlocks (get_flash s)).

Definition set_target (l : list Z) (s : S) : S :=
  set_flash (mkFlash (get_buffer s) l (mDeviceNumBlocks (get_flash s)) (mFiledescriptor (get_flash s))) s.

(** A copy between the data of a transaction and the bytes of a register. *)
Definition flash_reg_read (reg : list Z) (off : Z) (trans : tlm_generic_payload) : R tlm_generic_payload :=
  let n := length (payload_data trans) in
  if (length reg <? Z.to_nat off + n)%nat then fatal UndefinedBehaviour
  else mret (set_payload_data (take n (drop (Z.to_nat off) reg)) trans).
Definition flash_reg_write (off : Z) (trans : tlm_generic_payload) : R unit :=
  reg ← gets (fun s => mTargetBlock (get_flash s));
  if (length reg <? Z.to_nat off + length (payload_data trans))%nat then fatal UndefinedBehaviour
  else modify (set_target (list_inserts (Z.to_nat off) (payload_data trans) reg)).

Definition flash_transport : transport_fn S E := fun trans delay =>
  let cmd := command trans in
  let addr := uint32 (address trans) in
  let len := data_length trans in
  assert (addr <? DATA_ADDR + Z.of_nat BLOCKSIZE) ;;
  fd ← gets (fun s => mFiledescriptor (get_flash s));
  assert (0 <=? fd) ;;
  if addr <? FLASH_SIZE_REG then
    trans ←
      match cmd with
      | TLM_WRITE_COMMAND => flash_reg_write (addr - FLASH_ADDR_REG) trans ;; mret trans
      | TLM_READ_COMMAND =>
          reg ← gets (fun s => mTargetBlock (get_flash s)); flash_reg_read reg (addr - FLASH_ADDR_REG) trans
      | TLM_IGNORE_COMMAND => fatal AssertFailed
      end;
    mret (trans, delay + uint32 (len * 30) * NS)
  else if (FLASH_SIZE_REG <=? addr) && (addr <? DATA_ADDR) then
    trans ←
      match cmd with
      | TLM_READ_COMMAND =>
          reg ← gets (fun s => mDeviceNumBlocks (get_flash s)); flash_reg_read reg (addr - FLASH_SIZE_REG) trans
      | _ => fatal AssertFailed
      end;
    mret (trans, delay + uint32 (len * 30) * NS)
  else
    blk ← gets target_block;
    n ← gets num_blocks;
    assert (blk <? n) ;;
    setPos blk ;;
    trans ←
      match cmd with
      | TLM_WRITE_COMMAND => setData (payload_data trans) (addr - DATA_ADDR) len ;; mret trans
      | TLM_READ_COMMAND =>
          d ← getData (payload_data trans) (addr - DATA_ADDR) len; mret (set_payload_data d trans)
      | TLM_IGNORE_COMMAND => fatal AssertFailed
      end;
    mret (trans, delay + len * US).

End flash.

(** ** The environment *)

(** What the theorems use of the host: the file is an array of bytes with a
    position; calls within it succeed. *)
Class flash_system (S E : Type) `{flash_interface S E} : Type := {
  dev_bytes : S -> list Z;
  dev_pos : S -> Z;
  set_flash_ok f s : get_flash (set_flash f s) = f /\ dev_bytes (set_flash f s) = dev_bytes s;
  dev_lseek_ok o s : 0 <= o -> exists s', dev_lseek o s = (Ret o, s') /\
    get_flash s' = get_flash s /\ dev_bytes s' = dev_bytes s /\ dev_pos s' = o;
  dev_write_ok src s : 0 <= dev_pos s -> dev_pos s + Z.of_nat (length src) <= Z.of_nat (length (dev_bytes s)) ->
    exists s', dev_write src s = (Ret (Z.of_nat (length src)), s') /\ get_flash s' = get_flash s /\
      dev_bytes s' = list_inserts (Z.to_nat (dev_pos s)) src (dev_bytes s);
  dev_read_ok n s : 0 <= dev_pos s -> dev_pos s + Z.of_nat n <= Z.of_nat (length (dev_bytes s)) ->
    exists s', dev_read n s = (Ret (Some (take n (drop (Z.to_nat (dev_pos s)) (dev_bytes s)))), s') /\
      get_flash s' = get_flash s /\ dev_bytes s' = dev_bytes s
}.

(** An array in an array. *)
Lemma inserts_inserts k p (src b l : list Z) : (p + length src <= length b)%nat ->
  list_inserts k (list_inserts p src b) l = list_inserts (k + p) src (list_inserts k b l).
Proof.
  intros Hp. apply list_eq. intros i. destruct (decide (i < length l)%nat) as [Hi|Hi].
  2: { rewrite !lookup_ge_None_2; rewrite ?length_inserts; (done || lia). }
  destruct (decide (k <= i < k + length b)%nat) as [Hb|Hb].
  - rewrite list_lookup_inserts by (rewrite ?length_inserts; lia).
    destruct (decide (k + p <= i < k + p + length src)%nat) as [Hs|Hs].
    + rewrite !list_lookup_inserts by (rewrite ?length_inserts; lia). f_equal. lia.
    + destruct (decide (i < k + p)%nat).
      * rewrite !list_lookup_inserts_lt by lia. rewrite list_lookup_inserts by lia. done.
      * rewrite !list_lookup_inserts_ge by lia. rewrite list_lookup_inserts by lia. done.
  - destruct (decide (i < k)%nat).
    + by rewrite !list_lookup_inserts_lt by lia.
    + by rewrite !list_lookup_inserts_ge by (rewrite ?length_inserts; lia).
Qed.

Lemma inserts_same k n (l : list Z) : list_inserts k (take n (drop k l)) l = l.
Proof.
  apply list_eq. intros i. destruct (decide (k <= i < k + length (take n (drop k l)))%nat) as [Hi|Hi].
  - rewrite length_take, length_drop in Hi. rewrite list_lookup_inserts by (rewrite ?length_take, ?length_drop; lia).
    rewrite lookup_take_lt, lookup_drop by lia. f_equal. lia.
  - destruct (decide (i < k)%nat); [by apply list_lookup_inserts_lt | apply list_lookup_inserts_ge; lia].
Qed.

Section flash.
Context {S E : Type} `{Hsys : flash_system S E}.
#[local] Set Default Proof Using "Type Hsys".

(** The position of a block in the file. *)
Definition block_start (b : Z) : nat := Z.to_nat (b * Z.of_nat BLOCKSIZE).

Record flash_ok (s : S) : Prop := {
  flash_fd : 0 <= mFiledescriptor (get_flash s);
  flash_regs : length (mTargetBlock (get_flash s)) = 8%nat /\ length (mDeviceNumBlocks (get_flash s)) = 8%nat;
  flash_size : num_blocks s * Z.of_nat BLOCKSIZE <= Z.of_nat (length (dev_bytes s)) < 2 ^ 63;
  flash_buf : length (buf (get_buffer s)) = BLOCKSIZE;
  flash_active : active (get_buffer s) = true -> 0 <= offs (get_buffer s) < num_blocks s;
  flash_clean : active (get_buffer s) = true -> dirty (get_buffer s) = false ->
    buf (get_buffer s) = take BLOCKSIZE (drop (block_start (offs (get_buffer s))) (dev_bytes s))
}.

(** What the guest sees: the file with the block in the buffer. *)
Definition disk (s : S) : list Z :=
  let b := get_buffer s in
  if active b then list_inserts (block_start (offs b)) (buf b) (dev_bytes s) else dev_bytes s.

Lemma disk_clean s : flash_ok s -> dirty (get_buffer s) = false -> disk s = dev_bytes s.
Proof.
  intros Hok Hd. unfold disk. destruct (active (get_buffer s)) eqn:Ha; [| done].
  rewrite (flash_clean _ Hok Ha Hd). apply inserts_same.
Qed.

Lemma update_buffer_eq f (s : S) : update_buffer (E := E) f s = (Ret tt, set_buffer (f (get_buffer s)) s).
Proof using Type. done. Qed.

Lemma set_buffer_get b (s : S) : get_buffer (set_buffer b s) = b /\ dev_bytes (set_buffer b s) = dev_bytes s /\
  mFiledescriptor (get_flash (set_buffer b s)) = mFiledescriptor (get_flash s) /\
  mTargetBlock (get_flash (set_buffer b s)) = mTargetBlock (get_flash s) /\
  mDeviceNumBlocks (get_flash (set_buffer b s)) = mDeviceNumBlocks (get_flash s).
Proof.
  unfold set_buffer, get_buffer.
  destruct (set_flash_ok (mkFlash b (mTargetBlock (get_flash s)) (mDeviceNumBlocks (get_flash s))
    (mFiledescriptor (get_flash s))) s) as [-> ->]. done.
Qed.

(** The registers are the same. *)
Definition same_regs (s s' : S) : Prop :=
  mFiledescriptor (get_flash s') = mFiledescriptor (get_flash s) /\
  mTargetBlock (get_flash s') = mTargetBlock (get_flash s) /\
  mDeviceNumBlocks (get_flash s') = mDeviceNumBlocks (get_flash s).

Lemma same_regs_trans s1 s2 s3 : same_regs s1 s2 -> same_regs s2 s3 -> same_regs s1 s3.
Proof using Type. intros (?&?&?) (?&?&?). repeat split; congruence. Qed.

Lemma block_start_bound b n : 0 <= b < n -> (block_start b + BLOCKSIZE <= Z.to_nat (n * Z.of_nat BLOCKSIZE))%nat.
Proof using Type. unfold block_start, BLOCKSIZE. lia. Qed.

Lemma seek_block_ok b s : 0 <= b -> b * Z.of_nat BLOCKSIZE < 2 ^ 63 ->
  exists s', seek_block b s = (Ret (Z.of_nat (block_start b)), s') /\
    get_flash s' = get_flash s /\ dev_bytes s' = dev_bytes s /\ dev_pos s' = Z.of_nat (block_start b).
Proof.
  intros Hb Hl. unfold seek_block, uint64, int64. rewrite uint_id by (unfold is_uint, BLOCKSIZE in *; lia).
  rewrite sint_id by (unfold is_sint, BLOCKSIZE in *; (done || (change (64 - 1) with 63; lia))).
  unfold block_start. rewrite Z2Nat.id by (unfold BLOCKSIZE; lia).
  apply dev_lseek_ok. unfold BLOCKSIZE. lia.
Qed.

Lemma writeBlock_ok b s : flash_ok s -> 0 <= b < num_blocks s ->
  exists s', writeBlock b s = (Ret tt, s') /\ same_regs s s' /\
    get_buffer s' = set_dirty false (get_buffer s) /\
    dev_bytes s' = list_inserts (block_start b) (buf (get_buffer s)) (dev_bytes s).
Proof.
  intros Hok Hb. pose proof (flash_size _ Hok) as Hsz. pose proof (flash_buf _ Hok) as Hl.
  pose proof (block_start_bound _ _ Hb) as Hbb.
  destruct (seek_block_ok b s ltac:(lia) ltac:(unfold BLOCKSIZE in *; lia)) as (s1 & Hs1 & Hg1 & Hb1 & Hp1).
  assert (Hbuf1 : get_buffer s1 = get_buffer s) by (unfold get_buffer; by rewrite Hg1).
  destruct (dev_write_ok (buf (get_buffer s1)) s1) as (s2 & Hs2 & Hg2 & Hb2).
  { lia. } { rewrite Hp1, Hb1, Hbuf1, Hl. lia. }
  destruct (set_buffer_get (set_dirty false (get_buffer s2)) s2) as (E1 & E2 & E3 & E4 & E5).
  exists (set_buffer (set_dirty false (get_buffer s2)) s2). split; [| split; [| split]].
  - unfold writeBlock. unfold mbind at 1, M_bind at 1. rewrite Hs1.
    assert ((Z.of_nat (block_start b) <? 0) = false) as -> by lia. unfold gets. unfold mbind at 1, M_bind at 1.
    unfold mbind at 1, M_bind at 1. rewrite Hs2, Hbuf1, Hl, Z.eqb_refl. done.
  - unfold same_regs. by rewrite E3, E4, E5, Hg2, Hg1.
  - rewrite E1. unfold get_buffer. by rewrite Hg2, Hg1.
  - rewrite E2, Hb2, Hp1, Hb1, Hbuf1. by rewrite Nat2Z.id.
Qed.

Lemma readBlock_ok b s : 0 <= b < num_blocks s -> num_blocks s * Z.of_nat BLOCKSIZE <= Z.of_nat (length (dev_bytes s)) < 2 ^ 63 ->
  length (buf (get_buffer s)) = BLOCKSIZE ->
  exists s', readBlock b s = (Ret tt, s') /\ same_regs s s' /\ dev_bytes s' = dev_bytes s /\
    get_buffer s' = set_dirty false (set_buf (take BLOCKSIZE (drop (block_start b) (dev_bytes s))) (get_buffer s)).
Proof.
  intros Hb Hsz Hl. pose proof (block_start_bound _ _ Hb) as Hbb.
  destruct (seek_block_ok b s ltac:(lia) ltac:(unfold BLOCKSIZE in *; lia)) as (s1 & Hs1 & Hg1 & Hb1 & Hp1).
  destruct (dev_read_ok BLOCKSIZE s1) as (s2 & Hs2 & Hg2 & Hb2); [lia | rewrite Hp1, Hb1; lia |].
  rewrite Hp1, Hb1, Nat2Z.id in Hs2. set (bytes := take BLOCKSIZE (drop (block_start b) (dev_bytes s))) in *.
  assert (Hbl : length bytes = BLOCKSIZE) by (unfold bytes; rewrite length_take, length_drop; lia).
  assert (Hbuf2 : get_buffer s2 = get_buffer s) by (unfold get_buffer; by rewrite Hg2, Hg1).
  assert (Hins : list_inserts 0 bytes (buf (get_buffer s)) = bytes).
  { rewrite <- (take_drop_inserts 0 bytes (buf (get_buffer s))) at 2 by lia.
    rewrite drop_0, take_ge; [done |]. rewrite length_inserts. lia. }
  set (s3 := set_buffer (set_buf bytes (get_buffer s2)) s2).
  destruct (set_buffer_get (set_buf bytes (get_buffer s2)) s2) as (E1 & E2 & E3 & E4 & E5). fold s3 in E1, E2, E3, E4, E5.
  destruct (set_buffer_get (set_dirty false (get_buffer s3)) s3) as (F1 & F2 & F3 & F4 & F5).
  exists (set_buffer (set_dirty false (get_buffer s3)) s3). split; [| split; [| split]].
  - unfold readBlock. unfold mbind at 1, M_bind at 1. rewrite Hs1.
    assert ((Z.of_nat (block_start b) <? 0) = false) as -> by lia. unfold mbind at 1, M_bind at 1. rewrite Hs2.
    unfold mbind at 1, M_bind at 1. rewrite update_buffer_eq, Hbuf2, Hins, Hbl. cbn [Nat.eqb negb].
    rewrite Nat.eqb_refl. cbn [negb]. rewrite update_buffer_eq. rewrite <- Hbuf2. done.
  - unfold same_regs. by rewrite F3, F4, F5, E3, E4, E5, Hg2, Hg1.
  - by rewrite F2, E2, Hb2, Hb1.
  - by rewrite F1, E1, Hbuf2.
Qed.

Lemma same_regs_blocks s s' : same_regs s s' -> num_blocks s' = num_blocks s /\ target_block s' = target_block s.
Proof using Type. intros (_ & Ht & Hn). unfold num_blocks, target_block. by rewrite Ht, Hn. Qed.

(** The buffer is written back if it has to be. *)
Lemma write_back_ok s (b : bool) : flash_ok s -> (b = dirty (get_buffer s) && active (get_buffer s)) ->
  exists s', when b (writeBlock (offs (get_buffer s))) s = (Ret tt, s') /\ same_regs s s' /\
    buf (get_buffer s') = buf (get_buffer s) /\ active (get_buffer s') = active (get_buffer s) /\
    dev_bytes s' = disk s.
Proof.
  intros Hok ->. destruct (dirty (get_buffer s)) eqn:Hd.
  - destruct (active (get_buffer s)) eqn:Ha; cbn [andb when].
    + destruct (writeBlock_ok (offs (get_buffer s)) s Hok (flash_active _ Hok Ha)) as (s' & Hs & Hr & Hb & Hby).
      exists s'. split; [done |]. split; [done |]. rewrite Hb. split; [done |]. split; [done |].
      unfold disk. by rewrite Ha.
    + exists s. repeat split; try done. unfold disk. by rewrite Ha.
  - exists s. cbn [andb when]. repeat split; try done. by rewrite disk_clean.
Qed.

Lemma length_disk s : length (disk s) = length (dev_bytes s).
Proof using Type. unfold disk. destruct (active (get_buffer s)); [apply length_inserts | done]. Qed.

(** The block is in the buffer. *)
Record positioned (b : Z) (s : S) : Prop := {
  pos_ok : flash_ok s;
  pos_active : active (get_buffer s) = true;
  pos_offs : offs (get_buffer s) = b
}.

Lemma setPos_ok b s : flash_ok s -> 0 <= b < num_blocks s ->
  exists s', setPos b s = (Ret tt, s') /\ same_regs s s' /\ positioned b s' /\ disk s' = disk s.
Proof.
  intros Hok Hb. unfold setPos, gets. unfold mbind at 1, M_bind at 1.
  destruct (negb (b =? offs (get_buffer s)) || negb (active (get_buffer s))) eqn:Hmiss; cbn [when].
  2: { apply orb_false_iff in Hmiss as [Ho Ha]. apply negb_false_iff in Ho, Ha. exists s.
       split; [done |]. split; [done |]. split; [| done]. constructor; [done | done |]. symmetry. by apply Z.eqb_eq. }
  destruct (write_back_ok s _ Hok eq_refl) as (s1 & Hs1 & Hr1 & Hbuf1 & Ha1 & Hby1).
  destruct (same_regs_blocks _ _ Hr1) as [Hn1 _]. pose proof (flash_size _ Hok) as Hsz.
  set (s2 := set_buffer (set_offs b (get_buffer s1)) s1).
  destruct (set_buffer_get (set_offs b (get_buffer s1)) s1) as (E1 & E2 & E3 & E4 & E5). fold s2 in E1, E2, E3, E4, E5.
  assert (Hr2 : same_regs s1 s2) by done. destruct (same_regs_blocks _ _ Hr2) as [Hn2 _].
  destruct (readBlock_ok b s2) as (s3 & Hs3 & Hr3 & Hby3 & Hbuf3).
  { by rewrite Hn2, Hn1. }
  { rewrite Hn2, Hn1, E2, Hby1, length_disk. done. }
  { rewrite E1. cbn [buf set_offs]. rewrite Hbuf1. apply (flash_buf _ Hok). }
  destruct (same_regs_blocks _ _ Hr3) as [Hn3 _].
  set (s4 := set_buffer (set_active true (get_buffer s3)) s3).
  destruct (set_buffer_get (set_active true (get_buffer s3)) s3) as (F1 & F2 & F3 & F4 & F5). fold s4 in F1, F2, F3, F4, F5.
  assert (Hr4 : same_regs s3 s4) by done. destruct (same_regs_blocks _ _ Hr4) as [Hn4 _].
  assert (Hregs : same_regs s s4) by (repeat (eapply same_regs_trans; [eassumption |]); done).
  assert (Hdev : dev_bytes s4 = disk s) by (by rewrite F2, Hby3, E2, Hby1).
  assert (Hblk : get_buffer s4 = mkBlockbuffer (take BLOCKSIZE (drop (block_start b) (disk s))) b false true).
  { rewrite F1, Hbuf3, E1, E2, Hby1. done. }
  exists s4. split; [| split; [done | split]].
  - unfold mbind, M_bind. rewrite Hs1, update_buffer_eq. fold s2. rewrite Hs3. by rewrite update_buffer_eq.
  - pose proof (block_start_bound _ _ Hb). constructor; rewrite ?Hblk; try done.
    destruct Hregs as (G1 & G2 & G3). constructor; rewrite ?G1, ?G2, ?G3, ?Hblk, ?Hdev; try done.
    + apply (flash_fd _ Hok).
    + apply (flash_regs _ Hok).
    + rewrite Hn4, Hn3, Hn2, Hn1, length_disk. done.
    + cbn [buf]. rewrite length_take, length_drop, length_disk. lia.
    + intros _. cbn [offs]. by rewrite Hn4, Hn3, Hn2, Hn1.
  - unfold disk at 1. rewrite Hblk, Hdev. cbn [active offs buf]. apply inserts_same.
Qed.

(** ** Accesses to the block in the buffer *)

Lemma setData_ok b src pos s : positioned b s -> 0 <= pos -> pos + Z.of_nat (length src) <= Z.of_nat BLOCKSIZE ->
  exists s', setData src pos (Z.of_nat (length src)) s = (Ret tt, s') /\ same_regs s s' /\ positioned b s' /\
    disk s' = list_inserts (block_start b + Z.to_nat pos) src (disk s).
Proof.
  intros [Hok Ha Ho] Hp Hl. pose proof (flash_buf _ Hok) as Hbl.
  set (s1 := set_buffer (set_buf (list_inserts (Z.to_nat pos) src (buf (get_buffer s))) (get_buffer s)) s).
  destruct (set_buffer_get (set_buf (list_inserts (Z.to_nat pos) src (buf (get_buffer s))) (get_buffer s)) s)
    as (E1 & E2 & E3 & E4 & E5). fold s1 in E1, E2, E3, E4, E5.
  set (s2 := set_buffer (set_dirty true (get_buffer s1)) s1).
  destruct (set_buffer_get (set_dirty true (get_buffer s1)) s1) as (F1 & F2 & F3 & F4 & F5). fold s2 in F1, F2, F3, F4, F5.
  assert (Hregs : same_regs s s2) by (eapply (same_regs_trans s s1 s2); done).
  destruct (same_regs_blocks _ _ Hregs) as [Hn _].
  assert (Hblk : get_buffer s2 = mkBlockbuffer (list_inserts (Z.to_nat pos) src (buf (get_buffer s))) b true true).
  { rewrite F1, E1. unfold set_dirty, set_buf. cbn [buf offs dirty active]. by rewrite Ha, Ho. }
  exists s2. split; [| split; [done | split]].
  - unfold setData, gets. unfold mbind at 1, M_bind at 1. rewrite Ha. unfold mbind at 1, M_bind at 1.
    cbn [assert skip mret M_ret]. unfold uint16. rewrite !uint_id by (unfold is_uint, BLOCKSIZE in *; lia). rewrite Hbl.
    assert ((Z.of_nat BLOCKSIZE <? pos + Z.of_nat (length src)) = false) as -> by lia.
    rewrite Nat2Z.id, take_ge by lia. unfold mbind, M_bind. rewrite update_buffer_eq. fold s1. by rewrite update_buffer_eq.
  - pose proof Hregs as (G1 & G2 & G3). constructor; rewrite ?Hblk; try done.
    constructor; rewrite ?G1, ?G2, ?G3, ?Hblk, ?F2, ?E2, ?Hn; try apply Hok; cbn [buf active offs dirty].
    + by rewrite length_inserts.
    + intros _. rewrite <- Ho. by apply (flash_active _ Hok).
    + done.
  - unfold disk. rewrite Hblk, Ha, Ho, F2, E2. cbn [active offs buf]. apply inserts_inserts. lia.
Qed.

Lemma getData_ok b target pos s : positioned b s -> 0 <= pos -> pos + Z.of_nat (length target) <= Z.of_nat BLOCKSIZE ->
  getData target pos (Z.of_nat (length target)) s
  = (Ret (take (length target) (drop (block_start b + Z.to_nat pos) (disk s))), s).
Proof.
  intros [Hok Ha Ho] Hp Hl. pose proof (flash_buf _ Hok) as Hbl. pose proof (flash_active _ Hok Ha) as Hb.
  pose proof (flash_size _ Hok) as Hsz. pose proof (block_start_bound _ _ Hb) as Hbb. rewrite Ho in Hbb.
  unfold getData, gets. unfold mbind at 1, M_bind at 1. rewrite Ha. unfold mbind at 1, M_bind at 1.
  cbn [assert skip mret M_ret]. unfold uint16. rewrite !uint_id by (unfold is_uint, BLOCKSIZE in *; lia). rewrite Hbl.
  assert ((Z.of_nat BLOCKSIZE <? pos + Z.of_nat (length target)) = false) as -> by lia. rewrite Nat2Z.id.
  set (bytes := take (length target) (drop (Z.to_nat pos) (buf (get_buffer s)))).
  assert (Hbl' : length bytes = length target) by (unfold bytes; rewrite length_take, length_drop; lia).
  assert (Hins : list_inserts 0 bytes target = bytes).
  { rewrite <- (take_drop_inserts 0 bytes target) at 2 by lia. rewrite drop_0, take_ge; [done |]. rewrite length_inserts. lia. }
  rewrite Hins.
  enough (bytes = take (length target) (drop (block_start b + Z.to_nat pos) (disk s))) as Heq by (by rewrite Heq).
  unfold disk. rewrite Ha, Ho. unfold bytes. apply list_eq. intros i.
  destruct (decide (i < length target)%nat); [| by rewrite !lookup_take_ge by lia].
  rewrite !lookup_take_lt, !lookup_drop by lia. rewrite list_lookup_inserts by lia. f_equal. lia.
Qed.

(** An access to the data region. *)
Lemma data_access (s : S) (trans : tlm_generic_payload) (delay : Z) :
  flash_ok s -> DATA_ADDR <= address trans < ADDR_SPACE ->
  let pos := address trans - DATA_ADDR in
  flash_transport trans delay s
    = (assert (target_block s <? num_blocks s) ;;
       setPos (target_block s) ;;
       r ←
         match command trans with
         | TLM_WRITE_COMMAND => setData (payload_data trans) pos (data_length trans) ;; mret trans
         | TLM_READ_COMMAND =>
             d ← getData (payload_data trans) pos (data_length trans); mret (set_payload_data d trans)
         | TLM_IGNORE_COMMAND => fatal AssertFailed
         end;
       mret (r, delay + data_length trans * US)) s.
Proof.
  intros Hok Ha pos.
  assert (Hu : uint32 (address trans) = address trans).
  { unfold DATA_ADDR, ADDR_SPACE, FLASH_SIZE_REG in *. apply uint_id. unfold is_uint, BLOCKSIZE in *. unfold DATA_ADDR, FLASH_SIZE_REG in *. lia. }
  unfold flash_transport. rewrite Hu. cbv zeta. pose proof (flash_fd _ Hok) as Hfd.
  assert ((address trans <? DATA_ADDR + Z.of_nat BLOCKSIZE) = true) as -> by (unfold ADDR_SPACE in *; lia).
  assert ((address trans <? FLASH_SIZE_REG) = false) as -> by (unfold DATA_ADDR, FLASH_SIZE_REG in *; lia).
  assert ((FLASH_SIZE_REG <=? address trans) && (address trans <? DATA_ADDR) = false) as -> by lia.
  fold pos. unfold gets. unfold mbind at 1, M_bind at 1. cbn [assert skip mret M_ret].
  unfold mbind at 1, M_bind at 1. assert ((0 <=? mFiledescriptor (get_flash s)) = true) as -> by lia. reflexivity.
Qed.

Lemma clear_ok (s : S) : flash_ok s -> exists s', clear s = (Ret tt, s') /\ dev_bytes s' = disk s.
Proof.
  intros Hok. unfold clear, gets. unfold mbind at 1, M_bind at 1.
  destruct (write_back_ok s _ Hok eq_refl) as (s1 & Hs1 & _ & _ & _ & Hby1).
  rewrite (andb_comm (active _)). unfold mbind at 1, M_bind at 1. rewrite Hs1, update_buffer_eq.
  eexists. split; [reflexivity |]. by rewrite (proj1 (proj2 (set_buffer_get _ _))).
Qed.

(** C30: the flash controller is a disk.  To the guest the device and the block in
    the buffer are one array of bytes, [disk]: an access to the data region reads
    or replaces the bytes at its place in the target block and nothing else,
    whichever blocks have been accessed before; and [clear], which the destructor
    calls, leaves the device with these bytes.  An access to a block that the
    device does not have fails an assertion, and one beyond the end of the block
    is not checked: it leaves the buffer. *)
Theorem flash_disk (s : S) (trans : tlm_generic_payload) (delay : Z) :
  flash_ok s -> DATA_ADDR <= address trans < ADDR_SPACE -> data_length trans < 2 ^ 15 ->
  command trans <> TLM_IGNORE_COMMAND ->
  let pos := address trans - DATA_ADDR in
  let start := (block_start (target_block s) + Z.to_nat pos)%nat in
  (num_blocks s <= target_block s -> flash_transport trans delay s = (Fatal AssertFailed, s)) /\
  (target_block s < num_blocks s -> pos + data_length trans <= Z.of_nat BLOCKSIZE ->
   exists s' r, flash_transport trans delay s = (Ret (r, delay + data_length trans * US), s') /\
     flash_ok s' /\ same_regs s s' /\
     match command trans with
     | TLM_WRITE_COMMAND => r = trans /\ disk s' = list_inserts start (payload_data trans) (disk s)
     | _ => r = set_payload_data (take (length (payload_data trans)) (drop start (disk s))) trans /\ disk s' = disk s
     end) /\
  (target_block s < num_blocks s -> Z.of_nat BLOCKSIZE < pos + data_length trans ->
   exists s', flash_transport trans delay s = (Fatal UndefinedBehaviour, s')) /\
  (exists s', clear s = (Ret tt, s') /\ dev_bytes s' = disk s).
Proof.
  intros Hok Ha Hl Hc pos start. pose proof (data_length_nonneg trans) as Hl0.
  assert (Ht0 : 0 <= target_block s) by (apply (to_type_in uint64_t)).
  rewrite (data_access s trans delay Hok Ha). fold pos. split; [| split; [| split; [| by apply clear_ok]]].
  - intros Hb. assert ((target_block s <? num_blocks s) = false) as -> by lia. done.
  - intros Hb Hfit. assert ((target_block s <? num_blocks s) = true) as -> by lia.
    destruct (setPos_ok (target_block s) s Hok (conj Ht0 Hb)) as (s1 & Hs1 & Hr1 & Hp1 & Hd1).
    unfold mbind at 1, M_bind at 1. cbn [assert skip mret M_ret]. unfold mbind at 1, M_bind at 1. rewrite Hs1.
    unfold data_length in *. destruct (command trans); [| | done].
    + exists s1. eexists. unfold mbind, M_bind. rewrite (getData_ok (target_block s)) by (done || lia).
      split; [reflexivity |]. split; [apply Hp1 |]. split; [done |]. by rewrite Hd1.
    + destruct (setData_ok (target_block s) (payload_data trans) pos s1 Hp1 ltac:(lia) ltac:(lia)) as (s2 & Hs2 & Hr2 & Hp2 & Hd2).
      exists s2. eexists. unfold mbind, M_bind. rewrite Hs2. split; [reflexivity |]. split; [apply Hp2 |].
      split; [by eapply same_regs_trans |]. by rewrite Hd2, Hd1.
  - intros Hb Hover. assert ((target_block s <? num_blocks s) = true) as -> by lia.
    destruct (setPos_ok (target_block s) s Hok (conj Ht0 Hb)) as (s1 & Hs1 & Hr1 & Hp1 & Hd1).
    exists s1. unfold mbind at 1, M_bind at 1. cbn [assert skip mret M_ret]. unfold mbind at 1, M_bind at 1. rewrite Hs1.
    assert (Hchk : (Z.of_nat (length (buf (get_buffer s1))) <? uint16 pos + uint16 (data_length trans)) = true).
    { rewrite (flash_buf _ (pos_ok _ _ Hp1)). unfold uint16.
      rewrite !uint_id by (unfold is_uint, ADDR_SPACE, BLOCKSIZE in *; lia). lia. }
    destruct (command trans); [| | done]; unfold getData, setData, gets, mbind, M_bind; rewrite (pos_active _ _ Hp1), Hchk;
      reflexivity.
Qed.

End flash.

(** ** A bench

    A file of two blocks. *)
Record flash_bench : Type := mkFlashBench { fl_flash : Flashcontroller; fl_file : list Z; fl_pos : Z }.

#[export] Instance flash_bench_interface : flash_interface flash_bench unit := {
  get_flash := fl_flash;
  set_flash f s := mkFlashBench f (fl_file s) (fl_pos s);
  dev_lseek o s := (Ret o, mkFlashBench (fl_flash s) (fl_file s) o);
  dev_write src s := (Ret (Z.of_nat (length src)),
    mkFlashBench (fl_flash s) (list_inserts (Z.to_nat (fl_pos s)) src (fl_file s)) (fl_pos s + Z.of_nat (length src)));
  dev_read n s := (Ret (Some (take n (drop (Z.to_nat (fl_pos s)) (fl_file s)))),
    mkFlashBench (fl_flash s) (fl_file s) (fl_pos s + Z.of_nat n))
}.

#[export] Instance flash_bench_system : flash_system flash_bench unit.
Proof.
  refine {| dev_bytes := fl_file; dev_pos := fl_pos |}; intros; try done; by eexists.
Defined.

Definition flash_bench_start : flash_bench :=
  mkFlashBench (Flashcontroller_new 3 2) (replicate 512 1 ++ replicate 512 2) 0.

Lemma flash_bench_ok : flash_ok flash_bench_start.
Proof. constructor; done. Qed.

(** A write at the end of block 0, which reaches the file when it is cleared. *)
Lemma flash_disk_witness :
  let trans := mkPayload TLM_WRITE_COMMAND (DATA_ADDR + 510) [7; 8] TLM_OK_RESPONSE in
  exists s' s'', flash_transport trans 0 flash_bench_start = (Ret (trans, 2 * US), s') /\
    clear s' = (Ret tt, s'') /\
    dev_bytes s'' = replicate 510 1 ++ [7; 8] ++ replicate 512 2.
Proof.
  intros trans.
  assert (Ha : DATA_ADDR <= address trans < ADDR_SPACE) by (by vm_compute).
  assert (Hl : data_length trans < 2 ^ 15) by done.
  assert (Hb : target_block flash_bench_start < num_blocks flash_bench_start) by (by vm_compute).
  destruct (flash_disk (E := unit) flash_bench_start trans 0 flash_bench_ok Ha Hl ltac:(done)) as (_ & Hw & _).
  destruct (Hw Hb ltac:(done)) as (s' & r & Hs & Hok & _ & -> & Hd). clear Hw.
  destruct (flash_disk (E := unit) s' trans 0 Hok Ha Hl ltac:(done)) as (_ & _ & _ & s'' & Hc & Hf).
  exists s', s''. split; [exact Hs |]. split; [exact Hc |]. rewrite Hf, Hd. by vm_compute.
Defined.
