(* ===== verification/Ethernet.v ===== *)
(** * The Ethernet device

    Models platform/basic/ethernet.h and ethernet.cpp: the registers on the local
    router, the frames that are sent from the memory of the platform and copied
    into it, and the thread that polls the network.  The TAP device of the host,
    the kernel's event, the memory the device is given and the interrupt
    controller are the class [ethernet_interface]; the printed dumps of the frames
    are left out. *)

From S2P Require Import Prelude Memory MemoryMap TlmMap Flash.

Definition MTU_SIZE : Z := 1500.
Definition FRAME_SIZE : Z := MTU_SIZE + 14.
Definition ETH_ALEN : nat := 6.
Definition ETH_P_IP : Z := 0x0800.
Definition ETH_P_ARP : Z := 0x0806.
Definition BROADCAST_MAC_ADDRESS : list Z := [0xff; 0xff; 0xff; 0xff; 0xff; 0xff].

Record EthernetDevice : Type := mkEthernet {
  status : Z;
  receive_size : Z;
  receive_dst : Z;
  send_src : Z;
  send_size : Z;
  mac : Z * Z;
  recv_frame_buf : list Z;
  has_frame : bool;
  disabled : bool
}.

(** The constructor.  [has_frame] and [mac] are not initialised: they are what the
    memory held, until init_network, with a TAP device, copies the six bytes of
    its address into [mac]. *)
Definition EthernetDevice_new (has_frame : bool) (mac : Z * Z) (disabled : bool) : EthernetDevice :=
  mkEthernet 0 0 0 0 0 mac (replicate (Z.to_nat FRAME_SIZE) 0) has_frame disabled.

Definition STATUS_REG_ADDR : Z := 0x00.
Definition RECEIVE_SIZE_REG_ADDR : Z := STATUS_REG_ADDR + 4.
Definition RECEIVE_DST_REG_ADDR : Z := RECEIVE_SIZE_REG_ADDR + 4.
Definition SEND_SRC_REG_ADDR : Z := RECEIVE_DST_REG_ADDR + 4.
Definition SEND_SIZE_REG_ADDR : Z := SEND_SRC_REG_ADDR + 4.
Definition MAC_HIGH_REG_ADDR : Z := SEND_SIZE_REG_ADDR + 4.
Definition MAC_LOW_REG_ADDR : Z := MAC_HIGH_REG_ADDR + 4.

Definition RECV_OPERATION : Z := 1.
Definition SEND_OPERATION : Z := 2.

Inductive eth_reg : Type :=
  | StatusReg | ReceiveSizeReg | ReceiveDstReg | SendSrcReg | SendSizeReg | MacHighReg | MacLowReg.

#[export] Instance eth_reg_eq_dec : EqDecision eth_reg.
Proof. solve_decision. Defined.

Definition load_eth_reg (r : eth_reg) (d : EthernetDevice) : Z :=
  match r with
  | StatusReg => status d
  | ReceiveSizeReg => receive_size d
  | ReceiveDstReg => receive_dst d
  | SendSrcReg => send_src d
  | SendSizeReg => send_size d
  | MacHighReg => fst (mac d)
  | MacLowReg => snd (mac d)
  end.

Definition store_eth_reg (r : eth_reg) (v : Z) (d : EthernetDevice) : EthernetDevice :=
  let '(mkEthernet st rs rd ss sz m b h x) := d in
  match r with
  | StatusReg => mkEthernet v rs rd ss sz m b h x
  | ReceiveSizeReg => mkEthernet st v rd ss sz m b h x
  | ReceiveDstReg => mkEthernet st rs v ss sz m b h x
  | SendSrcReg => mkEthernet st rs rd v sz m b h x
  | SendSizeReg => mkEthernet st rs rd ss v m b h x
  | MacHighReg => mkEthernet st rs rd ss sz (v, snd m) b h x
  | MacLowReg => mkEthernet st rs rd ss sz (fst m, v) b h x
  end.

Definition set_has_frame (h : bool) (d : EthernetDevice) : EthernetDevice :=
  let '(mkEthernet st rs rd ss sz m b _ x) := d in mkEthernet st rs rd ss sz m b h x.
Definition set_recv_frame_buf (b : list Z) (d : EthernetDevice) : EthernetDevice :=
  let '(mkEthernet st rs rd ss sz m _ h x) := d in mkEthernet st rs rd ss sz m b h x.

(** The six bytes at [mac]. *)
Definition VIRTUAL_MAC_ADDRESS (d : EthernetDevice) : list Z :=
  take ETH_ALEN (to_bytes uint32_t (fst (mac d)) ++ to_bytes uint32_t (snd (mac d))).

(** What a read of the socket gives: bytes, or an error with its [errno]. *)
Inductive read_answer : Type := ReadBytes (data : list Z) | ReadWouldBlock | ReadFailed.

Class ethernet_interface (S E : Type) : Type := {
  get_eth : S -> EthernetDevice;
  set_eth : EthernetDevice -> S -> S;
  eth_memory : S -> list Z;
  set_eth_memory : list Z -> S -> S;
  eth_irq_number : Z;
  sock_read : nat -> M S E read_answer;
  sock_write : list Z -> M S E Z;
  eth_run_notify : Z -> M S E unit;
  eth_wait : M S E unit;
  eth_gateway_trigger : Z -> M S E unit
}.

(** ** Frames *)

(** The fields of the Ethernet and of the ARP header. *)
Definition ether_dhost (packet : list Z) : list Z := take ETH_ALEN packet.
Definition ether_shost (packet : list Z) : list Z := take ETH_ALEN (drop 6 packet).
Definition ether_type (packet : list Z) : Z := nth 12 packet 0 * 256 + nth 13 packet 0.
Definition arp_target_mac (packet : list Z) : list Z := take ETH_ALEN (drop (14 + 18) packet).

(** It looks at the buffer, not at the size of what was received. *)
Definition isPacketForUs (own packet : list Z) : bool :=
  let virtual_match := bool_decide (ether_dhost packet = own) in
  let broadcast_match := bool_decide (ether_dhost packet = BROADCAST_MAC_ADDRESS) in
  let own_packet := bool_decide (ether_shost packet = own) in
  if negb virtual_match && negb (broadcast_match && negb own_packet) then false
  else if negb (ether_type packet =? ETH_P_IP) then
    if negb (ether_type packet =? ETH_P_ARP) then false
    else if negb (bool_decide (arp_target_mac packet = own)) then true else true
  else true.

Section ethernet.
Context {S E : Type} `{ethernet_interface S E}.

Abbreviation R := (M S E).

Definition update_eth (f : EthernetDevice -> EthernetDevice) : R unit :=
  modify (fun s => set_eth (f (get_eth s)) s).

#[export] Instance ethernet_registers : register_file S eth_reg := {
  load_reg r s := load_eth_reg r (get_eth s);
  store_reg r v s := set_eth (store_eth_reg r v (get_eth s)) s
}.

(** The index into [mem] of an address of the guest, in 32 bits; nothing checks
    that the bytes lie within the memory. *)
Definition mem_index (addr : Z) : nat := Z.to_nat (uint32 (addr - 0x80000000)).

Definition eth_mem_read (addr n : Z) : R (list Z) :=
  mem ← gets eth_memory;
  if (length mem <? mem_index addr + Z.to_nat n)%nat then fatal UndefinedBehaviour
  else mret (take (Z.to_nat n) (drop (mem_index addr) mem)).

Definition eth_mem_write (addr : Z) (data : list Z) : R unit :=
  mem ← gets eth_memory;
  if (length mem <? mem_index addr + length data)%nat then fatal UndefinedBehaviour
  else modify (set_eth_memory (list_inserts (mem_index addr) data mem)).

Definition send_raw_frame : R unit :=
  d ← gets get_eth;
  data ← eth_mem_read (send_src d) (send_size d);
  let sendbuf := data ++ replicate (Z.to_nat (60 - send_size d)) 0 in
  when (send_size d <? 60) (update_eth (store_eth_reg SendSizeReg 60)) ;;
  d ← gets get_eth;
  assert (bool_decide (ether_shost sendbuf = VIRTUAL_MAC_ADDRESS d)) ;;
  ans ← sock_write sendbuf;
  d ← gets get_eth;
  assert (ans =? send_size d).

(** True when the loop of [run] is over: a frame is in the buffer, or none waits. *)
Definition try_recv_raw_frame : R bool :=
  r ← sock_read (Z.to_nat FRAME_SIZE);
  match r with
  | ReadBytes data =>
      update_eth (fun d => set_recv_frame_buf (list_inserts 0 data (recv_frame_buf d)) d) ;;
      assert (Z.of_nat (length data) <=? FRAME_SIZE) ;;
      if (length data =? 0)%nat then fatal RuntimeError
      else
        d ← gets get_eth;
        if negb (isPacketForUs (VIRTUAL_MAC_ADDRESS d) (recv_frame_buf d)) then mret false
        else
          update_eth (set_has_frame true) ;;
          update_eth (store_eth_reg ReceiveSizeReg (Z.of_nat (length data))) ;;
          mret true
  | ReadWouldBlock => mret true
  | ReadFailed => fatal RuntimeError
  end.

(** The RECV operation: the size is the register, which the guest can write. *)
Definition recv_operation : R unit :=
  d ← gets get_eth;
  assert (has_frame d) ;;
  if (length (recv_frame_buf d) <? Z.to_nat (receive_size d))%nat then fatal UndefinedBehaviour
  else
    eth_mem_write (receive_dst d) (take (Z.to_nat (receive_size d)) (recv_frame_buf d)) ;;
    update_eth (set_has_frame false) ;;
    update_eth (store_eth_reg ReceiveSizeReg 0).

Definition ethernet_register_access : handler_t S eth_reg E := fun r =>
  d ← gets get_eth;
  assert (negb (disabled d)) ;;
  data ← access_fn r;
  when (access_write r && bool_decide (access_vptr r = StatusReg))
    (if access_nv r =? RECV_OPERATION then recv_operation
     else if access_nv r =? SEND_OPERATION then send_raw_frame
     else fatal RuntimeError) ;;
  mret data.

Definition eth_bank : list (reg_mapping_t eth_reg) :=
  [register STATUS_REG_ADDR StatusReg; register RECEIVE_SIZE_REG_ADDR ReceiveSizeReg;
   register RECEIVE_DST_REG_ADDR ReceiveDstReg; register SEND_SRC_REG_ADDR SendSrcReg;
   register SEND_SIZE_REG_ADDR SendSizeReg; register MAC_HIGH_REG_ADDR MacHighReg;
   register MAC_LOW_REG_ADDR MacLowReg].

Definition ethernet_transport : transport_fn S E :=
  router_transport [RegisterMapping eth_bank (Some ethernet_register_access)].

(** [while (!try_recv_raw_frame());]: [fuel] bounds the frames that are dropped. *)
Fixpoint recv_loop (fuel : nat) : R unit :=
  match fuel with
  | O => fatal Blocked
  | Datatypes.S fuel =>
      r ← try_recv_raw_frame; if negb r then recv_loop fuel else skip
  end.

(** What [run] does when the event has come. *)
Definition eth_poll (fuel : nat) : R unit :=
  d ← gets get_eth;
  when (negb (has_frame d))
    (recv_loop fuel ;;
     d ← gets get_eth;
     when (has_frame d) (eth_gateway_trigger eth_irq_number)).

(** The body of the loop of [run]. *)
Definition eth_run (fuel : nat) : R unit :=
  eth_run_notify (10000 * US) ;; eth_wait ;; eth_poll fuel.

End ethernet.

(** ** The environment *)

(** What the theorems use of the host and of the platform: the registers and the
    memory are states; a read of the socket gives the first frame that waits, or
    says that none does; a write puts a frame on the wire. *)
Class ethernet_system (S E : Type) `{ethernet_interface S E} : Type := {
  eth_ready : S -> Prop;
  eth_queue : S -> list (list Z);
  eth_wire : S -> list (list Z);
  set_eth_ok d s : eth_ready s -> eth_ready (set_eth d s) /\ get_eth (set_eth d s) = d /\
    eth_memory (set_eth d s) = eth_memory s /\ eth_queue (set_eth d s) = eth_queue s /\
    eth_wire (set_eth d s) = eth_wire s;
  set_eth_memory_ok m s : eth_ready s -> eth_ready (set_eth_memory m s) /\
    get_eth (set_eth_memory m s) = get_eth s /\ eth_memory (set_eth_memory m s) = m /\
    eth_queue (set_eth_memory m s) = eth_queue s /\ eth_wire (set_eth_memory m s) = eth_wire s;
  sock_read_none n s : eth_ready s -> eth_queue s = [] -> sock_read n s = (Ret ReadWouldBlock, s);
  sock_read_frame n b q s : eth_ready s -> eth_queue s = b :: q -> b <> [] -> (length b <= n)%nat ->
    exists s', sock_read n s = (Ret (ReadBytes b), s') /\ eth_ready s' /\ get_eth s' = get_eth s /\
      eth_memory s' = eth_memory s /\ eth_queue s' = q /\ eth_wire s' = eth_wire s;
  sock_write_ok b s : eth_ready s ->
    exists s', sock_write b s = (Ret (Z.of_nat (length b)), s') /\ eth_ready s' /\ get_eth s' = get_eth s /\
      eth_memory s' = eth_memory s /\ eth_queue s' = eth_queue s /\ eth_wire s' = eth_wire s ++ [b]
}.

(** ** Which frames are taken *)

(** A frame with a header that fits the buffer. *)
Definition is_frame (f : list Z) : Prop := (14 <= length f)%nat /\ Z.of_nat (length f) <= FRAME_SIZE.

(** A frame for the station with the address [own]: for it, or for all and not from
    itself, and IP or ARP. *)
Definition for_us (own f : list Z) : Prop :=
  (ether_dhost f = own \/ ether_dhost f = BROADCAST_MAC_ADDRESS /\ ether_shost f <> own) /\
  (ether_type f = ETH_P_IP \/ ether_type f = ETH_P_ARP).

Lemma isPacketForUs_true own f : isPacketForUs own f = true <-> for_us own f.
Proof.
  unfold isPacketForUs, for_us.
  destruct (bool_decide_reflect (ether_dhost f = own)), (bool_decide_reflect (ether_dhost f = BROADCAST_MAC_ADDRESS)),
    (bool_decide_reflect (ether_shost f = own)), (bool_decide _);
    destruct (Z.eqb_spec (ether_type f) ETH_P_IP), (Z.eqb_spec (ether_type f) ETH_P_ARP); cbn [negb andb]; intuition congruence.
Qed.

(** The header of a frame in the buffer is the frame's. *)
Lemma take_inserts (n : nat) (f b : list Z) : (n <= length f <= length b)%nat -> take n (list_inserts 0 f b) = take n f.
Proof.
  intros Hn. assert (Hf : take (length f) (list_inserts 0 f b) = f).
  { rewrite <- (drop_0 (list_inserts 0 f b)). apply take_drop_inserts. lia. }
  rewrite <- Hf at 2. by rewrite take_take, Nat.min_l by lia.
Qed.

Lemma header_fields (f g : list Z) : take 14 f = take 14 g ->
  ether_dhost f = ether_dhost g /\ ether_shost f = ether_shost g /\ ether_type f = ether_type g.
Proof.
  intros Hh. assert (Hn : forall i, (i < 14)%nat -> nth i f 0 = nth i g 0).
  { intros i Hi. rewrite !nth_lookup, <- (lookup_take_lt f 14 i Hi), <- (lookup_take_lt g 14 i Hi). by rewrite Hh. }
  assert (Htk : forall n, (n <= 14)%nat -> take n f = take n g).
  { intros n Hle. rewrite <- (Nat.min_l n 14 Hle), <- !take_take. by rewrite Hh. }
  unfold ether_dhost, ether_shost, ether_type, ETH_ALEN. rewrite !(take_drop_commute _ 6 6). simpl Nat.add.
  by rewrite !Htk, !Hn by lia.
Qed.

Lemma received_for_us own f b : is_frame f -> (length f <= length b)%nat ->
  (isPacketForUs own (list_inserts 0 f b) = true <-> for_us own f).
Proof.
  intros [Hl _] Hb. rewrite isPacketForUs_true. unfold for_us.
  by destruct (header_fields (list_inserts 0 f b) f (take_inserts 14 f b ltac:(lia))) as (-> & -> & ->).
Qed.

Section ethernet_props.
Context {S E : Type} `{Hsys : ethernet_system S E}.
#[local] Set Default Proof Using "Type Hsys".

(** A state of the device and of its surroundings. *)
Record eth_at (d : EthernetDevice) (m : list Z) (q w : list (list Z)) (s : S) : Prop := {
  ea_ready : eth_ready s;
  ea_device : get_eth s = d;
  ea_memory : eth_memory s = m;
  ea_queue : eth_queue s = q;
  ea_wire : eth_wire s = w
}.

Lemma update_at f d m q w (s : S) : eth_at d m q w s ->
  exists s', update_eth (E := E) f s = (Ret tt, s') /\ eth_at (f d) m q w s'.
Proof.
  intros [Hr Hd Hm Hq Hw]. unfold update_eth, modify.
  destruct (set_eth_ok (f (get_eth s)) s Hr) as (Hr' & Hd' & Hm' & Hq' & Hw').
  eexists. split; [reflexivity |]. rewrite Hd in *. constructor; congruence.
Qed.

Lemma eth_mem_read_at a n d m q w (s : S) : eth_at d m q w s -> (mem_index a + Z.to_nat n <= length m)%nat ->
  eth_mem_read a n s = (Ret (take (Z.to_nat n) (drop (mem_index a) m)), s).
Proof.
  intros [Hr Hd Hm Hq Hw] Hl. unfold eth_mem_read, gets, mbind, M_bind. rewrite Hm.
  by assert ((length m <? mem_index a + Z.to_nat n)%nat = false) as -> by (apply Nat.ltb_ge; lia).
Qed.

Lemma eth_mem_write_at a b d m q w (s : S) : eth_at d m q w s -> (mem_index a + length b <= length m)%nat ->
  exists s', eth_mem_write a b s = (Ret tt, s') /\ eth_at d (list_inserts (mem_index a) b m) q w s'.
Proof.
  intros [Hr Hd Hm Hq Hw] Hl. unfold eth_mem_write, gets, mbind, M_bind, modify. rewrite Hm.
  assert ((length m <? mem_index a + length b)%nat = false) as -> by (apply Nat.ltb_ge; lia).
  destruct (set_eth_memory_ok (list_inserts (mem_index a) b m) s Hr) as (Hr' & Hd' & Hm' & Hq' & Hw').
  eexists. split; [reflexivity |]. constructor; congruence.
Qed.

(** ** Sending *)

(** The frame that the registers describe, padded to 60 bytes. *)
Definition frame_of (d : EthernetDevice) (m : list Z) : list Z :=
  take (Z.to_nat (send_size d)) (drop (mem_index (send_src d)) m) ++ replicate (Z.to_nat (60 - send_size d)) 0.

Lemma length_frame_of d m : 0 <= send_size d -> (mem_index (send_src d) + Z.to_nat (send_size d) <= length m)%nat ->
  Z.of_nat (length (frame_of d m)) = Z.max 60 (send_size d).
Proof using Type.
  intros Hn Hl. unfold frame_of. rewrite length_app, length_take, length_drop, length_replicate. lia.
Qed.

Definition padded (d : EthernetDevice) : EthernetDevice :=
  if send_size d <? 60 then store_eth_reg SendSizeReg 60 d else d.

Lemma padded_fields d : send_size (padded d) = Z.max 60 (send_size d) /\
  VIRTUAL_MAC_ADDRESS (padded d) = VIRTUAL_MAC_ADDRESS d.
Proof using Type. unfold padded. destruct (Z.ltb_spec (send_size d) 60); destruct d; simpl in *; split; (done || lia). Qed.

Lemma send_at d m q w (s : S) : eth_at d m q w s -> 0 <= send_size d ->
  (mem_index (send_src d) + Z.to_nat (send_size d) <= length m)%nat ->
  ether_shost (frame_of d m) = VIRTUAL_MAC_ADDRESS d ->
  exists s', send_raw_frame (E := E) s = (Ret tt, s') /\ eth_at (padded d) m q (w ++ [frame_of d m]) s'.
Proof.
  intros Hat Hn Hl Hmac. unfold send_raw_frame, gets. unfold mbind at 1, M_bind at 1. rewrite (ea_device _ _ _ _ _ Hat).
  unfold mbind at 1, M_bind at 1. rewrite (eth_mem_read_at _ _ _ _ _ _ _ Hat Hl). fold (frame_of d m).
  assert (exists s1, when (send_size d <? 60) (update_eth (E := E) (store_eth_reg SendSizeReg 60)) s = (Ret tt, s1) /\
    eth_at (padded d) m q w s1) as (s1 & Hs1 & Hat1).
  { unfold padded. destruct (send_size d <? 60); cbn [when]; [by apply update_at | by exists s]. }
  unfold mbind at 1, M_bind at 1. rewrite Hs1. unfold mbind at 1, M_bind at 1.
  destruct (padded_fields d) as [Hsz Hpm].
  rewrite (ea_device _ _ _ _ _ Hat1), Hpm, bool_decide_true by done. cbn [assert]. unfold mbind at 1, M_bind at 1.
  cbn [skip mret M_ret]. destruct Hat1 as [Hr1 Hd1 Hm1 Hq1 Hw1].
  destruct (sock_write_ok (frame_of d m) s1 Hr1) as (s2 & Hs2 & Hr2 & Hd2 & Hm2 & Hq2 & Hw2).
  exists s2. split; [| constructor; congruence].
  unfold mbind, M_bind. rewrite Hs2, Hd2, Hd1, Hsz, length_frame_of by done.
  by rewrite Z.eqb_refl.
Qed.


(** ** Receiving *)

Definition received (f : list Z) (d : EthernetDevice) : EthernetDevice :=
  store_eth_reg ReceiveSizeReg (Z.of_nat (length f))
    (set_has_frame true (set_recv_frame_buf (list_inserts 0 f (recv_frame_buf d)) d)).

Definition overwritten (f : list Z) (d : EthernetDevice) : EthernetDevice :=
  set_recv_frame_buf (list_inserts 0 f (recv_frame_buf d)) d.

Lemma overwritten_fields f d : length (recv_frame_buf (overwritten f d)) = length (recv_frame_buf d) /\
  has_frame (overwritten f d) = has_frame d /\ VIRTUAL_MAC_ADDRESS (overwritten f d) = VIRTUAL_MAC_ADDRESS d /\
  recv_frame_buf (overwritten f d) = list_inserts 0 f (recv_frame_buf d).
Proof using Type. destruct d; simpl. by rewrite length_inserts. Qed.

Lemma try_recv_at d m f q w (s : S) : eth_at d m (f :: q) w s -> is_frame f ->
  Z.of_nat (length (recv_frame_buf d)) = FRAME_SIZE ->
  exists s', try_recv_raw_frame (E := E) s =
      (Ret (isPacketForUs (VIRTUAL_MAC_ADDRESS d) (list_inserts 0 f (recv_frame_buf d))), s') /\
    eth_at (if isPacketForUs (VIRTUAL_MAC_ADDRESS d) (list_inserts 0 f (recv_frame_buf d)) then received f d
            else overwritten f d) m q w s'.
Proof.
  intros [Hr Hd Hm Hq Hw] [Hf1 Hf2] Hb. unfold try_recv_raw_frame.
  destruct (sock_read_frame (Z.to_nat FRAME_SIZE) f q s Hr Hq ltac:(by destruct f; [simpl in Hf1; lia |]) ltac:(lia))
    as (s1 & Hs1 & Hr1 & Hd1 & Hm1 & Hq1 & Hw1).
  unfold mbind at 1, M_bind at 1. rewrite Hs1.
  assert (Hat1 : eth_at d m q w s1) by (constructor; congruence).
  destruct (update_at (fun d => set_recv_frame_buf (list_inserts 0 f (recv_frame_buf d)) d) _ _ _ _ _ Hat1) as (s2 & Hs2 & Hat2).
  unfold mbind at 1, M_bind at 1. rewrite Hs2. fold (overwritten f d) in Hat2.
  assert ((Z.of_nat (length f) <=? FRAME_SIZE) = true) as -> by lia.
  assert ((length f =? 0)%nat = false) as -> by (apply Nat.eqb_neq; lia).
  cbn [assert]. unfold mbind at 1, M_bind at 1. cbn [skip mret M_ret]. unfold gets. unfold mbind at 1, M_bind at 1.
  rewrite (ea_device _ _ _ _ _ Hat2). destruct (overwritten_fields f d) as (_ & _ & -> & ->).
  destruct (isPacketForUs _ _); cbn [negb]; [| by exists s2].
  destruct (update_at (set_has_frame true) _ _ _ _ _ Hat2) as (s3 & Hs3 & Hat3).
  destruct (update_at (store_eth_reg ReceiveSizeReg (Z.of_nat (length f))) _ _ _ _ _ Hat3) as (s4 & Hs4 & Hat4).
  exists s4. split; [| exact Hat4]. unfold mbind, M_bind. rewrite Hs3. cbv beta iota. by rewrite Hs4.
Qed.

(** The frames before the first that is for us are dropped. *)
Lemma recv_loop_at m w dropped : forall fuel d rest (s : S), eth_at d m (dropped ++ rest) w s ->
  Z.of_nat (length (recv_frame_buf d)) = FRAME_SIZE -> (length dropped < fuel)%nat ->
  Forall (fun f => is_frame f /\ ~ for_us (VIRTUAL_MAC_ADDRESS d) f) dropped ->
  match rest with [] => True | f :: _ => is_frame f /\ for_us (VIRTUAL_MAC_ADDRESS d) f end ->
  exists b s', length b = length (recv_frame_buf d) /\ recv_loop (E := E) fuel s = (Ret tt, s') /\
    match rest with
    | [] => eth_at (set_recv_frame_buf b d) m [] w s'
    | f :: rest => eth_at (received f (set_recv_frame_buf b d)) m rest w s'
    end.
Proof.
  induction dropped as [|f dropped IH]; intros [|fuel] d rest s Hat Hb Hfuel Hdrop Hrest; try (simpl in Hfuel; lia).
  - cbn [app] in Hat. cbn [recv_loop]. exists (recv_frame_buf d).
    assert (Hid : set_recv_frame_buf (recv_frame_buf d) d = d) by (by destruct d). rewrite Hid.
    destruct rest as [|f rest].
    + exists s. split; [done |]. split; [| done]. unfold try_recv_raw_frame, mbind, M_bind.
      by rewrite (sock_read_none _ _ (ea_ready _ _ _ _ _ Hat) (ea_queue _ _ _ _ _ Hat)).
    + destruct Hrest as [Hf Hus]. destruct (try_recv_at _ _ _ _ _ _ Hat Hf Hb) as (s' & Hs & Hat').
      rewrite (proj2 (received_for_us (VIRTUAL_MAC_ADDRESS d) f (recv_frame_buf d) Hf ltac:(destruct Hf; lia)) Hus) in Hs, Hat'.
      exists s'. split; [done |]. split; [| done]. unfold mbind, M_bind. by rewrite Hs.
  - apply Forall_cons in Hdrop as [[Hf Hus] Hdrop]. cbn [recv_loop app] in *.
    destruct (try_recv_at _ _ _ _ _ _ Hat Hf Hb) as (s1 & Hs1 & Hat1).
    pose proof (received_for_us (VIRTUAL_MAC_ADDRESS d) f (recv_frame_buf d) Hf ltac:(destruct Hf; lia)) as Hiff.
    destruct (isPacketForUs _ _); [by destruct Hus; apply Hiff |].
    destruct (overwritten_fields f d) as (Hl & _ & Hmac & _).
    destruct (IH fuel (overwritten f d) rest s1 Hat1) as (b & s2 & Hbl & Hs2 & Hat2);
      rewrite ?Hl, ?Hmac; try done; [simpl in Hfuel; lia |].
    exists b, s2. rewrite <- Hl. split; [done |].
    assert (Hid : set_recv_frame_buf b (overwritten f d) = set_recv_frame_buf b d) by (by destruct d).
    rewrite Hid in Hat2. split; [| done]. unfold mbind, M_bind. by rewrite Hs1.
Qed.

(** The poll: the interrupt comes with a frame, and only then. *)
Lemma eth_poll_at fuel d m dropped rest w (s : S) : eth_at d m (dropped ++ rest) w s ->
  Z.of_nat (length (recv_frame_buf d)) = FRAME_SIZE -> has_frame d = false -> (length dropped < fuel)%nat ->
  Forall (fun f => is_frame f /\ ~ for_us (VIRTUAL_MAC_ADDRESS d) f) dropped ->
  match rest with [] => True | f :: _ => is_frame f /\ for_us (VIRTUAL_MAC_ADDRESS d) f end ->
  exists b s', length b = length (recv_frame_buf d) /\
    match rest with
    | [] => eth_poll (E := E) fuel s = (Ret tt, s') /\ eth_at (set_recv_frame_buf b d) m [] w s'
    | f :: rest => eth_poll fuel s = eth_gateway_trigger eth_irq_number s' /\
        eth_at (received f (set_recv_frame_buf b d)) m rest w s'
    end.
Proof.
  intros Hat Hb Hh Hfuel Hdrop Hrest.
  destruct (recv_loop_at m w dropped fuel d rest s Hat Hb Hfuel Hdrop Hrest) as (b & s' & Hbl & Hs' & Hat').
  exists b, s'. split; [done |].
  assert (Hpoll : eth_poll (E := E) fuel s = when (has_frame (get_eth s')) (eth_gateway_trigger eth_irq_number) s').
  { unfold eth_poll, gets, mbind, M_bind. rewrite (ea_device _ _ _ _ _ Hat), Hh. cbn [negb when]. by rewrite Hs'. }
  rewrite Hpoll. destruct rest as [|f rest]; (split; [| done]); rewrite (ea_device _ _ _ _ _ Hat'); by destruct d; simpl in *; subst.
Qed.

Definition drained (d : EthernetDevice) : EthernetDevice := store_eth_reg ReceiveSizeReg 0 (set_has_frame false d).

Lemma recv_at d m f q w (s : S) : eth_at d m q w s -> has_frame d = true -> receive_size d = Z.of_nat (length f) ->
  take (length f) (recv_frame_buf d) = f -> (mem_index (receive_dst d) + length f <= length m)%nat ->
  exists s', recv_operation (E := E) s = (Ret tt, s') /\
    eth_at (drained d) (list_inserts (mem_index (receive_dst d)) f m) q w s'.
Proof.
  intros Hat Hh Hsz Hf Hl. unfold recv_operation, gets. unfold mbind at 1, M_bind at 1.
  rewrite (ea_device _ _ _ _ _ Hat), Hh. cbn [assert]. unfold mbind at 1, M_bind at 1. cbn [skip mret M_ret].
  rewrite Hsz, Nat2Z.id, Hf.
  assert ((length (recv_frame_buf d) <? length f)%nat = false) as ->.
  { apply Nat.ltb_ge. rewrite <- Hf at 1. rewrite length_take. lia. }
  destruct (eth_mem_write_at (receive_dst d) f _ _ _ _ _ Hat Hl) as (s1 & Hs1 & Hat1).
  destruct (update_at (set_has_frame false) _ _ _ _ _ Hat1) as (s2 & Hs2 & Hat2).
  destruct (update_at (store_eth_reg ReceiveSizeReg 0) _ _ _ _ _ Hat2) as (s3 & Hs3 & Hat3).
  exists s3. split; [| exact Hat3]. unfold mbind, M_bind. rewrite Hs1. cbv beta iota. by rewrite Hs2.
Qed.

(** ** The status register *)

(** A write of the operation [op] to the status register. *)
Definition is_operation (op : Z) (trans : tlm_generic_payload) : Prop :=
  command trans = TLM_WRITE_COMMAND /\ address trans = STATUS_REG_ADDR /\ data_length trans = 4 /\
  from_bytes uint32_t (payload_data trans) = op.

Definition eth_operation (op : Z) : M S E unit :=
  if op =? RECV_OPERATION then recv_operation
  else if op =? SEND_OPERATION then send_raw_frame
  else fatal RuntimeError.

Lemma operation_at op trans delay d m q w (s : S) : eth_at d m q w s -> disabled d = false -> is_operation op trans ->
  exists s1, eth_at (store_eth_reg StatusReg op d) m q w s1 /\
    ethernet_transport trans delay s = (eth_operation op ;; mret (trans, delay)) s1.
Proof.
  intros Hat Hd (Hc & Ha & Hl & Hop). unfold ethernet_transport.
  rewrite (bank_access _ _ _ _ STATUS_REG_ADDR StatusReg) by (done || by rewrite Hc).
  rewrite Hc. cbn [is_read is_write]. rewrite Hop.
  destruct (update_at (store_eth_reg StatusReg op) _ _ _ _ _ Hat) as (s1 & Hs1 & Hat1).
  exists s1. split; [done |]. unfold ethernet_register_access, gets. cbn [access_write access_vptr access_nv access_fn andb].
  rewrite bool_decide_true by done. cbn [when]. fold (eth_operation op).
  pose proof (register_fn_whole (E := E) StatusReg STATUS_REG_ADDR trans s ltac:(by rewrite Ha) Hl) as Hfn.
  rewrite Hc, Hop in Hfn. cbn [store_reg ethernet_registers] in Hfn.
  injection Hs1 as Hs1. rewrite Hs1 in Hfn.
  unfold mbind, M_bind. rewrite (ea_device _ _ _ _ _ Hat), Hd. cbn [negb assert skip mret M_ret]. rewrite Hfn.
  destruct (eth_operation op s1) as [[[]|e|x] s2]; [| done | done]. cbn [mret M_ret]. by rewrite set_payload_data_same.
Qed.

Lemma store_status_fields op d : let d' := store_eth_reg StatusReg op d in
  send_size d' = send_size d /\ send_src d' = send_src d /\ VIRTUAL_MAC_ADDRESS d' = VIRTUAL_MAC_ADDRESS d /\
  has_frame d' = has_frame d /\ receive_size d' = receive_size d /\ receive_dst d' = receive_dst d /\
  recv_frame_buf d' = recv_frame_buf d.
Proof using Type. by destruct d. Qed.

(** The SEND operation puts the frame on the wire. *)
Lemma send_operation_at trans delay d m q w (s : S) : eth_at d m q w s -> disabled d = false ->
  is_operation SEND_OPERATION trans -> 0 <= send_size d ->
  (mem_index (send_src d) + Z.to_nat (send_size d) <= length m)%nat ->
  ether_shost (frame_of d m) = VIRTUAL_MAC_ADDRESS d ->
  exists d' s', ethernet_transport (E := E) trans delay s = (Ret (trans, delay), s') /\
    eth_at d' m q (w ++ [frame_of d m]) s'.
Proof.
  intros Hat Hd Hop Hn Hl Hmac. destruct (operation_at _ trans delay _ _ _ _ _ Hat Hd Hop) as (s1 & Hat1 & Ht).
  destruct (store_status_fields SEND_OPERATION d) as (Hsz & Hsrc & Hm & _).
  assert (Hf : frame_of (store_eth_reg StatusReg SEND_OPERATION d) m = frame_of d m) by (unfold frame_of; congruence).
  destruct (send_at _ _ _ _ s1 Hat1) as (s2 & Hs2 & Hat2); [by rewrite Hsz | by rewrite Hsz, Hsrc | by rewrite Hf, Hm |].
  rewrite Hf in Hat2. eexists _, s2. split; [| exact Hat2]. rewrite Ht. unfold mbind, M_bind. change (eth_operation SEND_OPERATION) with (send_raw_frame (S := S) (E := E)).
  by rewrite Hs2.
Qed.

(** The RECV operation copies the frame to the memory. *)
Lemma recv_operation_at trans delay d m f q w (s : S) : eth_at d m q w s -> disabled d = false ->
  is_operation RECV_OPERATION trans -> has_frame d = true -> receive_size d = Z.of_nat (length f) ->
  take (length f) (recv_frame_buf d) = f -> (mem_index (receive_dst d) + length f <= length m)%nat ->
  exists s', ethernet_transport (E := E) trans delay s = (Ret (trans, delay), s') /\
    eth_at (drained (store_eth_reg StatusReg RECV_OPERATION d)) (list_inserts (mem_index (receive_dst d)) f m) q w s'.
Proof.
  intros Hat Hd Hop Hh Hsz Hf Hl. destruct (operation_at _ trans delay _ _ _ _ _ Hat Hd Hop) as (s1 & Hat1 & Ht).
  destruct (store_status_fields RECV_OPERATION d) as (_ & _ & _ & Hh' & Hsz' & Hdst & Hbuf).
  destruct (recv_at _ _ f _ _ s1 Hat1) as (s2 & Hs2 & Hat2); [by rewrite Hh' | by rewrite Hsz' | by rewrite Hbuf | by rewrite Hdst |].
  rewrite Hdst in Hat2. exists s2. split; [| exact Hat2]. rewrite Ht. unfold mbind, M_bind.
  change (eth_operation RECV_OPERATION) with (recv_operation (S := S) (E := E)). by rewrite Hs2.
Qed.

(** C31: a frame sent by one station arrives in the memory of another.  Let the
    guest of the first write SEND to the status register, with the source address
    of the frame its own: the frame its registers describe, padded with zeros to
    60 bytes, is put on the wire.  When that frame waits at the second station, the
    first of those there that are for it, a poll ends and triggers the interrupt
    once: the frames before it are gone, those behind it still wait, and the size
    is the frame's.  If the guest then gives the destination [a] and writes RECV,
    the bytes of the frame, and no others, are written there, and the device takes
    frames again.  A poll that finds no frame for the station triggers nothing. *)
Theorem ethernet_delivery (s1 s2 : S) trans delay fuel dropped rest :
  let d1 := get_eth s1 in let d2 := get_eth s2 in let f := frame_of d1 (eth_memory s1) in
  eth_ready s1 -> disabled d1 = false -> is_operation SEND_OPERATION trans -> 0 <= send_size d1 <= FRAME_SIZE ->
  (mem_index (send_src d1) + Z.to_nat (send_size d1) <= length (eth_memory s1))%nat ->
  ether_shost f = VIRTUAL_MAC_ADDRESS d1 ->
  eth_ready s2 -> disabled d2 = false -> has_frame d2 = false -> Z.of_nat (length (recv_frame_buf d2)) = FRAME_SIZE ->
  Forall (fun g => is_frame g /\ ~ for_us (VIRTUAL_MAC_ADDRESS d2) g) dropped -> for_us (VIRTUAL_MAC_ADDRESS d2) f ->
  (length dropped < fuel)%nat ->
  (exists s1', ethernet_transport trans delay s1 = (Ret (trans, delay), s1') /\
     eth_wire s1' = eth_wire s1 ++ [f] /\ eth_memory s1' = eth_memory s1) /\
  (eth_queue s2 = dropped ++ f :: rest ->
   exists s2', eth_poll fuel s2 = eth_gateway_trigger eth_irq_number s2' /\
     eth_queue s2' = rest /\ receive_size (get_eth s2') = Z.of_nat (length f) /\ eth_memory s2' = eth_memory s2 /\
     forall s3 a rtrans, eth_ready s3 -> get_eth s3 = store_eth_reg ReceiveDstReg a (get_eth s2') ->
       is_operation RECV_OPERATION rtrans -> (mem_index a + length f <= length (eth_memory s3))%nat ->
       exists s3', ethernet_transport rtrans delay s3 = (Ret (rtrans, delay), s3') /\
         eth_memory s3' = list_inserts (mem_index a) f (eth_memory s3) /\ has_frame (get_eth s3') = false) /\
  (eth_queue s2 = dropped ->
   exists s2', eth_poll fuel s2 = (Ret tt, s2') /\ eth_queue s2' = [] /\ has_frame (get_eth s2') = false).
Proof.
  intros d1 d2 f Hr1 Hd1 Hop Hn Hl Hmac Hr2 Hd2 Hh Hb Hdrop Hus Hfuel.
  assert (Hat1 : eth_at d1 (eth_memory s1) (eth_queue s1) (eth_wire s1) s1) by done.
  assert (Hfr : is_frame f).
  { pose proof (length_frame_of d1 (eth_memory s1) ltac:(lia) Hl). unfold is_frame, FRAME_SIZE, MTU_SIZE in *. fold f in H0. lia. }
  split; [| split].
  - destruct (send_operation_at trans delay _ _ _ _ s1 Hat1 Hd1 Hop ltac:(lia) Hl Hmac) as (d' & s' & Hs & [? ? ? ? ?]). by exists s'.
  - intros Hq. assert (Hat2 : eth_at d2 (eth_memory s2) (dropped ++ f :: rest) (eth_wire s2) s2) by done.
    destruct (eth_poll_at fuel _ _ _ _ _ s2 Hat2 Hb Hh Hfuel Hdrop ltac:(done)) as (b & s2' & Hbl & Hpoll & [_ Hg Hm2 Hq' _]).
    exists s2'. split; [done |]. split; [done |]. rewrite Hg. split; [by destruct d2 |]. split; [done |].
    intros s3 a rtrans Hr3 Hg3 Hop3 Hl3.
    assert (Hat3 : eth_at (get_eth s3) (eth_memory s3) (eth_queue s3) (eth_wire s3) s3) by done.
    assert (Hfb : take (length f) (list_inserts 0 f b) = f).
    { rewrite <- (drop_0 (list_inserts 0 f b)). apply take_drop_inserts. destruct Hfr. lia. }
    destruct (recv_operation_at rtrans delay _ _ f _ _ s3 Hat3) as (s3' & Hs3 & [_ Hg' Hm' _ _]);
      rewrite ?Hg3; try done; try (by destruct d2).
    exists s3'. rewrite Hg3 in Hg', Hm'. split; [done |]. split; [by destruct d2 |]. rewrite Hg'. by destruct d2.
  - intros Hq. assert (Hat2 : eth_at d2 (eth_memory s2) (dropped ++ []) (eth_wire s2) s2) by (constructor; rewrite ?app_nil_r; done).
    destruct (eth_poll_at fuel _ _ _ _ _ s2 Hat2 Hb Hh Hfuel Hdrop I) as (b & s2' & Hbl & Hpoll & [_ Hg _ Hq' _]).
    exists s2'. split; [done |]. split; [done |]. rewrite Hg. by destruct d2.
Qed.

End ethernet_props.

(** ** A bench

    A station with a memory of 128 bytes, the frames that wait for it, those it
    has sent and its interrupts. *)
Record eth_bench : Type := mkEthBench {
  eb_device : EthernetDevice;
  eb_memory : list Z;
  eb_queue : list (list Z);
  eb_wire : list (list Z);
  eb_interrupts : list Z
}.

#[export] Instance eth_bench_interface : ethernet_interface eth_bench unit := {
  get_eth := eb_device;
  set_eth d s := mkEthBench d (eb_memory s) (eb_queue s) (eb_wire s) (eb_interrupts s);
  eth_memory := eb_memory;
  set_eth_memory m s := mkEthBench (eb_device s) m (eb_queue s) (eb_wire s) (eb_interrupts s);
  eth_irq_number := 7;
  sock_read n s :=
    match eb_queue s with
    | [] => (Ret ReadWouldBlock, s)
    | b :: q => (Ret (ReadBytes (take n b)), mkEthBench (eb_device s) (eb_memory s) q (eb_wire s) (eb_interrupts s))
    end;
  sock_write b s := (Ret (Z.of_nat (length b)),
    mkEthBench (eb_device s) (eb_memory s) (eb_queue s) (eb_wire s ++ [b]) (eb_interrupts s));
  eth_run_notify _ := skip;
  eth_wait := skip;
  eth_gateway_trigger irq := modify (fun s =>
    mkEthBench (eb_device s) (eb_memory s) (eb_queue s) (eb_wire s) (eb_interrupts s ++ [irq]))
}.

#[export] Instance eth_bench_system : ethernet_system eth_bench unit.
Proof.
  refine {| eth_ready _ := True; eth_queue := eb_queue; eth_wire := eb_wire |}; try done.
  - intros n s _ Hq. cbn [sock_read eth_bench_interface]. by rewrite Hq.
  - intros n b q s _ Hq _ Hl. cbn [sock_read eth_bench_interface]. rewrite Hq, take_ge by lia. by eexists.
  - intros b s _. by eexists.
Defined.

(** The stations 02:00:00:00:00:01 and 02:00:00:00:00:02; the first has an IP
    packet of 6 bytes for the second, before which a frame for a third comes. *)
Definition eth_frame (dst payload : list Z) : list Z :=
  dst ++ [2; 0; 0; 0; 0; 1] ++ [0x08; 0x00] ++ payload.
Definition eth_bench_sender : eth_bench :=
  mkEthBench (mkEthernet 0 0 0 0x80000010 20 (2, 0x100) (replicate 1514 0) false false)
    (replicate 16 0 ++ eth_frame [2; 0; 0; 0; 0; 2] [1; 2; 3; 4; 5; 6] ++ replicate 92 0) [] [] [].
Definition eth_bench_sent : list Z := eth_frame [2; 0; 0; 0; 0; 2] [1; 2; 3; 4; 5; 6] ++ replicate 40 0.
Definition eth_bench_receiver : eth_bench :=
  mkEthBench (EthernetDevice_new false (2, 0x200) false) (replicate 128 0xee)
    [eth_frame [2; 0; 0; 0; 0; 3] [9]; eth_bench_sent] [] [].
Definition eth_command (op : Z) : tlm_generic_payload :=
  mkPayload TLM_WRITE_COMMAND 0 (to_bytes uint32_t op) TLM_OK_RESPONSE.

(** The guest of the second station takes the frame at 0x80000008. *)
Definition eth_bench_ready (s : eth_bench) : eth_bench :=
  set_eth (store_eth_reg ReceiveDstReg 0x80000008 (get_eth s)) s.

Lemma ethernet_delivery_witness : exists s1' s2' s3',
  ethernet_transport (eth_command SEND_OPERATION) 0 eth_bench_sender = (Ret (eth_command SEND_OPERATION, 0), s1') /\
  eb_wire s1' = [eth_bench_sent] /\
  eth_poll 5 eth_bench_receiver = eth_gateway_trigger 7 s2' /\
  ethernet_transport (eth_command RECV_OPERATION) 0 (eth_bench_ready s2') = (Ret (eth_command RECV_OPERATION, 0), s3') /\
  eth_memory s3' = replicate 8 0xee ++ eth_bench_sent ++ replicate 60 0xee.
Proof.
  assert (Hf : frame_of (get_eth eth_bench_sender) (eth_memory eth_bench_sender) = eth_bench_sent) by by vm_compute.
  destruct (ethernet_delivery (E := unit) eth_bench_sender eth_bench_receiver (eth_command SEND_OPERATION) 0 5
    [eth_frame [2; 0; 0; 0; 0; 3] [9]] []) as ((s1' & Hs1 & Hw1 & _) & Hrecv & _); rewrite ?Hf.
  1-3, 7-9: done.
  - split; by vm_compute.
  - apply Nat.leb_le. by vm_compute.
  - by vm_compute.
  - by vm_compute.
  - apply Forall_singleton. split; [split; [apply Nat.leb_le |]; by vm_compute |].
    intros Hus. apply isPacketForUs_true in Hus. by vm_compute in Hus.
  - apply isPacketForUs_true. by vm_compute.
  - apply Nat.ltb_lt. by vm_compute.
  - rewrite Hf in Hrecv. destruct (Hrecv eq_refl) as (s2' & Hs2 & _ & _ & Hm2 & Hcopy).
    destruct (Hcopy (eth_bench_ready s2') 0x80000008 (eth_command RECV_OPERATION)) as (s3' & Hs3 & Hm3 & _); [done.. | |].
    { change (eth_memory (eth_bench_ready s2')) with (eth_memory s2'). rewrite Hm2. apply Nat.leb_le. by vm_compute. }
    exists s1', s2', s3'. split; [done |]. split; [by rewrite Hf in Hw1 |]. split; [done |]. split; [done |]. rewrite Hm3.
    change (eth_memory (eth_bench_ready s2')) with (eth_memory s2'). rewrite Hm2. by vm_compute.
Defined.
