(* ===== verification/Display.v ===== *)
(** * The display

    Models platform/basic/display.cpp and the layout of the frame buffer in
    env/basic/vp-display/framebuffer.h: the commands, and the lines with the float
    arithmetic of the code, as the binary32 operations of the Standard Library's
    SpecFloat.  The memory that the device shares with the program that shows the
    frames is a function from offsets to bytes. *)

From Stdlib Require Import SpecFloat.
From S2P Require Import Prelude Memory.

Definition screenWidth : Z := 800.
Definition screenHeight : Z := 600.

(** ** The layout of Framebuffer *)

Definition sizeof_Frame : Z := 2 * screenWidth * screenHeight.
Definition ACTIVE_FRAME : Z := 0.
Definition COMMAND : Z := 1.
Definition PARAMETER : Z := 4.
Definition sizeof_Parameter : Z := 24.
Definition FRAMES : Z := PARAMETER + sizeof_Parameter.
Definition BACKGROUND : Z := FRAMES + 2 * sizeof_Frame.
Definition sizeof_Framebuffer : Z := BACKGROUND + sizeof_Frame.

(** [Framebuffer::Type] and [Framebuffer::Command] *)
Definition foreground : Z := 0.
Definition background : Z := 1.
Definition CMD_clearAll : Z := 1.
Definition CMD_fillFrame : Z := 2.
Definition CMD_applyFrame : Z := 3.
Definition CMD_drawLine : Z := 4.

Record Display : Type := mkDisplay { raw : Z -> Z }.

(** memset, memcpy between disjoint ranges of the buffer, and memcpy from [bytes] *)
Definition memset (a v n : Z) (d : Display) : Display :=
  mkDisplay (fun x => if (a <=? x) && (x <? a + n) then v else raw d x).
Definition memcpy_within (dst src n : Z) (d : Display) : Display :=
  mkDisplay (fun x => if (dst <=? x) && (x <? dst + n) then raw d (src + (x - dst)) else raw d x).
Definition memcpy_from (a : Z) (bytes : list Z) (d : Display) : Display :=
  mkDisplay (fun x => if (a <=? x) && (x <? a + Z.of_nat (length bytes)) then nth (Z.to_nat (x - a)) bytes 0 else raw d x).
Definition bytes_at (a : Z) (n : nat) (d : Display) : list Z := map (fun i => raw d (a + Z.of_nat i)) (seq 0 n).

Definition Display_new (d : Display) : Display := memset 0 0 sizeof_Framebuffer d.

Definition activeFrame (d : Display) : Z := raw d ACTIVE_FRAME.
Definition set_activeFrame (v : Z) (d : Display) : Display := memcpy_from ACTIVE_FRAME [uint8 v] d.
Definition getActiveFrame (d : Display) : Z := FRAMES + sizeof_Frame * (activeFrame d mod 2).
Definition getInactiveFrame (d : Display) : Z := FRAMES + sizeof_Frame * ((activeFrame d + 1) mod 2).
Definition getBackground (d : Display) : Z := BACKGROUND.

(** ** Floats *)

(** The value with the bits [z]. *)
Definition float_of_bits (z : Z) : spec_float :=
  let s := Z.testbit z 31 in
  let e := (z .>> 23) .& 0xff in
  let m := z .& 0x7fffff in
  if e =? 0xff then (if m =? 0 then S754_infinity s else S754_nan)
  else if e =? 0 then match m with Zpos m => S754_finite s m (-149) | _ => S754_zero s end
  else match m + 0x800000 with Zpos m => S754_finite s m (e - 150) | _ => S754_nan end.

Definition f_sub : spec_float -> spec_float -> spec_float := SFsub 24 128.
Definition f_add : spec_float -> spec_float -> spec_float := SFadd 24 128.
Definition f_div : spec_float -> spec_float -> spec_float := SFdiv 24 128.
Definition f_zero : spec_float := S754_zero false.
Definition f_two : spec_float := float_of_bits 0x40000000.

(** Towards zero; infinities and NaN have no integer. *)
Definition float_to_Z (f : spec_float) : option Z :=
  match f with
  | S754_zero _ => Some 0
  | S754_finite s m e =>
      let v := if 0 <=? e then Zpos m * 2 ^ e else Zpos m / 2 ^ (- e) in Some (if s then - v else v)
  | _ => None
  end.

Section display.
Context {E : Type}.

Abbreviation R := (M Display E).

(** The conversions of a float to a machine integer; a value that does not fit is
    undefined behaviour. *)
Definition float_to (lo hi : Z) (f : spec_float) : R Z :=
  match float_to_Z f with
  | Some v => if (lo <=? v) && (v <=? hi) then mret v else fatal UndefinedBehaviour
  | None => fatal UndefinedBehaviour
  end.
Definition float_to_uint16 : spec_float -> R Z := float_to 0 (2 ^ 16 - 1).
Definition float_to_int : spec_float -> R Z := float_to (- 2 ^ 31) (2 ^ 31 - 1).

Definition getFrame (type : Z) : R Z :=
  if type =? foreground then gets getInactiveFrame
  else if type =? background then gets getBackground
  else fatal AssertFailed.

(** ** Commands *)

(** The loop over the 64-bit words of a frame, from word [i]. *)
Fixpoint fill_words (n : nat) (base i word : Z) (d : Display) : Display :=
  match n with
  | O => d
  | S n => fill_words n base (i + 1) word (memcpy_from (base + 8 * i) (to_bytes uint64_t word) d)
  end.

Definition wideColor (color : Z) : Z :=
  from_bytes uint64_t (concat (replicate 4 (to_bytes uint16_t color))).

Definition fillFrame (type color : Z) : R unit :=
  base ← getFrame type;
  modify (fill_words (Z.to_nat (sizeof_Frame / 8)) base 0 (wideColor color)).

(** [local.raw[y][x] = color], with the bounds of the array. *)
Definition pixel_offset (y x : Z) : Z := 2 * (screenWidth * y + x).
Definition set_pixel (local y x color : Z) : R unit :=
  if (0 <=? y) && (y <? screenHeight) && (0 <=? x) && (x <? screenWidth) then
    modify (memcpy_from (local + pixel_offset y x) (to_bytes uint16_t color))
  else fatal UndefinedBehaviour.

(** The loops with a 16-bit counter.  They leave the array before the counter wraps
    around, so the sizes of the screen bound them. *)
Fixpoint draw_vertical (fuel : nat) (local x color y intToY : Z) : R unit :=
  if y <=? intToY then
    match fuel with
    | O => fatal Blocked
    | S fuel => set_pixel local y x color ;; draw_vertical fuel local x color (uint16 (y + 1)) intToY
    end
  else skip.

Fixpoint draw_horizontal (fuel : nat) (local y color x intToX : Z) : R unit :=
  if x <=? intToX then
    match fuel with
    | O => fatal Blocked
    | S fuel => set_pixel local y x color ;; draw_horizontal fuel local y color (uint16 (x + 1)) intToX
    end
  else skip.

(** [for (int x = (int)from.x; x < maxX; x++)]: [n] is the number of its passes. *)
Fixpoint draw_bresenham (n : nat) (local : Z) (steep : bool) (color ystep : Z) (dx dy : spec_float)
    (x y : Z) (error : spec_float) : R unit :=
  match n with
  | O => skip
  | S n =>
      (if steep then set_pixel local x y color else set_pixel local y x color) ;;
      let error := f_sub error dy in
      let '(y, error) := if SFltb error f_zero then (y + ystep, f_add error dx) else (y, error) in
      draw_bresenham n local steep color ystep dx dy (x + 1) y error
  end.

Definition swap_if (b : bool) {A : Type} (p : A * A) : A * A := if b then (snd p, fst p) else p.

Definition draw_line (local : Z) (from to : spec_float * spec_float) (color : Z) : R unit :=
  let '(from_x, from_y) := from in
  let '(to_x, to_y) := to in
  if SFeqb from_x to_x then
    let '(from_y, to_y) := swap_if (SFltb to_y from_y) (from_y, to_y) in
    intFromX ← float_to_uint16 from_x;
    intToY ← float_to_uint16 to_y;
    y ← float_to_uint16 from_y;
    draw_vertical (S (Z.to_nat screenHeight)) local intFromX color y intToY
  else if SFeqb from_y to_y then
    let '(from_x, to_x) := swap_if (SFltb to_x from_x) (from_x, to_x) in
    intFromY ← float_to_uint16 from_y;
    intToX ← float_to_uint16 to_x;
    x ← float_to_uint16 from_x;
    draw_horizontal (S (Z.to_nat screenWidth)) local intFromY color x intToX
  else
    let steep := SFltb (SFabs (f_sub to_x from_x)) (SFabs (f_sub to_y from_y)) in
    let '(from_x, from_y) := swap_if steep (from_x, from_y) in
    let '(to_x, to_y) := swap_if steep (to_x, to_y) in
    let back := SFltb to_x from_x in
    let '(from_x, to_x) := swap_if back (from_x, to_x) in
    let '(from_y, to_y) := swap_if back (from_y, to_y) in
    let dx := f_sub to_x from_x in
    let dy := SFabs (f_sub to_y from_y) in
    let error := f_div dx f_two in
    let ystep := if SFltb from_y to_y then 1 else -1 in
    y ← float_to_int from_y;
    maxX ← float_to_int to_x;
    x ← float_to_int from_x;
    draw_bresenham (Z.to_nat (maxX - x)) local steep color ystep dx dy x y error.

Definition drawLine (type : Z) (from to : spec_float * spec_float) (color : Z) : R unit :=
  local ← getFrame type; draw_line local from to color.

(** The parameters of the commands: the union's members at their offsets. *)
Definition load_u8 (a : Z) (d : Display) : Z := from_bytes uint8_t (bytes_at a 1 d).
Definition load_u16 (a : Z) (d : Display) : Z := from_bytes uint16_t (bytes_at a 2 d).
Definition load_float (a : Z) (d : Display) : spec_float := float_of_bits (from_bytes uint32_t (bytes_at a 4 d)).

Definition fill_type (d : Display) : Z := load_u8 PARAMETER d.
Definition fill_color (d : Display) : Z := load_u16 (PARAMETER + 2) d.
Definition line_type (d : Display) : Z := load_u8 PARAMETER d.
Definition line_from (d : Display) : spec_float * spec_float :=
  (load_float (PARAMETER + 4) d, load_float (PARAMETER + 8) d).
Definition line_to (d : Display) : spec_float * spec_float :=
  (load_float (PARAMETER + 12) d, load_float (PARAMETER + 16) d).
Definition line_color (d : Display) : Z := load_u16 (PARAMETER + 20) d.

Definition clearAll : R unit :=
  modify (memset 0 0 sizeof_Framebuffer) ;; modify (fun d => set_activeFrame (activeFrame d + 1) d).
Definition applyFrame : R unit :=
  modify (fun d => set_activeFrame (activeFrame d + 1) d) ;;
  modify (fun d => memcpy_within (getInactiveFrame d) (getActiveFrame d) sizeof_Frame d).

Definition display_command (cmd : Z) : R unit :=
  d ← gets id;
  (if cmd =? CMD_clearAll then clearAll
   else if cmd =? CMD_fillFrame then fillFrame (fill_type d) (fill_color d)
   else if cmd =? CMD_applyFrame then applyFrame
   else if cmd =? CMD_drawLine then drawLine (line_type d) (line_from d) (line_to d) (line_color d)
   else fatal AssertFailed) ;;
  modify (memset PARAMETER 0 sizeof_Parameter).

(** The sum of the address and the length is one of 32-bit numbers; the copies do
    not check that they stay within the buffer. *)
Definition display_transport : transport_fn Display E := fun trans delay =>
  let addr := uint32 (address trans) in
  let len := data_length trans in
  let inside := addr + len <=? sizeof_Framebuffer in
  assert (uint32 (addr + len) <=? sizeof_Framebuffer) ;;
  trans ←
    match command trans with
    | TLM_WRITE_COMMAND =>
        (if (addr =? COMMAND) && (len =? 1) then display_command (from_bytes uint8_t (payload_data trans))
         else if inside then modify (memcpy_from addr (payload_data trans))
         else fatal UndefinedBehaviour) ;;
        mret trans
    | TLM_READ_COMMAND =>
        if addr <? sizeof_Framebuffer then
          if inside then d ← gets id; mret (set_payload_data (bytes_at addr (length (payload_data trans)) d) trans)
          else fatal UndefinedBehaviour
        else fatal AssertFailed
    | TLM_IGNORE_COMMAND => fatal AssertFailed
    end;
  mret (trans, delay + len * (5 * NS)).

End display.

(** ** Memory *)

Definition in_frame (base a : Z) : Prop := base <= a < base + sizeof_Frame.
Definition on_screen (y x : Z) : Prop := 0 <= y < screenHeight /\ 0 <= x < screenWidth.

(** The colour of a pixel, and the frame that the commands draw to. *)
Definition pixel (base y x : Z) (d : Display) : Z := load_u16 (base + pixel_offset y x) d.
Definition target (type : Z) (d : Display) : Z := if type =? foreground then getInactiveFrame d else BACKGROUND.

Lemma raw_store_out a bs d x : x < a \/ a + Z.of_nat (length bs) <= x -> raw (memcpy_from a bs d) x = raw d x.
Proof. intros Hx. cbn [memcpy_from raw]. by assert ((a <=? x) && (x <? a + Z.of_nat (length bs)) = false) as -> by lia. Qed.

Lemma raw_store_in a bs d x : a <= x < a + Z.of_nat (length bs) -> raw (memcpy_from a bs d) x = nth (Z.to_nat (x - a)) bs 0.
Proof. intros Hx. cbn [memcpy_from raw]. by assert ((a <=? x) && (x <? a + Z.of_nat (length bs)) = true) as -> by lia. Qed.

Lemma raw_memset_out a v n d x : x < a \/ a + n <= x -> raw (memset a v n d) x = raw d x.
Proof. intros Hx. cbn [memset raw]. by assert ((a <=? x) && (x <? a + n) = false) as -> by lia. Qed.

Lemma load_ext a n d d' : (forall x, a <= x < a + Z.of_nat n -> raw d' x = raw d x) -> bytes_at a n d' = bytes_at a n d.
Proof. intros Hx. apply map_ext_in. intros i Hi%in_seq. apply Hx. lia. Qed.

Lemma load_store a bs d : bytes_at a (length bs) (memcpy_from a bs d) = bs.
Proof.
  apply nth_ext with (d := 0) (d' := 0); unfold bytes_at; [by rewrite length_map, length_seq |].
  intros i Hi. rewrite length_map, length_seq in Hi.
  rewrite (nth_indep _ 0 (raw (memcpy_from a bs d) (a + Z.of_nat 0))) by (by rewrite length_map, length_seq).
  rewrite (map_nth (fun i => raw (memcpy_from a bs d) (a + Z.of_nat i))), seq_nth by done.
  rewrite raw_store_in by lia. f_equal. lia.
Qed.

Lemma pixel_ext base y x d d' : on_screen y x -> (forall a, in_frame base a -> raw d' a = raw d a) ->
  pixel base y x d' = pixel base y x d.
Proof.
  intros [Hy Hx] Heq. unfold pixel, load_u16. f_equal. apply load_ext. intros a Ha. apply Heq.
  unfold in_frame, pixel_offset, sizeof_Frame, screenWidth, screenHeight in *. lia.
Qed.

Lemma in_type_uint16 a d : in_type uint16_t (load_u16 a d).
Proof. apply to_type_in. Qed.

(** ** Drawing *)

Section drawing.
Context {E : Type}.

(** A computation that writes to the frame at [base] only, as long as it is defined. *)
Definition returns_or_undefined {A} (r : outcome E A) : Prop := r = Fatal UndefinedBehaviour \/ exists v, r = Ret v.
Definition draws (base : Z) {A} (m : M Display E A) : Prop := forall d r d', m d = (r, d') ->
  returns_or_undefined r /\ forall a, ~ in_frame base a -> raw d' a = raw d a.

Lemma draws_ret base A (v : A) : draws base (mret v).
Proof. intros d r d' [= <- <-]. split; [right; by eexists | done]. Qed.

Lemma draws_undefined base A : draws base (fatal (A := A) UndefinedBehaviour).
Proof. intros d r d' [= <- <-]. split; [by left | done]. Qed.

Lemma draws_bind base A B (m : M Display E A) (k : A -> M Display E B) :
  draws base m -> (forall v, draws base (k v)) -> draws base (m ≫= k).
Proof.
  intros Hm Hk d r d' Hr. unfold mbind, M_bind in Hr. destruct (m d) as [[v|e|f] d1] eqn:H1;
    destruct (Hm _ _ _ H1) as [Hb1 Hw1].
  - destruct (Hk v _ _ _ Hr) as [Hb2 Hw2]. split; [done |]. intros a Ha. by rewrite Hw2, Hw1.
  - by destruct Hb1 as [? | [? ?]].
  - injection Hr as <- <-. destruct Hb1 as [[= ->] | [? ?]]; [| done]. split; [by left | done].
Qed.

Lemma draws_set_pixel base y x color : draws base (set_pixel base y x color).
Proof.
  intros d r d' Hr. unfold set_pixel in Hr.
  destruct ((0 <=? y) && (y <? screenHeight) && (0 <=? x) && (x <? screenWidth)) eqn:Hin; injection Hr as <- <-;
    [| split; [by left | done]].
  split; [right; by eexists |]. intros a Ha. apply raw_store_out. rewrite length_to_bytes. simpl sizeof.
  unfold in_frame, pixel_offset, sizeof_Frame, screenWidth, screenHeight in *. lia.
Qed.

Lemma draws_float_to base lo hi f : draws base (float_to lo hi f).
Proof.
  unfold float_to. destruct (float_to_Z f) as [v|]; [| apply draws_undefined].
  destruct (_ && _); [apply draws_ret | apply draws_undefined].
Qed.

(** A pixel that is set is on the screen. *)
Lemma set_pixel_on y x base color (d : Display) r d' : set_pixel (E := E) base y x color d = (r, d') ->
  on_screen y x /\ r = Ret tt \/ r = Fatal UndefinedBehaviour /\ ~ on_screen y x.
Proof.
  unfold set_pixel, on_screen. intros Hr.
  destruct ((0 <=? y) && (y <? screenHeight) && (0 <=? x) && (x <? screenWidth)) eqn:Hin; injection Hr as <- <-; [left | right];
    split; (done || lia).
Qed.

(** The loops: as long as the counter is on the screen, fuel is left. *)
Lemma draws_vertical base x color intToY : forall fuel y, 0 <= y -> (0 < fuel)%nat -> screenHeight < y + Z.of_nat fuel ->
  draws base (draw_vertical fuel base x color y intToY).
Proof.
  induction fuel as [|fuel IH]; intros y Hy H0 Hf d r d' Hr; cbn [draw_vertical] in Hr; [lia |].
  destruct (Z.leb_spec y intToY); [| injection Hr as <- <-; split; [right; by eexists | done]].
  unfold mbind, M_bind in Hr. destruct (set_pixel base y x color d) as [r1 d1] eqn:H1.
  pose proof (draws_set_pixel _ _ _ _ _ _ _ H1) as [_ Hw1].
  destruct (set_pixel_on _ _ _ _ _ _ _ H1) as [[[Hy1 _] ->] | [-> _]]; [| injection Hr as <- <-; split; [by left | done]].
  unfold uint16 in Hr. rewrite uint_id in Hr by (unfold is_uint, screenHeight in *; lia).
  destruct (IH (y + 1) ltac:(lia) ltac:(lia) ltac:(lia) _ _ _ Hr) as [Hb Hw]. split; [done |]. intros a Ha. by rewrite Hw, Hw1.
Qed.

Lemma draws_horizontal base y color intToX : forall fuel x, 0 <= x -> (0 < fuel)%nat -> screenWidth < x + Z.of_nat fuel ->
  draws base (draw_horizontal fuel base y color x intToX).
Proof.
  induction fuel as [|fuel IH]; intros x Hx H0 Hf d r d' Hr; cbn [draw_horizontal] in Hr; [lia |].
  destruct (Z.leb_spec x intToX); [| injection Hr as <- <-; split; [right; by eexists | done]].
  unfold mbind, M_bind in Hr. destruct (set_pixel base y x color d) as [r1 d1] eqn:H1.
  pose proof (draws_set_pixel _ _ _ _ _ _ _ H1) as [_ Hw1].
  destruct (set_pixel_on _ _ _ _ _ _ _ H1) as [[[_ Hx1] ->] | [-> _]]; [| injection Hr as <- <-; split; [by left | done]].
  unfold uint16 in Hr. rewrite uint_id in Hr by (unfold is_uint, screenWidth in *; lia).
  destruct (IH (x + 1) ltac:(lia) ltac:(lia) ltac:(lia) _ _ _ Hr) as [Hb Hw]. split; [done |]. intros a Ha. by rewrite Hw, Hw1.
Qed.

Lemma draws_bresenham_loop base steep color ystep dx dy : forall n x y error,
  draws base (draw_bresenham n base steep color ystep dx dy x y error).
Proof.
  induction n as [|n IH]; intros x y error; cbn [draw_bresenham]; [apply draws_ret |].
  apply draws_bind; [destruct steep; apply draws_set_pixel | intros _].
  destruct (SFltb _ _); apply IH.
Qed.


Lemma float_to_ret lo hi f (d : Display) r d' : float_to (E := E) lo hi f d = (r, d') ->
  d' = d /\ (r = Fatal UndefinedBehaviour \/ exists v, r = Ret v /\ float_to_Z f = Some v /\ lo <= v <= hi).
Proof.
  unfold float_to. destruct (float_to_Z f) as [v|]; [destruct ((lo <=? v) && (v <=? hi)) eqn:Hv |];
    intros [= <- <-]; split; eauto. right. exists v. split; [done |]. split; [done | lia].
Qed.

Lemma draws_float_to_in base lo hi f A (k : Z -> M Display E A) : (forall v, lo <= v <= hi -> draws base (k v)) ->
  draws base (float_to lo hi f ≫= k).
Proof.
  intros Hk d r d' Hr. unfold mbind, M_bind in Hr. destruct (float_to lo hi f d) as [r1 d1] eqn:H1.
  destruct (float_to_ret _ _ _ _ _ _ H1) as [-> [-> | (v & -> & _ & Hv)]];
    [injection Hr as <- <-; split; [by left | done] |].
  exact (Hk v Hv _ _ _ Hr).
Qed.

(** A line, wherever its ends are. *)
Lemma draws_line_in base from to color : draws base (draw_line base from to color).
Proof.
  destruct from as [fx fy], to as [tx ty]. unfold draw_line.
  destruct (SFeqb fx tx); [| destruct (SFeqb fy ty)].
  - destruct (swap_if _ _) as [y0 y1]. repeat (apply draws_float_to_in; intros ? ?).
    apply draws_vertical; [lia | lia | unfold screenHeight in *; lia].
  - destruct (swap_if _ _) as [x0 x1]. repeat (apply draws_float_to_in; intros ? ?).
    apply draws_horizontal; [lia | lia | unfold screenWidth in *; lia].
  - repeat destruct (swap_if _ _). repeat (apply draws_float_to_in; intros ? ?). apply draws_bresenham_loop.
Qed.

Lemma getFrame_eq type (d : Display) :
  getFrame (E := E) type d = (Ret (target type d), d) \/
  getFrame (E := E) type d = (Fatal AssertFailed, d) /\ type <> foreground /\ type <> background.
Proof.
  unfold getFrame, target. destruct (Z.eqb_spec type foreground); [by left |].
  destruct (Z.eqb_spec type background); [by left | by right].
Qed.

Lemma draws_line type from to color (d : Display) r d' : drawLine (E := E) type from to color d = (r, d') ->
  returns_or_undefined r /\ (forall a, ~ in_frame (target type d) a -> raw d' a = raw d a) \/
  r = Fatal AssertFailed /\ type <> foreground /\ type <> background.
Proof.
  unfold drawLine, mbind, M_bind. destruct (getFrame_eq type d) as [-> | [-> Ht]]; [left; by eapply draws_line_in |].
  intros [= <- <-]. by right.
Qed.

(** ** Exact pixels *)

Lemma pixel_set base y x y' x' color (d : Display) : on_screen y x -> on_screen y' x' ->
  pixel base y' x' (memcpy_from (base + pixel_offset y x) (to_bytes uint16_t color) d)
  = if (y' =? y) && (x' =? x) then to_type uint16_t color else pixel base y' x' d.
Proof.
  intros Hon Hon'. unfold pixel, load_u16. destruct ((y' =? y) && (x' =? x)) eqn:Heq.
  - assert (y' = y /\ x' = x) as [-> ->] by lia.
    rewrite <- (length_to_bytes uint16_t color) at 1. rewrite load_store. by apply from_to_bytes.
  - f_equal. apply load_ext. intros a Ha. apply raw_store_out. rewrite length_to_bytes. simpl sizeof.
    unfold on_screen, pixel_offset, screenWidth, screenHeight in *. lia.
Qed.

Lemma set_pixel_ok base y x color (d : Display) : on_screen y x ->
  set_pixel (E := E) base y x color d = (Ret tt, memcpy_from (base + pixel_offset y x) (to_bytes uint16_t color) d).
Proof.
  intros [Hy Hx]. unfold set_pixel.
  by assert ((0 <=? y) && (y <? screenHeight) && (0 <=? x) && (x <? screenWidth) = true) as -> by lia.
Qed.

Lemma vertical_pixels base x color intToY : 0 <= x < screenWidth -> intToY < screenHeight ->
  forall fuel y (d : Display), 0 <= y -> intToY < y + Z.of_nat fuel ->
  exists d', draw_vertical (E := E) fuel base x color y intToY d = (Ret tt, d') /\
    forall y' x', on_screen y' x' ->
      pixel base y' x' d' = if (y <=? y') && (y' <=? intToY) && (x' =? x) then to_type uint16_t color else pixel base y' x' d.
Proof.
  intros Hx Hto. induction fuel as [|fuel IH]; intros y d Hy Hf; cbn [draw_vertical].
  1,2: destruct (Z.leb_spec y intToY); [try lia | exists d; split; [done |]; intros y' x' _;
    by assert ((y <=? y') && (y' <=? intToY) && (x' =? x) = false) as -> by lia].
  assert (Hon : on_screen y x) by (split; lia).
  unfold mbind, M_bind. rewrite set_pixel_ok by done. unfold uint16. rewrite uint_id by (unfold is_uint, screenHeight in *; lia).
  destruct (IH (y + 1) (memcpy_from (base + pixel_offset y x) (to_bytes uint16_t color) d) ltac:(lia) ltac:(lia)) as (d' & Hd' & Hp).
  exists d'. split; [done |]. intros y' x' Hon'. rewrite Hp, pixel_set by done.
  destruct (Z.eqb_spec y' y) as [->|]; destruct (Z.eqb_spec x' x) as [->|];
    repeat match goal with |- context [?a <=? ?b] => destruct (Z.leb_spec a b) end; cbn [andb]; (done || lia).
Qed.

Lemma horizontal_pixels base y color intToX : 0 <= y < screenHeight -> intToX < screenWidth ->
  forall fuel x (d : Display), 0 <= x -> intToX < x + Z.of_nat fuel ->
  exists d', draw_horizontal (E := E) fuel base y color x intToX d = (Ret tt, d') /\
    forall y' x', on_screen y' x' ->
      pixel base y' x' d' = if (y' =? y) && (x <=? x') && (x' <=? intToX) then to_type uint16_t color else pixel base y' x' d.
Proof.
  intros Hy Hto. induction fuel as [|fuel IH]; intros x d Hx Hf; cbn [draw_horizontal].
  1,2: destruct (Z.leb_spec x intToX); [try lia | exists d; split; [done |]; intros y' x' _;
    by assert ((y' =? y) && (x <=? x') && (x' <=? intToX) = false) as -> by lia].
  assert (Hon : on_screen y x) by (split; lia).
  unfold mbind, M_bind. rewrite set_pixel_ok by done. unfold uint16. rewrite uint_id by (unfold is_uint, screenWidth in *; lia).
  destruct (IH (x + 1) (memcpy_from (base + pixel_offset y x) (to_bytes uint16_t color) d) ltac:(lia) ltac:(lia)) as (d' & Hd' & Hp).
  exists d'. split; [done |]. intros y' x' Hon'. rewrite Hp, pixel_set by done.
  destruct (Z.eqb_spec y' y) as [->|]; destruct (Z.eqb_spec x' x) as [->|];
    repeat match goal with |- context [?a <=? ?b] => destruct (Z.leb_spec a b) end; cbn [andb]; (done || lia).
Qed.

(** ** Filling a frame *)

Lemma raw_fill_words base w : forall n i (d : Display) a,
  raw (fill_words n base i w d) a =
  if (base + 8 * i <=? a) && (a <? base + 8 * (i + Z.of_nat n)) then nth (Z.to_nat ((a - base) mod 8)) (to_bytes uint64_t w) 0
  else raw d a.
Proof.
  induction n as [|n IH]; intros i d a; cbn [fill_words].
  - change (Z.of_nat 0) with 0. by assert ((base + 8 * i <=? a) && (a <? base + 8 * (i + 0)) = false) as -> by lia.
  - pose proof (Nat2Z.is_nonneg n). replace (Z.of_nat (S n)) with (Z.of_nat n + 1) by lia. rewrite IH. destruct (decide (base + 8 * i <= a < base + 8 * i + 8)) as [Ha|Ha].
    + assert ((base + 8 * (i + 1) <=? a) = false) as -> by lia. cbn [andb].
      assert ((base + 8 * i <=? a) && (a <? base + 8 * (i + (Z.of_nat n + 1))) = true) as -> by lia.
      rewrite raw_store_in by (rewrite length_to_bytes; simpl; lia). f_equal. f_equal.
      rewrite <- (Z.mod_unique_pos (a - base) 8 i (a - base - 8 * i)); lia.
    + rewrite raw_store_out by (rewrite length_to_bytes; simpl; lia).
      assert ((base + 8 * (i + 1) <=? a) && (a <? base + 8 * (i + 1 + Z.of_nat n))
        = (base + 8 * i <=? a) && (a <? base + 8 * (i + (Z.of_nat n + 1)))) as ->; [| done].
      replace (i + 1 + Z.of_nat n) with (i + (Z.of_nat n + 1)) by lia.
      destruct (a <? base + 8 * (i + (Z.of_nat n + 1))); rewrite ?andb_false_r, ?andb_true_r; [| done].
      destruct (Z.leb_spec (base + 8 * (i + 1)) a), (Z.leb_spec (base + 8 * i) a); (done || lia).
Qed.

Lemma wideColor_bytes color : to_bytes uint64_t (wideColor color) = concat (replicate 4 (to_bytes uint16_t color)).
Proof.
  unfold wideColor, from_bytes. set (bs := concat _).
  assert (Hb : Forall byte_ok bs) by (unfold bs; cbn [replicate concat]; repeat (apply Forall_app; split); try done; apply le_bytes_ok).
  assert (Hl : length bs = 8%nat) by done. pose proof (le_value_range bs Hb) as Hr. rewrite Hl in Hr.
  rewrite to_type_id by exact Hr. unfold to_bytes. change (sizeof uint64_t) with 8%nat. rewrite <- Hl. by apply le_bytes_value.
Qed.

(** The two bytes of a pixel are those of one of the four colours of its word. *)
Lemma wideColor_at color k : 0 <= k ->
  [nth (Z.to_nat ((2 * k) mod 8)) (to_bytes uint64_t (wideColor color)) 0;
   nth (Z.to_nat ((2 * k + 1) mod 8)) (to_bytes uint64_t (wideColor color)) 0] = to_bytes uint16_t color.
Proof.
  intros Hk. rewrite wideColor_bytes. set (q := k / 4). assert (Hq : k = 4 * q + k mod 4) by (apply Z.div_mod; done).
  pose proof (Z.mod_pos_bound k 4 ltac:(done)) as Hm.
  assert (H0 : (2 * k) mod 8 = 2 * (k mod 4)) by (symmetry; apply (Z.mod_unique_pos _ _ q); lia).
  assert (H1 : (2 * k + 1) mod 8 = 2 * (k mod 4) + 1) by (symmetry; apply (Z.mod_unique_pos _ _ q); lia).
  rewrite H0, H1. assert (Hc : k mod 4 = 0 \/ k mod 4 = 1 \/ k mod 4 = 2 \/ k mod 4 = 3) by lia.
  by destruct Hc as [-> | [-> | [-> | ->]]].
Qed.

Lemma fill_pixels base color y x (d : Display) : on_screen y x ->
  pixel base y x (fill_words (Z.to_nat (sizeof_Frame / 8)) base 0 (wideColor color) d) = to_type uint16_t color.
Proof.
  intros [Hy Hx]. unfold pixel, load_u16. set (k := screenWidth * y + x).
  assert (Hk : 0 <= k /\ 2 * k + 1 < sizeof_Frame) by (unfold k, sizeof_Frame, screenWidth, screenHeight in *; lia).
  change (pixel_offset y x) with (2 * k). clearbody k.
  unfold bytes_at. cbn [seq map]. rewrite !raw_fill_words, Z2Nat.id by done.
  change (8 * (0 + sizeof_Frame / 8)) with sizeof_Frame.
  change (Z.of_nat 0) with 0. change (Z.of_nat 1) with 1. change (8 * 0) with 0. rewrite !Z.add_0_r.
  assert ((base <=? base + 2 * k) && (base + 2 * k <? base + sizeof_Frame) = true) as -> by lia.
  assert ((base <=? base + 2 * k + 1) && (base + 2 * k + 1 <? base + sizeof_Frame) = true) as -> by lia.
  replace (base + 2 * k - base) with (2 * k) by lia. replace (base + 2 * k + 1 - base) with (2 * k + 1) by lia.
  rewrite wideColor_at by lia. by apply from_to_bytes.
Qed.

Lemma fill_outside base color (d : Display) a : ~ in_frame base a ->
  raw (fill_words (Z.to_nat (sizeof_Frame / 8)) base 0 (wideColor color) d) a = raw d a.
Proof.
  intros Ha. rewrite raw_fill_words, Z2Nat.id by done. change (8 * (0 + sizeof_Frame / 8)) with sizeof_Frame.
  unfold in_frame in Ha. by assert ((base + 8 * 0 <=? a) && (a <? base + sizeof_Frame) = false) as -> by lia.
Qed.

(** ** Commands *)

Definition is_display_command (cmd : Z) (trans : tlm_generic_payload) : Prop :=
  command trans = TLM_WRITE_COMMAND /\ address trans = COMMAND /\ data_length trans = 1 /\
  from_bytes uint8_t (payload_data trans) = cmd.

(** The bytes that are neither in the frame at [base] nor in the parameters. *)
Definition outside (base a : Z) : Prop :=
  ~ in_frame base a /\ ~ (PARAMETER <= a < PARAMETER + sizeof_Parameter).

Lemma target_range type d : FRAMES <= target type d /\ target type d + sizeof_Frame <= sizeof_Framebuffer.
Proof using Type.
  unfold target, getInactiveFrame. pose proof (Z.mod_pos_bound (activeFrame d + 1) 2 ltac:(done)).
  destruct (type =? foreground); unfold sizeof_Framebuffer, BACKGROUND, FRAMES, sizeof_Frame, PARAMETER, sizeof_Parameter,
    screenWidth, screenHeight in *; lia.
Qed.

Lemma transport_command cmd trans delay (d : Display) : is_display_command cmd trans ->
  display_transport (E := E) trans delay d = (display_command cmd ;; mret (trans, delay + 5 * NS)) d.
Proof using Type.
  intros (Hc & Ha & Hl & Hcmd). unfold display_transport. rewrite Hc, Ha, Hl, Hcmd.
  change (uint32 COMMAND) with COMMAND. change (uint32 (COMMAND + 1) <=? sizeof_Framebuffer) with true.
  change ((COMMAND =? COMMAND) && (1 =? 1)) with true. unfold mbind, M_bind. cbn [assert skip mret M_ret].
  by destruct (display_command cmd d) as [[[]|e|f] d1].
Qed.

(** A command is its action, after which the parameters are zero. *)
Lemma command_result cmd (m : M Display E unit) trans delay (d : Display) r d1 : is_display_command cmd trans ->
  display_command (E := E) cmd d = (m ;; modify (memset PARAMETER 0 sizeof_Parameter)) d -> m d = (r, d1) ->
  display_transport (E := E) trans delay d =
  match r with
  | Ret _ => (Ret (trans, delay + 5 * NS), memset PARAMETER 0 sizeof_Parameter d1)
  | Throw e => (Throw e, d1)
  | Fatal f => (Fatal f, d1)
  end.
Proof using Type.
  intros Hc Hcmd Hm. rewrite (transport_command cmd) by done. unfold mbind at 1, M_bind at 1. rewrite Hcmd.
  unfold mbind, M_bind. rewrite Hm. by destruct r as [[]|e|f].
Qed.

Lemma pixel_parameters base y x (d : Display) : FRAMES <= base -> on_screen y x ->
  pixel base y x (memset PARAMETER 0 sizeof_Parameter d) = pixel base y x d.
Proof using Type.
  intros Hb Hon. apply pixel_ext; [done |]. intros a Ha. apply raw_memset_out.
  unfold in_frame, FRAMES in *. lia.
Qed.

Lemma outside_parameters base a (d d1 : Display) : outside base a -> (~ in_frame base a -> raw d1 a = raw d a) ->
  raw (memset PARAMETER 0 sizeof_Parameter d1) a = raw d a.
Proof using Type. intros [Ho Hp] Hd. rewrite raw_memset_out by lia. by apply Hd. Qed.

(** fillFrame *)
Lemma fill_frame_at trans delay (d : Display) : is_display_command CMD_fillFrame trans ->
  fill_type d = foreground \/ fill_type d = background ->
  exists d', display_transport (E := E) trans delay d = (Ret (trans, delay + 5 * NS), d') /\
    (forall y x, on_screen y x -> pixel (target (fill_type d) d) y x d' = fill_color d) /\
    (forall a, outside (target (fill_type d) d) a -> raw d' a = raw d a).
Proof using Type.
  intros Hc Hf. set (base := target (fill_type d) d).
  assert (Hm : fillFrame (E := E) (fill_type d) (fill_color d) d
    = (Ret tt, fill_words (Z.to_nat (sizeof_Frame / 8)) base 0 (wideColor (fill_color d)) d)).
  { unfold fillFrame, getFrame, base, target. by destruct Hf as [-> | ->]. }
  rewrite (command_result CMD_fillFrame _ _ _ _ _ _ Hc eq_refl Hm). eexists. split; [reflexivity |]. split.
  - intros y x Hon. rewrite pixel_parameters by (done || apply target_range). rewrite fill_pixels by done.
    apply to_type_id, in_type_uint16.
  - intros a Ha. apply (outside_parameters base); [done |]. apply fill_outside.
Qed.

(** drawLine, if it is defined *)
Lemma line_at trans delay (d : Display) r d' : is_display_command CMD_drawLine trans ->
  display_transport (E := E) trans delay d = (r, d') ->
  r = Ret (trans, delay + 5 * NS) /\ (forall a, outside (target (line_type d) d) a -> raw d' a = raw d a) \/
  r = Fatal UndefinedBehaviour \/
  r = Fatal AssertFailed /\ line_type d <> foreground /\ line_type d <> background.
Proof using Type.
  intros Hc Hr. destruct (drawLine (E := E) (line_type d) (line_from d) (line_to d) (line_color d) d) as [r1 d1] eqn:Hm.
  rewrite (command_result CMD_drawLine _ _ _ _ _ _ Hc eq_refl Hm) in Hr.
  destruct (draws_line _ _ _ _ _ _ _ Hm) as [[[-> | [[] ->]] Hw] | [-> Ht]].
  - injection Hr as <- <-. right. by left.
  - injection Hr as <- <-. left. split; [done |]. intros a Ha.
    apply (outside_parameters (target (line_type d) d)); [done | apply Hw].
  - injection Hr as <- <-. right. by right.
Qed.

(** applyFrame *)
Definition active_byte (d : Display) : Prop := 0 <= activeFrame d < 256.

Lemma apply_frames (d : Display) : active_byte d ->
  let d1 := set_activeFrame (activeFrame d + 1) d in
  getActiveFrame d1 = getInactiveFrame d /\ getInactiveFrame d1 = getActiveFrame d.
Proof using Type.
  intros Hb d1. assert (Ha : activeFrame d1 = uint8 (activeFrame d + 1)) by done.
  unfold getActiveFrame, getInactiveFrame. rewrite Ha. unfold uint8, uint. unfold active_byte in Hb.
  assert (Hm : (activeFrame d + 1) mod 2 ^ 8 = activeFrame d + 1 \/ activeFrame d = 255 /\ (activeFrame d + 1) mod 2 ^ 8 = 0).
  { destruct (decide (activeFrame d = 255)) as [-> | Hne]; [by right | left]. apply Z.mod_small. lia. }
  destruct Hm as [-> | [-> ->]]; split; try done. f_equal. f_equal.
  replace (activeFrame d + 1 + 1) with (activeFrame d + 1 * 2) by lia. by apply Z_mod_plus_full.
Qed.

Lemma frames_apart (d : Display) : let A := getActiveFrame d in let I := getInactiveFrame d in
  FRAMES <= A /\ FRAMES <= I /\ A + sizeof_Frame <= BACKGROUND /\ I + sizeof_Frame <= BACKGROUND /\
  (A + sizeof_Frame <= I \/ I + sizeof_Frame <= A).
Proof using Type.
  unfold getActiveFrame, getInactiveFrame. rewrite <- (Zplus_mod_idemp_l (activeFrame d)).
  pose proof (Z.mod_pos_bound (activeFrame d) 2 ltac:(done)) as Hp.
  assert (Hv : activeFrame d mod 2 = 0 \/ activeFrame d mod 2 = 1) by lia.
  unfold BACKGROUND, FRAMES, sizeof_Frame, screenWidth, screenHeight.
  destruct Hv as [-> | ->]; [change ((0 + 1) mod 2) with 1 | change ((1 + 1) mod 2) with 0]; cbv zeta; lia.
Qed.

Lemma apply_at trans delay (d : Display) : is_display_command CMD_applyFrame trans -> active_byte d ->
  exists d', display_transport (E := E) trans delay d = (Ret (trans, delay + 5 * NS), d') /\
    getActiveFrame d' = getInactiveFrame d /\ getInactiveFrame d' = getActiveFrame d /\
    (forall y x, on_screen y x ->
       pixel (getActiveFrame d') y x d' = pixel (getInactiveFrame d) y x d /\
       pixel (getInactiveFrame d') y x d' = pixel (getInactiveFrame d) y x d) /\
    (forall a, in_frame BACKGROUND a -> raw d' a = raw d a).
Proof using Type.
  intros Hc Hb. destruct (apply_frames d Hb) as [Hact Hin]. set (d1 := set_activeFrame (activeFrame d + 1) d) in *.
  set (I := getInactiveFrame d) in *. set (A := getActiveFrame d) in *.
  assert (Hm : applyFrame (E := E) d = (Ret tt, memcpy_within A I sizeof_Frame d1)).
  { unfold applyFrame, modify, mbind, M_bind. fold d1. by rewrite Hact, Hin. }
  rewrite (command_result CMD_applyFrame _ _ _ _ _ _ Hc eq_refl Hm). eexists. split; [reflexivity |].
  set (d2 := memcpy_within A I sizeof_Frame d1). set (d' := memset PARAMETER 0 sizeof_Parameter d2).
  pose proof (frames_apart d) as Hr. fold A I in Hr.
  destruct Hr as (HA & HI & HA' & HI' & Hd).
  assert (H0 : forall a, FRAMES <= a -> raw d' a = raw d2 a /\ raw d1 a = raw d a).
  { intros a Ha. unfold FRAMES, PARAMETER, sizeof_Parameter in *.
    split; [apply raw_memset_out; lia | apply raw_store_out; simpl; unfold ACTIVE_FRAME; lia]. }
  assert (Hactive : activeFrame d' = activeFrame d1).
  { unfold d', d2, activeFrame. rewrite raw_memset_out by (unfold ACTIVE_FRAME, PARAMETER; lia).
    cbn [memcpy_within raw]. unfold ACTIVE_FRAME, FRAMES, PARAMETER, sizeof_Parameter in *.
    by assert ((A <=? 0) && (0 <? A + sizeof_Frame) = false) as -> by lia. }
  assert (Hga : getActiveFrame d' = I) by (unfold getActiveFrame; rewrite Hactive; exact Hact).
  assert (Hgi : getInactiveFrame d' = A) by (unfold getInactiveFrame; rewrite Hactive; exact Hin).
  rewrite Hga, Hgi. split; [done |]. split; [done |]. split; [| intros a Ha].
  - intros y x Hon. split.
    + apply pixel_ext; [done |]. intros a Ha. unfold in_frame in Ha. destruct (H0 a ltac:(lia)) as [-> <-].
      cbn [d2 memcpy_within raw]. by assert ((A <=? a) && (a <? A + sizeof_Frame) = false) as -> by lia.
    + unfold pixel, load_u16. f_equal. unfold bytes_at. apply map_ext_in. intros i Hi%in_seq.
      destruct Hon as [Hy Hx]. assert (Ho : 0 <= pixel_offset y x + Z.of_nat i < sizeof_Frame)
        by (unfold pixel_offset, sizeof_Frame, screenWidth, screenHeight in *; lia).
      destruct (H0 (A + pixel_offset y x + Z.of_nat i) ltac:(lia)) as [-> _].
      cbn [d2 memcpy_within raw].
      assert ((A <=? A + pixel_offset y x + Z.of_nat i) && (A + pixel_offset y x + Z.of_nat i <? A + sizeof_Frame) = true) as -> by lia.
      destruct (H0 (I + (A + pixel_offset y x + Z.of_nat i - A)) ltac:(lia)) as [_ ->]. f_equal. lia.
  - unfold in_frame in Ha. destruct (H0 a ltac:(lia)) as [-> <-]. cbn [d2 memcpy_within raw].
    by assert ((A <=? a) && (a <? A + sizeof_Frame) = false) as -> by lia.
Qed.

(** ** Straight lines *)

(** The whole numbers of the ends, the smaller end first. *)
Definition spans (f t : spec_float) (lo hi : Z) : Prop :=
  let '(a, b) := swap_if (SFltb t f) (f, t) in float_to_Z a = Some lo /\ float_to_Z b = Some hi.

(** The line of the parameters is vertical or horizontal and covers the pixels from
    row [y0] to row [y1] and from column [x0] to column [x1]. *)
Definition straight_line (d : Display) (y0 y1 x0 x1 : Z) : Prop :=
  let '(fx, fy) := line_from d in
  let '(tx, ty) := line_to d in
  (SFeqb fx tx = true /\ x0 = x1 /\ float_to_Z fx = Some x0 /\ spans fy ty y0 y1) \/
  (SFeqb fx tx = false /\ SFeqb fy ty = true /\ y0 = y1 /\ float_to_Z fy = Some y0 /\ spans fx tx x0 x1).

Lemma float_to_uint16_ok f v (d : Display) : float_to_Z f = Some v -> 0 <= v < 2 ^ 16 ->
  float_to_uint16 (E := E) f d = (Ret v, d).
Proof using Type.
  intros Hf Hv. unfold float_to_uint16, float_to. rewrite Hf.
  by assert ((0 <=? v) && (v <=? 2 ^ 16 - 1) = true) as -> by lia.
Qed.

(** The loops on a line that is not on the screen come to a pixel outside of it. *)
Lemma vertical_leaves base x color intToY : ~ (0 <= x < screenWidth /\ intToY < screenHeight) ->
  forall fuel y (d : Display), 0 <= y <= intToY -> (0 < fuel)%nat -> screenHeight < y + Z.of_nat fuel ->
  exists d', draw_vertical (E := E) fuel base x color y intToY d = (Fatal UndefinedBehaviour, d').
Proof using Type.
  intros Hout. induction fuel as [| fuel IH]; intros y d Hy H0 Hf; [lia |]. cbn [draw_vertical].
  destruct (Z.leb_spec y intToY); [| lia]. unfold mbind, M_bind.
  destruct (set_pixel base y x color d) as [r1 d1] eqn:H1.
  destruct (set_pixel_on _ _ _ _ _ _ _ H1) as [[[Hy1 Hx1] ->] | [-> _]]; [| by eexists].
  unfold uint16. rewrite uint_id by (unfold is_uint, screenHeight in *; lia). apply IH; lia.
Qed.

Lemma horizontal_leaves base y color intToX : ~ (0 <= y < screenHeight /\ intToX < screenWidth) ->
  forall fuel x (d : Display), 0 <= x <= intToX -> (0 < fuel)%nat -> screenWidth < x + Z.of_nat fuel ->
  exists d', draw_horizontal (E := E) fuel base y color x intToX d = (Fatal UndefinedBehaviour, d').
Proof using Type.
  intros Hout. induction fuel as [| fuel IH]; intros x d Hx H0 Hf; [lia |]. cbn [draw_horizontal].
  destruct (Z.leb_spec x intToX); [| lia]. unfold mbind, M_bind.
  destruct (set_pixel base y x color d) as [r1 d1] eqn:H1.
  destruct (set_pixel_on _ _ _ _ _ _ _ H1) as [[[Hy1 Hx1] ->] | [-> _]]; [| by eexists].
  unfold uint16. rewrite uint_id by (unfold is_uint, screenWidth in *; lia). apply IH; lia.
Qed.

Lemma draw_straight_leaves base color y0 y1 x0 x1 (d : Display) : straight_line d y0 y1 x0 x1 ->
  0 <= y0 <= y1 -> 0 <= x0 <= x1 -> y1 < 2 ^ 16 -> x1 < 2 ^ 16 -> ~ on_screen y1 x1 ->
  exists d', draw_line (E := E) base (line_from d) (line_to d) color d = (Fatal UndefinedBehaviour, d').
Proof using Type.
  unfold straight_line, draw_line. destruct (line_from d) as [fx fy], (line_to d) as [tx ty].
  intros [(-> & -> & Hx & Hs) | (-> & -> & -> & Hy & Hs)] Hy0 Hx0 Hy1 Hx1 Hout; unfold spans in Hs; unfold on_screen in Hout.
  - destruct (swap_if (SFltb ty fy) (fy, ty)) as [a b]. destruct Hs as [Ha Hb]. unfold mbind, M_bind.
    rewrite (float_to_uint16_ok fx x1), (float_to_uint16_ok b y1), (float_to_uint16_ok a y0) by (done || lia).
    apply vertical_leaves; unfold screenHeight, screenWidth in *; lia.
  - destruct (swap_if (SFltb tx fx) (fx, tx)) as [a b]. destruct Hs as [Ha Hb]. unfold mbind, M_bind.
    rewrite (float_to_uint16_ok fy y1), (float_to_uint16_ok b x1), (float_to_uint16_ok a x0) by (done || lia).
    apply horizontal_leaves; unfold screenHeight, screenWidth in *; lia.
Qed.

Lemma straight_leaves_at trans delay (d : Display) y0 y1 x0 x1 : is_display_command CMD_drawLine trans ->
  line_type d = foreground \/ line_type d = background -> straight_line d y0 y1 x0 x1 ->
  0 <= y0 <= y1 -> 0 <= x0 <= x1 -> y1 < 2 ^ 16 -> x1 < 2 ^ 16 -> ~ on_screen y1 x1 ->
  fst (display_transport (E := E) trans delay d) = Fatal UndefinedBehaviour.
Proof using Type.
  intros Hc Hf Hs Hy Hx Hy1 Hx1 Hout.
  destruct (draw_straight_leaves (target (line_type d) d) (line_color d) y0 y1 x0 x1 d Hs Hy Hx Hy1 Hx1 Hout) as (d1 & Hd1).
  assert (Hm : drawLine (E := E) (line_type d) (line_from d) (line_to d) (line_color d) d = (Fatal UndefinedBehaviour, d1)).
  { unfold drawLine, getFrame. unfold target in Hd1. by destruct Hf as [Hf | Hf]; rewrite Hf in *. }
  by rewrite (command_result CMD_drawLine _ _ _ _ _ _ Hc eq_refl Hm).
Qed.

Lemma draw_straight base color y0 y1 x0 x1 (d : Display) : straight_line d y0 y1 x0 x1 ->
  on_screen y0 x0 -> on_screen y1 x1 ->
  exists d', draw_line (E := E) base (line_from d) (line_to d) color d = (Ret tt, d') /\
    forall y x, on_screen y x -> pixel base y x d' =
      if (y0 <=? y) && (y <=? y1) && (x0 <=? x) && (x <=? x1) then to_type uint16_t color else pixel base y x d.
Proof using Type.
  unfold straight_line, draw_line. destruct (line_from d) as [fx fy], (line_to d) as [tx ty].
  unfold on_screen, screenHeight, screenWidth.
  intros [(-> & -> & Hx & Hs) | (-> & -> & -> & Hy & Hs)] [Hy0 Hx0] [Hy1 Hx1]; unfold spans in Hs.
  - destruct (swap_if (SFltb ty fy) (fy, ty)) as [a b]. destruct Hs as [Ha Hb]. unfold mbind, M_bind.
    rewrite (float_to_uint16_ok fx x1), (float_to_uint16_ok b y1), (float_to_uint16_ok a y0) by (done || lia).
    destruct (vertical_pixels base x1 color y1 ltac:(unfold screenWidth; lia) ltac:(unfold screenHeight; lia)
      (S (Z.to_nat 600)) y0 d ltac:(lia) ltac:(lia)) as (d' & Hd & Hp).
    exists d'. split; [exact Hd |]. intros y x Hon. rewrite Hp by done.
    f_equal. destruct (Z.eqb_spec x x1), (Z.leb_spec x1 x), (Z.leb_spec x x1), ((y0 <=? y) && (y <=? y1)); (done || lia).
  - destruct (swap_if (SFltb tx fx) (fx, tx)) as [a b]. destruct Hs as [Ha Hb]. unfold mbind, M_bind.
    rewrite (float_to_uint16_ok fy y1), (float_to_uint16_ok b x1), (float_to_uint16_ok a x0) by (done || lia).
    destruct (horizontal_pixels base y1 color x1 ltac:(unfold screenHeight; lia) ltac:(unfold screenWidth; lia)
      (S (Z.to_nat 800)) x0 d ltac:(lia) ltac:(lia)) as (d' & Hd & Hp).
    exists d'. split; [exact Hd |]. intros y x Hon. rewrite Hp by done.
    f_equal. destruct (Z.eqb_spec y y1), (Z.leb_spec y1 y), (Z.leb_spec y y1); (done || lia).
Qed.

Lemma straight_at trans delay (d : Display) y0 y1 x0 x1 : is_display_command CMD_drawLine trans ->
  line_type d = foreground \/ line_type d = background -> straight_line d y0 y1 x0 x1 ->
  on_screen y0 x0 -> on_screen y1 x1 ->
  exists d', display_transport (E := E) trans delay d = (Ret (trans, delay + 5 * NS), d') /\
    forall y x, on_screen y x -> pixel (target (line_type d) d) y x d' =
      if (y0 <=? y) && (y <=? y1) && (x0 <=? x) && (x <=? x1) then line_color d
      else pixel (target (line_type d) d) y x d.
Proof using Type.
  intros Hc Hf Hs H0 H1. set (base := target (line_type d) d).
  destruct (draw_straight base (line_color d) y0 y1 x0 x1 d Hs H0 H1) as (d1 & Hd1 & Hp).
  assert (Hm : drawLine (E := E) (line_type d) (line_from d) (line_to d) (line_color d) d = (Ret tt, d1)).
  { unfold drawLine, getFrame. unfold base, target in Hd1. by destruct Hf as [Hf | Hf]; rewrite Hf in *. }
  rewrite (command_result CMD_drawLine _ _ _ _ _ _ Hc eq_refl Hm). eexists. split; [reflexivity |].
  intros y x Hon. rewrite pixel_parameters by (done || apply target_range). rewrite Hp by done.
  rewrite to_type_id by apply in_type_uint16. done.
Qed.

(** C35: the commands of the display.  fillFrame gives every pixel of the frame it
    names the colour and changes nothing else but the parameters.  A drawLine that
    returns has changed no byte outside of the frame it names and the parameters; a
    straight line on the screen does return and has drawn exactly the pixels between
    its ends.  Every other result of drawLine is a failed assertion, for a frame that
    does not exist, or undefined behaviour, where the model stops and nothing is
    claimed: a float that does not fit the integer it is converted to, or a pixel
    outside of the screen, at which the program itself goes on and writes behind the
    row or the frame.  A straight line with an end off the screen always does that.
    So a finished fillFrame or drawLine shows nothing to the viewer; applyFrame shows
    the frame drawn to, leaves the same picture in the frame to be drawn to next, and
    does not touch the background. *)
Theorem display_frames (d : Display) trans delay :
  let drawn_to := target (fill_type d) d in
  let finished := Ret (E := E) (trans, delay + 5 * NS) in
  (is_display_command CMD_fillFrame trans -> fill_type d = foreground \/ fill_type d = background ->
   exists d', display_transport trans delay d = (finished, d') /\
     (forall y x, on_screen y x -> pixel drawn_to y x d' = fill_color d) /\
     (forall a, outside drawn_to a -> raw d' a = raw d a)) /\
  (is_display_command CMD_drawLine trans ->
   (forall r d', display_transport (E := E) trans delay d = (r, d') ->
      r = finished /\ (forall a, outside drawn_to a -> raw d' a = raw d a) \/
      r = Fatal UndefinedBehaviour \/
      r = Fatal AssertFailed /\ line_type d <> foreground /\ line_type d <> background) /\
   (forall y0 y1 x0 x1, line_type d = foreground \/ line_type d = background -> straight_line d y0 y1 x0 x1 ->
      (on_screen y0 x0 -> on_screen y1 x1 ->
       exists d', display_transport trans delay d = (finished, d') /\
        forall y x, on_screen y x -> pixel drawn_to y x d' =
          if (y0 <=? y) && (y <=? y1) && (x0 <=? x) && (x <=? x1) then line_color d else pixel drawn_to y x d) /\
      (0 <= y0 <= y1 -> 0 <= x0 <= x1 -> y1 < 2 ^ 16 -> x1 < 2 ^ 16 -> ~ on_screen y1 x1 ->
       fst (display_transport (E := E) trans delay d) = Fatal UndefinedBehaviour))) /\
  (is_display_command CMD_applyFrame trans -> active_byte d ->
   exists d', display_transport trans delay d = (finished, d') /\
     getActiveFrame d' = getInactiveFrame d /\ getInactiveFrame d' = getActiveFrame d /\
     (forall y x, on_screen y x ->
        pixel (getActiveFrame d') y x d' = pixel (getInactiveFrame d) y x d /\
        pixel (getInactiveFrame d') y x d' = pixel (getInactiveFrame d) y x d) /\
     (forall a, in_frame BACKGROUND a -> raw d' a = raw d a)).
Proof using Type.
  split; [| split].
  - apply fill_frame_at.
  - intros Hc. split; [intros r d'; by apply line_at |]. intros y0 y1 x0 x1 Hf Hs.
    split; [by apply straight_at | by eapply straight_leaves_at].
  - apply apply_at.
Qed.

End drawing.

(** ** Concrete lines *)

Definition display_write (addr : Z) (bytes : list Z) : tlm_generic_payload :=
  mkPayload TLM_WRITE_COMMAND addr bytes TLM_OK_RESPONSE.

(** The parameters of drawLine: the frame, the bits of the ends, the colour. *)
Definition line_parameters (type fx fy tx ty color : Z) : list Z :=
  [type; 0; 0; 0] ++ concat (map (to_bytes uint32_t) [fx; fy; tx; ty]) ++ to_bytes uint16_t color.
Definition display_with (parameters : list Z) : Display :=
  memcpy_from PARAMETER parameters (Display_new (mkDisplay (fun _ => 0))).

(** From (3.0, 5.0) back to (1.0, 5.0), which applyFrame shows. *)
Lemma display_frames_witness :
  let start := display_with (line_parameters foreground 0x40400000 0x40a00000 0x3f800000 0x40a00000 0xf800) in
  exists d' d'',
  display_transport (E := unit) (display_write COMMAND [CMD_drawLine]) 0 start
    = (Ret (display_write COMMAND [CMD_drawLine], 5 * NS), d') /\
  display_transport (E := unit) (display_write COMMAND [CMD_applyFrame]) 0 d'
    = (Ret (display_write COMMAND [CMD_applyFrame], 5 * NS), d'') /\
  pixel (getActiveFrame d'') 5 2 d'' = 0xf800 /\ pixel (getActiveFrame d'') 5 4 d'' = 0.
Proof.
  intros start.
  assert (Ht : target (fill_type start) start = FRAMES + sizeof_Frame) by by vm_compute.
  assert (Hs : straight_line start 5 5 1 3) by (right; by vm_compute).
  assert (Hi : activeFrame start = 0 /\ line_color start = 0xf800 /\ pixel (FRAMES + sizeof_Frame) 5 4 start = 0 /\
    line_type start = foreground) by (by vm_compute).
  clearbody start. destruct Hi as (Ha & Hcol & Hpix0 & Hf).
  destruct (display_frames (E := unit) start (display_write COMMAND [CMD_drawLine]) 0) as (_ & Hline & _).
  destruct Hline as [Hkeep Hline]; [by repeat split |]. rewrite Ht in Hkeep, Hline.
  destruct (proj1 (Hline 5 5 1 3 (or_introl Hf) Hs) ltac:(done) ltac:(done)) as (d' & Hd & Hp). rewrite Hcol in Hp.
  assert (Ha' : activeFrame d' = 0).
  { unfold activeFrame. destruct (Hkeep _ _ Hd) as [[_ Hkept] | [? | [? _]]]; [| done | done]. rewrite Hkept; [done |]. unfold outside, in_frame, sizeof_Frame, FRAMES, PARAMETER,
      sizeof_Parameter, screenWidth, screenHeight, ACTIVE_FRAME. lia. }
  destruct (display_frames (E := unit) d' (display_write COMMAND [CMD_applyFrame]) 0) as (_ & _ & Happly).
  destruct Happly as (d'' & Hd'' & _ & _ & Hpix & _); [by repeat split | unfold active_byte; lia |].
  assert (Hin : getInactiveFrame d' = FRAMES + sizeof_Frame) by (unfold getInactiveFrame; by rewrite Ha').
  exists d', d''. split; [exact Hd |]. split; [exact Hd'' |].
  rewrite (proj1 (Hpix 5 2 ltac:(done))), (proj1 (Hpix 5 4 ltac:(done))), Hin, !Hp by done. done.
Defined.

(** A line from (0.0, 598.0) to (100.0, 599.75), two points on the screen, leaves the
    frame: the rows are rounded to the nearest. *)
Lemma line_leaves_frame :
  fst (drawLine (E := unit) foreground (float_of_bits 0, float_of_bits 0x44158000)
    (float_of_bits 0x42c80000, float_of_bits 0x4415f000) 0xffff (display_with [])) = Fatal UndefinedBehaviour /\
  float_to_Z (float_of_bits 0x44158000) = Some 598 /\ float_to_Z (float_of_bits 0x4415f000) = Some 599.
Proof. repeat split; by vm_compute. Qed.
