(* ===== verification/SmallDevices.v ===== *)
(** * Small devices

    Models the devices of a few lines: the clock, reset and always-on registers
    (platform/hifive/prci.h, aon.h; platform/linux/prci.h), the mask ROM and the
    one-time programmable memory (maskROM.h, otp.h), the MRAM, the random source and
    the basic timer (platform/basic/mram.h, random_source.h, basic_timer.h), the UART
    16550 (platform/common/uart16550.h) and the host interface of the test platform
    (test32/htif.h).  The streams, random numbers and lines they use are the fields
    of a class per device. *)

From Stdlib Require Import Ascii String.
From S2P Require Import Prelude Memory MemoryMap TlmMap.

(** ** Banks of registers

    The state of such a device gives every register its value. *)

Section bank.
Context {V E : Type} `{!EqDecision V}.

Definition bank_registers : register_file (V -> Z) V := {|
  load_reg r regs := regs r;
  store_reg r v regs := fun x => if decide (x = r) then v else regs x
|}.

#[local] Existing Instance bank_registers.

(** The callback of the devices whose registers only hold what is written. *)
Definition plain_access : handler_t (V -> Z) V E := fun r => access_fn r.

Definition bank_transport (bank : list (reg_mapping_t V)) (f : handler_t (V -> Z) V E) : transport_fn (V -> Z) E :=
  router_transport [RegisterMapping bank (Some f)].

(** A whole access to a register of a bank. *)
Definition whole_access (bank : list (reg_mapping_t V)) (reg : V) (trans : tlm_generic_payload) : Prop :=
  find_reg bank (address trans) = Some (register (address trans) reg) /\ address trans mod 4 = 0 /\ data_length trans = 4.

(** A plain bank is an array of words: a register holds what is written to it, and
    no other register changes. *)
Lemma plain_bank bank reg trans delay (regs : V -> Z) : whole_access bank reg trans ->
  (command trans = TLM_WRITE_COMMAND -> exists regs',
     bank_transport bank plain_access trans delay regs = (Ret (trans, delay), regs') /\
     regs' reg = from_bytes uint32_t (payload_data trans) /\ forall other, other <> reg -> regs' other = regs other) /\
  (command trans = TLM_READ_COMMAND ->
     bank_transport bank plain_access trans delay regs
     = (Ret (set_payload_data (to_bytes uint32_t (regs reg)) trans, delay), regs)).
Proof.
  intros (Hf & Hm & Hl).
  assert (Ht : is_read (command trans) || is_write (command trans) = true -> forall data regs',
    register_fn (E := E) (register (address trans) reg) trans regs = (Ret data, regs') ->
    bank_transport bank plain_access trans delay regs = (Ret (set_payload_data data trans, delay), regs')).
  { intros Hc data regs' Hfn. unfold bank_transport. rewrite (bank_access _ _ _ _ _ reg _ eq_refl Hf Hm Hl Hc).
    unfold plain_access, mbind, M_bind. cbn [access_fn]. by rewrite Hfn. }
  pose proof (register_fn_whole (E := E) reg (address trans) trans regs Hm Hl) as Hfn.
  split; intros Hc; rewrite Hc in Hfn, Ht.
  - eexists. rewrite (Ht eq_refl _ _ Hfn), set_payload_data_same. split; [reflexivity |].
    split; [by apply decide_True | intros other Ho; by apply decide_False].
  - exact (Ht eq_refl _ _ Hfn).
Qed.

End bank.

(** ** PRCI of the HiFive platform *)

Inductive prci_reg : Type := hfrosccfg | hfxosccfg | pllcfg | plloutdiv.

#[export] Instance prci_reg_eq_dec : EqDecision prci_reg.
Proof. solve_decision. Defined.
#[export] Instance prci_reg_file : register_file (prci_reg -> Z) prci_reg := bank_registers.

Definition HFROSCCFG_REG_ADDR : Z := 0x0.
Definition HFXOSCCFG_REG_ADDR : Z := 0x4.
Definition PLLCFG_REG_ADDR : Z := 0x8.
Definition PLLOUTDIV_REG_ADDR : Z := 0xC.

Definition PRCI_new : prci_reg -> Z := fun _ => 0.

(** [1 << 31] as a word. *)
Definition READY : Z := 2 ^ 31.

Definition prci_bank : list (reg_mapping_t prci_reg) :=
  [register HFROSCCFG_REG_ADDR hfrosccfg; register HFXOSCCFG_REG_ADDR hfxosccfg;
   register PLLCFG_REG_ADDR pllcfg; register PLLOUTDIV_REG_ADDR plloutdiv].

Section prci.
Context {E : Type}.

Definition set_ready (reg : prci_reg) : M (prci_reg -> Z) E unit :=
  modify (fun regs => store_reg reg (Z.lor (regs reg) READY) regs).

Definition prci_register_access : handler_t (prci_reg -> Z) prci_reg E := fun r =>
  when (access_read r && bool_decide (access_vptr r = hfxosccfg)) (modify (store_reg hfxosccfg READY)) ;;
  data ← access_fn r;
  when (bool_decide (access_vptr r = hfrosccfg) && negb (access_nv r =? 0)) (set_ready hfrosccfg) ;;
  when (bool_decide (access_vptr r = pllcfg) && negb (access_nv r =? 0)) (set_ready pllcfg) ;;
  mret data.

Definition prci_transport : transport_fn (prci_reg -> Z) E := bank_transport prci_bank prci_register_access.

(** The callback as the router calls it, for an access to the whole of a register. *)
Lemma prci_access addr reg trans delay (regs : prci_reg -> Z) :
  find_reg prci_bank addr = Some (register addr reg) -> address trans = addr -> addr mod 4 = 0 -> data_length trans = 4 ->
  is_read (command trans) || is_write (command trans) = true ->
  prci_transport trans delay regs =
  let nv := if is_write (command trans) then from_bytes uint32_t (payload_data trans) else 0 in
  let regs1 := if is_read (command trans) && bool_decide (reg = hfxosccfg) then store_reg hfxosccfg READY regs else regs in
  let data := if is_read (command trans) then to_bytes uint32_t (regs1 reg) else payload_data trans in
  let regs2 := if is_write (command trans) then store_reg reg nv regs1 else regs1 in
  let regs3 := if bool_decide (reg = hfrosccfg) && negb (nv =? 0) then store_reg hfrosccfg (Z.lor (regs2 hfrosccfg) READY) regs2 else regs2 in
  let regs4 := if bool_decide (reg = pllcfg) && negb (nv =? 0) then store_reg pllcfg (Z.lor (regs3 pllcfg) READY) regs3 else regs3 in
  (Ret (set_payload_data data trans, delay), regs4).
Proof.
  intros Hf Ha Hm Hl Hc. unfold prci_transport, bank_transport. rewrite (bank_access _ _ _ _ addr reg _ Ha Hf Hm Hl Hc).
  assert (Hm' : address trans mod 4 = 0) by (by rewrite Ha).
  unfold prci_register_access. cbn [access_read access_vptr access_nv access_fn].
  set (nv := if is_write _ then _ else _). unfold mbind, M_bind, modify.
  destruct (is_read (command trans) && bool_decide (reg = hfxosccfg)); cbn [when skip mret M_ret];
    rewrite (register_fn_whole reg addr trans _ Hm' Hl);
    destruct (command trans); cbn [is_read is_write orb] in *; try discriminate;
    destruct (bool_decide (reg = hfrosccfg) && _); cbn [when skip mret M_ret set_ready modify];
    destruct (bool_decide (reg = pllcfg) && _); reflexivity.
Qed.

(** A driver that waits for a ready bit sees it: the crystal is always ready, and an
    oscillator or the PLL once a value other than zero is written to it. *)
Lemma prci_ready trans delay (regs : prci_reg -> Z) : data_length trans = 4 ->
  (command trans = TLM_READ_COMMAND -> address trans = HFXOSCCFG_REG_ADDR ->
     exists regs', prci_transport trans delay regs = (Ret (set_payload_data (to_bytes uint32_t READY) trans, delay), regs')) /\
  (forall reg, command trans = TLM_WRITE_COMMAND ->
     address trans = HFROSCCFG_REG_ADDR /\ reg = hfrosccfg \/ address trans = PLLCFG_REG_ADDR /\ reg = pllcfg ->
     from_bytes uint32_t (payload_data trans) <> 0 ->
     exists regs', prci_transport trans delay regs = (Ret (trans, delay), regs') /\
       regs' reg = Z.lor (from_bytes uint32_t (payload_data trans)) READY).
Proof.
  intros Hl. split.
  - intros Hc Ha. rewrite (prci_access HFXOSCCFG_REG_ADDR hfxosccfg _ _ _ eq_refl Ha eq_refl Hl) by (by rewrite Hc).
    rewrite Hc. eexists. reflexivity.
  - intros reg Hc Ha Hv. apply Z.eqb_neq in Hv.
    destruct Ha as [[Ha ->] | [Ha ->]];
      [rewrite (prci_access HFROSCCFG_REG_ADDR hfrosccfg _ _ _ eq_refl Ha eq_refl Hl) by (by rewrite Hc)
      | rewrite (prci_access PLLCFG_REG_ADDR pllcfg _ _ _ eq_refl Ha eq_refl Hl) by (by rewrite Hc)];
      rewrite Hc; cbv zeta; cbn [is_read is_write andb]; rewrite Hv, set_payload_data_same; eexists; (split; [reflexivity |]); reflexivity.
Qed.

End prci.

(** ** PRCI of the Linux platforms *)

Inductive linux_prci_reg : Type :=
  | LHfrosccfg | CorePllcfg0 | DdrPllcfg0 | CorePllcfg1 | GemgxlPllcfg0 | GemgxlPllcfg1 | CoreClksel | ResetReg | ClkmuxStatus.

#[export] Instance linux_prci_reg_eq_dec : EqDecision linux_prci_reg.
Proof. solve_decision. Defined.
#[export] Instance linux_prci_reg_file : register_file (linux_prci_reg -> Z) linux_prci_reg := bank_registers.

Definition linux_prci_bank : list (reg_mapping_t linux_prci_reg) :=
  [register 0x0 LHfrosccfg; register 0x4 CorePllcfg0; register 0x8 DdrPllcfg0; register 0x10 CorePllcfg1;
   register 0x1C GemgxlPllcfg0; register 0x20 GemgxlPllcfg1; register 0x24 CoreClksel; register 0x28 ResetReg;
   register 0x2C ClkmuxStatus].
Definition linux_prci_transport {E} : transport_fn (linux_prci_reg -> Z) E := bank_transport linux_prci_bank plain_access.

(** ** AON *)

Inductive aon_reg : Type :=
  | wdogcfg | wdogcount | wdogfeed | wdogkey | wdogcmp0
  | rtccfg | rtccountlo | rtccounthi | rtcs | rtccmp0
  | lfrosccfg | pmucause
  | backup (i : nat).

#[export] Instance aon_reg_eq_dec : EqDecision aon_reg.
Proof. solve_decision. Defined.
#[export] Instance aon_reg_file : register_file (aon_reg -> Z) aon_reg := bank_registers.

Definition AON_new : aon_reg -> Z := fun r => match r with pmucause => 2 ^ 8 | _ => 0 end.

Definition BACKUP0_REG_ADDR : Z := 0x80.
Definition aon_bank : list (reg_mapping_t aon_reg) :=
  [register 0x000 wdogcfg; register 0x010 wdogcount; register 0x018 wdogfeed; register 0x01C wdogkey;
   register 0x020 wdogcmp0;
   register 0x040 rtccfg; register 0x048 rtccountlo; register 0x04C rtccounthi; register 0x050 rtcs;
   register 0x060 rtccmp0;
   register 0x70 lfrosccfg; register 0x144 pmucause] ++
  map (fun i => register (BACKUP0_REG_ADDR + 4 * Z.of_nat i) (backup i)) (seq 0 32).
Definition aon_transport {E} : transport_fn (aon_reg -> Z) E := bank_transport aon_bank plain_access.

(** No two registers of a bank share an address, which add_register_bank checks. *)
Lemma banks_distinct :
  NoDup (map reg_addr prci_bank) /\ NoDup (map reg_addr linux_prci_bank) /\ NoDup (map reg_addr aon_bank).
Proof. split; [| split]; by apply (bool_decide_unpack _). Qed.

(** ** The mask ROM *)

Definition baseAddr : Z := 0x1000.
Definition configStringOffs : Z := 0x03b0.

Definition chars (s : string) : list Z := map (fun c => Z.of_N (N_of_ascii c)) (list_ascii_of_string s).
Definition QUOTE : list Z := [34].
Definition configString : list Z :=
  chars "/cs-v1/;" ++ chars "/{" ++
  chars "model = " ++ QUOTE ++ chars "SiFive,FE310G-0000-Z0" ++ QUOTE ++ chars ";" ++
  chars "compatible = " ++ QUOTE ++ chars "sifive,fe300" ++ QUOTE ++ chars ";" ++
  chars "/include/ 0x20004;" ++ chars "};".

Section maskrom.
Context {E : Type}.

(** The device has no state; a copy of four bytes to shorter data and one from
    behind the terminated string are undefined. *)
Definition maskrom_transport {S} : transport_fn S E := fun trans delay =>
  let addr := uint32 (address trans) in
  let len := data_length trans in
  let n := Z.of_nat (List.length configString) in
  match command trans with
  | TLM_READ_COMMAND =>
      if addr <? 0x000C then mret (set_payload_data (replicate (Z.to_nat len) 0) trans, delay)
      else if uint32 (addr + len) <=? 0x000C + 4 then
        if len <? 4 then fatal UndefinedBehaviour
        else mret (set_payload_data (to_bytes uint32_t (baseAddr + configStringOffs) ++ drop 4 (payload_data trans)) trans,
                   delay + len * (5 * NS))
      else if addr <? configStringOffs then fatal AssertFailed
      else if addr <? configStringOffs + n then
        let offs := addr - configStringOffs in
        let cut := uint8 (if uint32 (offs + len) <=? n then len else uint32 (offs + len) - n) in
        if n + 1 <? offs + cut then fatal UndefinedBehaviour
        else mret (set_payload_data (take (Z.to_nat cut) (drop (Z.to_nat offs) (configString ++ [0])) ++
                     replicate (Z.to_nat (len - cut)) 0) trans, delay)
      else mret (set_payload_data (replicate (Z.to_nat len) 0) trans, delay + len * (5 * NS))
  | _ => fatal RuntimeError
  end.

(** A read within the string gives its bytes. *)
Lemma maskrom_string {S} trans delay (s : S) : command trans = TLM_READ_COMMAND ->
  configStringOffs <= address trans -> 0 < data_length trans < 256 ->
  address trans + data_length trans <= configStringOffs + Z.of_nat (List.length configString) ->
  maskrom_transport trans delay s =
  (Ret (set_payload_data (take (List.length (payload_data trans))
     (drop (Z.to_nat (address trans - configStringOffs)) configString)) trans, delay), s).
Proof.
  intros Hc Ha Hl Hend. unfold maskrom_transport. rewrite Hc.
  assert (Hn : Z.of_nat (List.length configString) = 90) by done. rewrite Hn in *.
  unfold configStringOffs in *. unfold uint32. rewrite !uint_id by (rewrite ?uint_id; unfold is_uint; lia).
  assert ((address trans <? 12) = false) as -> by lia.
  assert ((address trans + data_length trans <=? 12 + 4) = false) as -> by lia.
  assert ((address trans <? 944) = false) as -> by lia. assert ((address trans <? 944 + 90) = true) as -> by lia.
  assert ((address trans - 944 + data_length trans <=? 90) = true) as -> by lia.
  unfold uint8. rewrite uint_id by (unfold is_uint; lia).
  assert ((90 + 1 <? address trans - 944 + data_length trans) = false) as -> by lia.
  rewrite Z.sub_diag. unfold data_length in *. rewrite Nat2Z.id. change (Z.to_nat 0) with 0%nat. cbn [replicate].
  rewrite app_nil_r. unfold mret, M_ret. do 4 f_equal. rewrite drop_app_le by lia. rewrite take_app_le; [done |].
  rewrite length_drop. lia.
Qed.

(** A read across its end does not give the rest of it and zeros: of the last three
    characters, a read of four bytes gives one. *)
Lemma maskrom_end : let trans := mkPayload TLM_READ_COMMAND (configStringOffs + 87) [1; 1; 1; 1] TLM_OK_RESPONSE in
  drop 87 configString = chars ";};" /\
  maskrom_transport trans 0 tt = (Ret (set_payload_data (chars ";" ++ [0; 0; 0]) trans, 0), tt).
Proof. split; by vm_compute. Qed.

(** The one-time programmable memory. *)
Definition otp_transport {S} : transport_fn S E := fun _ _ => fatal AssertFailed.

End maskrom.

(** ** The MRAM

    The file behind the memory; without a path or a size none is open, and the
    streams do nothing. *)
Record SimpleMRAM : Type := mkMRAM { mSize : Z; mram_file : option (list Z) }.

(** The file the constructor leaves: cut or filled with zeros to the size. *)
Definition SimpleMRAM_new (path_given : bool) (old : list Z) (size : Z) : SimpleMRAM :=
  mkMRAM size (if path_given && negb (size =? 0)
               then Some (take (Z.to_nat size) (old ++ replicate (Z.to_nat size) 0)) else None).

Section mram.
Context {E : Type}.

(** A write behind the end of a file fills the gap with zeros. *)
Definition file_write (addr : nat) (src file : list Z) : list Z :=
  take addr (file ++ replicate addr 0) ++ src ++ drop (addr + List.length src) file.

(** A read behind the end leaves the rest of the buffer as it is. *)
Definition file_read (addr : nat) (dst file : list Z) : list Z :=
  let got := take (List.length dst) (drop addr file) in got ++ drop (List.length got) dst.

Definition mram_write_data (addr : Z) (src : list Z) : M SimpleMRAM E unit :=
  d ← gets id;
  assert (uint32 (addr + Z.of_nat (List.length src)) <=? mSize d) ;;
  modify (fun d => mkMRAM (mSize d) (option_map (file_write (Z.to_nat addr) src) (mram_file d))).

Definition mram_read_data (addr : Z) (dst : list Z) : M SimpleMRAM E (list Z) :=
  d ← gets id;
  assert (uint32 (addr + Z.of_nat (List.length dst)) <=? mSize d) ;;
  mret (match mram_file d with Some file => file_read (Z.to_nat addr) dst file | None => dst end).

Definition mram_transport : transport_fn SimpleMRAM E := fun trans delay =>
  let addr := uint32 (address trans) in
  let len := data_length trans in
  d ← gets id;
  assert (addr <? mSize d) ;;
  trans ←
    match command trans with
    | TLM_WRITE_COMMAND => mram_write_data addr (payload_data trans) ;; mret trans
    | TLM_READ_COMMAND => data ← mram_read_data addr (payload_data trans); mret (set_payload_data data trans)
    | TLM_IGNORE_COMMAND => fatal AssertFailed
    end;
  mret (trans, delay + len * (30 * NS)).

(** With a file of its size the MRAM is an array of bytes. *)
Lemma mram_array trans delay (d : SimpleMRAM) file : mram_file d = Some file -> Z.of_nat (List.length file) = mSize d ->
  mSize d < 2 ^ 32 -> 0 <= address trans < mSize d -> address trans + data_length trans <= mSize d ->
  let delay' := delay + data_length trans * (30 * NS) in
  (command trans = TLM_WRITE_COMMAND ->
     mram_transport trans delay d = (Ret (trans, delay'),
       mkMRAM (mSize d) (Some (list_inserts (Z.to_nat (address trans)) (payload_data trans) file)))) /\
  (command trans = TLM_READ_COMMAND ->
     mram_transport trans delay d = (Ret (set_payload_data
       (take (List.length (payload_data trans)) (drop (Z.to_nat (address trans)) file)) trans, delay'), d)).
Proof.
  intros Hf Hl Hs Ha He delay'. unfold data_length in *.
  assert (Hu : uint32 (address trans) = address trans) by (unfold uint32; apply uint_id; unfold is_uint; lia).
  assert (Hu' : (uint32 (address trans + Z.of_nat (List.length (payload_data trans))) <=? mSize d) = true).
  { unfold uint32. rewrite uint_id by (unfold is_uint; lia). lia. }
  assert (Ha' : (address trans <? mSize d) = true) by lia.
  split; intros Hc; unfold mram_transport, gets; unfold mbind at 1, M_bind at 1; cbn [id]; rewrite Hu, Ha', Hc;
    unfold mbind, M_bind; cbn [assert skip mret M_ret]; unfold mram_write_data, mram_read_data, gets, mbind, M_bind;
    cbn [id]; rewrite Hu'; cbn [assert skip mret M_ret modify]; rewrite Hf; cbn [option_map].
  - do 2 f_equal. f_equal. unfold file_write.
    rewrite take_app_le by lia. apply list_eq. intros i.
    destruct (decide (i < Z.to_nat (address trans))%nat); [| destruct (decide (i < Z.to_nat (address trans) + List.length (payload_data trans))%nat)].
    + rewrite lookup_app_l, lookup_take_lt by (rewrite ?length_take; lia). by rewrite list_lookup_inserts_lt by lia.
    + rewrite lookup_app_r, length_take, lookup_app_l, list_lookup_inserts by (rewrite ?length_take; lia). f_equal. lia.
    + rewrite !lookup_app_r, lookup_drop, length_take, list_lookup_inserts_ge by (rewrite ?length_take; lia). f_equal. lia.
  - unfold file_read. set (got := take _ _). assert (Hg : List.length (payload_data trans) = List.length got)
      by (unfold got; rewrite length_take, length_drop; lia).
    rewrite (drop_ge (payload_data trans)) by lia. by rewrite app_nil_r.
Qed.

End mram.

(** ** Random source, basic timer and host interface *)

Section sources.
Context {S E : Type}.

(** [rand], the wait of the kernel, and the callbacks. *)
Variable rand : M S E Z.
Variable wait : Z -> M S E unit.
Variable gateway_trigger_interrupt : Z -> M S E unit.

Fixpoint random_bytes (n : nat) : M S E (list Z) :=
  match n with
  | O => mret []
  | Datatypes.S n => v ← rand; bs ← random_bytes n; mret (uint8 v :: bs)
  end.
Definition random_transport : transport_fn S E := fun trans delay =>
  assert (is_read (command trans)) ;;
  bs ← random_bytes (List.length (payload_data trans)); mret (set_payload_data bs trans, delay).

(** The body of the loop of BasicTimer::run, and of HTIF::run. *)
Definition basic_timer_run (irq_number : Z) : M S E unit := wait 1000000000 ;; gateway_trigger_interrupt irq_number.

Definition htif_run (to_host num_instr : S -> Z) (max_instrs : Z) (to_host_callback : Z -> M S E unit) : M S E unit :=
  wait (10 * 1000000) ;;
  x ← gets to_host;
  to_host_callback x ;;
  x ← gets num_instr;
  if max_instrs <=? x then fatal RuntimeError else skip.

End sources.

(** ** UART 16550 *)

Record UART16550 : Type := mkUart16550 { u_regs : list Z; rx_fifo : list Z; initialized : bool }.
Definition UART16550_new : UART16550 := mkUart16550 (replicate 8 0) [] false.

Definition QUEUE_ADDR : Z := 0.
Definition LINESTAT_ADDR : Z := 5.
Definition STATUS_RX : Z := 0x01.
Definition STATUS_TX : Z := 0x20.

(** [read(0, &c, 1)]: what it returns and the character; at the end of the input it
    returns 0 and the character is what the stack held.  [std::cout]. *)
Class uart16550_interface (S E : Type) : Type := {
  get_u : S -> UART16550;
  set_u : UART16550 -> S -> S;
  stdin_read : M S E (Z * Z);
  stdout_put : Z -> M S E unit
}.

Section uart16550.
Context {S E : Type} `{uart16550_interface S E}.

Definition update_u (f : UART16550 -> UART16550) : M S E unit := modify (fun s => set_u (f (get_u s)) s).
Definition u_set_reg (i v : Z) (u : UART16550) : UART16550 :=
  mkUart16550 (<[Z.to_nat i := uint8 v]> (u_regs u)) (rx_fifo u) (initialized u).
Definition set_fifo (q : list Z) (u : UART16550) : UART16550 := mkUart16550 (u_regs u) q (initialized u).
Definition set_initialized (u : UART16550) : UART16550 := mkUart16550 (u_regs u) (rx_fifo u) true.

Definition try_receive_char : M S E unit :=
  u ← gets get_u;
  match rx_fifo u with
  | [] => r ← stdin_read; when (0 <=? fst r) (update_u (fun u => set_fifo (rx_fifo u ++ [uint8 (snd r)]) u))
  | _ => skip
  end.

Definition take_next_char : M S E Z :=
  try_receive_char ;;
  u ← gets get_u;
  match rx_fifo u with
  | [] => mret (uint8 (-1))
  | c :: q => update_u (set_fifo q) ;; mret c
  end.

Definition u_pre_read_regs (t : AccessInfo) : M S E bool :=
  (if info_addr t =? LINESTAT_ADDR then
     update_u (u_set_reg LINESTAT_ADDR 0) ;;
     update_u (fun u => u_set_reg LINESTAT_ADDR (Z.lor (nth (Z.to_nat LINESTAT_ADDR) (u_regs u) 0) STATUS_TX) u) ;;
     try_receive_char ;;
     u ← gets get_u;
     match rx_fifo u with
     | [] => skip
     | _ => update_u (fun u => u_set_reg LINESTAT_ADDR (Z.lor (nth (Z.to_nat LINESTAT_ADDR) (u_regs u) 0) STATUS_RX) u)
     end
   else if info_addr t =? QUEUE_ADDR then
     c ← take_next_char; update_u (u_set_reg QUEUE_ADDR c)
   else skip) ;;
  mret true.

Definition u_post_write_regs (t : AccessInfo) : M S E unit :=
  if info_addr t =? QUEUE_ADDR then
    let data := from_bytes uint8_t (payload_data (info_trans t)) in
    u ← gets get_u;
    if negb (initialized u) then
      update_u set_initialized ;;
      if data =? 0 then skip else stdout_put data
    else stdout_put data
  else skip.

Definition u_mm_regs : RegisterRange S E :=
  mkRegisterRange 0 7 (fun s => u_regs (get_u s))
    (fun m s => set_u (mkUart16550 m (rx_fifo (get_u s)) (initialized (get_u s))) s) false 1
    None (Some u_post_write_regs) (Some u_pre_read_regs) None.

Definition uart16550_transport : transport_fn S E := fun trans delay =>
  trans ← route [u_mm_regs] trans delay; mret (trans, delay).

End uart16550.

(** What is used of the terminal: the characters typed are read one at a time, and
    -1 is returned while there is none. *)
Class uart16550_system (S E : Type) `{uart16550_interface S E} : Type := {
  u_input : S -> list Z;
  u_output : S -> list Z;
  set_u_ok u s : get_u (set_u u s) = u /\ u_input (set_u u s) = u_input s /\ u_output (set_u u s) = u_output s;
  stdin_none s : u_input s = [] -> exists c, stdin_read s = (Ret (-1, c), s);
  stdin_char s c q : u_input s = c :: q -> exists s', stdin_read s = (Ret (1, c), s') /\
    get_u s' = get_u s /\ u_input s' = q /\ u_output s' = u_output s;
  stdout_ok c s : exists s', stdout_put c s = (Ret tt, s') /\
    get_u s' = get_u s /\ u_input s' = u_input s /\ u_output s' = u_output s ++ [c]
}.

Section uart16550_props.
Context {S E : Type} `{Hsys : uart16550_system S E}.
#[local] Set Default Proof Using "Type Hsys".

(** The characters that were typed and not yet read by the guest. *)
Definition u_pending (s : S) : list Z := rx_fifo (get_u s) ++ u_input s.

Record uart_ok (s : S) : Prop := {
  uo_regs : List.length (u_regs (get_u s)) = 8%nat;
  uo_bytes : Forall byte_ok (u_pending s)
}.

(** The queue holds a character if one is pending. *)
Lemma try_receive_ok (s : S) : uart_ok s -> exists s', try_receive_char (E := E) s = (Ret tt, s') /\
  uart_ok s' /\ u_pending s' = u_pending s /\ u_output s' = u_output s /\ u_regs (get_u s') = u_regs (get_u s) /\
  (rx_fifo (get_u s') = [] -> u_pending s = []).
Proof.
  intros [Hl Hb]. unfold try_receive_char, gets, mbind, M_bind. destruct (rx_fifo (get_u s)) as [|c q] eqn:Hq.
  2: { exists s. split; [done |]. split; [done |]. split; [done |]. split; [done |]. split; [done |]. by rewrite Hq. }
  unfold u_pending in *. rewrite Hq in *. cbn [app] in *.
  destruct (u_input s) as [|c q] eqn:Hi.
  - destruct (stdin_none s Hi) as [c ->]. cbn [fst snd Z.leb when]. exists s. rewrite Hq, Hi. repeat split; try done.
    unfold u_pending. by rewrite Hq, Hi.
  - destruct (stdin_char s c q Hi) as (s1 & -> & Hg & Hi1 & Ho1). change (0 <=? fst (1, c)) with true.
    cbn [snd when]. unfold update_u, modify. set (u' := set_fifo _ _).
    destruct (set_u_ok u' s1) as (Hg' & Hi' & Ho'). exists (set_u u' s1).
    assert (Hc : uint8 c = c) by (apply Forall_cons in Hb as [Hb _]; by apply uint_id).
    assert (Hp : rx_fifo (get_u (set_u u' s1)) ++ u_input (set_u u' s1) = c :: q).
    { rewrite Hg', Hi', Hi1. unfold u'. rewrite Hg. cbn [rx_fifo set_fifo]. by rewrite Hq, Hc. }
    rewrite Hp, Ho', Ho1. split; [done |]. split.
    { constructor; [rewrite Hg'; unfold u'; by rewrite Hg | unfold u_pending; by rewrite Hp]. }
    split; [done |]. split; [done |]. rewrite Hg'. unfold u'. rewrite Hg. cbn. by rewrite Hq.
Qed.

Lemma update_u_ok f (s : S) : uart_ok s -> List.length (u_regs (f (get_u s))) = 8%nat ->
  Forall byte_ok (rx_fifo (f (get_u s)) ++ u_input s) ->
  exists s', update_u (E := E) f s = (Ret tt, s') /\ uart_ok s' /\ get_u s' = f (get_u s) /\
    u_input s' = u_input s /\ u_output s' = u_output s.
Proof.
  intros _ Hl Hb. destruct (set_u_ok (f (get_u s)) s) as (Hg & Hi & Ho). eexists. split; [reflexivity |].
  split; [| done]. constructor; [by rewrite Hg | unfold u_pending; by rewrite Hg, Hi].
Qed.

Lemma take_next_ok (s : S) : uart_ok s -> exists s', take_next_char (E := E) s = (Ret (hd 255 (u_pending s)), s') /\
  uart_ok s' /\ u_pending s' = tl (u_pending s) /\ u_output s' = u_output s /\ u_regs (get_u s') = u_regs (get_u s).
Proof.
  intros Hok. destruct (try_receive_ok s Hok) as (s1 & Hs1 & Hok1 & Hp1 & Ho1 & Hr1 & He1).
  unfold take_next_char, gets, mbind, M_bind. rewrite Hs1. destruct (rx_fifo (get_u s1)) as [|c q] eqn:Hq.
  - specialize (He1 eq_refl). rewrite He1 in *. by exists s1.
  - assert (Hpq : u_pending s1 = c :: q ++ u_input s1) by (unfold u_pending; by rewrite Hq).
    rewrite <- Hp1, Hpq. pose proof (uo_bytes _ Hok1) as Hb1. rewrite Hpq in Hb1. apply Forall_cons in Hb1 as [_ Hb1].
    destruct (update_u_ok (set_fifo q) s1 Hok1 (uo_regs _ Hok1) Hb1) as (s2 & -> & Hok2 & Hg2 & Hi2 & Ho2).
    exists s2. split; [done |]. split; [done |]. unfold u_pending. rewrite Hg2, Hi2. cbn [rx_fifo set_fifo u_regs hd tl].
    split; [done |]. split; [congruence | done].
Qed.

Lemma u_access (s : S) trans : uart_ok s -> data_length trans = 1 -> 0 <= address trans <= 7 ->
  range_access s (u_mm_regs (E := E)) trans.
Proof.
  intros [Hl _] Hn Ha. constructor; cbn [rr_start rr_end rr_alignment u_mm_regs]; rewrite ?Z.mod_1_r; try done; try lia.
  - constructor; [| done |].
    + intros m. cbn [rr_mem rr_set_mem u_mm_regs]. by rewrite (proj1 (set_u_ok _ s)).
    + unfold rr_size. cbn [rr_mem rr_end rr_start u_mm_regs]. by rewrite Hl.
  - unfold range_contains. cbn [rr_start rr_end u_mm_regs]. lia.
Qed.

Lemma u_route trans delay : 0 <= address trans <= 7 ->
  route [u_mm_regs] trans delay = range_process (u_mm_regs (S := S) (E := E)) trans delay.
Proof.
  intros Ha. cbn [route]. unfold range_match, range_contains. cbn [rr_start rr_end u_mm_regs].
  by assert ((0 <=? address trans) && (address trans <=? 7) = true) as -> by lia.
Qed.

Lemma nth_u_set_reg i v (u : UART16550) : List.length (u_regs u) = 8%nat -> 0 <= i < 8 ->
  nth (Z.to_nat i) (<[Z.to_nat i := uint8 v]> (u_regs u)) 0 = uint8 v.
Proof using Type. intros Hl Hi. rewrite nth_lookup, list_lookup_insert_eq by lia. done. Qed.

Lemma u_set_reg_ok i v (s : S) : uart_ok s -> exists s', update_u (E := E) (u_set_reg i v) s = (Ret tt, s') /\ uart_ok s' /\
  get_u s' = u_set_reg i v (get_u s) /\ u_pending s' = u_pending s /\ u_output s' = u_output s.
Proof.
  intros Hok. destruct (update_u_ok (u_set_reg i v) s Hok) as (s' & Hs & Hok' & Hg & Hi & Ho).
  { cbn [u_regs u_set_reg]. rewrite length_insert. apply Hok. } { apply Hok. }
  exists s'. split; [done |]. split; [done |]. split; [done |]. split; [| done]. unfold u_pending. by rewrite Hg, Hi.
Qed.

(** A read of one byte: the callback, then the register. *)
Lemma u_read trans delay (s : S) s' : uart_ok s -> data_length trans = 1 -> 0 <= address trans <= 7 ->
  command trans = TLM_READ_COMMAND -> u_pre_read_regs (E := E) (access_info (u_mm_regs (E := E)) trans delay) s = (Ret true, s') ->
  List.length (u_regs (get_u s')) = 8%nat ->
  uart16550_transport (E := E) trans delay s
  = (Ret (set_payload_data [nth (Z.to_nat (address trans)) (u_regs (get_u s')) 0] trans, delay), s').
Proof.
  intros Hok Hn Ha Hc Hpre Hl'. unfold uart16550_transport. rewrite u_route by done. unfold mbind at 1, M_bind at 1.
  rewrite (process_read_eq s u_mm_regs trans delay (u_access s trans Hok Hn Ha) Hc eq_refl).
  cbn [run_pre pre_read_callback u_mm_regs]. unfold mbind, M_bind. fold (u_mm_regs (S := S) (E := E)). rewrite Hpre.
  unfold gets, id, read_bytes. cbn [rr_mem rr_start u_mm_regs mret M_ret]. rewrite Z.sub_0_r.
  unfold data_length in Hn. assert (List.length (payload_data trans) = 1%nat) as -> by lia.
  assert (Hd : take 1 (drop (Z.to_nat (address trans)) (u_regs (get_u s'))) = [nth (Z.to_nat (address trans)) (u_regs (get_u s')) 0]);
    [| by rewrite Hd].
  assert (Hi : (Z.to_nat (address trans) < List.length (u_regs (get_u s')))%nat) by lia.
  rewrite (drop_S _ (nth (Z.to_nat (address trans)) (u_regs (get_u s')) 0)); [done |].
  by apply list_lookup_lookup_total_lt || (rewrite nth_lookup; destruct (lookup_lt_is_Some_2 _ _ Hi) as [v Hv]; by rewrite Hv).
Qed.

Lemma put_ok c (s : S) : uart_ok s -> exists s', stdout_put (E := E) c s = (Ret tt, s') /\ uart_ok s' /\
  get_u s' = get_u s /\ u_pending s' = u_pending s /\ u_output s' = u_output s ++ [c].
Proof.
  intros [Hl Hb]. destruct (stdout_ok c s) as (s' & Hs & Hg & Hi & Ho). exists s'.
  assert (Hp : u_pending s' = u_pending s) by (unfold u_pending; by rewrite Hg, Hi).
  split; [done |]. split; [constructor; [by rewrite Hg | by rewrite Hp] | done].
Qed.

(** A write of the queue register stores the byte and puts it out. *)
Lemma u_write trans delay (s : S) : uart_ok s -> data_length trans = 1 ->
  command trans = TLM_WRITE_COMMAND -> address trans = QUEUE_ADDR ->
  let c := from_bytes uint8_t (payload_data trans) in
  exists s', uart16550_transport (E := E) trans delay s = (Ret (trans, delay), s') /\
    uart_ok s' /\ u_pending s' = u_pending s /\ initialized (get_u s') = true /\
    u_output s' = u_output s ++ (if negb (initialized (get_u s)) && (c =? 0) then [] else [c]).
Proof.
  intros Hok Hn Hc Ha c. unfold uart16550_transport. rewrite u_route by (by rewrite Ha). unfold mbind at 1, M_bind at 1.
  rewrite (process_write_eq s u_mm_regs trans delay (u_access s trans Hok Hn ltac:(by rewrite Ha)) Hc eq_refl eq_refl).
  cbn [run_post post_write_callback u_mm_regs]. fold (u_mm_regs (S := S) (E := E)). set (s1 := write_bytes _ _ _).
  assert (H1 : uart_ok s1 /\ u_pending s1 = u_pending s /\ u_output s1 = u_output s /\ initialized (get_u s1) = initialized (get_u s)).
  { unfold s1, write_bytes. cbn [rr_set_mem rr_mem u_mm_regs]. set (u := mkUart16550 _ _ _).
    destruct (set_u_ok u s) as (Hg & Hi & Ho). unfold u_pending. rewrite Hg, Hi, Ho. split; [| done].
    constructor; [rewrite Hg; cbn [u u_regs]; rewrite length_inserts; apply Hok | unfold u_pending; rewrite Hg, Hi; apply Hok]. }
  clearbody s1. destruct H1 as (Hok1 & Hp1 & Ho1 & Hi1).
  unfold u_post_write_regs, access_info. cbn [info_addr info_trans rr_start u_mm_regs]. rewrite Ha.
  change (QUEUE_ADDR - 0 =? QUEUE_ADDR) with true. fold c. unfold mbind, M_bind, gets. rewrite Hi1.
  destruct (initialized (get_u s)) eqn:Hinit; cbn [negb andb].
  - destruct (put_ok c s1 Hok1) as (s2 & -> & Hok2 & Hg2 & Hp2 & Ho2). exists s2. rewrite Hg2, Hi1.
    split; [done |]. split; [done |]. split; [congruence |]. split; [done | congruence].
  - destruct (update_u_ok set_initialized s1 Hok1 (uo_regs _ Hok1) (uo_bytes _ Hok1)) as (s2 & -> & Hok2 & Hg2 & Hi2 & Ho2).
    assert (Hp2 : u_pending s2 = u_pending s1) by (unfold u_pending; by rewrite Hg2, Hi2).
    destruct (c =? 0).
    + exists s2. rewrite app_nil_r, Hg2. split; [done |]. split; [done |]. split; [congruence |]. split; [done | congruence].
    + destruct (put_ok c s2 Hok2) as (s3 & -> & Hok3 & Hg3 & Hp3 & Ho3). exists s3. rewrite Hg3, Hg2.
      split; [done |]. split; [done |]. split; [congruence |]. split; [done | congruence].
Qed.

(** The characters typed reach the guest in order and each once; 255 is read while
    there is none, which the line status tells apart; the characters written are put
    out in order, but for a first one that is zero. *)
Lemma uart16550_io trans delay (s : S) : uart_ok s -> data_length trans = 1 ->
  (command trans = TLM_READ_COMMAND -> address trans = QUEUE_ADDR ->
   exists s', uart16550_transport (E := E) trans delay s = (Ret (set_payload_data [hd 255 (u_pending s)] trans, delay), s') /\
     uart_ok s' /\ u_pending s' = tl (u_pending s) /\ u_output s' = u_output s) /\
  (command trans = TLM_READ_COMMAND -> address trans = LINESTAT_ADDR ->
   exists s', uart16550_transport (E := E) trans delay s
       = (Ret (set_payload_data [match u_pending s with [] => STATUS_TX | _ => STATUS_TX + STATUS_RX end] trans, delay), s') /\
     uart_ok s' /\ u_pending s' = u_pending s /\ u_output s' = u_output s) /\
  (command trans = TLM_WRITE_COMMAND -> address trans = QUEUE_ADDR ->
   let c := from_bytes uint8_t (payload_data trans) in
   exists s', uart16550_transport (E := E) trans delay s = (Ret (trans, delay), s') /\
     uart_ok s' /\ u_pending s' = u_pending s /\ initialized (get_u s') = true /\
     u_output s' = u_output s ++ (if negb (initialized (get_u s)) && (c =? 0) then [] else [c])).
Proof.
  intros Hok Hn. split; [| split]; intros Hc Ha; [| | by apply u_write].
  - assert (Hpre : exists s', u_pre_read_regs (E := E) (access_info (u_mm_regs (E := E)) trans delay) s = (Ret true, s') /\
      uart_ok s' /\ u_pending s' = tl (u_pending s) /\ u_output s' = u_output s /\ nth 0 (u_regs (get_u s')) 0 = hd 255 (u_pending s)).
    { unfold u_pre_read_regs, access_info. cbn [info_addr rr_start u_mm_regs]. rewrite Ha.
      change (QUEUE_ADDR - 0 =? LINESTAT_ADDR) with false. change (QUEUE_ADDR - 0 =? QUEUE_ADDR) with true.
      destruct (take_next_ok s Hok) as (s1 & Hs1 & Hok1 & Hp1 & Ho1 & Hr1). unfold mbind, M_bind. rewrite Hs1.
      destruct (update_u_ok (u_set_reg QUEUE_ADDR (hd 255 (u_pending s))) s1 Hok1) as (s2 & -> & Hok2 & Hg2 & Hi2 & Ho2).
      { cbn [u_regs u_set_reg]. rewrite length_insert. apply Hok1. } { apply Hok1. }
      exists s2. split; [done |]. split; [done |]. unfold u_pending in *. rewrite Hg2, Hi2. cbn [rx_fifo u_set_reg u_regs].
      split; [done |]. split; [congruence |].
      change 0%nat with (Z.to_nat QUEUE_ADDR). rewrite nth_u_set_reg by (apply Hok1 || done). apply uint_id. destruct Hok as [_ Hb]. unfold u_pending in Hb. destruct (_ ++ _); [done | by apply Forall_cons in Hb as [Hb _]]. }
    destruct Hpre as (s' & Hpre & Hok' & Hp & Ho & Hv). exists s'.
    rewrite (u_read _ _ _ s' Hok Hn ltac:(rewrite Ha; done) Hc Hpre (uo_regs _ Hok')), Ha. change (Z.to_nat QUEUE_ADDR) with 0%nat. by rewrite Hv.
  - assert (Hpre : exists s', u_pre_read_regs (E := E) (access_info (u_mm_regs (E := E)) trans delay) s = (Ret true, s') /\
      uart_ok s' /\ u_pending s' = u_pending s /\ u_output s' = u_output s /\
      nth 5 (u_regs (get_u s')) 0 = match u_pending s with [] => STATUS_TX | _ => STATUS_TX + STATUS_RX end).
    { unfold u_pre_read_regs, access_info. cbn [info_addr rr_start u_mm_regs]. rewrite Ha.
      change (LINESTAT_ADDR - 0 =? LINESTAT_ADDR) with true. cbv beta iota.
      destruct (u_set_reg_ok LINESTAT_ADDR 0 s Hok) as (s1 & Hs1 & Hok1 & Hg1 & Hp1 & Ho1).
      destruct (u_set_reg_ok LINESTAT_ADDR STATUS_TX s1 Hok1) as (s2 & Hs2 & Hok2 & Hg2 & Hp2 & Ho2).
      destruct (try_receive_ok s2 Hok2) as (s3 & Hs3 & Hok3 & Hp3 & Ho3 & Hr3 & He3).
      assert (H1 : nth (Z.to_nat LINESTAT_ADDR) (u_regs (get_u s1)) 0 = 0) by (rewrite Hg1; by apply nth_u_set_reg; [apply Hok |]).
      assert (H2 : nth (Z.to_nat LINESTAT_ADDR) (u_regs (get_u s3)) 0 = STATUS_TX)
        by (rewrite Hr3, Hg2; by apply nth_u_set_reg; [apply Hok1 |]).
      assert (Hu : update_u (E := E) (fun u => u_set_reg LINESTAT_ADDR (Z.lor (nth (Z.to_nat LINESTAT_ADDR) (u_regs u) 0) STATUS_TX) u) s1
        = (Ret tt, s2)) by (rewrite <- Hs2; unfold update_u, modify; by rewrite H1).
      unfold mbind, M_bind, gets. rewrite Hs1. cbv beta iota. rewrite Hu, Hs3. cbv beta iota.
      destruct (rx_fifo (get_u s3)) as [|c q] eqn:Hq.
      - exists s3. cbn [skip mret M_ret]. split; [done |]. split; [done |]. split; [congruence |]. split; [congruence |].
        change 5%nat with (Z.to_nat LINESTAT_ADDR). rewrite H2, <- Hp1, <- Hp2. by rewrite (He3 eq_refl).
      - destruct (u_set_reg_ok LINESTAT_ADDR (STATUS_TX + STATUS_RX) s3 Hok3) as (s4 & Hs4 & Hok4 & Hg4 & Hp4 & Ho4).
        exists s4. assert (Hu4 : update_u (E := E) (fun u => u_set_reg LINESTAT_ADDR (Z.lor (nth (Z.to_nat LINESTAT_ADDR) (u_regs u) 0) STATUS_RX) u) s3
          = (Ret tt, s4)) by (rewrite <- Hs4; unfold update_u, modify; by rewrite H2).
        rewrite Hu4. split; [done |]. split; [done |]. split; [congruence |]. split; [congruence |].
        change 5%nat with (Z.to_nat LINESTAT_ADDR). rewrite Hg4.
        assert (Hne : u_pending s <> []) by (rewrite <- Hp1, <- Hp2, <- Hp3; unfold u_pending; by rewrite Hq).
        destruct (u_pending s); [done |]. apply (nth_u_set_reg LINESTAT_ADDR (STATUS_TX + STATUS_RX)); [apply Hok3 | done]. }
    destruct Hpre as (s' & Hpre & Hok' & Hp & Ho & Hv). exists s'.
    rewrite (u_read _ _ _ s' Hok Hn ltac:(rewrite Ha; done) Hc Hpre (uo_regs _ Hok')), Ha.
    change (Z.to_nat LINESTAT_ADDR) with 5%nat. by rewrite Hv.
Qed.

End uart16550_props.

(** A bench: the characters that are typed and those that were put out. *)
Record uart16550_bench : Type := mkUart16550Bench { ub_uart : UART16550; ub_input : list Z; ub_output : list Z }.

#[export] Instance uart16550_bench_interface : uart16550_interface uart16550_bench unit := {
  get_u := ub_uart;
  set_u u s := mkUart16550Bench u (ub_input s) (ub_output s);
  stdin_read s :=
    match ub_input s with
    | [] => (Ret (-1, 0), s)
    | c :: q => (Ret (1, c), mkUart16550Bench (ub_uart s) q (ub_output s))
    end;
  stdout_put c s := (Ret tt, mkUart16550Bench (ub_uart s) (ub_input s) (ub_output s ++ [c]))
}.

#[export] Instance uart16550_bench_system : uart16550_system uart16550_bench unit.
Proof.
  refine {| u_input := ub_input; u_output := ub_output |}.
  - done.
  - intros s Hi. exists 0. cbn [stdin_read uart16550_bench_interface]. by rewrite Hi.
  - intros s c q Hi. eexists. cbn [stdin_read uart16550_bench_interface]. by rewrite Hi.
  - intros c s. by eexists.
Defined.

(** The first character typed is read. *)
Lemma uart16550_bench_runs :
  let trans := mkPayload TLM_READ_COMMAND QUEUE_ADDR [0] TLM_OK_RESPONSE in
  exists s', uart16550_transport (E := unit) trans 0 (mkUart16550Bench UART16550_new [104; 105] [])
    = (Ret (set_payload_data [104] trans, 0), s') /\ u_pending (E := unit) s' = [105].
Proof.
  intros trans. destruct (uart16550_io (E := unit) trans 0 (mkUart16550Bench UART16550_new [104; 105] [])) as (Hr & _).
  - constructor; [done |]. repeat constructor; done.
  - done.
  - destruct (Hr eq_refl eq_refl) as (s' & Hs & _ & Hp & _). by exists s'.
Qed.
