(* ===== verification/Can.v ===== *)
(** * The CAN controller

    Models platform/hifive/can.h and can.cpp, an MCP2515 behind SPI: the bytes of a
    command arrive one at a time and drive a state machine; frames are loaded,
    sent, received and read in that way.  The static variables of the member
    functions are part of the state.  The socket is the class [can_interface]; the
    listener thread passes every frame it reads to [enqueueIncomingCanFrame], one
    step of the model.  registerName, regValueName and spiInstName only serve
    commented-out output. *)

From S2P Require Import Prelude Memory.

(** ** State *)

(** The states the code never enters are left out. *)
Inductive State : Type :=
  | State_init | readRegister_ | writeRegister_ | bitmod
  | loadTX0 | loadTX1 | loadTX2
  | sendTX0 | sendTX1 | sendTX2 | sendALL
  | readRX0 | readRX1 | getStatus.

Inductive ModReg : Type := Mod_address | Mod_mask | Mod_data.
Inductive LoadTX : Type := Load_id | Load_length | Load_payload.

(** struct MCPFrame is its bytes [raw]: four of the id, the length, the payload. *)
Definition CANFD_MAX_DLEN : nat := 64.
Definition FRAME_BYTES : nat := 5 + CANFD_MAX_DLEN.

Definition MCP_RXB1SIDH : Z := 0x71.
Definition MCP_TXB0CTRL : Z := 0x30.
Definition REGISTERS : nat := 0x72.

Record CAN : Type := mkCAN {
  state : State;
  can_registers : list Z;
  txBuf : list (list Z);
  rxBuf : list (list Z);
  status : Z;
  read_selected : Z;
  write_selected : Z;
  mod_state : ModReg;
  mod_address : Z;
  mod_mask : Z;
  load_state : LoadTX;
  load_ptr : Z;
  rx_ptr : Z
}.

(** The constructor; what it leaves uninitialised starts as zeros. *)
Definition CAN_new : CAN :=
  mkCAN State_init (replicate REGISTERS 0) (replicate 3 (replicate FRAME_BYTES 0))
    (replicate 2 (replicate FRAME_BYTES 0)) 0 (-1) (-1) Mod_address 0 0 Load_id 0 0.

(** struct can_frame of <linux/can.h>, the members the code uses. *)
Record can_frame : Type := mkFrame { can_id : Z; can_dlc : Z; can_data : list Z }.

Class can_interface (S E : Type) : Type := {
  get_can : S -> CAN;
  set_can : CAN -> S -> S;
  socket_write : can_frame -> M S E unit
}.

Definition set_state (x : State) (c : CAN) : CAN :=
  mkCAN x (can_registers c) (txBuf c) (rxBuf c) (status c) (read_selected c) (write_selected c)
    (mod_state c) (mod_address c) (mod_mask c) (load_state c) (load_ptr c) (rx_ptr c).
Definition set_registers (x : list Z) (c : CAN) : CAN :=
  mkCAN (state c) x (txBuf c) (rxBuf c) (status c) (read_selected c) (write_selected c)
    (mod_state c) (mod_address c) (mod_mask c) (load_state c) (load_ptr c) (rx_ptr c).
Definition set_txBuf (x : list (list Z)) (c : CAN) : CAN :=
  mkCAN (state c) (can_registers c) x (rxBuf c) (status c) (read_selected c) (write_selected c)
    (mod_state c) (mod_address c) (mod_mask c) (load_state c) (load_ptr c) (rx_ptr c).
Definition set_rxBuf (x : list (list Z)) (c : CAN) : CAN :=
  mkCAN (state c) (can_registers c) (txBuf c) x (status c) (read_selected c) (write_selected c)
    (mod_state c) (mod_address c) (mod_mask c) (load_state c) (load_ptr c) (rx_ptr c).
Definition set_status (x : Z) (c : CAN) : CAN :=
  mkCAN (state c) (can_registers c) (txBuf c) (rxBuf c) x (read_selected c) (write_selected c)
    (mod_state c) (mod_address c) (mod_mask c) (load_state c) (load_ptr c) (rx_ptr c).
Definition set_read_selected (x : Z) (c : CAN) : CAN :=
  mkCAN (state c) (can_registers c) (txBuf c) (rxBuf c) (status c) x (write_selected c)
    (mod_state c) (mod_address c) (mod_mask c) (load_state c) (load_ptr c) (rx_ptr c).
Definition set_write_selected (x : Z) (c : CAN) : CAN :=
  mkCAN (state c) (can_registers c) (txBuf c) (rxBuf c) (status c) (read_selected c) x
    (mod_state c) (mod_address c) (mod_mask c) (load_state c) (load_ptr c) (rx_ptr c).
Definition set_mod (st : ModReg) (a m : Z) (c : CAN) : CAN :=
  mkCAN (state c) (can_registers c) (txBuf c) (rxBuf c) (status c) (read_selected c) (write_selected c)
    st a m (load_state c) (load_ptr c) (rx_ptr c).
Definition set_load (st : LoadTX) (p : Z) (c : CAN) : CAN :=
  mkCAN (state c) (can_registers c) (txBuf c) (rxBuf c) (status c) (read_selected c) (write_selected c)
    (mod_state c) (mod_address c) (mod_mask c) st p (rx_ptr c).
Definition set_rx_ptr (x : Z) (c : CAN) : CAN :=
  mkCAN (state c) (can_registers c) (txBuf c) (rxBuf c) (status c) (read_selected c) (write_selected c)
    (mod_state c) (mod_address c) (mod_mask c) (load_state c) (load_ptr c) x.

(** ** Identifiers *)

Definition MCP_TXB_EXIDE_M : Z := 0x08.

(** The bytes SIDH, SIDL, EID8 and EID0. *)
Definition mcp2515_id_to_buf (id : Z) (extended : bool) : list Z :=
  let canid := uint16 (id .& 0x0FFFF) in
  if extended then
    let eid0 := uint8 (canid .& 0xFF) in
    let eid8 := uint8 (canid .>> 8) in
    let canid := uint16 (id .>> 16) in
    let sidl := uint8 (canid .& 0x03) in
    let sidl := uint8 (sidl + uint8 ((canid .& 0x1C) .<< 3)) in
    let sidl := sidl .| MCP_TXB_EXIDE_M in
    [uint8 (canid .>> 5); sidl; eid8; eid0]
  else [uint8 (canid .>> 3); uint8 ((canid .& 0x07) .<< 5); 0; 0].

Definition mcp2515_buf_to_id (idField : list Z) : Z * bool :=
  let sidh := nth 0 idField 0 in
  let sidl := nth 1 idField 0 in
  let id := uint32 ((sidh .<< 3) + (sidl .>> 5)) in
  if sidl .& MCP_TXB_EXIDE_M =? MCP_TXB_EXIDE_M then
    let id := uint32 (uint32 (id .<< 2) + (sidl .& 0x03)) in
    let id := uint32 (uint32 (id .<< 8) + nth 2 idField 0) in
    let id := uint32 (uint32 (id .<< 8) + nth 3 idField 0) in
    (id, true)
  else (id, false).

(** ** The state machine *)

Definition MCP_WRITE : Z := 0x02.
Definition MCP_READ : Z := 0x03.
Definition MCP_BITMOD : Z := 0x05.
Definition MCP_LOAD_TX0 : Z := 0x40.
Definition MCP_LOAD_TX1 : Z := 0x42.
Definition MCP_LOAD_TX2 : Z := 0x44.
Definition MCP_RTS_TX0 : Z := 0x81.
Definition MCP_RTS_TX1 : Z := 0x82.
Definition MCP_RTS_TX2 : Z := 0x84.
Definition MCP_RTS_ALL : Z := 0x87.
Definition MCP_READ_RX0 : Z := 0x90.
Definition MCP_READ_RX1 : Z := 0x94.
Definition MCP_READ_STATUS : Z := 0xA0.
Definition MCP_RX_STATUS : Z := 0xB0.
Definition MCP_RESET : Z := 0xC0.

Section CAN.
Context {S E : Type} `{can_interface S E}.

Abbreviation R := (M S E).

Definition can : R CAN := gets get_can.
Definition update (f : CAN -> CAN) : R unit := modify (fun s => set_can (f (get_can s)) s).

(** The state a command leads to; the others change nothing. *)
Definition command_state (byte : Z) : option State :=
  if byte =? MCP_WRITE then Some writeRegister_
  else if byte =? MCP_READ then Some readRegister_
  else if byte =? MCP_BITMOD then Some bitmod
  else if byte =? MCP_LOAD_TX0 then Some loadTX0
  else if byte =? MCP_LOAD_TX1 then Some loadTX1
  else if byte =? MCP_LOAD_TX2 then Some loadTX2
  else if byte =? MCP_RTS_TX0 then Some sendTX0
  else if byte =? MCP_RTS_TX1 then Some sendTX1
  else if byte =? MCP_RTS_TX2 then Some sendTX2
  else if byte =? MCP_RTS_ALL then Some sendALL
  else if byte =? MCP_READ_RX0 then Some readRX0
  else if byte =? MCP_READ_RX1 then Some readRX1
  else if byte =? MCP_READ_STATUS then Some getStatus
  else if byte =? MCP_RX_STATUS then None
  else if byte =? MCP_RESET then Some State_init
  else None.

Definition can_command (byte : Z) : R unit :=
  match command_state byte with Some x => update (set_state x) | None => skip end.

(** [registers[i]] *)
Definition register_get (i : Z) : R Z :=
  c ← can;
  match can_registers c !! Z.to_nat i with Some v => mret v | None => fatal UndefinedBehaviour end.
Definition register_set (i v : Z) : R unit :=
  c ← can;
  if (Z.to_nat i <? length (can_registers c))%nat
  then update (set_registers (<[Z.to_nat i := v]> (can_registers c))) else fatal UndefinedBehaviour.

Definition readRegister (byte : Z) : R Z :=
  c ← can;
  let selected := read_selected c in
  if selected <? 0 then update (set_read_selected byte) ;; mret 0
  else if negb (byte =? 0) then update (set_read_selected (-1)) ;; can_command byte ;; mret 0
  else
    ret ← (if MCP_RXB1SIDH <? selected then mret 0 else register_get selected);
    update (set_read_selected (int16 (selected + 1))) ;;
    mret ret.

Definition writeRegister (byte : Z) : R Z :=
  c ← can;
  let selected := write_selected c in
  if selected <? 0 then update (set_write_selected byte) ;; mret 0
  else if MCP_RXB1SIDH <? selected then mret 0
  else
    register_set selected byte ;;
    update (set_write_selected (-1)) ;;
    update (set_state State_init) ;;
    mret 0.

Definition modifyRegister (byte : Z) : R Z :=
  c ← can;
  match mod_state c with
  | Mod_address => update (set_mod Mod_mask byte (mod_mask c)) ;; mret 0
  | Mod_mask => update (set_mod Mod_data (mod_address c) byte) ;; mret 0
  | Mod_data =>
      update (set_mod Mod_address (mod_address c) (mod_mask c)) ;;
      update (set_state State_init) ;;
      v ← register_get (mod_address c);
      register_set (mod_address c) (v .& uint8 (Z.lnot (mod_mask c))) ;;
      v ← register_get (mod_address c);
      register_set (mod_address c) (v .| byte) ;;
      mret 0
  end.

(** Byte [i] of a frame of an array of frames. *)
Definition frame_byte (bufs : list (list Z)) (no : nat) (i : Z) : R Z :=
  match bufs !! no with
  | Some raw => match raw !! Z.to_nat i with Some v => mret v | None => fatal UndefinedBehaviour end
  | None => fatal UndefinedBehaviour
  end.
Definition store_tx (no : nat) (i byte : Z) : R unit :=
  c ← can;
  match txBuf c !! no with
  | Some raw =>
      if (Z.to_nat i <? length raw)%nat
      then update (set_txBuf (<[no := <[Z.to_nat i := byte]> raw]> (txBuf c))) else fatal UndefinedBehaviour
  | None => fatal UndefinedBehaviour
  end.

Definition loadTxBuf (no : nat) (byte : Z) : R Z :=
  c ← can;
  let ptr := load_ptr c in
  match load_state c with
  | Load_id =>
      store_tx no ptr byte ;;
      let ptr := uint8 (ptr + 1) in
      update (if ptr =? 4 then set_load Load_length 0 else set_load Load_id ptr) ;;
      mret 0
  | Load_length =>
      update (set_load Load_payload ptr) ;;
      store_tx no 4 byte ;;
      mret 0
  | Load_payload =>
      store_tx no (5 + ptr) byte ;;
      let ptr := uint8 (ptr + 1) in
      update (set_load Load_payload ptr) ;;
      c ← can;
      len ← frame_byte (txBuf c) no 4;
      when (ptr =? len) (update (set_load Load_id 0) ;; update (set_state State_init)) ;;
      mret 0
  end.

Definition sendTxBuf (no : nat) (_ : Z) : R Z :=
  let no := if (no =? 4)%nat then 0%nat else no in
  c ← can;
  match txBuf c !! no with
  | Some raw =>
      let id := fst (mcp2515_buf_to_id (take 4 raw)) in
      let len := nth 4 raw 0 in
      if 8 <? len then fatal UndefinedBehaviour
      else
        socket_write (mkFrame id len (list_inserts 0 (take (Z.to_nat len) (drop 5 raw)) (replicate 8 0))) ;;
        register_set MCP_TXB0CTRL 0 ;;
        update (set_state readRegister_) ;;
        mret 0
  | None => fatal UndefinedBehaviour
  end.

Definition readRxBuf (no : nat) (_ : Z) : R Z :=
  c ← can;
  ret ← frame_byte (rxBuf c) no (rx_ptr c);
  let ptr := uint8 (rx_ptr c + 1) in
  update (set_rx_ptr ptr) ;;
  len ← frame_byte (rxBuf c) no 4;
  when (len + 4 <? ptr)
    (update (set_rx_ptr 0) ;;
     update (set_state State_init) ;;
     update (fun c => set_status (status c .& uint8 (Z.lnot (1 .<< Z.of_nat no))) c)) ;;
  mret ret.

Definition can_write (byte : Z) : R Z :=
  c ← can;
  match state c with
  | State_init => can_command byte ;; mret 0
  | readRegister_ => readRegister byte
  | writeRegister_ => writeRegister byte
  | bitmod => modifyRegister byte
  | loadTX2 => loadTxBuf 2 byte
  | loadTX1 => loadTxBuf 1 byte
  | loadTX0 => loadTxBuf 0 byte
  | sendALL => sendTxBuf 3 byte
  | sendTX2 => sendTxBuf 2 byte
  | sendTX1 => sendTxBuf 1 byte
  | sendTX0 => sendTxBuf 0 byte
  | readRX1 => readRxBuf 1 byte
  | readRX0 => readRxBuf 0 byte
  | getStatus => update (set_state State_init) ;; mret (status c)
  end.

(** ** Incoming frames *)

(** The buffer [i] takes the frame: it is cleared first. *)
Definition fill_rx (i : nat) (frame : can_frame) (c : CAN) : CAN :=
  set_status (status c .| (1 .<< Z.of_nat i))
    (set_rxBuf (<[i := mcp2515_id_to_buf (can_id frame) false ++ [can_dlc frame] ++
                  take (Z.to_nat (can_dlc frame)) (can_data frame) ++
                  replicate (CANFD_MAX_DLEN - Z.to_nat (can_dlc frame)) 0]> (rxBuf c)) c).

Definition enqueueIncomingCanFrame (frame : can_frame) : R unit :=
  c ← can;
  if status c .& 3 =? 3 then skip
  else if Z.of_nat (length (can_data frame)) <? can_dlc frame then fatal UndefinedBehaviour
  else if negb (nonzero (status c .& 1)) then update (fill_rx 0 frame)
  else if negb (nonzero (status c .& 2)) then update (fill_rx 1 frame)
  else skip.

End CAN.

(** ** Identifiers: what is written is read *)

Lemma std_id_round_trip id : 0 <= id < 2 ^ 11 -> mcp2515_buf_to_id (mcp2515_id_to_buf id false) = (id, false).
Proof.
  intros Hid.
  assert (Hall : forallb (fun n => let r := mcp2515_buf_to_id (mcp2515_id_to_buf (Z.of_nat n) false) in
    (fst r =? Z.of_nat n) && negb (snd r)) (seq 0 2048) = true) by (by vm_compute).
  rewrite forallb_forall in Hall. specialize (Hall (Z.to_nat id)). rewrite in_seq in Hall.
  specialize (Hall ltac:(lia)). rewrite Z2Nat.id in Hall by lia.
  destruct (mcp2515_buf_to_id _) as [i []]; simpl in Hall; [by rewrite andb_false_r in Hall |].
  f_equal. lia.
Qed.

Lemma land_low c m : 0 <= m < 32 -> c .& m = (c mod 32) .& m.
Proof.
  intros Hm. change 32 with (2 ^ 5). rewrite <- Z.land_ones by done. rewrite <- Z.land_assoc. f_equal.
  rewrite Z.land_comm, Z.land_ones by done. symmetry. by apply Z.mod_small.
Qed.

(** SIDL of an extended identifier, from five of its bits. *)
Definition ext_sidl (x : Z) : Z := uint8 (uint8 (x .& 0x03) + uint8 ((x .& 0x1C) .<< 3)) .| MCP_TXB_EXIDE_M.

Lemma ext_sidl_spec x : 0 <= x < 32 ->
  ext_sidl x .>> 5 = x / 4 /\ ext_sidl x .& MCP_TXB_EXIDE_M = MCP_TXB_EXIDE_M /\ ext_sidl x .& 0x03 = x mod 4.
Proof.
  intros Hx.
  assert (Hall : forallb (fun n => let x := Z.of_nat n in (ext_sidl x .>> 5 =? x / 4) &&
    (ext_sidl x .& MCP_TXB_EXIDE_M =? MCP_TXB_EXIDE_M) && (ext_sidl x .& 0x03 =? x mod 4)) (seq 0 32) = true)
    by (by vm_compute).
  rewrite forallb_forall in Hall. specialize (Hall (Z.to_nat x)). rewrite in_seq in Hall.
  specialize (Hall ltac:(lia)). cbv zeta in Hall. rewrite Z2Nat.id in Hall by lia. lia.
Qed.

Lemma ext_id_buf id : 0 <= id < 2 ^ 29 ->
  mcp2515_id_to_buf id true = [id / 2 ^ 21; ext_sidl (id / 2 ^ 16 mod 32); id / 2 ^ 8 mod 256; id mod 256].
Proof.
  intros Hid. unfold mcp2515_id_to_buf. cbv zeta.
  change 0x0FFFF with (Z.ones 16). change 0xFF with (Z.ones 8). rewrite !Z.land_ones by done.
  rewrite !Z.shiftr_div_pow2 by done. unfold uint16, uint8.
  assert (Hc : 0 <= id / 2 ^ 16 < 2 ^ 13) by (split; [apply Z.div_pos; lia | apply Z.div_lt_upper_bound; lia]).
  rewrite (uint_id 16 (id / 2 ^ 16)) by (unfold is_uint; lia).
  rewrite (uint_id 16 (id mod 2 ^ 16)) by (apply Z.mod_pos_bound; done).
  assert (H21 : id / 2 ^ 16 / 2 ^ 5 = id / 2 ^ 21) by (rewrite Z.div_div by done; done). rewrite H21.
  assert (0 <= id / 2 ^ 21 < 256) by (split; [apply Z.div_pos; lia | apply Z.div_lt_upper_bound; lia]).
  rewrite (uint_id 8 (id / 2 ^ 21)) by (unfold is_uint; lia).
  rewrite !(land_low (id / 2 ^ 16)) by lia. fold uint8. fold (ext_sidl (id / 2 ^ 16 mod 32)).
  do 2 f_equal. f_equal.
  - assert (Hd : id mod 2 ^ 16 / 2 ^ 8 = id / 2 ^ 8 mod 2 ^ 8).
    { change (2 ^ 16) with (2 ^ 8 * 2 ^ 8). rewrite Z.rem_mul_r by done.
      rewrite (Z.mul_comm (2 ^ 8)), Z.div_add by done. rewrite Z.div_small by (apply Z.mod_pos_bound; done). lia. }
    rewrite Hd. change (2 ^ 8) with 256. apply uint_id. apply Z.mod_pos_bound. done.
  - f_equal. assert (Hm : (id mod 2 ^ 16) mod 2 ^ 8 = id mod 2 ^ 8) by (apply Z.mod_mod_divide; by exists 256).
    rewrite Hm. change (2 ^ 8) with 256. apply uint_id. apply Z.mod_pos_bound. done.
Qed.

Lemma ext_id_round_trip id : 0 <= id < 2 ^ 29 -> mcp2515_buf_to_id (mcp2515_id_to_buf id true) = (id, true).
Proof.
  intros Hid. rewrite ext_id_buf by done.
  pose proof (Z.mod_pos_bound (id / 2 ^ 16) 32 ltac:(done)) as Hx.
  destruct (ext_sidl_spec (id / 2 ^ 16 mod 32) Hx) as (H1 & H2 & H3).
  unfold mcp2515_buf_to_id. cbn [nth]. rewrite H1, H2, H3, Z.eqb_refl. rewrite !Z.shiftl_mul_pow2 by done.
  change (2 ^ 3) with 8. change (2 ^ 2) with 4. change (2 ^ 8) with 256.
  assert (Hh : 0 <= id / 2 ^ 21 < 256) by (split; [apply Z.div_pos; lia | apply Z.div_lt_upper_bound; lia]).
  assert (H16 : 0 <= id / 2 ^ 16 mod 32 / 4 < 8) by (split; [apply Z.div_pos; lia | apply Z.div_lt_upper_bound; lia]).
  pose proof (Z.mod_pos_bound (id / 2 ^ 16 mod 32) 4 ltac:(done)). pose proof (Z.mod_pos_bound (id / 256) 256 ltac:(done)).
  pose proof (Z.mod_pos_bound id 256 ltac:(done)).
  unfold uint32.
  repeat match goal with
    | |- context [uint 32 ?x] =>
        lazymatch x with context [uint 32 _] => fail | _ => rewrite (uint_id 32 x) by (unfold is_uint; lia) end
    end.
  f_equal. pose proof (Z.div_mod id 256 ltac:(done)). pose proof (Z.div_mod (id / 256) 256 ltac:(done)).
  assert (E1 : id / 256 / 256 = id / 2 ^ 16) by (rewrite Z.div_div by done; done).
  pose proof (Z.div_mod (id / 2 ^ 16) 32 ltac:(done)). pose proof (Z.div_mod (id / 2 ^ 16 mod 32) 4 ltac:(done)).
  assert (E2 : id / 2 ^ 16 / 32 = id / 2 ^ 21) by (rewrite Z.div_div by done; done).
  change (2 ^ 21) with 2097152 in *. change (2 ^ 16) with 65536 in *. lia.
Qed.

(** ** What a frame of the socket stands for on the bus

    The identifier word of struct can_frame, by <linux/can.h>: bit 31 (CAN_EFF_FLAG)
    tells an extended frame, with an identifier of 29 bits, from a standard one, of
    whose identifier the lowest 11 bits count; bit 30 (CAN_RTR_FLAG) a remote
    request. *)
Record bus_frame : Type := mkBus { bus_extended : bool; bus_remote : bool; bus_id : Z; bus_data : list Z }.

Definition on_bus (f : can_frame) : bus_frame :=
  let extended := Z.testbit (can_id f) 31 in
  mkBus extended (Z.testbit (can_id f) 30) (can_id f .& (if extended then 0x1FFFFFFF else 0x7FF))
    (take (Z.to_nat (can_dlc f)) (can_data f)).

(** Without the flag every frame is a standard one. *)
Lemma on_bus_sent id p : 0 <= id < 2 ^ 29 ->
  on_bus (mkFrame id (Z.of_nat (length p)) (p ++ replicate (8 - length p) 0)) = mkBus false false (id mod 2 ^ 11) p.
Proof.
  intros Hid. unfold on_bus. cbn [can_id can_dlc can_data].
  assert (Hbit : forall k, 29 <= k -> Z.testbit id k = false).
  { intros k Hk. destruct (decide (id = 0)) as [-> |]; [apply Z.testbit_0_l |]. apply Z.bits_above_log2; [lia |].
    assert (Z.log2 id < 29) by (apply Z.log2_lt_pow2; lia). lia. }
  rewrite !Hbit by lia. rewrite Nat2Z.id, take_app_length. change 0x7FF with (Z.ones 11). by rewrite Z.land_ones.
Qed.

(** A frame is stored as a standard one, whatever its flags. *)
Lemma std_id_low id : mcp2515_id_to_buf id false = mcp2515_id_to_buf (id mod 2 ^ 11) false.
Proof.
  unfold mcp2515_id_to_buf. cbv zeta. change 0x0FFFF with (Z.ones 16). change 0x07 with (Z.ones 3).
  rewrite !Z.land_ones by done. unfold uint16, uint8, uint.
  assert (Hm : forall k, 0 <= k <= 11 -> (id mod 2 ^ 11) mod 2 ^ k = id mod 2 ^ k).
  { intros k Hk. apply Z.mod_mod_divide. exists (2 ^ (11 - k)). rewrite <- Z.pow_add_r by lia. f_equal. lia. }
  assert (H16 : forall x, (x mod 2 ^ 16) mod 2 ^ 16 = x mod 2 ^ 16) by (intros; by apply Z.mod_mod).
  assert (Hdiv : forall x, x / 2 ^ 3 mod 2 ^ 8 = x mod 2 ^ 11 / 2 ^ 3).
  { intros x. change (2 ^ 11) with (2 ^ 3 * 2 ^ 8). rewrite Z.rem_mul_r, (Z.mul_comm (2 ^ 3)), Z.div_add by done.
    by rewrite (Z.div_small (x mod 2 ^ 3)) by (apply Z.mod_pos_bound; done). }
  assert (Hlow : forall x k, 0 <= k <= 16 -> (x mod 2 ^ 16) mod 2 ^ k = x mod 2 ^ k).
  { intros x k Hk. apply Z.mod_mod_divide. exists (2 ^ (16 - k)). rewrite <- Z.pow_add_r by lia. f_equal. lia. }
  rewrite !H16, !Z.shiftr_div_pow2, !Hdiv, !Hlow, (Hm 11), (Hm 3) by lia. done.
Qed.

(** ** The environment *)

(** What the theorems use of the socket: it takes every frame. *)
Class can_system (S E : Type) `{can_interface S E} : Type := {
  can_sent : S -> list can_frame;
  set_can_ok c s : get_can (set_can c s) = c /\ can_sent (set_can c s) = can_sent s;
  socket_write_ok f s : exists s', socket_write f s = (Ret tt, s') /\
    get_can s' = get_can s /\ can_sent s' = can_sent s ++ [f]
}.

Section can.
Context {S E : Type} `{Hsys : can_system S E}.
#[local] Set Default Proof Using "Type Hsys".

(** The controller is [c] and the frames [fs] have been sent. *)
Definition can_at (c : CAN) (fs : list can_frame) (s : S) : Prop := get_can s = c /\ can_sent s = fs.

(** A computation that leads from one to the other and returns [r]. *)
Definition leads {A} (m : M S E A) c fs (r : A) c' fs' : Prop :=
  forall s, can_at c fs s -> exists s', m s = (Ret r, s') /\ can_at c' fs' s'.

Fixpoint can_writes (bs : list Z) : M S E (list Z) :=
  match bs with [] => mret [] | b :: bs => r ← can_write b; rs ← can_writes bs; mret (r :: rs) end.

Lemma leads_ret {A} (a : A) c fs : leads (mret a) c fs a c fs.
Proof using Type. intros s Hs. by exists s. Qed.

Lemma leads_bind {A B} (m : M S E A) (k : A -> M S E B) c fs a c1 fs1 b c2 fs2 :
  leads m c fs a c1 fs1 -> leads (k a) c1 fs1 b c2 fs2 -> leads (m ≫= k) c fs b c2 fs2.
Proof using Type.
  intros Hm Hk s Hs. destruct (Hm s Hs) as (s1 & Hs1 & Hat1). destruct (Hk s1 Hat1) as (s2 & Hs2 & Hat2).
  exists s2. unfold mbind, M_bind. by rewrite Hs1.
Qed.

Lemma leads_can {B} (k : CAN -> M S E B) c fs b c2 fs2 :
  leads (k c) c fs b c2 fs2 -> leads (can ≫= k) c fs b c2 fs2.
Proof using Type. intros Hk. apply (leads_bind _ _ c fs c c fs); [| done]. intros s Hs. exists s. split; [by destruct Hs as [<- _] | done]. Qed.

Lemma leads_update f c fs : leads (update f) c fs tt (f c) fs.
Proof.
  intros s [Hg Hf]. destruct (set_can_ok (f (get_can s)) s) as [H1 H2].
  exists (set_can (f (get_can s)) s). split; [done |]. split; congruence.
Qed.

Lemma leads_socket f c fs : leads (socket_write f) c fs tt c (fs ++ [f]).
Proof. intros s [Hg Hf]. destruct (socket_write_ok f s) as (s' & Hs & H1 & H2). exists s'. split; [done |]. split; congruence. Qed.

Lemma leads_writes_app bs bs' c fs rs c1 fs1 rs' c2 fs2 :
  leads (can_writes bs) c fs rs c1 fs1 -> leads (can_writes bs') c1 fs1 rs' c2 fs2 ->
  leads (can_writes (bs ++ bs')) c fs (rs ++ rs') c2 fs2.
Proof using Type.
  intros H1 H2 s Hs. destruct (H1 s Hs) as (s1 & Hs1 & Hat1). destruct (H2 s1 Hat1) as (s2 & Hs2 & Hat2).
  exists s2. split; [| done]. clear H1 H2 Hs Hat1 Hat2. revert s rs Hs1. induction bs as [|b bs IH]; intros s rs Hs1.
  - cbn in Hs1. injection Hs1 as <- <-. done.
  - cbn [can_writes app] in *. unfold mbind, M_bind in *. destruct (can_write b s) as [[r|e|f] s0]; [| done | done].
    destruct (can_writes bs s0) as [[rs0|e|f] s0'] eqn:E0; [| done | done]. injection Hs1 as <- ->.
    by rewrite (IH s0 rs0 E0).
Qed.

Lemma leads_write b bs c fs r c1 fs1 rs c2 fs2 :
  leads (can_write b) c fs r c1 fs1 -> leads (can_writes bs) c1 fs1 rs c2 fs2 ->
  leads (can_writes (b :: bs)) c fs (r :: rs) c2 fs2.
Proof using Type.
  intros H1 H2. cbn [can_writes]. eapply leads_bind; [exact H1 |]. eapply leads_bind; [exact H2 |]. apply leads_ret.
Qed.

(** ** Loading a frame *)

Definition load_of (no : nat) : State := match no with 0%nat => loadTX0 | 1%nat => loadTX1 | _ => loadTX2 end.
Definition load_command (no : nat) : Z := match no with 0%nat => MCP_LOAD_TX0 | 1%nat => MCP_LOAD_TX1 | _ => MCP_LOAD_TX2 end.
Definition rts_command (no : nat) : Z := match no with 0%nat => MCP_RTS_TX0 | 1%nat => MCP_RTS_TX1 | _ => MCP_RTS_TX2 end.
Definition send_of (no : nat) : State := match no with 0%nat => sendTX0 | 1%nat => sendTX1 | _ => sendTX2 end.

(** In the middle of a load: the buffer holds [raw]. *)
Definition loading (no : nat) (raw : list Z) (st : LoadTX) (ptr : Z) (c : CAN) : CAN :=
  set_load st ptr (set_txBuf (<[no := raw]> (txBuf c)) (set_state (load_of no) c)).

Record can_ok (c : CAN) : Prop := {
  can_ready : state c = State_init;
  can_load_idle : load_state c = Load_id /\ load_ptr c = 0;
  can_rx_idle : rx_ptr c = 0;
  can_tx : length (txBuf c) = 3%nat /\ Forall (fun m => length m = FRAME_BYTES) (txBuf c);
  can_rx : length (rxBuf c) = 2%nat /\ Forall (fun m => length m = FRAME_BYTES) (rxBuf c);
  can_regs : length (can_registers c) = REGISTERS;
  can_status : is_uint 8 (status c)
}.

Lemma can_write_load no c fs b r c' fs' : (no < 3)%nat -> state c = load_of no ->
  leads (loadTxBuf no b) c fs r c' fs' -> leads (can_write b) c fs r c' fs'.
Proof using Type.
  intros Hno Hst Hl. unfold can_write. apply leads_can. rewrite Hst.
  destruct no as [|[|[|no]]]; [exact Hl | exact Hl | exact Hl | lia].
Qed.

Lemma leads_store no i b c fs raw : txBuf c !! no = Some raw -> (Z.to_nat i < length raw)%nat ->
  leads (store_tx no i b) c fs tt (set_txBuf (<[no := <[Z.to_nat i := b]> raw]> (txBuf c)) c) fs.
Proof.
  intros Hraw Hi. unfold store_tx. apply leads_can. rewrite Hraw.
  assert ((Z.to_nat i <? length raw)%nat = true) as -> by (by apply Nat.ltb_lt). apply leads_update.
Qed.

Lemma loading_buffer no raw st ptr c : (no < length (txBuf c))%nat -> txBuf (loading no raw st ptr c) !! no = Some raw.
Proof using Type. intros Hno. cbn. by rewrite list_lookup_insert_eq. Qed.

Lemma loading_step no raw raw' st st' ptr ptr' c :
  set_load st' ptr' (set_txBuf (<[no := raw']> (txBuf (loading no raw st ptr c))) (loading no raw st ptr c))
  = loading no raw' st' ptr' c.
Proof using Type. unfold loading, set_load, set_txBuf, set_state. cbn. by rewrite list_insert_insert_eq. Qed.

Lemma load_id_byte no raw ptr b c fs : (no < 3)%nat -> length (txBuf c) = 3%nat -> length raw = FRAME_BYTES ->
  0 <= ptr < 4 ->
  leads (can_write b) (loading no raw Load_id ptr c) fs 0
    (if ptr + 1 =? 4 then loading no (<[Z.to_nat ptr := b]> raw) Load_length 0 c
     else loading no (<[Z.to_nat ptr := b]> raw) Load_id (ptr + 1) c) fs.
Proof.
  intros Hno Hc Hl Hp. apply (can_write_load no); [done | done |]. unfold loadTxBuf. apply leads_can.
  cbn [load_state load_ptr loading set_load]. eapply leads_bind.
  { apply (leads_store no ptr b _ fs raw); [apply loading_buffer; lia | rewrite Hl; unfold FRAME_BYTES, CANFD_MAX_DLEN; lia]. }
  unfold uint8. rewrite uint_id by (unfold is_uint; lia). eapply leads_bind; [apply leads_update |].
  assert (Hlast : forall st ptr', set_load st ptr' (set_txBuf (<[no := <[Z.to_nat ptr := b]> raw]>
    (txBuf (loading no raw Load_id ptr c))) (loading no raw Load_id ptr c)) = loading no (<[Z.to_nat ptr := b]> raw) st ptr' c).
  { intros. apply loading_step. }
  destruct (ptr + 1 =? 4); rewrite Hlast; apply leads_ret.
Qed.

Lemma load_length_byte no raw b c fs : (no < 3)%nat -> length (txBuf c) = 3%nat -> length raw = FRAME_BYTES ->
  leads (can_write b) (loading no raw Load_length 0 c) fs 0 (loading no (<[4%nat := b]> raw) Load_payload 0 c) fs.
Proof.
  intros Hno Hc Hl. apply (can_write_load no); [done | done |]. unfold loadTxBuf. apply leads_can.
  cbn [load_state load_ptr loading set_load]. eapply leads_bind; [apply leads_update |].
  change (set_load Load_payload 0 _) with (loading no raw Load_payload 0 c).
  eapply leads_bind.
  { apply (leads_store no 4 b _ fs raw); [apply loading_buffer; lia | rewrite Hl; unfold FRAME_BYTES, CANFD_MAX_DLEN; lia]. }
  rewrite <- (loading_step no raw (<[4%nat := b]> raw) Load_payload Load_payload 0 0 c). apply leads_ret.
Qed.

(** The bytes of the payload; the last one ends the command. *)
Lemma load_payload no c fs n : (no < 3)%nat -> length (txBuf c) = 3%nat -> n <= 64 -> state c = State_init ->
  load_state c = Load_id -> load_ptr c = 0 ->
  forall p raw ptr, length raw = FRAME_BYTES -> raw !! 4%nat = Some n -> p <> [] -> 0 <= ptr -> ptr + Z.of_nat (length p) = n ->
  leads (can_writes p) (loading no raw Load_payload ptr c) fs (replicate (length p) 0)
    (set_txBuf (<[no := list_inserts (Z.to_nat (5 + ptr)) p raw]> (txBuf c)) c) fs.
Proof.
  intros Hno Hc Hn Hst Hls Hlp p. induction p as [|b p IH]; intros raw ptr Hl Hraw Hne Hp Hsum; [done |].
  cbn [length replicate] in *. set (raw' := <[Z.to_nat (5 + ptr) := b]> raw).
  assert (Hl' : length raw' = FRAME_BYTES) by (unfold raw'; by rewrite length_insert).
  assert (Hraw' : raw' !! 4%nat = Some n) by (unfold raw'; rewrite list_lookup_insert_ne; [done | lia]).
  assert (Hins : list_inserts (Z.to_nat (5 + ptr)) (b :: p) raw = list_inserts (Z.to_nat (5 + (ptr + 1))) p raw').
  { cbn [list_inserts]. unfold raw'. rewrite list_insert_inserts_lt by lia. f_equal. lia. }
  assert (Hstep : leads (can_write b) (loading no raw Load_payload ptr c) fs 0
    (if ptr + 1 =? n then set_txBuf (<[no := raw']> (txBuf c)) c else loading no raw' Load_payload (ptr + 1) c) fs).
  { apply (can_write_load no); [done | done |]. unfold loadTxBuf. apply leads_can.
    cbn [load_state load_ptr loading set_load]. eapply leads_bind.
    { apply (leads_store no (5 + ptr) b _ fs raw); [apply loading_buffer; lia |].
      rewrite Hl. unfold FRAME_BYTES, CANFD_MAX_DLEN. lia. }
    unfold uint8. rewrite uint_id by (unfold is_uint; lia). eapply leads_bind; [apply leads_update |].
    fold raw'. change (set_load Load_payload (ptr + 1) _) with (set_load Load_payload (ptr + 1)
      (set_txBuf (<[no := raw']> (txBuf (loading no raw Load_payload ptr c))) (loading no raw Load_payload ptr c))).
    rewrite loading_step. apply leads_can. eapply (leads_bind _ _ _ _ n).
    { unfold frame_byte. rewrite loading_buffer by lia. change (Z.to_nat 4) with 4%nat. rewrite Hraw'. apply leads_ret. }
    destruct (ptr + 1 =? n); cbn [when].
    - eapply leads_bind; [eapply leads_bind; apply leads_update |].
      replace (set_state State_init (set_load Load_id 0 (loading no raw' Load_payload (ptr + 1) c)))
        with (set_txBuf (<[no := raw']> (txBuf c)) c); [apply leads_ret |].
      destruct c; cbn in *. by subst.
    - eapply leads_bind; [apply leads_ret |]. apply leads_ret. }
  eapply leads_write; [exact Hstep |]. destruct p as [|b' p].
  - cbn [length] in Hsum. assert ((ptr + 1 =? n) = true) as -> by lia. rewrite Hins. apply leads_ret.
  - cbn [length] in Hsum. assert ((ptr + 1 =? n) = false) as -> by lia. rewrite Hins. apply IH; (done || (cbn [length]; lia)).
Qed.

(** ** A whole frame *)

Lemma inserts_cons k (p l : list Z) x : list_inserts (Datatypes.S k) p (x :: l) = x :: list_inserts k p l.
Proof using Type. revert k. induction p as [|y p IH]; intros k; cbn [list_inserts]; [done |]. by rewrite IH. Qed.

Definition frame_of (id : list Z) (p rest : list Z) : list Z :=
  id ++ [Z.of_nat (length p)] ++ list_inserts 0 p rest.

Lemma can_write_init c fs b x : state c = State_init -> command_state b = Some x ->
  leads (can_write b) c fs 0 (set_state x c) fs.
Proof.
  intros Hst Hb. unfold can_write. apply leads_can. rewrite Hst. unfold can_command. rewrite Hb.
  eapply leads_bind; [apply leads_update | apply leads_ret].
Qed.

(** The buffer [no] of the controller. *)
Lemma buffer_shape c no : can_ok c -> (no < 3)%nat ->
  exists raw x0 x1 x2 x3 x4 rest, txBuf c !! no = Some raw /\ raw = x0 :: x1 :: x2 :: x3 :: x4 :: rest /\
    length rest = CANFD_MAX_DLEN.
Proof using Type.
  intros Hok Hno. destruct (can_tx _ Hok) as [Hl Hf].
  destruct (lookup_lt_is_Some_2 (txBuf c) no ltac:(lia)) as [raw Hraw].
  pose proof (Forall_lookup_1 _ _ _ _ Hf Hraw) as Hlr.
  destruct raw as [|x0 [|x1 [|x2 [|x3 [|x4 rest]]]]]; try done.
  exists (x0 :: x1 :: x2 :: x3 :: x4 :: rest), x0, x1, x2, x3, x4, rest. split; [done |]. split; [done |].
  cbn [length] in Hlr. unfold FRAME_BYTES in Hlr. lia.
Qed.

(** LOAD_TX: the buffer holds the frame. *)
Lemma load_frame c fs no i0 i1 i2 i3 p : can_ok c -> (no < 3)%nat -> p <> [] -> (length p <= 64)%nat ->
  exists rest, length rest = CANFD_MAX_DLEN /\
  leads (can_writes (load_command no :: [i0; i1; i2; i3] ++ Z.of_nat (length p) :: p)) c fs
    (replicate (6 + length p) 0)
    (set_txBuf (<[no := frame_of [i0; i1; i2; i3] p rest]> (txBuf c)) c) fs.
Proof.
  intros Hok Hno Hne Hp. destruct (buffer_shape c no Hok Hno) as (raw & x0 & x1 & x2 & x3 & x4 & rest & Hraw & -> & Hrest).
  destruct (can_tx _ Hok) as [Hl3 _]. destruct (can_load_idle _ Hok) as [Hls Hlp].
  assert (Hlen : forall a b c d e, length (a :: b :: c :: d :: e :: rest) = FRAME_BYTES).
  { intros. cbn [length]. rewrite Hrest. done. }
  exists rest. split; [done |]. cbn [app]. eapply leads_write.
  { apply (can_write_init _ _ _ (load_of no)); [apply (can_ready _ Hok) |]. by destruct no as [|[|[|]]]; try lia. }
  assert (Hstart : set_state (load_of no) c = loading no (x0 :: x1 :: x2 :: x3 :: x4 :: rest) Load_id 0 c).
  { unfold loading. rewrite list_insert_id by done. destruct c; cbn in *. by subst. }
  rewrite Hstart. cbn [replicate Nat.add].
  eapply leads_write; [apply (load_id_byte no _ 0); (done || apply Hlen) |]. cbn [Z.eqb Z.add Z.to_nat insert list_insert].
  eapply leads_write; [apply (load_id_byte no _ 1); (done || apply Hlen) |].
  change (Z.to_nat 1) with 1%nat. cbn [Z.eqb Z.add Pos.add Pos.eqb insert list_insert].
  eapply leads_write; [apply (load_id_byte no _ 2); (done || apply Hlen) |].
  change (Z.to_nat 2) with 2%nat. cbn [Z.eqb Z.add Pos.add Pos.succ Pos.eqb insert list_insert].
  eapply leads_write; [apply (load_id_byte no _ 3); (done || apply Hlen) |].
  change (Z.to_nat 3) with 3%nat. cbn [Z.eqb Z.add Pos.add Pos.succ Pos.eqb insert list_insert].
  eapply leads_write; [apply load_length_byte; (done || apply Hlen) |]. cbn [insert list_insert].
  pose proof (load_payload no c fs (Z.of_nat (length p)) Hno Hl3 ltac:(lia) (can_ready _ Hok) Hls Hlp p
    (i0 :: i1 :: i2 :: i3 :: Z.of_nat (length p) :: rest) 0 (Hlen _ _ _ _ _) eq_refl Hne ltac:(lia) ltac:(lia)) as Hpay.
  change (Z.to_nat (5 + 0)) with 5%nat in Hpay. rewrite !inserts_cons in Hpay. exact Hpay.
Qed.

(** RTS: the frame of the buffer is sent. *)
Lemma send_frame c fs no id p rest x : state c = State_init -> (no < 3)%nat -> length id = 4%nat ->
  length rest = CANFD_MAX_DLEN -> (length p <= 8)%nat -> length (can_registers c) = REGISTERS ->
  txBuf c !! no = Some (frame_of id p rest) ->
  leads (can_writes [rts_command no; x]) c fs [0; 0]
    (set_state readRegister_ (set_registers (<[Z.to_nat MCP_TXB0CTRL := 0]> (can_registers c)) (set_state (send_of no) c)))
    (fs ++ [mkFrame (fst (mcp2515_buf_to_id id)) (Z.of_nat (length p)) (p ++ replicate (8 - length p) 0)]).
Proof.
  intros Hst Hno Hid Hrest Hp Hregs Hraw. eapply leads_write.
  { apply (can_write_init _ _ _ (send_of no)); [done |]. by destruct no as [|[|[|]]]; try lia. }
  eapply leads_write; [| apply leads_ret]. unfold can_write. apply leads_can.
  assert (Hcase : forall m : M S E Z,
    match state (set_state (send_of no) c) with sendTX0 => m | sendTX1 => m | sendTX2 => m | _ => fatal AssertFailed end = m).
  { intros m. by destruct no as [|[|[|]]]. }
  assert (Hrun : leads (sendTxBuf no x) (set_state (send_of no) c) fs 0
    (set_state readRegister_ (set_registers (<[Z.to_nat MCP_TXB0CTRL := 0]> (can_registers c)) (set_state (send_of no) c)))
    (fs ++ [mkFrame (fst (mcp2515_buf_to_id id)) (Z.of_nat (length p)) (p ++ replicate (8 - length p) 0)])).
  { unfold sendTxBuf. assert ((no =? 4)%nat = false) as -> by (apply Nat.eqb_neq; lia). apply leads_can.
    cbn [txBuf set_state]. rewrite Hraw. destruct id as [|i0 [|i1 [|i2 [|i3 [|]]]]]; try done.
    unfold frame_of. cbn [app nth take drop]. assert ((8 <? Z.of_nat (length p)) = false) as -> by lia.
    rewrite Nat2Z.id. assert (Hpay : take (length p) (list_inserts 0 p rest) = p).
    { rewrite <- (drop_0 (list_inserts 0 p rest)). apply take_drop_inserts. rewrite Hrest. unfold CANFD_MAX_DLEN. lia. }
    rewrite drop_0, Hpay.
    assert (Hdata : list_inserts 0 p (replicate 8 0) = p ++ replicate (8 - length p) 0).
    { rewrite <- (take_drop (length p) (list_inserts 0 p (replicate 8 0))). f_equal.
      - rewrite <- (drop_0 (list_inserts 0 p _)). apply take_drop_inserts. rewrite length_replicate. lia.
      - apply list_eq. intros i. rewrite lookup_drop, list_lookup_inserts_ge by lia. rewrite <- lookup_drop, drop_replicate. done. }
    rewrite Hdata. eapply leads_bind; [apply leads_socket |]. eapply leads_bind.
    { unfold register_set. apply leads_can. cbn [can_registers set_state]. rewrite Hregs.
      change (Z.to_nat MCP_TXB0CTRL <? REGISTERS)%nat with true. apply leads_update. }
    eapply leads_bind; [apply leads_update | apply leads_ret]. }
  destruct no as [|[|[|]]]; [exact Hrun | exact Hrun | exact Hrun | lia].
Qed.

(** ** Reading a received frame *)

Definition read_of (no : nat) : State := match no with 0%nat => readRX0 | _ => readRX1 end.
Definition read_command (no : nat) : Z := match no with 0%nat => MCP_READ_RX0 | _ => MCP_READ_RX1 end.

(** The bit of [status] for buffer [no], cleared. *)
Definition clear_rx (no : nat) (st : Z) : Z := st .& uint8 (Z.lnot (1 .<< Z.of_nat no)).

Lemma leads_rx_byte no raw i v c fs : rxBuf c !! no = Some raw -> raw !! Z.to_nat i = Some v ->
  leads (frame_byte (rxBuf c) no i) c fs v c fs.
Proof using Type. intros Hraw Hv. unfold frame_byte. rewrite Hraw, Hv. apply leads_ret. Qed.

(** The bytes that are left; the one after the payload ends the command. *)
Lemma read_bytes no raw n c fs : (no < 2)%nat -> rxBuf c !! no = Some raw -> length raw = FRAME_BYTES ->
  raw !! 4%nat = Some n -> 0 <= n <= 64 ->
  forall xs ptr c', c' = set_state (read_of no) (set_rx_ptr ptr c) -> xs <> [] -> 0 <= ptr ->
  ptr + Z.of_nat (length xs) = 5 + n ->
  leads (can_writes xs) c' fs (take (length xs) (drop (Z.to_nat ptr) raw))
    (set_status (clear_rx no (status c)) (set_state State_init (set_rx_ptr 0 c))) fs.
Proof.
  intros Hno Hraw Hl Hn Hr xs. induction xs as [|x xs IH]; intros ptr c' -> Hne Hp Hsum; [done |].
  cbn [length] in Hsum. destruct (lookup_lt_is_Some_2 raw (Z.to_nat ptr)) as [v Hv].
  { rewrite Hl. unfold FRAME_BYTES, CANFD_MAX_DLEN. lia. }
  cbn [length]. rewrite (drop_S _ _ _ Hv). cbn [take]. eapply (leads_write _ _ _ _ v).
  - unfold can_write. apply leads_can.
    assert (Hrun : leads (readRxBuf no x) (set_state (read_of no) (set_rx_ptr ptr c)) fs v
      (if n + 4 <? ptr + 1
       then set_status (clear_rx no (status c)) (set_state State_init (set_rx_ptr 0 c))
       else set_state (read_of no) (set_rx_ptr (ptr + 1) c)) fs).
    { unfold readRxBuf. apply leads_can. eapply leads_bind; [by apply (leads_rx_byte no raw ptr) |].
      assert (Hu : uint8 (ptr + 1) = ptr + 1) by (apply uint_id; unfold is_uint; lia).
      cbn [rx_ptr set_state set_rx_ptr]. rewrite Hu. eapply leads_bind; [apply leads_update |].
      change (set_rx_ptr (ptr + 1) (set_state (read_of no) (set_rx_ptr ptr c))) with (set_state (read_of no) (set_rx_ptr (ptr + 1) c)).
      change (rxBuf (set_state _ _)) with (rxBuf c). eapply leads_bind.
      { unfold frame_byte. rewrite Hraw. change (Z.to_nat 4) with 4%nat. rewrite Hn. apply leads_ret. }
      destruct (n + 4 <? ptr + 1); cbn [when].
      - eapply leads_bind; [| apply leads_ret]. eapply leads_bind; [apply leads_update |].
        eapply leads_bind; [apply leads_update |].
        exact (leads_update (fun c0 => set_status (clear_rx no (status c0)) c0)
          (set_state State_init (set_rx_ptr 0 (set_state (read_of no) (set_rx_ptr (ptr + 1) c)))) fs).
      - eapply leads_bind; [apply leads_ret | apply leads_ret]. }
    destruct no as [|[|]]; [exact Hrun | exact Hrun | lia].
  - destruct xs as [|x' xs].
    + cbn [length] in Hsum. assert ((n + 4 <? ptr + 1) = true) as -> by lia. apply leads_ret.
    + cbn [length] in Hsum. assert ((n + 4 <? ptr + 1) = false) as -> by lia.
      replace (Datatypes.S (Z.to_nat ptr)) with (Z.to_nat (ptr + 1)) by lia.
      apply IH; (done || (cbn [length]; lia)).
Qed.

(** The bytes a received frame is read as. *)
Definition rx_bytes (f : can_frame) : list Z :=
  mcp2515_id_to_buf (can_id f) false ++ [can_dlc f] ++ take (Z.to_nat (can_dlc f)) (can_data f).

(** A frame of the socket: at most eight bytes of data. *)
Definition frame_ok (f : can_frame) : Prop := 0 <= can_dlc f <= 8 /\ length (can_data f) = 8%nat.

Lemma enqueue_leads i f c fs : frame_ok f -> (i < 2)%nat ->
  (if decide (i = 0%nat) then status c .& 1 = 0 else status c .& 1 <> 0 /\ status c .& 2 = 0) ->
  leads (enqueueIncomingCanFrame f) c fs tt (fill_rx i f c) fs.
Proof.
  intros [Hd Hl] Hi Hst. unfold enqueueIncomingCanFrame. apply leads_can.
  assert (H3 : forall k, 0 <= k < 2 -> Z.testbit (status c .& 3) k = Z.testbit (status c) k).
  { intros k Hk. rewrite Z.land_spec. assert (k = 0 \/ k = 1) as [-> | ->] by lia; apply andb_true_r. }
  assert (Hbit : forall k, 0 <= k < 2 -> status c .& 2 ^ k = 0 -> Z.testbit (status c) k = false).
  { intros k Hk H0. apply (f_equal (fun z => Z.testbit z k)) in H0.
    cbv beta in H0. rewrite Z.land_spec, (Z.pow2_bits_true k) in H0 by lia.
    by rewrite Z.testbit_0_l, andb_true_r in H0. }
  assert ((status c .& 3 =? 3) = false) as ->.
  { apply Z.eqb_neq. intros E0. destruct (decide (i = 0%nat)).
    - pose proof (Hbit 0 ltac:(lia) Hst) as Hb. rewrite <- (H3 0), E0 in Hb by lia. done.
    - pose proof (Hbit 1 ltac:(lia) (proj2 Hst)) as Hb. rewrite <- (H3 1), E0 in Hb by lia. done. }
  assert ((Z.of_nat (length (can_data f)) <? can_dlc f) = false) as -> by (apply Z.ltb_ge; lia).
  destruct (decide (i = 0%nat)) as [-> |].
  - rewrite Hst. apply leads_update.
  - destruct Hst as [H1 H2]. assert (i = 1%nat) as -> by lia. unfold nonzero at 1.
    apply Z.eqb_neq in H1. rewrite H1. cbn [negb]. rewrite H2. apply leads_update.
Qed.

(** The state in which buffer [i] is the free one a frame goes to. *)
Definition rx_free (i : nat) (c : CAN) : Prop :=
  if decide (i = 0%nat) then status c .& 1 = 0 else status c .& 1 <> 0 /\ status c .& 2 = 0.

Lemma receive_frame i f c fs x xs : can_ok c -> frame_ok f -> (i < 2)%nat -> rx_free i c ->
  length xs = (5 + Z.to_nat (can_dlc f))%nat -> x = read_command i ->
  leads (enqueueIncomingCanFrame f ;; can_writes (x :: xs)) c fs (0 :: rx_bytes f)
    (set_status (clear_rx i (status (fill_rx i f c))) (fill_rx i f c)) fs.
Proof.
  intros Hok Hf Hi Hfree Hxs ->. eapply leads_bind; [by apply (enqueue_leads i) |].
  eapply leads_write.
  { apply (can_write_init _ _ _ (read_of i)); [apply (can_ready _ Hok) |]. by destruct i as [|[|]]; try lia. }
  destruct Hf as [Hd Hl]. set (raw := rx_bytes f ++ replicate (CANFD_MAX_DLEN - Z.to_nat (can_dlc f)) 0).
  assert (Hidl : forall id, length (mcp2515_id_to_buf id false) = 4%nat) by done.
  assert (Hrxl : length (rx_bytes f) = (5 + Z.to_nat (can_dlc f))%nat).
  { unfold rx_bytes. rewrite !length_app, Hidl, length_take, Hl. cbn [length]. lia. }
  assert (Hraw : rxBuf (fill_rx i f c) !! i = Some raw).
  { unfold raw, rx_bytes. cbn [rxBuf fill_rx set_status set_rxBuf]. rewrite list_lookup_insert_eq by (rewrite (proj1 (can_rx _ Hok)); lia).
    by rewrite <- !app_assoc. }
  assert (Hn : raw !! 4%nat = Some (can_dlc f)) by done.
  assert (Hlen : length raw = FRAME_BYTES).
  { unfold raw. rewrite length_app, Hrxl, length_replicate. unfold FRAME_BYTES, CANFD_MAX_DLEN. lia. }
  pose proof (read_bytes i raw (can_dlc f) (fill_rx i f c) fs Hi Hraw Hlen Hn ltac:(lia) xs 0 _ eq_refl) as Hrd.
  assert (Htake : take (length xs) (drop (Z.to_nat 0) raw) = rx_bytes f).
  { change (Z.to_nat 0) with 0%nat. rewrite drop_0. unfold raw. apply take_app_length'. congruence. }
  rewrite Htake in Hrd.
  assert (Hst : set_rx_ptr 0 (fill_rx i f c) = fill_rx i f c).
  { pose proof (can_rx_idle _ Hok). destruct c; cbn in *. by subst. }
  assert (Hst' : set_state State_init (fill_rx i f c) = fill_rx i f c).
  { pose proof (can_ready _ Hok). destruct c; cbn in *. by subst. }
  rewrite Hst, Hst' in Hrd. apply Hrd; [| done | lia].
  intros ->. cbn in Hxs. lia.
Qed.

(** When both buffers are full the frame is dropped. *)
Lemma receive_full f c fs : status c .& 3 = 3 -> leads (enqueueIncomingCanFrame f) c fs tt c fs.
Proof using Type. intros Hst. unfold enqueueIncomingCanFrame. apply leads_can. rewrite Hst. apply leads_ret. Qed.

(** An identifier the controller can hold. *)
Definition id_ok (id : Z) (extended : bool) : Prop := 0 <= id < (if extended then 2 ^ 29 else 2 ^ 11).

Lemma id_buf id extended : id_ok id extended ->
  length (mcp2515_id_to_buf id extended) = 4%nat /\ mcp2515_buf_to_id (mcp2515_id_to_buf id extended) = (id, extended).
Proof using Type. destruct extended; intros Hid; (split; [done |]); [by apply ext_id_round_trip | by apply std_id_round_trip]. Qed.

Lemma load_and_send c fs no id extended p x : can_ok c -> (no < 3)%nat -> id_ok id extended ->
  p <> [] -> (length p <= 8)%nat ->
  exists c', leads (can_writes (load_command no :: mcp2515_id_to_buf id extended ++ [Z.of_nat (length p)] ++ p ++
      [rts_command no; x])) c fs (replicate (8 + length p) 0) c'
    (fs ++ [mkFrame id (Z.of_nat (length p)) (p ++ replicate (8 - length p) 0)]) /\
    state c' = readRegister_ /\ can_registers c' = <[Z.to_nat MCP_TXB0CTRL := 0]> (can_registers c) /\
    status c' = status c /\ rxBuf c' = rxBuf c.
Proof.
  intros Hok Hno Hid Hne Hp. destruct (id_buf id extended Hid) as [Hl Hrt].
  destruct (mcp2515_id_to_buf id extended) as [|i0 [|i1 [|i2 [|i3 [|]]]]] eqn:Hbuf; try done.
  destruct (load_frame c fs no i0 i1 i2 i3 p Hok Hno Hne ltac:(lia)) as (rest & Hrest & Hload).
  eexists. split.
  - assert (Hsplit : forall l : list Z, load_command no :: [i0; i1; i2; i3] ++ [Z.of_nat (length p)] ++ p ++ l
      = (load_command no :: [i0; i1; i2; i3] ++ Z.of_nat (length p) :: p) ++ l) by done.
    rewrite Hsplit. replace (replicate (8 + length p) 0) with (replicate (6 + length p) 0 ++ [0; 0]).
    2: { change [0; 0] with (replicate 2 0). rewrite <- replicate_add. f_equal. lia. }
    eapply leads_writes_app; [exact Hload |].
    pose proof (send_frame (set_txBuf (<[no := frame_of [i0; i1; i2; i3] p rest]> (txBuf c)) c) fs no
      [i0; i1; i2; i3] p rest x (can_ready _ Hok) Hno eq_refl Hrest Hp (can_regs _ Hok)) as Hsend.
    rewrite Hrt in Hsend. apply Hsend. cbn. apply list_lookup_insert_eq. rewrite (proj1 (can_tx _ Hok)). lia.
  - done.
Qed.

(** The identifier a received frame is read with. *)
Lemma rx_id f : mcp2515_buf_to_id (take 4 (rx_bytes f))
  = (if bus_extended (on_bus f) then bus_id (on_bus f) mod 2 ^ 11 else bus_id (on_bus f), false).
Proof using Type.
  assert (Htake : take 4 (rx_bytes f) = mcp2515_id_to_buf (can_id f) false) by done.
  rewrite Htake, std_id_low, std_id_round_trip by (apply Z.mod_pos_bound; done). f_equal. unfold on_bus. cbn [bus_extended bus_id].
  destruct (Z.testbit (can_id f) 31).
  - change 0x1FFFFFFF with (Z.ones 29). rewrite Z.land_ones by done. symmetry. apply Z.mod_mod_divide. by exists (2 ^ 18).
  - change 0x7FF with (Z.ones 11). by rewrite Z.land_ones.
Qed.

(** C32: Frames through the SPI bytes, and what they are on the CAN bus.  Loading a
    transmit buffer with an identifier (11 bits, or 29 bits extended), a length and
    one to eight bytes and requesting to send it writes one frame to the socket, with
    the identifier, the length and the bytes, padded with zeros; the controller
    answers zero to every byte, reports the buffer sent in TXB0CTRL and leaves the
    received frames alone.  For an 11-bit identifier the frame on the bus is the one
    requested.  For an extended one it is not: the socket is not told that the frame
    is extended, so a standard frame goes out, with the lowest 11 bits of the
    identifier.  A frame that arrives while receive buffer [i] is the free one is
    read back by that buffer's read command, which frees it again: length and data
    are those of the frame, and the four bytes of the identifier decode to a standard
    one, the frame's own if the frame is standard, and the lowest 11 bits of it if it
    is extended (a remote request is read like a frame with data).  A frame that
    arrives when both buffers are full is dropped. *)
Theorem can_frames c fs : can_ok c ->
  (forall no id extended p x, (no < 3)%nat -> id_ok id extended -> p <> [] -> (length p <= 8)%nat ->
   let frame := mkFrame id (Z.of_nat (length p)) (p ++ replicate (8 - length p) 0) in
   on_bus frame = mkBus false false (if extended then id mod 2 ^ 11 else id) p /\
   exists c', leads (can_writes (load_command no :: mcp2515_id_to_buf id extended ++ [Z.of_nat (length p)] ++ p ++
       [rts_command no; x])) c fs (replicate (8 + length p) 0) c' (fs ++ [frame]) /\
     state c' = readRegister_ /\ can_registers c' = <[Z.to_nat MCP_TXB0CTRL := 0]> (can_registers c) /\
     status c' = status c /\ rxBuf c' = rxBuf c) /\
  (forall i f xs, frame_ok f -> (i < 2)%nat -> rx_free i c -> length xs = (5 + Z.to_nat (can_dlc f))%nat ->
   leads (enqueueIncomingCanFrame f ;; can_writes (read_command i :: xs)) c fs (0 :: rx_bytes f)
     (set_status (clear_rx i (status (fill_rx i f c))) (fill_rx i f c)) fs /\
   drop 4 (rx_bytes f) = can_dlc f :: bus_data (on_bus f) /\
   mcp2515_buf_to_id (take 4 (rx_bytes f))
     = (if bus_extended (on_bus f) then bus_id (on_bus f) mod 2 ^ 11 else bus_id (on_bus f), false) /\
   rx_free i (set_status (clear_rx i (status (fill_rx i f c))) (fill_rx i f c))) /\
  (forall f, status c .& 3 = 3 -> leads (enqueueIncomingCanFrame f) c fs tt c fs).
Proof.
  intros Hok. split; [| split].
  - intros no id extended p x Hno Hid Hne Hp frame. split; [| by apply load_and_send].
    unfold id_ok in Hid. unfold frame. rewrite on_bus_sent by (destruct extended; lia).
    destruct extended; [done |]. by rewrite Z.mod_small by lia.
  - intros i f xs Hf Hi Hfree Hxs. split; [by apply receive_frame | split; [done | split]].
    + apply rx_id.
    + unfold rx_free in *. cbn [status set_status fill_rx]. unfold clear_rx.
      destruct (decide (i = 0%nat)) as [-> |]; [| assert (i = 1%nat) as -> by lia; split].
      * change (uint8 (Z.lnot (1 .<< Z.of_nat 0))) with 254. rewrite <- Z.land_assoc. apply Z.land_0_r.
      * change (uint8 (Z.lnot (1 .<< Z.of_nat 1))) with 253. rewrite <- Z.land_assoc. change (253 .& 1) with 1.
        rewrite Z.land_lor_distr_l. change ((1 .<< Z.of_nat 1) .& 1) with 0. rewrite Z.lor_0_r. apply Hfree.
      * change (uint8 (Z.lnot (1 .<< Z.of_nat 1))) with 253. rewrite <- Z.land_assoc. apply Z.land_0_r.
  - intros f Hfull. by apply receive_full.
Qed.

End can.

(** ** A bench *)

Record can_bench : Type := mkCanBench { cb_can : CAN; cb_sent : list can_frame }.

#[export] Instance can_bench_interface : can_interface can_bench unit := {
  get_can := cb_can;
  set_can c s := mkCanBench c (cb_sent s);
  socket_write f s := (Ret tt, mkCanBench (cb_can s) (cb_sent s ++ [f]))
}.

#[export] Instance can_bench_system : can_system can_bench unit.
Proof. refine {| can_sent := cb_sent |}; [done |]. intros f s. by eexists. Defined.

Lemma CAN_new_ok : can_ok CAN_new.
Proof. constructor; try done; (split; [done |]); repeat constructor. Qed.

(** Buffer 1 sends a standard frame, then an extended one, which goes out as another
    frame; receive buffer 0 takes a standard one. *)
Lemma can_frames_witness :
  (exists s', can_writes (MCP_LOAD_TX1 :: mcp2515_id_to_buf 0x123 false ++ [2; 10; 11; MCP_RTS_TX1; MCP_READ])
     (mkCanBench CAN_new []) = (Ret (replicate 10 0), s') /\
     map on_bus (can_sent s') = [mkBus false false 0x123 [10; 11]]) /\
  (exists s', can_writes (MCP_LOAD_TX1 :: mcp2515_id_to_buf 0x1234567 true ++ [2; 10; 11; MCP_RTS_TX1; MCP_READ])
     (mkCanBench CAN_new []) = (Ret (replicate 10 0), s') /\
     map on_bus (can_sent s') = [mkBus false false 0x567 [10; 11]]) /\
  exists s', (enqueueIncomingCanFrame (mkFrame 0x123 1 [7; 0; 0; 0; 0; 0; 0; 0]) ;;
     can_writes (MCP_READ_RX0 :: replicate 6 0)) (mkCanBench CAN_new []) = (Ret [0; 0x24; 0x60; 0; 0; 1; 7], s').
Proof.
  destruct (can_frames (E := unit) CAN_new [] CAN_new_ok) as (Hsend & Hrecv & _). split; [| split].
  - destruct (Hsend 1%nat 0x123 false [10; 11] MCP_READ ltac:(lia) ltac:(by vm_compute) ltac:(done) ltac:(cbn; lia))
      as (_ & c' & Hl & _).
    destruct (Hl (mkCanBench CAN_new []) (conj eq_refl eq_refl)) as (s' & Hs & _ & Hf).
    exists s'. split; [exact Hs | by rewrite Hf].
  - destruct (Hsend 1%nat 0x1234567 true [10; 11] MCP_READ ltac:(lia) ltac:(by vm_compute) ltac:(done) ltac:(cbn; lia))
      as (_ & c' & Hl & _).
    destruct (Hl (mkCanBench CAN_new []) (conj eq_refl eq_refl)) as (s' & Hs & _ & Hf).
    exists s'. split; [exact Hs | by rewrite Hf].
  - destruct (Hrecv 0%nat (mkFrame 0x123 1 [7; 0; 0; 0; 0; 0; 0; 0]) (replicate 6 0) ltac:(by vm_compute) ltac:(lia)
      ltac:(by vm_compute) eq_refl) as (Hl & _).
    destruct (Hl (mkCanBench CAN_new []) (conj eq_refl eq_refl)) as (s' & Hs & _). exists s'. exact Hs.
Defined.
