(* ===== verification/Gpio.v ===== *)
(** * General purpose input and output

    Models platform/hifive/gpio.h, gpio.cpp and the requests of gpio/gpio-server.cpp:
    the registers, the pins' values that clients of the server set, and the
    interrupts for their edges.  The thread of the server and the process of the
    device share server.state: an access to it is one step, and [gpio_others] is
    what the server's thread does while the process works.  The interrupt
    controller and the connection are operations of the class [gpio_interface]. *)

From S2P Require Import Prelude Memory MemoryMap IrqSearch TlmMap.

(** ** State *)

Inductive gpio_reg : Type :=
  | g_value | g_input_en | g_output_en | g_port | g_pullup_en | g_pin_drive_strength
  | g_rise_intr_en | g_rise_intr_pending | g_fall_intr_en | g_fall_intr_pending
  | g_high_intr_en | g_high_intr_pending | g_low_intr_en | g_low_intr_pending
  | g_iof_en | g_iof_sel | g_out_xor.

#[export] Instance gpio_reg_eq_dec : EqDecision gpio_reg.
Proof. solve_decision. Defined.

Record GPIO : Type := mkGPIO { gpio_regs : gpio_reg -> Z; server_state : Z }.

Definition set_gpio_reg (r : gpio_reg) (v : Z) (g : GPIO) : GPIO :=
  mkGPIO (fun r' => if decide (r' = r) then v else gpio_regs g r') (server_state g).
Definition set_server_state (v : Z) (g : GPIO) : GPIO := mkGPIO (gpio_regs g) v.

(** The constructor: the registers of pending interrupts are inverted. *)
Definition GPIO_new : GPIO :=
  mkGPIO (fun r =>
    match r with
    | g_rise_intr_pending | g_fall_intr_pending | g_high_intr_pending | g_low_intr_pending => 0xffffffff
    | _ => 0
    end) 0.

Class gpio_interface (S E : Type) : Type := {
  get_gpio : S -> GPIO;
  set_gpio : GPIO -> S -> S;
  int_gpio_base : Z;
  gpio_gateway : Z -> M S E unit;
  gpio_async_notify : M S E unit;
  gpio_others : M S E unit;
  gpio_answer : list Z -> M S E unit
}.

(** Registers and their addresses. *)
Definition gpio_bank : list (reg_mapping_t gpio_reg) :=
  [register 0x000 g_value; register 0x004 g_input_en; register 0x008 g_output_en; register 0x00C g_port;
   register 0x010 g_pullup_en; register 0x014 g_pin_drive_strength;
   register 0x018 g_rise_intr_en; register 0x01C g_rise_intr_pending;
   register 0x020 g_fall_intr_en; register 0x024 g_fall_intr_pending;
   register 0x028 g_high_intr_en; register 0x02C g_high_intr_pending;
   register 0x030 g_low_intr_en; register 0x034 g_low_intr_pending;
   register 0x038 g_iof_en; register 0x03C g_iof_sel; register 0x040 g_out_xor].

Section GPIO.
Context {S E : Type} `{gpio_interface S E}.

Abbreviation R := (M S E).

Definition gpio_of (r : gpio_reg) : R Z := gets (fun s => gpio_regs (get_gpio s) r).
Definition update_gpio (f : GPIO -> GPIO) : R unit := modify (fun s => set_gpio (f (get_gpio s)) s).

#[export] Instance gpio_registers : register_file S gpio_reg := {
  load_reg r s := gpio_regs (get_gpio s) r;
  store_reg r v s := set_gpio (set_gpio_reg r v (get_gpio s)) s
}.

(** ** Registers *)

(** [x = (x & ~output_en) | (port & output_en)] *)
Definition drive_pins (output_en port x : Z) : Z := (x .& uint32 (Z.lnot output_en)) .| (port .& output_en).

Definition gpio_register_access : handler_t S gpio_reg E := fun r =>
  let writes v := access_write r && bool_decide (access_vptr r = v) in
  if writes g_value then mret (access_data r)
  else
    reg_bak ← (if writes g_pullup_en then gpio_of g_pullup_en else mret 0);
    data ← access_fn r;
    (if writes g_port then
       out ← gpio_of g_output_en;
       port ← gpio_of g_port;
       value ← gpio_of g_value;
       update_gpio (set_gpio_reg g_value (drive_pins out port value)) ;;
       update_gpio (fun g => set_server_state (drive_pins out port (server_state g)) g)
     else if writes g_pullup_en then
       pullup ← gpio_of g_pullup_en;
       value ← gpio_of g_value;
       update_gpio (set_gpio_reg g_value (value .| (reg_bak .^ pullup))) ;;
       update_gpio (fun g => set_server_state (server_state g .| (reg_bak .^ pullup)) g)
     else skip) ;;
    mret data.

Definition gpio_router : list (AbstractMapping S gpio_reg E) :=
  [RegisterMapping gpio_bank (Some gpio_register_access)].

Definition gpio_transport : transport_fn S E := router_transport gpio_router.

(** ** The server's thread *)

Definition asyncOnchange (bit val : Z) : R unit :=
  st ← gets (fun s => server_state (get_gpio s));
  let mask := uint64 (1 .<< bit) in
  if (st .& mask) .>> bit =? val then skip
  else if val =? 0 then
    update_gpio (fun g => set_server_state (server_state g .& uint64 (Z.lnot mask)) g) ;; gpio_async_notify
  else if val =? 1 then
    update_gpio (fun g => set_server_state (server_state g .| mask) g) ;; gpio_async_notify
  else skip.

Definition GET_BANK : Z := 1.
Definition SET_BIT : Z := 2.

(** A request of a client: an operation, and six bits of a pin with two of its
    value.  The result tells whether the connection goes on. *)
Definition gpio_request (op arg : Z) : R bool :=
  if op =? GET_BANK then
    st ← gets (fun s => server_state (get_gpio s)); gpio_answer (to_bytes uint64_t st) ;; mret true
  else if op =? SET_BIT then
    let pos := arg .& 63 in
    let val := arg .>> 6 in
    if 63 <? pos then mret false
    else if 2 <? val then mret false
    else asyncOnchange pos val ;; mret true
  else mret false.

(** ** The process of the device *)

(** An edge of pin [i]: its interrupt is raised if it is enabled and not pending
    (the bits of the pending registers are inverted). *)
Definition gpio_edge (en pending : gpio_reg) (i : nat) : R unit :=
  let bit := 1 .<< Z.of_nat i in
  e ← gpio_of en;
  if nonzero (e .& bit) then
    p ← gpio_of pending;
    if nonzero (uint32 (Z.lnot p) .& bit) then skip
    else
      update_gpio (set_gpio_reg pending (p .& uint32 (Z.lnot bit))) ;;
      gpio_gateway (uint32 (int_gpio_base + Z.of_nat i))
  else skip.

(** The loop over the pins from [i], with [n] to go. *)
Fixpoint gpio_pins (snapshot diff : Z) (i n : nat) : R unit :=
  match n with
  | O => skip
  | Datatypes.S n =>
      let bit := 1 .<< Z.of_nat i in
      when (nonzero (diff .& bit))
        (if nonzero (snapshot .& bit) then gpio_edge g_rise_intr_en g_rise_intr_pending i
         else gpio_edge g_fall_intr_en g_fall_intr_pending i) ;;
      gpio_pins snapshot diff (Datatypes.S i) n
  end.

(** It calls itself while the server's thread changes the pins; [fuel] bounds
    how often. *)
Fixpoint synchronousChange (fuel : nat) : R unit :=
  g ← gets get_gpio;
  let snapshot := server_state g in
  let diff := uint32 ((snapshot .^ gpio_regs g g_value) .& gpio_regs g g_input_en) in
  if diff =? 0 then skip
  else
    gpio_pins snapshot diff 0 32 ;;
    input_en ← gpio_of g_input_en;
    port ← gpio_of g_port;
    output_en ← gpio_of g_output_en;
    update_gpio (set_gpio_reg g_value (uint32 ((snapshot .& input_en) .| (port .& output_en)))) ;;
    gpio_others ;;
    g ← gets get_gpio;
    if snapshot =? server_state g then skip
    else match fuel with O => fatal Blocked | Datatypes.S fuel => synchronousChange fuel end.

End GPIO.

(** ** The environment *)

(** What the theorems use of the environment: the interrupt controller keeps a
    log of the interrupts it was told of, and the thread of the server changes
    server.state a bounded number of times, [gpio_left]. *)
Class gpio_system (S E : Type) `{gpio_interface S E} : Type := {
  gpio_log : S -> list Z;
  gpio_left : S -> nat;
  set_gpio_ok g s : get_gpio (set_gpio g s) = g /\ gpio_log (set_gpio g s) = gpio_log s /\
    gpio_left (set_gpio g s) = gpio_left s;
  gpio_gateway_ok n s : exists s', gpio_gateway n s = (Ret tt, s') /\ get_gpio s' = get_gpio s /\
    gpio_log s' = gpio_log s ++ [n] /\ gpio_left s' = gpio_left s;
  gpio_others_ok s : exists s', gpio_others s = (Ret tt, s') /\
    gpio_regs (get_gpio s') = gpio_regs (get_gpio s) /\ gpio_log s' = gpio_log s /\
    (gpio_left s' <= gpio_left s)%nat /\
    (server_state (get_gpio s') <> server_state (get_gpio s) -> (gpio_left s' < gpio_left s)%nat)
}.

Section gpio.
Context {S E : Type} `{Hsys : gpio_system S E}.
#[local] Set Default Proof Using "Type Hsys".

(** An edge: rising or falling, and its pin. *)
Definition edge : Type := bool * nat.

Definition en_reg (e : edge) : gpio_reg := if fst e then g_rise_intr_en else g_fall_intr_en.
Definition pend_reg (e : edge) : gpio_reg := if fst e then g_rise_intr_pending else g_fall_intr_pending.
Definition pin_of (e : edge) : Z := Z.of_nat (snd e).

(** The interrupt of the edge is enabled and not pending. *)
Definition edge_idle (g : GPIO) (e : edge) : bool := Z.testbit (gpio_regs g (pend_reg e)) (pin_of e).
Definition edge_armed (g : GPIO) (e : edge) : bool :=
  Z.testbit (gpio_regs g (en_reg e)) (pin_of e) && edge_idle g e.

Definition irq_of (e : edge) : Z := uint32 (int_gpio_base + pin_of e).

(** The interrupt of an edge becomes pending. *)
Definition take_edge (g : GPIO) (e : edge) : GPIO :=
  set_gpio_reg (pend_reg e) (gpio_regs g (pend_reg e) .& uint32 (Z.lnot (1 .<< pin_of e))) g.

(** The pins from [i] that differ, with their new value. *)
Definition edges (snapshot diff : Z) (i n : nat) : list edge :=
  map (fun k => (Z.testbit snapshot (Z.of_nat k), k)) (List.filter (fun k => Z.testbit diff (Z.of_nat k)) (seq i n)).

Lemma land_clear p i k : 0 <= i < 32 -> 0 <= k < 32 ->
  Z.testbit (p .& uint32 (Z.lnot (1 .<< i))) k = Z.testbit p k && negb (k =? i).
Proof using Type.
  intros Hi Hk. rewrite Z.land_spec. f_equal. unfold uint32. rewrite uint_testbit_low by lia.
  rewrite Z.lnot_spec by lia. f_equal. rewrite Z.shiftl_1_l, Z.pow2_bits_eqb by lia. apply Z.eqb_sym.
Qed.

Lemma take_idle g e e' : (snd e < 32)%nat -> (snd e' < 32)%nat ->
  edge_idle (take_edge g e) e' = edge_idle g e' && negb (bool_decide (e = e')).
Proof using Type.
  intros He He'. unfold edge_idle, take_edge, pin_of. destruct e as [r i], e' as [r' i']. cbn [fst snd pend_reg] in *.
  cbn [gpio_regs set_gpio_reg]. destruct (decide (r = r')) as [<- | Hr].
  - rewrite decide_True by done. unfold pin_of. cbn [snd]. rewrite land_clear by lia. do 2 f_equal.
    apply eq_true_iff_eq. rewrite Z.eqb_eq, bool_decide_eq_true. split; [intros ?; f_equal; lia | by intros [= ->]].
  - rewrite decide_False by (destruct r, r'; done). rewrite bool_decide_false by congruence. by rewrite andb_true_r.
Qed.

Lemma take_regs g e r : r <> g_rise_intr_pending -> r <> g_fall_intr_pending -> gpio_regs (take_edge g e) r = gpio_regs g r.
Proof using Type. intros H1 H2. unfold take_edge. cbn. unfold pend_reg. destruct e as [[] i]; by rewrite decide_False. Qed.

Lemma take_armed g e e' : (snd e < 32)%nat -> (snd e' < 32)%nat ->
  edge_armed (take_edge g e) e' = edge_armed g e' && negb (bool_decide (e = e')).
Proof using Type.
  intros He He'. unfold edge_armed. rewrite take_idle by done. rewrite take_regs by (by destruct e' as [[] i]).
  apply andb_assoc.
Qed.

(** ** One edge *)

Definition irqs (es : list edge) : list Z := map irq_of es.

Lemma edge_eq e s : (snd e < 32)%nat ->
  exists s', gpio_edge (en_reg e) (pend_reg e) (snd e) s = (Ret tt, s') /\ gpio_left s' = gpio_left s /\
    if edge_armed (get_gpio s) e then get_gpio s' = take_edge (get_gpio s) e /\ gpio_log s' = gpio_log s ++ [irq_of e]
    else s' = s.
Proof.
  intros Hi. unfold gpio_edge, gpio_of, gets. unfold mbind at 1, M_bind at 1. rewrite bit_test by lia.
  unfold edge_armed, pin_of. destruct (Z.testbit (gpio_regs (get_gpio s) (en_reg e)) (Z.of_nat (snd e))); [| by exists s].
  cbn [andb]. unfold mbind at 1, M_bind at 1. rewrite bit_test by lia. unfold uint32 at 1. rewrite uint_testbit_low by lia.
  rewrite Z.lnot_spec by lia. fold (edge_idle (get_gpio s) e).
  change (Z.testbit (gpio_regs (get_gpio s) (pend_reg e)) (Z.of_nat (snd e))) with (edge_idle (get_gpio s) e).
  destruct (edge_idle (get_gpio s) e); cbn [negb]; [| by exists s].
  unfold mbind, M_bind, update_gpio, modify. fold (pin_of e). fold (take_edge (get_gpio s) e).
  destruct (set_gpio_ok (take_edge (get_gpio s) e) s) as (Hg & Hl & Hf).
  destruct (gpio_gateway_ok (irq_of e) (set_gpio (take_edge (get_gpio s) e) s)) as (s' & Hs' & Hg' & Hl' & Hf').
  exists s'. split; [exact Hs' |]. split; [congruence |]. split; congruence.
Qed.

(** ** All pins *)

Definition take_edges (g : GPIO) (es : list edge) : GPIO := foldl take_edge g es.

Lemma takes_idle es : forall g e, Forall (fun e => (snd e < 32)%nat) es -> (snd e < 32)%nat ->
  edge_idle (take_edges g es) e = edge_idle g e && negb (bool_decide (e ∈ es)).
Proof using Type.
  induction es as [|e' es IH]; intros g e Hes He; cbn [take_edges foldl].
  - rewrite bool_decide_false by (by intros ?%not_elem_of_nil). by rewrite andb_true_r.
  - inversion Hes as [|? ? He' Hes']; subst. fold (take_edges (take_edge g e') es). rewrite IH, take_idle by done.
    rewrite <- andb_assoc. f_equal. rewrite <- negb_orb. f_equal. apply eq_true_iff_eq.
    rewrite orb_true_iff, !bool_decide_eq_true, elem_of_cons. by intuition congruence.
Qed.

Lemma takes_regs es : forall g r, r <> g_rise_intr_pending -> r <> g_fall_intr_pending ->
  gpio_regs (take_edges g es) r = gpio_regs g r.
Proof using Type.
  induction es as [|e es IH]; intros g r H1 H2; [done |]. cbn [take_edges foldl].
  fold (take_edges (take_edge g e) es). by rewrite IH, take_regs.
Qed.

Lemma takes_state es : forall g, server_state (take_edges g es) = server_state g.
Proof using Type. induction es as [|e es IH]; intros g; [done |]. apply (IH (take_edge g e)). Qed.

Lemma edges_cons snapshot diff i n : edges snapshot diff i (Datatypes.S n) =
  if Z.testbit diff (Z.of_nat i) then (Z.testbit snapshot (Z.of_nat i), i) :: edges snapshot diff (Datatypes.S i) n
  else edges snapshot diff (Datatypes.S i) n.
Proof using Type. unfold edges. cbn [seq List.filter]. by destruct (Z.testbit diff (Z.of_nat i)). Qed.

Lemma edges_pins snapshot diff i n e : In e (edges snapshot diff i n) -> (i <= snd e < i + n)%nat.
Proof using Type. unfold edges. rewrite in_map_iff. intros (k & <- & [Hk _]%filter_In). by rewrite in_seq in Hk. Qed.

Lemma edges_zero snapshot i n e : ~ In e (edges snapshot 0 i n).
Proof using Type.
  unfold edges. rewrite in_map_iff. intros (k & _ & [_ Hk]%filter_In). by rewrite Z.testbit_0_l in Hk.
Qed.

Lemma edges_nodup snapshot diff i n : NoDup (edges snapshot diff i n).
Proof using Type.
  unfold edges. apply NoDup_ListNoDup, Finite.Injective_map_NoDup; [by intros ? ? [= _ ->] |].
  apply List.NoDup_filter, seq_NoDup.
Qed.

Lemma pins_eq snapshot diff n : forall i s, (i + n <= 32)%nat ->
  exists s', gpio_pins snapshot diff i n s = (Ret tt, s') /\ gpio_left s' = gpio_left s /\
    let fired := List.filter (edge_armed (get_gpio s)) (edges snapshot diff i n) in
    get_gpio s' = take_edges (get_gpio s) fired /\ gpio_log s' = gpio_log s ++ irqs fired.
Proof.
  induction n as [|n IH]; intros i s Hi; cbn [gpio_pins].
  - exists s. unfold edges. cbn. by rewrite app_nil_r.
  - rewrite bit_test by lia. rewrite edges_cons. destruct (Z.testbit diff (Z.of_nat i)); cbn [when].
    2: { destruct (IH (Datatypes.S i) s ltac:(lia)) as (s' & Hs' & Hrest). exists s'. split; [exact Hs' | exact Hrest]. }
    set (e := (Z.testbit snapshot (Z.of_nat i), i)). destruct (edge_eq e s ltac:(cbn; lia)) as (s1 & Hs1 & Hf1 & Hcase).
    unfold mbind, M_bind. rewrite bit_test by lia.
    assert (Hrun : (if Z.testbit snapshot (Z.of_nat i) then gpio_edge g_rise_intr_en g_rise_intr_pending i
      else gpio_edge g_fall_intr_en g_fall_intr_pending i) s = (Ret tt, s1)).
    { rewrite <- Hs1. unfold e, en_reg, pend_reg. cbn [fst snd]. by destruct (Z.testbit snapshot (Z.of_nat i)). }
    rewrite Hrun. destruct (IH (Datatypes.S i) s1 ltac:(lia)) as (s2 & Hs2 & Hf2 & Hg2 & Hl2).
    exists s2. split; [done |]. split; [congruence |].
    cbn [List.filter]. destruct (edge_armed (get_gpio s) e).
    + destruct Hcase as [Hg1 Hl1]. assert (Hext : List.filter (edge_armed (get_gpio s1)) (edges snapshot diff (Datatypes.S i) n)
        = List.filter (edge_armed (get_gpio s)) (edges snapshot diff (Datatypes.S i) n)).
      { apply filter_ext_in. intros e' He'%edges_pins. rewrite Hg1, take_armed by (cbn [snd e]; lia).
        rewrite bool_decide_false; [apply andb_true_r |]. intros Heq. rewrite <- Heq in He'. cbn [snd e] in He'. lia. }
      rewrite Hext in Hg2, Hl2. split; [by rewrite Hg2, Hg1 |]. rewrite Hl2, Hl1, <- app_assoc. done.
    + by subst s1.
Qed.

#[local] Opaque gpio_pins edges.

(** ** The process *)

(** What a run of the process does: the edges it takes, all enabled and none
    pending, each once. *)
Record gpio_moves (s s' : S) (fired : list edge) : Prop := {
  moves_log : gpio_log s' = gpio_log s ++ irqs fired;
  moves_once : NoDup fired;
  moves_armed : Forall (fun e => (snd e < 32)%nat /\ edge_armed (get_gpio s) e = true) fired;
  moves_idle e : (snd e < 32)%nat ->
    edge_idle (get_gpio s') e = edge_idle (get_gpio s) e && negb (bool_decide (e ∈ fired));
  moves_regs r : r <> g_value -> r <> g_rise_intr_pending -> r <> g_fall_intr_pending ->
    gpio_regs (get_gpio s') r = gpio_regs (get_gpio s) r
}.

(** The value register shows the pins that are inputs (and do not drive a one). *)
Definition pins_agree (g : GPIO) : Prop := forall i, (i < 32)%nat ->
  Z.testbit (gpio_regs g g_input_en) (Z.of_nat i) = true ->
  Z.testbit (gpio_regs g g_port .& gpio_regs g g_output_en) (Z.of_nat i) = false ->
  Z.testbit (gpio_regs g g_value) (Z.of_nat i) = Z.testbit (server_state g) (Z.of_nat i).

Definition pin_diff (g : GPIO) : Z := uint32 ((server_state g .^ gpio_regs g g_value) .& gpio_regs g g_input_en).

(** The edges of the pins at the start of a run. *)
Definition first_edges (g : GPIO) : list edge := edges (server_state g) (pin_diff g) 0 32.

Lemma first_edges_eq g : first_edges g = edges (server_state g) (pin_diff g) 0 32.
Proof using Type. reflexivity. Qed.

Lemma diff_zero_agree g : pin_diff g = 0 -> pins_agree g.
Proof using Type.
  intros H0 i Hi Hen _. apply (f_equal (fun z => Z.testbit z (Z.of_nat i))) in H0. cbv beta in H0.
  unfold pin_diff, uint32 in H0. rewrite uint_testbit_low in H0 by lia.
  rewrite Z.land_spec, Z.lxor_spec, Hen, Z.testbit_0_l in H0.
  rewrite andb_true_r in H0. by destruct (Z.testbit _ _), (Z.testbit _ _).
Qed.

Lemma moves_trans s1 s2 s3 f1 f2 : gpio_moves s1 s2 f1 -> gpio_moves s2 s3 f2 -> gpio_moves s1 s3 (f1 ++ f2).
Proof.
  intros R1 R2.
  assert (Harm2 : Forall (fun e => (snd e < 32)%nat /\ edge_armed (get_gpio s1) e = true /\ e ∉ f1) f2).
  { eapply Forall_impl; [apply (moves_armed _ _ _ R2) |]. intros e [He Ha]. unfold edge_armed in Ha.
    apply andb_true_iff in Ha as [Hen Hidle]. rewrite (moves_idle _ _ _ R1) in Hidle by done.
    apply andb_true_iff in Hidle as [Hid Hnin]. apply negb_true_iff, bool_decide_eq_false in Hnin.
    split; [done |]. split; [| done]. unfold edge_armed. rewrite Hid, andb_true_r. rewrite <- Hen.
    symmetry. f_equal. apply (moves_regs _ _ _ R1); by destruct e as [[] i]. }
  constructor.
  - rewrite (moves_log _ _ _ R2), (moves_log _ _ _ R1), <- app_assoc. unfold irqs. by rewrite map_app.
  - apply NoDup_app. split; [apply R1 |]. split; [| apply R2]. intros e H1 H2.
    rewrite Forall_forall in Harm2. by destruct (Harm2 e H2) as (_ & _ & ?).
  - apply Forall_app. split; [apply R1 |]. eapply Forall_impl; [exact Harm2 |]. by intros e (? & ? & _).
  - intros e He. rewrite (moves_idle _ _ _ R2), (moves_idle _ _ _ R1), <- andb_assoc by done. f_equal.
    rewrite <- negb_orb. f_equal. apply eq_true_iff_eq. by rewrite orb_true_iff, !bool_decide_eq_true, elem_of_app.
  - intros r ? ? ?. by rewrite (moves_regs _ _ _ R2), (moves_regs _ _ _ R1).
Qed.

Lemma sync_unfold fuel s : let g := get_gpio s in synchronousChange fuel s =
  if pin_diff g =? 0 then (Ret tt, s)
  else
    (gpio_pins (server_state g) (pin_diff g) 0 32 ;;
     input_en ← gpio_of g_input_en; port ← gpio_of g_port; output_en ← gpio_of g_output_en;
     update_gpio (set_gpio_reg g_value (uint32 ((server_state g .& input_en) .| (port .& output_en)))) ;;
     gpio_others ;;
     g' ← gets get_gpio;
     if server_state g =? server_state g' then skip
     else match fuel with O => fatal Blocked | Datatypes.S fuel => synchronousChange fuel end) s.
Proof using Type.
  intros g. destruct fuel; cbn [synchronousChange]; unfold mbind at 1, M_bind at 1, gets at 1; cbv beta iota zeta;
    fold g; change (uint32 ((server_state g .^ gpio_regs g g_value) .& gpio_regs g g_input_en)) with (pin_diff g);
    by destruct (pin_diff g =? 0).
Qed.

(** One pass: the edges, then the value, then the server's thread. *)
Lemma pass_ok s g fired : g = get_gpio s -> fired = List.filter (edge_armed g) (first_edges g) -> pin_diff g <> 0 ->
  exists s', (forall fuel, synchronousChange fuel s =
      (if server_state g =? server_state (get_gpio s') then skip
       else match fuel with O => fatal Blocked | Datatypes.S fuel => synchronousChange fuel end) s') /\
    (gpio_left s' <= gpio_left s)%nat /\
    (server_state (get_gpio s') <> server_state g -> (gpio_left s' < gpio_left s)%nat) /\
    gpio_moves s s' fired /\ (server_state (get_gpio s') = server_state g -> pins_agree (get_gpio s')).
Proof.
  intros Hg Hfired Hd. destruct (pins_eq (server_state g) (pin_diff g) 32 0 s (le_n 32)) as (s1 & Hs1 & Hf1 & Hg1 & Hl1).
  rewrite <- Hg in Hg1, Hl1. rewrite <- first_edges_eq in Hg1, Hl1. rewrite <- Hfired in Hg1, Hl1.
  set (v := uint32 ((server_state g .& gpio_regs (get_gpio s1) g_input_en) .|
    (gpio_regs (get_gpio s1) g_port .& gpio_regs (get_gpio s1) g_output_en))).
  set (g2 := set_gpio_reg g_value v (get_gpio s1)). destruct (set_gpio_ok g2 s1) as (Hg2 & Hl2 & Hf2).
  destruct (gpio_others_ok (set_gpio g2 s1)) as (s3 & Hs3 & Hr3 & Hl3 & Hle3 & Hlt3).
  rewrite Hg2 in Hr3, Hlt3.
  assert (Hst : server_state g2 = server_state g) by (unfold g2; cbn [server_state set_gpio_reg]; by rewrite Hg1, takes_state).
  rewrite Hst in Hlt3.
  assert (Hpins : Forall (fun e => (snd e < 32)%nat) fired).
  { apply Forall_forall. intros e He%list_elem_of_In. rewrite Hfired in He. apply filter_In in He as [He _].
    apply edges_pins in He. lia. }
  assert (Hregs : forall r, r <> g_value -> r <> g_rise_intr_pending -> r <> g_fall_intr_pending ->
    gpio_regs (get_gpio s3) r = gpio_regs g r).
  { intros r H1 H2 H3. rewrite Hr3. unfold g2. cbn [gpio_regs set_gpio_reg]. rewrite decide_False by done.
    by rewrite Hg1, takes_regs. }
  exists s3. split.
  { assert (Hdb : (pin_diff g =? 0) = false) by (by apply Z.eqb_neq).
    intros fuel. rewrite sync_unfold, <- Hg, Hdb. unfold mbind at 1, M_bind at 1. rewrite Hs1. unfold gpio_of.
    do 3 (unfold mbind at 1, M_bind at 1; unfold gets at 1; cbv beta iota). unfold update_gpio, modify.
    unfold mbind at 1, M_bind at 1. fold v. fold g2. unfold mbind at 1, M_bind at 1. rewrite Hs3. reflexivity. }
  split; [lia |]. split; [intros Hne; specialize (Hlt3 Hne); lia |]. split.
  - constructor.
    + by rewrite Hl3, Hl2, Hl1.
    + rewrite Hfired. apply NoDup_ListNoDup, List.NoDup_filter, NoDup_ListNoDup, edges_nodup.
    + apply Forall_forall. intros e He. split; [by rewrite Forall_forall in Hpins; apply Hpins |].
      rewrite <- Hg. rewrite Hfired in He. apply list_elem_of_In in He. by apply filter_In in He as [_ He].
    + intros e He. rewrite <- Hg, <- takes_idle by done. unfold edge_idle. rewrite Hr3. unfold g2.
      cbn [gpio_regs set_gpio_reg]. rewrite decide_False by (by destruct e as [[] i]). by rewrite Hg1.
    + rewrite <- Hg. apply Hregs.
  - intros Hsame i Hi Hen Hout. rewrite Hsame. rewrite !Hregs in Hout by done. rewrite Hregs in Hen by done.
    rewrite Hr3. unfold g2. cbn [gpio_regs set_gpio_reg]. rewrite decide_True by done. unfold v, uint32.
    rewrite uint_testbit_low by lia. rewrite Hg1, !takes_regs by done.
    rewrite Z.lor_spec, (Z.land_spec _ (gpio_regs g g_input_en)), Hen, Hout. by rewrite andb_true_r, orb_false_r.
Qed.

Lemma runs_ok fuel : forall s, (gpio_left s <= fuel)%nat ->
  exists s' fired, synchronousChange fuel s = (Ret tt, s') /\ gpio_moves s s' fired /\ pins_agree (get_gpio s') /\
    (pin_diff (get_gpio s) = 0 -> s' = s) /\
    (forall e, In e (first_edges (get_gpio s)) -> edge_armed (get_gpio s) e = true -> e ∈ fired) /\
    (gpio_left s = 0%nat -> fired = List.filter (edge_armed (get_gpio s)) (first_edges (get_gpio s))).
Proof.
  induction fuel as [|fuel IH]; intros s Hfuel; (destruct (decide (pin_diff (get_gpio s) = 0)) as [H0 | Hd];
    [exists s, [] | destruct (pass_ok s _ _ eq_refl eq_refl Hd) as (s1 & Hs1 & Hle & Hlt & Hm & Hag);
       assert (Hfirst : forall e, In e (first_edges (get_gpio s)) -> edge_armed (get_gpio s) e = true ->
         e ∈ List.filter (edge_armed (get_gpio s)) (first_edges (get_gpio s)))
         by (intros e He Ha; apply list_elem_of_In, filter_In; done)]).
  1, 3: split; [by rewrite sync_unfold, H0 |]; split; [constructor; [by rewrite app_nil_r | apply NoDup_nil_2 | done
        | intros e _; rewrite bool_decide_false by (by intros ?%not_elem_of_nil); by rewrite andb_true_r | done] |];
      split; [by apply diff_zero_agree |]; split; [done |]; rewrite first_edges_eq, H0; split;
      [by intros e He%edges_zero | intros _; destruct (edges _ 0 0 32) as [|e es] eqn:He; [done |];
       exfalso; eapply edges_zero; rewrite He; by left].
  all: rewrite Hs1; destruct (Z.eqb_spec (server_state (get_gpio s)) (server_state (get_gpio s1))) as [Heq | Hne];
    [exists s1, (List.filter (edge_armed (get_gpio s)) (first_edges (get_gpio s))); split; [done |]; split; [done |];
     split; [by apply Hag |]; split; [done |]; split; [exact Hfirst | done] |].
  - specialize (Hlt ltac:(congruence)). lia.
  - specialize (Hlt ltac:(congruence)). destruct (IH s1 ltac:(lia)) as (s2 & f2 & Hs2 & Hm2 & Hag2 & _ & _).
    eexists s2, _. split; [exact Hs2 |]. split; [by eapply moves_trans |]. split; [done |]. split; [done |].
    split; [| lia]. intros e He Ha. apply elem_of_app. left. by apply Hfirst.
Qed.

(** C40: the interrupts of the pins.  The process of the device ends however the
    server's thread changes the pins meanwhile.  The interrupts it raises are
    those of edges whose interrupt is enabled and not pending; every edge is taken
    once and is pending from then on, and no other register but the value
    changes.  At the end the value register shows the inputs.  Every edge between
    the value register and the pins at the start is among them, and if the pins
    do not change meanwhile these are all, in the order of the pins. *)
Theorem gpio_edges (s : S) :
  exists s' fired, synchronousChange (gpio_left s) s = (Ret tt, s') /\
    gpio_moves s s' fired /\ pins_agree (get_gpio s') /\
    (forall e, In e (first_edges (get_gpio s)) -> edge_armed (get_gpio s) e = true -> e ∈ fired) /\
    (gpio_left s = 0%nat -> fired = List.filter (edge_armed (get_gpio s)) (first_edges (get_gpio s))).
Proof.
  destruct (runs_ok (gpio_left s) s ltac:(lia)) as (s' & fired & ? & ? & ? & _ & ? & ?). by exists s', fired.
Qed.

(** ** Clients and programs *)

(** A client's request changes its pin. *)
Lemma gpio_set_bit pos (b : bool) s : 0 <= pos < 64 -> is_uint 64 (server_state (get_gpio s)) ->
  Z.testbit (server_state (get_gpio s)) pos <> b ->
  asyncOnchange pos (Z.b2z b) s
  = gpio_async_notify (set_gpio (set_server_state (if b then server_state (get_gpio s) .| uint64 (1 .<< pos)
      else server_state (get_gpio s) .& uint64 (Z.lnot (uint64 (1 .<< pos)))) (get_gpio s)) s).
Proof using Type.
  intros Hp Hst Hb. unfold asyncOnchange, gets. unfold mbind at 1, M_bind at 1.
  assert (Hmask : uint64 (1 .<< pos) = 2 ^ pos).
  { rewrite Z.shiftl_1_l. apply uint_id. unfold is_uint. pose proof (Z.pow_lt_mono_r 2 pos 64). pose proof (Z.pow_nonneg 2 pos). lia. }
  assert (Hbit : (server_state (get_gpio s) .& uint64 (1 .<< pos)) .>> pos = Z.b2z (Z.testbit (server_state (get_gpio s)) pos)).
  { rewrite Hmask. apply Z.bits_inj'. intros k Hk. rewrite Z.shiftr_spec, Z.land_spec, Z.pow2_bits_eqb by lia.
    destruct (Z.eqb_spec pos (k + pos)) as [Heq |].
    - assert (k = 0) as -> by lia. rewrite Z.add_0_l, andb_true_r. by rewrite Z.b2z_bit0.
    - rewrite andb_false_r. symmetry. destruct (Z.testbit _ pos); cbn [Z.b2z]; [| apply Z.testbit_0_l].
      rewrite Z.testbit_odd, Z.shiftr_div_pow2 by done. rewrite Z.div_small; [done |].
      split; [done |]. apply Z.pow_gt_1; lia. }
  rewrite Hbit. destruct (Z.testbit (server_state (get_gpio s)) pos), b; try done; reflexivity.
Qed.

End gpio.

(** ** A bench

    The server's thread has a list of values that the pins take one after the
    other, at most one while the process works. *)
Record gpio_bench : Type := mkGpioBench { gb_gpio : GPIO; gb_log : list Z; gb_next : list Z }.

#[export] Instance gpio_bench_interface : gpio_interface gpio_bench unit := {
  get_gpio := gb_gpio;
  set_gpio g s := mkGpioBench g (gb_log s) (gb_next s);
  int_gpio_base := 8;
  gpio_gateway n := modify (fun s => mkGpioBench (gb_gpio s) (gb_log s ++ [n]) (gb_next s));
  gpio_async_notify := skip;
  gpio_others := modify (fun s =>
    match gb_next s with
    | [] => s
    | st :: next => mkGpioBench (set_server_state st (gb_gpio s)) (gb_log s) next
    end);
  gpio_answer _ := skip
}.

#[export] Instance gpio_bench_system : gpio_system gpio_bench unit.
Proof.
  refine {| gpio_log := gb_log; gpio_left s := length (gb_next s) |}; intros; [done | by eexists |].
  eexists. split; [reflexivity |]. destruct (gb_next s) as [|st next] eqn:Hn; cbn; rewrite ?Hn; cbn; split_and!; (done || lia).
Defined.

(** Pins 0 to 3 are inputs; 0 and 2 have interrupts for rising, 3 for falling edges. *)
Definition gpio_bench_start (pins : Z) (next : list Z) : gpio_bench :=
  mkGpioBench (set_server_state pins (set_gpio_reg g_input_en 15 (set_gpio_reg g_rise_intr_en 5
    (set_gpio_reg g_fall_intr_en 8 (set_gpio_reg g_value 10 GPIO_new))))) [] next.

(** Three pins change. *)
Lemma gpio_edges_witness :
  exists s', synchronousChange 0 (gpio_bench_start 7 []) = (Ret tt, s') /\ gpio_log s' = [8; 10; 11] /\
    pins_agree (get_gpio s').
Proof.
  destruct (gpio_edges (E := unit) (gpio_bench_start 7 [])) as (s' & fired & Hs & Hm & Hp & _ & Hf).
  exists s'. split; [exact Hs |]. split; [| exact Hp].
  rewrite (moves_log _ _ _ Hm), (Hf eq_refl). by vm_compute.
Defined.

(** Two pins change, and one of them back while the process works. *)
Example gpio_two_runs :
  gpio_log (snd (synchronousChange (E := unit) 1 (gpio_bench_start 15 [11]))) = [8; 10].
Proof. by vm_compute. Qed.
