(* ===== verification/Spi.v ===== *)
(** * The SPI controller

    Models platform/hifive/spi.h: the registers, the queue of received bytes and
    the devices at the chip selects.  class SpiInterface, what a device behind the
    controller provides, is the class [SpiInterface]; the theorems are proved
    against its laws [SpiTarget], and the CAN controller of Can.v is an instance. *)

From S2P Require Import Prelude Memory MemoryMap TlmMap Can.

(** ** State *)

Inductive spi_reg : Type :=
  | sckdiv | sckmode | csid | csdef | csmode | delay0 | delay1 | fmt | txdata | rxdata
  | txmark | rxmark | fctrl | ffmt | ie | ip.

#[export] Instance spi_reg_eq_dec : EqDecision spi_reg.
Proof. solve_decision. Defined.

(** A device is a value of the type [T]; [targets] maps the chip selects to them. *)
Record SPI (T : Type) : Type := mkSPI {
  spi_regs : spi_reg -> Z;
  rxqueue : list Z;
  targets : gmap Z T
}.
Arguments mkSPI {T}.
Arguments spi_regs {T}.
Arguments rxqueue {T}.
Arguments targets {T}.

Definition queue_size : nat := 16.

Definition SPI_new {T} : SPI T :=
  mkSPI (fun r => match r with csdef | fctrl => 1 | _ => 0 end) [] ∅.

Definition set_spi_reg {T} (r : spi_reg) (v : Z) (d : SPI T) : SPI T :=
  mkSPI (fun r' => if decide (r' = r) then v else spi_regs d r') (rxqueue d) (targets d).
Definition set_rxqueue {T} (q : list Z) (d : SPI T) : SPI T := mkSPI (spi_regs d) q (targets d).

(** Pin is a 32-bit integer; an earlier device at a chip select stays. *)
Definition connect {T} (cs : Z) (interface : T) (d : SPI T) : SPI T :=
  if (cs =? 1) || (3 <? cs) then d
  else match targets d !! cs with
       | Some _ => d
       | None => mkSPI (spi_regs d) (rxqueue d) (<[cs := interface]> (targets d))
       end.

Class SpiInterface (S E T : Type) : Type := { spi_target_write : T -> Z -> M S E Z }.

Class spi_interface (S T : Type) : Type := {
  get_spi : S -> SPI T;
  set_spi : SPI T -> S -> S
}.

Definition SPI_IP_TXWM : Z := 0x1.

Definition spi_bank : list (reg_mapping_t spi_reg) :=
  [register 0x00 sckdiv; register 0x04 sckmode; register 0x10 csid; register 0x14 csdef; register 0x18 csmode;
   register 0x28 delay0; register 0x2C delay1; register 0x40 fmt; register 0x48 txdata; register 0x4C rxdata;
   register 0x50 txmark; register 0x54 rxmark; register 0x60 fctrl; register 0x64 ffmt; register 0x70 ie;
   register 0x74 ip].

Section SPI.
Context {S E T : Type} `{spi_interface S T} `{SpiInterface S E T}.

Abbreviation R := (M S E).

Definition spi : R (SPI T) := gets get_spi.
Definition update_spi (f : SPI T -> SPI T) : R unit := modify (fun s => set_spi (f (get_spi s)) s).

#[export] Instance spi_registers : register_file S spi_reg := {
  load_reg r s := spi_regs (get_spi s) r;
  store_reg r v s := set_spi (set_spi_reg r v (get_spi s)) s
}.

(** Before a read of rxdata. *)
Definition spi_receive : R unit :=
  d ← spi;
  match targets d !! spi_regs d csid with
  | None => skip
  | Some _ =>
      match rxqueue d with
      | [] => update_spi (set_spi_reg rxdata (uint32 (1 .<< 31)))
      | b :: q => update_spi (set_spi_reg rxdata b) ;; update_spi (set_rxqueue q)
      end
  end.

(** After a write of txdata. *)
Definition spi_transmit : R unit :=
  d ← spi;
  match targets d !! spi_regs d csid with
  | None => skip
  | Some target =>
      r ← spi_target_write target (uint8 (spi_regs d txdata));
      update_spi (fun d => set_rxqueue (rxqueue d ++ [r]) d) ;;
      d ← spi;
      when (queue_size <? length (rxqueue d))%nat (update_spi (set_rxqueue (tail (rxqueue d)))) ;;
      d ← spi;
      when ((0 <? spi_regs d txmark) && nonzero (spi_regs d ie .& SPI_IP_TXWM))
        (update_spi (fun d => set_spi_reg ip (spi_regs d ip .| SPI_IP_TXWM) d))
  end ;;
  update_spi (set_spi_reg txdata 0).

Definition spi_register_access : handler_t S spi_reg E := fun r =>
  when (access_read r && bool_decide (access_vptr r = rxdata)) spi_receive ;;
  data ← access_fn r;
  when (access_write r && bool_decide (access_vptr r = txdata)) spi_transmit ;;
  mret data.

Definition spi_router : list (AbstractMapping S spi_reg E) := [RegisterMapping spi_bank (Some spi_register_access)].

Definition spi_transport : transport_fn S E := router_transport spi_router.

(** ** A program that exchanges bytes *)

(** A store of a word to a register and a load from it. *)
Definition spi_store (addr v : Z) : R unit :=
  spi_transport (mkPayload TLM_WRITE_COMMAND addr (to_bytes uint32_t v) TLM_INCOMPLETE_RESPONSE) 0 ;; mret tt.
Definition spi_load (addr : Z) : R Z :=
  r ← spi_transport (mkPayload TLM_READ_COMMAND addr (replicate 4 0) TLM_INCOMPLETE_RESPONSE) 0;
  mret (from_bytes uint32_t (payload_data (fst r))).

Fixpoint spi_store_all (bs : list Z) : R unit :=
  match bs with [] => skip | b :: bs => spi_store 0x48 b ;; spi_store_all bs end.
Fixpoint spi_load_all (n : nat) : R (list Z) :=
  match n with O => mret [] | Datatypes.S n => b ← spi_load 0x4C; bs ← spi_load_all n; mret (b :: bs) end.

(** The same bytes given to the device directly. *)
Fixpoint target_writes (t : T) (bs : list Z) : R (list Z) :=
  match bs with
  | [] => mret []
  | b :: bs => r ← spi_target_write t b; rs ← target_writes t bs; mret (r :: rs)
  end.

End SPI.

(** ** The theorem *)

(** What the controller relies on from a device: its state and the controller's
    are apart. *)
Class SpiTarget (S E T : Type) `{spi_interface S T} `{SpiInterface S E T} : Prop := {
  get_set_spi d s : get_spi (set_spi d s) = d;
  set_set_spi d d' s : set_spi d (set_spi d' s) = set_spi d s;
  target_frame t b d s : spi_target_write (E := E) t b (set_spi d s)
    = (fst (spi_target_write t b s), set_spi d (snd (spi_target_write t b s)))
}.

(** The last [queue_size] bytes of a queue. *)
Definition newest (q : list Z) : list Z := drop (length q - queue_size) q.

Lemma newest_push q r : (length q <= queue_size)%nat ->
  newest (q ++ [r]) = if (queue_size <? length (q ++ [r]))%nat then tail (q ++ [r]) else q ++ [r].
Proof.
  intros Hq. unfold newest. rewrite length_app. cbn [length]. destruct (Nat.ltb_spec queue_size (length q + 1)).
  - assert (length q = queue_size) as -> by lia. change (queue_size + 1 - queue_size)%nat with 1%nat.
    by destruct (q ++ [r]).
  - replace (length q + 1 - queue_size)%nat with 0%nat by lia. done.
Qed.

Lemma newest_length q : (length (newest q) <= queue_size)%nat.
Proof. unfold newest. rewrite length_drop. lia. Qed.

Lemma newest_app q l : newest (newest q ++ l) = newest (q ++ l).
Proof.
  unfold newest. rewrite !length_app, length_drop. destruct (decide (length q <= queue_size)%nat).
  - replace (length q - queue_size)%nat with 0%nat by lia. rewrite drop_0. f_equal. lia.
  - set (k := (length q - queue_size)%nat). assert (Hq : q ++ l = take k q ++ drop k q ++ l)
      by (by rewrite app_assoc, take_drop).
    rewrite Hq, (drop_app_ge (take k q)); rewrite length_take; [| unfold k; lia]. f_equal. unfold k. lia.
Qed.

(** The controller after it has sent [b] and received [r]. *)
Definition exchanged {T} (d : SPI T) (br : Z * Z) : SPI T :=
  let d2 := set_rxqueue (newest (rxqueue d ++ [snd br])) (set_spi_reg txdata (fst br) d) in
  set_spi_reg txdata 0
    (if (0 <? spi_regs d txmark) && nonzero (spi_regs d ie .& SPI_IP_TXWM)
     then set_spi_reg ip (spi_regs d ip .| SPI_IP_TXWM) d2 else d2).

Definition exchanged_all {T} (d : SPI T) (brs : list (Z * Z)) : SPI T := fold_left exchanged brs d.

Lemma exchanged_regs {T} (d : SPI T) br r : r <> txdata -> r <> ip -> spi_regs (exchanged d br) r = spi_regs d r.
Proof.
  intros H1 H2. unfold exchanged. destruct (_ && _); cbn [set_spi_reg set_rxqueue spi_regs]; by repeat case_decide.
Qed.

Lemma exchanged_queue {T} (d : SPI T) br : rxqueue (exchanged d br) = newest (rxqueue d ++ [snd br]).
Proof. unfold exchanged. by destruct (_ && _). Qed.

Lemma exchanged_targets {T} (d : SPI T) br : targets (exchanged d br) = targets d.
Proof. unfold exchanged. by destruct (_ && _). Qed.

Lemma exchanged_all_spec {T} (brs : list (Z * Z)) : forall d : SPI T, (length (rxqueue d) <= queue_size)%nat ->
  rxqueue (exchanged_all d brs) = newest (rxqueue d ++ map snd brs) /\
  targets (exchanged_all d brs) = targets d /\
  forall r, r <> txdata -> r <> ip -> spi_regs (exchanged_all d brs) r = spi_regs d r.
Proof.
  induction brs as [| br brs IH]; intros d Hd; cbn [exchanged_all fold_left map].
  - rewrite app_nil_r. unfold newest. by replace (length (rxqueue d) - queue_size)%nat with 0%nat by lia.
  - destruct (IH (exchanged d br)) as (Hq & Ht & Hr).
    + rewrite exchanged_queue. apply newest_length.
    + unfold exchanged_all in *. rewrite Hq, Ht, exchanged_queue, exchanged_targets, newest_app, <- app_assoc.
      split; [done | split; [done |]]. intros r H1 H2. by rewrite Hr, exchanged_regs.
Qed.

Section exchange.
Context {S E T : Type} `{HT : SpiTarget S E T}.
#[local] Set Default Proof Using "Type HT".

Lemma spi_at (d : SPI T) (s : S) : spi (E := E) (set_spi d s) = (Ret d, set_spi d s).
Proof. unfold spi, gets. by rewrite get_set_spi. Qed.

Lemma update_spi_at f (d : SPI T) (s : S) : update_spi (E := E) f (set_spi d s) = (Ret tt, set_spi (f d) s).
Proof. unfold update_spi, modify. by rewrite get_set_spi, set_set_spi. Qed.

#[local] Ltac bind tac := unfold mbind at 1, M_bind at 1; tac; cbv beta iota;
  cbn [set_rxqueue set_spi_reg rxqueue spi_regs targets].

Lemma spi_transmit_spec t b r (d : SPI T) (s s' : S) :
  targets d !! spi_regs d csid = Some t -> is_uint 8 b -> (length (rxqueue d) <= queue_size)%nat ->
  spi_target_write (E := E) t b s = (Ret r, s') ->
  spi_transmit (set_spi (set_spi_reg txdata b d) s) = (Ret tt, set_spi (exchanged d (b, r)) s').
Proof.
  intros Ht Hb Hq Hw. assert (Hu : uint8 b = b) by (by apply uint_id). unfold spi_transmit.
  bind idtac. bind ltac:(rewrite spi_at). rewrite decide_False, decide_True, Ht, Hu by done.
  bind ltac:(rewrite target_frame, Hw; cbn [fst snd]). bind ltac:(rewrite update_spi_at). bind ltac:(rewrite spi_at).
  assert (Hn : when (queue_size <? length (rxqueue d ++ [r]))%nat
      (update_spi (E := E) (set_rxqueue (tail (rxqueue d ++ [r]))))
      (set_spi (set_rxqueue (rxqueue d ++ [r]) (set_spi_reg txdata b d)) s')
    = (Ret tt, set_spi (set_rxqueue (newest (rxqueue d ++ [r])) (set_spi_reg txdata b d)) s')).
  { rewrite newest_push by done. destruct (_ <? _)%nat; [cbn [when]; by rewrite update_spi_at | done]. }
  bind ltac:(rewrite Hn). bind ltac:(rewrite spi_at). rewrite !decide_False by done. unfold exchanged. cbn [fst snd].
  destruct (_ && _); cbn [when]; [rewrite update_spi_at | unfold skip, mret, M_ret]; by rewrite update_spi_at.
Qed.

Lemma word_roundtrip b : is_uint 32 b -> from_bytes uint32_t (to_bytes uint32_t b) = b.
Proof using Type. intros Hb. rewrite from_to_bytes by done. by apply uint_id. Qed.

(** A store to txdata sends the byte. *)
Lemma spi_store_spec t b r (d : SPI T) (s s' : S) :
  targets d !! spi_regs d csid = Some t -> is_uint 8 b -> (length (rxqueue d) <= queue_size)%nat ->
  spi_target_write (E := E) t b s = (Ret r, s') ->
  spi_store 0x48 b (set_spi d s) = (Ret tt, set_spi (exchanged d (b, r)) s').
Proof.
  intros Ht Hb Hq Hw. unfold spi_store, spi_transport, spi_router. unfold mbind at 1, M_bind at 1.
  rewrite (bank_access _ _ _ _ 0x48 txdata) by done. cbn [command is_read is_write payload_data].
  rewrite word_roundtrip by (unfold is_uint in *; lia). unfold mbind at 1, M_bind at 1, spi_register_access.
  cbn [access_write access_read access_vptr access_fn andb]. rewrite bool_decide_true by done. cbn [when].
  unfold mbind at 1, M_bind at 1. cbn [skip mret M_ret]. unfold mbind at 1, M_bind at 1.
  rewrite register_fn_whole by done. cbn [command payload_data store_reg spi_registers].
  rewrite word_roundtrip by (unfold is_uint in *; lia). rewrite get_set_spi, set_set_spi. unfold mbind, M_bind.
  by rewrite (spi_transmit_spec _ _ _ _ _ _ Ht Hb Hq Hw).
Qed.

(** A load of rxdata takes the oldest byte, and bit 31 tells that there is none. *)
Lemma spi_load_spec t (d : SPI T) (s : S) :
  targets d !! spi_regs d csid = Some t -> Forall (is_uint 8) (rxqueue d) ->
  exists d', spi_load (E := E) 0x4C (set_spi d s) = (Ret (hd (2 ^ 31) (rxqueue d)), set_spi d' s) /\
    rxqueue d' = tail (rxqueue d) /\ targets d' = targets d /\ forall r, r <> rxdata -> spi_regs d' r = spi_regs d r.
Proof.
  intros Ht Hq. set (b := hd (2 ^ 31) (rxqueue d)).
  exists (set_rxqueue (tail (rxqueue d)) (set_spi_reg rxdata b d)). split.
  - assert (Hb : is_uint 32 b).
    { subst b. destruct Hq as [| x q Hx _]; cbn [hd]; unfold is_uint in *; lia. }
    assert (Hr : spi_receive (E := E) (set_spi d s)
      = (Ret tt, set_spi (set_rxqueue (tail (rxqueue d)) (set_spi_reg rxdata b d)) s)).
    { unfold spi_receive. unfold mbind at 1, M_bind at 1. rewrite spi_at, Ht. subst b. destruct (rxqueue d) as [| x q] eqn:Hrx.
      - rewrite update_spi_at. cbn [tail hd]. change (uint32 (1 .<< 31)) with (2 ^ 31). do 2 f_equal.
        unfold set_rxqueue, set_spi_reg. by rewrite Hrx.
      - unfold mbind, M_bind. by rewrite !update_spi_at. }
    unfold spi_load, spi_transport, spi_router. unfold mbind at 1, M_bind at 1.
    rewrite (bank_access _ _ _ _ 0x4C rxdata) by done. cbn [command is_read is_write payload_data].
    unfold mbind at 1, M_bind at 1, spi_register_access. cbn [access_write access_read access_vptr access_fn andb].
    rewrite bool_decide_true by done. cbn [when]. unfold mbind at 1, M_bind at 1. rewrite Hr.
    unfold mbind at 1, M_bind at 1. rewrite register_fn_whole by done.
    cbn [command load_reg spi_registers]. rewrite get_set_spi. cbn [set_rxqueue set_spi_reg spi_regs].
    rewrite decide_True by done. unfold mbind, M_bind. cbn [skip mret M_ret fst payload_data set_payload_data].
    by rewrite word_roundtrip.
  - cbn [set_rxqueue set_spi_reg spi_regs rxqueue targets]. split; [done | split; [done |]].
    intros r Hr. by rewrite decide_False.
Qed.

Lemma target_writes_frame t bs : forall (d : SPI T) (s : S), target_writes (E := E) t bs (set_spi d s)
  = (fst (target_writes t bs s), set_spi d (snd (target_writes t bs s))).
Proof.
  induction bs as [| b bs IH]; intros d s; [done |]. cbn [target_writes]. unfold mbind, M_bind. rewrite target_frame.
  destruct (spi_target_write t b s) as [[r|e|f] s1]; cbn [fst snd]; try done. rewrite IH.
  by destruct (target_writes t bs s1) as [[rs|e|f] s2].
Qed.

Lemma spi_store_all_spec t bs : forall (d : SPI T) rs (s s' : S),
  targets d !! spi_regs d csid = Some t -> Forall (is_uint 8) bs -> (length (rxqueue d) <= queue_size)%nat ->
  target_writes (E := E) t bs s = (Ret rs, s') ->
  length rs = length bs /\ spi_store_all bs (set_spi d s) = (Ret tt, set_spi (exchanged_all d (combine bs rs)) s').
Proof.
  induction bs as [| b bs IH]; intros d rs s s' Ht Hbs Hq Hw.
  { injection Hw as <- <-. done. }
  inversion_clear Hbs as [| ? ? Hb Hbs']. revert Hw. cbn [target_writes]. unfold mbind, M_bind.
  destruct (spi_target_write t b s) as [[r|e|f] s1] eqn:H1; try done.
  destruct (target_writes t bs s1) as [[rs'|e|f] s2] eqn:H2; try done. cbn [mret M_ret]. intros [= <- <-].
  destruct (IH (exchanged d (b, r)) rs' s1 s2) as [Hl Hs]; try done.
  - by rewrite exchanged_targets, exchanged_regs.
  - rewrite exchanged_queue. apply newest_length.
  - split; [cbn [length]; by rewrite Hl |]. cbn [spi_store_all combine]. unfold mbind, M_bind.
    rewrite (spi_store_spec t b r d s s1) by done. by rewrite Hs.
Qed.

Lemma spi_load_all_spec t n : forall (d : SPI T) (s : S),
  targets d !! spi_regs d csid = Some t -> Forall (is_uint 8) (rxqueue d) ->
  exists d', spi_load_all (E := E) n (set_spi d s)
    = (Ret (take n (rxqueue d) ++ replicate (n - length (rxqueue d)) (2 ^ 31)), set_spi d' s) /\
    rxqueue d' = drop n (rxqueue d).
Proof.
  induction n as [| n IH]; intros d s Ht Hq; cbn [spi_load_all].
  { exists d. by rewrite drop_0. }
  destruct (spi_load_spec t d s Ht Hq) as (d1 & Hl & Hq1 & Ht1 & Hr1).
  destruct (IH d1 s) as (d2 & Hl2 & Hq2).
  - by rewrite Ht1, Hr1.
  - rewrite Hq1. by destruct Hq.
  - exists d2. unfold mbind, M_bind. rewrite Hl, Hl2, Hq1. cbn [mret M_ret]. rewrite Hq2, Hq1.
    destruct (rxqueue d) as [| x q]; cbn [tail hd length take drop app Nat.sub]; [| done].
    rewrite !firstn_nil, Nat.sub_0_r. split; [done | by rewrite skipn_nil].
Qed.

(** C33: a program that stores bytes to txdata, with a device at the chip select
    that is set, gives the device exactly these bytes in their order and leaves it
    in the state that its own write leaves; the queue then holds the last sixteen of
    the bytes that were there and the device's answers.  Loads of rxdata give that
    queue from its oldest byte on, each once, and the word 2^31 when no byte is left.
    The other registers, txdata and the pending interrupts apart, keep their value. *)
Theorem spi_exchange (d : SPI T) t bs rs (s s' : S) n :
  targets d !! spi_regs d csid = Some t -> Forall (is_uint 8) bs -> (length (rxqueue d) <= queue_size)%nat ->
  target_writes (E := E) t bs s = (Ret rs, s') ->
  exists d', spi_store_all bs (set_spi d s) = (Ret tt, set_spi d' s') /\
    rxqueue d' = newest (rxqueue d ++ rs) /\ targets d' = targets d /\
    (forall r, r <> txdata -> r <> ip -> spi_regs d' r = spi_regs d r) /\
    (Forall (is_uint 8) (rxqueue d ++ rs) -> exists d'',
       spi_load_all (E := E) n (set_spi d' s')
       = (Ret (take n (rxqueue d') ++ replicate (n - length (rxqueue d')) (2 ^ 31)), set_spi d'' s') /\
       rxqueue d'' = drop n (rxqueue d')).
Proof.
  intros Ht Hbs Hq Hw. destruct (spi_store_all_spec t bs d rs s s' Ht Hbs Hq Hw) as [Hl Hs].
  destruct (exchanged_all_spec (combine bs rs) d Hq) as (Hq' & Ht' & Hr').
  assert (Hm : map snd (combine bs rs) = rs).
  { clear -Hl. revert rs Hl. induction bs as [| b bs IH]; intros [| r rs] Hl; try done. cbn. f_equal. apply IH. by injection Hl. }
  rewrite Hm in Hq'. exists (exchanged_all d (combine bs rs)).
  split; [exact Hs | split; [exact Hq' | split; [exact Ht' | split; [exact Hr' |]]]].
  intros Hall. apply (spi_load_all_spec t).
  - by rewrite Ht', Hr'.
  - rewrite Hq'. by apply Forall_drop.
Qed.

End exchange.

(** ** The CAN controller behind the SPI controller *)

Record spi_bench : Type := mkSpiBench { sb_spi : SPI unit; sb_can : can_bench }.

#[export] Instance spi_bench_interface : spi_interface spi_bench unit := {
  get_spi := sb_spi;
  set_spi d s := mkSpiBench d (sb_can s)
}.

#[export] Instance can_target : SpiInterface spi_bench unit unit := {
  spi_target_write _ b s := let '(r, c) := can_write b (sb_can s) in (r, mkSpiBench (sb_spi s) c)
}.

#[export] Instance can_spi_target : SpiTarget spi_bench unit unit.
Proof. constructor; [done | done |]. intros t b d s. cbn. by destruct (can_write b (sb_can s)). Defined.

(** A frame of two bytes goes to buffer 1 of the CAN controller at chip select 2,
    and is sent: the answers are zeros, and two loads more than the queue holds give
    the mark. *)
Definition frame_bytes : list Z := MCP_LOAD_TX1 :: mcp2515_id_to_buf 0x1234567 true ++ [2; 10; 11; MCP_RTS_TX1; MCP_READ].
Definition spi_bench_start : spi_bench :=
  mkSpiBench (connect 2 tt (set_spi_reg csid 2 SPI_new)) (mkCanBench CAN_new []).

Lemma spi_exchange_witness : exists s1 s2, spi_store_all (E := unit) frame_bytes spi_bench_start = (Ret tt, s1) /\
  can_sent (sb_can s1) = [mkFrame 0x1234567 2 [10; 11; 0; 0; 0; 0; 0; 0]] /\
  spi_load_all (E := unit) 12 s1 = (Ret (replicate 10 0 ++ [2 ^ 31; 2 ^ 31]), s2).
Proof.
  set (d := connect 2 tt (set_spi_reg csid 2 SPI_new)).
  set (w := target_writes (E := unit) tt frame_bytes spi_bench_start).
  assert (Hw : fst w = Ret (replicate 10 0)) by (vm_compute; reflexivity).
  assert (Hf : can_sent (sb_can (snd w)) = [mkFrame 0x1234567 2 [10; 11; 0; 0; 0; 0; 0; 0]]) by (vm_compute; reflexivity).
  assert (Hp : target_writes tt frame_bytes spi_bench_start = (Ret (replicate 10 0), snd w))
    by (rewrite <- Hw; apply surjective_pairing).
  clearbody w. destruct w as [o s']. cbn [snd] in *. clear Hw o.
  destruct (spi_exchange d tt frame_bytes (replicate 10 0) spi_bench_start s' 12) as (d' & Hs & Hq & _ & _ & Hl).
  - vm_compute; reflexivity.
  - repeat constructor; vm_compute; done.
  - apply Nat.leb_le. vm_compute. reflexivity.
  - exact Hp.
  - change (set_spi d spi_bench_start) with spi_bench_start in Hs.
    assert (Hq' : rxqueue d' = replicate 10 0) by (rewrite Hq; vm_compute; reflexivity).
    destruct Hl as (d2 & Hl & _); [repeat constructor; vm_compute; done |].
    rewrite Hq' in Hl. exists (set_spi d' s'), (set_spi d2 s'). split; [exact Hs | split; [exact Hf | exact Hl]].
Defined.
