(* ===== verification/Oled.v ===== *)
(** * The OLED display

    Models class SS1106 (platform/hifive/oled.cpp, oled.hpp, oled/common.hpp), a
    display behind the SPI controller.  The state it shares with the program that
    shows the picture is the record [SS1106]; the pin that tells data from commands is
    the function [getDCPin] of the class [oled_interface]. *)

From S2P Require Import Prelude.

Definition width : Z := 132.
Definition height : Z := 64.

Inductive Operator : Type :=
  | COL_LOW | COL_HIGH | PUMP_VOLTAGE | DISPLAY_START_LINE | CONTRAST_MODE_SET | SEGMENT_REMAP | ENTIRE_DISPLAY
  | NORMAL_INVERSE | MULTIPLEX_RATIO | DC_DC_VOLTAGE | DISPLAY_ON | PAGE_ADDR | COMMON_OUTPUT_DIR | DISPLAY_OFFSET
  | DISPLAY_DIVIDE_RATIO | DIS_PRE_CHARGE_PERIOD | COMMON_PADS_STUFF | VCOM_DESELECT | RMW | RMW_END | NOP.

#[export] Instance Operator_eq_dec : EqDecision Operator.
Proof. solve_decision. Defined.

(** The operators in the order of their numbers. *)
Definition operators : list Operator :=
  [COL_LOW; COL_HIGH; PUMP_VOLTAGE; DISPLAY_START_LINE; CONTRAST_MODE_SET; SEGMENT_REMAP; ENTIRE_DISPLAY;
   NORMAL_INVERSE; MULTIPLEX_RATIO; DC_DC_VOLTAGE; DISPLAY_ON; PAGE_ADDR; COMMON_OUTPUT_DIR; DISPLAY_OFFSET;
   DISPLAY_DIVIDE_RATIO; DIS_PRE_CHARGE_PERIOD; COMMON_PADS_STUFF; VCOM_DESELECT; RMW; RMW_END; NOP].

Definition opcode (op : Operator) : Z :=
  match op with
  | COL_LOW => 0x00 | COL_HIGH => 0x10 | PUMP_VOLTAGE => 0x30 | DISPLAY_START_LINE => 0x40 | CONTRAST_MODE_SET => 0x81
  | SEGMENT_REMAP => 0xA0 | ENTIRE_DISPLAY => 0xA4 | NORMAL_INVERSE => 0xA6 | MULTIPLEX_RATIO => 0xA8
  | DC_DC_VOLTAGE => 0x8B | DISPLAY_ON => 0xAE | PAGE_ADDR => 0xB0 | COMMON_OUTPUT_DIR => 0xC0 | DISPLAY_OFFSET => 0xD3
  | DISPLAY_DIVIDE_RATIO => 0xD5 | DIS_PRE_CHARGE_PERIOD => 0xD9 | COMMON_PADS_STUFF => 0xDA | VCOM_DESELECT => 0xDB
  | RMW => 0xE0 | RMW_END => 0xEE | NOP => 0xE3
  end.

Definition mask (op : Operator) : Z :=
  match op with
  | DISPLAY_START_LINE => 0xC0
  | COL_LOW | COL_HIGH | PAGE_ADDR | COMMON_OUTPUT_DIR => 0xF0
  | PUMP_VOLTAGE => 0xFC
  | SEGMENT_REMAP | ENTIRE_DISPLAY | NORMAL_INVERSE | DISPLAY_ON => 0xFE
  | _ => 0xFF
  end.

Record Command : Type := mkCommand { cmd_op : Operator; payload : Z }.

#[export] Instance Command_eq_dec : EqDecision Command.
Proof. solve_decision. Defined.

Definition op_matches (cmd : Z) (op : Operator) : bool := Z.lxor cmd (opcode op) .& mask op =? 0.

Fixpoint match_from (ops : list Operator) (cmd : Z) : Command :=
  match ops with
  | [] => mkCommand NOP 0
  | op :: ops => if op_matches cmd op then mkCommand op (uint8 (cmd .& Z.lnot (mask op))) else match_from ops cmd
  end.
Definition match_command (cmd : Z) : Command := match_from operators cmd.

Inductive Mode : Type := normal | second_arg.

Record SS1106 : Type := mkSS1106 {
  mode : Mode;
  last_cmd : Command;
  changed : Z;
  column : Z;
  page : Z;
  pump_voltage : Z;
  contrast : Z;
  invert_color : Z;
  display_on : Z;
  frame : list (list Z)
}.

Definition SS1106_new : SS1106 :=
  mkSS1106 normal (mkCommand NOP 0) 0 0 0 0 0 0 0 (replicate (Z.to_nat (height / 8)) (replicate (Z.to_nat width) 0)).

Definition set_mode v o := mkSS1106 v (last_cmd o) (changed o) (column o) (page o) (pump_voltage o) (contrast o) (invert_color o) (display_on o) (frame o).
Definition set_last_cmd v o := mkSS1106 (mode o) v (changed o) (column o) (page o) (pump_voltage o) (contrast o) (invert_color o) (display_on o) (frame o).
Definition set_changed v o := mkSS1106 (mode o) (last_cmd o) v (column o) (page o) (pump_voltage o) (contrast o) (invert_color o) (display_on o) (frame o).
Definition set_column v o := mkSS1106 (mode o) (last_cmd o) (changed o) v (page o) (pump_voltage o) (contrast o) (invert_color o) (display_on o) (frame o).
Definition set_page v o := mkSS1106 (mode o) (last_cmd o) (changed o) (column o) v (pump_voltage o) (contrast o) (invert_color o) (display_on o) (frame o).
Definition set_pump_voltage v o := mkSS1106 (mode o) (last_cmd o) (changed o) (column o) (page o) v (contrast o) (invert_color o) (display_on o) (frame o).
Definition set_contrast v o := mkSS1106 (mode o) (last_cmd o) (changed o) (column o) (page o) (pump_voltage o) v (invert_color o) (display_on o) (frame o).
Definition set_invert_color v o := mkSS1106 (mode o) (last_cmd o) (changed o) (column o) (page o) (pump_voltage o) (contrast o) v (display_on o) (frame o).
Definition set_display_on v o := mkSS1106 (mode o) (last_cmd o) (changed o) (column o) (page o) (pump_voltage o) (contrast o) (invert_color o) v (frame o).
Definition set_frame v o := mkSS1106 (mode o) (last_cmd o) (changed o) (column o) (page o) (pump_voltage o) (contrast o) (invert_color o) (display_on o) v.

Class oled_interface (S : Type) : Type := {
  get_oled : S -> SS1106;
  set_oled : SS1106 -> S -> S;
  getDCPin : S -> bool
}.

(** A command, in the normal mode. *)
Definition oled_operator (cmd : Command) (o : SS1106) : SS1106 :=
  let v := payload cmd in
  match cmd_op cmd with
  | COL_LOW => set_column (uint8 ((column o .& 0xf0) .| v)) o
  | COL_HIGH => set_column (uint8 ((column o .& 0x0f) .| (v .<< 4))) o
  | PUMP_VOLTAGE => set_pump_voltage (uint 2 v) o
  | CONTRAST_MODE_SET => set_mode second_arg o
  | NORMAL_INVERSE => set_invert_color (uint 1 v) o
  | DISPLAY_ON => set_display_on (uint 1 v) o
  | PAGE_ADDR => set_page v o
  | _ => o
  end.

Definition oled_command (byte : Z) (o : SS1106) : SS1106 :=
  match mode o with
  | normal => let cmd := match_command byte in oled_operator cmd (set_last_cmd cmd o)
  | second_arg =>
      set_mode normal
        (match cmd_op (last_cmd o) with CONTRAST_MODE_SET => set_changed 1 (set_contrast byte o) | _ => o end)
  end.

Section oled.
Context {S E : Type} `{oled_interface S}.

Abbreviation R := (M S E).

Definition oled : R SS1106 := gets get_oled.
Definition update_oled (f : SS1106 -> SS1106) : R unit := modify (fun s => set_oled (f (get_oled s)) s).

(** [frame[page][column] = byte] *)
Definition draw (byte : Z) (o : SS1106) : option SS1106 :=
  match frame o !! Z.to_nat (page o) with
  | Some row =>
      if column o <? Z.of_nat (length row)
      then Some (set_frame (<[Z.to_nat (page o) := <[Z.to_nat (column o) := byte]> row]> (frame o)) o)
      else None
  | None => None
  end.

Definition oled_write (byte : Z) : R Z :=
  pin ← gets getDCPin;
  o ← oled;
  if pin : bool then
    if width <? column o then mret (uint8 (-1))
    else if height / 8 <? page o then mret (uint8 (-1))
    else
      match draw byte o with
      | None => fatal UndefinedBehaviour
      | Some o => update_oled (fun _ => set_column (uint8 (column o + 1)) (set_changed 1 o)) ;; mret 0
      end
  else update_oled (oled_command byte) ;; mret 0.

Fixpoint oled_writes (bs : list Z) : R (list Z) :=
  match bs with [] => mret [] | b :: bs => r ← oled_write b; rs ← oled_writes bs; mret (r :: rs) end.

End oled.

(** ** The commands *)

Definition all_bytes : list Z := map Z.of_nat (seq 0 256).

Lemma all_bytes_in b : is_uint 8 b -> b ∈ all_bytes.
Proof.
  unfold is_uint. change (2 ^ 8) with 256. intros Hb. apply list_elem_of_In, in_map_iff. exists (Z.to_nat b). rewrite in_seq. lia.
Qed.

(** No byte is two commands, so the order of the operators does not matter. *)
Lemma match_unique cmd op : is_uint 8 cmd -> op_matches cmd op = true ->
  match_command cmd = mkCommand op (uint8 (cmd .& Z.lnot (mask op))).
Proof.
  intros Hc Hm.
  assert (Hall : forallb (fun cmd => forallb (fun op => negb (op_matches cmd op) ||
      (bool_decide (cmd_op (match_command cmd) = op) && (payload (match_command cmd) =? uint8 (cmd .& Z.lnot (mask op))))) operators) all_bytes = true)
    by (by vm_compute).
  rewrite forallb_forall in Hall. specialize (Hall cmd). rewrite forallb_forall in Hall.
  specialize (Hall (proj1 (list_elem_of_In _ _) (all_bytes_in cmd Hc)) op). rewrite Hm in Hall. cbn [negb orb] in Hall.
  assert (Hin : In op operators) by (destruct op; cbn; tauto). specialize (Hall Hin).
  apply andb_true_iff in Hall as [H1 H2]. apply bool_decide_eq_true in H1. apply Z.eqb_eq in H2.
  destruct (match_command cmd) as [op' v]. cbn in *. by subst.
Qed.

(** ** The picture *)

Record oled_ok (o : SS1106) : Prop := {
  frame_rows : Z.of_nat (length (frame o)) = height / 8;
  frame_width : Forall (fun row => Z.of_nat (length row) = width) (frame o);
  column_byte : is_uint 8 (column o);
  page_byte : 0 <= page o
}.

Class oled_pin (S : Type) `{oled_interface S} : Prop := {
  get_set_oled o s : get_oled (set_oled o s) = o;
  set_set_oled o o' s : set_oled o (set_oled o' s) = set_oled o s;
  set_get_oled s : set_oled (get_oled s) s = s;
  pin_set o s : getDCPin (set_oled o s) = getDCPin s
}.

Section picture.
Context {S E : Type} `{Hpin : oled_pin S}.
#[local] Set Default Proof Using "Type Hpin".

Lemma oled_commands bs : forall s : S, getDCPin s = false ->
  oled_writes (E := E) bs s = (Ret (replicate (length bs) 0), set_oled (fold_left (fun o b => oled_command b o) bs (get_oled s)) s).
Proof.
  induction bs as [| b bs IH]; intros s Hp; cbn [oled_writes fold_left length replicate]; [by rewrite set_get_oled |].
  set (s1 := set_oled (oled_command b (get_oled s)) s).
  assert (Hw : oled_write (E := E) b s = (Ret 0, s1)).
  { unfold oled_write, oled, update_oled, modify, gets, mbind, M_bind. by rewrite Hp. }
  unfold mbind, M_bind. rewrite Hw, IH by (subst s1; by rewrite pin_set). subst s1. cbn [mret M_ret].
  by rewrite get_set_oled, set_set_oled.
Qed.

(** A byte of data inside the frame. *)
Definition drawn (bs : list Z) (o : SS1106) : SS1106 :=
  let row := default [] (frame o !! Z.to_nat (page o)) in
  set_column (uint8 (column o + Z.of_nat (length bs))) (set_changed 1
    (set_frame (<[Z.to_nat (page o) := list_inserts (Z.to_nat (column o)) bs row]> (frame o)) o)).

Lemma oled_data b (s : S) : getDCPin s = true -> oled_ok (get_oled s) -> page (get_oled s) < height / 8 -> column (get_oled s) < width ->
  oled_write (E := E) b s = (Ret 0, set_oled (drawn [b] (get_oled s)) s).
Proof.
  intros Hp [Hr Hw Hc Hg] Hpage Hcol. unfold oled_write, oled, update_oled, modify, gets, mbind, M_bind. cbv beta iota. rewrite Hp.
  destruct (Z.ltb_spec width (column (get_oled s))); [lia |]. destruct (Z.ltb_spec (height / 8) (page (get_oled s))); [lia |].
  unfold draw, drawn. destruct (lookup_lt_is_Some_2 (frame (get_oled s)) (Z.to_nat (page (get_oled s)))) as [row Hrow]; [lia |].
  rewrite Hrow. cbv beta iota. pose proof (Forall_lookup_1 _ _ _ _ Hw Hrow) as Hl. cbv beta in Hl. rewrite Hl.
  destruct (Z.ltb_spec (column (get_oled s)) width); [done | lia].
Qed.

Lemma drawn_ok bs o : oled_ok o -> oled_ok (drawn bs o).
Proof using Type.
  intros [Hr Hw Hc Hg]. constructor; cbn [drawn set_column set_changed set_frame frame column page].
  - by rewrite length_insert.
  - apply Forall_forall. intros row Hin. apply list_elem_of_lookup in Hin as [i Hi]. apply list_lookup_insert_Some in Hi as [(-> & <- & Hlt) | (_ & Hi)].
    + rewrite length_inserts. destruct (lookup_lt_is_Some_2 _ _ Hlt) as [row Hrow]. rewrite Hrow. by apply (Forall_lookup_1 _ _ _ _ Hw Hrow).
    + by apply (Forall_lookup_1 _ _ _ _ Hw Hi).
  - apply uint_range. lia.
  - done.
Qed.

Lemma drawn_cons b bs o : oled_ok o -> page o < height / 8 -> column o + 1 < 256 ->
  bs <> [] -> drawn bs (drawn [b] o) = drawn (b :: bs) o.
Proof using Type.
  intros [Hr Hw Hc Hg] Hp Hcol Hne. unfold is_uint in Hc. unfold drawn. cbn [set_column set_changed set_frame frame column page length].
  assert (Hu : uint8 (column o + Z.of_nat 1) = column o + 1) by (apply uint_id; unfold is_uint; lia). rewrite Hu.
  destruct (lookup_lt_is_Some_2 (frame o) (Z.to_nat (page o))) as [row Hrow]; [lia |]. rewrite Hrow.
  rewrite list_lookup_insert_eq by (by eapply lookup_lt_Some). cbn [default from_option list_inserts]. unfold id.
  rewrite list_insert_insert_eq. unfold set_column, set_changed, set_frame. cbn [mode last_cmd changed column page pump_voltage contrast invert_color display_on frame].
  f_equal; [f_equal; lia |]. f_equal. replace (Z.to_nat (column o + 1)) with (Datatypes.S (Z.to_nat (column o))) by lia.
  symmetry. apply list_insert_inserts_lt. lia.
Qed.
Lemma oled_row bs : forall s : S, getDCPin s = true -> oled_ok (get_oled s) -> page (get_oled s) < height / 8 ->
  column (get_oled s) + Z.of_nat (length bs) <= width -> bs <> [] ->
  oled_writes (E := E) bs s = (Ret (replicate (length bs) 0), set_oled (drawn bs (get_oled s)) s).
Proof.
  induction bs as [| b bs IH]; intros s Hp Hok Hpage Hcol Hne; [done |]. cbn [oled_writes length replicate] in *.
  unfold mbind, M_bind. rewrite oled_data by (done || lia). destruct (decide (bs = [])) as [-> | Hne']; [done |].
  set (s1 := set_oled (drawn [b] (get_oled s)) s).
  assert (Ho1 : get_oled s1 = drawn [b] (get_oled s)) by (subst s1; apply get_set_oled).
  pose proof (column_byte _ Hok) as Hc. unfold is_uint in Hc. unfold width in *.
  assert (Hcol1 : column (drawn [b] (get_oled s)) = column (get_oled s) + 1).
  { cbn [drawn set_column column length]. apply uint_id. unfold is_uint. destruct bs; [done | cbn [length] in Hcol; lia]. }
  rewrite IH; rewrite ?Ho1; [| subst s1; by rewrite pin_set | by apply drawn_ok | done | rewrite Hcol1; lia | done].
  cbn [mret M_ret]. subst s1. rewrite set_set_oled, drawn_cons; [done | done | done | lia | done].
Qed.

(** The three commands for a position. *)
Lemma oled_position (s : S) p c : oled_ok (get_oled s) -> getDCPin s = false -> mode (get_oled s) = normal -> 0 <= p < 16 -> is_uint 8 c ->
  exists o', oled_writes (E := E) [0xB0 .| p; c .& 0xf; 0x10 .| (c .>> 4)] s = (Ret [0; 0; 0], set_oled o' s) /\
    page o' = p /\ column o' = c /\ frame o' = frame (get_oled s) /\ mode o' = normal /\ oled_ok o'.
Proof.
  intros Hok Hp Hm Hpr Hc. eexists. rewrite oled_commands by done. split; [done |]. cbn [fold_left]. set (o := get_oled s) in *.
  assert (Hb : forall p, 0 <= p < 16 -> match_command (0xB0 .| p) = mkCommand PAGE_ADDR p /\ match_command p = mkCommand COL_LOW p /\
    match_command (0x10 .| p) = mkCommand COL_HIGH p).
  { intros q Hq. assert (Hall : forallb (fun q => bool_decide (match_command (0xB0 .| q) = mkCommand PAGE_ADDR q /\
      match_command q = mkCommand COL_LOW q /\ match_command (0x10 .| q) = mkCommand COL_HIGH q)) (map Z.of_nat (seq 0 16)) = true)
      by (by vm_compute).
    assert (Hin : In q (map Z.of_nat (seq 0 16))) by (apply in_map_iff; exists (Z.to_nat q); rewrite in_seq; lia).
    rewrite forallb_forall in Hall. apply (bool_decide_eq_true_1 _ (Hall q Hin)). }
  assert (Hlow : 0 <= c .& 0xf < 16) by (change 0xf with (Z.ones 4); rewrite Z.land_ones by lia; apply Z.mod_pos_bound; lia).
  assert (Hhigh : 0 <= c .>> 4 < 16).
  { unfold is_uint in Hc. rewrite Z.shiftr_div_pow2 by lia. split; [apply Z.div_pos; lia | apply Z.div_lt_upper_bound; lia]. }
  destruct (Hb p Hpr) as [H1 _]. destruct (Hb _ Hlow) as (_ & H2 & _). destruct (Hb _ Hhigh) as (_ & _ & H3).
  assert (Hn : forall byte cmd o, mode o = normal -> match_command byte = cmd ->
    oled_command byte o = oled_operator cmd (set_last_cmd cmd o)) by (intros byte cmd o0 Hm0 <-; unfold oled_command; by rewrite Hm0).
  rewrite (Hn _ _ o Hm H1). erewrite (Hn (c .& 0xf)); [| exact Hm | exact H2]. erewrite (Hn (0x10 .| (c .>> 4))); [| exact Hm | exact H3].
  cbn [oled_operator set_page set_column set_last_cmd cmd_op payload mode page column frame].
  assert (Hcol : forall x, uint8 ((uint8 ((x .& 0xf0) .| (c .& 0xf)) .& 0x0f) .| ((c .>> 4) .<< 4)) = c).
  { intros x. assert (Hx : uint8 ((x .& 0xf0) .| (c .& 0xf)) .& 0x0f = c .& 0xf).
    { unfold uint8, uint. change (2 ^ 8) with (2 ^ 4 * 2 ^ 4). change 0x0f with (Z.ones 4) at 2. rewrite Z.land_ones by lia.
      rewrite Z.mod_mod_divide by (exists (2 ^ 4); lia).
      rewrite <- Z.land_ones by lia. rewrite Z.land_lor_distr_l, <- !Z.land_assoc. change (0xf0 .& Z.ones 4) with 0.
      change (0xf .& Z.ones 4) with 0xf. rewrite Z.land_0_r. apply Z.lor_0_l. }
    rewrite Hx. assert (Hall : forallb (fun c => uint8 ((c .& 0xf) .| ((c .>> 4) .<< 4)) =? c) all_bytes = true) by (by vm_compute).
    rewrite forallb_forall in Hall. apply Z.eqb_eq, Hall, list_elem_of_In, all_bytes_in, Hc. }
  rewrite Hcol. split; [done | split; [done | split; [done | split; [done |]]]].
  destruct Hok as [Hr Hw _ _]. constructor; cbn [set_column set_page set_last_cmd frame column page]; rewrite ?Hcol; try exact Hr; try exact Hw; try exact Hc. lia.
Qed.

(** C34: a program that draws.  With the pin at commands, the three commands for a
    page and a column below 256 set exactly these; with the pin at data, the bytes that
    follow go to this page from this column on, one next to the other, and nothing else
    of the picture changes.  A column above 132 or a page above 8 is answered with
    255, without effect; but the column 132 and the page 8, one more than there are,
    pass the check, and the write leaves the frame. *)
Theorem oled_picture (s : S) : oled_ok (get_oled s) ->
  let o := get_oled s in
  (getDCPin s = false -> mode o = normal -> forall p c, 0 <= p < 16 -> is_uint 8 c -> exists o',
   oled_writes (E := E) [0xB0 .| p; c .& 0xf; 0x10 .| (c .>> 4)] s = (Ret [0; 0; 0], set_oled o' s) /\
   page o' = p /\ column o' = c /\ frame o' = frame o /\ mode o' = normal /\ oled_ok o') /\
  (getDCPin s = true -> forall bs, bs <> [] -> page o < height / 8 -> column o + Z.of_nat (length bs) <= width ->
   oled_writes (E := E) bs s = (Ret (replicate (length bs) 0), set_oled (drawn bs o) s) /\ oled_ok (drawn bs o)) /\
  (getDCPin s = true -> forall b,
   (width < column o \/ height / 8 < page o -> oled_write (E := E) b s = (Ret 255, s)) /\
   (column o <= width -> page o <= height / 8 -> column o = width \/ page o = height / 8 ->
    oled_write (E := E) b s = (Fatal UndefinedBehaviour, s))).
Proof.
  intros Hok o. split; [| split].
  - intros Hp Hm p c Hpr Hc. by apply oled_position.
  - intros Hp bs Hne Hpage Hcol. split; [by apply oled_row | by apply drawn_ok].
  - intros Hp b. unfold oled_write, oled, update_oled, modify, gets, mbind, M_bind. cbv beta iota. rewrite Hp. fold o. split.
    + intros Hout. destruct (Z.ltb_spec width (column o)); [done |]. destruct (Z.ltb_spec (height / 8) (page o)); [done | lia].
    + intros Hc Hg Hout. destruct (Z.ltb_spec width (column o)); [lia |]. destruct (Z.ltb_spec (height / 8) (page o)); [lia |].
      assert (draw b o = None) as ->; [| done]. unfold draw. destruct (frame o !! Z.to_nat (page o)) as [row|] eqn:Hrow; [| done].
      pose proof (Forall_lookup_1 _ _ _ _ (frame_width _ Hok) Hrow) as Hl. cbv beta in Hl. rewrite Hl.
      apply lookup_lt_Some in Hrow. pose proof (frame_rows _ Hok) as Hr. fold o in Hr.
      destruct (Z.ltb_spec (column o) width); [lia | done].
Qed.
End picture.

(** ** A bench *)

Record oled_bench : Type := mkOledBench { ob_oled : SS1106; ob_pin : bool }.

#[export] Instance oled_bench_interface : oled_interface oled_bench := {
  get_oled := ob_oled; set_oled o s := mkOledBench o (ob_pin s); getDCPin := ob_pin
}.

#[export] Instance oled_bench_pin : oled_pin oled_bench.
Proof. constructor; [done | done | by intros [] | done]. Defined.

Lemma SS1106_new_ok : oled_ok SS1106_new.
Proof. constructor; [done | by repeat constructor | by cbn | done]. Qed.

(** Page 3 and column 0x42, and three bytes in a new picture. *)
Lemma oled_picture_witness :
  (exists s', oled_writes (E := unit) [0xB3; 2; 0x14] (mkOledBench SS1106_new false) = (Ret [0; 0; 0], s') /\
     page (get_oled s') = 3 /\ column (get_oled s') = 0x42) /\
  oled_writes (E := unit) [7; 8; 9] (mkOledBench SS1106_new true) = (Ret [0; 0; 0], mkOledBench (drawn [7; 8; 9] SS1106_new) true) /\
  oled_write (E := unit) 7 (mkOledBench (set_column 132 SS1106_new) true)
  = (Fatal UndefinedBehaviour, mkOledBench (set_column 132 SS1106_new) true).
Proof.
  split; [| split].
  - destruct (oled_picture (E := unit) (Hpin := oled_bench_pin) (mkOledBench SS1106_new false) SS1106_new_ok) as [Hc _].
    destruct (Hc eq_refl eq_refl 3 0x42 ltac:(lia) ltac:(by vm_compute)) as (o' & Hs & Hp & Hcol & _).
    exists (mkOledBench o' false). split; [exact Hs | split; [exact Hp | exact Hcol]].
  - destruct (oled_picture (E := unit) (Hpin := oled_bench_pin) (mkOledBench SS1106_new true) SS1106_new_ok) as (_ & Hd & _).
    apply (Hd eq_refl [7; 8; 9]); [done | by vm_compute | by vm_compute].
  - assert (Hok : oled_ok (set_column 132 SS1106_new)) by (constructor; [done | by repeat constructor | by vm_compute | done]).
    destruct (oled_picture (E := unit) (Hpin := oled_bench_pin) (mkOledBench (set_column 132 SS1106_new) true) Hok) as (_ & _ & He).
    apply (He eq_refl 7); [by vm_compute | by vm_compute | by left].
Defined.
