(* ===== verification/GdbPacket.v ===== *)
(** * The packets of the GDB remote protocol

    Models the library libgdb (core/common/gdb-mc/libgdb): response.c, util.c and
    the command parser's entry gdb_parse_cmd of parser2.c with the data it yields
    (parser1.h, parser2.h).  A string is the list of its characters without the
    terminating zero; a [char] is a signed 8-bit integer, as on x86-64.  The parser
    combinators are a library outside of the repository: what they make of the text
    of a command is the parameter [mpc_parse]. *)

From S2P Require Import Prelude.

(** ** Data *)

Definition GDB_CSUM_LEN : nat := 2.

Inductive gdb_kind_t : Type := GDB_KIND_NOTIFY | GDB_KIND_PACKET | GDB_KIND_NACK | GDB_KIND_ACK.

#[export] Instance gdb_kind_eq_dec : EqDecision gdb_kind_t.
Proof. solve_decision. Defined.

Record gdb_packet_t : Type := mkPacket { pkt_kind : gdb_kind_t; pkt_data : option (list Z); pkt_csum : list Z }.

Definition GDB_THREAD_ANY : Z := 0.
Definition GDB_THREAD_ALL : Z := -1.

Record gdb_thread_t : Type := mkThread { pid : Z; tid : Z }.

Inductive gdb_ztype_t : Type :=
  | GDB_ZKIND_SOFT | GDB_ZKIND_HARD | GDB_ZKIND_WATCHW | GDB_ZKIND_WATCHR | GDB_ZKIND_WATCHA.

#[export] Instance gdb_ztype_eq_dec : EqDecision gdb_ztype_t.
Proof. solve_decision. Defined.

Record gdb_breakpoint_t : Type := mkBreakpoint { bp_type : gdb_ztype_t; bp_address : Z; bp_kind : Z }.
Record gdb_memory_t : Type := mkMemory { mem_addr : Z; mem_length : Z }.
Record gdb_memory_write_t : Type := mkMemoryWrite { location : gdb_memory_t; memw_data : list Z }.
Record gdb_cmd_h_t : Type := mkCmdH { h_op : Z; h_id : gdb_thread_t }.
Record gdb_vcont_t : Type := mkVcont { vc_action : Z; vc_sig : Z; vc_thread : gdb_thread_t }.

(** The union of a command and its tag; the list of vCont's actions is linked. *)
Inductive gdb_argument_t : Type :=
  | GDB_ARG_NONE
  | GDB_ARG_VCONT (vval : list gdb_vcont_t)
  | GDB_ARG_H (hcmd : gdb_cmd_h_t)
  | GDB_ARG_INT (ival : Z)
  | GDB_ARG_MEMORY (mem : gdb_memory_t)
  | GDB_ARG_MEMORYW (memw : gdb_memory_write_t)
  | GDB_ARG_BREAK (bval : gdb_breakpoint_t)
  | GDB_ARG_THREAD (tval : gdb_thread_t).

Record gdb_command_t : Type := mkCommand { cmd_name : list Z; cmd_arg : gdb_argument_t }.

(** ** Numbers in base 16 *)

Definition hex_char (d : Z) : Z := if d <? 10 then 48 + d else 87 + d.

(** The low [n] digits, the most significant one first. *)
Definition hex_digits (n : nat) (v : Z) : list Z :=
  map (fun i => hex_char ((v .>> (4 * Z.of_nat i)) .& 15)) (rev (seq 0 n)).

(** A number with at least [n] digits: "%.2x" of printf, and std::hex with
    std::setw and the fill character 0. *)
Definition hex_print (n : nat) (v : Z) : list Z := hex_digits (max n (Z.to_nat (Z.log2 v / 4 + 1))) v.

(** ** Responses *)

Definition kind_to_char (kind : gdb_kind_t) : Z :=
  match kind with GDB_KIND_NOTIFY => 35 | GDB_KIND_PACKET => 36 | GDB_KIND_NACK => 45 | GDB_KIND_ACK => 43 end.

(** The sum is an int, and % is C's. *)
Definition calc_csum (data : list Z) : Z := Z.rem (fold_left (fun csum c => int32 (csum + c)) data 0) 256.

(** An int that printf's %x takes as an unsigned one. *)
Definition print_csum (csum : Z) : list Z := hex_print 2 (uint32 csum).

Section libgdb.
Context {S E : Type}.

Abbreviation R := (M S E).

(** [errx] ends the process, as an exception does that nothing handles. *)
Definition gdb_serialize (kind : gdb_kind_t) (data : option (list Z)) : R (list Z) :=
  match kind, data with
  | (GDB_KIND_NACK | GDB_KIND_ACK), None => mret [kind_to_char kind]
  | (GDB_KIND_NACK | GDB_KIND_ACK), Some _ => fatal AssertFailed
  | _, None => fatal NullDereference
  | _, Some data =>
      let pktlen := (length data + GDB_CSUM_LEN + 3)%nat in
      let serialized := kind_to_char kind :: data ++ 35 :: print_csum (calc_csum data) in
      if (pktlen <=? length serialized)%nat then fatal RuntimeError else mret serialized
  end.

(** ** Commands *)

Definition gdb_is_valid (pkt : gdb_packet_t) : R bool :=
  match pkt_data pkt with
  | None => mret true
  | Some data =>
      let strcsum := print_csum (calc_csum data) in
      assert (length strcsum =? GDB_CSUM_LEN)%nat ;;
      mret (bool_decide (take GDB_CSUM_LEN (pkt_csum pkt) = strcsum))
  end.

Definition GDB_RUNLEN_CHAR : Z := 42.
Definition GDB_RUNLEN_OFF : Z := 29.
Definition GDB_RUNLEN_STEP : nat := 32.
Definition GDB_ESCAPE_CHAR : Z := 125.
Definition GDB_ESCAPE_BYTE : Z := 0x20.
Definition CHAR_MAX : Z := 127.

(** The buffer of gdb_decode_runlen: its characters, the bytes that are left, a
    size_t, and the bytes that are allocated. *)
Record runlen_buffer : Type := mkRunlen { ndat : list Z; nrem : Z; allocated : nat }.

Definition runlen_put (c : Z) (b : runlen_buffer) : R runlen_buffer :=
  let b1 := if nrem b =? 0
    then mkRunlen (ndat b) (uint64 (uint64 (nrem b - 1) + Z.of_nat GDB_RUNLEN_STEP)) (length (ndat b) + GDB_RUNLEN_STEP)
    else mkRunlen (ndat b) (nrem b - 1) (allocated b) in
  assert ((0 <=? c) && (c <=? CHAR_MAX)) ;;
  if (length (ndat b1) <? allocated b1)%nat
  then mret (mkRunlen (ndat b1 ++ [c]) (nrem b1) (allocated b1))
  else fatal UndefinedBehaviour.

Fixpoint runlen_puts (rcount : nat) (c : Z) (b : runlen_buffer) : R runlen_buffer :=
  match rcount with O => mret b | Datatypes.S n => b ← runlen_put c b; runlen_puts n c b end.

(** The loop, from the character before [data] on. *)
Fixpoint runlen_loop (prev : option Z) (data : list Z) (runlen : Z) (b : runlen_buffer) : R (option runlen_buffer) :=
  match data with
  | [] => mret (Some b)
  | c :: data =>
      if c =? GDB_RUNLEN_CHAR then
        match prev with
        | None => mret None
        | Some p => runlen_loop (Some c) data p b
        end
      else if runlen =? -1 then b ← runlen_puts 1 c b; runlen_loop (Some c) data (-1) b
      else if c - GDB_RUNLEN_OFF <=? 0 then mret None
      else b ← runlen_puts (Z.to_nat (c - GDB_RUNLEN_OFF)) runlen b; runlen_loop (Some c) data (-1) b
  end.

Definition gdb_decode_runlen (data : list Z) : R (option (list Z)) :=
  b ← runlen_loop None data (-1) (mkRunlen [] (Z.of_nat (length data)) (length data));
  mret (option_map ndat b).

Fixpoint unescape_loop (esc : bool) (data : list Z) : list Z :=
  match data with
  | [] => []
  | c :: data =>
      if c =? GDB_ESCAPE_CHAR then unescape_loop true data
      else (if esc then Z.lxor c GDB_ESCAPE_BYTE else c) :: unescape_loop false data
  end.

Definition gdb_unescape (data : list Z) : list Z := unescape_loop false data.

(** [mpc_parse] is the parser gdb_parse_stage2 builds, run on a text. *)
Definition gdb_parse_cmd (mpc_parse : list Z -> option gdb_command_t) (pkt : gdb_packet_t) : R (option gdb_command_t) :=
  if negb (bool_decide (pkt_kind pkt = GDB_KIND_PACKET)) then mret None
  else
    valid ← gdb_is_valid pkt;
    if negb valid then mret None
    else
      match pkt_data pkt with
      | None => fatal NullDereference
      | Some data =>
          data ← gdb_decode_runlen data;
          match data with
          | None => mret None
          | Some data => mret (mpc_parse (gdb_unescape data))
          end
      end.

End libgdb.

(** ** What a client sends *)

(** The characters of the protocol are escaped. *)
Definition gdb_escape (text : list Z) : list Z :=
  flat_map (fun c => if bool_decide (c ∈ [35; 36; 42; 125]) then [GDB_ESCAPE_CHAR; Z.lxor c GDB_ESCAPE_BYTE] else [c]) text.

(** A run of [n + 1] characters is sent as the character, a star and the printable
    character [n + 29]. *)
Definition run_code (r : Z * nat) : list Z :=
  let '(c, n) := r in match n with O => [c] | _ => [c; GDB_RUNLEN_CHAR; Z.of_nat n + GDB_RUNLEN_OFF] end.
Definition run_text (r : Z * nat) : list Z := let '(c, n) := r in c :: replicate n c.

(** A run of fourteen has a star as its count. *)
Definition run_ok (r : Z * nat) : Prop := 0 < fst r < 128 /\ fst r <> GDB_RUNLEN_CHAR /\ (snd r <= 97)%nat /\ snd r <> 13%nat.

Example star_count : gdb_decode_runlen (S := unit) (E := unit) [48; 42; 42] tt = (Ret (Some [48]), tt).
Proof. reflexivity. Qed.

(** ** The run-length decoder *)

Definition ascii (c : Z) : Prop := 0 < c < 128.

Definition buffer_ok (b : runlen_buffer) : Prop := Z.of_nat (length (ndat b)) + nrem b = Z.of_nat (allocated b) /\ 0 <= nrem b.

Section decode.
Context {S E : Type}.

Lemma runlen_put_ok c b (s : S) : buffer_ok b -> 0 <= c < 128 ->
  exists b', runlen_put (E := E) c b s = (Ret b', s) /\ buffer_ok b' /\ ndat b' = ndat b ++ [c].
Proof.
  intros [Hb Hn] Hc. unfold runlen_put.
  assert (((0 <=? c) && (c <=? CHAR_MAX)) = true) as ->.
  { apply andb_true_intro. split; apply Z.leb_le; [lia |]. unfold CHAR_MAX. lia. }
  unfold mbind, M_bind. cbn [assert skip mret M_ret]. destruct (Z.eqb_spec (nrem b) 0) as [H0 | H0]; cbn [ndat nrem allocated].
  - rewrite H0. change (uint64 (uint64 (0 - 1) + Z.of_nat GDB_RUNLEN_STEP)) with 31. unfold GDB_RUNLEN_STEP.
    destruct (Nat.ltb_spec (length (ndat b)) (length (ndat b) + 32)) as [_ | Hl]; [| lia].
    eexists. split; [done | split; [split |]]; cbn [ndat nrem allocated]; rewrite ?length_app; cbn [length]; [lia | lia | done].
  - destruct (Nat.ltb_spec (length (ndat b)) (allocated b)) as [_ | Hl]; [| lia].
    eexists. split; [done | split; [split |]]; cbn [ndat nrem allocated]; rewrite ?length_app; cbn [length]; [lia | lia | done].
Qed.

Lemma runlen_puts_ok n c : forall b (s : S), buffer_ok b -> 0 <= c < 128 ->
  exists b', runlen_puts (E := E) n c b s = (Ret b', s) /\ buffer_ok b' /\ ndat b' = ndat b ++ replicate n c.
Proof.
  induction n as [| n IH]; intros b s Hb Hc; cbn [runlen_puts replicate].
  - exists b. by rewrite app_nil_r.
  - destruct (runlen_put_ok c b s Hb Hc) as (b1 & Hs & Hb1 & Hd). destruct (IH b1 s Hb1 Hc) as (b2 & Hs2 & Hb2 & Hd2).
    exists b2. unfold mbind, M_bind. rewrite Hs, Hs2, Hd2, Hd, <- app_assoc. done.
Qed.

(** No text of characters makes the decoder leave its buffer or fail an assertion. *)
Lemma runlen_loop_total data : forall prev runlen b (s : S), Forall ascii data -> buffer_ok b ->
  (forall p, prev = Some p -> ascii p) -> (runlen = -1 \/ ascii runlen) ->
  exists r, runlen_loop (E := E) prev data runlen b s = (Ret r, s).
Proof.
  induction data as [| c data IH]; intros prev runlen b s Hd Hb Hp Hr; [by eexists |]. inversion_clear Hd as [| ? ? Hc Hd'].
  unfold ascii in *. cbn [runlen_loop].
  assert (Hc' : forall p, Some c = Some p -> 0 < p < 128) by (by intros ? [= <-]).
  destruct (c =? GDB_RUNLEN_CHAR); [| destruct (Z.eqb_spec runlen (-1))].
  - destruct prev as [p|]; [| by eexists]. apply IH; auto.
  - destruct (runlen_puts_ok 1 c b s Hb ltac:(lia)) as (b1 & Hs & Hb1 & _). unfold mbind, M_bind. rewrite Hs. apply IH; auto.
  - destruct (_ <=? 0); [by eexists |].
    destruct (runlen_puts_ok (Z.to_nat (c - GDB_RUNLEN_OFF)) runlen b s Hb ltac:(lia)) as (b1 & Hs & Hb1 & _).
    unfold mbind, M_bind. rewrite Hs. apply IH; auto.
Qed.

Lemma runlen_total data (s : S) : Forall ascii data -> exists r, gdb_decode_runlen (E := E) data s = (Ret r, s).
Proof.
  intros Hd. unfold gdb_decode_runlen, mbind, M_bind.
  destruct (runlen_loop_total data None (-1) (mkRunlen [] (Z.of_nat (length data)) (length data)) s Hd) as [r Hr]; auto.
  - split; cbn [ndat nrem allocated length]; lia.
  - done.
  - rewrite Hr. by eexists.
Qed.

Lemma runlen_loop_runs runs : forall prev b (s : S), Forall run_ok runs -> buffer_ok b ->
  exists b', runlen_loop (E := E) prev (flat_map run_code runs) (-1) b s = (Ret (Some b'), s) /\
    ndat b' = ndat b ++ flat_map run_text runs.
Proof.
  induction runs as [| [c n] runs IH]; intros prev b s Hr Hb; cbn [flat_map]; [exists b; by rewrite app_nil_r |].
  apply Forall_cons in Hr as [(Hc & Hns & Hn & H13) Hr']. cbn [fst snd] in Hc, Hns, Hn, H13.
  destruct (runlen_puts_ok 1 c b s Hb ltac:(lia)) as (b1 & Hs1 & Hb1 & Hd1).
  assert (Hfst : forall l, runlen_loop (E := E) prev (c :: l) (-1) b s = runlen_loop (Some c) l (-1) b1 s).
  { intros l. cbn [runlen_loop]. destruct (Z.eqb_spec c GDB_RUNLEN_CHAR) as [| _]; [done |].
    change (-1 =? -1) with true. unfold mbind, M_bind. by rewrite Hs1. }
  destruct n as [| n]; cbn [run_code run_text app].
  - rewrite Hfst. destruct (IH (Some c) b1 s Hr' Hb1) as (b2 & Hs2 & Hd2). exists b2. rewrite Hs2, Hd2, Hd1, <- app_assoc. done.
  - rewrite Hfst. cbn [runlen_loop]. change (GDB_RUNLEN_CHAR =? GDB_RUNLEN_CHAR) with true. cbv iota.
    set (k := Z.of_nat (Datatypes.S n) + GDB_RUNLEN_OFF). unfold GDB_RUNLEN_OFF, GDB_RUNLEN_CHAR in *.
    destruct (Z.eqb_spec k 42) as [Hk | _]; [lia |]. destruct (Z.eqb_spec c (-1)) as [| _]; [lia |].
    destruct (Z.leb_spec (k - 29) 0) as [| _]; [lia |].
    destruct (runlen_puts_ok (Z.to_nat (k - 29)) c b1 s Hb1 ltac:(lia)) as (b2 & Hs2 & Hb2 & Hd2).
    unfold mbind, M_bind. rewrite Hs2. destruct (IH (Some k) b2 s Hr' Hb2) as (b3 & Hs3 & Hd3).
    exists b3. rewrite Hs3, Hd3, Hd2, Hd1. replace (Z.to_nat (k - 29)) with (Datatypes.S n) by lia.
    by rewrite <- !app_assoc.
Qed.

Lemma decode_runs runs (s : S) : Forall run_ok runs ->
  gdb_decode_runlen (E := E) (flat_map run_code runs) s = (Ret (Some (flat_map run_text runs)), s).
Proof.
  intros Hr. unfold gdb_decode_runlen, mbind, M_bind. set (d := flat_map run_code runs).
  destruct (runlen_loop_runs runs None (mkRunlen [] (Z.of_nat (length d)) (length d)) s Hr) as (b & Hs & Hd).
  - split; cbn [ndat nrem allocated length]; lia.
  - fold d in Hs. rewrite Hs. cbn [option_map ndat app mret M_ret] in *. by rewrite Hd.
Qed.

End decode.

Lemma unescape_escape text : gdb_unescape (gdb_escape text) = text.
Proof.
  unfold gdb_unescape, gdb_escape. induction text as [| c text IH]; [done |]. cbn [flat_map].
  destruct (bool_decide_reflect (c ∈ [35; 36; 42; 125])) as [Hin | Hout]; cbn [app unescape_loop].
  - change (GDB_ESCAPE_CHAR =? GDB_ESCAPE_CHAR) with true. cbv iota.
    assert (Hx : (Z.lxor c GDB_ESCAPE_BYTE =? GDB_ESCAPE_CHAR) = false).
    { set_unfold in Hin. destruct Hin as [-> | [-> | [-> | [-> | []]]]]; done. }
    rewrite Hx, Z.lxor_assoc, Z.lxor_nilpotent, Z.lxor_0_r. by f_equal.
  - destruct (Z.eqb_spec c GDB_ESCAPE_CHAR) as [-> | _]; [| by f_equal]. destruct Hout. unfold GDB_ESCAPE_CHAR. set_solver.
Qed.

(** ** The check sum *)

Definition hex_value (c : Z) : option Z :=
  if (48 <=? c) && (c <=? 57) then Some (c - 48)
  else if (97 <=? c) && (c <=? 102) then Some (c - 87)
  else if (65 <=? c) && (c <=? 70) then Some (c - 55) else None.

Fixpoint strtol_digits (acc : Z) (l : list Z) : Z :=
  match l with
  | [] => acc
  | c :: l => match hex_value c with Some d => strtol_digits (16 * acc + d) l | None => acc end
  end.

Lemma hex_byte v : 0 <= v < 256 -> length (hex_print 2 v) = 2%nat /\ strtol_digits 0 (hex_print 2 v) = v.
Proof.
  intros Hv. cut (forallb (fun v => (length (hex_print 2 v) =? 2)%nat && (strtol_digits 0 (hex_print 2 v) =? v))
    (map Z.of_nat (seq 0 256)) = true).
  - rewrite forallb_forall. intros H. specialize (H v). rewrite andb_true_iff, Nat.eqb_eq, Z.eqb_eq in H.
    apply H, in_map_iff. exists (Z.to_nat v). rewrite in_seq. lia.
  - by vm_compute.
Qed.

Definition sum (l : list Z) : Z := fold_right Z.add 0 l.

Lemma sum_app l l' : sum (l ++ l') = sum l + sum l'.
Proof. induction l; cbn; [done |]. unfold sum in *. lia. Qed.

Lemma sum_bound l : Forall ascii l -> 0 <= sum l <= 127 * Z.of_nat (length l).
Proof. induction 1 as [| c l Hc _ IH]; cbn [sum fold_right length]; [lia |]. unfold ascii, sum in *. lia. Qed.

Lemma calc_csum_sum data : Forall ascii data -> Z.of_nat (length data) < 2 ^ 24 -> calc_csum data = sum data mod 256.
Proof.
  intros Hd Hl. unfold calc_csum.
  assert (Hf : forall acc, 0 <= acc -> acc + 127 * Z.of_nat (length data) < 2 ^ 31 ->
    fold_left (fun csum c => int32 (csum + c)) data acc = acc + sum data).
  { clear Hl. induction Hd as [| c l Hc Hd IH]; intros acc Ha Hb; cbn [fold_left sum fold_right length] in *; [lia |].
    unfold ascii in Hc. assert (int32 (acc + c) = acc + c) as -> by (apply sint_id; [lia | unfold is_sint; lia]).
    rewrite IH; [| lia | lia].
    unfold sum. lia. }
  rewrite Hf by lia. apply Z.rem_mod_nonneg; pose proof (sum_bound data Hd); lia.
Qed.

Lemma print_csum_ok data : Forall ascii data -> Z.of_nat (length data) < 2 ^ 24 ->
  length (print_csum (calc_csum data)) = 2%nat /\ strtol_digits 0 (print_csum (calc_csum data)) = sum data mod 256.
Proof.
  intros Hd Hl. rewrite calc_csum_sum by done. unfold print_csum.
  pose proof (Z.mod_pos_bound (sum data) 256 ltac:(lia)). assert (uint32 (sum data mod 256) = sum data mod 256) as -> by (apply uint_id; unfold is_uint; lia).
  by apply hex_byte.
Qed.

Section packets.
Context {S E : Type}.

Lemma gdb_is_valid_sum data csum (s : S) : Forall ascii data -> Z.of_nat (length data) < 2 ^ 24 ->
  gdb_is_valid (E := E) (mkPacket GDB_KIND_PACKET (Some data) csum) s
  = (Ret (bool_decide (take 2 csum = print_csum (calc_csum data))), s).
Proof.
  intros Hd Hl. unfold gdb_is_valid. cbn [pkt_data pkt_csum]. by rewrite (proj1 (print_csum_ok data Hd Hl)).
Qed.

Lemma run_code_ascii r : run_ok r -> Forall ascii (run_code r).
Proof.
  destruct r as [c n]. intros (Hc & _ & Hn & _). cbn [fst snd] in *. unfold run_code, ascii.
  destruct n; repeat constructor; unfold GDB_RUNLEN_CHAR, GDB_RUNLEN_OFF; lia.
Qed.

(** C36: a text that a client escapes, encodes in runs (no run of fourteen) and
    sends as the packet gdb_serialize makes of it reaches the parser of commands as
    it was; with any one character of it changed on the way the packet is refused.
    And no text of characters leaves the buffer of the decoder or fails one of its
    assertions, whatever its check sum. *)
Theorem gdb_packet_roundtrip mpc_parse text runs (s : S) :
  Forall run_ok runs -> flat_map run_text runs = gdb_escape text ->
  let data := flat_map run_code runs in
  Z.of_nat (length data) < 2 ^ 24 ->
  exists csum, gdb_serialize (E := E) GDB_KIND_PACKET (Some data) s = (Ret (36 :: data ++ 35 :: csum), s) /\
    length csum = GDB_CSUM_LEN /\
    gdb_parse_cmd (E := E) mpc_parse (mkPacket GDB_KIND_PACKET (Some data) csum) s = (Ret (mpc_parse text), s) /\
    (forall l c r c', data = l ++ c :: r -> ascii c' -> c' <> c ->
     gdb_parse_cmd (E := E) mpc_parse (mkPacket GDB_KIND_PACKET (Some (l ++ c' :: r)) csum) s = (Ret None, s)) /\
    (forall data' csum', Forall ascii data' -> Z.of_nat (length data') < 2 ^ 24 -> exists cmd,
     gdb_parse_cmd (E := E) mpc_parse (mkPacket GDB_KIND_PACKET (Some data') csum') s = (Ret cmd, s)).
Proof.
  intros Hr Ht data Hl. assert (Hd : Forall ascii data).
  { subst data. clear -Hr. induction Hr as [| r runs H1 _ IH]; [constructor |]. apply Forall_app. split; [by apply run_code_ascii | done]. }
  destruct (print_csum_ok data Hd Hl) as [Hlen Hval]. exists (print_csum (calc_csum data)).
  split; [| split; [done | split; [| split]]].
  - unfold gdb_serialize. cbn [kind_to_char].
    destruct (Nat.leb_spec (length data + GDB_CSUM_LEN + 3) (length (36 :: data ++ 35 :: print_csum (calc_csum data)))) as [Hle |]; [| done].
    cbn [length] in Hle. rewrite length_app in Hle. cbn [length] in Hle. rewrite Hlen in Hle. unfold GDB_CSUM_LEN in Hle. lia.
  - unfold gdb_parse_cmd. cbn [pkt_kind pkt_data]. rewrite bool_decide_true by done. cbn [negb]. unfold mbind, M_bind.
    rewrite gdb_is_valid_sum by done. rewrite firstn_all2 by lia. rewrite bool_decide_true by done. cbn [negb].
    subst data. rewrite decode_runs by done. by rewrite Ht, unescape_escape.
  - intros l c r c' Heq Hc' Hne. assert (Hd' : Forall ascii (l ++ c' :: r)).
    { rewrite Heq in Hd. apply Forall_app in Hd as [H1 H2]. apply Forall_app. split; [done |]. inversion_clear H2. by constructor. }
    assert (Hl' : Z.of_nat (length (l ++ c' :: r)) < 2 ^ 24).
    { rewrite Heq in Hl. rewrite length_app in *. cbn [length] in *. lia. }
    unfold gdb_parse_cmd. cbn [pkt_kind pkt_data]. rewrite bool_decide_true by done. cbn [negb]. unfold mbind, M_bind.
    rewrite gdb_is_valid_sum by done. rewrite firstn_all2 by lia. rewrite bool_decide_false; [done |].
    intros Hcs. destruct (print_csum_ok _ Hd' Hl') as [_ Hval']. rewrite <- Hcs, Hval in Hval'.
    assert (Hc : ascii c). { rewrite Heq in Hd. apply Forall_app in Hd as [_ H2]. by inversion_clear H2. }
    rewrite Heq, !sum_app in Hval'. cbn [sum fold_right] in Hval'. change (fold_right Z.add 0 r) with (sum r) in Hval'.
    unfold ascii in *. clear -Hval' Hc Hc' Hne. revert Hval'. generalize (sum l) (sum r). intros a b H. Z.to_euclidean_division_equations. lia.
  - intros data' csum' Hd' Hl'. unfold gdb_parse_cmd. cbn [pkt_kind pkt_data]. rewrite bool_decide_true by done. cbn [negb].
    unfold mbind, M_bind. rewrite gdb_is_valid_sum by done. destruct (negb _); [by eexists |].
    destruct (runlen_total (E := E) data' s Hd') as [[d|] ->]; by eexists.
Qed.

End packets.

(** The packet of the command "m0,00000000000", its zeros a run, and of one that is
    changed on its way. *)
Lemma gdb_packet_roundtrip_witness :
  let data := [109; 48; 44; 48; 42; 39] in
  exists csum, gdb_serialize (S := unit) (E := unit) GDB_KIND_PACKET (Some data) tt = (Ret (36 :: data ++ 35 :: csum), tt) /\
    gdb_parse_cmd (S := unit) (E := unit) (fun text => Some (mkCommand text GDB_ARG_NONE))
      (mkPacket GDB_KIND_PACKET (Some data) csum) tt
    = (Ret (Some (mkCommand (109 :: 48 :: 44 :: replicate 11 48) GDB_ARG_NONE)), tt) /\
    gdb_parse_cmd (S := unit) (E := unit) (fun text => Some (mkCommand text GDB_ARG_NONE))
      (mkPacket GDB_KIND_PACKET (Some [109; 49; 44; 48; 42; 39]) csum) tt = (Ret None, tt).
Proof.
  destruct (gdb_packet_roundtrip (S := unit) (E := unit) (fun text => Some (mkCommand text GDB_ARG_NONE))
    (109 :: 48 :: 44 :: replicate 11 48) [(109, 0%nat); (48, 0%nat); (44, 0%nat); (48, 10%nat)] tt)
    as (csum & Hs & _ & Hp & Hc & _).
  - repeat constructor; cbn [fst snd]; unfold GDB_RUNLEN_CHAR; lia.
  - by vm_compute.
  - by vm_compute.
  - exists csum. split; [exact Hs | split; [exact Hp |]].
    apply (Hc [109] 48 [44; 48; 42; 39] 49); [by vm_compute | unfold ascii; lia | lia].
Defined.

(** A character outside of ASCII fails an assertion, though its check sum is right. *)
Example high_character : gdb_is_valid (S := unit) (E := unit) (mkPacket GDB_KIND_PACKET (Some [-1]) [102; 102]) tt
  = (Fatal AssertFailed, tt).
Proof. by vm_compute. Qed.
