(* ===== verification/Gdb.v ===== *)
(** * The debugger's server

    Models core/common/debug_memory.* (struct DebugMemoryInterface),
    core/common/gdb-mc: register_format.* (RegisterFormater), handler.cpp and
    gdb_server.* (GDBServer).  The harts are values of the type [H] with the
    operations of struct debug_target_if (debug.h).  The sockets of the host, the
    debug socket of the memory interface and the runs of the harts, which other
    SystemC processes (gdb_runner.cpp) make, are operations of the class [gdb_system];
    GdbSched.v defines them by these processes. *)

From stdpp Require Import strings.
From S2P Require Import Prelude Instr Memory Bus Trap Mmu GdbPacket.

(** ** Debug transactions *)

(** transport_dbg gives the number of bytes that are read or written. *)
Abbreviation transport_dbg_fn S E := (tlm_generic_payload -> M S E (tlm_generic_payload * Z)).

(** SimpleBus::transport_dbg: as transport, without delay. *)
Definition bus_transport_dbg {S E} (ports : list PortMapping) (isocks : list (transport_dbg_fn S E)) : transport_dbg_fn S E :=
  fun trans =>
  match decode ports (address trans) with
  | None => mret (set_response_status TLM_ADDRESS_ERROR_RESPONSE trans, 0)
  | Some id =>
      match ports !! id, isocks !! id with
      | Some port, Some isock => isock (set_address (global_to_local port (address trans)) trans)
      | _, _ => fatal UndefinedBehaviour
      end
  end.

(** ** Text *)

(** strtol with base 16: white space, a sign, the prefix 0x and the digits. *)
Definition is_space (c : Z) : bool := (c =? 32) || (9 <=? c) && (c <=? 13).
Fixpoint skip_space (l : list Z) : list Z :=
  match l with c :: l' => if is_space c then skip_space l' else l | [] => [] end.
Definition skip_0x (l : list Z) : list Z :=
  match l with
  | 48 :: x :: d :: l' => if ((x =? 120) || (x =? 88)) && bool_decide (is_Some (hex_value d)) then d :: l' else l
  | _ => l
  end.
Definition strtol16 (l : list Z) : Z :=
  match skip_space l with
  | 45 :: l' => - strtol_digits 0 (skip_0x l')
  | 43 :: l' => strtol_digits 0 (skip_0x l')
  | l' => strtol_digits 0 (skip_0x l')
  end.

(** std::to_string of a number below 10 ^ fuel. *)
Fixpoint to_string_fuel (fuel : nat) (v : Z) : list Z :=
  match fuel with
  | O => []
  | Datatypes.S n => if v <? 10 then [48 + v] else to_string_fuel n (v / 10) ++ [48 + v mod 10]
  end.
Definition to_string (v : Z) : list Z := to_string_fuel 20 v.

(** A string literal. *)
Definition lit (s : String.string) : list Z := map (fun c => Z.of_N (Ascii.N_of_ascii c)) (String.list_ascii_of_string s).
Arguments lit s%_string.

(** ** RegisterFormater *)

Definition bswap_32 (v : Z) : Z := le_value (rev (le_bytes 4 v)).
Definition bswap_64 (v : Z) : Z := le_value (rev (le_bytes 8 v)).

Definition formatRegister {S E} (arch : Architecture) (value : Z) : M S E (list Z) :=
  match arch with
  | RV32 => mret (hex_print 8 (bswap_32 value))
  | RV64 => mret (hex_print 16 (bswap_64 value))
  | RV128 => fatal InvalidArgument
  end.

(** ** State *)

(** [mmu] and the events of a hart are found through the hart; [prevpkt] is the last
    packet that has been sent. *)
Record GDBServer (H : Type) : Type := mkGDBServer {
  single_run : bool;
  arch : Architecture;
  harts : list H;
  thread_ops : gmap Z Z;
  prevpkt : option (list Z)
}.
Arguments mkGDBServer {H}.
Arguments single_run {H}.
Arguments arch {H}.
Arguments harts {H}.
Arguments thread_ops {H}.
Arguments prevpkt {H}.

Definition set_single_run {H} (b : bool) (g : GDBServer H) : GDBServer H :=
  mkGDBServer b (arch g) (harts g) (thread_ops g) (prevpkt g).
Definition set_thread_op {H} (op tid : Z) (g : GDBServer H) : GDBServer H :=
  mkGDBServer (single_run g) (arch g) (harts g) (<[op := tid]> (thread_ops g)) (prevpkt g).
Definition set_prevpkt {H} (p : option (list Z)) (g : GDBServer H) : GDBServer H :=
  mkGDBServer (single_run g) (arch g) (harts g) (thread_ops g) p.

(** The operations of a hart, of the memory and of the host.  [sock_write] tells
    whether all bytes have been written; [run_event_notify] and the two waits give
    the harts' processes the time they need. *)
Class gdb_system (S E H : Type) : Type := {
  get_gdb : S -> GDBServer H;
  set_gdb : GDBServer H -> S -> S;
  gdb_isock : transport_dbg_fn S E;
  mmu_v2p : H -> option (Z -> MemoryAccessType -> M S E Z);
  sock_write : list Z -> M S E bool;
  hart_get_status : H -> M S E CoreExecStatus;
  hart_set_status : H -> CoreExecStatus -> M S E unit;
  hart_insert_breakpoint : H -> Z -> M S E unit;
  hart_remove_breakpoint : H -> Z -> M S E unit;
  hart_id : H -> M S E Z;
  hart_pc : H -> M S E Z;
  hart_registers : H -> M S E (list Z);
  hart_read_register : H -> Z -> M S E Z;
  run_event_notify : H -> M S E unit;
  wait_any : list H -> M S E unit;
  wait_stop : H -> M S E unit
}.

Section server.
Context {S E H : Type} `{EqDecision H} `{gdb_system S E H}.

Abbreviation R := (M S E).

(** A handler of a standard exception. *)
Definition catch_failure {A} (f : failure) (m : R A) (h : R A) : R A := fun s =>
  match m s with
  | (Fatal f', s') => if decide (f' = f) then h s' else (Fatal f', s')
  | r => r
  end.

Definition gdb : R (GDBServer H) := gets get_gdb.
Definition update_gdb (f : GDBServer H -> GDBServer H) : R unit := modify (fun s => set_gdb (f (get_gdb s)) s).

(** ** DebugMemoryInterface *)

Definition _do_dbg_transaction (cmd : tlm_command) (addr : Z) (data : list Z) : R (list Z * Z) :=
  r ← gdb_isock (mkPayload cmd addr data TLM_OK_RESPONSE);
  if is_response_error (fst r) then fatal RuntimeError
  else mret (payload_data (fst r), snd r).

Definition read_memory (start nbytes : Z) : R (list Z) :=
  r ← _do_dbg_transaction TLM_READ_COMMAND start (replicate (Z.to_nat nbytes) 0);
  assert (snd r =? nbytes) ;;
  mret (flat_map (hex_print 2) (fst r)).

(** The loop of write_memory from [i] and [j] on; [fuel] bounds its turns. *)
Fixpoint write_loop (fuel : nat) (i j nbytes : Z) (data buf : list Z) : R (list Z) :=
  match fuel with
  | O => mret buf
  | Datatypes.S fuel =>
      if uint32 (i + 1) <? nbytes then
        match data !! Z.to_nat i, data !! Z.to_nat (i + 1) with
        | Some c0, Some c1 =>
            let num := strtol16 [c0; c1] in
            assert ((0 <=? num) && (num <=? 255)) ;;
            if j <? Z.of_nat (length buf)
            then write_loop fuel (uint32 (i + 2)) (uint32 (j + 1)) nbytes data (<[Z.to_nat j := num]> buf)
            else fatal OutOfRange
        | _, _ => fatal OutOfRange
        end
      else mret buf
  end.

Definition write_memory (start nbytes : Z) (data : list Z) : R unit :=
  let size := (length data / 2)%nat in
  assert (length data mod 2 =? 0)%nat ;;
  assert (Z.of_nat size =? nbytes) ;;
  buf ← write_loop size 0 0 nbytes data (replicate size 0);
  r ← _do_dbg_transaction TLM_WRITE_COMMAND start buf;
  assert (snd r =? nbytes).

(** ** Packets and threads *)

Definition send_packet (data : option (list Z)) (kind : gdb_kind_t) : R unit :=
  serialized ← gdb_serialize kind data;
  written ← sock_write serialized;
  when (written && bool_decide (kind = GDB_KIND_PACKET)) (update_gdb (set_prevpkt (Some serialized))).
Definition send (data : list Z) : R unit := send_packet (Some data) GDB_KIND_PACKET.

Definition retransmit : R unit :=
  g ← gdb;
  match prevpkt g with None => skip | Some p => sock_write p ;; skip end.

Definition get_threads (id : Z) : R (list H) :=
  g ← gdb;
  let id := if id =? GDB_THREAD_ANY then 1 else id in
  if id =? GDB_THREAD_ALL then mret (harts g)
  else if id <? 1 then fatal OutOfRange
  else match harts g !! Z.to_nat (id - 1) with Some hart => mret [hart] | None => fatal OutOfRange end.

Definition translate_addr (hart : H) (addr : Z) (type : MemoryAccessType) : R Z :=
  match mmu_v2p hart with None => mret addr | Some v2p => v2p addr type end.

(** The function of a thread yields text, which is collected. *)
Fixpoint for_threads (threads : list H) (fn : H -> R (list Z)) : R (list Z) :=
  match threads with [] => mret [] | h :: hs => t ← fn h; ts ← for_threads hs fn; mret (t ++ ts) end.

Definition exec_thread (fn : H -> R (list Z)) (op : Z) : R (list Z) :=
  g ← gdb;
  let thread := default GDB_THREAD_ANY (thread_ops g !! op) in
  threads ← get_threads thread;
  for_threads threads fn.

Definition op_g : Z := 103.

Fixpoint stop_harts (hs : list H) : R (list CoreExecStatus) :=
  match hs with
  | [] => mret []
  | hart :: hs =>
      status ← hart_get_status hart;
      when (bool_decide (status = Runnable)) (hart_set_status hart HitBreakpoint ;; wait_stop hart) ;;
      rest ← stop_harts hs;
      mret (status :: rest)
  end.

Definition run_threads (hartsrun : list H) (single : bool) : R (list H) :=
  match hartsrun with
  | [] => mret hartsrun
  | _ =>
      update_gdb (set_single_run single) ;;
      for_each hartsrun run_event_notify ;;
      wait_any hartsrun ;;
      orig_status ← stop_harts hartsrun;
      for_each (combine hartsrun orig_status) (fun p => hart_set_status (fst p) (snd p)) ;;
      mret hartsrun
  end.

(** ** The handlers *)

Definition E01 : list Z := lit "E01".
Definition OK : list Z := lit "OK".

Definition haltReason : R unit := send (lit "S05").

Definition getRegisters : R unit :=
  g ← gdb;
  t ← exec_thread (fun hart =>
    vs ← hart_registers hart;
    ts ← mapM (formatRegister (arch g)) vs; mret (concat ts)) op_g;
  send t.

Definition setThread (hcmd : gdb_cmd_h_t) : R unit :=
  update_gdb (set_thread_op (h_op hcmd) (tid (h_id hcmd))) ;; send OK.

Definition readMemory (mem : gdb_memory_t) : R unit :=
  assert (mem_length mem <=? 2 ^ 32 - 1) ;;
  r ← catch_failure RuntimeError
    (t ← exec_thread (fun hart =>
      addr ← translate_addr hart (mem_addr mem) LOAD;
      read_memory addr (mem_length mem)) op_g; mret (Some t))
    (mret None);
  send (default E01 r).

Definition writeMemory (mem : gdb_memory_write_t) : R unit :=
  let loc := location mem in
  assert (mem_length loc <=? 2 ^ 32 - 1) ;;
  r ← catch_failure RuntimeError
    (exec_thread (fun hart =>
      addr ← translate_addr hart (mem_addr loc) STORE;
      write_memory addr (mem_length loc) (memw_data mem) ;; mret []) op_g ;; mret OK)
    (mret E01);
  send r.

Definition GDB_PC_REG : Z := 32.

Definition readRegister (reg : Z) : R unit :=
  g ← gdb;
  r ← catch_failure OutOfRange
    (t ← exec_thread (fun hart =>
      regval ← (if reg =? GDB_PC_REG then hart_pc hart else hart_read_register hart (uint32 reg));
      formatRegister (arch g) regval) op_g; mret (Some t))
    (mret None);
  send (default E01 r).

(** The list of the threads that are left, with their number [n] of all. *)
Fixpoint thread_list (i n : nat) (hs : list H) : R (list Z) :=
  match hs with
  | [] => mret []
  | hart :: hs =>
      status ← hart_get_status hart;
      t ← (if bool_decide (status = Terminated) then mret []
           else id ← hart_id hart;
                mret (to_string (uint64 (id + 1)) ++ (if (i + 1 <? n)%nat then lit "," else [])));
      rest ← thread_list (i + 1) n hs;
      mret (t ++ rest)
  end.

Definition threadInfo : R unit := g ← gdb; t ← thread_list 0 (length (harts g)) (harts g); send (lit "m" ++ t).
Definition threadInfoEnd : R unit := send (lit "l").
Definition qAttached : R unit := send (lit "0").
Definition GDB_PKTSIZ : Z := 4096.
Definition qSupported : R unit := send (lit "vContSupported+;PacketSize=" ++ to_string GDB_PKTSIZ).

Definition isAlive (thr : gdb_thread_t) : R unit :=
  r ← catch_failure OutOfRange (get_threads (tid thr) ;; mret OK) (mret E01); send r.

(** What vCont has found so far: the harts that are matched, and the reason and the
    thread of the last stop. *)
Record vcont_state : Type := mkVcontState { matched : list H; stop_reason : option (list Z); stopped_thread : Z }.

Fixpoint stop_reasons (hs : list H) (v : vcont_state) : R vcont_state :=
  match hs with
  | [] => mret v
  | hart :: hs =>
      status ← hart_get_status hart;
      v ← match status with
          | HitBreakpoint =>
              id ← hart_id hart; hart_set_status hart Runnable ;;
              mret (mkVcontState (matched v) (Some (lit "05")) (int32 (id + 1)))
          | Terminated => id ← hart_id hart; mret (mkVcontState (matched v) (Some (lit "03")) (int32 (id + 1)))
          | Runnable => mret v
          end;
      stop_reasons hs v
  end.

(** The actions in their order; [None] when the command has been answered. *)
Fixpoint vcont_actions (l : list gdb_vcont_t) (v : vcont_state) : R (option vcont_state) :=
  match l with
  | [] => mret (Some v)
  | vcont :: l =>
      single ← (if vc_action vcont =? 115 then mret true
                else if vc_action vcont =? 99 then mret false else fatal InvalidArgument);
      selected ← catch_failure OutOfRange
        (run ← get_threads (tid (vc_thread vcont));
         hs ← run_threads (List.filter (fun hart => negb (bool_decide (hart ∈ matched v))) run) single; mret (Some hs))
        (mret None);
      match selected with
      | None => send E01 ;; mret None
      | Some hs =>
          v ← stop_reasons hs v;
          v ← (if 0 <? tid (vc_thread vcont) then
                 threads ← get_threads (tid (vc_thread vcont));
                 assert (length threads =? 1)%nat ;;
                 mret (mkVcontState (threads ++ matched v) (stop_reason v) (stopped_thread v))
               else mret v);
          vcont_actions l v
      end
  end.

Definition vCont (l : list gdb_vcont_t) : R unit :=
  r ← vcont_actions l (mkVcontState [] None (-1));
  match r with
  | None => skip
  | Some v =>
      match stop_reason v with
      | None => fatal AssertFailed
      | Some reason =>
          assert (1 <=? stopped_thread v) ;;
          update_gdb (set_thread_op op_g (stopped_thread v)) ;;
          send (lit "T" ++ reason ++ lit "thread:" ++ to_string (stopped_thread v) ++ lit ";")
      end
  end.

Definition vContSupported : R unit := send (lit "vCont;c;C").

Definition removeBreakpoint (bpoint : gdb_breakpoint_t) : R unit :=
  if negb (bool_decide (bp_type bpoint = GDB_ZKIND_SOFT)) then send []
  else g ← gdb; for_each (harts g) (fun hart => hart_remove_breakpoint hart (bp_address bpoint)) ;; send OK.

Definition setBreakpoint (bpoint : gdb_breakpoint_t) : R unit :=
  if negb (bool_decide (bp_type bpoint = GDB_ZKIND_SOFT)) then send []
  else g ← gdb; for_each (harts g) (fun hart => hart_insert_breakpoint hart (bp_address bpoint)) ;; send OK.

(** exit(EXIT_SUCCESS) ends the process. *)
Definition killServer : R unit := fatal RuntimeError.

(** [handlers], applied to the name and the argument of a command.  A handler reads
    its part of the union whatever the parser has stored there: another part is not
    initialised. *)
Definition handler (cmd : gdb_command_t) : option (R unit) :=
  let name := cmd_name cmd in let arg := cmd_arg cmd in
  let undefined : R unit := fatal UndefinedBehaviour in
  if bool_decide (name = lit "?") then Some haltReason
  else if bool_decide (name = lit "g") then Some getRegisters
  else if bool_decide (name = lit "H") then Some match arg with GDB_ARG_H h => setThread h | _ => undefined end
  else if bool_decide (name = lit "k") then Some killServer
  else if bool_decide (name = lit "m") then Some match arg with GDB_ARG_MEMORY m => readMemory m | _ => undefined end
  else if bool_decide (name = lit "M") then Some match arg with GDB_ARG_MEMORYW m => writeMemory m | _ => undefined end
  else if bool_decide (name = lit "p") then Some match arg with GDB_ARG_INT i => readRegister i | _ => undefined end
  else if bool_decide (name = lit "qAttached") then Some qAttached
  else if bool_decide (name = lit "qSupported") then Some qSupported
  else if bool_decide (name = lit "qfThreadInfo") then Some threadInfo
  else if bool_decide (name = lit "qsThreadInfo") then Some threadInfoEnd
  else if bool_decide (name = lit "T") then Some match arg with GDB_ARG_THREAD t => isAlive t | _ => undefined end
  else if bool_decide (name = lit "vCont") then Some match arg with GDB_ARG_VCONT l => vCont l | _ => undefined end
  else if bool_decide (name = lit "vCont?") then Some vContSupported
  else if bool_decide (name = lit "z") then Some match arg with GDB_ARG_BREAK b => removeBreakpoint b | _ => undefined end
  else if bool_decide (name = lit "Z") then Some match arg with GDB_ARG_BREAK b => setBreakpoint b | _ => undefined end
  else None.

(** One turn of the loop of GDBServer::run. *)
Definition run_packet (mpc_parse : list Z -> option gdb_command_t) (pkt : gdb_packet_t) : R unit :=
  match pkt_kind pkt with
  | GDB_KIND_NACK => retransmit
  | GDB_KIND_ACK => skip
  | _ =>
      cmd ← gdb_parse_cmd mpc_parse pkt;
      match cmd with
      | None => send_packet None GDB_KIND_NACK
      | Some cmd =>
          send_packet None GDB_KIND_ACK ;;
          match handler cmd with None => send [] | Some h => h end
      end
  end.

(** The packets of a connection: the mutex that dispatch locks and run unlocks lets
    one packet be in the queue, and at the end serve forgets the last answer. *)
Definition dispatch (mpc_parse : list Z -> option gdb_command_t) (pkts : list gdb_packet_t) : R unit :=
  for_each pkts (run_packet mpc_parse) ;; update_gdb (set_prevpkt None).

End server.
