(* ===== verification/GdbMem.v ===== *)
(** * Memory and registers as a debugger sees them

    What the server of Gdb.v answers to the commands that read and write memory and
    registers. *)

From stdpp Require Import strings.
From S2P Require Import Prelude Instr Memory Bus Trap Mmu GdbPacket Gdb.

(** ** Numbers as text *)

Lemma length_hex_digits n v : length (hex_digits n v) = n.
Proof. unfold hex_digits. by rewrite length_map, length_rev, length_seq. Qed.

(** The last two digits are those of the low byte. *)
Lemma hex_digits_byte n b hi : 0 <= b < 256 -> 0 <= hi ->
  hex_digits (2 + n) (b + 256 * hi) = hex_digits n hi ++ hex_digits 2 b.
Proof.
  intros Hb Hh. unfold hex_digits. rewrite seq_app, rev_app_distr, map_app. cbn [Nat.add].
  assert (Hsh : forall i, 0 <= i -> ((b + 256 * hi) .>> (8 + i)) = (hi .>> i)).
  { intros i Hi. rewrite <- Z.shiftr_shiftr by done. f_equal. rewrite Z.shiftr_div_pow2 by lia.
    change (2 ^ 8) with 256. rewrite Z.mul_comm, Z.div_add by lia. rewrite Z.div_small by lia. lia. }
  assert (Hlo : forall i, 0 <= i <= 4 -> ((b + 256 * hi) .>> i) .& 15 = (b .>> i) .& 15).
  { intros i Hi. change 15 with (Z.ones 4). rewrite !Z.land_ones, !Z.shiftr_div_pow2 by lia.
    replace 256 with (2 ^ (4 - i) * 2 ^ 4 * 2 ^ i).
    - rewrite (Z.add_comm b), (Z.mul_comm _ hi), Z.mul_assoc, Z.div_add_l by (apply Z.pow_nonzero; lia).
      rewrite Z.mul_assoc, Z.add_comm. apply Z.mod_add. done.
    - rewrite <- !Z.pow_add_r by lia. by replace (4 - i + 4 + i) with 8 by lia. }
  f_equal.
  - rewrite <- (seq_shift n 1), <- (seq_shift n 0), map_map, <- !map_rev, !map_map. apply map_ext. intros i. f_equal. f_equal.
    replace (4 * Z.of_nat (Datatypes.S (Datatypes.S i))) with (8 + 4 * Z.of_nat i) by lia. apply Hsh. lia.
  - cbn [seq rev app map]. rewrite !Hlo by lia. done.
Qed.

Lemma hex_digits_bytes l : Forall byte_ok l ->
  hex_digits (2 * length l) (le_value l) = flat_map (hex_digits 2) (rev l).
Proof.
  induction 1 as [| b l Hb Hl IH]; [done |]. cbn [length le_value rev].
  replace (2 * Datatypes.S (length l))%nat with (2 + 2 * length l)%nat by lia.
  rewrite hex_digits_byte, IH, flat_map_app; [cbn [flat_map]; by rewrite app_nil_r | done |].
  by destruct (le_value_range l Hl).
Qed.

Lemma hex_print_exact n v : (0 < n)%nat -> 0 <= v < 2 ^ (4 * Z.of_nat n) -> hex_print n v = hex_digits n v.
Proof.
  intros Hn Hv. unfold hex_print. f_equal. apply Nat.max_l.
  assert (Z.log2 v < 4 * Z.of_nat n).
  { destruct (Z.eq_dec v 0) as [-> | H0]; [change (Z.log2 0) with 0; lia |]. apply Z.log2_lt_pow2; lia. }
  assert (Z.log2 v / 4 < Z.of_nat n) by (apply Z.div_lt_upper_bound; lia).
  pose proof (Z.div_pos (Z.log2 v) 4 (Z.log2_nonneg v)). lia.
Qed.

(** A register is shown as its bytes in the order of memory. *)
Lemma formatRegister_bytes {S E} arch v (s : S) : arch <> RV128 ->
  formatRegister (E := E) arch v s
  = (Ret (flat_map (hex_print 2) (le_bytes (if bool_decide (arch = RV32) then 4 else 8) v)), s).
Proof.
  assert (Hb : forall n, (0 < n)%nat -> hex_print (2 * n) (le_value (rev (le_bytes n v))) = flat_map (hex_print 2) (le_bytes n v)).
  { intros n Hn. pose proof (Forall_rev (le_bytes_ok n v)) as Hok. pose proof (le_value_range _ Hok) as Hr.
    rewrite length_rev, length_le_bytes in Hr. unfold is_uint in Hr.
    rewrite hex_print_exact; [| lia |].
    - pose proof (hex_digits_bytes _ Hok) as Hd. rewrite length_rev, length_le_bytes, rev_involutive in Hd. rewrite Hd.
      clear -v. pose proof (le_bytes_ok n v) as H. induction H as [| b l Hb _ IH]; [done |]. cbn [flat_map]. rewrite IH. f_equal.
      symmetry. apply hex_print_exact; [lia | apply Hb].
    - by replace (4 * Z.of_nat (2 * n)) with (8 * Z.of_nat n) by lia. }
  intros Ha. unfold formatRegister, bswap_32, bswap_64.
  destruct arch; [| | done]; cbn [mret M_ret].
  - change 8%nat with (2 * 4)%nat. rewrite Hb by lia. done.
  - change 16%nat with (2 * 8)%nat. rewrite Hb by lia. done.
Qed.

(** ** Memory as text *)

Definition hex_bytes (bytes : list Z) : list Z := flat_map (hex_print 2) bytes.

Lemma hex_byte_length b : byte_ok b -> length (hex_print 2 b) = 2%nat.
Proof. intros Hb. apply hex_byte, Hb. Qed.

Lemma length_hex_bytes bytes : Forall byte_ok bytes -> length (hex_bytes bytes) = (2 * length bytes)%nat.
Proof.
  unfold hex_bytes. induction 1 as [| b l Hb _ IH]; [done |]. cbn [flat_map length]. rewrite length_app, hex_byte_length, IH by done. lia.
Qed.

Lemma drop_hex_bytes bytes j : Forall byte_ok bytes -> drop (2 * j) (hex_bytes bytes) = hex_bytes (drop j bytes).
Proof.
  intros Hb. revert j. induction Hb as [| b l Hb _ IH]; intros [| j]; try done.
  cbn [drop]. rewrite <- IH. unfold hex_bytes. cbn [flat_map]. rewrite drop_app_ge; rewrite hex_byte_length by done; [| lia].
  f_equal. lia.
Qed.

Lemma strtol16_hex b : byte_ok b -> strtol16 (hex_print 2 b) = b.
Proof.
  intros Hb. cut (forallb (fun v => strtol16 (hex_print 2 v) =? v) (map Z.of_nat (seq 0 256)) = true).
  - rewrite forallb_forall. intros H. apply Z.eqb_eq, H, in_map_iff. exists (Z.to_nat b). rewrite in_seq.
    unfold byte_ok, is_uint in Hb. change (2 ^ 8) with 256 in Hb. lia.
  - by vm_compute.
Qed.

(** What write_memory makes of a text of [n] bytes: it converts the first half, and
    leaves zeros for the rest. *)
Definition written (bytes : list Z) : list Z :=
  take (length bytes / 2) bytes ++ replicate (length bytes - length bytes / 2) 0.

Section memory.
Context {S E H : Type} `{EqDecision H} `{gdb_system S E H}.
#[local] Set Default Proof Using "Type".

Lemma write_loop_half bytes (s : S) : Forall byte_ok bytes -> Z.of_nat (length bytes) < 2 ^ 32 ->
  forall fuel j, (j <= length bytes / 2)%nat -> (length bytes / 2 - j <= fuel)%nat ->
  write_loop (E := E) fuel (2 * Z.of_nat j) (Z.of_nat j) (Z.of_nat (length bytes)) (hex_bytes bytes)
    (take j bytes ++ replicate (length bytes - j) 0) s = (Ret (written bytes), s).
Proof.
  intros Hb Hl. set (n := length bytes) in *. pose proof (Nat.div_mod_eq n 2). pose proof (Nat.mod_upper_bound n 2 ltac:(lia)).
  assert (Hend : forall j, j = (n / 2)%nat -> take j bytes ++ replicate (n - j) 0 = written bytes) by (by intros j ->).
  induction fuel as [| fuel IH]; intros j Hj Hf; cbn [write_loop].
  - by rewrite Hend by lia.
  - assert (Hu : uint32 (2 * Z.of_nat j + 1) = 2 * Z.of_nat j + 1) by (apply uint_id; unfold is_uint; lia). rewrite Hu.
    destruct (Z.ltb_spec (2 * Z.of_nat j + 1) (Z.of_nat n)) as [Hlt | Hge]; [| by rewrite Hend by lia].
    assert (Hjn : (j < n)%nat) by lia. destruct (lookup_lt_is_Some_2 bytes j Hjn) as [b Hbj].
    assert (Hbok : byte_ok b) by (eapply Forall_lookup_1; eauto).
    pose proof (drop_hex_bytes bytes j Hb) as Hd. rewrite (drop_S _ _ _ Hbj) in Hd. unfold hex_bytes at 2 in Hd. cbn [flat_map] in Hd.
    pose proof (hex_byte_length b Hbok) as Hlen. pose proof (strtol16_hex b Hbok) as Hst.
    destruct (hex_print 2 b) as [| c0 [| c1 [| ? ?]]]; try done. cbn [app] in Hd.
    assert (Hc0 : hex_bytes bytes !! (2 * j)%nat = Some c0).
    { rewrite <- (Nat.add_0_r (2 * j)), <- lookup_drop, Hd. done. }
    assert (H1' : hex_bytes bytes !! (2 * j + 1)%nat = Some c1) by (rewrite <- lookup_drop, Hd; done).
    replace (Z.to_nat (2 * Z.of_nat j)) with (2 * j)%nat by lia. rewrite Hc0.
    replace (Z.to_nat (2 * Z.of_nat j + 1)) with (2 * j + 1)%nat by lia. rewrite H1', Hst.
    unfold byte_ok, is_uint in Hbok. change (2 ^ 8) with 256 in Hbok.
    assert (((0 <=? b) && (b <=? 255)) = true) as -> by (apply andb_true_intro; split; apply Z.leb_le; lia).
    unfold mbind, M_bind. cbn [assert skip mret M_ret].
    assert (Hbl : length (take j bytes ++ replicate (n - j) 0) = n).
    { rewrite length_app, length_take, length_replicate. unfold n in *. lia. }
    rewrite Hbl. destruct (Z.ltb_spec (Z.of_nat j) (Z.of_nat n)) as [_ |]; [| lia].
    assert (uint32 (2 * Z.of_nat j + 2) = 2 * Z.of_nat (Datatypes.S j)) as -> by (unfold uint32; rewrite uint_id; unfold is_uint; lia).
    assert (uint32 (Z.of_nat j + 1) = Z.of_nat (Datatypes.S j)) as -> by (unfold uint32; rewrite uint_id; unfold is_uint; lia).
    rewrite Nat2Z.id. assert (Hins : <[j := b]> (take j bytes ++ replicate (n - j) 0)
      = take (Datatypes.S j) bytes ++ replicate (n - Datatypes.S j) 0).
    { rewrite (take_S_r _ _ _ Hbj). replace (n - j)%nat with (Datatypes.S (n - Datatypes.S j)) by lia. cbn [replicate].
      rewrite <- app_assoc. cbn [app]. assert (Hlt' : length (take j bytes) = j) by (rewrite length_take; unfold n in *; lia).
      rewrite <- Hlt' at 1. rewrite <- (Nat.add_0_r (length (take j bytes))), insert_app_r. done. }
    rewrite Hins. apply IH; lia.
Qed.

Lemma write_memory_half start bytes (s : S) : Forall byte_ok bytes -> Z.of_nat (length bytes) < 2 ^ 32 ->
  write_memory (E := E) start (Z.of_nat (length bytes)) (hex_bytes bytes) s
  = (r ← _do_dbg_transaction TLM_WRITE_COMMAND start (written bytes);
     assert (snd r =? Z.of_nat (length bytes))) s.
Proof.
  intros Hb Hl. unfold write_memory. rewrite length_hex_bytes by done. set (n := length bytes) in *.
  rewrite (Nat.mul_comm 2 n), Nat.div_mul, Nat.Div0.mod_mul by done. rewrite Z.eqb_refl.
  unfold mbind at 1, M_bind at 1. cbn [assert skip mret M_ret Nat.eqb]. unfold mbind at 1, M_bind at 1. cbn [skip mret M_ret].
  assert (Hh : (n / 2 <= n)%nat) by (pose proof (Nat.div_mod_eq n 2); lia).
  pose proof (write_loop_half bytes s Hb Hl n 0 ltac:(lia) ltac:(unfold n in *; lia)) as Hw. fold n in Hw. rewrite Nat.sub_0_r in Hw.
  unfold mbind at 1, M_bind at 1. change (take 0 bytes ++ replicate n 0) with (replicate n 0) in Hw.
  change (2 * Z.of_nat 0) with 0 in Hw. change (Z.of_nat 0) with 0 in Hw.
  by rewrite Hw.
Qed.
End memory.

(** ** The commands *)

(** What the server relies on behind the debug socket: in the states [dbg_ok], a
    memory of the bytes [dbg_bytes] from the address [dbg_base] on. *)
Class dbg_memory (S E H : Type) `{gdb_system S E H} : Type := {
  dbg_ok : S -> Prop;
  dbg_base : Z;
  dbg_bytes : S -> list Z;
  set_dbg_bytes : list Z -> S -> S;
  dbg_read off data s : dbg_ok s -> (off + length data <= length (dbg_bytes s))%nat -> (0 < length data)%nat ->
    exists t, gdb_isock (E := E) (mkPayload TLM_READ_COMMAND (dbg_base + Z.of_nat off) data TLM_OK_RESPONSE) s
      = (Ret (t, Z.of_nat (length data)), s) /\
      payload_data t = take (length data) (drop off (dbg_bytes s)) /\ response_status t = TLM_OK_RESPONSE;
  dbg_write off data s : dbg_ok s -> (off + length data <= length (dbg_bytes s))%nat -> (0 < length data)%nat ->
    exists t, gdb_isock (E := E) (mkPayload TLM_WRITE_COMMAND (dbg_base + Z.of_nat off) data TLM_OK_RESPONSE) s
      = (Ret (t, Z.of_nat (length data)), set_dbg_bytes (list_inserts off data (dbg_bytes s)) s) /\
      response_status t = TLM_OK_RESPONSE;
  dbg_unmapped cmd addr data s : dbg_ok s -> addr < dbg_base \/ dbg_base + Z.of_nat (length (dbg_bytes s)) <= addr ->
    exists t, gdb_isock (E := E) (mkPayload cmd addr data TLM_OK_RESPONSE) s = (Ret (t, 0), s) /\
      response_status t = TLM_ADDRESS_ERROR_RESPONSE
}.

Section commands.
Context {S E H : Type} `{EqDecision H} `{dbg_memory S E H}.
#[local] Set Default Proof Using "Type".

(** The hart whose memory and registers the commands mean. *)
Definition current (hart : H) (s : S) : Prop :=
  get_threads (E := E) (default GDB_THREAD_ANY (thread_ops (get_gdb s) !! op_g)) s = (Ret [hart], s).

Lemma exec_current hart fn (s : S) : current hart s ->
  exec_thread (E := E) fn op_g s = (t ← fn hart; mret (t ++ [])) s.
Proof. intros Hc. unfold exec_thread, gdb, gets. unfold mbind at 1 2, M_bind at 1 2. rewrite Hc. reflexivity. Qed.

Lemma transaction_ok cmd addr data (s s' : S) t k :
  gdb_isock (E := E) (mkPayload cmd addr data TLM_OK_RESPONSE) s = (Ret (t, k), s') -> response_status t = TLM_OK_RESPONSE ->
  _do_dbg_transaction (E := E) cmd addr data s = (Ret (payload_data t, k), s').
Proof.
  intros Ht Hr. unfold _do_dbg_transaction, mbind, M_bind. rewrite Ht. cbn [fst snd]. unfold is_response_error. by rewrite Hr.
Qed.

Lemma read_memory_text off n (s : S) : dbg_ok s -> (off + n <= length (dbg_bytes s))%nat -> (0 < n)%nat ->
  read_memory (E := E) (dbg_base + Z.of_nat off) (Z.of_nat n) s = (Ret (hex_bytes (take n (drop off (dbg_bytes s)))), s).
Proof.
  intros Hok Hn Hpos. destruct (dbg_read off (replicate n 0) s) as (t & Ht & Hd & Hr); rewrite ?length_replicate; try done.
  rewrite length_replicate in *. unfold read_memory. rewrite Nat2Z.id. unfold mbind, M_bind.
  rewrite (transaction_ok _ _ _ _ _ _ _ Ht Hr). cbn [fst snd]. rewrite Z.eqb_refl, Hd. done.
Qed.

Lemma unmapped_fails cmd addr data (s : S) : dbg_ok s -> addr < dbg_base \/ dbg_base + Z.of_nat (length (dbg_bytes s)) <= addr ->
  _do_dbg_transaction (E := E) cmd addr data s = (Fatal RuntimeError, s).
Proof.
  intros Hok Ha. destruct (dbg_unmapped cmd addr data s Hok Ha) as (t & Ht & Hr). unfold _do_dbg_transaction, mbind, M_bind.
  rewrite Ht. cbn [fst snd]. unfold is_response_error. by rewrite Hr.
Qed.

(** C37: the commands that read and write memory, for the current hart and an address
    that its MMU translates.  A read answers with two digits for every byte of
    memory.  A write of [n] bytes answers OK, but stores only the first half of them
    ([n / 2]) and zeros for the others.  An address without a target is answered with an
    error, and memory stays; an exception of the MMU is not handled. *)
Theorem gdb_memory_access (s s1 : S) hart addr pa off bytes :
  current hart s -> dbg_ok s1 -> (0 < length bytes)%nat -> Forall byte_ok bytes -> Z.of_nat (length bytes) < 2 ^ 32 ->
  let n := Z.of_nat (length bytes) in
  let read := readMemory (E := E) (mkMemory addr n) in
  let write := writeMemory (E := E) (mkMemoryWrite (mkMemory addr n) (hex_bytes bytes)) in
  let inside := pa = dbg_base + Z.of_nat off /\ (off + length bytes <= length (dbg_bytes s1))%nat in
  let outside := pa < dbg_base \/ dbg_base + Z.of_nat (length (dbg_bytes s1)) <= pa in
  (translate_addr hart addr LOAD s = (Ret pa, s1) ->
   (inside -> read s = send (hex_bytes (take (length bytes) (drop off (dbg_bytes s1)))) s1) /\
   (outside -> read s = send E01 s1)) /\
  (translate_addr hart addr STORE s = (Ret pa, s1) ->
   (inside -> write s = send OK (set_dbg_bytes (list_inserts off (written bytes) (dbg_bytes s1)) s1)) /\
   (outside -> write s = send E01 s1)) /\
  (forall e, (translate_addr hart addr LOAD s = (Throw e, s1) -> read s = (Throw e, s1)) /\
   (translate_addr hart addr STORE s = (Throw e, s1) -> write s = (Throw e, s1))).
Proof.
  intros Hc Hok Hpos Hb Hl n read write inside outside.
  assert (Hn : (n <=? 2 ^ 32 - 1) = true) by (apply Z.leb_le; lia).
  subst read write n inside outside. unfold readMemory, writeMemory, catch_failure. cbn [location memw_data mem_length mem_addr]. rewrite Hn.
  cbn [assert]. unfold mbind, M_bind. cbn [skip mret M_ret]. rewrite !(exec_current hart) by done. split; [| split].
  - intros Htr. unfold mbind, M_bind. rewrite Htr. split; [intros [-> Hin] | intros Hin].
    + rewrite read_memory_text by done. cbn [mret M_ret default]. by rewrite app_nil_r.
    + unfold read_memory, mbind, M_bind. rewrite unmapped_fails by done. by rewrite decide_True.
  - intros Htr. unfold mbind, M_bind. rewrite Htr. rewrite write_memory_half by done. split; [intros [-> Hin] | intros Hin].
    + destruct (dbg_write off (written bytes) s1 Hok) as (t & Ht & Hr).
      1, 2: unfold written; rewrite length_app, length_take, length_replicate; pose proof (Nat.div_mod_eq (length bytes) 2); lia.
      assert (Hw : length (written bytes) = length bytes).
      { unfold written. rewrite length_app, length_take, length_replicate. pose proof (Nat.div_mod_eq (length bytes) 2). lia. }
      unfold mbind, M_bind. rewrite (transaction_ok _ _ _ _ _ _ _ Ht Hr), Hw. cbn [fst snd]. by rewrite Z.eqb_refl.
    + unfold mbind, M_bind. rewrite unmapped_fails by done. by rewrite decide_True.
  - intros e. split; intros Htr; unfold mbind, M_bind; by rewrite Htr.
Qed.
End commands.

(** ** A bench: a memory behind a bus *)

Record gdb_bench : Type := mkGdbBench { gb_gdb : GDBServer nat; gb_heap : heap; gb_out : list Z }.

Definition bench_memory : SimpleMemory.t := SimpleMemory.mk 0%nat 8 false.

(** The bus with the memory at 0x1000. *)
Definition bench_isock : transport_dbg_fn gdb_bench unit := fun trans s =>
  let '(r, h) := bus_transport_dbg [mkPortMapping 0x1000 0x1007] [SimpleMemory.transport_dbg bench_memory] trans (gb_heap s) in
  (r, mkGdbBench (gb_gdb s) h (gb_out s)).

#[export] Instance gdb_bench_system : gdb_system gdb_bench unit nat := {
  get_gdb := gb_gdb;
  set_gdb g s := mkGdbBench g (gb_heap s) (gb_out s);
  gdb_isock := bench_isock;
  mmu_v2p _ := None;
  sock_write data s := (Ret true, mkGdbBench (gb_gdb s) (gb_heap s) (gb_out s ++ data));
  hart_get_status _ := mret Runnable;
  hart_set_status _ _ := skip;
  hart_insert_breakpoint _ _ := skip;
  hart_remove_breakpoint _ _ := skip;
  hart_id h := mret (Z.of_nat h);
  hart_pc _ := mret 0x80000000;
  hart_registers _ := mret (replicate 32 0);
  hart_read_register _ r := if 31 <? r then fatal OutOfRange else mret r;
  run_event_notify _ := skip;
  wait_any _ := skip;
  wait_stop _ := skip
}.

Lemma transport_dbg_length {E} m trans (h h' : heap) r :
  SimpleMemory.transport_dbg (E := E) m trans h = (Ret r, h') -> snd r = data_length trans.
Proof.
  unfold SimpleMemory.transport_dbg, mbind, M_bind. destruct (assert (E := E) _ h) as [[[]|e|f] h1]; [| done | done].
  destruct (command trans); [| | done].
  - destruct (SimpleMemory.read_data m _ _ h1) as [[d|e|f] h2]; [| done | done]. by intros [= <- _].
  - destruct (SimpleMemory.write_data m _ _ h1) as [[d|e|f] h2]; [| done | done]. by intros [= <- _].
Qed.

Lemma transport_dbg_in_bounds {E} (h : heap) m trans : memory_in h m -> command trans <> TLM_IGNORE_COMMAND ->
  0 < data_length trans -> uint32 (address trans) + data_length trans <= SimpleMemory.size m -> SimpleMemory.size m < 2 ^ 32 ->
  SimpleMemory.transport_dbg (E := E) m trans h
  = (Ret (fst (memory_access h m trans), data_length trans), snd (memory_access h m trans)).
Proof.
  intros Hm Hc Hl Hin Hs. pose proof (transport_in_bounds (E := E) h m trans 0 Hm Hc Hl Hin Hs) as Ht.
  unfold SimpleMemory.transport, mbind, M_bind in Ht.
  destruct (SimpleMemory.transport_dbg m trans h) as [[r|e|f] h1] eqn:Hd; [| done | done].
  injection Ht as H1 H2. rewrite <- H1, <- H2, <- (transport_dbg_length _ _ _ _ _ Hd). by destruct r.
Qed.

Lemma bench_access cmd off data s : memory_in (gb_heap s) bench_memory ->
  (off + length data <= length (array (gb_heap s) 0%nat))%nat -> (0 < length data)%nat -> cmd <> TLM_IGNORE_COMMAND ->
  let trans := mkPayload cmd (Z.of_nat off) data TLM_OK_RESPONSE in
  bench_isock (mkPayload cmd (0x1000 + Z.of_nat off) data TLM_OK_RESPONSE) s
  = (Ret (fst (memory_access (gb_heap s) bench_memory trans), Z.of_nat (length data)),
     mkGdbBench (gb_gdb s) (snd (memory_access (gb_heap s) bench_memory trans)) (gb_out s)).
Proof.
  intros Hm Hin Hl Hc trans. pose proof (proj2 Hm) as Hsize. cbn [SimpleMemory.data SimpleMemory.size bench_memory] in Hsize.
  unfold bench_isock, bus_transport_dbg. cbn [address decode].
  assert (port_contains (mkPortMapping 0x1000 0x1007) (0x1000 + Z.of_nat off) = true) as ->.
  { apply port_contains_spec. cbn [port_start port_end]. lia. }
  cbn [lookup list_lookup]. unfold set_address, global_to_local. cbn [command payload_data response_status port_start].
  assert (uint64 (4096 + Z.of_nat off - 4096) = Z.of_nat off) as ->.
  { unfold uint64. rewrite uint_id; unfold is_uint; lia. }
  fold trans. rewrite transport_dbg_in_bounds; [done | done | done | unfold data_length; cbn; lia | | by cbn].
  unfold data_length. cbn [trans address payload_data SimpleMemory.size bench_memory].
  assert (uint32 (Z.of_nat off) = Z.of_nat off) as -> by (unfold uint32; apply uint_id; unfold is_uint; lia). lia.
Qed.

#[export] Instance gdb_bench_memory : dbg_memory gdb_bench unit nat.
Proof.
  refine {| dbg_ok s := memory_in (gb_heap s) bench_memory; dbg_base := 0x1000;
            dbg_bytes s := array (gb_heap s) 0%nat;
            set_dbg_bytes m s := mkGdbBench (gb_gdb s) (<[0%nat := m]> (gb_heap s)) (gb_out s) |}.
  - intros off data s Hm Hin Hl. pose proof (proj2 Hm) as Hsize. cbn [SimpleMemory.data SimpleMemory.size bench_memory] in Hsize.
    eexists. cbn [gdb_isock gdb_bench_system]. rewrite bench_access by done. split; [by destruct s |].
    unfold memory_access, peek, data_length. cbn [command address payload_data fst set_payload_data response_status SimpleMemory.data bench_memory].
    assert (uint32 (Z.of_nat off) = Z.of_nat off) as -> by (unfold uint32; apply uint_id; unfold is_uint; lia).
    by rewrite !Nat2Z.id.
  - intros off data s Hm Hin Hl. pose proof (proj2 Hm) as Hsize. cbn [SimpleMemory.data SimpleMemory.size bench_memory] in Hsize.
    exists (mkPayload TLM_WRITE_COMMAND (Z.of_nat off) data TLM_OK_RESPONSE).
    cbn [gdb_isock gdb_bench_system]. rewrite bench_access by done. split; [| done].
    unfold memory_access, poke. cbn [command address payload_data snd SimpleMemory.data bench_memory].
    assert (uint32 (Z.of_nat off) = Z.of_nat off) as -> by (unfold uint32; apply uint_id; unfold is_uint; lia).
    by rewrite Nat2Z.id.
  - intros cmd addr data s Hm Hout. pose proof (proj2 Hm) as Hsize. cbn [SimpleMemory.data SimpleMemory.size bench_memory] in Hsize.
    cbn [gdb_isock gdb_bench_system]. unfold bench_isock, bus_transport_dbg. cbn [address decode].
    assert (port_contains (mkPortMapping 0x1000 0x1007) addr = false) as ->.
    { apply not_true_is_false. rewrite port_contains_spec. cbn [port_start port_end]. lia. }
    cbn [fmap option_fmap option_map]. eexists. split; [by destruct s | done].
Defined.

Definition bench_start : gdb_bench :=
  mkGdbBench (mkGDBServer false RV32 [0%nat] ∅ None) {[ 0%nat := [1; 2; 3; 4; 5; 6; 7; 8] ]} [].

(** Four bytes are written and read back: two of them arrive. *)
Lemma gdb_memory_access_witness :
  (exists s', writeMemory (E := unit) (mkMemoryWrite (mkMemory 0x1002 4) (lit "a1b2c3d4")) bench_start = (Ret tt, s') /\
     gb_out s' = lit "$OK#9a" /\ array (gb_heap s') 0%nat = [1; 2; 0xa1; 0xb2; 0; 0; 7; 8]) /\
  (exists s', readMemory (E := unit) (mkMemory 0x1002 4) bench_start = (Ret tt, s') /\ gb_out s' = lit "$03040506#92") /\
  (exists s', readMemory (E := unit) (mkMemory 0x1008 4) bench_start = (Ret tt, s') /\ gb_out s' = lit "$E01#a6").
Proof.
  assert (Hm : dbg_ok bench_start) by (by split; [eexists |]).
  pose proof (fun addr pa off => gdb_memory_access (E := unit) bench_start bench_start 0%nat addr pa off [0xa1; 0xb2; 0xc3; 0xd4]
    eq_refl Hm ltac:(cbn; lia) ltac:(repeat constructor; done) ltac:(done)) as H.
  assert (Hhex : hex_bytes [0xa1; 0xb2; 0xc3; 0xd4] = lit "a1b2c3d4") by (by vm_compute).
  rewrite Hhex in H. split; [| split].
  - destruct (proj1 (proj2 (H 0x1002 0x1002 2%nat)) eq_refl) as [Hw _]. eexists. split.
    + etransitivity; [apply Hw; split; [done | vm_compute; lia] | by vm_compute].
    + split; by vm_compute.
  - destruct (proj1 (H 0x1002 0x1002 2%nat) eq_refl) as [Hr _]. eexists. split.
    + etransitivity; [apply Hr; split; [done | vm_compute; lia] | by vm_compute].
    + by vm_compute.
  - destruct (proj1 (H 0x1008 0x1008 0%nat) eq_refl) as [_ Hr]. eexists. split.
    + etransitivity; [apply Hr; right; vm_compute; done | by vm_compute].
    + by vm_compute.
Defined.
