(* ===== verification/GdbSched.v ===== *)
(** * The processes that run the harts for a debugger

    Models core/common/gdb-mc/gdb_runner.cpp (GDBServerRunner::run) with the loop of
    ISS::run, the events through which the runners and the server of Gdb.v wake each
    other, and SystemC's cooperative processes: [sim_turns] says whose turn it is, for
    ever anew, and may be any list.  The waits of the server are defined by the turns
    the runners take meanwhile.  Nothing is assumed of a hart but that a step of it
    ends; [Blocked] says that the list has ended before the wait has. *)

From stdpp Require Import functions.
From S2P Require Import Prelude Instr Memory Bus Trap Mmu GdbPacket Gdb.

(** ** State *)

(** What ISS::run_step does to the status of its hart: it meets a breakpoint before
    the instruction, or the instruction has asked for the end of the program, or none. *)
Inductive step_result : Type := Continues | AtBreakpoint | Exits.

(** The harts, their memory and the host, in a state [W] of their own. *)
Class gdb_target (W E H : Type) : Type := {
  target_isock : transport_dbg_fn W E;
  target_v2p : H -> option (Z -> MemoryAccessType -> M W E Z);
  target_write : list Z -> M W E bool;
  target_insert_breakpoint : H -> Z -> M W E unit;
  target_remove_breakpoint : H -> Z -> M W E unit;
  target_read_register : H -> Z -> M W E Z;
  target_id : H -> Z;
  target_pc : H -> W -> Z;
  target_registers : H -> W -> list Z;
  target_step : H -> W -> step_result * W
}.

(** Where the process of a hart is: at wait(run_event); woken by it; before a step or in
    the middle of its instruction; at the synchronisation at the end of the step; at
    the one at the end of ISS::run; or at its end. *)
Inductive phase : Type := Waits | Woken | Step (single : bool) | StepDone (single : bool) | Syncs | Ended.

(** [sim_stops] lists the stops of the harts' own: who and with which status, the
    last one first. *)
Record gdb_sim (W H : Type) : Type := mkSim {
  sim_world : W;
  sim_gdb : GDBServer H;
  sim_status : H -> CoreExecStatus;
  sim_phase : H -> phase;
  sim_stops : list (H * CoreExecStatus);
  sim_turns : list (option H)
}.
Arguments mkSim {W H}.
Arguments sim_world {W H}.
Arguments sim_gdb {W H}.
Arguments sim_status {W H}.
Arguments sim_phase {W H}.
Arguments sim_stops {W H}.
Arguments sim_turns {W H}.

Section processes.
Context {W E H : Type} `{EqDecision H} `{gdb_target W E H}.
Abbreviation S := (gdb_sim W H).

Definition with_world (w : W) (s : S) : S := mkSim w (sim_gdb s) (sim_status s) (sim_phase s) (sim_stops s) (sim_turns s).
Definition with_gdb (g : GDBServer H) (s : S) : S := mkSim (sim_world s) g (sim_status s) (sim_phase s) (sim_stops s) (sim_turns s).
Definition with_turns (l : list (option H)) (s : S) : S := mkSim (sim_world s) (sim_gdb s) (sim_status s) (sim_phase s) (sim_stops s) l.
Definition put_status (h : H) (st : CoreExecStatus) (s : S) : S :=
  mkSim (sim_world s) (sim_gdb s) (<[h := st]> (sim_status s)) (sim_phase s) (sim_stops s) (sim_turns s).
Definition put_phase (h : H) (p : phase) (s : S) : S :=
  mkSim (sim_world s) (sim_gdb s) (sim_status s) (<[h := p]> (sim_phase s)) (sim_stops s) (sim_turns s).

(** The hart stops by itself. *)
Definition own_stop (h : H) (st : CoreExecStatus) (s : S) : S :=
  mkSim (sim_world s) (sim_gdb s) (<[h := st]> (sim_status s)) (sim_phase s) ((h, st) :: sim_stops s) (sim_turns s).

(** ** The process of a hart: GDBServerRunner::run *)

Definition runnable (h : H) (s : S) : bool := bool_decide (sim_status s h = Runnable).

(** stop_event->notify() and the test after it: an immediate notification, which wakes
    the server if it waits for the event. *)
Definition notify_stop (h : H) (s : S) : S * bool :=
  (put_phase h (if bool_decide (sim_status s h = Terminated) then Ended else Waits) s, true).

(** After run_step: the branch of the single step, or the condition of the loop of
    ISS::run. *)
Definition after_step (single : bool) (h : H) (s : S) : S * bool :=
  if single then notify_stop h (if runnable h s then own_stop h HitBreakpoint s else s)
  else (put_phase h (if runnable h s then Step false else Syncs) s, false).

(** One turn, up to the next point at which another process may run, and whether the
    stop event has been notified.  The hart returns from a breakpoint without a
    synchronisation. *)
Definition turn (h : H) (s : S) : S * bool :=
  match sim_phase s h with
  | Waits | Ended => (s, false)
  | Woken => (put_phase h (Step (single_run (sim_gdb s))) s, false)
  | Step single =>
      let '(r, w) := target_step (E := E) h (sim_world s) in
      let s := with_world w s in
      match r with
      | AtBreakpoint => after_step single h (own_stop h HitBreakpoint s)
      | Exits => (put_phase h (StepDone single) (own_stop h Terminated s), false)
      | Continues => (put_phase h (StepDone single) s, false)
      end
  | StepDone single => after_step single h s
  | Syncs => notify_stop h s
  end.

(** ** The events *)

(** run_event->notify() wakes the process that waits for it, and is lost otherwise. *)
Definition notify_run (h : H) (s : S) : S :=
  match sim_phase s h with Waits => put_phase h Woken s | _ => s end.

(** The turns up to the one of the server, [None], after the stop event of one of the
    harts has been notified. *)
Fixpoint wait_turns (hs : list H) (l : list (option H)) (up : bool) (s : S) : option S :=
  match l with
  | [] => None
  | None :: l => if up then Some (with_turns l s) else wait_turns hs l up s
  | Some h :: l => let r := turn h s in wait_turns hs l (up || snd r && bool_decide (h ∈ hs)) (fst r)
  end.
Definition wait_stops (hs : list H) : M S E unit := fun s =>
  match wait_turns hs (sim_turns s) false s with Some s' => (Ret tt, s') | None => (Fatal Blocked, s) end.

Definition on_world {A} (m : M W E A) : M S E A := fun s =>
  let r := m (sim_world s) in (fst r, with_world (snd r) s).

#[export] Instance sim_system : gdb_system S E H := {
  get_gdb := sim_gdb;
  set_gdb := with_gdb;
  gdb_isock trans := on_world (target_isock trans);
  mmu_v2p h := option_map (fun v2p addr type => on_world (v2p addr type)) (target_v2p h);
  sock_write data := on_world (target_write data);
  hart_get_status h := gets (fun s => sim_status s h);
  hart_set_status h st := modify (put_status h st);
  hart_insert_breakpoint h addr := on_world (target_insert_breakpoint h addr);
  hart_remove_breakpoint h addr := on_world (target_remove_breakpoint h addr);
  hart_id h := mret (target_id (W := W) (E := E) h);
  hart_pc h := gets (fun s => target_pc (E := E) h (sim_world s));
  hart_registers h := gets (fun s => target_registers (E := E) h (sim_world s));
  hart_read_register h r := on_world (target_read_register h r);
  run_event_notify h := modify (notify_run h);
  wait_any := wait_stops;
  wait_stop h := wait_stops [h]
}.

(** ** What a turn keeps *)

(** The process is at a wait for its run event, or at its end. *)
Definition quiet (h : H) (s : S) : Prop := match sim_phase s h with Waits | Ended => True | _ => False end.

(** The process runs no instruction before the server notifies it again. *)
Definition halted (h : H) (s : S) : Prop :=
  match sim_phase s h with
  | Waits | Ended | Syncs => True
  | StepDone _ => sim_status s h = Terminated
  | _ => False
  end.
Definition active (h : H) (s : S) : Prop := match sim_phase s h with Woken | Step _ | StepDone _ => True | _ => False end.

(** The hart has stopped by itself, with the status [st], after the stops [base]. *)
Definition stopped_since (base : list (H * CoreExecStatus)) (h : H) (st : CoreExecStatus) (s : S) : Prop :=
  exists l, sim_stops s = l ++ base /\ (h, st) ∈ l.

(** A hart whose status has been taken down as [st]. *)
Definition kept (base : list (H * CoreExecStatus)) (h : H) (st : CoreExecStatus) (s : S) : Prop :=
  match st with
  | Runnable => quiet h s
  | _ => sim_status s h = st /\ halted h s /\ stopped_since base h st s
  end.

(** A hart that runs, or has stopped by itself. *)
Definition sound (base : list (H * CoreExecStatus)) (h : H) (s : S) : Prop :=
  (exists l, sim_stops s = l ++ base) /\
  match sim_status s h with Runnable => active h s | st => kept base h st s end.

Ltac turns :=
  unfold turn, after_step, notify_stop;
  repeat match goal with
  | |- context [match sim_phase ?s ?h with _ => _ end] => destruct (sim_phase s h) eqn:?
  | |- context [match target_step ?h ?w with _ => _ end] => destruct (target_step h w) as [[] ?] eqn:?
  | |- context [if ?b then _ else _] => destruct b eqn:?
  end.

Lemma turn_gdb h s : sim_gdb (fst (turn h s)) = sim_gdb s.
Proof. by turns. Qed.
Lemma turn_turns h s : sim_turns (fst (turn h s)) = sim_turns s.
Proof. by turns. Qed.
Lemma turn_stops h s : exists l, sim_stops (fst (turn h s)) = l ++ sim_stops s.
Proof. turns; first [by exists [] | by eexists [_] | by eexists [_; _]]. Qed.
Lemma turn_status_other h h' s : h' <> h -> sim_status (fst (turn h s)) h' = sim_status s h'.
Proof. intros Hne. turns; cbn; by rewrite ?fn_lookup_insert_ne by done. Qed.
Lemma turn_phase_other h h' s : h' <> h -> sim_phase (fst (turn h s)) h' = sim_phase s h'.
Proof. intros Hne. turns; cbn; by rewrite ?fn_lookup_insert_ne by done. Qed.

Lemma stopped_turn base h st h' s : stopped_since base h st s -> stopped_since base h st (fst (turn h' s)).
Proof.
  intros (l & Hl & Hin). destruct (turn_stops h' s) as [l' Hl']. exists (l' ++ l).
  rewrite Hl', Hl, app_assoc. split; [done | set_solver].
Qed.

(** A process at rest stays at rest, and one that has stopped by itself keeps its status. *)
Lemma quiet_turn h h' s : quiet h s -> quiet h (fst (turn h' s)).
Proof.
  unfold quiet. destruct (decide (h = h')) as [<- | Hne]; [| by rewrite turn_phase_other].
  unfold turn. destruct (sim_phase s h) eqn:Hp; try done; intros _; cbn; by rewrite Hp.
Qed.

Lemma halted_turn h h' s : sim_status s h <> Runnable -> halted h s ->
  halted h (fst (turn h' s)) /\ sim_status (fst (turn h' s)) h = sim_status s h.
Proof.
  intros Hst Hh. unfold halted in *.
  destruct (decide (h = h')) as [<- | Hne]; [| by rewrite turn_phase_other, turn_status_other].
  assert (Hr : runnable h s = false) by (by apply bool_decide_false).
  unfold turn. destruct (sim_phase s h) eqn:Hp; try done.
  - cbn. by rewrite Hp.
  - unfold after_step, notify_stop. rewrite Hr. destruct single; cbn; rewrite fn_lookup_insert; [| done].
    by rewrite bool_decide_true.
  - unfold notify_stop. cbn. rewrite fn_lookup_insert. by destruct (bool_decide _).
  - cbn. by rewrite Hp.
Qed.

Lemma kept_turn base h st h' s : kept base h st s -> kept base h st (fst (turn h' s)).
Proof.
  destruct st; cbn [kept]; [apply quiet_turn | |];
    intros (Hst & Hh & Hb); destruct (halted_turn h h' s) as [Hh' Hst']; rewrite ?Hst; try done;
    (split; [by rewrite Hst', Hst | split; [done | by apply stopped_turn]]).
Qed.

(** A hart that runs either goes on or stops by itself. *)
Lemma own_stop_since base h st s : (exists l, sim_stops s = l ++ base) -> stopped_since base h st (own_stop h st s).
Proof. intros [l Hl]. exists ((h, st) :: l). cbn [own_stop sim_stops]. rewrite Hl. split; [done | by constructor]. Qed.

Lemma sound_turn base h h' s : sound base h s -> sound base h (fst (turn h' s)).
Proof.
  intros [[l Hl] Hs]. split.
  { destruct (turn_stops h' s) as [l' ->]. exists (l' ++ l). by rewrite Hl, app_assoc. }
  destruct (sim_status s h) eqn:Hst.
  2, 3: apply (kept_turn base h _ h') in Hs; pose proof Hs as (Hst' & _); by rewrite Hst'.
  destruct (decide (h = h')) as [<- | Hne].
  2: { rewrite turn_status_other, Hst by done. unfold active. by rewrite turn_phase_other. }
  assert (Hb : forall st w, stopped_since base h st (own_stop h st (with_world w s))).
  { intros st w. apply own_stop_since. by exists l. }
  assert (Hb' : stopped_since base h HitBreakpoint (own_stop h HitBreakpoint s)) by (apply own_stop_since; by exists l).
  unfold active in Hs. unfold turn. destruct (sim_phase s h) eqn:Hp; try done.
  - cbn. rewrite Hst. unfold active. cbn. by rewrite fn_lookup_insert.
  - destruct (target_step h (sim_world s)) as [[] w]; cbn [fst].
    + cbn. rewrite Hst. unfold active. cbn. by rewrite fn_lookup_insert.
    + specialize (Hb HitBreakpoint w). unfold after_step, runnable, notify_stop. cbn [own_stop with_world sim_status].
      rewrite fn_lookup_insert. change (bool_decide (HitBreakpoint = Runnable)) with false.
      destruct single; cbn; rewrite ?fn_lookup_insert; cbn; unfold halted; cbn; by rewrite ?fn_lookup_insert.
    + specialize (Hb Terminated w). cbn. rewrite ?fn_lookup_insert. cbn. unfold halted. cbn. by rewrite ?fn_lookup_insert.
  - unfold after_step, runnable. rewrite bool_decide_true by done. destruct single; cbn; rewrite ?fn_lookup_insert, ?Hst; cbn;
      rewrite ?fn_lookup_insert; unfold halted, active; cbn; by rewrite ?fn_lookup_insert.
Qed.

(** A hart with a status other than Runnable needs four turns at most to notify its
    stop event. *)
Definition left_turns (h : H) (s : S) : nat :=
  match sim_phase s h with Woken => 4 | Step _ => 3 | StepDone _ => 2 | Syncs => 1 | _ => 0 end.

Lemma status_turn h h' s : sim_status s h <> Runnable -> sim_status (fst (turn h' s)) h <> Runnable.
Proof.
  intros Hst. destruct (decide (h = h')) as [<- | Hne]; [| by rewrite turn_status_other].
  turns; cbn; rewrite ?fn_lookup_insert; done.
Qed.

Lemma left_turn h s : sim_status s h <> Runnable -> (0 < left_turns h s)%nat ->
  snd (turn h s) = true \/ (0 < left_turns h (fst (turn h s)) < left_turns h s)%nat.
Proof.
  intros Hst. unfold left_turns, turn, after_step, notify_stop, runnable.
  destruct (sim_phase s h) eqn:Hp; cbn; try lia; intros _.
  - right. rewrite fn_lookup_insert. lia.
  - destruct (target_step h (sim_world s)) as [[] w]; cbn.
    + right. rewrite fn_lookup_insert. lia.
    + rewrite fn_lookup_insert. change (bool_decide (HitBreakpoint = Runnable)) with false.
      destruct single; cbn; [by left |]. right. rewrite fn_lookup_insert. lia.
    + right. rewrite fn_lookup_insert. lia.
  - rewrite (bool_decide_false (sim_status s h = Runnable)) by done.
    destruct single; cbn; [by left |]. right. rewrite fn_lookup_insert. lia.
Qed.

(** ** Waiting *)

Definition turns_of (h : H) (l : list (option H)) : nat := length (filter (fun o => o = Some h) l).

(** The scheduler gives every hart of the list, one after the other, the turns it needs
    and the server one after them; what else it does is open. *)
Fixpoint fair (hs : list H) (l : list (option H)) : Prop :=
  match hs with
  | [] => True
  | h :: hs => exists a b, l = a ++ None :: b /\ (4 <= turns_of h a)%nat /\ fair hs b
  end.

(** Whether one of the harts notifies its stop event during these turns. *)
Fixpoint notified (hs : list H) (l : list (option H)) (s : S) : bool :=
  match l with
  | [] => false
  | None :: l => notified hs l s
  | Some h :: l => snd (turn h s) && bool_decide (h ∈ hs) || notified hs l (fst (turn h s))
  end.

Lemma fair_later hs a b : fair hs b -> fair hs (a ++ b).
Proof.
  destruct hs as [| h hs]; [done |]. intros (a' & b' & -> & Ha & Hf). exists (a ++ a'), b'. split; [by rewrite <- app_assoc |].
  split; [| done]. unfold turns_of in *. rewrite filter_app, length_app. lia.
Qed.
Lemma fair_tail h hs l : fair (h :: hs) l -> fair hs l.
Proof. intros (a & b & -> & _ & Hf). by apply (fair_later hs (a ++ [None])) in Hf; rewrite <- app_assoc in Hf. Qed.

Section stable.
Variable P : S -> Prop.
Hypothesis P_turn : forall h s, P s -> P (fst (turn h s)).
Hypothesis P_turns : forall l s, P s -> P (with_turns l s).

Lemma wait_turns_stable hs l : forall up s s', P s -> wait_turns hs l up s = Some s' -> P s'.
Proof using P_turn P_turns.
  induction l as [| [h |] l IH]; intros up s s' Hs; cbn [wait_turns]; [done | |].
  - apply IH, P_turn, Hs.
  - destruct up; [intros [= <-]; by apply P_turns | by apply IH].
Qed.
End stable.

(** A wait ends with the process of one of the harts at rest. *)
Lemma notified_quiet h s : snd (turn h s) = true -> quiet h (fst (turn h s)).
Proof.
  unfold turn, after_step, notify_stop. destruct (sim_phase s h); cbn; try done;
    try (destruct (target_step h (sim_world s)) as [[] w]; cbn; try done);
    try (destruct single; cbn; try done); intros _; unfold quiet; cbn; rewrite fn_lookup_insert; by destruct (bool_decide _).
Qed.

Lemma wait_turns_quiet hs l : forall up s s', (up = true -> Exists (fun h => quiet h s) hs) ->
  wait_turns hs l up s = Some s' -> Exists (fun h => quiet h s') hs.
Proof.
  induction l as [| [h |] l IH]; intros up s s' Hup; cbn [wait_turns]; [done | |].
  - apply IH. intros [Hu | [Hn Hin%bool_decide_eq_true_1]%andb_prop]%orb_prop.
    + eapply Exists_impl; [by apply Hup |]. intros h'. apply quiet_turn.
    + apply Exists_exists. exists h. split; [done | by apply notified_quiet].
  - destruct up; [intros [= <-]; by apply Hup | by apply IH].
Qed.

(** A wait ends with the server's turn after a notification, or before. *)
Lemma wait_turns_ends hs a b : forall up s, up = true \/ notified hs a s = true ->
  exists s' c, wait_turns hs (a ++ None :: b) up s = Some s' /\ sim_turns s' = c ++ b.
Proof.
  induction a as [| [h |] a IH]; intros up s Hn; cbn [app wait_turns notified] in *.
  - destruct Hn as [-> | Hn]; [| done]. by exists (with_turns b s), [].
  - apply IH. destruct Hn as [-> | [-> | Hn]%orb_prop]; [by left | left; by rewrite orb_true_r | by right].
  - destruct up; [| by apply IH]. exists (with_turns (a ++ None :: b) s), (a ++ [None]). by rewrite <- app_assoc.
Qed.

(** A hart whose status is no longer Runnable notifies within the turns it needs. *)
Lemma stopping_notifies h a : forall s, sim_status s h <> Runnable -> (0 < left_turns h s <= turns_of h a)%nat ->
  notified [h] a s = true.
Proof.
  induction a as [| [h' |] a IH]; intros s Hst Hl; cbn [notified].
  - unfold turns_of in Hl. cbn in Hl. lia.
  - apply orb_true_iff. destruct (decide (h' = h)) as [-> | Hne].
    + destruct (left_turn h s Hst (proj1 Hl)) as [-> | Hless]; [left; by rewrite bool_decide_true by constructor |].
      right. apply IH; [by apply status_turn |]. unfold turns_of in *. rewrite filter_cons_True in Hl by done. cbn [length] in Hl. lia.
    + right. apply IH; [by apply status_turn |]. unfold turns_of in *. rewrite filter_cons_False in Hl by congruence.
      unfold left_turns in *. by rewrite turn_phase_other by done.
  - apply IH; [done |]. unfold turns_of in *. by rewrite filter_cons_False in Hl by done.
Qed.
End processes.
