(* ===== verification/GdbRun.v ===== *)
(** * Running harts for a debugger

    The command vCont of the server of Gdb.v, with the processes of the harts and
    the waits of GdbSched.v: the harts run until one of them stops, the others are
    stopped, and the debugger is told about a hart that has stopped by itself. *)

From stdpp Require Import strings functions.
From S2P Require Import Prelude Instr Memory Bus Trap Mmu GdbPacket Gdb GdbMem GdbSched.

Lemma combine_Forall2 {A B} (P : A -> B -> Prop) l k : Forall2 P l k -> forall x y, (x, y) ∈ combine l k -> P x y.
Proof.
  induction 1 as [| x y l k Hxy _ IH]; cbn [combine]; intros x' y' Hin; [by apply elem_of_nil in Hin |].
  apply elem_of_cons in Hin as [[= -> ->] | Hin]; [done | by apply IH].
Qed.
Lemma Forall2_combine {A B} (P : A -> B -> Prop) l k : Forall2 P l k -> forall x, x ∈ l -> exists y, (x, y) ∈ combine l k.
Proof.
  induction 1 as [| x y l k _ _ IH]; cbn [combine]; intros x' Hin; [by apply elem_of_nil in Hin |].
  apply elem_of_cons in Hin as [-> | Hin]; [exists y; constructor | destruct (IH x' Hin) as [y' ?]; exists y'; by constructor].
Qed.

Section run.
Context {W E H : Type} `{EqDecision H} `{Ht : gdb_target W E H}.
#[local] Set Default Proof Using "Type Ht".
Abbreviation S := (gdb_sim W H).

(** ** Resuming and waiting *)

(** The state in which run_threads begins to wait. *)
Definition resumed (hs : list H) (single : bool) (s : S) : S :=
  foldl (fun s h => notify_run h s) (with_gdb (set_single_run single (sim_gdb s)) s) hs.

Lemma notify_all hs : forall s : S,
  for_each (E := E) hs run_event_notify s = (Ret tt, foldl (fun s h => notify_run h s) s hs).
Proof. induction hs as [| h hs IH]; intros s; [done |]. cbn [for_each foldl]. by rewrite <- IH. Qed.

Lemma notify_run_fields h (s : S) : sim_status (notify_run h s) = sim_status s /\ sim_stops (notify_run h s) = sim_stops s /\
  sim_turns (notify_run h s) = sim_turns s /\ sim_gdb (notify_run h s) = sim_gdb s.
Proof. unfold notify_run. by destruct (sim_phase s h). Qed.

Lemma resume_fields hs : forall s : S, let s' := foldl (fun s h => notify_run h s) s hs in
  sim_status s' = sim_status s /\ sim_stops s' = sim_stops s /\ sim_turns s' = sim_turns s /\ sim_gdb s' = sim_gdb s.
Proof.
  induction hs as [| h hs IH]; intros s; [done |]. cbn [foldl]. destruct (notify_run_fields h s) as (H1 & H2 & H3 & H4).
  rewrite <- H1, <- H2, <- H3, <- H4. apply IH.
Qed.

Lemma resume_keeps_woken h hs : forall s : S, sim_phase s h = Woken ->
  sim_phase (foldl (fun s h => notify_run h s) s hs) h = Woken.
Proof.
  induction hs as [| h' hs IH]; intros s Hw; [done |]. apply IH. unfold notify_run.
  destruct (decide (h' = h)) as [-> | Hne]; [by rewrite Hw |]. destruct (sim_phase s h'); try done.
  cbn. by rewrite fn_lookup_insert_ne.
Qed.

Lemma resume_woken h hs : forall s : S, h ∈ hs -> sim_phase s h = Waits ->
  sim_phase (foldl (fun s h => notify_run h s) s hs) h = Woken.
Proof.
  induction hs as [| h' hs IH]; intros s Hin Hw; [by apply elem_of_nil in Hin |]. cbn [foldl].
  destruct (decide (h' = h)) as [-> | Hne].
  - apply resume_keeps_woken. unfold notify_run. rewrite Hw. cbn. by rewrite fn_lookup_insert.
  - apply IH; [by apply elem_of_cons in Hin as [-> | Hin] |]. unfold notify_run. destruct (sim_phase s h'); try done. cbn. by rewrite fn_lookup_insert_ne.
Qed.

(** The harts begin to run, and none of them has stopped. *)
Lemma resumed_sound hs single (s : S) : Forall (fun h => sim_status s h = Runnable /\ sim_phase s h = Waits) hs ->
  Forall (fun h => sound (sim_stops s) h (resumed hs single s)) hs.
Proof.
  intros Hq. apply Forall_forall. intros h Hin. destruct (proj1 (Forall_forall _ _) Hq h Hin) as [Hst Hp].
  unfold resumed, sound, active. set (s0 := with_gdb _ s). destruct (resume_fields hs s0) as (-> & -> & _).
  rewrite (resume_woken h hs s0) by done. subst s0. cbn. rewrite Hst. split; [by exists [] | done].
Qed.

(** ** Stopping the harts *)

Lemma put_status_kept base h h' st st' (s : S) : h' <> h -> kept base h' st' s -> kept base h' st' (put_status h st s).
Proof.
  intros Hne. unfold kept, quiet, halted, stopped_since. cbn. rewrite fn_lookup_insert_ne by done. done.
Qed.
Lemma put_status_sound base h h' st (s : S) : h' <> h -> sound base h' s -> sound base h' (put_status h st s).
Proof.
  intros Hne. unfold sound, active, kept, quiet, halted, stopped_since. cbn. rewrite fn_lookup_insert_ne by done. done.
Qed.

Lemma wait_keeps_gdb hs l up (s s' : S) : wait_turns (E := E) hs l up s = Some s' -> sim_gdb s' = sim_gdb s.
Proof.
  apply (wait_turns_stable (fun s' => sim_gdb s' = sim_gdb s)); [| done | done]. intros h s0 <-. apply turn_gdb.
Qed.
Lemma wait_keeps_sound base h hs l up (s s' : S) : sound base h s -> wait_turns (E := E) hs l up s = Some s' -> sound base h s'.
Proof. apply (wait_turns_stable (sound base h)); [intros h' s0; apply sound_turn | done]. Qed.
Lemma wait_keeps_kept base h st hs l up (s s' : S) : kept base h st s -> wait_turns (E := E) hs l up s = Some s' -> kept base h st s'.
Proof. apply (wait_turns_stable (kept base h st)); [intros h' s0; apply kept_turn | by destruct st]. Qed.

Lemma sound_kept base h (s : S) : sound base h s -> sim_status s h <> Runnable -> kept base h (sim_status s h) s.
Proof. intros [_ Hs] Hne. by destruct (sim_status s h). Qed.
Lemma kept_status base h st (s : S) : kept base h st s -> st <> Runnable -> sim_status s h = st.
Proof. intros Hk Hne. destruct st; [done | |]; apply Hk. Qed.

Lemma stop_harts_cons h hs (s : S) : stop_harts (E := E) (h :: hs) s
  = if decide (sim_status s h = Runnable)
    then match wait_turns [h] (sim_turns s) false (put_status h HitBreakpoint s) with
         | Some s1 => (rest ← stop_harts hs; mret (Runnable :: rest)) s1
         | None => (Fatal Blocked, put_status h HitBreakpoint s)
         end
    else (rest ← stop_harts hs; mret (sim_status s h :: rest)) s.
Proof.
  cbn [stop_harts]. unfold mbind at 1, M_bind at 1.
  change (hart_get_status h s) with (Ret (E := E) (sim_status s h), s). cbv beta iota.
  destruct (decide (sim_status s h = Runnable)) as [Hst | Hst].
  - rewrite Hst. unfold mbind at 1, M_bind at 1.
    change (when (bool_decide (Runnable = Runnable)) (hart_set_status h HitBreakpoint ;; wait_stop h) s)
      with (wait_stops (E := E) [h] (put_status h HitBreakpoint s)).
    unfold wait_stops. cbn [put_status sim_turns]. by destruct (wait_turns _ _ _ _).
  - by rewrite bool_decide_false.
Qed.

(** The statuses are taken down hart after hart, and a hart that still runs is stopped:
    what has been taken down stays true.  If the turns are fair, no wait is for ever. *)
Lemma stop_harts_spec base hs : forall s : S, NoDup hs -> Forall (fun h => sound base h s) hs ->
  (exists s', stop_harts (E := E) hs s = (Fatal Blocked, s') /\ ~ fair hs (sim_turns s)) \/
  (exists sts s', stop_harts (E := E) hs s = (Ret sts, s') /\ sim_gdb s' = sim_gdb s /\
    Forall2 (fun h st => kept base h st s') hs sts /\
    (Exists (fun h => sim_status s h <> Runnable) hs -> Exists (fun st => st <> Runnable) sts) /\
    (forall h st, h ∉ hs -> kept base h st s -> kept base h st s')).
Proof.
  induction hs as [| h hs IH]; intros s Hd Hs.
  { right. exists [], s. split_and!; try done. intros He. inversion He. }
  apply NoDup_cons in Hd as [Hn Hd]. apply Forall_cons in Hs as [Hh Hs].
  rewrite stop_harts_cons. destruct (decide (sim_status s h = Runnable)) as [Hst | Hst].
  - set (s0 := put_status h HitBreakpoint s). change (sim_turns s) with (sim_turns s0).
    assert (Hactive : sim_status s0 h <> Runnable /\ (0 < left_turns h s0 <= 4)%nat).
    { subst s0. cbn. rewrite fn_lookup_insert. split; [done |]. destruct Hh as [_ Hh]. rewrite Hst in Hh.
      unfold active, left_turns in *. cbn. destruct (sim_phase s h); first [done | lia]. }
    assert (Hends : fair (h :: hs) (sim_turns s0) -> exists s1, wait_turns (E := E) [h] (sim_turns s0) false s0 = Some s1 /\
        fair hs (sim_turns s1)).
    { intros (a & b & -> & Ha & Hf). destruct (wait_turns_ends (E := E) [h] a b false s0) as (s1 & c & Hs1 & Hc).
      - right. apply stopping_notifies; [apply Hactive | lia].
      - exists s1. split; [done |]. rewrite Hc. by apply fair_later. }
    destruct (wait_turns [h] (sim_turns s0) false s0) as [s1 |] eqn:Hs1.
    2: { left. exists s0. split; [done |]. intros Hf. by destruct (Hends Hf) as (? & ? & _). }
    assert (Hq : quiet h s1).
    { apply wait_turns_quiet in Hs1; [| done]. apply Exists_cons in Hs1 as [Hq | Hq]; [done | by inversion Hq]. }
    assert (Hk1 : forall h' st, h' <> h -> kept base h' st s -> kept base h' st s1).
    { intros h' st Hne Hk. eapply wait_keeps_kept; [| exact Hs1]. by apply put_status_kept. }
    assert (Hsound : Forall (fun h => sound base h s1) hs).
    { rewrite Forall_forall in *. intros h' Hin. eapply wait_keeps_sound; [| exact Hs1].
      apply put_status_sound; [by intros -> | by apply Hs]. }
    destruct (IH s1 Hd Hsound) as [(s2 & Hs2 & Hf) | (sts & s2 & Hs2 & Hg & Hf & He & Hk)].
    + left. exists s2. unfold mbind, M_bind. rewrite Hs2. split; [done |]. intros Hfair. apply Hf.
      destruct (Hends Hfair) as (s1' & [= <-] & ?). done.
    + right. exists (Runnable :: sts), s2. unfold mbind, M_bind. rewrite Hs2. split_and!.
      * done.
      * rewrite Hg. by rewrite (wait_keeps_gdb _ _ _ _ _ Hs1).
      * constructor; [| done]. by apply (Hk h Runnable).
      * intros Hex. apply Exists_cons in Hex as [Hex | Hex]; [done |]. right. apply He.
        rewrite Exists_exists in *. destruct Hex as (h' & Hin & Hne). exists h'. split; [done |].
        rewrite (kept_status base h' (sim_status s h') s1); [done | | done].
        apply Hk1; [by intros -> |]. apply sound_kept; [| done]. by apply (proj1 (Forall_forall _ _) Hs).
      * intros h' st Hnin Hkept. apply not_elem_of_cons in Hnin as [Hne Hnin]. by apply Hk, Hk1.
  - pose proof (sound_kept _ _ _ Hh Hst) as Hkept. destruct (IH s Hd Hs) as [(s2 & Hs2 & Hf) | (sts & s2 & Hs2 & Hg & Hf & He & Hk)].
    + left. exists s2. unfold mbind, M_bind. rewrite Hs2. split; [done |]. intros Hfair. by apply Hf, (fair_tail h).
    + right. exists (sim_status s h :: sts), s2. unfold mbind, M_bind. rewrite Hs2. split_and!; try done.
      * constructor; [by apply Hk | done].
      * intros _. by left.
      * intros h' st Hnin. apply not_elem_of_cons in Hnin as [_ Hnin]. by apply Hk.
Qed.

(** Everything but the statuses. *)
Definition same_but_status (s s' : S) : Prop :=
  sim_gdb s' = sim_gdb s /\ sim_phase s' = sim_phase s /\ sim_stops s' = sim_stops s /\ sim_world s' = sim_world s /\
  sim_turns s' = sim_turns s.

Lemma restore_status hs : forall sts (s : S), NoDup hs -> length sts = length hs ->
  exists s', for_each (E := E) (combine hs sts) (fun p => hart_set_status (fst p) (snd p)) s = (Ret tt, s') /\
    same_but_status s s' /\ Forall2 (fun h st => sim_status s' h = st) hs sts /\
    forall h, h ∉ hs -> sim_status s' h = sim_status s h.
Proof.
  induction hs as [| h hs IH]; intros [| st sts] s Hd Hl; try done; cbn [combine for_each].
  { exists s. by split_and!. }
  apply NoDup_cons in Hd as [Hn Hd]. destruct (IH sts (put_status h st s) Hd ltac:(by injection Hl)) as (s' & Hs & Hg & Hf & Hk).
  exists s'. split_and!; [exact Hs | exact Hg | |].
  - constructor; [| done]. rewrite Hk by done. cbn. apply fn_lookup_insert.
  - intros h' Hnin. apply not_elem_of_cons in Hnin as [Hne Hnin]. rewrite Hk by done. cbn. by apply fn_lookup_insert_ne.
Qed.

(** The statuses the server goes on with: a hart is halted, and one that is not
    Runnable has stopped by itself with this status. *)
Definition taken (base : list (H * CoreExecStatus)) (s : S) (h : H) (st : CoreExecStatus) : Prop :=
  sim_status s h = st /\ halted h s /\ (st <> Runnable -> stopped_since base h st s).

Lemma kept_taken base h st (s s' : S) : same_but_status s s' -> sim_status s' h = st -> kept base h st s -> taken base s' h st.
Proof.
  intros (_ & Hp & Hst & _) Hs Hk. unfold taken, halted, stopped_since. rewrite Hp, Hst, Hs.
  destruct st; cbn [kept] in Hk.
  - split_and!; [done | | done]. unfold quiet in Hk. by destruct (sim_phase s h).
  - destruct Hk as (Hk & Hh & Hb). unfold halted in Hh. rewrite Hk in Hh. by split_and!.
  - destruct Hk as (Hk & Hh & Hb). unfold halted in Hh. rewrite Hk in Hh. by split_and!.
Qed.

(** The wait for the first stop. *)
Lemma wait_any_spec base hs (s : S) : Forall (fun h => sound base h s) hs ->
  (wait_any (E := E) hs s = (Fatal Blocked, s) /\
    forall a b, sim_turns s = a ++ None :: b -> notified (E := E) hs a s = false) \/
  (exists s', wait_any (E := E) hs s = (Ret tt, s') /\ sim_gdb s' = sim_gdb s /\ Forall (fun h => sound base h s') hs /\
    Exists (fun h => sim_status s' h <> Runnable) hs /\
    forall a b, sim_turns s = a ++ None :: b -> notified (E := E) hs a s = true -> fair hs b -> fair hs (sim_turns s')).
Proof.
  intros Hs. change (wait_any (E := E) hs s) with (wait_stops (E := E) hs s). unfold wait_stops.
  destruct (wait_turns hs (sim_turns s) false s) as [s' |] eqn:Hw.
  - right. exists s'. assert (Hs' : Forall (fun h => sound base h s') hs).
    { eapply Forall_impl; [exact Hs |]. intros h Hh. eapply wait_keeps_sound; [exact Hh | exact Hw]. }
    split_and!; [done | by apply (wait_keeps_gdb _ _ _ _ _ Hw) | done | |].
    + assert (Hq : Exists (fun h => quiet h s') hs) by (eapply wait_turns_quiet; [| exact Hw]; done).
      rewrite Exists_exists in *. destruct Hq as (h & Hin & Hq).
      exists h. split; [done |]. intros Hst. destruct (proj1 (Forall_forall _ _) Hs' h Hin) as [_ Hh]. rewrite Hst in Hh.
      unfold active, quiet in *. by destruct (sim_phase s' h).
    + intros a b Ha Hn Hf. rewrite Ha in Hw. destruct (wait_turns_ends (E := E) hs a b false s) as (s1 & c & Hs1 & Hc); [by right |].
      rewrite Hs1 in Hw. injection Hw as ->. rewrite Hc. by apply fair_later.
  - left. split; [done |]. intros a b Ha. apply not_true_is_false. intros Hn. rewrite Ha in Hw.
    destruct (wait_turns_ends (E := E) hs a b false s) as (s1 & c & Hs1 & Hc); [by right |]. by rewrite Hs1 in Hw.
Qed.

(** One hart at least has stopped by itself, and all are halted. *)
Lemma run_threads_spec hs single (s : S) : hs <> [] -> NoDup hs ->
  Forall (fun h => sim_status s h = Runnable /\ sim_phase s h = Waits) hs ->
  (exists s', run_threads (E := E) hs single s = (Fatal Blocked, s') /\
    forall a b, sim_turns s = a ++ None :: b -> notified (E := E) hs a (resumed hs single s) = true -> ~ fair hs b) \/
  (exists sts s', run_threads (E := E) hs single s = (Ret hs, s') /\ sim_gdb s' = set_single_run single (sim_gdb s) /\
    Forall2 (taken (sim_stops s) s') hs sts /\ Exists (fun st => st <> Runnable) sts).
Proof.
  intros Hne Hd Hq. pose proof (resumed_sound hs single s Hq) as Hs1. unfold run_threads.
  destruct hs as [| h0 hs0]; [done |]. set (hs := h0 :: hs0) in *. set (s1 := resumed hs single s) in *.
  assert (Hr : for_each (E := E) hs run_event_notify (with_gdb (set_single_run single (sim_gdb s)) s) = (Ret tt, s1)) by apply notify_all.
  assert (Hf1 : sim_turns s1 = sim_turns s /\ sim_gdb s1 = set_single_run single (sim_gdb s)).
  { unfold s1, resumed. by destruct (resume_fields hs (with_gdb (set_single_run single (sim_gdb s)) s)) as (_ & _ & -> & ->). }
  destruct Hf1 as [Ht1 Hg1]. unfold mbind, M_bind, update_gdb, modify.
  change (set_gdb (set_single_run single (get_gdb s)) s) with (with_gdb (set_single_run single (sim_gdb s)) s). rewrite Hr.
  destruct (wait_any_spec _ hs s1 Hs1) as [(Hw & Hno) | (s2 & Hw & Hg2 & Hs2 & He2 & Hfair)]; rewrite Hw.
  { left. exists s1. split; [done |]. intros a b Ha Hn. rewrite (Hno a b) in Hn; [done | by rewrite Ht1]. }
  destruct (stop_harts_spec _ hs s2 Hd Hs2) as [(s3 & Hs3 & Hf) | (sts & s3 & Hs3 & Hg3 & Hk & He3 & _)]; rewrite Hs3.
  { left. exists s3. split; [done |]. intros a b Ha Hn Hb. apply Hf, (Hfair a b); [by rewrite Ht1 | done | done]. }
  right. destruct (restore_status hs sts s3 Hd) as (s4 & Hs4 & Hsame & Hf & _); [by rewrite (Forall2_length _ _ _ Hk) |].
  rewrite Hs4. exists sts, s4. split_and!; [done | | | by apply He3].
  - destruct Hsame as (-> & _). by rewrite Hg3, Hg2.
  - clear -Hk Hf Hsame Ht. induction Hk as [| h st hs sts Hk1 Hk IH]; [constructor |]. apply Forall2_cons_1 in Hf as [Hst Hf].
    constructor; [by apply (kept_taken _ _ _ s3) | by apply IH].
Qed.

(** ** The answer *)

Definition stop_text (st : CoreExecStatus) : list Z := match st with HitBreakpoint => lit "05" | _ => lit "03" end.

(** The last of the harts that have stopped is told of, and those at a breakpoint may
    run again. *)
Lemma stop_reasons_spec hs : forall sts v (s : S), NoDup hs -> Forall2 (fun h st => sim_status s h = st) hs sts ->
  exists v' s', stop_reasons (E := E) hs v s = (Ret v', s') /\ same_but_status s s' /\ matched v' = matched v /\
    Forall2 (fun h st => sim_status s' h = match st with HitBreakpoint => Runnable | _ => st end) hs sts /\
    (forall h, h ∉ hs -> sim_status s' h = sim_status s h) /\
    ((Forall (fun st => st = Runnable) sts /\ v' = v) \/
     exists h st, (h, st) ∈ combine hs sts /\ st <> Runnable /\
       stop_reason v' = Some (stop_text st) /\ stopped_thread v' = int32 (target_id (W := W) (E := E) h + 1)).
Proof.
  induction hs as [| h hs IH]; intros sts v s Hd Hf; inversion Hf as [| ? st ? sts' Hh Hf']; subst; cbn [stop_reasons].
  { exists v, s. split_and!; try done. by left. }
  apply NoDup_cons in Hd as [Hn Hd]. set (st := sim_status s h) in *.
  set (s1 := match st with HitBreakpoint => put_status h Runnable s | _ => s end).
  set (v1 := match st with Runnable => v | _ => mkVcontState (matched v) (Some (stop_text st)) (int32 (target_id (W := W) (E := E) h + 1)) end).
  assert (Hk1 : forall h', h' <> h -> sim_status s1 h' = sim_status s h').
  { intros h' Hne. subst s1. destruct st; [done | cbn; by apply fn_lookup_insert_ne | done]. }
  destruct (IH sts' v1 s1 Hd) as (v' & s' & Hs & Hg & Hm & Hst & Hk & Hlast).
  { clear -Hf' Hn Hk1. induction Hf' as [| h' st' hs sts Hh' Hf' IH]; constructor.
    - rewrite Hk1; [done |]. intros ->. apply Hn. constructor.
    - apply IH. intros Hin. apply Hn. by constructor. }
  exists v', s'. split_and!.
  - unfold mbind, M_bind. change (hart_get_status h s) with (Ret (E := E) st, s). rewrite <- Hs. subst s1 v1. by destruct st.
  - revert Hg. unfold same_but_status. subst s1. by destruct st.
  - rewrite Hm. subst v1. by destruct st.
  - constructor; [| done]. rewrite Hk by done. subst s1. destruct st eqn:Hst'; [done | cbn; by rewrite fn_lookup_insert | done].
  - intros h' Hnin. apply not_elem_of_cons in Hnin as [Hne Hnin]. by rewrite Hk, Hk1.
  - destruct Hlast as [[Hall ->] | (h' & st' & Hin & Hne & Hrest)].
    + subst v1. destruct st eqn:Hst'; [left; by split; [constructor |] | |]; right; exists h; eexists;
        (split; [cbn [combine]; constructor | split; [| split]]; done).
    + right. exists h', st'. split; [cbn [combine]; by constructor | by split].
Qed.

Lemma get_threads_sub id hs (s s' : S) : get_threads (E := E) id s = (Ret hs, s') ->
  (forall h, h ∈ hs -> exists i, harts (get_gdb s) !! i = Some h) /\ (0 < id -> length hs = 1%nat).
Proof.
  unfold get_threads, gdb, gets, mbind, M_bind. set (id' := if id =? GDB_THREAD_ANY then 1 else id).
  assert (Hpos : 0 < id -> id' = id).
  { intros Hp. subst id'. unfold GDB_THREAD_ANY. destruct (Z.eqb_spec id 0); [lia | done]. }
  destruct (Z.eqb_spec id' GDB_THREAD_ALL) as [Heq | Hne].
  - intros [= <- _]. split; [intros h Hin; by apply list_elem_of_lookup in Hin | unfold GDB_THREAD_ALL in *; lia].
  - destruct (id' <? 1); [done |]. destruct (harts (get_gdb s) !! Z.to_nat (id' - 1)) as [h0 |] eqn:Hl; [| done].
    intros [= <- _]. split; [| done]. intros h Hin. apply list_elem_of_singleton in Hin as ->. by eexists.
Qed.

Lemma get_threads_harts id hs (s s' s2 : S) : get_threads (E := E) id s = (Ret hs, s') ->
  harts (get_gdb s2) = harts (get_gdb s) -> get_threads (E := E) id s2 = (Ret hs, s2).
Proof.
  unfold get_threads, gdb, gets, mbind, M_bind. intros Hg ->. revert Hg. destruct (_ =? GDB_THREAD_ALL); [by intros [= <- _] |].
  destruct (_ <? 1); [done |]. destruct (harts (get_gdb s) !! _); [by intros [= <- _] | done].
Qed.

(** The thread that vCont chooses is the current one. *)
Lemma current_of_stopped h i (s : S) : harts (sim_gdb s) !! i = Some h -> Z.of_nat i + 1 < 2 ^ 31 ->
  current (E := E) h (with_gdb (set_thread_op op_g (Z.of_nat i + 1) (sim_gdb s)) s).
Proof.
  intros Hi Hb. unfold current, get_threads, gdb, gets, mbind, M_bind. cbn [get_gdb sim_system with_gdb sim_gdb thread_ops set_thread_op harts].
  rewrite lookup_insert_eq. cbn [default option_rect from_option]. unfold id, GDB_THREAD_ANY, GDB_THREAD_ALL.
  destruct (Z.eqb_spec (Z.of_nat i + 1) 0); [lia |].
  destruct (Z.eqb_spec (Z.of_nat i + 1) (-1)); [lia |]. destruct (Z.ltb_spec (Z.of_nat i + 1) 1); [lia |].
  replace (Z.to_nat (Z.of_nat i + 1 - 1)) with i by lia. by rewrite Hi.
Qed.

(** One action: the harts are selected, run, and their statuses looked at. *)
Lemma vcont_one (s s1 s2 : S) action sig p tid0 hs v :
  get_threads (E := E) tid0 s = (Ret hs, s) -> action = 99 \/ action = 115 -> (0 < tid0 -> length hs = 1%nat) ->
  run_threads (E := E) hs (action =? 115) s = (Ret hs, s1) ->
  stop_reasons (E := E) hs (mkVcontState [] None (-1)) s1 = (Ret v, s2) -> matched v = [] ->
  harts (get_gdb s2) = harts (get_gdb s) ->
  vcont_actions (E := E) [mkVcont action sig (mkThread p tid0)] (mkVcontState [] None (-1)) s
  = (Ret (Some (mkVcontState (if 0 <? tid0 then hs else []) (stop_reason v) (stopped_thread v))), s2).
Proof.
  intros Hthr Ha Hone Hs1 Hs2 Hm Hh2.
  assert (Hsel : catch_failure OutOfRange
      (run ← get_threads tid0;
       hs ← run_threads (List.filter (fun hart => negb (bool_decide (hart ∈ []))) run) (action =? 115); mret (Some hs)) (mret None) s
    = (Ret (Some hs), s1)).
  { unfold catch_failure, mbind, M_bind. rewrite Hthr.
    rewrite (forallb_filter_id (fun hart : H => negb (bool_decide (hart ∈ [])))).
    - by rewrite Hs1.
    - apply forallb_forall. intros h' _. rewrite bool_decide_false; [done | apply not_elem_of_nil]. }
  cbn [vcont_actions vc_action vc_thread tid matched]. unfold mbind at 1, M_bind at 1.
  assert (Hone' : (if action =? 115 then mret true else if action =? 99 then mret false else fatal InvalidArgument : M S E bool) s
    = (Ret (action =? 115), s)) by (by destruct Ha as [-> | ->]).
  rewrite Hone'. unfold mbind at 1, M_bind at 1. rewrite Hsel. unfold mbind at 1, M_bind at 1. rewrite Hs2.
  unfold mbind at 1, M_bind at 1. destruct (Z.ltb_spec 0 tid0) as [Hp | Hp].
  - unfold mbind at 1, M_bind at 1. rewrite (get_threads_harts tid0 hs s s s2 Hthr Hh2). unfold mbind, M_bind.
    rewrite (Hone Hp). cbn [assert Nat.eqb skip mret M_ret]. by rewrite Hm, app_nil_r.
  - cbn [mret M_ret]. destruct v as [m r t]. cbn [matched] in Hm. by subst m.
Qed.


(** A wait that does not end is the command's. *)
Lemma vcont_blocked (s s1 : S) action sig p tid0 hs :
  get_threads (E := E) tid0 s = (Ret hs, s) -> action = 99 \/ action = 115 ->
  run_threads (E := E) hs (action =? 115) s = (Fatal Blocked, s1) ->
  vCont (E := E) [mkVcont action sig (mkThread p tid0)] s = (Fatal Blocked, s1).
Proof.
  intros Hthr Ha Hs1. unfold vCont, vcont_actions. cbn [vc_action vc_thread tid matched].
  assert (Ha' : (if action =? 115 then mret true else if action =? 99 then mret false else fatal InvalidArgument : M S E bool) s
    = (Ret (action =? 115), s)) by (by destruct Ha as [-> | ->]).
  do 2 (unfold mbind at 1, M_bind at 1). rewrite Ha'. unfold mbind at 1, M_bind at 1. unfold catch_failure at 1.
  do 2 (unfold mbind at 1, M_bind at 1). rewrite Hthr. unfold mbind at 1, M_bind at 1.
  rewrite (forallb_filter_id (fun hart : H => negb (bool_decide (hart ∈ [])))).
  - rewrite Hs1. by destruct (decide _).
  - apply forallb_forall. intros h' _. rewrite bool_decide_false; [done | apply not_elem_of_nil].
Qed.

(** After the answer no hart is left at a breakpoint or runs. *)
Lemma taken_answered base h st (s s' : S) : taken base s h st -> same_but_status s s' ->
  sim_status s' h = match st with HitBreakpoint => Runnable | _ => st end ->
  (sim_status s' h <> HitBreakpoint /\ halted h s') /\ (st <> Runnable -> stopped_since base h st s').
Proof.
  intros (Hst & Hh & Hb) (_ & Hp & Hs & _) Hst'. unfold halted, stopped_since in *. rewrite Hp, Hs, Hst'. rewrite Hst in Hh.
  split; [| done]. split; [by destruct st |]. destruct (sim_phase s h); try done. by destruct st.
Qed.


(** ** A hart that ends while the server stops it *)

(** The process of a hart that has ended never notifies again: a command that resumes
    this hart alone is never answered, whatever the scheduler does. *)
Lemma ended_wait h l : forall up (s : S), up = false -> sim_phase s h = Ended -> wait_turns (E := E) [h] l up s = None.
Proof.
  induction l as [| [h' |] l IH]; intros up s -> Hp; cbn [wait_turns]; [done | | by apply IH].
  destruct (decide (h' = h)) as [-> | Hne].
  - unfold turn. rewrite Hp. by apply IH.
  - apply IH.
    + rewrite bool_decide_false; [by rewrite andb_false_r |]. by intros [= ?]%list_elem_of_singleton.
    + by rewrite turn_phase_other.
Qed.

Lemma vcont_ended (s : S) action sig p tid0 h :
  get_threads (E := E) tid0 s = (Ret [h], s) -> action = 99 \/ action = 115 -> sim_phase s h = Ended ->
  fst (vCont (E := E) [mkVcont action sig (mkThread p tid0)] s) = Fatal Blocked.
Proof.
  intros Hthr Ha Hp. set (s1 := with_gdb (set_single_run (action =? 115) (sim_gdb s)) s).
  erewrite (vcont_blocked s s1); [done | exact Hthr | done |].
  unfold run_threads, mbind, M_bind, update_gdb, modify. cbn [for_each run_event_notify sim_system get_gdb set_gdb]. fold s1.
  assert (Hn : notify_run h s1 = s1) by (unfold notify_run; subst s1; cbn; by rewrite Hp).
  unfold mbind, M_bind, modify. rewrite Hn. cbn [skip mret M_ret wait_any sim_system]. unfold wait_stops.
  by rewrite ended_wait.
Qed.
End run.

(** ** A bench: harts whose steps are known beforehand *)

Record run_bench : Type := mkRunBench { rb_pc : nat -> Z; rb_script : nat -> list step_result; rb_out : list Z }.

#[export] Instance run_bench_target : gdb_target run_bench unit nat := {
  target_isock trans := mret (set_response_status TLM_ADDRESS_ERROR_RESPONSE trans, 0);
  target_v2p _ := None;
  target_write data s := (Ret true, mkRunBench (rb_pc s) (rb_script s) (rb_out s ++ data));
  target_insert_breakpoint _ _ := skip;
  target_remove_breakpoint _ _ := skip;
  target_read_register _ r := if 31 <? r then fatal OutOfRange else mret r;
  target_id h := Z.of_nat h;
  target_pc h s := rb_pc s h;
  target_registers _ _ := replicate 32 0;
  target_step h s :=
    let r := hd Continues (rb_script s h) in
    (r, mkRunBench (match r with AtBreakpoint => rb_pc s | _ => <[h := rb_pc s h + 4]> (rb_pc s) end)
          (<[h := tl (rb_script s h)]> (rb_script s)) (rb_out s))
}.

(** Two harts, with a scheduler that lets the processes of the harts and the server
    take turns. *)
Definition run_bench_start (script : nat -> list step_result) (rounds : nat) : gdb_sim run_bench nat :=
  mkSim (mkRunBench (fun _ => 0x80000000) script []) (mkGDBServer false RV32 [0%nat; 1%nat] ∅ None)
    (fun _ => Runnable) (fun _ => Waits) [] (concat (replicate rounds [Some 0%nat; Some 1%nat; None])).

Definition second_stops (h : nat) : list step_result := match h with 1%nat => [Continues; AtBreakpoint] | _ => [] end.
Abbreviation continue_all := [mkVcont 99 (-1) (mkThread (-2) GDB_THREAD_ALL)].


(** The first hart reaches a breakpoint when the second one is before the instruction
    that ends the program: the server stops the second one, which ends all the same,
    and restores its status of before. *)
Definition second_exits (h : nat) : list step_result := match h with 0%nat => [AtBreakpoint] | _ => [Continues; Exits] end.
Lemma forced_exit_lost :
  let s' := snd (vCont (E := unit) continue_all (run_bench_start second_exits 20)) in
  rb_out (sim_world s') = lit "$T05thread:1;#d7" /\ sim_status s' 1%nat = Runnable /\ sim_phase s' 1%nat = Ended.
Proof. by vm_compute. Qed.

(** ** A thread that does not exist *)

(** setThread takes any number; the next command that means the current hart then
    throws an exception no handler catches. *)
Lemma unknown_thread {S E H : Type} `{EqDecision H} `{gdb_system S E H} (s : S) k :
  thread_ops (get_gdb s) !! op_g = Some k -> Z.of_nat (length (harts (get_gdb s))) < k ->
  getRegisters (E := E) s = (Fatal OutOfRange, s).
Proof.
  intros Hop Hk. unfold getRegisters, exec_thread, get_threads, gdb, gets, mbind, M_bind. rewrite Hop.
  cbn [default option_rect from_option].
  unfold id, GDB_THREAD_ANY, GDB_THREAD_ALL. destruct (Z.eqb_spec k 0); [lia |]. destruct (Z.eqb_spec k (-1)); [lia |].
  destruct (Z.ltb_spec k 1); [lia |]. rewrite lookup_ge_None_2 by lia. done.
Qed.
