(* ===== verification/DeviceSafe.v ===== *)
(** * Safety of devices

    A device of a platform keeps an invariant [I] of the environment of the core,
    throws no exception of the core, copies within its arrays only, and changes
    nothing of the core but its interrupt lines.  The rules establish this for
    computations on register ranges and views, for memories, and for a bus from
    its targets. *)

From S2P Require Import Prelude Instr Trap Csr Iss IssLogic IssInv IssSafe Memory Bus Mmu MemIf MemIfSafe MemoryMap.

Section device.
Context {X : Type} (I : mem_env X -> Prop).

Abbreviation R := (M (machine (mem_env X)) SimulationTrap).

Definition dev {A} (m : R A) (Q : A -> Prop) : Prop :=
  forall s, core_ok (core s) -> I (env s) ->
    match m s with
    | (Ret a, s') => Q a /\ mip_change (core s) (core s') /\ I (env s')
    | (Throw _, _) => False
    | (Fatal f, _) => f <> UndefinedBehaviour
    end.

Lemma dev_ret {A} (a : A) (Q : A -> Prop) : Q a -> dev (mret a) Q.
Proof. intros HQ s ??. split; [done |]. split; [by left | done]. Qed.

Lemma dev_skip : dev skip (fun _ => True).
Proof. exact (dev_ret tt (fun _ => True) Logic.I). Qed.

Lemma dev_fatal {A} f (Q : A -> Prop) : f <> UndefinedBehaviour -> dev (fatal f) Q.
Proof. intros Hf s ??. exact Hf. Qed.

Lemma dev_bind {A B} (m : R A) (k : A -> R B) Q Q' :
  dev m Q -> (forall a, Q a -> dev (k a) Q') -> dev (m ≫= k) Q'.
Proof.
  intros Hm Hk s Hc Hs. specialize (Hm s Hc Hs). unfold mbind, M_bind.
  destruct (m s) as [[a|e|f] s1]; [| done | done]. destruct Hm as (HQ & Hmip & Hs1).
  specialize (Hk a HQ s1 (mip_change_ok _ _ Hmip Hc) Hs1).
  destruct (k a s1) as [[b|e|f] s2]; [| done | done]. destruct Hk as (? & Hmip2 & ?).
  split; [done |]. split; [by eapply mip_change_trans | done].
Qed.

Lemma dev_conseq {A} (m : R A) (Q Q' : A -> Prop) :
  dev m Q -> (forall a, Q a -> Q' a) -> dev m Q'.
Proof.
  intros Hm HQ s Hc Hs. specialize (Hm s Hc Hs). destruct (m s) as [[a|e|f] s1]; [| done | done].
  destruct Hm as (? & ? & ?). auto.
Qed.

Lemma dev_assert b : dev (assert b) (fun _ => b = true).
Proof. destruct b; [exact (dev_ret tt (fun _ => true = true) eq_refl) | by apply dev_fatal]. Qed.

Lemma dev_ensure b : dev (ensure b) (fun _ => b = true).
Proof. destruct b; [exact (dev_ret tt (fun _ => true = true) eq_refl) | by apply dev_fatal]. Qed.

Lemma dev_gets {A} (f : machine (mem_env X) -> A) (Q : A -> Prop) :
  (forall s, core_ok (core s) -> I (env s) -> Q (f s)) -> dev (gets f) Q.
Proof. intros HQ s Hc Hs. split; [by apply HQ |]. split; [by left | done]. Qed.

Lemma dev_gets_any {A} (f : machine (mem_env X) -> A) : dev (gets f) (fun _ => True).
Proof. by apply dev_gets. Qed.

Lemma dev_modify (g : machine (mem_env X) -> machine (mem_env X)) :
  (forall s, core_ok (core s) -> I (env s) -> mip_change (core s) (core (g s)) /\ I (env (g s))) ->
  dev (modify g) (fun _ => True).
Proof. intros Hg s Hc Hs. split; [done | by apply Hg]. Qed.

Lemma dev_when b (m : R unit) : (b = true -> dev m (fun _ => True)) -> dev (when b m) (fun _ => True).
Proof. destruct b; [auto |]. intros _. apply dev_skip. Qed.

(** ** Interrupt lines *)

Lemma mip_field_change f v c : core_ok c -> bf_wf f -> bf_lo f + bf_width f <= 32 ->
  mip_change c (set_csr_regs (set_bits csrs.mip f v (csr_regs c)) c).
Proof.
  intros Hc Hf Hw. right. exists (csr_get (set_bits csrs.mip f v (csr_regs c)) csrs.mip).
  assert (Hs : csrs_ok (set_bits csrs.mip f v (csr_regs c))) by (apply set_bits_ok; (done || apply Hc)).
  split; [by apply csr_get_range32 |]. unfold set_bits. by rewrite csr_get_set_same.
Qed.

Lemma dev_mip_field f v : bf_wf f -> bf_lo f + bf_width f <= 32 ->
  dev (set_csr_field csrs.mip f v) (fun _ => True).
Proof. intros Hf Hw. apply dev_modify. intros s Hc Hs. split; [by apply mip_field_change | done]. Qed.

(** ** Register ranges *)

Definition info_ok (r : RegisterRange (machine (mem_env X)) SimulationTrap) (size : Z) (i : AccessInfo) : Prop :=
  0 <= info_addr i /\ info_addr i < size.

Record range_safe (r : RegisterRange (machine (mem_env X)) SimulationTrap) (size : Z) : Prop := {
  safe_size : 0 < size < 2 ^ 32 /\ forall s, I (env s) -> rr_size s r = size;
  safe_span : 0 <= rr_start r /\ rr_end r = rr_start r + size - 1 /\ rr_end r < 2 ^ 63;
  safe_bytes s : I (env s) -> Forall byte_ok (rr_mem r s);
  safe_set s m : core_ok (core s) -> I (env s) -> length m = length (rr_mem r s) -> Forall byte_ok m ->
    mip_change (core s) (core (rr_set_mem r m s)) /\ I (env (rr_set_mem r m s));
  safe_pre_read f i : pre_read_callback r = Some f -> info_ok r size i -> dev (f i) (fun _ => True);
  safe_post_read f i : post_read_callback r = Some f -> info_ok r size i -> dev (f i) (fun _ => True);
  safe_pre_write f i : pre_write_callback r = Some f -> info_ok r size i -> dev (f i) (fun _ => True);
  safe_post_write f i : post_write_callback r = Some f -> info_ok r size i -> dev (f i) (fun _ => True)
}.

Lemma dev_range_check r size addr len : range_safe r size -> 0 < len <= 8 ->
  dev (range_check r addr len) (fun a => 0 <= a /\ a + len <= size).
Proof.
  intros [[Hs Hsz] (H0 & He & Hb) _ _ _ _ _ _] Hl. unfold range_check.
  eapply dev_bind; [apply dev_assert | intros [] Hc].
  unfold range_contains in Hc.
  eapply dev_bind; [apply (dev_gets _ (fun n => n = size)); intros s _ HI; by apply Hsz | intros n ->].
  eapply dev_bind; [apply dev_assert | intros [] Hf]. apply dev_ret.
  unfold to_local, uint64 in *. rewrite !uint_id in Hf by (rewrite ?uint_id; unfold is_uint; lia).
  rewrite uint_id by (unfold is_uint; lia). lia.
Qed.

Lemma dev_run_pre c i : (forall f, c = Some f -> dev (f i) (fun _ => True)) -> dev (run_pre c i) (fun _ => True).
Proof. intros Hc. destruct c as [f|]; [by apply Hc | by apply dev_ret]. Qed.

Lemma dev_run_post c i : (forall f, c = Some f -> dev (f i) (fun _ => True)) -> dev (run_post c i) (fun _ => True).
Proof. intros Hc. destruct c as [f|]; [by apply Hc | apply dev_skip]. Qed.

Lemma Forall_inserts {A} (P : A -> Prop) k (src l : list A) :
  Forall P src -> Forall P l -> Forall P (list_inserts k src l).
Proof.
  rewrite !Forall_lookup. intros Hs Hl i x Hx. apply list_lookup_inserts_Some in Hx.
  destruct Hx as [[_ Hx]|(_ & _ & Hx)]; eauto.
Qed.

Lemma dev_range_write r size addr src trans delay :
  range_safe r size -> 0 < Z.of_nat (length src) <= 8 -> Forall byte_ok src ->
  dev (range_write r addr src trans delay) (fun _ => True).
Proof.
  intros Hr Hl Hb. unfold range_write.
  eapply dev_bind; [by eapply dev_range_check | intros a Ha; cbv beta in Ha].
  assert (Hi : info_ok r size (mkAccessInfo a (Z.of_nat (length src)) trans delay))
    by (unfold info_ok; cbn; lia).
  eapply dev_bind; [apply dev_run_pre; intros f Hf; by eapply safe_pre_write | intros [] _];
    [| apply dev_skip].
  eapply dev_bind; [apply dev_modify | intros _ _; apply dev_run_post; intros f Hf; by eapply safe_post_write].
  intros s Hc Hs. eapply safe_set; [done | done | done | apply length_inserts |].
  apply Forall_inserts; [done | by eapply safe_bytes].
Qed.

Lemma dev_range_read r size addr dst trans delay :
  range_safe r size -> 0 < Z.of_nat (length dst) <= 8 -> Forall byte_ok dst ->
  dev (range_read r addr dst trans delay) (fun bs => length bs = length dst /\ Forall byte_ok bs).
Proof.
  intros Hr Hl Hb. unfold range_read.
  eapply dev_bind; [by eapply dev_range_check | intros a Ha; cbv beta in Ha].
  assert (Hi : info_ok r size (mkAccessInfo a (Z.of_nat (length dst)) trans delay))
    by (unfold info_ok; cbn; lia).
  eapply dev_bind; [apply dev_run_pre; intros f Hf; by eapply safe_pre_read | intros [] _];
    [| by apply dev_ret].
  eapply dev_bind; [apply (dev_gets _ (fun bs => length bs = length dst /\ Forall byte_ok bs)) |].
  - intros s _ Hs. destruct (safe_size _ _ Hr) as [_ Hsz]. specialize (Hsz s Hs). unfold rr_size in Hsz.
    split; [rewrite length_take, length_drop; lia |].
    apply Forall_take, Forall_drop. by eapply safe_bytes.
  - intros bs Hbs. eapply dev_bind; [apply dev_run_post; intros f Hf; by eapply safe_post_read | intros _ _].
    by apply dev_ret.
Qed.

(** The answer of a target to a transaction. *)
Definition answer_ok (t t' : tlm_generic_payload) : Prop :=
  length (payload_data t') = length (payload_data t) /\ Forall byte_ok (payload_data t').

Lemma dev_range_process r size t delay :
  range_safe r size -> payload_ok t -> dev (range_process r t delay) (answer_ok t).
Proof.
  intros Hr (Hcmd & Ha & Hl & Hb). unfold range_process. unfold data_length in Hl.
  eapply dev_bind; [apply dev_ensure | intros _ _]. destruct (command t); [| | done].
  - eapply dev_bind; [by eapply dev_range_read | intros bs Hbs]. by apply dev_ret.
  - eapply dev_bind; [apply dev_ensure | intros _ _].
    eapply dev_bind; [by eapply dev_range_write | intros _ _]. by apply dev_ret.
Qed.

Lemma dev_route ranges t delay :
  Forall (fun r => exists size, range_safe r size) ranges -> payload_ok t ->
  dev (route ranges t delay) (answer_ok t).
Proof.
  intros Hr Ht. induction Hr as [|r ranges [size Hr] _ IH]; cbn [route]; [by apply dev_fatal |].
  destruct (range_match r t); [by eapply dev_range_process | done].
Qed.

(** ** Views *)

Lemma dev_index_read T r idx :
  (forall s, I (env s) -> 0 <= idx < view_size T (rr_mem r s)) ->
  dev (index_read T r idx) (in_type T).
Proof.
  intros Hi s Hc Hs. unfold index_read, gets, mbind, M_bind. specialize (Hi s Hs).
  assert ((0 <=? idx) && (idx <? view_size T (rr_mem r s)) = true) as -> by lia.
  split; [apply elem_range |]. split; [by left | done].
Qed.

Lemma dev_integer_read T r : dev (integer_read T r) (in_type T).
Proof. apply dev_gets. intros. apply elem_range. Qed.

Lemma dev_set_elem T r size idx v : range_safe r size ->
  dev (modify (fun s => rr_set_mem r (set_elem T idx v (rr_mem r s)) s)) (fun _ => True).
Proof.
  intros Hr. apply dev_modify. intros s Hc Hs. eapply safe_set; [done | done | done | |].
  - apply length_set_elem.
  - apply set_elem_ok. by eapply safe_bytes.
Qed.

Lemma dev_integer_write T r size v : range_safe r size -> dev (integer_write T r v) (fun _ => True).
Proof. apply dev_set_elem. Qed.

Lemma dev_index_write T r size idx v : range_safe r size ->
  (forall s, I (env s) -> 0 <= idx < view_size T (rr_mem r s)) ->
  dev (index_write T r idx v) (fun _ => True).
Proof.
  intros Hr Hi s Hc Hs. unfold index_write, gets. unfold mbind at 1, M_bind at 1. specialize (Hi s Hs).
  assert ((0 <=? idx) && (idx <? view_size T (rr_mem r s)) = true) as -> by lia.
  by apply (dev_set_elem T r size idx v Hr).
Qed.

(** The assertion of [operator[]] is the bound the access needs. *)
Lemma dev_array_read T r idx : 0 <= idx -> dev (array_read T r idx) (in_type T).
Proof.
  intros Hi s Hc Hs. unfold array_read, gets. unfold mbind at 1, M_bind at 1.
  destruct (idx <? view_size T (rr_mem r s)) eqn:Hlt; [| done].
  unfold mbind at 1, M_bind at 1. cbn [assert skip mret M_ret].
  unfold index_read, gets, mbind, M_bind. assert ((0 <=? idx) = true) as -> by lia. rewrite Hlt.
  split; [apply elem_range |]. split; [by left | done].
Qed.

Lemma dev_array_write T r size idx v : range_safe r size -> 0 <= idx ->
  dev (array_write T r idx v) (fun _ => True).
Proof.
  intros Hr Hi s Hc Hs. unfold array_write, gets. unfold mbind at 1, M_bind at 1.
  destruct (idx <? view_size T (rr_mem r s)) eqn:Hlt; [| done].
  unfold mbind at 1, M_bind at 1. cbn [assert skip mret M_ret].
  unfold index_write, gets. unfold mbind at 1, M_bind at 1. assert ((0 <=? idx) = true) as -> by lia.
  rewrite Hlt. by apply (dev_set_elem T r size idx v Hr).
Qed.

(** ** Targets and buses *)

Definition target_safe (t : transport_fn (machine (mem_env X)) SimulationTrap) : Prop :=
  forall p d, payload_ok p -> dev (t p d) (fun r => answer_ok p (fst r)).

Lemma bus_safe (b : SimpleBus (machine (mem_env X)) SimulationTrap) :
  length (isocks b) = length (ports b) -> Forall target_safe (isocks b) -> target_safe (bus_transport b).
Proof.
  intros Hl Ht p d Hp. unfold bus_transport. pose proof Hp as (Hc & Ha & Hn & Hb).
  destruct (decode (ports b) (address p)) as [i|] eqn:Hd.
  2: { apply dev_ret. by split. }
  apply decode_Some in Hd as [(q & Hq & _) _]. rewrite Hq.
  destruct (isocks b !! i) as [t|] eqn:Hi.
  - rewrite Forall_lookup in Ht.
    apply (Ht i t Hi (set_address (global_to_local q (address p)) p) d). split; [done |]. split; [by apply uint_range | done].
  - apply lookup_ge_None in Hi. apply lookup_lt_Some in Hq. lia.
Qed.

End device.
