(* ===== verification/Soc.v ===== *)
(** * A system: the core, the bus and its devices

    Models the wiring of platform/basic/main.cpp: the memory map of the bus, the
    RAM, the CLINT, the PLIC and the terminal behind it, and the interrupt lines
    from both controllers to the core.  The ports of the other devices are there as
    well, but the model of the system ends at the first access to one of them
    ([NotModelled]); before that these devices do nothing to the rest of the system
    but raise interrupts.  Whenever a process waits, other processes run:
    [schedule] says which ones, and which interrupts are raised, and the theorems
    hold for every schedule. *)

From S2P Require Import Prelude Instr Trap Csr Fp Iss IssExec IssLogic IssInv IssSafe Memory Bus Mmu MemIf MemIfSafe MemoryMap DeviceSafe Clint Plic.

(** ** Terminal *)

(** SimpleTerminal of platform/basic/terminal.h; [out] prints a character. *)
Definition terminal_transport {S E} (out : Z -> M S E unit) : transport_fn S E := fun trans delay =>
  assert (bool_decide (command trans = TLM_WRITE_COMMAND)) ;;
  assert (data_length trans =? 1) ;;
  out (default 0 (payload_data trans !! 0%nat)) ;;
  mret (trans, delay + 1000 * NS).

(** ** The state of the system *)

(** What the kernel runs while a process waits: time passes, the thread of a
    controller makes a pass, or a device raises an interrupt. *)
Inductive kernel_step : Type :=
  | Advance (t : Z)
  | RunClint
  | RunPlic
  | Gateway (irq_id : Z).

Record soc : Type := mkSoc {
  local_time : Z;
  time_stamp : Z;
  soc_clint : CLINT;
  soc_irq_event : option Z;
  soc_plic : FE310_PLIC;
  soc_e_run : option Z;
  output : list Z;
  schedule : list (list kernel_step)
}.

Definition set_local_time v x := mkSoc v (time_stamp x) (soc_clint x) (soc_irq_event x) (soc_plic x) (soc_e_run x) (output x) (schedule x).
Definition set_time_stamp v x := mkSoc (local_time x) v (soc_clint x) (soc_irq_event x) (soc_plic x) (soc_e_run x) (output x) (schedule x).
Definition set_soc_clint v x := mkSoc (local_time x) (time_stamp x) v (soc_irq_event x) (soc_plic x) (soc_e_run x) (output x) (schedule x).
Definition set_soc_irq_event v x := mkSoc (local_time x) (time_stamp x) (soc_clint x) v (soc_plic x) (soc_e_run x) (output x) (schedule x).
Definition set_soc_plic v x := mkSoc (local_time x) (time_stamp x) (soc_clint x) (soc_irq_event x) v (soc_e_run x) (output x) (schedule x).
Definition set_soc_e_run v x := mkSoc (local_time x) (time_stamp x) (soc_clint x) (soc_irq_event x) (soc_plic x) v (output x) (schedule x).
Definition set_output v x := mkSoc (local_time x) (time_stamp x) (soc_clint x) (soc_irq_event x) (soc_plic x) (soc_e_run x) v (schedule x).
Definition set_schedule v x := mkSoc (local_time x) (time_stamp x) (soc_clint x) (soc_irq_event x) (soc_plic x) (soc_e_run x) (output x) v.

Abbreviation soc_machine := (machine (mem_env soc)).
Abbreviation R := (M soc_machine SimulationTrap).

Definition soc_get {A} (f : soc -> A) (s : soc_machine) : A := f (devices (env s)).
Definition soc_set (f : soc -> soc) (s : soc_machine) : soc_machine :=
  Machine (core s) (set_devices (f (devices (env s))) (env s)).

(** ** The core as the target of interrupts

    Its interrupt interface uses nothing of its environment but the event it
    waits for in WFI: the other operations are not there yet. *)
#[local] Instance wfi_platform : platform (mem_env soc) := {
  load_instr _ := fatal Blocked; load_double _ := fatal Blocked; load_word _ := fatal Blocked;
  load_half _ := fatal Blocked; load_byte _ := fatal Blocked; load_uhalf _ := fatal Blocked;
  load_ubyte _ := fatal Blocked; store_double _ _ := fatal Blocked; store_word _ _ := fatal Blocked;
  store_half _ _ := fatal Blocked; store_byte _ _ := fatal Blocked;
  atomic_load_word _ := fatal Blocked; atomic_store_word _ _ := fatal Blocked;
  atomic_load_reserved_word _ := fatal Blocked; atomic_store_conditional_word _ _ := fatal Blocked;
  atomic_unlock := fatal Blocked; flush_tlb := fatal Blocked; update_and_get_mtime := fatal Blocked;
  execute_syscall := None; wait_wfi_event := fatal Blocked; notify_wfi_event := skip;
  quantum_keeper_inc _ := fatal Blocked; quantum_keeper_need_sync := fatal Blocked;
  quantum_keeper_sync := fatal Blocked
}.

(** sc_event::notify with a time: the earliest notification is kept. *)
Definition notify_at (t now : Z) (e : option Z) : option Z :=
  Some (match e with Some old => Z.min old (now + t) | None => now + t end).

#[export] Instance soc_clint_interface : clint_interface soc_machine SimulationTrap := {
  NumberOfCores := 1;
  get_clint := soc_get soc_clint;
  set_clint c := soc_set (set_soc_clint c);
  sc_time_stamp := soc_get time_stamp;
  irq_event_notify t :=
    modify (soc_set (fun x => set_soc_irq_event (notify_at t (time_stamp x) (soc_irq_event x)) x));
  target_timer_interrupt _ b := trigger_timer_interrupt b;
  target_software_interrupt _ b := trigger_software_interrupt b
}.

#[export] Instance soc_plic_interface : plic_interface soc_machine SimulationTrap := {
  NumberCores := 1;
  NumberInterrupts := 64;
  NumberInterruptEntries := 96;
  MaxPriority := 32;
  get_plic := soc_get soc_plic;
  set_plic p := soc_set (set_soc_plic p);
  e_run_notify t :=
    modify (soc_set (fun x => set_soc_e_run (notify_at t (time_stamp x) (soc_e_run x)) x));
  target_trigger_external _ level := trigger_external_interrupt level;
  target_clear_external _ level := clear_external_interrupt level
}.

(** ** The kernel *)

Definition run_kernel_step (k : kernel_step) : R unit :=
  match k with
  | Advance t => modify (soc_set (fun x => set_time_stamp (time_stamp x + Z.max 0 t) x))
  | RunClint => modify (soc_set (set_soc_irq_event None)) ;; clint_run
  | RunPlic => modify (soc_set (set_soc_e_run None)) ;; plic_run
  | Gateway irq_id => plic_gateway_trigger_interrupt irq_id
  end.

Fixpoint run_kernel_steps (ks : list kernel_step) : R unit :=
  match ks with
  | [] => skip
  | k :: ks => run_kernel_step k ;; run_kernel_steps ks
  end.

(** A wait of the core: the next part of the schedule. *)
Definition kernel_wait : R unit :=
  ks ← gets (soc_get schedule);
  match ks with
  | [] => skip
  | k :: ks => modify (soc_set (set_schedule ks)) ;; run_kernel_steps k
  end.

(** ** The bus *)

(** The other nine devices of the platform, in the order of their ports: the sensors,
    the DMA controller, the MRAM, the flash, the network, the display, the emulation
    of system calls and the client of the Unreal engine.  The model of the system
    ends where the program first accesses one of them. *)
Definition unmodelled_device : transport_fn soc_machine SimulationTrap := fun _ _ => fatal NotModelled.

(** BasicOptions, with the size of the frame buffer as a parameter. *)
Definition basic_ports (mem_size display_range : Z) : list PortMapping :=
  [ mkPortMapping 0x00000000 (mem_size - 1);
    mkPortMapping 0x02000000 0x0200ffff;
    mkPortMapping 0x40000000 0x41000000;
    mkPortMapping 0x20000000 (0x20000000 + 16);
    mkPortMapping 0x50000000 0x50001000;
    mkPortMapping 0x70000000 0x70001000;
    mkPortMapping 0x50002000 0x50004000;
    mkPortMapping 0x60000000 (0x60000000 + 0x10000000 - 1);
    mkPortMapping 0x71000000 (0x71000000 + 528);
    mkPortMapping 0x30000000 (0x30000000 + 1500);
    mkPortMapping 0x72000000 (0x72000000 + display_range);
    mkPortMapping 0x02010000 0x020103ff;
    mkPortMapping 0x73000000 (0x73000000 + 1500) ].

Definition ram_target (m : SimpleMemory.t) : transport_fn soc_machine SimulationTrap :=
  fun trans delay => on_heap (SimpleMemory.transport m trans delay).

Definition put_char (c : Z) : R unit := modify (soc_set (fun x => set_output (output x ++ [c]) x)).

Definition basic_bus (mem : SimpleMemory.t) (display_range : Z) : SimpleBus soc_machine SimulationTrap :=
  mkSimpleBus (basic_ports (SimpleMemory.size mem) display_range)
    ([ ram_target mem; clint_transport; plic_transport; terminal_transport put_char ] ++
     replicate 9 unmodelled_device).

(** A system: the configuration of the platform, the global quantum, and a bound
    on the wakeups while the bus is locked. *)
Record config : Type := mkConfig {
  mem : SimpleMemory.t;
  display_range : Z;
  global_quantum : Z;
  wakeups : nat
}.

Definition basic_system (c : config) : system soc := {|
  isock_b_transport := bus_transport (basic_bus (mem c) (display_range c));
  quantum_get_local_time := gets (soc_get local_time);
  quantum_set t := modify (soc_set (set_local_time t));
  quantum_inc t := modify (soc_set (fun x => set_local_time (local_time x + t) x));
  quantum_need_sync := gets (fun s => global_quantum c <=? soc_get local_time s);
  quantum_sync := kernel_wait ;; modify (soc_set (set_local_time 0));
  wait_lock_event := kernel_wait;
  notify_lock_event := skip;
  lock_wait_bound := wakeups c;
  clint_update_and_get_mtime := CLINT_update_and_get_mtime;
  system_execute_syscall := None;
  system_wait_wfi_event := kernel_wait;
  system_notify_wfi_event := skip
|}.

(** The thread of the core: [run] on the combined memory interface of the platform,
    at most [fuel] steps of it. *)
Definition run_basic (c : config) `{softfloat} (fuel : nat) : R bool :=
  run_loop (H := memory_platform (H := basic_system c)) fuel.
