(* ===== verification/SocSafe.v ===== *)
(** * Safety of the system

    The system of Soc.v keeps the contract of the memory interface, so that the
    theorems about the core hold on it: whatever program the core runs and
    whatever the schedule, no access leaves a host array, the invariant of the
    core and of every device is kept, and no trap escapes. *)

From S2P Require Import Prelude Instr Trap Csr Fp Iss IssExec IssLogic IssInv IssValues IssSafe IssExecSafe IssRun RamPlatform Memory Bus Mmu MemIf MemIfSafe MemoryMap DeviceSafe Clint Plic ClockSystem Soc.

(** The registers of the devices have their sizes and hold bytes. *)
Record devices_ok (x : soc) : Prop := {
  soc_mtime : length (mtime_mem (soc_clint x)) = 8%nat /\ Forall byte_ok (mtime_mem (soc_clint x));
  soc_mtimecmp : length (mtimecmp_mem (soc_clint x)) = 8%nat /\ Forall byte_ok (mtimecmp_mem (soc_clint x));
  soc_msip : length (msip_mem (soc_clint x)) = 4%nat /\ Forall byte_ok (msip_mem (soc_clint x));
  soc_priorities : length (priorities_mem (soc_plic x)) = 260%nat /\ Forall byte_ok (priorities_mem (soc_plic x));
  soc_pending : length (pending_mem (soc_plic x)) = 384%nat /\ Forall byte_ok (pending_mem (soc_plic x));
  soc_enabled : length (enabled_mem (soc_plic x)) = 384%nat /\ Forall byte_ok (enabled_mem (soc_plic x));
  soc_config : length (config_mem (soc_plic x)) = 8%nat /\ Forall byte_ok (config_mem (soc_plic x));
  soc_eip : length (hart_eip (soc_plic x)) = 1%nat
}.

Record soc_ok (c : config) (e : mem_env soc) : Prop := {
  soc_heap : heap_ok (mem_heap e);
  soc_dmi : Forall (dmi_in (mem_heap e)) (dmi_ranges e);
  soc_mmu : mmu e = None;
  soc_ram : memory_in (mem_heap e) (mem c);
  soc_devices : devices_ok (devices e)
}.

(** A memory that ends below the CLINT, as main.cpp asserts, and ports that do not
    overlap. *)
Record config_ok (c : config) : Prop := {
  config_mem_size : 0 < SimpleMemory.size (mem c) <= 0x2000000;
  config_display : 0 <= display_range c < 0x1000000
}.

Section soc.
Context (c : config).

Abbreviation dev := (DeviceSafe.dev (soc_ok c)).

Lemma dev_soc_set (f : soc -> soc) :
  (forall x, devices_ok x -> devices_ok (f x)) -> dev (modify (soc_set f)) (fun _ => True).
Proof.
  intros Hf. apply dev_modify. intros s Hc [? ? ? ? ?]. split; [by left |].
  constructor; [done | done | done | done |]. by apply Hf.
Qed.

Lemma soc_set_env f s : core_ok (core s) -> soc_ok c (env s) ->
  devices_ok (f (devices (env s))) -> mip_change (core s) (core (soc_set f s)) /\ soc_ok c (env (soc_set f s)).
Proof. intros Hc [? ? ? ? ?] Hd. split; [by left | by constructor]. Qed.

(** ** CLINT *)

Lemma clint_view_safe start size get set :
  0 < size < 2 ^ 32 -> 0 <= start < 2 ^ 62 ->
  (forall x, devices_ok x -> Z.of_nat (length (get (soc_clint x))) = size /\ Forall byte_ok (get (soc_clint x))) ->
  (forall s m, core_ok (core s) -> soc_ok c (env s) -> length m = length (get (get_clint s)) ->
     Forall byte_ok m -> mip_change (core s) (core (set m s)) /\ soc_ok c (env (set m s))) ->
  range_safe (soc_ok c) (clint_range start size get set) size.
Proof.
  intros Hs Hst Hg Hset. constructor; try done.
  - split; [done |]. intros s Hok. apply (Hg (devices (env s))), Hok.
  - cbn. lia.
  - intros s Hok. apply (Hg (devices (env s))), Hok.
Qed.

Lemma mtime_safe : range_safe (soc_ok c) mtime_view 8.
Proof.
  apply clint_view_safe; [done | done | |].
  - intros x Hx. destruct (soc_mtime _ Hx) as [-> ?]. done.
  - intros s m Hc Hs Hl Hm. apply soc_set_env; [done | done |].
    destruct Hs as [_ _ _ _ [[Hl0 ?] ? ? ? ? ? ? ?]]. constructor; try done. split; [| done].
    cbn. by rewrite Hl.
Qed.

Lemma mtimecmp_safe : range_safe (soc_ok c) mtimecmp_view 8.
Proof.
  apply clint_view_safe; [done | done | |].
  - intros x Hx. destruct (soc_mtimecmp _ Hx) as [-> ?]. done.
  - intros s m Hc Hs Hl Hm. apply soc_set_env; [done | done |].
    destruct Hs as [_ _ _ _ [? [Hl0 ?] ? ? ? ? ? ?]]. constructor; try done. split; [| done].
    cbn. by rewrite Hl.
Qed.

Lemma msip_safe : range_safe (soc_ok c) msip_view 4.
Proof.
  apply clint_view_safe; [done | done | |].
  - intros x Hx. destruct (soc_msip _ Hx) as [-> ?]. done.
  - intros s m Hc Hs Hl Hm. apply soc_set_env; [done | done |].
    destruct Hs as [_ _ _ _ [? ? [Hl0 ?] ? ? ? ? ?]]. constructor; try done. split; [| done].
    cbn. by rewrite Hl.
Qed.

Lemma dev_trigger_timer i b : dev (target_timer_interrupt i b) (fun _ => True).
Proof.
  cbn [target_timer_interrupt soc_clint_interface]. unfold trigger_timer_interrupt. eapply dev_bind; [by apply dev_mip_field | intros _ _]. apply dev_skip.
Qed.

Lemma dev_trigger_software i b : dev (target_software_interrupt i b) (fun _ => True).
Proof.
  cbn [target_software_interrupt soc_clint_interface]. unfold trigger_software_interrupt. eapply dev_bind; [by apply dev_mip_field | intros _ _]. apply dev_skip.
Qed.

Lemma dev_irq_event t : dev (irq_event_notify t) (fun _ => True).
Proof. apply dev_soc_set. by intros x []. Qed.

Lemma dev_update_mtime : dev CLINT_update_and_get_mtime (is_uint 64).
Proof.
  unfold CLINT_update_and_get_mtime. eapply dev_bind; [apply dev_gets_any | intros now _].
  eapply dev_bind; [apply dev_integer_read | intros m _].
  eapply dev_bind; [apply dev_when; intros _; eapply dev_integer_write, mtime_safe | intros _ _].
  apply (dev_integer_read _ uint64_t).
Qed.

Lemma dev_update_timer i : dev (update_timer_interrupt i) (fun _ => True).
Proof.
  unfold update_timer_interrupt. eapply dev_bind; [apply dev_array_read; lia | intros cmp _].
  eapply dev_bind; [apply dev_integer_read | intros m _].
  destruct (_ && _); [apply dev_trigger_timer |].
  eapply dev_bind; [apply dev_trigger_timer | intros _ _]. apply dev_when. intros _. cbv zeta.
  apply dev_irq_event.
Qed.

Lemma dev_update_timers n : forall i, dev (update_timer_interrupts i n) (fun _ => True).
Proof.
  induction n as [|n IH]; intros i; cbn [update_timer_interrupts]; [apply dev_skip |].
  eapply dev_bind; [apply dev_update_timer | intros _ _]. apply IH.
Qed.

Lemma dev_clint_run : dev clint_run (fun _ => True).
Proof.
  unfold clint_run. eapply dev_bind; [apply dev_update_mtime | intros _ _]. apply dev_update_timers.
Qed.

(** A range with callbacks is as safe as its view. *)
Lemma range_safe_callbacks r size pw po pr ps readonly alignment :
  range_safe (soc_ok c) r size ->
  (forall f i, pr = Some f -> info_ok r size i -> dev (f i) (fun _ => True)) ->
  (forall f i, ps = Some f -> info_ok r size i -> dev (f i) (fun _ => True)) ->
  (forall f i, pw = Some f -> info_ok r size i -> dev (f i) (fun _ => True)) ->
  (forall f i, po = Some f -> info_ok r size i -> dev (f i) (fun _ => True)) ->
  range_safe (soc_ok c)
    (mkRegisterRange (rr_start r) (rr_end r) (rr_mem r) (rr_set_mem r) readonly alignment pw po pr ps) size.
Proof. intros [? ? ? ? _ _ _ _] Hpr Hps Hpw Hpo. by constructor. Qed.

Lemma clint_target_safe : target_safe (soc_ok c) clint_transport.
Proof.
  intros p d Hp. unfold clint_transport. eapply dev_bind; [apply dev_route; [| exact Hp] |].
  - repeat constructor.
    + exists 8. apply range_safe_callbacks; [exact mtime_safe | | done..]. intros f i [= <-] _.
      unfold pre_read_mtime. eapply dev_bind; [apply dev_gets_any | intros now _].
      eapply dev_bind; [eapply dev_integer_write, mtime_safe | intros _ _]. by apply dev_ret.
    + exists 8. apply range_safe_callbacks; [exact mtimecmp_safe | done | done | done |].
      intros f i [= <-] _. apply dev_irq_event.
    + exists 4. apply range_safe_callbacks; [exact msip_safe | done | done | done |].
      intros f i [= <-] [Hi _]. unfold post_write_msip. eapply dev_bind; [apply dev_assert | intros _ _].
      cbv zeta. assert (Hidx : 0 <= uint32 (info_addr i / 4)) by (by apply uint_range).
      eapply dev_bind; [by apply dev_array_read | intros v _].
      eapply dev_bind; [by eapply dev_array_write; [apply msip_safe |] | intros _ _].
      eapply dev_bind; [by apply dev_array_read | intros w _]. apply dev_trigger_software.
  - intros t Ht. by apply dev_ret.
Qed.

(** ** PLIC *)

Lemma plic_view_safe start size get set ro al :
  0 < size < 2 ^ 32 -> 0 <= start < 2 ^ 62 ->
  (forall x, devices_ok x -> Z.of_nat (length (get (soc_plic x))) = size /\ Forall byte_ok (get (soc_plic x))) ->
  (forall x m, devices_ok x -> length m = length (get (soc_plic x)) -> Forall byte_ok m ->
     devices_ok (set_soc_plic (set m (soc_plic x)) x)) ->
  range_safe (soc_ok c) (plic_range start size get set ro al None None) size.
Proof.
  intros Hs Hst Hg Hset. constructor; try done.
  - split; [done |]. intros s Hok. apply (Hg (devices (env s))), Hok.
  - cbn. lia.
  - intros s Hok. apply (Hg (devices (env s))), Hok.
  - intros s m Hc Hok Hl Hm. apply soc_set_env; [done | done |]. apply Hset; [apply Hok | done | done].
Qed.

Ltac plic_view_tac :=
  apply plic_view_safe; [done | done | |];
  [ intros x Hx; destruct Hx as [? ? ? [Hl1 ?] [Hl2 ?] [Hl3 ?] [Hl4 ?] ?]; cbn in *;
    rewrite ?Hl1, ?Hl2, ?Hl3, ?Hl4; done
  | intros x m Hx Hl Hm; destruct Hx as [? ? ? [Hl1 ?] [Hl2 ?] [Hl3 ?] [Hl4 ?] ?]; cbn in Hl;
    constructor; try done; (split; [cbn; congruence | done]) ].

Lemma priorities_safe : range_safe (soc_ok c) priorities_view 260.
Proof. plic_view_tac. Qed.
Lemma pending_safe : range_safe (soc_ok c) pending_view 384.
Proof. plic_view_tac. Qed.
Lemma enabled_safe : range_safe (soc_ok c) enabled_view 384.
Proof. plic_view_tac. Qed.
Lemma config_safe : range_safe (soc_ok c) config_view 8.
Proof. plic_view_tac. Qed.

Lemma words_of n r idx : range_safe (soc_ok c) r (n * 4) -> 0 <= idx < n ->
  forall s, soc_ok c (env s) -> 0 <= idx < view_size uint32_t (rr_mem r s).
Proof.
  intros Hr Hi s Hs. destruct (safe_size _ _ _ Hr) as [_ Hsz]. specialize (Hsz s Hs).
  unfold view_size. unfold rr_size in Hsz. rewrite Hsz. change (Z.of_nat (sizeof uint32_t)) with 4. by rewrite Z.div_mul.
Qed.

Lemma dev_config_index hart : dev (config_index hart) (fun _ => True).
Proof.
  unfold config_index. eapply dev_bind; [apply dev_gets_any | intros m _].
  by eapply dev_conseq; [apply dev_assert |].
Qed.

Lemma dev_priority_threshold : dev (priority_threshold 0) (is_uint 32).
Proof.
  unfold priority_threshold. eapply dev_bind; [apply dev_config_index | intros _ _].
  apply (dev_index_read _ uint32_t). by apply (words_of 2 _ _ config_safe).
Qed.

Lemma dev_next_pending above n : forall i id mx, 0 <= id -> (i + n <= 64)%nat ->
  dev (next_pending 0 above i n id mx) (fun r => 0 <= r).
Proof.
  induction n as [|n IH]; intros i id mx Hid Hi; cbn [next_pending]; [by apply dev_ret |]. cbv zeta.
  assert (Hw : 0 <= Z.of_nat i / 32 < 96).
  { split; [apply Z.div_pos; lia | apply Z.div_lt_upper_bound; lia]. }
  assert (Hnext : dev (next_pending 0 above (Datatypes.S i) n id mx) (fun r => 0 <= r))
    by (apply IH; [done | lia]).
  eapply dev_bind; [apply dev_index_read; apply (words_of 96 _ _ enabled_safe); lia | intros e _].
  destruct (nonzero _); [| done].
  eapply dev_bind; [apply dev_array_read; lia | intros p _]. destruct (nonzero _); [| done].
  eapply dev_bind; [apply dev_array_read; lia | intros prio _]. destruct (0 <? prio); [| done].
  apply (dev_bind _ _ _ (fun _ => True)).
  - destruct above; [| by apply dev_ret].
    eapply dev_bind; [apply dev_priority_threshold | intros t _]. by apply dev_ret.
  - intros a _. destruct (_ && _); [| done]. apply IH; lia.
Qed.

Lemma dev_get_next above : dev (hart_get_next_pending_interrupt 0 above) (fun r => 0 <= r).
Proof. by apply dev_next_pending. Qed.

Lemma dev_has_pending : dev (hart_has_pending_enabled_interrupts 0) (fun _ => True).
Proof.
  unfold hart_has_pending_enabled_interrupts. eapply dev_bind; [apply dev_get_next | intros r _].
  by apply dev_ret.
Qed.

Lemma dev_clear_pending irq : 0 <= irq -> dev (clear_pending_interrupt irq) (fun _ => True).
Proof.
  intros Hi. unfold clear_pending_interrupt. eapply dev_bind; [apply dev_assert | intros _ _]. cbv zeta.
  assert (0 <= irq / 32) by (apply Z.div_pos; lia).
  eapply dev_bind; [by apply dev_array_read | intros v _]. by eapply dev_array_write; [apply pending_safe |].
Qed.

Lemma dev_e_run_notify t : dev (e_run_notify t) (fun _ => True).
Proof. apply dev_soc_set. by intros x []. Qed.

Lemma dev_gateway irq : dev (plic_gateway_trigger_interrupt irq) (fun _ => True).
Proof.
  unfold plic_gateway_trigger_interrupt. eapply dev_bind; [apply dev_assert | intros [] Hi]. cbv zeta.
  assert (0 <= irq / 32) by (apply Z.div_pos; lia).
  eapply dev_bind; [by apply dev_array_read | intros v _].
  eapply dev_bind; [by eapply dev_array_write; [apply pending_safe |] | intros _ _]. apply dev_e_run_notify.
Qed.

Lemma dev_read_eip : dev (read_eip 0) (fun _ => True).
Proof.
  intros s Hc Hs. unfold read_eip, gets, mbind, M_bind.
  destruct (soc_devices _ _ Hs) as [_ _ _ _ _ _ _ He].
  change (hart_eip (get_plic s) !! Z.to_nat 0) with (hart_eip (soc_plic (devices (env s))) !! 0%nat).
  destruct (hart_eip (soc_plic (devices (env s)))) as [|b l]; [done |]. split; [done |].
  split; [by left | done].
Qed.

Lemma dev_write_eip b : dev (write_eip 0 b) (fun _ => True).
Proof.
  unfold write_eip. eapply dev_bind; [apply dev_read_eip | intros _ _]. apply dev_modify.
  intros s Hc Hs. apply soc_set_env; [done | done |]. destruct Hs as [_ _ _ _ [? ? ? ? ? ? ? He]].
  constructor; try done. change (length (<[Z.to_nat 0 := b]> (hart_eip (soc_plic (devices (env s))))) = 1%nat).
  by rewrite length_insert.
Qed.

Lemma dev_trigger_external i level : dev (target_trigger_external i level) (fun _ => True).
Proof.
  cbn [target_trigger_external soc_plic_interface]. unfold trigger_external_interrupt.
  eapply dev_bind; [| intros _ _; apply dev_skip].
  repeat (match goal with |- dev (if ?b then _ else _) _ => destruct b end);
    first [by apply dev_mip_field | apply dev_skip].
Qed.

Lemma dev_clear_external i level : dev (target_clear_external i level) (fun _ => True).
Proof.
  cbn [target_clear_external soc_plic_interface]. unfold clear_external_interrupt.
  repeat (match goal with |- dev (if ?b then _ else _) _ => destruct b end);
    first [by apply dev_mip_field | apply dev_skip].
Qed.

Lemma dev_plic_run : dev plic_run (fun _ => True).
Proof.
  unfold plic_run. cbn [NumberCores soc_plic_interface raise_externals].
  eapply dev_bind; [| intros _ _; apply dev_skip]. unfold raise_external.
  change (Z.of_nat 0) with 0. eapply dev_bind; [apply dev_read_eip | intros e _].
  apply dev_when. intros _. eapply dev_bind; [apply dev_has_pending | intros p _].
  apply dev_when. intros _. eapply dev_bind; [apply dev_write_eip | intros _ _].
  eapply dev_bind; [apply dev_gets_any | intros l _]. apply dev_trigger_external.
Qed.

Lemma dev_clamp n : forall i, (i + n <= 65)%nat -> dev (clamp_priorities i n) (fun _ => True).
Proof.
  induction n as [|n IH]; intros i Hi; cbn [clamp_priorities]; [apply dev_skip |].
  assert (Hw : forall s, soc_ok c (env s) -> 0 <= Z.of_nat i < view_size uint32_t (rr_mem priorities_view s)).
  { apply (words_of 65 _ _ priorities_safe). lia. }
  eapply dev_bind; [by apply dev_index_read | intros v _].
  eapply dev_bind; [by eapply dev_index_write; [apply priorities_safe |] | intros _ _]. apply IH. lia.
Qed.

(** The only claim register of one hart is the second word of the range. *)
Lemma odd_word i : 0 <= info_addr i < 8 -> (uint32 (info_addr i / 4) mod 2 =? 1) = true ->
  uint32 (info_addr i / 4) - 1 = 0.
Proof.
  intros Hi Hodd. assert (Hq : 0 <= info_addr i / 4 < 2).
  { split; [apply Z.div_pos; lia | apply Z.div_lt_upper_bound; lia]. }
  unfold uint32 in *. rewrite uint_id in * by (unfold is_uint; lia).
  assert (info_addr i / 4 = 0 \/ info_addr i / 4 = 1) as [E|E] by lia; rewrite E in *; done.
Qed.

Lemma dev_pre_read_config i : info_ok config_view 8 i -> dev (pre_read_hart_config i) (fun _ => True).
Proof.
  intros Hi. unfold pre_read_hart_config. eapply dev_bind; [apply dev_assert | intros _ _]. cbv zeta.
  eapply dev_bind; [apply dev_when; intros Hodd | intros _ _; by apply dev_ret].
  rewrite odd_word by done. eapply dev_bind; [apply dev_assert | intros _ _].
  eapply dev_bind; [apply dev_get_next | intros r Hr; cbv beta in Hr].
  eapply dev_bind; [| intros _ _; by apply dev_clear_pending].
  unfold set_claim_response. eapply dev_bind; [apply dev_config_index | intros _ _].
  eapply dev_index_write; [apply config_safe |]. by apply (words_of 2 _ _ config_safe).
Qed.

Lemma dev_post_write_config i : info_ok config_view 8 i -> dev (post_write_hart_config i) (fun _ => True).
Proof.
  intros Hi. unfold post_write_hart_config. eapply dev_bind; [apply dev_assert | intros _ _]. cbv zeta.
  apply dev_when. intros Hodd. rewrite odd_word by done. eapply dev_bind; [apply dev_assert | intros _ _].
  eapply dev_bind; [apply dev_gets_any | intros l _].
  eapply dev_bind; [apply dev_has_pending | intros p _]. destruct p.
  - eapply dev_bind; [apply dev_read_eip | intros e _].
    eapply dev_bind; [apply dev_assert | intros _ _]. apply dev_trigger_external.
  - eapply dev_bind; [apply dev_write_eip | intros _ _]. apply dev_clear_external.
Qed.

Lemma plic_target_safe : target_safe (soc_ok c) plic_transport.
Proof.
  intros p d Hp. unfold plic_transport. eapply dev_bind; [apply dev_route; [| exact Hp] |].
  - repeat constructor.
    + exists 260. apply (range_safe_callbacks _ _ _ _ _ _ _ _ priorities_safe); [done | done | done |].
      intros f i [= <-] _. unfold post_write_interrupt_priorities.
      eapply (dev_bind _ _ _ (fun m : list Z => length m = 260%nat)).
      * apply dev_gets. intros s _ Hs. destruct (soc_priorities _ (soc_devices _ _ Hs)) as [Hl _]. exact Hl.
      * intros m ->. apply dev_clamp. simpl. lia.
    + exists 384. exact pending_safe.
    + exists 384. exact enabled_safe.
    + exists 8. apply (range_safe_callbacks _ _ _ _ _ _ _ _ config_safe); [| done | done |].
      * intros f i [= <-]. apply dev_pre_read_config.
      * intros f i [= <-]. apply dev_post_write_config.
  - intros t Ht. by apply dev_ret.
Qed.

(** ** RAM, terminal and bus *)

Context (Hc : config_ok c).
#[local] Set Default Proof Using "Type Hc".

Lemma ram_target_safe : target_safe (soc_ok c) (ram_target (mem c)).
Proof.
  intros p d (Hcmd & Ha & Hl & Hb) s Hcore [Hheap Hdmi Hmmu Hram Hdev].
  destruct (config_mem_size _ Hc) as [Hpos Hmax]. unfold ram_target, on_heap.
  destruct (Z_le_gt_dec (uint32 (address p) + data_length p) (SimpleMemory.size (mem c))) as [Hfit|Hfit].
  2: { rewrite transport_out_of_bounds; [done | unfold no_wrap; lia | right; right; lia]. }
  rewrite transport_in_bounds by (done || lia). cbn [fst snd core env].
  assert (Hblock : is_Some (mem_heap (env s) !! SimpleMemory.data (mem c))) by apply Hram.
  unfold memory_access. destruct (command p); [| | done]; cbn [fst snd].
  - split; [split; cbn [payload_data set_payload_data]|].
    + rewrite length_peek; [unfold data_length; lia |].
      pose proof (uint_range 32 (address p) ltac:(lia)) as [? _].
      apply memory_in_bounds; (done || lia).
    + by apply peek_ok.
    + split; [by left | by constructor].
  - split; [by split |]. split; [by left |].
    pose proof (same_shape_poke (mem_heap (env s)) (SimpleMemory.data (mem c)) (uint32 (address p))
      (payload_data p) Hblock) as Hsh.
    constructor; cbn [mem_heap dmi_ranges mmu devices set_mem_heap]; [| | done | | done].
    + by apply heap_ok_poke.
    + eapply Forall_impl; [exact Hdmi |]. intros r. by apply dmi_in_shape.
    + by eapply memory_in_shape.
Qed.

Lemma terminal_target_safe : target_safe (soc_ok c) (terminal_transport put_char).
Proof.
  intros p d (_ & _ & _ & Hb). unfold terminal_transport.
  eapply dev_bind; [apply dev_assert | intros _ _]. eapply dev_bind; [apply dev_assert | intros _ _].
  eapply dev_bind; [apply dev_soc_set; by intros x [] | intros _ _]. by apply dev_ret.
Qed.

Lemma unmodelled_device_safe : target_safe (soc_ok c) unmodelled_device.
Proof. intros p d _. by apply dev_fatal. Qed.

Lemma basic_bus_safe :
  target_safe (soc_ok c) (bus_transport (basic_bus (mem c) (display_range c))).
Proof.
  apply bus_safe; [done |]. cbn [isocks basic_bus app].
  constructor; [apply ram_target_safe |]. constructor; [apply clint_target_safe |].
  constructor; [apply plic_target_safe |]. constructor; [apply terminal_target_safe |].
  by repeat (constructor; [apply unmodelled_device_safe |]).
Qed.

(** The memory map: every address belongs to one device. *)
Lemma basic_ports_disjoint : disjoint_ports (basic_ports (SimpleMemory.size (mem c)) (display_range c)).
Proof.
  destruct (config_mem_size _ Hc) as [Hpos Hmax]. pose proof (config_display _ Hc) as Hd.
  intros i j p q addr Hi Hj Hp Hq. rewrite port_contains_spec in Hp, Hq.
  do 13 (destruct i as [|i]; [injection Hi as <-;
    do 13 (destruct j as [|j]; [first [done | injection Hj as <-; cbn in Hp, Hq; lia] |]); done |]).
  done.
Qed.

(** ** The kernel *)

Lemma dev_kernel_step k : dev (run_kernel_step k) (fun _ => True).
Proof.
  destruct k; cbn [run_kernel_step].
  - apply dev_soc_set. by intros x [].
  - eapply dev_bind; [apply dev_soc_set; by intros x [] | intros _ _]. apply dev_clint_run.
  - eapply dev_bind; [apply dev_soc_set; by intros x [] | intros _ _]. apply dev_plic_run.
  - apply dev_gateway.
Qed.

Lemma dev_kernel_steps ks : dev (run_kernel_steps ks) (fun _ => True).
Proof.
  induction ks as [|k ks IH]; cbn [run_kernel_steps]; [apply dev_skip |].
  eapply dev_bind; [apply dev_kernel_step | intros _ _]. exact IH.
Qed.

Lemma dev_kernel_wait : dev kernel_wait (fun _ => True).
Proof.
  unfold kernel_wait. eapply dev_bind; [apply dev_gets_any | intros [|k ks] _]; [apply dev_skip |].
  eapply dev_bind; [apply dev_soc_set; by intros x [] | intros _ _]. apply dev_kernel_steps.
Qed.

Definition not_undefined (f : failure) : Prop := f <> UndefinedBehaviour.

Lemma dev_wait (m : R unit) : dev m (fun _ => True) -> env_wait (soc_ok c) not_undefined m.
Proof.
  intros Hm s Hcore Hs. specialize (Hm s Hcore Hs). destruct (m s) as [[a|e|f] s']; [tauto | done | done].
Qed.

End soc.

(** ** What the kernel never touches *)

Definition quiet {A} (m : R A) : Prop :=
  nothrow m /\ forall s, regs (core (snd (m s))) = regs (core s).

Lemma quiet_ret {A} (a : A) : quiet (mret a).
Proof. split; [apply nothrow_ret | done]. Qed.
Lemma quiet_skip : quiet skip.
Proof. apply quiet_ret. Qed.
Lemma quiet_fatal {A} f : quiet (fatal f : R A).
Proof. split; [apply nothrow_fatal | done]. Qed.
Lemma quiet_gets {A} (f : soc_machine -> A) : quiet (gets f).
Proof. split; [apply nothrow_gets | done]. Qed.
Lemma quiet_assert b : quiet (assert b).
Proof. destruct b; [apply quiet_skip | apply quiet_fatal]. Qed.
Lemma quiet_modify (g : soc_machine -> soc_machine) :
  (forall s, regs (core (g s)) = regs (core s)) -> quiet (modify g).
Proof. intros Hg. split; [apply nothrow_modify | exact Hg]. Qed.
Lemma quiet_bind {A B} (m : R A) (k : A -> R B) : quiet m -> (forall a, quiet (k a)) -> quiet (m ≫= k).
Proof.
  intros [Hm1 Hm2] Hk. split; [apply nothrow_bind; [done | intros a; apply Hk] |].
  intros s. specialize (Hm2 s). unfold mbind, M_bind. destruct (m s) as [[a|e|f] s1]; simpl in *; try done.
  destruct (Hk a) as [_ Hk2]. by rewrite Hk2.
Qed.
Lemma quiet_when b (m : R unit) : quiet m -> quiet (when b m).
Proof. intros Hm. destruct b; [done | apply quiet_skip]. Qed.

Create HintDb soc_quiet.
#[local] Hint Resolve quiet_ret quiet_skip quiet_fatal quiet_gets quiet_assert : soc_quiet.

Ltac quiet_step :=
  lazymatch goal with
  | |- quiet (mbind _ _) => apply quiet_bind; [| intros ?]
  | |- quiet (when _ _) => apply quiet_when
  | |- quiet (modify _) => apply quiet_modify; intros ?; reflexivity
  | |- quiet (if ?b then _ else _) => destruct b
  | |- quiet (match ?x with _ => _ end) => destruct x
  | |- quiet _ => solve [eauto with soc_quiet nocore]
  end.
Ltac quiet_tac := cbv zeta; repeat quiet_step.

Lemma quiet_index_read T r i : quiet (index_read T r i).
Proof. unfold index_read. quiet_tac. Qed.
#[local] Hint Resolve quiet_index_read : soc_quiet.
Lemma quiet_array_read T r i : quiet (array_read T r i).
Proof. unfold array_read. quiet_tac. Qed.
Lemma quiet_integer_read T r : quiet (integer_read T r).
Proof. unfold integer_read. quiet_tac. Qed.
#[local] Hint Resolve quiet_array_read quiet_integer_read : soc_quiet.

Lemma quiet_index_write T r i v :
  (forall m s, regs (core (rr_set_mem r m s)) = regs (core s)) -> quiet (index_write T r i v).
Proof. intros Hr. unfold index_write. quiet_tac. apply quiet_modify. intros s. apply Hr. Qed.

Lemma quiet_array_write T r i v :
  (forall m s, regs (core (rr_set_mem r m s)) = regs (core s)) -> quiet (array_write T r i v).
Proof. intros Hr. unfold array_write. quiet_tac. by apply quiet_index_write. Qed.

Lemma quiet_mip_field f v : quiet (set_csr_field csrs.mip f v : R unit).
Proof. by apply quiet_modify. Qed.
#[local] Hint Resolve quiet_mip_field : soc_quiet.

Lemma quiet_update_mtime : quiet CLINT_update_and_get_mtime.
Proof. unfold CLINT_update_and_get_mtime, integer_write. quiet_tac. Qed.

Lemma quiet_update_timer i : quiet (update_timer_interrupt i).
Proof.
  unfold update_timer_interrupt. cbn [target_timer_interrupt irq_event_notify soc_clint_interface].
  unfold trigger_timer_interrupt. quiet_tac.
Qed.

Lemma quiet_clint_run : quiet clint_run.
Proof.
  unfold clint_run. apply quiet_bind; [apply quiet_update_mtime | intros _].
  generalize 0%nat as i. induction NumberOfCores as [|n IH]; intros i; cbn [update_timer_interrupts]; [apply quiet_skip |].
  apply quiet_bind; [apply quiet_update_timer | intros _; apply IH].
Qed.

Lemma quiet_next_pending h above n : forall i id mx, quiet (next_pending h above i n id mx).
Proof.
  induction n as [|n IH]; intros i id mx; cbn [next_pending]; [apply quiet_ret |].
  unfold priority_threshold, config_index. quiet_tac.
Qed.
#[local] Hint Resolve quiet_next_pending : soc_quiet.

Lemma quiet_raise_external i : quiet (raise_external i).
Proof.
  unfold raise_external, hart_has_pending_enabled_interrupts, hart_get_next_pending_interrupt, write_eip, read_eip.
  cbn [target_trigger_external soc_plic_interface]. unfold trigger_external_interrupt. quiet_tac.
Qed.

Lemma quiet_plic_run : quiet plic_run.
Proof.
  unfold plic_run. generalize 0%nat as i.
  induction NumberCores as [|n IH]; intros i; cbn [raise_externals]; [apply quiet_skip |].
  apply quiet_bind; [apply quiet_raise_external | intros _; apply IH].
Qed.
#[local] Hint Resolve quiet_clint_run quiet_plic_run : soc_quiet.

Lemma quiet_gateway irq : quiet (plic_gateway_trigger_interrupt irq).
Proof.
  unfold plic_gateway_trigger_interrupt. cbn [e_run_notify soc_plic_interface]. quiet_tac.
  by apply quiet_array_write.
Qed.
#[local] Hint Resolve quiet_gateway : soc_quiet.

Lemma quiet_kernel_steps ks : quiet (run_kernel_steps ks).
Proof.
  induction ks as [|k ks IH]; cbn [run_kernel_steps]; [apply quiet_skip |].
  apply quiet_bind; [| done]. destruct k; cbn [run_kernel_step]; quiet_tac.
Qed.
#[local] Hint Resolve quiet_kernel_steps : soc_quiet.

Lemma quiet_kernel_wait : quiet kernel_wait.
Proof. unfold kernel_wait. quiet_tac. Qed.
#[local] Hint Resolve quiet_kernel_wait : soc_quiet.

(** ** The contract *)

Section contract.
Context (c : config) (Hc : config_ok c).
#[local] Set Default Proof Using "Type Hc".

#[local] Instance the_system : system soc := basic_system c.

Lemma soc_device {A} (m : R A) Q :
  (forall s, exists a x, m s = (Ret a, Machine (core s) (set_devices x (env s))) /\ Q a /\
     (devices_ok (devices (env s)) -> devices_ok x)) -> device_op (soc_ok c) not_undefined m Q.
Proof.
  intros Hm. split; [| split].
  - intros s e s' E. destruct (Hm s) as (a & f & Hs & _). by rewrite Hs in E.
  - intros s. by destruct (Hm s) as (a & f & -> & _).
  - intros s [Hh Hd Hmmu Hram Hdev]. destruct (Hm s) as (a & f & -> & HQ & Hf).
    split; [done |]. split; [| by destruct s as [? []]].
    constructor; try done. by apply Hf.
Qed.

Lemma soc_same (s : soc_machine) : Machine (core s) (set_devices (devices (env s)) (env s)) = s.
Proof. by destruct s as [? []]. Qed.

Lemma soc_gets {A} (f : soc_machine -> A) : device_op (soc_ok c) not_undefined (gets f) (fun _ => True).
Proof. apply soc_device. intros s. exists (f s), (devices (env s)). by rewrite soc_same. Qed.

Lemma soc_skip : device_op (soc_ok c) not_undefined skip (fun _ => True).
Proof. apply soc_device. intros s. exists tt, (devices (env s)). by rewrite soc_same. Qed.

Lemma soc_modify (f : soc -> soc) :
  (forall x, devices_ok x -> devices_ok (f x)) ->
  device_op (soc_ok c) not_undefined (modify (soc_set f)) (fun _ => True).
Proof. intros Hf. apply soc_device. intros s. exists tt, (f (devices (env s))). by split; [| split; [| apply Hf]]. Qed.

Lemma soc_get_mtime : device_op (soc_ok c) not_undefined CLINT_update_and_get_mtime (is_uint 64).
Proof.
  apply soc_device. intros s. unfold CLINT_update_and_get_mtime, integer_read, gets, mbind, M_bind.
  cbv beta iota. destruct (_ <? _); cbn [when].
  - unfold integer_write, modify. do 2 eexists. split; [reflexivity |].
    split; [apply (elem_range uint64_t) |]. intros [[Hm Hb] ? ? ? ? ? ? ?].
    constructor; try done. split; [| by apply set_elem_ok]. rewrite <- Hm. apply length_set_elem.
  - exists (elem uint64_t 0 (rr_mem mtime_view s)), (devices (env s)). rewrite soc_same.
    split; [done |]. split; [apply (elem_range uint64_t) | done].
Qed.

Lemma quantum_sync_quiet : quiet quantum_sync.
Proof. cbn [quantum_sync the_system basic_system]. quiet_tac. Qed.

Lemma dev_quantum_sync : DeviceSafe.dev (soc_ok c) quantum_sync (fun _ => True).
Proof.
  eapply dev_bind; [by apply dev_kernel_wait | intros _ _]. apply dev_soc_set. by intros x [].
Qed.

Lemma soc_step e e' : soc_ok c e -> env_step e e' -> 32 = 64 \/ mmu e' = mmu e -> soc_ok c e'.
Proof.
  intros [Hh Hd Hmmu Hram Hdev] (Hsh & Hh' & Hr & _ & Hx) [?|Hm]; [done |].
  constructor; [done | | by rewrite Hm | by eapply memory_in_shape | by rewrite Hx].
  rewrite Hr. eapply Forall_impl; [exact Hd |]. intros d. by apply dmi_in_shape.
Qed.

Lemma soc_isock t d s : payload_ok t -> core_ok (core s) -> soc_ok c (env s) ->
  match isock_b_transport t d s with
  | (Ret (t', _), s') =>
      length (payload_data t') = length (payload_data t) /\ Forall byte_ok (payload_data t') /\
      mip_change (core s) (core s') /\ soc_ok c (env s')
  | (Throw _, _) => False
  | (Fatal f, _) => not_undefined f
  end.
Proof.
  intros Hp Hcore Hs. pose proof (basic_bus_safe c Hc t d Hp s Hcore Hs) as Hb.
  cbn [isock_b_transport the_system basic_system].
  destruct (bus_transport _ t d s) as [[[t' d']|e|f] s']; [| done | done].
  destruct Hb as ([Hl Hd] & Hm & Hs'). done.
Qed.

Lemma basic_system_ok : system_ok soc.
Proof.
  refine {| sys_ok := soc_ok c; sys_fails := not_undefined; phys_width := 32 |}.
  - right. split; [done |]. by intros e [].
  - by intros e [].
  - by intros e [].
  - intros e [_ _ -> _ _]. apply mmu_ok_None.
  - apply soc_step.
  - apply soc_isock.
  - apply soc_gets.
  - intros t. apply soc_modify. by intros x [].
  - intros t. apply soc_modify. by intros x [].
  - apply soc_gets.
  - apply soc_skip.
  - apply soc_get_mtime.
  - apply soc_skip.
  - by apply dev_wait, dev_kernel_wait.
  - by apply dev_wait, dev_kernel_wait.
  - by apply dev_wait, dev_quantum_sync.
  - done.
  - apply quantum_sync_quiet.
  - apply quantum_sync_quiet.
Defined.
#[local] Existing Instance basic_system_ok.

#[local] Instance basic_no_mmu : no_mmu soc.
Proof. done. Qed.

(** ** The platform *)

Lemma run_basic_triple `{softfloat_ok} (fuel : nat) (s : soc_machine) :
  step_ok s ->
  match run_basic c fuel s with
  | (Ret ended, s') => step_ok s' /\ (ended = true -> fuel <> O /\ status (core s') <> Runnable)
  | (Throw _, _) => False
  | (Fatal f, _) => f <> UndefinedBehaviour
  end.
Proof.
  intros Hs. pose proof (run_loop_triple fuel s Hs) as Ht. unfold run_basic.
  change (@memory_platform soc (basic_system c)) with (@memory_platform soc the_system).
  destruct (run_loop fuel s) as [[ended|e|f] s'];
    [done | done | destruct Ht as [[[-> | [-> | Hn]] | ->] | [_ [-> | ->]]]; done].
Qed.
End contract.

(** The invariant of the whole system: of the core between two steps, and of the
    host memory and the devices. *)
Record system_invariant (c : config) (s : soc_machine) : Prop := {
  inv_core : core_ok (core s);
  inv_flags : softfloat_exceptionFlags (core s) = 0;
  inv_zero : regs_get (regs (core s)) x_zero = 0;
  inv_soc : soc_ok c (env s)
}.

(** C16: the 32-bit core on the basic platform is safe until the program uses another
    device than RAM, CLINT, PLIC and terminal.  Let the memory end below the CLINT
    and the ports not overlap.  Then whatever program is in the memory, whatever the
    schedule of the other processes and the interrupts of the other devices and
    however many steps the core runs: no trap escapes, no access leaves an array of
    the host, and when the run ends the invariant of the core, the memory and the
    devices holds again.  The run may stop with another failure, an assertion of the
    code, say; it stops with [NotModelled] where it first accesses one of the nine
    devices that are not part of this system, and nothing is claimed from there on.
    No property of any code is assumed but that of the float library. *)
Theorem basic_platform_safe (c : config) `{softfloat_ok} (fuel : nat) (s : soc_machine) :
  config_ok c -> system_invariant c s ->
  match run_basic c fuel s with
  | (Ret ended, s') => system_invariant c s' /\ (ended = true -> status (core s') <> Runnable)
  | (Throw _, _) => False
  | (Fatal f, _) => f <> UndefinedBehaviour
  end.
Proof.
  intros Hc [Hcore Hf Hz Hs]. pose proof (run_basic_triple c Hc fuel s) as Ht.
  destruct (run_basic c fuel s) as [[ended|e|f] s']; [| by apply Ht; split | by apply Ht; split].
  destruct Ht as [[(? & ? & ?) ?] He]; [by split |]. split; [done |]. intros Hend. by apply He.
Qed.

(** ** A program

    It sets the comparator of the timer to 5 us and waits; the handler of the
    interrupt prints a letter and stops:
<<
         lui t0, 0x2004 ; addi t1, x0, 5 ; sw t1, 0(t0)
         addi t1, x0, 0x40 ; csrw mtvec, t1
         addi t1, x0, 0x80 ; csrw mie, t1 ; csrsi mstatus, 8
    wait: wfi ; j wait
    0x40: lui t0, 0x20000 ; addi t1, x0, 'A' ; sb t1, 0(t0) ; ebreak
>> *)
Definition timer_program : list Z :=
  [0x020042b7; 0x00500313; 0x0062a023; 0x04000313; 0x30531073; 0x08000313; 0x30431073; 0x30046073;
   0x10500073; 0xffdff06f; 0x13; 0x13; 0x13; 0x13; 0x13; 0x13;
   0x200002b7; 0x04100313; 0x00628023; 0x00100073].

Definition program_bytes (code : list Z) : list Z := concat (map (to_bytes uint32_t) code).

Definition timer_config : config :=
  mkConfig (SimpleMemory.mk 0 80 false) 0 (1000 * 1000 * NS) 3.

Definition timer_machine : soc_machine :=
  Machine (ISS_new 0 false)
    (mkMemEnv {[ 0%nat := program_bytes timer_program ]} BusLock_init 0 [] None
      (mkSoc 0 0 (CLINT_new 1) None (FE310_PLIC_new 1 64 96 MachineMode) None []
        [[Advance (5 * 1000 * NS); RunClint]])).

Lemma timer_program_runs :
  let r := run_basic timer_config 100 timer_machine in
  fst r = Ret true /\ status (core (snd r)) = HitBreakpoint /\
  output (devices (env (snd r))) = [65] /\ soc_get time_stamp (snd r) = 5 * 1000 * NS /\
  csr_get (csr_regs (core (snd r))) csrs.mcause = 0x80000007.
Proof. vm_compute. by repeat split. Qed.

Lemma timer_config_ok : config_ok timer_config.
Proof. by constructor. Qed.

Lemma byte_list_ok l : forallb (fun b => (0 <=? b) && (b <? 256)) l = true -> Forall byte_ok l.
Proof. intros H. apply Forall_forall. intros x Hx. rewrite forallb_forall in H. specialize (H x).
  rewrite <- list_elem_of_In in H. specialize (H Hx). unfold byte_ok, is_uint. lia. Qed.

Lemma timer_machine_ok : system_invariant timer_config timer_machine.
Proof.
  constructor; [by apply ISS_new_ok | done | done |]. constructor; [| done | done | |].
  - apply map_Forall_singleton. by apply byte_list_ok.
  - by split; [eexists |].
  - by constructor; try (split; [| apply byte_list_ok]).
Qed.

Lemma basic_platform_safe_witness :
  config_ok timer_config /\ system_invariant timer_config timer_machine /\
  system_invariant timer_config (snd (run_basic timer_config 100 timer_machine)) /\
  output (devices (env (snd (run_basic timer_config 100 timer_machine)))) = [65].
Proof.
  split; [exact timer_config_ok |]. split; [exact timer_machine_ok |].
  pose proof (basic_platform_safe timer_config 100 timer_machine timer_config_ok timer_machine_ok) as Hs.
  destruct timer_program_runs as (E & _ & Ho & _).
  split; [| exact Ho]. destruct (run_basic timer_config 100 timer_machine) as [[b|e|f] s'].
  - exact (proj1 Hs).
  - destruct Hs.
  - discriminate E.
Defined.
