(* ===== verification/Csr64.v ===== *)
(** * Control and status registers of the 64-bit core

    Models core/rv64/csr.h where it differs from core/rv32/csr.h: every register
    has 64 bits, the bit fields that reach beyond the lower word, the masks, the
    initial values and the map from addresses to registers.  Register names, the
    table, and the fields and addresses that are the same in both files are those
    of Csr.v. *)

From S2P Require Import Prelude Trap Csr.

(** ** Bit fields *)

Module misa.
Definition extensions := BitField 0 26.
Definition wiri := BitField 26 36.
Definition mxl := BitField 62 2.
End misa.

(** The fields below bit 23 are where they are in Csr.v. *)
Module mstatus.
Include Csr.mstatus.
Definition uxl := BitField 32 2.
Definition sxl := BitField 34 2.
Definition sd64 := BitField 63 1.
End mstatus.

Module mtvec.
Definition mode := BitField 0 2.
Definition base := BitField 2 62.
Definition Direct : Z := 0.
Definition Vectored : Z := 1.
Definition get_base_address (v : Z) : Z := uint64 (get_field base v .<< 2).
Definition checked_write (val : Z) : Z :=
  let v := uint64 val in if 1 <=? get_field mode v then set_field mode 0 v else v.
End mtvec.

Module mcause.
Definition exception_code := BitField 0 63.
Definition interrupt := BitField 63 1.
End mcause.

Module pmpaddr.
Definition address := BitField 0 54.
Definition get_address (v : Z) : Z := uint32 (get_field address v .<< 2).
End pmpaddr.

Module satp.
Definition ppn := BitField 0 44.
Definition asid := BitField 44 16.
Definition mode := BitField 60 4.
End satp.

(** ** Initial values *)

Definition misa_init : Z :=
  let extensions := I_ISA_EXT .| M_ISA_EXT .| A_ISA_EXT .| F_ISA_EXT .| D_ISA_EXT .| C_ISA_EXT
                    .| N_ISA_EXT .| U_ISA_EXT .| S_ISA_EXT in
  set_field misa.mxl 2 (set_field misa.extensions extensions 0).

Definition mstatus_init : Z := set_field mstatus.uxl 2 (set_field mstatus.sxl 2 0).

Definition csr_table_init : csr_table :=
  csr_set csrs.mstatus mstatus_init (csr_set csrs.misa misa_init ∅).

(** ** namespace csr: masks that differ *)

Definition MTVEC_MASK : Z := uint64 (Z.lnot 2).
Definition MSTATUS_WRITE_MASK : Z := 0x80000000007ff9bb.
Definition MSTATUS_READ_MASK : Z := 0x8000000f007ff9bb.
Definition SSTATUS_WRITE_MASK : Z := 0x80000000000de133.
Definition SSTATUS_READ_MASK : Z := 0x80000003000de133.
Definition PMPADDR_MASK : Z := 0x003fffffffffffff.
Definition SATP_MASK : Z := 0xf0000fffffffffff.
Definition SATP_MODE : Z := 0xf000000000000000.

(** [csr::is_bitset(csr, bitpos)]: the int [1 << bitpos] is extended by its sign. *)
Definition is_bitset (v bitpos : Z) : bool := nonzero (v .& uint64 (int32 (1 .<< bitpos))).

(** SWITCH_CASE_MATCH_ANY_HPMCOUNTER_RV64 *)
Definition is_hpmcounter (addr : Z) : bool :=
  in_range 0xc03 0xc1f addr || in_range 0xb03 0xb1f addr || in_range 0x323 0x33f addr.

(** ** struct csr_table *)

(** The number of elements of [pmpcfg]. *)
Definition pmpcfg_size : Z := 2.

Definition register_mapping (addr : Z) : option csrs.reg :=
  if addr =? CYCLE_ADDR then Some csrs.cycle
  else if addr =? TIME_ADDR then Some csrs.time
  else if addr =? INSTRET_ADDR then Some csrs.instret
  else if addr =? MCYCLE_ADDR then Some csrs.cycle
  else if addr =? MTIME_ADDR then Some csrs.time
  else if addr =? MINSTRET_ADDR then Some csrs.instret
  else if addr =? MVENDORID_ADDR then Some csrs.mvendorid
  else if addr =? MARCHID_ADDR then Some csrs.marchid
  else if addr =? MIMPID_ADDR then Some csrs.mimpid
  else if addr =? MHARTID_ADDR then Some csrs.mhartid
  else if addr =? MSTATUS_ADDR then Some csrs.mstatus
  else if addr =? MISA_ADDR then Some csrs.misa
  else if addr =? MEDELEG_ADDR then Some csrs.medeleg
  else if addr =? MIDELEG_ADDR then Some csrs.mideleg
  else if addr =? MIE_ADDR then Some csrs.mie
  else if addr =? MTVEC_ADDR then Some csrs.mtvec
  else if addr =? MCOUNTEREN_ADDR then Some csrs.mcounteren
  else if addr =? MCOUNTINHIBIT_ADDR then Some csrs.mcountinhibit
  else if addr =? MSCRATCH_ADDR then Some csrs.mscratch
  else if addr =? MEPC_ADDR then Some csrs.mepc
  else if addr =? MCAUSE_ADDR then Some csrs.mcause
  else if addr =? MTVAL_ADDR then Some csrs.mtval
  else if addr =? MIP_ADDR then Some csrs.mip
  else if in_range PMPADDR0_ADDR (PMPADDR0_ADDR + 15) addr
  then Some (csrs.pmpaddr (addr - PMPADDR0_ADDR))
  else if in_range PMPCFG0_ADDR (PMPCFG0_ADDR + 3) addr
  then Some (csrs.pmpcfg (addr - PMPCFG0_ADDR))
  else if addr =? SEDELEG_ADDR then Some csrs.sedeleg
  else if addr =? SIDELEG_ADDR then Some csrs.sideleg
  else if addr =? STVEC_ADDR then Some csrs.stvec
  else if addr =? SCOUNTEREN_ADDR then Some csrs.scounteren
  else if addr =? SSCRATCH_ADDR then Some csrs.sscratch
  else if addr =? SEPC_ADDR then Some csrs.sepc
  else if addr =? SCAUSE_ADDR then Some csrs.scause
  else if addr =? STVAL_ADDR then Some csrs.stval
  else if addr =? SATP_ADDR then Some csrs.satp
  else if addr =? UTVEC_ADDR then Some csrs.utvec
  else if addr =? USCRATCH_ADDR then Some csrs.uscratch
  else if addr =? UEPC_ADDR then Some csrs.uepc
  else if addr =? UCAUSE_ADDR then Some csrs.ucause
  else if addr =? UTVAL_ADDR then Some csrs.utval
  else if addr =? FCSR_ADDR then Some csrs.fcsr
  else None.

Definition is_valid_csr64_addr (addr : Z) : bool :=
  match register_mapping addr with Some _ => true | None => false end.

(** The constructor maps four addresses to the two elements of [pmpcfg]: the
    other two pointers are outside of the array. *)
Definition in_table (r : csrs.reg) : bool :=
  match r with csrs.pmpcfg i => i <? pmpcfg_size | _ => true end.

(** The two accesses: the register of an address, or their failure. *)
Definition default_reg (addr : Z) : failure + csrs.reg :=
  match register_mapping addr with
  | None => inl RuntimeError
  | Some r => if in_table r then inr r else inl UndefinedBehaviour
  end.
Definition default_read64 (t : csr_table) (addr : Z) : failure + Z :=
  match default_reg addr with inl f => inl f | inr r => inr (csr_get t r) end.
Definition default_write64 (addr value : Z) (t : csr_table) : failure + csr_table :=
  match default_reg addr with inl f => inl f | inr r => inr (csr_set r value t) end.

(** The masked write of set_csr_value. *)
Definition masked_write (r : csrs.reg) (mask value : Z) (t : csr_table) : csr_table :=
  csr_set r ((csr_get t r .& uint64 (Z.lnot mask)) .| (value .& mask)) t.

(** ** Lemmas *)

(** The addresses of the registers behind the array. *)
Definition outside_pmpcfg (addr : Z) : bool := (addr =? PMPCFG2_ADDR) || (addr =? PMPCFG3_ADDR).

Lemma register_mapping64_pmpcfg addr i :
  register_mapping addr = Some (csrs.pmpcfg i) -> addr = PMPCFG0_ADDR + i /\ 0 <= i <= 3.
Proof.
  unfold register_mapping.
  repeat (match goal with |- context [if ?b then _ else _] => destruct b eqn:? end;
    [first [ discriminate
           | match goal with E : in_range _ _ _ = true |- _ =>
               intros [= <-]; clear -E; unfold in_range, PMPCFG0_ADDR in *; lia end] |]).
  discriminate.
Qed.

Lemma default_reg64_cases addr :
  is_valid_csr64_addr addr = true -> outside_pmpcfg addr = false ->
  exists r, register_mapping addr = Some r /\ default_reg addr = inr r.
Proof.
  unfold is_valid_csr64_addr, default_reg, outside_pmpcfg. intros Hv Ho.
  destruct (register_mapping addr) as [r|] eqn:Hr; [| done]. exists r. split; [done |].
  destruct r; try done. apply register_mapping64_pmpcfg in Hr. cbn [in_table].
  unfold pmpcfg_size, PMPCFG0_ADDR, PMPCFG2_ADDR, PMPCFG3_ADDR in *.
  by rewrite (proj2 (Z.ltb_lt _ _)) by lia.
Qed.

Lemma outside_pmpcfg_default addr :
  outside_pmpcfg addr = true ->
  is_valid_csr64_addr addr = true /\ default_reg addr = inl UndefinedBehaviour.
Proof. unfold outside_pmpcfg. intros [E|E]%orb_prop; apply Z.eqb_eq in E as ->; done. Qed.
