(* ===== verification/Iss64.v ===== *)
(** * The 64-bit instruction set simulator: state, registers, traps and CSR accesses

    Models struct ISS of core/rv64/iss.h and the member functions of
    core/rv64/iss.cpp other than [exec_step] and [run_step], where they differ
    from the 32-bit core.  The state is the record [ISS] of Iss.v with 64-bit
    values (its member [total_num_instr] does not exist in the 64-bit core and
    is not used).  The functions whose text is the same in both files, up to the
    width of the values they pass on, are those of Iss.v: the floating-point
    preparation, the interrupt lines, the return from traps, the alignment
    checks and the debugger's interface. *)

From S2P Require Import Prelude Instr Trap Mmu Csr Csr64 Fp Iss.

(** RegFile::shamt_w is [RegFile_shamt] of Iss.v. *)
Definition RegFile_shamt64 (r : list Z) (index : Z) : Z := BIT_RANGE (regs_get r index) 5 0.

(** The constructor, and [init]. *)
Definition ISS_new (hart_id : Z) : ISS :=
  mkISS RegFile_init (replicate 32 0) 0 0 false false (csr_set csrs.mhartid hart_id csr_table_init)
    MachineMode 0 0 0 UNDEF Runnable ∅ false 0 0 0.

Definition init (entrypoint sp : Z) (s : ISS) : ISS :=
  set_pc entrypoint (set_regs (regs_set x_sp (int64 sp) (regs s)) s).

(** data_memory_if of core/rv64/mem_if.h: the operations of the 32-bit interface,
    on 64-bit addresses, and those on double words. *)
Class platform64 (W : Type) : Type := {
  platform64_platform :: platform W;
  load_uword : Z -> M (machine W) SimulationTrap Z;
  atomic_load_double : Z -> M (machine W) SimulationTrap Z;
  atomic_store_double : Z -> Z -> M (machine W) SimulationTrap unit;
  atomic_load_reserved_double : Z -> M (machine W) SimulationTrap Z;
  atomic_store_conditional_double : Z -> Z -> M (machine W) SimulationTrap bool
}.

(** The conversions of the SoftFloat library between the formats and the 64-bit
    integers. *)
Class softfloat64 : Type := {
  softfloat64_softfloat :: softfloat;
  f32_to_i64 : Z -> Z -> Z * Z;
  f32_to_ui64 : Z -> Z -> Z * Z;
  i64_to_f32 : Z -> Z -> Z * Z;
  ui64_to_f32 : Z -> Z -> Z * Z;
  f64_to_i64 : Z -> Z -> Z * Z;
  f64_to_ui64 : Z -> Z -> Z * Z;
  i64_to_f64 : Z -> Z -> Z * Z;
  ui64_to_f64 : Z -> Z -> Z * Z
}.

Section ISS.
Context {W : Type} `{platform64 W}.

Abbreviation R := (M (machine W) SimulationTrap).

Definition pc_alignment_mask (misa : Z) : Z :=
  if has_C_extension misa then uint64 (Z.lnot 0x1) else uint64 (Z.lnot 0x3).

(** An access fault of the load is one of the whole operation. *)
Definition amo_load (load : R Z) : R Z :=
  try_catch load
    (fun e => throw (if reason e =? EXC_LOAD_ACCESS_FAULT
                     then mkTrap EXC_STORE_AMO_ACCESS_FAULT (mtval e) else e)).

Definition execute_amo_w (i : Instruction) (operation : Z -> Z -> Z) : R unit :=
  a ← reg (rs1 i);
  let addr := uint64 a in
  trap_check_addr_alignment 4 false addr ;;
  data ← amo_load (atomic_load_word addr);
  let data := int32 data in
  b ← reg (rs2 i);
  let val := int32 (operation data (int32 b)) in
  atomic_store_word addr (uint32 val) ;;
  set_reg (rd i) data.

Definition execute_amo_d (i : Instruction) (operation : Z -> Z -> Z) : R unit :=
  a ← reg (rs1 i);
  let addr := uint64 a in
  trap_check_addr_alignment 8 false addr ;;
  data ← amo_load (atomic_load_double addr);
  let data := uint64 data in
  b ← reg (rs2 i);
  let val := uint64 (operation (int64 data) b) in
  atomic_store_double addr val ;;
  set_reg (rd i) (int64 data).

(** ** CSR accesses *)

Definition is_invalid_csr_access (csr_addr : Z) (is_write : bool) : R bool :=
  let csr_prv := (0x300 .& csr_addr) .>> 8 in
  let csr_readonly := (0xC00 .& csr_addr) .>> 10 =? 3 in
  prv ← read prv;
  mret ((is_write && csr_readonly) || (prv <? csr_prv)).

Definition validate_csr_counter_read_access_rights (addr : Z) : R unit :=
  when (in_range 0xC00 0xC1F addr)
    (let cnt := addr .& 0x1F in
     mcounteren ← csr_reg csrs.mcounteren; scounteren ← csr_reg csrs.scounteren;
     s ← s_mode;
     when (s && negb (is_bitset mcounteren cnt)) RAISE_ILLEGAL_INSTRUCTION ;;
     u ← u_mode;
     when (u && (negb (is_bitset mcounteren cnt) || negb (is_bitset scounteren cnt)))
       RAISE_ILLEGAL_INSTRUCTION).

Definition csr_write (r : csrs.reg) (mask value : Z) : R unit :=
  update_csrs (masked_write r mask value).

(** The code after the [switch] of get_csr_value. *)
Definition get_csr_default (addr : Z) : R Z :=
  when (negb (is_valid_csr64_addr addr)) RAISE_ILLEGAL_INSTRUCTION ;;
  v ← read (fun s => default_read64 (csr_regs s) addr);
  match v with inr v => mret v | inl f => fatal f end.

Definition get_csr_value (addr : Z) : R Z :=
  validate_csr_counter_read_access_rights addr ;;
  if (addr =? TIME_ADDR) || (addr =? MTIME_ADDR) then
    mtime ← update_and_get_mtime; set_csr csrs.time mtime ;; csr_reg csrs.time
  else if addr =? MCYCLE_ADDR then
    c ← _compute_and_get_current_cycles; set_csr csrs.cycle c ;; csr_reg csrs.cycle
  else if addr =? MINSTRET_ADDR then csr_reg csrs.instret
  else if is_hpmcounter addr then mret 0
  else if addr =? MSTATUS_ADDR then csr_read csrs.mstatus MSTATUS_READ_MASK
  else if addr =? SSTATUS_ADDR then csr_read csrs.mstatus SSTATUS_READ_MASK
  else if addr =? USTATUS_ADDR then csr_read csrs.mstatus USTATUS_MASK
  else if addr =? MIP_ADDR then csr_read csrs.mip MIP_READ_MASK
  else if addr =? SIP_ADDR then csr_read csrs.mip SIP_MASK
  else if addr =? UIP_ADDR then csr_read csrs.mip UIP_MASK
  else if addr =? MIE_ADDR then csr_read csrs.mie MIE_MASK
  else if addr =? SIE_ADDR then csr_read csrs.mie SIE_MASK
  else if addr =? UIE_ADDR then csr_read csrs.mie UIE_MASK
  else if addr =? SATP_ADDR then
    tvm ← csr_field csrs.mstatus mstatus.tvm;
    when (nonzero tvm) RAISE_ILLEGAL_INSTRUCTION ;;
    get_csr_default addr
  else if addr =? FCSR_ADDR then csr_read csrs.fcsr FCSR_MASK
  else if addr =? FFLAGS_ADDR then csr_field csrs.fcsr fcsr.fflags
  else if addr =? FRM_ADDR then csr_field csrs.fcsr fcsr.frm
  else get_csr_default addr.

(** The [default] case of set_csr_value. *)
Definition set_csr_default (addr value : Z) : R unit :=
  when (negb (is_valid_csr64_addr addr)) RAISE_ILLEGAL_INSTRUCTION ;;
  t ← read (fun s => default_write64 addr value (csr_regs s));
  match t with inr t => update (set_csr_regs t) | inl f => fatal f end.

(** A mode that is not implemented leaves the mode as it was. *)
Definition write_satp (value : Z) : R unit :=
  mode ← csr_field csrs.satp satp.mode;
  csr_write csrs.satp SATP_MASK value ;;
  new ← csr_field csrs.satp satp.mode;
  when (negb (new =? SATP_MODE_BARE) && negb (new =? SATP_MODE_SV39) && negb (new =? SATP_MODE_SV48))
    (set_csr_field csrs.satp satp.mode mode).

Definition set_csr_value (addr value : Z) : R unit :=
  misa ← csr_reg csrs.misa;
  if (addr =? MISA_ADDR) || is_hpmcounter addr then skip
  else if addr =? SATP_ADDR then
    tvm ← csr_field csrs.mstatus mstatus.tvm;
    when (nonzero tvm) RAISE_ILLEGAL_INSTRUCTION ;;
    write_satp value
  else if addr =? MTVEC_ADDR then csr_write csrs.mtvec MTVEC_MASK value
  else if addr =? STVEC_ADDR then csr_write csrs.stvec MTVEC_MASK value
  else if addr =? UTVEC_ADDR then csr_write csrs.utvec MTVEC_MASK value
  else if addr =? MEPC_ADDR then csr_write csrs.mepc (pc_alignment_mask misa) value
  else if addr =? SEPC_ADDR then csr_write csrs.sepc (pc_alignment_mask misa) value
  else if addr =? UEPC_ADDR then csr_write csrs.uepc (pc_alignment_mask misa) value
  else if addr =? MSTATUS_ADDR then csr_write csrs.mstatus MSTATUS_WRITE_MASK value
  else if addr =? SSTATUS_ADDR then csr_write csrs.mstatus SSTATUS_WRITE_MASK value
  else if addr =? USTATUS_ADDR then csr_write csrs.mstatus USTATUS_MASK value
  else if addr =? MIP_ADDR then csr_write csrs.mip MIP_WRITE_MASK value
  else if addr =? SIP_ADDR then csr_write csrs.mip SIP_MASK value
  else if addr =? UIP_ADDR then csr_write csrs.mip UIP_MASK value
  else if addr =? MIE_ADDR then csr_write csrs.mie MIE_MASK value
  else if addr =? SIE_ADDR then csr_write csrs.mie SIE_MASK value
  else if addr =? UIE_ADDR then csr_write csrs.mie UIE_MASK value
  else if addr =? MIDELEG_ADDR then csr_write csrs.mideleg MIDELEG_MASK value
  else if addr =? MEDELEG_ADDR then csr_write csrs.medeleg MEDELEG_MASK value
  else if addr =? SIDELEG_ADDR then csr_write csrs.sideleg SIDELEG_MASK value
  else if addr =? SEDELEG_ADDR then csr_write csrs.sedeleg SEDELEG_MASK value
  else if addr =? MCOUNTEREN_ADDR then csr_write csrs.mcounteren MCOUNTEREN_MASK value
  else if addr =? SCOUNTEREN_ADDR then csr_write csrs.scounteren MCOUNTEREN_MASK value
  else if addr =? MCOUNTINHIBIT_ADDR then csr_write csrs.mcountinhibit MCOUNTINHIBIT_MASK value
  else if addr =? FCSR_ADDR then csr_write csrs.fcsr FCSR_MASK value
  else if addr =? FFLAGS_ADDR then set_csr_field csrs.fcsr fcsr.fflags value
  else if addr =? FRM_ADDR then set_csr_field csrs.fcsr fcsr.frm value
  else set_csr_default addr value.

(** ** Floating-point bookkeeping *)

Definition fp_set_dirty : R unit :=
  set_csr_field csrs.mstatus mstatus.sd64 1 ;;
  set_csr_field csrs.mstatus mstatus.fs FS_DIRTY.

Definition fp_update_exception_flags : R unit :=
  flags ← read softfloat_exceptionFlags;
  when (nonzero flags)
    (fp_set_dirty ;;
     old ← csr_field csrs.fcsr fcsr.fflags;
     set_csr_field csrs.fcsr fcsr.fflags (old .| flags) ;;
     update (set_softfloat_exceptionFlags 0)).

Definition fp_finish_instr : R unit := fp_set_dirty ;; fp_update_exception_flags.

(** ** The interface of the system call emulator and the debugger *)

Definition read_register (idx : Z) : R Z :=
  r ← read regs;
  match RegFile_read r idx with inl f => fatal f | inr v => mret (uint64 v) end.

Definition write_register (idx value : Z) : R unit :=
  r ← read regs;
  match RegFile_write r idx (int64 value) with inl f => fatal f | inr r => update (set_regs r) end.

Definition insert_breakpoint (addr : Z) : R unit :=
  update (fun s => set_breakpoints ({[ uint64 addr ]} ∪ breakpoints s) s).
Definition remove_breakpoint (addr : Z) : R unit :=
  update (fun s => set_breakpoints (breakpoints s ∖ {[ uint64 addr ]}) s).
Definition get_registers : R (list Z) := read (fun s => map uint64 (regs s)).

(** ** Traps and interrupts *)

Definition write_cause (cause tval : csrs.reg) (e : SimulationTrap) : R unit :=
  set_csr_field cause mcause.interrupt 0 ;;
  set_csr_field cause mcause.exception_code (reason e) ;;
  set_csr tval (mtval e).

Definition prepare_trap (e : SimulationTrap) : R PrivilegeLevel :=
  last ← read last_pc; write_pc last ;;
  let exc_bit := uint32 (1 .<< reason e) in
  prv ← read prv; medeleg ← csr_reg csrs.medeleg; sedeleg ← csr_reg csrs.sedeleg;
  if (prv =? MachineMode) || negb (nonzero (exc_bit .& medeleg)) then
    write_cause csrs.mcause csrs.mtval e ;; mret MachineMode
  else if (prv =? SupervisorMode) || negb (nonzero (exc_bit .& sedeleg)) then
    write_cause csrs.scause csrs.stval e ;; mret SupervisorMode
  else
    assert ((prv =? UserMode) && nonzero (exc_bit .& medeleg) && nonzero (exc_bit .& sedeleg)) ;;
    write_cause csrs.ucause csrs.utval e ;; mret UserMode.

Definition write_interrupt_cause (cause : csrs.reg) (exc : Z) : R unit :=
  set_csr_field cause mcause.exception_code exc ;;
  set_csr_field cause mcause.interrupt 1.

Definition prepare_interrupt (e : PendingInterrupts) : R unit :=
  match interrupt_code (pending e) with
  | None => fatal RuntimeError
  | Some exc =>
      if target_mode e =? MachineMode then write_interrupt_cause csrs.mcause exc
      else if target_mode e =? SupervisorMode then write_interrupt_cause csrs.scause exc
      else if target_mode e =? UserMode then write_interrupt_cause csrs.ucause exc
      else fatal RuntimeError
  end.

(** The decision as a function of the core's state. *)
Definition pending_interrupts (s : ISS) : PendingInterrupts :=
  let t := csr_regs s in
  let none := mkPending NoneMode 0 in
  let mideleg := csr_get t csrs.mideleg in
  let sideleg := csr_get t csrs.sideleg in
  let pending := csr_get t csrs.mie .& csr_get t csrs.mip in
  if pending =? 0 then none else
  let m_pending := pending .& uint64 (Z.lnot mideleg) in
  if nonzero m_pending &&
     ((prv s <? MachineMode) ||
      (prv s =? MachineMode) && nonzero (get_bits t csrs.mstatus mstatus.mie))
  then mkPending MachineMode m_pending else
  let pending := pending .& mideleg in
  let s_pending := pending .& uint64 (Z.lnot sideleg) in
  if nonzero s_pending &&
     ((prv s <? SupervisorMode) ||
      (prv s =? SupervisorMode) && nonzero (get_bits t csrs.mstatus mstatus.sie))
  then mkPending SupervisorMode s_pending else
  let u_pending := pending .& sideleg in
  if nonzero u_pending && ((prv s =? UserMode) && nonzero (get_bits t csrs.mstatus mstatus.uie))
  then mkPending UserMode u_pending else
  none.

Definition compute_pending_interrupts : R PendingInterrupts := read pending_interrupts.

(** The address of a trap handler: [mtvec] and its mode, and the cause. *)
Definition handler_address (tvec cause : Z) : Z :=
  let base := mtvec.get_base_address tvec in
  if nonzero (get_field mcause.interrupt cause) && (get_field mtvec.mode tvec =? mtvec.Vectored)
  then uint64 (base + 4 * get_field mcause.exception_code cause) else base.

Definition jump_to_handler (tvec cause : csrs.reg) : R unit :=
  t ← csr_reg tvec; c ← csr_reg cause; write_pc (handler_address t c).

Definition switch_to_trap_handler (target_mode : PrivilegeLevel) : R unit :=
  release_lr_sc_reservation ;;
  pp ← read prv;
  update (set_prv target_mode) ;;
  if target_mode =? MachineMode then
    pc ← read pc; set_csr csrs.mepc pc ;;
    mie ← csr_field csrs.mstatus mstatus.mie; set_csr_field csrs.mstatus mstatus.mpie mie ;;
    set_csr_field csrs.mstatus mstatus.mie 0 ;;
    set_csr_field csrs.mstatus mstatus.mpp pp ;;
    jump_to_handler csrs.mtvec csrs.mcause
  else if target_mode =? SupervisorMode then
    prv ← read prv; assert ((prv =? SupervisorMode) || (prv =? UserMode)) ;;
    pc ← read pc; set_csr csrs.sepc pc ;;
    sie ← csr_field csrs.mstatus mstatus.sie; set_csr_field csrs.mstatus mstatus.spie sie ;;
    set_csr_field csrs.mstatus mstatus.sie 0 ;;
    set_csr_field csrs.mstatus mstatus.spp pp ;;
    jump_to_handler csrs.stvec csrs.scause
  else if target_mode =? UserMode then
    prv ← read prv; assert (prv =? UserMode) ;;
    pc ← read pc; set_csr csrs.uepc pc ;;
    uie ← csr_field csrs.mstatus mstatus.uie; set_csr_field csrs.mstatus mstatus.upie uie ;;
    set_csr_field csrs.mstatus mstatus.uie 0 ;;
    jump_to_handler csrs.utvec csrs.ucause
  else fatal RuntimeError.

(** ++csrs.instret.reg *)
Definition count_instruction : R unit :=
  instret ← csr_reg csrs.instret; set_csr csrs.instret (uint64 (instret + 1)).

Definition performance_and_sync_update (executed_op : Mapping) : R unit :=
  ir ← csr_field csrs.mcountinhibit mcountinhibit.IR;
  when (negb (nonzero ir)) count_instruction ;;
  counter ← read lr_sc_counter;
  when (nonzero counter)
    (update (set_lr_sc_counter (counter - 1)) ;;
     assert (0 <=? counter - 1) ;;
     when (counter - 1 =? 0) release_lr_sc_reservation) ;;
  let new_cycles := instr_cycles executed_op in
  cy ← csr_field csrs.mcountinhibit mcountinhibit.CY;
  when (negb (nonzero cy))
    (update (fun s => set_cycle_counter (cycle_counter s + new_cycles) s)) ;;
  quantum_keeper_inc new_cycles ;;
  sync ← quantum_keeper_need_sync;
  when sync
    (counter ← read lr_sc_counter;
     when (counter =? 0) quantum_keeper_sync).

End ISS.
