(* ===== verification/IssExec64.v ===== *)
(** * Execution of one instruction of the 64-bit core

    Models [ISS::exec_step], [run_step] and [run] of core/rv64/iss.cpp.  The
    branches of the [switch] whose text is that of the 32-bit core and that
    depend on no width (ECALL, WFI, SFENCE.VMA and the returns from traps) are
    the definitions of IssExec.v.  Arithmetic on [int32_t] and [int64_t] wraps
    around. *)

From S2P Require Import Prelude Instr Decode Compressed Trap Csr Csr64 Fp Iss IssExec Iss64.

Section exec.
Context {W : Type} `{platform64 W} `{softfloat64}.

Abbreviation R := (M (machine W) SimulationTrap).

(** ** Fetch and decode *)

Definition fetch : R unit :=
  pc ← read pc; misa ← csr_reg csrs.misa;
  assert (pc .& uint64 (Z.lnot (pc_alignment_mask misa)) =? 0) ;;
  try_catch
    (mem_word ← load_instr pc; update (set_instr (mk_Instruction mem_word)))
    (fun e => update (set_op UNDEF) ;; update (set_instr (mk_Instruction 0)) ;; throw e).

Definition decode : R unit :=
  i ← read instr; pc ← read pc;
  if is_compressed i then
    match decode_and_expand_compressed i RV64 with
    | None => fatal RuntimeError
    | Some (i', op) =>
        update (set_instr i') ;; update (set_op op) ;;
        write_pc (uint64 (pc + 2))
    end
  else
    update (set_op (decode_normal RV64 i)) ;;
    write_pc (uint64 (pc + 4)).

(** ** RV64I *)

Definition exec_alu (i : Instruction) (op : Mapping) : R unit :=
  a ← reg (rs1 i); b ← reg (rs2 i);
  shamt_rs2 ← read (fun s => RegFile_shamt64 (regs s) (rs2 i));
  match op with
  | ADDI => set_reg (rd i) (int64 (a + I_imm i))
  | SLTI => set_reg (rd i) (b2z (a <? I_imm i))
  | SLTIU => set_reg (rd i) (b2z (uint64 a <? uint64 (I_imm i)))
  | XORI => set_reg (rd i) (a .^ I_imm i)
  | ORI => set_reg (rd i) (a .| I_imm i)
  | ANDI => set_reg (rd i) (a .& I_imm i)
  | ADD => set_reg (rd i) (int64 (a + b))
  | SUB => set_reg (rd i) (int64 (a - b))
  | SLL => set_reg (rd i) (int64 (a .<< shamt_rs2))
  | SLT => set_reg (rd i) (b2z (a <? b))
  | SLTU => set_reg (rd i) (b2z (uint64 a <? uint64 b))
  | SRL => set_reg (rd i) (int64 (uint64 a .>> shamt_rs2))
  | SRA => set_reg (rd i) (a .>> shamt_rs2)
  | XOR => set_reg (rd i) (a .^ b)
  | OR => set_reg (rd i) (a .| b)
  | AND => set_reg (rd i) (a .& b)
  | SLLI => set_reg (rd i) (int64 (a .<< shamt i))
  | SRLI => set_reg (rd i) (int64 (uint64 a .>> shamt i))
  | SRAI => set_reg (rd i) (a .>> shamt i)
  | _ => skip
  end.

Definition exec_alu_w (i : Instruction) (op : Mapping) : R unit :=
  a ← reg (rs1 i); b ← reg (rs2 i);
  shamt_rs2 ← read (fun s => RegFile_shamt (regs s) (rs2 i));
  match op with
  | ADDIW => set_reg (rd i) (int32 (int32 a + int32 (I_imm i)))
  | SLLIW => set_reg (rd i) (int32 (uint32 (uint32 a .<< shamt_w i)))
  | SRLIW => set_reg (rd i) (int32 (uint32 a .>> shamt_w i))
  | SRAIW => set_reg (rd i) (int32 (int32 a .>> shamt_w i))
  | ADDW => set_reg (rd i) (int32 (int32 a + int32 b))
  | SUBW => set_reg (rd i) (int32 (int32 a - int32 b))
  | SLLW => set_reg (rd i) (int32 (uint32 (uint32 a .<< shamt_rs2)))
  | SRLW => set_reg (rd i) (int32 (uint32 a .>> shamt_rs2))
  | SRAW => set_reg (rd i) (int32 (int32 a .>> shamt_rs2))
  | _ => skip
  end.

Definition exec_jump (i : Instruction) (op : Mapping) : R unit :=
  last_pc ← read last_pc;
  match op with
  | LUI => set_reg (rd i) (U_imm i)
  | AUIPC => set_reg (rd i) (int64 (last_pc + U_imm i))
  | JAL =>
      link ← read pc;
      write_pc (uint64 (last_pc + J_imm i)) ;;
      trap_check_pc_alignment ;;
      set_reg (rd i) (int64 link)
  | JALR =>
      link ← read pc;
      a ← reg (rs1 i);
      write_pc (uint64 (int64 (a + I_imm i) .& Z.lnot 1)) ;;
      trap_check_pc_alignment ;;
      set_reg (rd i) (int64 link)
  | _ => skip
  end.

Definition exec_mem (i : Instruction) (op : Mapping) : R unit :=
  a ← reg (rs1 i); b ← reg (rs2 i);
  let store_addr := uint64 (a + S_imm i) in
  let load_addr := uint64 (a + I_imm i) in
  match op with
  | SB => store_byte store_addr (uint8 b)
  | SH => trap_check_addr_alignment 2 false store_addr ;; store_half store_addr (uint16 b)
  | SW => trap_check_addr_alignment 4 false store_addr ;; store_word store_addr (uint32 b)
  | SD => trap_check_addr_alignment 8 false store_addr ;; store_double store_addr (uint64 b)
  | LB => v ← load_byte load_addr; set_reg (rd i) (int64 v)
  | LH => trap_check_addr_alignment 2 true load_addr ;;
          v ← load_half load_addr; set_reg (rd i) (int64 v)
  | LW => trap_check_addr_alignment 4 true load_addr ;;
          v ← load_word load_addr; set_reg (rd i) (int64 v)
  | LD => trap_check_addr_alignment 8 true load_addr ;;
          v ← load_double load_addr; set_reg (rd i) (int64 v)
  | LBU => v ← load_ubyte load_addr; set_reg (rd i) (int64 v)
  | LHU => trap_check_addr_alignment 2 true load_addr ;;
           v ← load_uhalf load_addr; set_reg (rd i) (int64 v)
  | LWU => trap_check_addr_alignment 4 true load_addr ;;
           v ← load_uword load_addr; set_reg (rd i) (int64 v)
  | _ => skip
  end.

Definition branch_taken (op : Mapping) (a b : Z) : bool :=
  match op with
  | BEQ => a =? b
  | BNE => negb (a =? b)
  | BLT => a <? b
  | BGE => b <=? a
  | BLTU => uint64 a <? uint64 b
  | BGEU => uint64 b <=? uint64 a
  | _ => false
  end.

Definition exec_branch (i : Instruction) (op : Mapping) : R unit :=
  a ← reg (rs1 i); b ← reg (rs2 i);
  when (branch_taken op a b)
    (last_pc ← read last_pc;
     write_pc (uint64 (last_pc + B_imm i)) ;;
     trap_check_pc_alignment).

(** ** Zicsr *)

Definition exec_csrrw (i : Instruction) (value : R Z) : R unit :=
  let addr := csr i in
  invalid ← is_invalid_csr_access addr true;
  if (invalid : bool) then RAISE_ILLEGAL_INSTRUCTION
  else
    v ← value;
    when (negb (rd i =? x_zero)) (csr_val ← get_csr_value addr; set_reg (rd i) (int64 csr_val)) ;;
    set_csr_value addr (uint64 v).

(** The read-modify-write instructions: [f] combines the value of the CSR with
    the operand. *)
Definition exec_csr_update (i : Instruction) (write : bool) (operand : R Z) (f : Z -> Z -> Z)
    : R unit :=
  let addr := csr i in
  invalid ← is_invalid_csr_access addr write;
  if (invalid : bool) then RAISE_ILLEGAL_INSTRUCTION
  else
    v ← operand;
    csr_val ← get_csr_value addr;
    when (negb (rd i =? x_zero)) (set_reg (rd i) (int64 csr_val)) ;;
    when write (set_csr_value addr (f csr_val v)).

Definition csr_set_bits (x v : Z) : Z := x .| uint64 v.
Definition csr_clear_bits (x v : Z) : Z := x .& uint64 (Z.lnot v).
(** In [csr_val & ~zimm] the operand is a [uint32_t], and so is its complement. *)
Definition csr_clear_zimm (x v : Z) : Z := x .& uint32 (Z.lnot v).

Definition exec_csr (i : Instruction) (op : Mapping) : R unit :=
  let rs1_write := negb (rs1 i =? x_zero) in
  let zimm_write := negb (zimm i =? 0) in
  match op with
  | CSRRW => exec_csrrw i (reg (rs1 i))
  | CSRRS => exec_csr_update i rs1_write (reg (rs1 i)) csr_set_bits
  | CSRRC => exec_csr_update i rs1_write (reg (rs1 i)) csr_clear_bits
  | CSRRWI => exec_csrrw i (mret (zimm i))
  | CSRRSI => exec_csr_update i zimm_write (mret (zimm i)) csr_set_bits
  | CSRRCI => exec_csr_update i zimm_write (mret (zimm i)) csr_clear_zimm
  | _ => skip
  end.

(** ** RV64M *)

Definition REG_MIN : Z := - 2 ^ 63.
Definition REG32_MIN : Z := - 2 ^ 31.

Definition exec_muldiv (i : Instruction) (op : Mapping) : R unit :=
  a ← reg (rs1 i); b ← reg (rs2 i);
  match op with
  | MUL => set_reg (rd i) (int64 (sint 128 (a * b)))
  | MULH => set_reg (rd i) (int64 (sint 128 (a * b) .>> 64))
  | MULHU => set_reg (rd i) (int64 (sint 128 (uint64 a * uint64 b) .>> 64))
  | MULHSU => set_reg (rd i) (int64 (sint 128 (uint 128 a * uint64 b) .>> 64))
  | DIV =>
      if b =? 0 then set_reg (rd i) (-1)
      else if (a =? REG_MIN) && (b =? -1) then set_reg (rd i) a
      else set_reg (rd i) (Z.quot a b)
  | DIVU =>
      if b =? 0 then set_reg (rd i) (-1)
      else set_reg (rd i) (int64 (uint64 a / uint64 b))
  | REM =>
      if b =? 0 then set_reg (rd i) a
      else if (a =? REG_MIN) && (b =? -1) then set_reg (rd i) 0
      else set_reg (rd i) (Z.rem a b)
  | REMU =>
      if b =? 0 then set_reg (rd i) a
      else set_reg (rd i) (int64 (uint64 a mod uint64 b))
  | _ => skip
  end.

Definition exec_muldiv_w (i : Instruction) (op : Mapping) : R unit :=
  x ← reg (rs1 i); y ← reg (rs2 i);
  let a := int32 x in
  let b := int32 y in
  match op with
  | MULW => set_reg (rd i) (int32 (int64 (x * y)))
  | DIVW =>
      if b =? 0 then set_reg (rd i) (-1)
      else if (a =? REG32_MIN) && (b =? -1) then set_reg (rd i) a
      else set_reg (rd i) (Z.quot a b)
  | DIVUW =>
      if b =? 0 then set_reg (rd i) (-1)
      else set_reg (rd i) (int32 (uint32 a / uint32 b))
  | REMW =>
      if b =? 0 then set_reg (rd i) a
      else if (a =? REG32_MIN) && (b =? -1) then set_reg (rd i) 0
      else set_reg (rd i) (Z.rem a b)
  | REMUW =>
      if b =? 0 then set_reg (rd i) a
      else set_reg (rd i) (int32 (uint32 a mod uint32 b))
  | _ => skip
  end.

(** ** RV64A *)

Definition amo_operation_w (op : Mapping) (a b : Z) : Z :=
  match op with
  | AMOSWAP_W => b
  | AMOADD_W => int32 (a + b)
  | AMOXOR_W => a .^ b
  | AMOAND_W => a .& b
  | AMOOR_W => a .| b
  | AMOMIN_W => Z.min a b
  | AMOMINU_W => int32 (Z.min (uint32 a) (uint32 b))
  | AMOMAX_W => Z.max a b
  | AMOMAXU_W => int32 (Z.max (uint32 a) (uint32 b))
  | _ => b
  end.

Definition amo_operation_d (op : Mapping) (a b : Z) : Z :=
  match op with
  | AMOSWAP_D => b
  | AMOADD_D => int64 (a + b)
  | AMOXOR_D => a .^ b
  | AMOAND_D => a .& b
  | AMOOR_D => a .| b
  | AMOMIN_D => Z.min a b
  | AMOMINU_D => int64 (Z.min (uint64 a) (uint64 b))
  | AMOMAX_D => Z.max a b
  | AMOMAXU_D => int64 (Z.max (uint64 a) (uint64 b))
  | _ => b
  end.

Definition exec_amo_w (i : Instruction) (op : Mapping) : R unit :=
  match op with
  | LR_W =>
      a ← reg (rs1 i);
      let addr := uint64 a in
      trap_check_addr_alignment 4 true addr ;;
      v ← atomic_load_reserved_word addr;
      set_reg (rd i) (int64 v) ;;
      counter ← read lr_sc_counter;
      when (counter =? 0) (update (set_lr_sc_counter 17))
  | SC_W =>
      a ← reg (rs1 i);
      let addr := uint64 a in
      trap_check_addr_alignment 4 false addr ;;
      val ← reg (rs2 i);
      set_reg (rd i) 1 ;;
      ok ← atomic_store_conditional_word addr (uint32 (int32 val));
      set_reg (rd i) (if (ok : bool) then 0 else 1) ;;
      update (set_lr_sc_counter 0)
  | _ => execute_amo_w i (amo_operation_w op)
  end.

Definition exec_amo_d (i : Instruction) (op : Mapping) : R unit :=
  match op with
  | LR_D =>
      a ← reg (rs1 i);
      let addr := uint64 a in
      trap_check_addr_alignment 8 true addr ;;
      v ← atomic_load_reserved_double addr;
      set_reg (rd i) (int64 v) ;;
      counter ← read lr_sc_counter;
      when (counter =? 0) (update (set_lr_sc_counter 17))
  | SC_D =>
      a ← reg (rs1 i);
      let addr := uint64 a in
      trap_check_addr_alignment 8 false addr ;;
      val ← reg (rs2 i);
      set_reg (rd i) 1 ;;
      ok ← atomic_store_conditional_double addr (uint64 val);
      set_reg (rd i) (if (ok : bool) then 0 else 1) ;;
      update (set_lr_sc_counter 0)
  | _ => execute_amo_d i (amo_operation_d op)
  end.

(** ** RV64F *)

Definition exec_flw_fsw (i : Instruction) (op : Mapping) : R unit :=
  a ← reg (rs1 i);
  match op with
  | FLW =>
      let addr := uint64 (a + I_imm i) in
      trap_check_addr_alignment 4 true addr ;;
      v ← load_uword addr;
      fp_set_f32 (rd i) (uint32 v)
  | FSW =>
      let addr := uint64 (a + S_imm i) in
      trap_check_addr_alignment 4 false addr ;;
      v ← fp_reg_u32 (rs2 i);
      store_word addr v
  | _ => skip
  end.

(** The frame of the rounding operations. *)
Definition fp_rounding (f : Z -> Z * Z) (write : Z -> R unit) : R unit :=
  fp_prepare_instr ;;
  fp_setup_rm ;;
  rm ← read softfloat_roundingMode;
  v ← fp_call (f rm);
  write v ;;
  fp_finish_instr.

Definition exec_f_arith (i : Instruction) (op : Mapping) : R unit :=
  a ← fp_reg_f32 (rs1 i); b ← fp_reg_f32 (rs2 i); c ← fp_reg_f32 (rs3 i);
  let f32_op f := fp_rounding f (fp_set_f32 (rd i)) in
  match op with
  | FADD_S => f32_op (fun rm => f32_add rm a b)
  | FSUB_S => f32_op (fun rm => f32_sub rm a b)
  | FMUL_S => f32_op (fun rm => f32_mul rm a b)
  | FDIV_S => f32_op (fun rm => f32_div rm a b)
  | FSQRT_S => f32_op (fun rm => f32_sqrt rm a)
  | FMADD_S => f32_op (fun rm => f32_mulAdd rm a b c)
  | FMSUB_S => f32_op (fun rm => f32_mulAdd rm a b (f32_neg c))
  | FNMADD_S => f32_op (fun rm => f32_mulAdd rm (f32_neg a) b (f32_neg c))
  | FNMSUB_S => f32_op (fun rm => f32_mulAdd rm (f32_neg a) b c)
  | _ => skip
  end.

Definition exec_f_minmax (i : Instruction) (op : Mapping) : R unit :=
  fp_prepare_instr ;;
  a ← fp_reg_f32 (rs1 i); b ← fp_reg_f32 (rs2 i);
  rs1_wins ←
    (match op with
     | FMIN_S => fp_smaller (f32_lt_quiet a b) (f32_eq a b) (f32_isNegative a)
     | _ => fp_smaller (f32_lt_quiet b a) (f32_eq b a) (f32_isNegative b)
     end);
  (if f32_isNaN a && f32_isNaN b then fp_set_f32 (rd i) f32_defaultNaN
   else if (rs1_wins : bool) then fp_set_f32 (rd i) a else fp_set_f32 (rd i) b) ;;
  fp_finish_instr.

Definition exec_f_convert (i : Instruction) (op : Mapping) : R unit :=
  a ← fp_reg_f32 (rs1 i); x ← reg (rs1 i);
  let set_int v := set_reg (rd i) (int32 v) in
  let set_long v := set_reg (rd i) (int64 v) in
  match op with
  | FCVT_W_S => fp_rounding (fun rm => f32_to_i32 rm a) set_int
  | FCVT_WU_S => fp_rounding (fun rm => f32_to_ui32 rm a) set_int
  | FCVT_S_W => fp_rounding (fun rm => i32_to_f32 rm (int32 x)) (fp_set_f32 (rd i))
  | FCVT_S_WU => fp_rounding (fun rm => ui32_to_f32 rm (uint32 (int32 x))) (fp_set_f32 (rd i))
  | FCVT_L_S => fp_rounding (fun rm => f32_to_i64 rm a) set_long
  | FCVT_LU_S => fp_rounding (fun rm => f32_to_ui64 rm a) set_long
  | FCVT_S_L => fp_rounding (fun rm => i64_to_f32 rm x) (fp_set_f32 (rd i))
  | FCVT_S_LU => fp_rounding (fun rm => ui64_to_f32 rm (uint64 x)) (fp_set_f32 (rd i))
  | _ => skip
  end.

Definition exec_f_move (i : Instruction) (op : Mapping) : R unit :=
  fp_prepare_instr ;;
  f1 ← fp_reg_f32 (rs1 i); f2 ← fp_reg_f32 (rs2 i);
  match op with
  | FSGNJ_S => fp_set_f32 (rd i) (f32_sgnj f1 f2) ;; fp_set_dirty
  | FSGNJN_S => fp_set_f32 (rd i) (f32_sgnj f1 (uint32 (Z.lnot f2))) ;; fp_set_dirty
  | FSGNJX_S => fp_set_f32 (rd i) (f1 .^ (f2 .& F32_SIGN_BIT)) ;; fp_set_dirty
  | FMV_W_X => x ← reg (rs1 i); fp_set_f32 (rd i) (uint32 (int32 x)) ;; fp_set_dirty
  | FMV_X_W => v ← fp_reg_u32 (rs1 i); set_reg (rd i) (int32 v)
  | _ => skip
  end.

(** A comparison, and its flags. *)
Definition fp_compare (i : Instruction) (r : bool * Z) : R unit :=
  v ← fp_call r; set_reg (rd i) (b2z v) ;; fp_update_exception_flags.

Definition exec_f_compare (i : Instruction) (op : Mapping) : R unit :=
  fp_prepare_instr ;;
  a ← fp_reg_f32 (rs1 i); b ← fp_reg_f32 (rs2 i);
  match op with
  | FEQ_S => fp_compare i (f32_eq a b)
  | FLT_S => fp_compare i (f32_lt a b)
  | FLE_S => fp_compare i (f32_le a b)
  | FCLASS_S => set_reg (rd i) (int32 (f32_classify a))
  | _ => skip
  end.

(** ** RV64D *)

Definition exec_fld_fsd (i : Instruction) (op : Mapping) : R unit :=
  a ← reg (rs1 i);
  match op with
  | FLD =>
      let addr := uint64 (a + I_imm i) in
      trap_check_addr_alignment 8 true addr ;;
      v ← load_double addr;
      fp_set_f64 (rd i) (uint64 v)
  | FSD =>
      let addr := uint64 (a + S_imm i) in
      trap_check_addr_alignment 8 false addr ;;
      v ← fp_reg_f64 (rs2 i);
      store_double addr v
  | _ => skip
  end.

Definition exec_d_arith (i : Instruction) (op : Mapping) : R unit :=
  a ← fp_reg_f64 (rs1 i); b ← fp_reg_f64 (rs2 i); c ← fp_reg_f64 (rs3 i);
  let f64_op f := fp_rounding f (fp_set_f64 (rd i)) in
  match op with
  | FADD_D => f64_op (fun rm => f64_add rm a b)
  | FSUB_D => f64_op (fun rm => f64_sub rm a b)
  | FMUL_D => f64_op (fun rm => f64_mul rm a b)
  | FDIV_D => f64_op (fun rm => f64_div rm a b)
  | FSQRT_D => f64_op (fun rm => f64_sqrt rm a)
  | FMADD_D => f64_op (fun rm => f64_mulAdd rm a b c)
  | FMSUB_D => f64_op (fun rm => f64_mulAdd rm a b (f64_neg c))
  | FNMADD_D => f64_op (fun rm => f64_mulAdd rm (f64_neg a) b (f64_neg c))
  | FNMSUB_D => f64_op (fun rm => f64_mulAdd rm (f64_neg a) b c)
  | _ => skip
  end.

Definition exec_d_minmax (i : Instruction) (op : Mapping) : R unit :=
  fp_prepare_instr ;;
  a ← fp_reg_f64 (rs1 i); b ← fp_reg_f64 (rs2 i);
  rs1_wins ←
    (match op with
     | FMIN_D => fp_smaller (f64_lt_quiet a b) (f64_eq a b) (f64_isNegative a)
     | _ => fp_smaller (f64_lt_quiet b a) (f64_eq b a) (f64_isNegative b)
     end);
  (if f64_isNaN a && f64_isNaN b then fp_set_f64 (rd i) f64_defaultNaN
   else if (rs1_wins : bool) then fp_set_f64 (rd i) a else fp_set_f64 (rd i) b) ;;
  fp_finish_instr.

Definition exec_d_move (i : Instruction) (op : Mapping) : R unit :=
  fp_prepare_instr ;;
  f1 ← fp_reg_f64 (rs1 i); f2 ← fp_reg_f64 (rs2 i);
  match op with
  | FSGNJ_D => fp_set_f64 (rd i) (f64_sgnj f1 f2) ;; fp_set_dirty
  | FSGNJN_D => fp_set_f64 (rd i) (f64_sgnj f1 (uint64 (Z.lnot f2))) ;; fp_set_dirty
  | FSGNJX_D => fp_set_f64 (rd i) (f1 .^ (f2 .& F64_SIGN_BIT)) ;; fp_set_dirty
  | FMV_D_X => x ← reg (rs1 i); fp_set_f64 (rd i) (uint64 x) ;; fp_set_dirty
  | FMV_X_D => set_reg (rd i) (int64 f1)
  | _ => skip
  end.

Definition exec_d_compare (i : Instruction) (op : Mapping) : R unit :=
  fp_prepare_instr ;;
  a ← fp_reg_f64 (rs1 i); b ← fp_reg_f64 (rs2 i);
  match op with
  | FEQ_D => fp_compare i (f64_eq a b)
  | FLT_D => fp_compare i (f64_lt a b)
  | FLE_D => fp_compare i (f64_le a b)
  | FCLASS_D => set_reg (rd i) (int64 (f64_classify a))
  | _ => skip
  end.

Definition exec_d_convert (i : Instruction) (op : Mapping) : R unit :=
  a ← fp_reg_f64 (rs1 i); f ← fp_reg_f32 (rs1 i); x ← reg (rs1 i);
  let set_int v := set_reg (rd i) (int32 v) in
  let set_long v := set_reg (rd i) (int64 v) in
  match op with
  | FCVT_S_D => fp_rounding (fun rm => f64_to_f32 rm a) (fp_set_f32 (rd i))
  | FCVT_D_S => fp_rounding (fun _ => f32_to_f64 f) (fp_set_f64 (rd i))
  | FCVT_W_D => fp_rounding (fun rm => f64_to_i32 rm a) set_int
  | FCVT_WU_D => fp_rounding (fun rm => f64_to_ui32 rm a) set_int
  | FCVT_D_W => fp_rounding (fun _ => i32_to_f64 (int32 x)) (fp_set_f64 (rd i))
  | FCVT_D_WU => fp_rounding (fun _ => ui32_to_f64 (uint32 (int32 x))) (fp_set_f64 (rd i))
  | FCVT_L_D => fp_rounding (fun rm => f64_to_i64 rm a) set_long
  | FCVT_LU_D => fp_rounding (fun rm => f64_to_ui64 rm a) set_long
  | FCVT_D_L => fp_rounding (fun rm => i64_to_f64 rm x) (fp_set_f64 (rd i))
  | FCVT_D_LU => fp_rounding (fun rm => ui64_to_f64 rm (uint64 x)) (fp_set_f64 (rd i))
  | _ => skip
  end.

(** ** The switch, and the step *)

Definition exec_op (i : Instruction) (op : Mapping) : R unit :=
  match op with
  | UNDEF => RAISE_ILLEGAL_INSTRUCTION
  | ADDI | SLTI | SLTIU | XORI | ORI | ANDI | ADD | SUB | SLL | SLT | SLTU | SRL | SRA
  | XOR | OR | AND | SLLI | SRLI | SRAI => exec_alu i op
  | LUI | AUIPC | JAL | JALR => exec_jump i op
  | SB | SH | SW | SD | LB | LH | LW | LD | LBU | LHU | LWU => exec_mem i op
  | BEQ | BNE | BLT | BGE | BLTU | BGEU => exec_branch i op
  | ADDIW | SLLIW | SRLIW | SRAIW | ADDW | SUBW | SLLW | SRLW | SRAW => exec_alu_w i op
  | FENCE | FENCE_I => skip
  | ECALL => exec_ecall
  | EBREAK => update (set_status HitBreakpoint)
  | CSRRW | CSRRS | CSRRC | CSRRWI | CSRRSI | CSRRCI => exec_csr i op
  | MUL | MULH | MULHU | MULHSU | DIV | DIVU | REM | REMU => exec_muldiv i op
  | MULW | DIVW | DIVUW | REMW | REMUW => exec_muldiv_w i op
  | LR_W | SC_W | AMOSWAP_W | AMOADD_W | AMOXOR_W | AMOAND_W | AMOOR_W | AMOMIN_W
  | AMOMINU_W | AMOMAX_W | AMOMAXU_W => exec_amo_w i op
  | LR_D | SC_D | AMOSWAP_D | AMOADD_D | AMOXOR_D | AMOAND_D | AMOOR_D | AMOMIN_D
  | AMOMINU_D | AMOMAX_D | AMOMAXU_D => exec_amo_d i op
  | FLW | FSW => exec_flw_fsw i op
  | FADD_S | FSUB_S | FMUL_S | FDIV_S | FSQRT_S | FMADD_S | FMSUB_S | FNMADD_S
  | FNMSUB_S => exec_f_arith i op
  | FMIN_S | FMAX_S => exec_f_minmax i op
  | FCVT_W_S | FCVT_WU_S | FCVT_S_W | FCVT_S_WU | FCVT_L_S | FCVT_LU_S | FCVT_S_L
  | FCVT_S_LU => exec_f_convert i op
  | FSGNJ_S | FSGNJN_S | FSGNJX_S | FMV_W_X | FMV_X_W => exec_f_move i op
  | FEQ_S | FLT_S | FLE_S | FCLASS_S => exec_f_compare i op
  | FLD | FSD => exec_fld_fsd i op
  | FADD_D | FSUB_D | FMUL_D | FDIV_D | FSQRT_D | FMADD_D | FMSUB_D | FNMADD_D
  | FNMSUB_D => exec_d_arith i op
  | FMIN_D | FMAX_D => exec_d_minmax i op
  | FSGNJ_D | FSGNJN_D | FSGNJX_D | FMV_D_X | FMV_X_D => exec_d_move i op
  | FCVT_S_D | FCVT_D_S | FCVT_W_D | FCVT_WU_D | FCVT_D_W | FCVT_D_WU | FCVT_L_D
  | FCVT_LU_D | FCVT_D_L | FCVT_D_LU => exec_d_convert i op
  | FEQ_D | FLT_D | FLE_D | FCLASS_D => exec_d_compare i op
  | WFI => exec_wfi
  | SFENCE_VMA => exec_sfence_vma
  | URET | SRET | MRET => exec_xret op
  end.

Definition exec_step : R unit :=
  fetch ;;
  decode ;;
  i ← read instr; op ← read op;
  exec_op i op.

(** ** run_step and run *)

Definition take_trap (e : SimulationTrap) : R unit :=
  target_mode ← prepare_trap e;
  switch_to_trap_handler target_mode.

Definition take_interrupt : R unit :=
  x ← compute_pending_interrupts;
  when (negb (target_mode x =? NoneMode))
    (prepare_interrupt x ;; switch_to_trap_handler (target_mode x)).

Definition run_step : R unit :=
  x0 ← reg x_zero;
  assert (x0 =? 0) ;;
  debug_mode ← read debug_mode; breakpoints ← read breakpoints; pc ← read pc;
  if debug_mode && bool_decide (pc ∈ breakpoints) then update (set_status HitBreakpoint)
  else
    update (set_last_pc pc) ;;
    try_catch (exec_step ;; take_interrupt) take_trap ;;
    set_reg x_zero 0 ;;
    shall_exit ← read shall_exit;
    when shall_exit (update (set_status Terminated)) ;;
    op ← read op;
    performance_and_sync_update op.

(** At most [fuel] iterations of the loop of [run]; the result tells whether the
    loop ended. *)
Fixpoint run_loop (fuel : nat) : R bool :=
  match fuel with
  | O => mret false
  | S fuel =>
      run_step ;;
      status ← read status;
      if bool_decide (status = Runnable) then run_loop fuel else mret true
  end.

Definition run (fuel : nat) : R bool :=
  ended ← run_loop fuel;
  when ended quantum_keeper_sync ;;
  mret ended.

End exec.
