(* ===== verification/IssInv64.v ===== *)
(** * The invariant of the 64-bit core

    CoreInv.v for registers of 64 bits.  The code of the 64-bit core has one
    failure of its own: an access to [pmpcfg2] or [pmpcfg3], which are mapped to
    memory behind the array [pmpcfg]. *)

From S2P Require Import Prelude Instr Decode Compressed Trap Csr Csr64 Fp Iss Iss64 IssLogic Mmu.
From S2P Require Export CoreInv CoreSafe.

Definition misa64_ok (v : Z) : Prop := v = misa_init.

Abbreviation csr64_ok := (csr_inv 64 misa64_ok).
Abbreviation csrs64_ok := (csrs_inv 64 misa64_ok).
Abbreviation core64_ok := (core_inv 64 misa64_ok).
Abbreviation trap64_ok := (trap_inv 64).

(** The instruction names a register behind the array. *)
Definition table_fails (f : failure) (c : ISS) : Prop :=
  f = UndefinedBehaviour /\ outside_pmpcfg (csr (instr c)) = true.

Definition core64_fails (f : failure) (c : ISS) : Prop :=
  reserved_mode_fails f c \/ table_fails f c.

Lemma misa64_C v : misa64_ok v -> has_C_extension v = true.
Proof. by intros ->. Qed.
Lemma misa64_U v : misa64_ok v -> has_user_mode_extension v = true.
Proof. by intros ->. Qed.
Lemma misa64_S v : misa64_ok v -> has_supervisor_mode_extension v = true.
Proof. by intros ->. Qed.
Lemma misa64_mask v : misa64_ok v -> pc_alignment_mask v = 0xfffffffffffffffe.
Proof. by intros ->. Qed.

#[export] Instance rv64_type : core_type 64 misa64_ok := {
  core_fails := core64_fails;
  core_fails_reserved f c Hf := or_introl Hf;
  xlen_range := ltac:(lia);
  misa_C := misa64_C;
  misa_U := misa64_U;
  misa_S := misa64_S
}.

Class platform64_ok (W : Type) `{platform64 W} : Type := {
  platform64_environment :: environment_ok 64 misa64_ok W;
  load_uword_ok a : is_uint 64 a ->
    core_access 64 misa64_ok env_ok env_fails (load_uword a) (is_uint 64);
  atomic_load_double_ok a : is_uint 64 a ->
    core_access 64 misa64_ok env_ok env_fails (atomic_load_double a) (is_sint 64);
  atomic_store_double_ok a v : is_uint 64 a -> is_uint 64 v ->
    core_access 64 misa64_ok env_ok env_fails (atomic_store_double a v) (fun _ => True);
  atomic_load_reserved_double_ok a : is_uint 64 a ->
    core_access 64 misa64_ok env_ok env_fails (atomic_load_reserved_double a) (is_sint 64);
  atomic_store_conditional_double_ok a v : is_uint 64 a -> is_uint 64 v ->
    core_access 64 misa64_ok env_ok env_fails (atomic_store_conditional_double a v) (fun _ => True)
}.

Class softfloat64_ok (sf : softfloat64) : Prop := {
  softfloat64_softfloat_ok :: softfloat_ok softfloat64_softfloat;
  f32_to_i64_ok rm a : flags_result (f32_to_i64 rm a);
  f32_to_ui64_ok rm a : flags_result (f32_to_ui64 rm a);
  i64_to_f32_ok rm a : f32_result (i64_to_f32 rm a);
  ui64_to_f32_ok rm a : f32_result (ui64_to_f32 rm a);
  f64_to_i64_ok rm a : flags_result (f64_to_i64 rm a);
  f64_to_ui64_ok rm a : flags_result (f64_to_ui64 rm a);
  i64_to_f64_ok rm a : f64_result (i64_to_f64 rm a);
  ui64_to_f64_ok rm a : f64_result (ui64_to_f64 rm a)
}.

(** ** CSRs *)

Lemma csr64_range t r : csrs64_ok t -> is_uint 64 (csr_get t r).
Proof. intros Ht. pose proof (Ht r) as [H _]. unfold csr_width in H. by destruct (csrs.is_64 r). Qed.

Lemma csr64_plain r v : special_csr r = false -> is_uint 64 v -> csr64_ok r v.
Proof.
  intros ? Hv. apply csr_value_ok_plain; [done |]. unfold csr_width. by destruct (csrs.is_64 r).
Qed.

Lemma masked_write64_ok r mask v t :
  is_uint 64 mask -> csr_mask_ok 64 r mask -> csrs64_ok t -> csrs64_ok (masked_write r mask v t).
Proof.
  intros. apply (masked_csr_ok 64); try done. unfold csr_width. by destruct (csrs.is_64 r).
Qed.

(** ** satp *)

Definition satp_mode_ok (mode : Z) : bool :=
  (mode =? SATP_MODE_BARE) || (mode =? SATP_MODE_SV39) || (mode =? SATP_MODE_SV48).

Lemma satp_mode_field v : is_uint 64 v -> get_field satp.mode v = v .>> 60.
Proof.
  intros Hv. unfold get_field. apply uint_id. unfold is_uint in *. simpl.
  rewrite Z.shiftr_div_pow2 by lia. split; [apply Z.div_pos; lia |].
  apply Z.div_lt_upper_bound; lia.
Qed.

Lemma satp_ok_mode v : is_uint 64 v -> satp_ok 64 v <-> satp_mode_ok (get_field satp.mode v) = true.
Proof.
  intros Hv. rewrite satp_mode_field by done. unfold satp_ok, satp_mode_ok.
  change SATP_MODE_BARE with 0. change SATP_MODE_SV39 with 8. change SATP_MODE_SV48 with 9.
  split; [intros H; specialize (H eq_refl) | intros H _]; lia.
Qed.

(** What a write leaves in the table. *)
Definition satp_write (v : Z) (t : csr_table) : csr_table :=
  let t' := masked_write csrs.satp SATP_MASK v t in
  if satp_mode_ok (get_bits t' csrs.satp satp.mode) then t'
  else set_bits csrs.satp satp.mode (get_bits t csrs.satp satp.mode) t'.

Lemma satp_write_ok v t : csrs64_ok t -> csrs64_ok (satp_write v t).
Proof.
  intros Ht. pose proof (Ht csrs.satp) as [Hw Hs].
  set (x := (csr_get t csrs.satp .& uint64 (Z.lnot SATP_MASK)) .| (v .& SATP_MASK)).
  assert (Hx : is_uint 64 x) by (by apply masked_write_range).
  assert (Hplain : forall y, is_uint 64 y -> satp_mode_ok (get_field satp.mode y) = true ->
    csr64_ok csrs.satp y) by (intros y Hy Hm; split; [done | by apply satp_ok_mode]).
  unfold satp_write, masked_write, set_bits, get_bits. cbv zeta. rewrite !csr_get_set_same.
  fold x. clearbody x. destruct (satp_mode_ok (get_field satp.mode x)) eqn:Hm.
  - apply csrs_ok_set; [by apply Hplain | done].
  - rewrite csr_set_set. apply csrs_ok_set; [| done]. apply Hplain.
    + apply is_uint_set_field; [by split | done | done].
    + rewrite get_set_field_same by (by split). rewrite uint_id by (by apply get_field_range; split).
      by apply satp_ok_mode.
Qed.

(** The registers with restrictions are not written through the table. *)
Definition special_addr (addr : Z) : bool :=
  (addr =? MISA_ADDR) || (addr =? MEPC_ADDR) || (addr =? SEPC_ADDR) || (addr =? UEPC_ADDR)
  || (addr =? MIE_ADDR) || (addr =? SATP_ADDR).

Lemma register_mapping64_special addr r :
  register_mapping addr = Some r -> special_csr r = true -> special_addr addr = true.
Proof.
  unfold register_mapping.
  repeat (match goal with |- context [if ?b then _ else _] => destruct b eqn:? end;
          [ intros [= <-]; cbn [special_csr]; try discriminate; intros _;
            match goal with E : (addr =? _) = true |- _ => apply Z.eqb_eq in E as -> end; done |]).
  discriminate.
Qed.

Lemma csrs64_init : csrs64_ok csr_table_init.
Proof.
  intros r. unfold csr_table_init. rewrite !csr_get_set.
  destruct (decide (csrs.mstatus = r)) as [<-|]; [by split |].
  destruct (decide (csrs.misa = r)) as [<-|]; [by split |].
  change (csr_get ∅ r) with 0. split; [unfold csr_width; by destruct (csrs.is_64 r) | destruct r; try done; by left].
Qed.

Lemma ISS_new64_ok (hart_id : Z) : is_uint 64 hart_id -> core64_ok (ISS_new hart_id).
Proof.
  intros Hh. constructor; simpl; try done; try by repeat constructor.
  apply csrs_ok_set; [by apply csr64_plain | apply csrs64_init].
Qed.

Section rules.
Context {W : Type} `{platform64_ok W}.
Variable Fl : Z -> Prop.
Abbreviation any := (fun _ => True).

Lemma safe_csr_write64 r mask v :
  is_uint 64 mask -> csr_mask_ok 64 r mask -> safe Fl (csr_write r mask v) any.
Proof. intros. apply safe_update_csrs. intros. by apply masked_write64_ok. Qed.

Lemma safe_csr_read64 r mask : safe Fl (csr_read r mask) (is_uint 64).
Proof.
  apply safe_read. intros s Hs. apply is_uint_land_l; [lia |]. apply csr64_range, Hs.
Qed.

Lemma safe_csr_reg64 r : safe Fl (csr_reg r) (is_uint 64).
Proof. apply safe_read. intros s Hs. apply csr64_range, Hs. Qed.

Lemma safe_set_csr_plain r v :
  special_csr r = false -> is_uint 64 v -> safe Fl (set_csr r v) any.
Proof. intros. apply safe_set_csr. by apply csr64_plain. Qed.

End rules.

#[export] Hint Resolve safe_csr_read64 : vp_safe.
