(* ===== verification/IssSafe64.v ===== *)
(** * Safety of the operations of the 64-bit core

    The operations of Iss64.v keep the invariant of IssInv64.v.  Accesses to CSRs
    are safe except for the two addresses that lie outside of [pmpcfg]. *)

From S2P Require Import Prelude Instr Trap Csr Csr64 Fp Iss IssExec Iss64 IssExec64 IssLogic Mmu IssInv64 CoreFp CoreStep IssValues.

(** ** Values *)

Lemma sint_int64 z : is_sint 64 (int64 z).
Proof. apply sint_range. lia. Qed.
Lemma uint_uint64 z : is_uint 64 (uint64 z).
Proof. apply uint_range. lia. Qed.
Lemma sint64_of_32 z : is_sint 32 z -> is_sint 64 z.
Proof. by apply is_sint_weaken. Qed.
Lemma sint64_int32 z : is_sint 64 (int32 z).
Proof. apply sint64_of_32, sint_int32. Qed.
Lemma sint64_b2z b : is_sint 64 (b2z b).
Proof. by destruct b. Qed.
Lemma I_imm_range64 i : is_sint 32 i -> is_sint 64 (I_imm i).
Proof. intros. by apply sint64_of_32, I_imm_range. Qed.
Lemma U_imm_range64 i : is_sint 32 i -> is_sint 64 (U_imm i).
Proof. intros. by apply sint64_of_32, U_imm_range. Qed.
Lemma is_sint_lor_64 x y : is_sint 64 x -> is_sint 64 y -> is_sint 64 (x .| y).
Proof. by apply is_sint_lor. Qed.
Lemma is_sint_land_64 x y : is_sint 64 x -> is_sint 64 y -> is_sint 64 (x .& y).
Proof. by apply is_sint_land. Qed.
Lemma is_sint_lxor_64 x y : is_sint 64 x -> is_sint 64 y -> is_sint 64 (x .^ y).
Proof. by apply is_sint_lxor. Qed.
Lemma even_assert64 pc :
  even pc -> (pc .& uint64 (Z.lnot 0xfffffffffffffffe) =? 0) = true.
Proof.
  intros He. change (uint64 (Z.lnot 0xfffffffffffffffe)) with 1.
  by rewrite (proj1 (even_spec pc) He).
Qed.

Create HintDb vp_sint64.
#[export] Hint Resolve sint_int64 uint_uint64 sint64_int32 sint64_b2z I_imm_range64 U_imm_range64
  is_sint_lor_64 is_sint_land_64 is_sint_lxor_64 : vp_sint64.

Section operations.
Context {W : Type} `{Hplatform : platform64_ok W} `{Hsf : softfloat64_ok}.

Abbreviation R := (M (machine W) SimulationTrap).
Abbreviation any := (fun _ => True).

Section flags.
Variable Fl : Z -> Prop.

(** ** Atomic operations *)

Lemma safe_amo_load (load : R Z) (Q : Z -> Prop) :
  core_access 64 misa64_ok env_ok env_fails load Q -> safe Fl (amo_load load) Q.
Proof.
  intros Hl. eapply triple_try_catch; [by apply safe_access |].
  intros e s [[Hr Hv] Hs]. split; [| done]. destruct (_ =? _); by split.
Qed.

Lemma safe_execute_amo_w i operation : safe Fl (execute_amo_w i operation) any.
Proof.
  unfold execute_amo_w. safe_step. cbv zeta.
  pose proof (uint_uint64 a). safe_step.
  eapply safe_bind; [by apply safe_amo_load, atomic_load_word_ok | intros d _].
  safe_step. safe_step; [apply safe_access, atomic_store_word_ok; [done | apply uint_uint32] |].
  apply safe_set_reg, sint64_int32.
Qed.

Lemma safe_execute_amo_d i operation : safe Fl (execute_amo_d i operation) any.
Proof.
  unfold execute_amo_d. safe_step. cbv zeta.
  pose proof (uint_uint64 a). safe_step.
  eapply safe_bind; [by apply safe_amo_load, atomic_load_double_ok | intros d _].
  safe_step. safe_step; [apply safe_access, atomic_store_double_ok; [done | apply uint_uint64] |].
  apply safe_set_reg, sint_int64.
Qed.

(** ** CSR accesses *)

Lemma safe_is_invalid_csr_access64 addr w : safe Fl (is_invalid_csr_access addr w) any.
Proof. unfold is_invalid_csr_access. by safe_tac. Qed.

Lemma safe_validate64 addr : safe Fl (validate_csr_counter_read_access_rights addr) any.
Proof. unfold validate_csr_counter_read_access_rights. safe_tac. Qed.

(** The accesses are those of an instruction that does not name a register
    outside of the table. *)
Lemma safe_get_csr_default64 addr :
  outside_pmpcfg addr = false -> safe Fl (get_csr_default addr) (is_uint 64).
Proof.
  intros Ho. unfold get_csr_default.
  destruct (is_valid_csr64_addr addr) eqn:Hv; cbn [negb when].
  - destruct (default_reg64_cases addr Hv Ho) as (r & _ & Hr).
    eapply safe_bind; [apply safe_skip | intros _ _].
    eapply safe_bind.
    + apply (safe_read _ _ (fun o => exists v, o = inr v /\ is_uint 64 v)). intros s Hs.
      unfold default_read64. rewrite Hr. eexists. split; [done |]. apply csr64_range, Hs.
    + intros o (v & -> & ?). by apply safe_ret.
  - eapply safe_bind; [apply (safe_illegal _ (fun _ => False)) | done].
Qed.

Lemma safe_get_csr_value64 addr :
  outside_pmpcfg addr = false -> safe Fl (get_csr_value addr) (is_uint 64).
Proof.
  intros Ho. pose proof (safe_get_csr_default64 addr Ho) as Hdefault.
  unfold get_csr_value. safe_step; [apply safe_validate64 |].
  assert (Hfield : forall r f, bf_wf f -> bf_width f <= 64 ->
    safe Fl (csr_field r f) (is_uint 64)).
  { intros r f Hf ?. eapply safe_conseq; [by apply safe_csr_field |].
    intros v Hv. by eapply is_uint_weaken. }
  repeat match goal with |- safe _ (if ?b then _ else _) _ => destruct b end;
    first
      [ apply Hdefault | apply safe_csr_read64 | apply safe_csr_reg64
      | by apply safe_ret
      | apply Hfield; [by split | done]
      | safe_step; safe_step; apply Hdefault
      | idtac ].
  - safe_step; [apply safe_env, update_and_get_mtime_ok |].
    safe_step; [by apply safe_set_csr_plain |]. apply safe_csr_reg64.
  - safe_step; [apply safe_cycles |].
    safe_step; [by apply safe_set_csr_plain |]. apply safe_csr_reg64.
Qed.

Lemma safe_set_csr_default64 addr v :
  outside_pmpcfg addr = false -> special_addr addr = false -> is_uint 64 v ->
  safe Fl (set_csr_default addr v) any.
Proof.
  intros Ho Haddr Hv. unfold set_csr_default.
  destruct (is_valid_csr64_addr addr) eqn:Hvalid; cbn [negb when].
  - destruct (default_reg64_cases addr Hvalid Ho) as (r & Hmap & Hr).
    assert (Hs : special_csr r = false).
    { destruct (special_csr r) eqn:Hs; [| done].
      by rewrite (register_mapping64_special addr r Hmap Hs) in Haddr. }
    eapply safe_bind; [apply safe_skip | intros _ _].
    eapply safe_bind.
    + apply (safe_read _ _ (fun o => exists t, o = inr t /\ csrs64_ok t)). intros s Hc.
      unfold default_write64. rewrite Hr. eexists. split; [done |].
      apply csrs_ok_set; [by apply csr64_plain | apply Hc].
    + intros o (t & -> & Ht). apply safe_update; [| done]. intros. by apply core_ok_set_csrs.
  - eapply safe_bind; [apply (safe_illegal _ (fun _ => False)) | done].
Qed.

(** The register is written and its mode repaired in a row: in between it can
    hold a mode that is not implemented. *)
Lemma write_satp_update v (s : machine W) :
  write_satp v s = update_csrs (satp_write v) s.
Proof.
  destruct s as [c e]. unfold write_satp, satp_write, csr_write, csr_field, set_csr_field, update_csrs,
    update, read, gets, modify, mbind, M_bind. cbn [core csr_regs set_csr_regs env].
  set (t := masked_write csrs.satp SATP_MASK v (csr_regs c)).
  change (get_bits t csrs.satp satp.mode) with (get_field satp.mode (csr_get t csrs.satp)).
  unfold satp_mode_ok. destruct (get_field satp.mode (csr_get t csrs.satp) =? SATP_MODE_BARE),
    (get_field satp.mode (csr_get t csrs.satp) =? SATP_MODE_SV39),
    (get_field satp.mode (csr_get t csrs.satp) =? SATP_MODE_SV48); by destruct c.
Qed.

Lemma safe_write_satp v : safe Fl (write_satp v) any.
Proof.
  intros s Hs. rewrite write_satp_update. revert s Hs. apply safe_update_csrs. apply satp_write_ok.
Qed.

Lemma safe_set_csr_value64 addr v :
  outside_pmpcfg addr = false -> is_uint 64 v -> safe Fl (set_csr_value addr v) any.
Proof.
  intros Ho Hv. unfold set_csr_value. safe_step.
  assert (Hmask : is_uint 64 (pc_alignment_mask a) /\ even (pc_alignment_mask a)).
  { destruct Ha as [_ Hm]. by rewrite misa64_mask. }
  destruct Hmask as [Hmask1 Hmask2].
  repeat match goal with |- safe _ (if ?b then _ else _) _ => destruct b eqn:? end;
    lazymatch goal with
    | |- safe _ skip _ => apply safe_skip
    | |- safe _ (csr_write _ _ _) _ => apply safe_csr_write64; done
    | |- safe _ (set_csr_default _ _) _ => idtac
    | |- safe _ (mbind _ _) _ => safe_step; safe_step; apply safe_write_satp
    | |- _ => safe_tac
    end.
  apply safe_set_csr_default64; [done | | done]. unfold special_addr.
  repeat match goal with E : (_ || _) = false |- _ => apply orb_false_elim in E as [??] end.
  repeat match goal with E : (addr =? _) = false |- context [addr =? _] => rewrite E; clear E end.
  done.
Qed.

(** ** Floating point *)

Lemma calm_set_dirty64 : calm fp_set_dirty any.
Proof.
  unfold fp_set_dirty. eapply calm_bind; [| intros _ _];
    apply calm_update, safe_set_csr_field; (done || by split).
Qed.

Lemma safe_fp_set_dirty64 : safe Fl fp_set_dirty any.
Proof. unfold fp_set_dirty. safe_tac. Qed.

(** ** Traps and interrupts *)

Lemma safe_write_cause64 cause tval e :
  plain_csr cause -> plain_csr tval -> trap64_ok e -> safe Fl (write_cause cause tval e) any.
Proof.
  intros ?? [_ Hv]. unfold write_cause.
  eapply safe_bind; [apply safe_set_plain_field; [done | by split | done] | intros _ _].
  eapply safe_bind; [apply safe_set_plain_field; [done | by split | done] | intros _ _].
  by apply safe_set_plain.
Qed.

Lemma safe_prepare_trap64 e : trap64_ok e -> safe Fl (prepare_trap e) trap_mode.
Proof.
  intros He. unfold prepare_trap. safe_step. safe_step; [by apply safe_write_pc |]. cbv zeta.
  assert (Hwrite : forall cause tval mode, plain_csr cause -> plain_csr tval -> trap_mode mode ->
    safe Fl (write_cause cause tval e ;; mret mode) trap_mode).
  { intros cause tval mode ???. eapply safe_bind; [by apply safe_write_cause64 |].
    intros. by apply safe_ret. }
  apply safe_read_at. intros prv s [Hs Hprv].
  unfold mbind at 1 2, M_bind at 1 2. unfold csr_reg, read, gets.
  set (medeleg := csr_get _ csrs.medeleg). set (sedeleg := csr_get _ csrs.sedeleg).
  assert (Hp : 0 <= prv <= 3) by (rewrite <- Hprv; apply Hs).
  destruct (Z.eqb_spec prv MachineMode) as [HM|HM]; cbn [orb].
  { apply Hwrite; [by split | by split | by left | done]. }
  destruct (nonzero (_ .& medeleg)) eqn:Hm; cbn [negb];
    [| apply Hwrite; [by split | by split | by left | done]].
  destruct (Z.eqb_spec prv SupervisorMode) as [HS|HS]; cbn [orb].
  { apply Hwrite; [by split | by split | by right; left | done]. }
  destruct (nonzero (_ .& sedeleg)) eqn:Hsd; cbn [negb];
    [| apply Hwrite; [by split | by split | by right; left | done]].
  destruct (Z.eqb_spec prv UserMode) as [HU|HU]; cbn [andb assert].
  - apply Hwrite; [by split | by split | by right; right | done].
  - right. left. split; [unfold MachineMode, SupervisorMode, UserMode, HypervisorMode in *; simpl; lia | by left].
Qed.

Lemma safe_write_interrupt_cause64 cause exc :
  plain_csr cause -> safe Fl (write_interrupt_cause cause exc) any.
Proof.
  intros. unfold write_interrupt_cause.
  eapply safe_bind; [| intros _ _]; apply safe_set_plain_field; (done || by split).
Qed.

Lemma safe_prepare_interrupt64 x : interrupt_ok x -> safe Fl (prepare_interrupt x) any.
Proof.
  intros [Hmode Hcode]. unfold prepare_interrupt.
  destruct (interrupt_code (pending x)); [| done].
  destruct Hmode as [-> | [-> | ->]]; apply safe_write_interrupt_cause64; by split.
Qed.

Lemma handler_address64_ok tvec cause :
  is_uint 64 (handler_address tvec cause) /\ even (handler_address tvec cause).
Proof.
  unfold handler_address, mtvec.get_base_address. split.
  - destruct (_ && _); apply uint_range; lia.
  - destruct (_ && _); [apply even_vector; [done |] |]; by apply even_base.
Qed.

Lemma safe_jump_to_handler64 tvec cause : safe Fl (jump_to_handler tvec cause) any.
Proof.
  unfold jump_to_handler. do 2 safe_step. apply safe_write_pc; apply handler_address64_ok.
Qed.

Lemma safe_switch_to_trap_handler64 mode :
  trap_mode mode -> safe Fl (switch_to_trap_handler mode) any.
Proof.
  intros Hmode. unfold switch_to_trap_handler. safe_step. safe_step.
  destruct Hmode as [-> | [-> | ->]]; cbn [Z.eqb Pos.eqb MachineMode SupervisorMode UserMode].
  - eapply safe_bind; [by apply safe_set_prv | intros _ _].
    repeat first [ safe_step | apply safe_save_pc; [tauto | done | done] | apply safe_jump_to_handler64 ].
  - apply (safe_set_prv_assert _ _ (fun p => (p =? 1) || (p =? 0))); [done | done |].
    repeat first [ safe_step | apply safe_save_pc; [tauto | done | done] | apply safe_jump_to_handler64 ].
  - apply (safe_set_prv_assert _ _ (fun p => p =? 0)); [done | done |].
    repeat first [ safe_step | apply safe_save_pc; [tauto | done | done] | apply safe_jump_to_handler64 ].
Qed.

Lemma safe_count_instruction : safe Fl count_instruction any.
Proof.
  unfold count_instruction. safe_step. apply safe_set_csr_plain; [done | apply uint_uint64].
Qed.

Hint Resolve safe_count_instruction : vp_safe.

Lemma safe_performance64 op : safe Fl (performance_and_sync_update op) any.
Proof.
  unfold performance_and_sync_update. safe_step. safe_step.
  eapply safe_bind; [apply (safe_read _ _ (fun c => 0 <= c <= 17)); intros s Hs; apply Hs |].
  intros counter Hcounter. cbv beta in Hcounter. safe_step.
  { safe_step. unfold nonzero in *. safe_step; [apply safe_set_counter; lia |].
    safe_step; [apply safe_assert; lia |]. safe_tac. }
  safe_step. safe_step.
  { safe_step. apply safe_update; [| done]. intros. apply core_ok_add_cycles; by destruct op. }
  safe_step; [apply safe_env, quantum_keeper_inc_ok |].
  safe_step; [apply safe_env, quantum_keeper_need_sync_ok |].
  safe_tac. apply safe_wait, quantum_keeper_sync_ok.
Qed.

End flags.
End operations.

(** The decision of compute_pending_interrupts is nothing, or an interrupt that
    prepare_interrupt accepts. *)
Lemma pending_interrupts64_ok s :
  core64_ok s ->
  target_mode (pending_interrupts s) = NoneMode \/ interrupt_ok (pending_interrupts s).
Proof.
  intros Hs. unfold pending_interrupts.
  pose proof (ok_csrs Hs csrs.mie) as [Hmie Hmask]. simpl in Hmask.
  set (p := csr_get _ csrs.mie .& csr_get _ csrs.mip).
  assert (Hp : forall x, nonzero (p .& x) = true -> interrupt_code (p .& x) <> None).
  { intros x. unfold p. rewrite <- Z.land_assoc. by apply interrupt_code_enabled. }
  destruct (p =? 0); [by left |].
  destruct (nonzero (p .& _)) eqn:E; simpl;
    [destruct (_ || _); simpl; [right; split; [by left | by apply Hp] |] |];
    rewrite <- !Z.land_assoc;
    (destruct (nonzero (p .& (csr_get _ csrs.mideleg .& uint64 _))) eqn:E2; simpl;
     [destruct (_ || _); simpl; [right; split; [by right; left | by apply Hp] |] |];
     (destruct (nonzero (p .& (csr_get _ csrs.mideleg .& csr_get _ csrs.sideleg))) eqn:E3; simpl;
      [destruct (_ && _); simpl; [right; split; [by right; right | by apply Hp] |] |]);
     by left).
Qed.

#[export] Hint Resolve safe_fp_set_dirty64 : vp_safe.
