(* ===== verification/RamPlatform64.v ===== *)
(** * A platform of flat memory for the 64-bit core

    The memory of RamPlatform.v with the operations on double words, on which
    the theorems about the 64-bit core are instantiated. *)

From S2P Require Import Prelude Instr Decode Compressed Trap Csr Csr64 Fp Iss Iss64 IssLogic IssInv IssInv64 RamPlatform.

#[export] Instance ram_platform64 : platform64 ram := {
  load_uword a := ram_read (fun m => uint32 (ram_load 4 m a));
  atomic_load_double a := ram_read (fun m => int64 (ram_load 8 m a));
  atomic_store_double a v := ram_write (ram_store 8 a v);
  atomic_load_reserved_double a := ram_read (fun m => int64 (ram_load 8 m a));
  atomic_store_conditional_double a v := ram_write (ram_store 8 a v) ;; mret true
}.

#[export] Program Instance ram_platform64_ok : platform64_ok ram := {
  platform64_environment := ram_environment_ok
}.
Solve All Obligations with
  first [ intros; apply ram_read_ok; intros; range_tac | intros; apply ram_write_ok ].

#[export] Instance zero_softfloat64 : softfloat64 := {
  f32_to_i64 _ _ := (0, 0); f32_to_ui64 _ _ := (0, 0);
  i64_to_f32 _ _ := (0, 0); ui64_to_f32 _ _ := (0, 0);
  f64_to_i64 _ _ := (0, 0); f64_to_ui64 _ _ := (0, 0);
  i64_to_f64 _ _ := (0, 0); ui64_to_f64 _ _ := (0, 0)
}.

#[export] Instance zero_softfloat64_ok : softfloat64_ok zero_softfloat64.
Proof. split; [apply _ | by repeat constructor..]. Qed.

(** A core after reset, with a program at address 0. *)
Definition ram_machine64 (code : list Z) : machine ram :=
  Machine (ISS_new 0) (load_program 0 code ∅).
