(* ===== verification/IssExecSafe64.v ===== *)
(** * Safety of the execution of an instruction of the 64-bit core

    Every step of a 64-bit core preserves its invariant.  No assertion of
    exec_step and run_step fails; the one access of the code outside of an
    object is the instruction that names [pmpcfg2] or [pmpcfg3]. *)

From S2P Require Import Prelude Instr Decode Compressed Trap Csr Csr64 Fp Iss IssExec Iss64 IssExec64 IssLogic IssInv64 CoreFp CoreStep IssValues IssExecSafe IssSafe64.

#[local] Set Default Proof Using "Type*".

Abbreviation step64_ok := (step_inv (xlen := 64) (misa_inv := misa64_ok)).

Lemma RegFile_shamt64_range r i : 0 <= RegFile_shamt64 r i < 64.
Proof.
  change (RegFile_shamt64 r i) with (regs_get r i .& Z.ones 6).
  rewrite Z.land_ones by lia. by apply Z.mod_pos_bound.
Qed.

Section exec.
Context {W : Type} `{Hplatform : platform64_ok W} `{Hsf : softfloat64_ok}.

Abbreviation R := (M (machine W) SimulationTrap).
Abbreviation any := (fun _ => True).
Abbreviation clear := (fun flags : Z => flags = 0).

(** ** Integer instructions *)

Lemma safe_exec_alu64 i op : is_sint 32 i -> safe clear (exec_alu i op) any.
Proof.
  intros Hi. unfold exec_alu. do 2 safe_step.
  eapply safe_bind with (Q := fun n => 0 <= n < 64);
    [apply safe_read; intros; apply RegFile_shamt64_range |].
  intros n Hn. cbv beta in Hn. pose proof (shamt_range i).
  destruct op; try_skip; apply safe_set_reg;
    first [ solve [auto with vp_sint64] | apply is_sint_shiftr; [lia | lia | done] ].
Qed.

Lemma safe_exec_alu_w i op : safe clear (exec_alu_w i op) any.
Proof.
  unfold exec_alu_w. do 3 safe_step.
  destruct op; try_skip; apply safe_set_reg; auto with vp_sint64.
Qed.

Lemma safe_exec_jump64 i op : is_sint 32 i -> safe clear (exec_jump i op) any.
Proof.
  intros Hi. unfold exec_jump. safe_step.
  destruct op; try_skip.
  - apply safe_set_reg. auto with vp_sint64.
  - apply safe_set_reg. auto with vp_sint64.
  - safe_step. safe_step; [apply safe_write_pc; [apply uint_uint64 |] |].
    { apply even_add_at; [done | done | by apply J_imm_even]. }
    safe_step. apply safe_set_reg. auto with vp_sint64.
  - do 2 safe_step.
    safe_step; [apply safe_write_pc; [apply uint_uint64 | by apply even_clear_bit0_at] |].
    safe_step. apply safe_set_reg. auto with vp_sint64.
Qed.

Lemma safe_exec_mem64 i op : safe clear (exec_mem i op) any.
Proof.
  unfold exec_mem. do 2 safe_step. cbv zeta.
  assert (H8 : is_uint 8 (uint8 a0)) by (apply uint_range; lia).
  assert (H16 : is_uint 16 (uint16 a0)) by (apply uint_range; lia).
  pose proof (uint_uint64 (a + S_imm i)). pose proof (uint_uint64 (a + I_imm i)).
  pose proof (uint_uint32 a0). pose proof (uint_uint64 a0).
  assert (Hset : forall v, safe clear (set_reg (rd i) (int64 v)) any)
    by (intros; apply safe_set_reg, sint_int64).
  destruct op; try_skip;
    lazymatch goal with
    | |- safe _ (load_byte _ ≫= _) _ => eapply safe_bind; [by apply safe_access, load_byte_ok | auto]
    | |- safe _ (load_ubyte _ ≫= _) _ => eapply safe_bind; [by apply safe_access, load_ubyte_ok | auto]
    | |- safe _ (store_byte _ _) _ => by apply safe_access, store_byte_ok
    | |- safe _ (trap_check_addr_alignment _ true _ ≫= _) _ =>
        eapply safe_load; [done | | auto];
        first [ by apply load_half_ok | by apply load_word_ok | by apply load_double_ok
              | by apply load_uhalf_ok | by apply load_uword_ok ]
    | |- _ =>
        safe_step; apply safe_access;
        first [ by apply store_half_ok | by apply store_word_ok | by apply store_double_ok ]
    end.
Qed.

Lemma safe_exec_branch64 i op : is_sint 32 i -> safe clear (exec_branch i op) any.
Proof.
  intros Hi. unfold exec_branch. do 3 safe_step. safe_step.
  safe_step; [apply safe_write_pc; [apply uint_uint64 |] |].
  { apply even_add_at; [done | done | by apply B_imm_even]. }
  safe_tac.
Qed.

Lemma safe_exec_muldiv64 i op : safe clear (exec_muldiv i op) any.
Proof.
  unfold exec_muldiv. do 2 safe_step.
  destruct op; try_skip; try (apply safe_set_reg; apply sint_int64);
    repeat (safe_step; [apply safe_set_reg; done |]);
    apply safe_set_reg; try apply sint_int64;
    first [ apply quot_range_at; (done || lia) | apply rem_range_at; (done || lia) ].
Qed.

Lemma safe_exec_muldiv_w i op : safe clear (exec_muldiv_w i op) any.
Proof.
  unfold exec_muldiv_w. do 2 safe_step. cbv zeta.
  pose proof (sint_int32 a). pose proof (sint_int32 a0).
  destruct op; try_skip;
    repeat (safe_step; [apply safe_set_reg; (done || by apply sint64_of_32) |]);
    apply safe_set_reg, sint64_of_32; try apply sint_int32;
    first [ apply quot_range_at; (done || lia) | apply rem_range_at; (done || lia) ].
Qed.

(** ** Atomic operations *)

Lemma safe_exec_amo_w i op : safe clear (exec_amo_w i op) any.
Proof.
  unfold exec_amo_w.
  destruct op; lazymatch goal with |- safe _ (execute_amo_w _ _) _ => apply safe_execute_amo_w | _ => idtac end.
  - safe_step. cbv zeta. pose proof (uint_uint64 a). safe_step.
    eapply safe_bind; [by apply safe_access, atomic_load_reserved_word_ok |]. intros v Hv.
    safe_step; [apply safe_set_reg, sint_int64 |]. safe_step. safe_step. by apply safe_set_counter.
  - safe_step. cbv zeta. pose proof (uint_uint64 a). do 2 safe_step.
    safe_step; [by apply safe_set_reg |].
    eapply safe_bind; [apply safe_access, atomic_store_conditional_word_ok; [done | apply uint_uint32] |].
    intros ok _. safe_step; [apply safe_set_reg; by destruct ok |]. by apply safe_set_counter.
Qed.

Lemma safe_exec_amo_d i op : safe clear (exec_amo_d i op) any.
Proof.
  unfold exec_amo_d.
  destruct op; lazymatch goal with |- safe _ (execute_amo_d _ _) _ => apply safe_execute_amo_d | _ => idtac end.
  - safe_step. cbv zeta. pose proof (uint_uint64 a). safe_step.
    eapply safe_bind; [by apply safe_access, atomic_load_reserved_double_ok |]. intros v Hv.
    safe_step; [apply safe_set_reg, sint_int64 |]. safe_step. safe_step. by apply safe_set_counter.
  - safe_step. cbv zeta. pose proof (uint_uint64 a). do 2 safe_step.
    safe_step; [by apply safe_set_reg |].
    eapply safe_bind; [apply safe_access, atomic_store_conditional_double_ok; [done | apply uint_uint64] |].
    intros ok _. safe_step; [apply safe_set_reg; by destruct ok |]. by apply safe_set_counter.
Qed.

(** ** Zicsr *)

Lemma safe_exec_csrrw64 i value :
  outside_pmpcfg (csr i) = false -> safe clear value (is_sint 64) ->
  safe clear (exec_csrrw i value) any.
Proof.
  intros Ho Hv. unfold exec_csrrw. safe_step; [apply safe_is_invalid_csr_access64 |].
  safe_step; [safe_tac |]. safe_step. safe_step.
  - safe_step. safe_step; [by apply safe_get_csr_value64 |]. apply safe_set_reg, sint_int64.
  - apply safe_set_csr_value64; [done | apply uint_uint64].
Qed.

Lemma safe_exec_csr_update64 i w value f :
  outside_pmpcfg (csr i) = false -> safe clear value (is_sint 64) ->
  (forall x v, is_uint 64 x -> is_uint 64 (f x v)) ->
  safe clear (exec_csr_update i w value f) any.
Proof.
  intros Ho Hv Hf. unfold exec_csr_update. safe_step; [apply safe_is_invalid_csr_access64 |].
  safe_step; [safe_tac |]. safe_step. safe_step; [by apply safe_get_csr_value64 |]. safe_step.
  - safe_step. apply safe_set_reg, sint_int64.
  - safe_step. apply safe_set_csr_value64; [done | by apply Hf].
Qed.

Lemma safe_exec_csr64 i op :
  outside_pmpcfg (csr i) = false -> safe clear (exec_csr i op) any.
Proof.
  intros Ho.
  assert (Hset : forall x v, is_uint 64 x -> is_uint 64 (csr_set_bits x v))
    by (intros; apply is_uint_lor; [lia | done | apply uint_uint64]).
  assert (Hclr : forall x v, is_uint 64 x -> is_uint 64 (csr_clear_bits x v))
    by (intros; by apply is_uint_land_l).
  assert (Hclz : forall x v, is_uint 64 x -> is_uint 64 (csr_clear_zimm x v))
    by (intros; by apply is_uint_land_l).
  assert (Hz : safe clear (mret (zimm i)) (is_sint 64)) by apply safe_ret, sint64_of_32, zimm_range.
  pose proof (safe_reg clear (rs1 i)) as Hr.
  unfold exec_csr. destruct op; try_skip;
    lazymatch goal with
    | |- safe _ (exec_csrrw _ _) _ => by apply safe_exec_csrrw64
    | |- safe _ (exec_csr_update _ _ _ _) _ => by apply safe_exec_csr_update64
    end.
Qed.

Definition csr_op (op : Mapping) : Prop :=
  op = CSRRW \/ op = CSRRS \/ op = CSRRC \/ op = CSRRWI \/ op = CSRRSI \/ op = CSRRCI.

Lemma outside_cases addr :
  outside_pmpcfg addr = true -> addr = PMPCFG2_ADDR \/ addr = PMPCFG3_ADDR.
Proof using. unfold outside_pmpcfg. lia. Qed.

Lemma get_csr_outside addr (s : machine W) :
  outside_pmpcfg addr = true -> get_csr_value addr s = (Fatal UndefinedBehaviour, s).
Proof using. intros [-> | ->]%outside_cases; by lazy. Qed.

Lemma set_csr_outside addr v (s : machine W) :
  outside_pmpcfg addr = true -> set_csr_value addr v s = (Fatal UndefinedBehaviour, s).
Proof using. intros [-> | ->]%outside_cases; by lazy. Qed.

(** An access to one of the two addresses is refused below machine mode; in
    machine mode it reaches behind the array. *)
Lemma exec_csr_outside i op (s : machine W) :
  csr_op op -> outside_pmpcfg (csr i) = true ->
  exec_csr i op s = if prv (core s) <? MachineMode then RAISE_ILLEGAL_INSTRUCTION s
                    else (Fatal UndefinedBehaviour, s).
Proof using.
  intros Hop Ho.
  pose proof (get_csr_outside (csr i) s Ho) as Hg.
  assert (Hset : forall v, set_csr_value (csr i) v s = (Fatal UndefinedBehaviour, s))
    by (intros; by apply set_csr_outside).
  apply outside_cases in Ho.
  assert (Hv : forall w, is_invalid_csr_access (csr i) w s = (Ret (prv (core s) <? MachineMode), s)).
  { intros w. destruct Ho as [-> | ->]; by destruct w. }
  destruct Hop as [-> | [-> | [-> | [-> | [-> | ->]]]]]; cbn [exec_csr];
    unfold exec_csrrw, exec_csr_update; unfold mbind at 1, M_bind at 1; rewrite Hv;
    destruct (prv (core s) <? MachineMode); try reflexivity;
    unfold reg, read, gets, mret, M_ret; unfold mbind, M_bind; rewrite ?Hg;
    destruct (negb (rd i =? x_zero)); cbn [when]; unfold skip, mret, M_ret, mbind, M_bind;
    rewrite ?Hg, ?Hset; reflexivity.
Qed.

(** ** RV64F and RV64D *)

Lemma safe_exec_flw_fsw64 i op : safe clear (exec_flw_fsw i op) any.
Proof.
  unfold exec_flw_fsw. safe_step.
  pose proof (uint_uint64 (a + S_imm i)). pose proof (uint_uint64 (a + I_imm i)).
  destruct op; try_skip; cbv zeta; safe_step.
  - eapply safe_bind; [by apply safe_access, load_uword_ok |]. intros.
    apply safe_fp_set_f32, uint_uint32.
  - safe_step. by apply safe_access, store_word_ok.
Qed.

Lemma safe_exec_fld_fsd64 i op : safe clear (exec_fld_fsd i op) any.
Proof.
  unfold exec_fld_fsd. safe_step.
  pose proof (uint_uint64 (a + S_imm i)). pose proof (uint_uint64 (a + I_imm i)).
  destruct op; try_skip; cbv zeta; safe_step.
  - eapply safe_bind; [by apply safe_access, load_double_ok |]. intros.
    apply safe_fp_set_f64, uint_uint64.
  - safe_step. by apply safe_access, store_double_ok.
Qed.

Lemma safe_rounding64 (f : Z -> Z * Z) (Q : Z -> Prop) (write : Z -> R unit) :
  (forall rm, result_in Q (f rm)) -> (forall v, Q v -> calm (write v) any) ->
  safe clear (fp_rounding f write) any.
Proof. intros Hf Hw. exact (safe_rounding _ calm_set_dirty64 f Q write Hf Hw). Qed.

Lemma rounding64_f32 f i :
  (forall rm, f32_result (f rm)) -> safe clear (fp_rounding f (fp_set_f32 i)) any.
Proof. intros Hf. eapply safe_rounding64; [apply Hf | intros; by apply calm_fp_set_f32]. Qed.
Lemma rounding64_f64 f i :
  (forall rm, f64_result (f rm)) -> safe clear (fp_rounding f (fp_set_f64 i)) any.
Proof. intros Hf. eapply safe_rounding64; [apply Hf | intros; by apply calm_fp_set_f64]. Qed.
Lemma rounding64_int f i g :
  (forall rm, flags_result (f rm)) -> (forall v, is_sint 64 (g v)) ->
  safe clear (fp_rounding f (fun v => set_reg i (g v))) any.
Proof.
  intros Hf Hg. eapply (safe_rounding64 _ any); [split; [done | apply Hf] |].
  intros. by apply calm_set_reg.
Qed.

Ltac rounding_tac64 :=
  lazymatch goal with
  | |- safe _ (fp_rounding _ (fp_set_f32 _)) _ => apply rounding64_f32; intros; apply Hsf
  | |- safe _ (fp_rounding _ (fp_set_f64 _)) _ => apply rounding64_f64; intros; apply Hsf
  | |- safe _ (fp_rounding _ (fun _ => set_reg _ (int64 _))) _ =>
      apply rounding64_int; intros; [apply Hsf | apply sint_int64]
  | |- safe _ (fp_rounding _ (fun _ => set_reg _ _)) _ =>
      apply rounding64_int; intros; [apply Hsf | apply sint64_int32]
  | |- _ => idtac
  end.

Lemma safe_exec_f_arith64 i op : safe clear (exec_f_arith i op) any.
Proof. unfold exec_f_arith. do 3 safe_step. cbv zeta. destruct op; try_skip; rounding_tac64. Qed.
Lemma safe_exec_d_arith64 i op : safe clear (exec_d_arith i op) any.
Proof. unfold exec_d_arith. do 3 safe_step. cbv zeta. destruct op; try_skip; rounding_tac64. Qed.
Lemma safe_exec_f_convert64 i op : safe clear (exec_f_convert i op) any.
Proof. unfold exec_f_convert. do 2 safe_step. cbv zeta. destruct op; try_skip; rounding_tac64. Qed.
Lemma safe_exec_d_convert64 i op : safe clear (exec_d_convert i op) any.
Proof. unfold exec_d_convert. do 3 safe_step. cbv zeta. destruct op; try_skip; rounding_tac64. Qed.

Lemma safe_exec_f_minmax64 i op : safe clear (exec_f_minmax i op) any.
Proof.
  unfold exec_f_minmax. eapply safe_bind; [apply safe_fp_prepare | intros _ _]. do 2 safe_step.
  apply (safe_finish _ calm_set_dirty64 _ any (fun b : bool =>
    if f32_isNaN a && f32_isNaN a0 then fp_set_f32 (rd i) f32_defaultNaN
    else if b then fp_set_f32 (rd i) a else fp_set_f32 (rd i) a0)).
  - assert (Hmin : calm (fp_smaller (f32_lt_quiet a a0) (f32_eq a a0) (f32_isNegative a)) any)
      by (apply calm_fp_smaller; apply Hsf).
    assert (Hmax : calm (fp_smaller (f32_lt_quiet a0 a) (f32_eq a0 a) (f32_isNegative a0)) any)
      by (apply calm_fp_smaller; apply Hsf).
    by destruct op.
  - intros b _. by destruct (_ && _), b; apply calm_fp_set_f32.
Qed.

Lemma safe_exec_d_minmax64 i op : safe clear (exec_d_minmax i op) any.
Proof.
  unfold exec_d_minmax. eapply safe_bind; [apply safe_fp_prepare | intros _ _]. do 2 safe_step.
  apply (safe_finish _ calm_set_dirty64 _ any (fun b : bool =>
    if f64_isNaN a && f64_isNaN a0 then fp_set_f64 (rd i) f64_defaultNaN
    else if b then fp_set_f64 (rd i) a else fp_set_f64 (rd i) a0)).
  - assert (Hmin : calm (fp_smaller (f64_lt_quiet a a0) (f64_eq a a0) (f64_isNegative a)) any)
      by (apply calm_fp_smaller; apply Hsf).
    assert (Hmax : calm (fp_smaller (f64_lt_quiet a0 a) (f64_eq a0 a) (f64_isNegative a0)) any)
      by (apply calm_fp_smaller; apply Hsf).
    by destruct op.
  - intros b _. by destruct (_ && _), b; apply calm_fp_set_f64.
Qed.

Lemma safe_exec_f_move64 i op : safe clear (exec_f_move i op) any.
Proof.
  unfold exec_f_move. eapply safe_bind; [apply safe_fp_prepare | intros _ _]. do 2 safe_step.
  destruct op; try_skip; safe_step.
  - apply safe_fp_set_f32. by apply f32_sgnj_range.
  - safe_tac.
  - apply safe_fp_set_f32. by apply f32_sgnj_range.
  - safe_tac.
  - by apply safe_fp_set_f32, f32_sgnjx_range.
  - safe_tac.
  - apply safe_set_reg, sint64_int32.
  - safe_step; [apply safe_fp_set_f32, uint_uint32 | safe_tac].
Qed.

Lemma safe_exec_d_move64 i op : safe clear (exec_d_move i op) any.
Proof.
  unfold exec_d_move. eapply safe_bind; [apply safe_fp_prepare | intros _ _]. do 2 safe_step.
  destruct op; try_skip; try (apply safe_set_reg, sint_int64); safe_step.
  - apply safe_fp_set_f64. by apply f64_sgnj_range.
  - safe_tac.
  - apply safe_fp_set_f64. by apply f64_sgnj_range.
  - safe_tac.
  - by apply safe_fp_set_f64, f64_sgnjx_range.
  - safe_tac.
  - safe_step; [apply safe_fp_set_f64, uint_uint64 | safe_tac].
Qed.

Lemma safe_fp_compare64 i (r : bool * Z) : flags_result r -> safe clear (fp_compare i r) any.
Proof.
  intros Hr. apply (safe_compare _ calm_set_dirty64 r (fun v => set_reg (rd i) (b2z v))); [done |].
  intros. apply calm_set_reg, sint64_b2z.
Qed.

Lemma safe_exec_f_compare64 i op : safe clear (exec_f_compare i op) any.
Proof.
  unfold exec_f_compare. eapply safe_bind; [apply safe_fp_prepare | intros _ _]. do 2 safe_step.
  destruct op; try_skip;
    lazymatch goal with
    | |- safe _ (set_reg _ _) _ => apply safe_set_reg, sint64_int32
    | |- safe _ (fp_compare _ _) _ => apply safe_fp_compare64; apply Hsf
    end.
Qed.

Lemma safe_exec_d_compare64 i op : safe clear (exec_d_compare i op) any.
Proof.
  unfold exec_d_compare. eapply safe_bind; [apply safe_fp_prepare | intros _ _]. do 2 safe_step.
  destruct op; try_skip;
    lazymatch goal with
    | |- safe _ (set_reg _ _) _ => apply safe_set_reg, sint_int64
    | |- safe _ (fp_compare _ _) _ => apply safe_fp_compare64; apply Hsf
    end.
Qed.

(** ** Fetch, decode, and the switch *)

Lemma safe_fetch64 : safe clear fetch any.
Proof.
  unfold fetch. do 2 safe_step. rewrite misa64_mask by apply Ha.
  safe_step; [by apply safe_assert, even_assert64 |].
  eapply triple_try_catch.
  - eapply safe_bind; [by apply safe_access, load_instr_ok |]. intros w _.
    apply safe_set_instr, sint_int32.
  - intros e s [He Hs]. eapply safe_bind; [apply safe_set_op | | done]. intros _ _.
    eapply safe_bind; [by apply safe_set_instr |]. intros _ _ s' Hs'. by split.
Qed.

Lemma safe_decode64 : safe clear decode any.
Proof.
  unfold decode. do 2 safe_step. safe_step.
  - destruct (decode_total a RV64) as [[i' op] E]; [done |]. rewrite E.
    apply expanded_range in E; [| done]. do 2 safe_step.
    apply safe_write_pc; [apply uint_uint64 | by apply even_add_at].
  - safe_step. apply safe_write_pc; [apply uint_uint64 | by apply even_add_at].
Qed.

(** An instruction that is not an access outside of the table. *)
Lemma safe_exec_op64 i op :
  is_sint 32 i -> ~ (csr_op op /\ outside_pmpcfg (csr i) = true) -> safe clear (exec_op i op) any.
Proof.
  intros Hi Ho.
  assert (Hcsr : csr_op op -> outside_pmpcfg (csr i) = false).
  { intros. destruct (outside_pmpcfg _) eqn:E; [by destruct Ho | done]. }
  unfold csr_op in Hcsr. clear Ho. destruct op; cbn [exec_op];
    lazymatch goal with
    | |- safe _ skip _ => apply safe_skip
    | |- safe _ RAISE_ILLEGAL_INSTRUCTION _ => apply safe_illegal
    | |- safe _ (exec_alu _ _) _ => by apply safe_exec_alu64
    | |- safe _ (exec_alu_w _ _) _ => apply safe_exec_alu_w
    | |- safe _ (exec_jump _ _) _ => by apply safe_exec_jump64
    | |- safe _ (exec_mem _ _) _ => apply safe_exec_mem64
    | |- safe _ (exec_branch _ _) _ => by apply safe_exec_branch64
    | |- safe _ exec_ecall _ => apply safe_exec_ecall
    | |- safe _ (exec_csr _ _) _ => apply safe_exec_csr64, Hcsr; tauto
    | |- safe _ (exec_muldiv _ _) _ => apply safe_exec_muldiv64
    | |- safe _ (exec_muldiv_w _ _) _ => apply safe_exec_muldiv_w
    | |- safe _ (exec_amo_w _ _) _ => apply safe_exec_amo_w
    | |- safe _ (exec_amo_d _ _) _ => apply safe_exec_amo_d
    | |- safe _ (exec_flw_fsw _ _) _ => apply safe_exec_flw_fsw64
    | |- safe _ (exec_f_arith _ _) _ => apply safe_exec_f_arith64
    | |- safe _ (exec_f_minmax _ _) _ => apply safe_exec_f_minmax64
    | |- safe _ (exec_f_convert _ _) _ => apply safe_exec_f_convert64
    | |- safe _ (exec_f_move _ _) _ => apply safe_exec_f_move64
    | |- safe _ (exec_f_compare _ _) _ => apply safe_exec_f_compare64
    | |- safe _ (exec_fld_fsd _ _) _ => apply safe_exec_fld_fsd64
    | |- safe _ (exec_d_arith _ _) _ => apply safe_exec_d_arith64
    | |- safe _ (exec_d_minmax _ _) _ => apply safe_exec_d_minmax64
    | |- safe _ (exec_d_move _ _) _ => apply safe_exec_d_move64
    | |- safe _ (exec_d_convert _ _) _ => apply safe_exec_d_convert64
    | |- safe _ (exec_d_compare _ _) _ => apply safe_exec_d_compare64
    | |- safe _ exec_wfi _ => apply safe_exec_wfi
    | |- safe _ exec_sfence_vma _ => apply safe_exec_sfence_vma
    | |- safe _ (exec_xret _) _ => apply safe_exec_xret
    | |- safe _ (update (set_status _)) _ => apply safe_set_status
    end.
Qed.

Lemma csr_op_dec op : csr_op op \/ ~ csr_op op.
Proof using. unfold csr_op. destruct op; (left; tauto) || (right; intuition discriminate). Qed.

Lemma exec_op_csr i op : csr_op op -> exec_op i op = exec_csr i op.
Proof using. by intros [-> | [-> | [-> | [-> | [-> | ->]]]]]. Qed.

Lemma exec_op64_triple i op :
  is_sint 32 i ->
  triple (fun s => Inv clear s /\ instr (core s) = i) (exec_op i op)
    (fun _ s => True /\ Inv clear s) (fun e s => trap64_ok e /\ Inv clear s) fails.
Proof.
  intros Hi.
  assert (Hsafe : ~ (csr_op op /\ outside_pmpcfg (csr i) = true) -> _)
    by (intros Ho; exact (safe_strengthen clear (fun s => instr (core s) = i) _ any
                            (safe_exec_op64 i op Hi Ho))).
  destruct (csr_op_dec op) as [Hop|Hop]; [| apply Hsafe; tauto].
  destruct (outside_pmpcfg (csr i)) eqn:Ho; [| apply Hsafe; by intros [_ ?]].
  intros s [Hs Hinstr]. rewrite (exec_op_csr _ _ Hop), (exec_csr_outside i op s Hop Ho).
  destruct (prv (core s) <? MachineMode).
  - exact (safe_illegal clear (fun _ : unit => True) s Hs).
  - right. right. by rewrite <- Hinstr in Ho.
Qed.

Lemma safe_exec_step64 : safe clear exec_step any.
Proof.
  unfold exec_step. safe_step; [apply safe_fetch64 |]. safe_step; [apply safe_decode64 |].
  apply safe_read_at. intros i s [Hs Hi].
  refine (exec_op64_triple i (op (core s)) _ s (conj Hs Hi)). rewrite <- Hi. apply Hs.
Qed.

(** ** Interrupts and traps *)

Lemma safe_take_interrupt64 : safe clear take_interrupt any.
Proof.
  unfold take_interrupt.
  eapply safe_bind with (Q := fun x => target_mode x = NoneMode \/ interrupt_ok x);
    [apply safe_read; apply pending_interrupts64_ok |].
  intros x Hx. cbv beta in Hx. safe_step. destruct Hx as [Hx|Hx].
  { rewrite Hx in *. done. }
  safe_step; [by apply safe_prepare_interrupt64 |]. apply safe_switch_to_trap_handler64, Hx.
Qed.

Lemma safe_take_trap64 e : trap64_ok e -> safe clear (take_trap e) any.
Proof.
  intros. unfold take_trap. eapply safe_bind; [by apply safe_prepare_trap64 |].
  intros. by apply safe_switch_to_trap_handler64.
Qed.

Lemma nothrow_switch64 mode : nothrow (switch_to_trap_handler mode).
Proof.
  unfold switch_to_trap_handler, release_lr_sc_reservation, jump_to_handler. nothrow_unfold.
  nothrow_tac.
Qed.

Lemma nothrow_take_trap64 e : nothrow (take_trap e).
Proof.
  pose proof nothrow_switch64. unfold take_trap, prepare_trap, write_cause. nothrow_unfold.
  nothrow_tac.
Qed.

Lemma nothrow_performance64 op : nothrow (performance_and_sync_update op).
Proof.
  unfold performance_and_sync_update, count_instruction, release_lr_sc_reservation.
  nothrow_unfold. nothrow_tac.
Qed.

Lemma nothrow_run_step64 : nothrow run_step.
Proof.
  pose proof nothrow_performance64. pose proof nothrow_take_trap64.
  unfold run_step. nothrow_unfold. nothrow_tac. by apply nothrow_try_catch.
Qed.

(** ** The step *)

Lemma keeps_regs_performance64 op : keeps_regs (performance_and_sync_update op).
Proof.
  unfold performance_and_sync_update, count_instruction, release_lr_sc_reservation. cbv zeta.
  keeps_regs_tac.
Qed.

Lemma run_step64_triple :
  triple step64_ok run_step (fun _ s => step64_ok s) (fun e s => trap64_ok e /\ Inv clear s) fails.
Proof.
  apply (step_frame_triple (exec_step ;; take_interrupt) take_trap performance_and_sync_update).
  - eapply safe_bind; [apply safe_exec_step64 |]. intros _ _. apply safe_take_interrupt64.
  - apply safe_take_trap64.
  - apply safe_performance64.
  - apply keeps_regs_performance64.
Qed.

End exec.
