(* ===== verification/IssAlu64.v ===== *)
(** * Integer computations of the 64-bit core against the ISA manual

    The cases of the switch of core/rv64/iss.cpp for RV64IM: the instructions on
    double words compute what AluSpec.v says of 64-bit words, those on words
    (ADDW, SLLIW, MULW, ..) what it says of the lower 32 bits, extended by
    their sign. *)

From S2P Require Import Prelude Instr Decode Trap Csr Csr64 Fp Iss IssExec Iss64 IssExec64 IssLogic IssInv64 IssValues AluSpec IssAlu RamPlatform RamPlatform64.

(** ** The reference *)

(** The instruction of RV32 that a word instruction performs. *)
Definition word_instruction (op : Mapping) : option Mapping :=
  match op with
  | ADDIW => Some ADDI | SLLIW => Some SLLI | SRLIW => Some SRLI | SRAIW => Some SRAI
  | ADDW => Some ADD | SUBW => Some SUB | SLLW => Some SLL | SRLW => Some SRL | SRAW => Some SRA
  | MULW => Some MUL | DIVW => Some DIV | DIVUW => Some DIVU | REMW => Some REM
  | REMUW => Some REMU
  | _ => None
  end.

Definition operand64 (op : Mapping) (i : Instruction) (r : list Z) : Z :=
  match op with
  | ADDI | SLTI | SLTIU | XORI | ORI | ANDI => uint64 (I_imm i)
  | SLLI | SRLI | SRAI => bits i 25 20 0
  | _ => uint64 (regs_get r (rs2 i))
  end.

Definition operand_w (op : Mapping) (i : Instruction) (r : list Z) : Z :=
  match op with
  | ADDIW => uint32 (I_imm i)
  | SLLIW | SRLIW | SRAIW => bits i 24 20 0
  | _ => uint32 (regs_get r (rs2 i))
  end.

(** The integer that [op] writes to its destination. *)
Definition alu64_result (op : Mapping) (i : Instruction) (r : list Z) : option Z :=
  match word_instruction op with
  | Some op32 =>
      option_map int32 (alu_spec 32 op32 (uint32 (regs_get r (rs1 i))) (operand_w op i r))
  | None => option_map int64 (alu_spec 64 op (uint64 (regs_get r (rs1 i))) (operand64 op i r))
  end.

(** ** Shift amounts and products *)

Lemma shamt_w_bits i : shamt_w i = bits i 24 20 0.
Proof. field_tac shamt_w (ubits 5%nat). Qed.

Lemma bits_24_range i : 0 <= bits i 24 20 0 < 32.
Proof. unfold bits. rewrite Z.shiftl_0_r. apply (uint_range 5). lia. Qed.

Lemma RegFile_shamt64_spec r n : RegFile_shamt64 r n = uint64 (regs_get r n) mod 64.
Proof.
  change (RegFile_shamt64 r n) with (regs_get r n .& Z.ones 6).
  rewrite Z.land_ones by lia. unfold uint64, uint. symmetry. apply Z.mod_mod_divide. by exists (2 ^ 58).
Qed.

Lemma sint_of_sint w w' z : 0 < w <= w' -> sint w (sint w' z) = sint w z.
Proof.
  intros. apply (sint_bits_inj w); [lia | apply sint_range; lia.. |].
  intros k ?. by rewrite !sint_testbit by lia.
Qed.

Lemma mulhu_value x y :
  is_uint 64 x -> is_uint 64 y -> sint 64 (sint 128 (x * y) .>> 64) = sint 64 (x * y / 2 ^ 64).
Proof. intros. rewrite (word_high 64) by lia. apply sint_modulus. lia. Qed.

Lemma mulhsu_value64 a y :
  sint 64 (sint 128 (uint 128 a * y) .>> 64) = sint 64 ((a * y / 2 ^ 64) mod 2 ^ 64).
Proof.
  rewrite <- (word_high 64) by lia. do 2 f_equal. change (2 * 64) with 128.
  apply sint_eq_mod; [lia |]. change (uint 128 a) with (a mod 2 ^ 128). apply Z.mul_mod_idemp_l. lia.
Qed.

(** ** The word instructions *)

Lemma sllw_value x n :
  0 <= n -> sint 32 (uint 32 (uint 32 x .<< n)) = sint 32 ((uint 32 x * 2 ^ n) mod 2 ^ 32).
Proof. intros. by rewrite sint_uint, Z.shiftl_mul_pow2, sint_modulus by lia. Qed.

Lemma sraw_value x n :
  0 <= n -> sint 32 (sint 32 x .>> n) = sint 32 ((sint 32 (uint 32 x) / 2 ^ n) mod 2 ^ 32).
Proof. intros. by rewrite sint_uint, Z.shiftr_div_pow2, sint_modulus by lia. Qed.

Lemma addw_value x y :
  sint 32 (sint 32 x + sint 32 y) = sint 32 ((uint 32 x + uint 32 y) mod 2 ^ 32).
Proof. rewrite (word_add 32) by lia. by rewrite !uint_sint by lia. Qed.

Lemma subw_value x y :
  sint 32 (sint 32 x - sint 32 y) = sint 32 ((uint 32 x - uint 32 y) mod 2 ^ 32).
Proof. rewrite (word_sub 32) by lia. by rewrite !uint_sint by lia. Qed.

Lemma mulw_value x y :
  sint 32 (sint 64 (x * y)) = sint 32 ((uint 32 x * uint 32 y) mod 2 ^ 32).
Proof. rewrite sint_of_sint by lia. apply word_mul. lia. Qed.

Create HintDb vp_alu64.
#[export] Hint Resolve addw_value subw_value mulw_value sllw_value sraw_value word_srl mulhu_value
  mulhsu_value64 : vp_alu64.

(** ** The cases of the switch *)

Section alu64.
Context {W : Type} `{platform64 W} `{softfloat64}.

Lemma set_reg_if64 i (c : bool) a b (s : machine W) :
  (if c then set_reg (rd i) a else set_reg (rd i) b) s
  = (Ret tt, write_result i (if c then a else b) s).
Proof. by destruct c. Qed.

(** The divisions test their divisor first. *)
Lemma division64 w i (s : machine W) b (on_zero zero result : Z)
    (other : M (machine W) SimulationTrap unit) :
  1 < w -> is_sint w b -> on_zero = sint w zero ->
  (b <> 0 -> other s = (Ret tt, write_result i (sint w result) s)) ->
  (if b =? 0 then set_reg (rd i) on_zero else other) s
  = (Ret tt, write_result i (sint w (if uint w b =? 0 then zero else result)) s).
Proof.
  intros Hw Hb -> Hother. rewrite (uint_eqb_0 w) by done.
  destruct (Z.eqb_spec b 0); [done | by apply Hother].
Qed.

Lemma exec_muldiv_w_spec (s : machine W) i op v :
  In op [MULW; DIVW; DIVUW; REMW; REMUW] -> alu64_result op i (regs (core s)) = Some v ->
  exec_muldiv_w i op s = (Ret tt, write_result i v s).
Proof.
  intros Hop Hv. unfold exec_muldiv_w, mbind, M_bind, reg, read, gets.
  set (x := regs_get _ (rs1 i)) in *. set (y := regs_get _ (rs2 i)) in *.
  assert (Ha : is_sint 32 (sint 32 x)) by (apply sint_range; lia).
  assert (Hb : is_sint 32 (sint 32 y)) by (apply sint_range; lia).
  revert Hv. unfold alu64_result.
  destruct Hop as [<-|[<-|[<-|[<-|[<-|[]]]]]];
    cbn [word_instruction alu_spec option_map operand_w]; fold x y; intros [= <-]; cbv zeta;
    unfold int32, int64, uint32; [apply write_result_eq, mulw_value | | | |];
    rewrite ?sint_uint by lia; rewrite <- ?(uint_sint 32 x), <- ?(uint_sint 32 y) by lia;
    (apply division64; [lia | done | (done || by rewrite (sint_uint_id 32) by done) | intros Hn]).
  - rewrite set_reg_if64. apply write_result_eq. by apply (word_div 32).
  - done.
  - rewrite set_reg_if64. apply write_result_eq. by apply (word_rem 32).
  - done.
Qed.

Lemma exec_muldiv64_spec (s : machine W) i op v :
  core64_ok (core s) ->
  In op [MUL; MULH; MULHSU; MULHU; DIV; DIVU; REM; REMU] ->
  alu64_result op i (regs (core s)) = Some v ->
  exec_muldiv i op s = (Ret tt, write_result i v s).
Proof.
  intros Hs Hop Hv. unfold exec_muldiv, mbind, M_bind, reg, read, gets.
  pose proof (regs_get_range (xlen := 64) (regs (core s)) (rs1 i) eq_refl (ok_regs Hs)) as Ha.
  pose proof (regs_get_range (xlen := 64) (regs (core s)) (rs2 i) eq_refl (ok_regs Hs)) as Hb.
  set (x := regs_get _ (rs1 i)) in *. set (y := regs_get _ (rs2 i)) in *.
  pose proof (uint_range 64 x ltac:(lia)). pose proof (uint_range 64 y ltac:(lia)).
  revert Hv. unfold alu64_result.
  repeat (destruct Hop as [<-|Hop]); [.. | destruct Hop];
    cbn [word_instruction alu_spec option_map operand64]; fold x y; intros [= <-];
    unfold int32, int64, uint64; rewrite ?(sint_uint_id 64) by done;
    [ apply write_result_eq; rewrite sint_of_sint by lia; apply word_mul; lia
    | apply write_result_eq; apply (word_high 64); lia
    | apply write_result_eq; apply mulhsu_value64
    | apply write_result_eq; by apply mulhu_value
    | apply division64; [lia | done | done || by rewrite sint_uint_id by done | intros Hn].. ].
  - rewrite set_reg_if64. apply write_result_eq. by apply (word_div 64).
  - done.
  - rewrite set_reg_if64. apply write_result_eq. by apply (word_rem 64).
  - done.
Qed.

Lemma exec_alu_w_spec (s : machine W) i op v :
  In op [ADDIW; SLLIW; SRLIW; SRAIW; ADDW; SUBW; SLLW; SRLW; SRAW] ->
  alu64_result op i (regs (core s)) = Some v ->
  exec_alu_w i op s = (Ret tt, write_result i v s).
Proof.
  intros Hop Hv. unfold exec_alu_w, mbind, M_bind, reg, read, gets.
  set (x := regs_get _ (rs1 i)) in *. set (y := regs_get _ (rs2 i)) in *.
  pose proof (bits_24_range i) as Hsh.
  pose proof (Z.mod_pos_bound (uint 32 y) 32 ltac:(done)) as Hsh'.
  revert Hv. unfold alu64_result.
  repeat (destruct Hop as [<-|Hop]); [.. | destruct Hop];
    cbn [word_instruction alu_spec option_map operand_w]; fold x y; intros [= <-];
    apply write_result_eq; rewrite ?RegFile_shamt_spec; fold y; rewrite ?shamt_w_bits;
    rewrite ?(Z.mod_small (bits i 24 20 0) 32) by done;
    unfold int32, uint32; auto with vp_alu64 lia.
Qed.

Lemma exec_alu_rv64_spec (s : machine W) i op v :
  core64_ok (core s) -> is_sint 32 i ->
  In op [ADDI; SLTI; SLTIU; XORI; ORI; ANDI; ADD; SUB; SLL; SLT; SLTU; SRL; SRA; XOR; OR; AND;
         SLLI; SRLI; SRAI] ->
  alu64_result op i (regs (core s)) = Some v ->
  exec_alu i op s = (Ret tt, write_result i v s).
Proof.
  intros Hs Hi Hop Hv. unfold exec_alu, mbind, M_bind, reg, read, gets.
  pose proof (regs_get_range (xlen := 64) (regs (core s)) (rs1 i) eq_refl (ok_regs Hs)) as Ha.
  pose proof (regs_get_range (xlen := 64) (regs (core s)) (rs2 i) eq_refl (ok_regs Hs)) as Hb.
  set (x := regs_get _ (rs1 i)) in *. set (y := regs_get _ (rs2 i)) in *.
  assert (Himm : is_sint 64 (I_imm i)) by (apply (is_sint_weaken 32); [lia | by apply I_imm_range]).
  assert (Hsh : 0 <= bits i 25 20 0 < 64) by (rewrite <- shamt_bits; apply shamt_range).
  pose proof (Z.mod_pos_bound (uint 64 y) 64 ltac:(done)) as Hsh'.
  revert Hv. unfold alu64_result.
  repeat (destruct Hop as [<-|Hop]); [.. | destruct Hop];
    cbn [word_instruction alu_spec option_map operand64]; fold x y; intros [= <-];
    apply write_result_eq; rewrite ?RegFile_shamt64_spec; fold y; rewrite ?shamt_bits;
    rewrite ?(Z.mod_small (bits i 25 20 0) 64) by done;
    unfold int64, uint64; rewrite ?(sint_uint_id 64) by done;
    first [ solve [auto with vp_alu lia] | apply word_sll; lia | apply word_srl; lia
          | apply word_sra; (done || lia) ].
Qed.

(** C22: the integer instructions of the 64-bit core compute what the ISA manual
    says.  In every machine that satisfies the invariant, the case of the switch
    for an instruction of RV64I or of its M extension returns, and all it
    changes is the destination register.  The instructions on double words
    write the result that the reference gives for 64-bit words; the word
    instructions write the result that it gives for the lower halves of the
    operands as 32-bit words, extended by its sign: so ADDIW and SUBW wrap at 32
    bits, SRLIW shifts zeros into the lower half, and DIVW by zero writes -1. *)
Theorem exec_alu64_spec (s : machine W) (i : Instruction) (op : Mapping) (v : Z) :
  core64_ok (core s) -> is_sint 32 i -> alu64_result op i (regs (core s)) = Some v ->
  exec_op i op s = (Ret tt, write_result i v s).
Proof.
  intros Hs Hi Hv.
  destruct op; try discriminate Hv; cbn [exec_op];
    lazymatch goal with
    | |- exec_alu _ _ _ = _ => apply exec_alu_rv64_spec; [done | done | cbn; tauto | done]
    | |- exec_alu_w _ _ _ = _ => apply exec_alu_w_spec; [cbn; tauto | done]
    | |- exec_muldiv _ _ _ = _ => apply exec_muldiv64_spec; [done | cbn; tauto | done]
    | |- exec_muldiv_w _ _ _ = _ => apply exec_muldiv_w_spec; [cbn; tauto | done]
    end.
Qed.
End alu64.

(** REMW of the word 0x80000000 and -1. *)
Lemma exec_alu64_spec_witness :
  let s := Machine (set_regs (regs_set 11 0x80000000 (regs_set 12 (-1) RegFile_init)) (ISS_new 0))
             (∅ : ram) in
  core64_ok (core s) /\
  exec_op 0x02c5e53b REMW s = (Ret tt, write_result 0x02c5e53b 0 s).
Proof.
  set (s := Machine _ _).
  assert (Hs : core64_ok (core s)).
  { apply (core_ok_set_reg 11 0x80000000 (set_regs (regs_set 12 (-1) RegFile_init) (ISS_new 0))); [done |].
    apply (core_ok_set_reg 12 (-1) (ISS_new 0)); [done |]. by apply ISS_new64_ok. }
  split; [exact Hs |].
  exact (exec_alu64_spec s 0x02c5e53b REMW 0 Hs (is_sint_literal 32 0x02c5e53b eq_refl) eq_refl).
Defined.
