(* ===== verification/IssRun64.v ===== *)
(** * Running a 64-bit core

    Safety of the steps and of the loop of the 64-bit core, the accesses outside
    of the table of CSRs, and programs run to their end. *)

From S2P Require Import Prelude Instr Decode Compressed Trap Csr Csr64 Fp Iss IssExec Iss64 IssExec64 IssLogic IssInv64 CoreStep IssValues IssSafe64 RamPlatform RamPlatform64 IssExecSafe64.

#[local] Set Default Proof Using "Type*".

Section run.
Context {W : Type} `{platform64_ok W} `{softfloat64_ok}.

Lemma run_loop_frame64 fuel : run_loop (W := W) fuel = loop_frame run_step fuel.
Proof. induction fuel as [|fuel IH]; [done |]. simpl. by rewrite IH. Qed.

Lemma run_loop64_keeps fuel (s : machine W) :
  step64_ok s ->
  match run_loop fuel s with
  | (Ret ended, s') => step64_ok s' /\ (ended = true -> fuel <> O /\ status (core s') <> Runnable)
  | (Throw _, _) => False
  | (Fatal f, s') => fails f s'
  end.
Proof.
  rewrite run_loop_frame64. apply (loop_frame_keeps run_step step64_ok fails). clear s. intros s Hs.
  pose proof (run_step64_triple s Hs) as Ht. pose proof (nothrow_run_step64 s) as Hn.
  destruct (run_step s) as [[[]|e|f] s1]; [done | by destruct (Hn e s1) | done].
Qed.

(** The final synchronisation of [run]. *)
Lemma sync64_keeps (s : machine W) :
  step64_ok s ->
  match quantum_keeper_sync s with
  | (Ret _, s') => step64_ok s' /\ status (core s') = status (core s)
  | (Throw _, _) => False
  | (Fatal f, s') => fails f s'
  end.
Proof.
  intros [Hs Hzero]. pose proof Hs as (Hc & He & Hf).
  pose proof (quantum_keeper_sync_ok _ _ s Hc He) as Hsync.
  pose proof (safe_wait (fun flags => flags = 0) _ (quantum_keeper_sync_ok _ _) s Hs) as Hw.
  pose proof (quantum_keeper_sync_regs 64 misa64_ok s) as Hr.
  destruct (quantum_keeper_sync s) as [[u|e|f] s']; [| done | done].
  destruct Hw as [_ Hw]. simpl in Hr. destruct Hsync as [_ Hch].
  split; [by split; [| rewrite Hr] |]. by destruct Hch as [->|(v & _ & ->)].
Qed.

Lemma run64_keeps fuel (s : machine W) :
  step64_ok s ->
  match run fuel s with
  | (Ret ended, s') => step64_ok s' /\ (ended = true -> fuel <> O /\ status (core s') <> Runnable)
  | (Throw _, _) => False
  | (Fatal f, s') => env_fails f \/ reserved_mode_fails f (core s') \/ table_fails f (core s')
  end.
Proof.
  intros Hs. pose proof (run_loop64_keeps fuel s Hs) as Hl.
  unfold run, mbind, M_bind. destruct (run_loop fuel s) as [[ended|e|f] s1]; [| done | done].
  destruct Hl as [Hs1 Hend]. destruct ended; [| by split].
  pose proof (sync64_keeps s1 Hs1) as Hsync. cbn [when].
  destruct (quantum_keeper_sync s1) as [[u|e|f] s2]; [| done | done].
  destruct Hsync as [Hs2 Hst]. split; [done |]. intros _. rewrite Hst. by apply Hend.
Qed.
End run.

(** C21: a run of the 64-bit core is safe.  Let the platform keep its contract
    and the SoftFloat library return values of its types.  However many steps
    [run] takes, from a machine that satisfies the invariant of the core
    (registers, CSRs and program counters in the range of their 64-bit types,
    the program counters aligned, no SoftFloat exception flag pending, x0 = 0)
    it ends in one that does, with a core that is not runnable if the loop has
    ended, and no trap escapes.  If it fails, a call of the platform has failed,
    the core is in the reserved privilege level 2, or the instruction has named
    [pmpcfg2] or [pmpcfg3]: nothing else in the code of the core can fail. *)
Theorem run_safe64 {W : Type} `{platform64_ok W} `{softfloat64_ok} (fuel : nat) (s : machine W) :
  step64_ok s ->
  match run fuel s with
  | (Ret ended, s') => step64_ok s' /\ (ended = true -> fuel <> O /\ status (core s') <> Runnable)
  | (Throw _, _) => False
  | (Fatal f, s') => env_fails f \/ reserved_mode_fails f (core s') \/ table_fails f (core s')
  end.
Proof. apply run64_keeps. Qed.

(** C23: an access to [pmpcfg2] or [pmpcfg3] leaves the table.  The constructor
    of the table maps four addresses to the two elements of [pmpcfg].  A CSR
    instruction that names one of the two others traps below machine mode; in
    machine mode each of the six forms reaches for memory behind the array,
    whatever its operands, before it has changed any part of the machine. *)
Theorem pmpcfg_out_of_bounds {W : Type} `{platform64 W} `{softfloat64} (i : Instruction)
    (op : Mapping) (s : machine W) :
  csr_op op -> csr i = PMPCFG2_ADDR \/ csr i = PMPCFG3_ADDR ->
  exec_op i op s =
    if prv (core s) <? MachineMode
    then (Throw (mkTrap EXC_ILLEGAL_INSTR (uint32 (instr (core s)))), s)
    else (Fatal UndefinedBehaviour, s).
Proof.
  intros Hop Hi. rewrite (exec_op_csr _ _ Hop).
  rewrite (exec_csr_outside i op s Hop) by (by destruct Hi as [-> | ->]). reflexivity.
Qed.

(** CSRRW x5, pmpcfg2, x6 after reset. *)
Lemma pmpcfg_out_of_bounds_witness :
  exec_op 0x3a2312f3 CSRRW (ram_machine64 []) = (Fatal UndefinedBehaviour, ram_machine64 []).
Proof.
  exact (pmpcfg_out_of_bounds 0x3a2312f3 CSRRW (ram_machine64 []) (or_introl eq_refl)
    (or_introl eq_refl)).
Defined.

(** ** Programs

    The product of 1, 2, .. 20, which needs 62 bits, then EBREAK:
<<
      addi a0, x0, 1
      addi a1, x0, 20
    loop:
      mul  a0, a0, a1
      addi a1, a1, -1
      bne  a1, x0, loop
      ebreak
>> *)
Definition factorial_program : list Z :=
  [0x00100513; 0x01400593; 0x02b50533; 0xfff58593; 0xfe059ce3; 0x00100073].

Lemma factorial_program_runs :
  let r := run 100 (ram_machine64 factorial_program) in
  fst r = Ret true /\ regs_get (regs (core (snd r))) 10 = 2432902008176640000 /\
  status (core (snd r)) = HitBreakpoint.
Proof. vm_compute. by repeat split. Qed.

Lemma run_safe64_witness :
  step64_ok (ram_machine64 factorial_program) /\
  step64_ok (snd (run 100 (ram_machine64 factorial_program))).
Proof.
  assert (Hs : step64_ok (ram_machine64 factorial_program)).
  { split; [| done]. split; [by apply ISS_new64_ok |]. done. }
  split; [exact Hs |]. pose proof (run_safe64 100 (ram_machine64 factorial_program) Hs) as Ht.
  assert (E : fst (run 100 (ram_machine64 factorial_program)) = Ret true) by by vm_compute.
  destruct (run 100 (ram_machine64 factorial_program)) as [[b|e|f] s'].
  - exact (proj1 Ht).
  - destruct Ht.
  - discriminate E.
Defined.
