(* ===== verification/IssCsr64.v ===== *)
(** * The CSR instructions of the 64-bit core

    What the six instructions of Zicsr do to a register that holds any 64-bit
    value: the scratch registers, and the causes and values of traps. *)

From S2P Require Import Prelude Instr Decode Compressed Trap Csr Csr64 Fp Iss IssExec Iss64 IssExec64 IssLogic IssInv64 IssValues IssSafe64 RamPlatform RamPlatform64 IssExecSafe64.

Definition plain_registers : list (Z * csrs.reg) :=
  [(MSCRATCH_ADDR, csrs.mscratch); (MCAUSE_ADDR, csrs.mcause); (MTVAL_ADDR, csrs.mtval);
   (SSCRATCH_ADDR, csrs.sscratch); (SCAUSE_ADDR, csrs.scause); (STVAL_ADDR, csrs.stval);
   (USCRATCH_ADDR, csrs.uscratch); (UCAUSE_ADDR, csrs.ucause); (UTVAL_ADDR, csrs.utval)].

(** ** The reference *)

Definition csr_operand (op : Mapping) (i : Instruction) (r : list Z) : Z :=
  match op with
  | CSRRW | CSRRS | CSRRC => uint64 (regs_get r (rs1 i))
  | _ => bits i 19 15 0
  end.

(** The instructions that set or clear no bit do not write. *)
Definition csr_writes (op : Mapping) (i : Instruction) : bool :=
  match op with
  | CSRRW | CSRRWI => true
  | _ => negb (bits i 19 15 0 =? 0)
  end.

(** The new value.  The manual clears the bits of the operand; the operand of
    CSRRCI has 32 bits, and so has its complement. *)
Definition csr_result (op : Mapping) (old operand : Z) : Z :=
  match op with
  | CSRRW | CSRRWI => operand
  | CSRRS | CSRRSI => Z.lor old operand
  | CSRRC => Z.ldiff old operand
  | _ => Z.ldiff old operand mod 2 ^ 32
  end.

Definition csr_effect (op : Mapping) (i : Instruction) (r : csrs.reg) (c : ISS) : ISS :=
  let old := csr_get (csr_regs c) r in
  let new := csr_result op old (csr_operand op i (regs c)) in
  let c := if rd i =? 0 then c else set_regs (regs_set (rd i) (int64 old) (regs c)) c in
  if csr_writes op i then set_csr_regs (csr_set r new (csr_regs c)) c else c.

(** ** Accesses to these registers *)

Section access.
Context {W : Type} `{platform64 W} `{softfloat64}.

Lemma plain_access addr r :
  In (addr, r) plain_registers -> forall w (s : machine W),
  is_invalid_csr_access addr w s = (Ret (prv (core s) <? Z.land 0x300 addr .>> 8), s).
Proof.
  intros Hin w s. repeat (destruct Hin as [[= <- <-]|Hin]; [by destruct w |]). destruct Hin.
Qed.

Lemma plain_get addr r (s : machine W) :
  In (addr, r) plain_registers ->
  get_csr_value addr s = (Ret (csr_get (csr_regs (core s)) r), s).
Proof. intros Hin. repeat (destruct Hin as [[= <- <-]|Hin]; [by lazy |]). destruct Hin. Qed.

Lemma plain_set addr r v (s : machine W) :
  In (addr, r) plain_registers ->
  set_csr_value addr v s =
    (Ret tt, Machine (set_csr_regs (csr_set r v (csr_regs (core s))) (core s)) (env s)).
Proof. intros Hin. repeat (destruct Hin as [[= <- <-]|Hin]; [reflexivity |]). destruct Hin. Qed.

Lemma zimm_operand i : 0 <= zimm i < 32.
Proof.
  change (zimm i) with (rs1 i). rewrite rs1_bits. unfold bits. rewrite Z.shiftl_0_r.
  apply (uint_range 5). lia.
Qed.

Lemma clear_bits_value x v : is_uint 64 x -> csr_clear_bits x v = Z.ldiff x (uint64 v).
Proof.
  intros Hx. unfold csr_clear_bits, uint64. apply Z.bits_inj'. intros k ?.
  rewrite Z.land_spec, Z.ldiff_spec, !uint_testbit by lia.
  destruct (Z.ltb_spec k 64); cbn [andb].
  - by rewrite Z.lnot_spec by lia.
  - by rewrite (proj1 (is_uint_bits 64 x ltac:(lia)) Hx k) by lia.
Qed.

Lemma clear_zimm_value x v : csr_clear_zimm x v = Z.ldiff x v mod 2 ^ 32.
Proof.
  unfold csr_clear_zimm, uint32. change (Z.ldiff x v mod 2 ^ 32) with (uint 32 (Z.ldiff x v)).
  apply Z.bits_inj'. intros k ?. rewrite Z.land_spec, !uint_testbit, Z.ldiff_spec by lia.
  destruct (k <? 32); cbn [andb]; [by rewrite Z.lnot_spec by lia | by rewrite andb_false_r].
Qed.

(** ** The two schemes *)

Definition write_rd (i : Instruction) (v : Z) (c : ISS) : ISS :=
  if rd i =? 0 then c else set_regs (regs_set (rd i) (int64 v) (regs c)) c.

Lemma csrrw_effect i addr r (operand : M (machine W) SimulationTrap Z) v (s : machine W) :
  csr i = addr -> In (addr, r) plain_registers -> Z.land 0x300 addr .>> 8 <= prv (core s) ->
  operand s = (Ret v, s) ->
  exec_csrrw i operand s =
    (Ret tt,
     let c := write_rd i (csr_get (csr_regs (core s)) r) (core s) in
     Machine (set_csr_regs (csr_set r (uint64 v) (csr_regs c)) c) (env s)).
Proof.
  intros Hi Hin Hprv Hop. unfold exec_csrrw. rewrite Hi.
  unfold mbind at 1, M_bind at 1. rewrite (plain_access _ _ Hin), (proj2 (Z.ltb_ge _ _)) by done.
  unfold mbind at 1, M_bind at 1. rewrite Hop. unfold write_rd, x_zero.
  destruct (rd i =? 0); cbn [negb when]; unfold mbind, M_bind, skip, mret, M_ret, set_reg, update, modify;
    rewrite ?(plain_get _ _ _ Hin); by rewrite (plain_set _ _ _ _ Hin).
Qed.

Lemma csr_update_effect i addr r write (operand : M (machine W) SimulationTrap Z) f v
    (s : machine W) :
  csr i = addr -> In (addr, r) plain_registers -> Z.land 0x300 addr .>> 8 <= prv (core s) ->
  operand s = (Ret v, s) ->
  exec_csr_update i write operand f s =
    (Ret tt,
     let old := csr_get (csr_regs (core s)) r in
     let c := write_rd i old (core s) in
     Machine (if write then set_csr_regs (csr_set r (f old v) (csr_regs c)) c else c) (env s)).
Proof.
  intros Hi Hin Hprv Hop. unfold exec_csr_update. rewrite Hi.
  unfold mbind at 1, M_bind at 1. rewrite (plain_access _ _ Hin), (proj2 (Z.ltb_ge _ _)) by done.
  unfold mbind at 1, M_bind at 1. rewrite Hop.
  unfold mbind at 1, M_bind at 1. rewrite (plain_get _ _ _ Hin). unfold write_rd, x_zero.
  destruct (rd i =? 0), write; cbn [negb when];
    unfold mbind, M_bind, skip, mret, M_ret, set_reg, update, modify;
    rewrite ?(plain_set _ _ _ _ Hin); try done; by destruct s.
Qed.

(** The CSR instructions of the 64-bit core on the registers that hold any
    value (scratch registers, causes and values of traps), in a mode that may
    access them.  The old value goes to the destination unless that is x0; the
    new value is the operand (CSRRW, CSRRWI), the old value with the bits of the
    operand set (CSRRS, CSRRSI) or cleared (CSRRC), and nothing is written when
    the instruction names no bits.  CSRRCI clears the bits of its operand and
    the whole upper half of the register besides. *)
Theorem csr_instruction64_effect (i : Instruction) (op : Mapping) (r : csrs.reg) (s : machine W) :
  csr_op op -> core64_ok (core s) -> In (csr i, r) plain_registers ->
  Z.land 0x300 (csr i) .>> 8 <= prv (core s) ->
  exec_op i op s = (Ret tt, Machine (csr_effect op i r (core s)) (env s)).
Proof.
  intros Hop Hs Hin Hprv. rewrite (exec_op_csr _ _ Hop).
  pose proof (csr64_range (csr_regs (core s)) r (ok_csrs Hs)) as Hold.
  pose proof (zimm_operand i) as Hz.
  assert (Hzimm : uint64 (zimm i) = zimm i) by (apply uint_id; unfold is_uint; lia).
  assert (Hreg : reg (rs1 i) s = (Ret (regs_get (regs (core s)) (rs1 i)), s)) by done.
  assert (Himm : (mret (zimm i) : M (machine W) SimulationTrap Z) s = (Ret (zimm i), s)) by done.
  unfold csr_effect, csr_writes, csr_operand. rewrite <- rs1_bits.
  destruct Hop as [-> | [-> | [-> | [-> | [-> | ->]]]]]; cbn [exec_csr csr_result];
    first [ rewrite (csrrw_effect i _ r _ _ s eq_refl Hin Hprv Hreg)
          | rewrite (csrrw_effect i _ r _ _ s eq_refl Hin Hprv Himm), Hzimm
          | rewrite (csr_update_effect i _ r _ _ _ _ s eq_refl Hin Hprv Hreg)
          | rewrite (csr_update_effect i _ r _ _ _ _ s eq_refl Hin Hprv Himm) ];
    cbv zeta; rewrite ?clear_bits_value, ?clear_zimm_value by done; unfold csr_set_bits;
    rewrite ?Hzimm;
    reflexivity.
Qed.
End access.

(** CSRRCI x5, mscratch, 1 on the value 2^32 + 3. *)
Lemma csr_instruction64_effect_witness :
  let c := set_csr_regs (csr_set csrs.mscratch 0x100000003 (csr_regs (ISS_new 0))) (ISS_new 0) in
  let s := Machine c (∅ : ram) in
  core64_ok c /\
  exec_op 0x3400f2f3 CSRRCI s = (Ret tt, Machine (csr_effect CSRRCI 0x3400f2f3 csrs.mscratch c) ∅) /\
  csr_get (csr_regs (csr_effect CSRRCI 0x3400f2f3 csrs.mscratch c)) csrs.mscratch = 2.
Proof.
  set (c := set_csr_regs _ _). set (s := Machine c (∅ : ram)).
  assert (Hs : core64_ok c).
  { apply core_ok_set_csrs; [| by apply ISS_new64_ok].
    apply csrs_ok_set; [by apply csr64_plain | apply (ok_csrs (ISS_new64_ok 0 (conj (Z.le_refl 0) eq_refl)))]. }
  split; [exact Hs |]. split; [| by vm_compute].
  refine (csr_instruction64_effect 0x3400f2f3 CSRRCI csrs.mscratch s _ Hs _ _).
  - unfold csr_op. tauto.
  - by left.
  - by vm_compute.
Defined.
