(* ===== verification/MemIf64.v ===== *)
(** * The memory interface of a 64-bit core

    Models core/rv64/mem.h.  Transactions, direct accesses to memory ranges and
    the bus lock have the text of core/rv32/mem.h and are the definitions of
    MemIf.v; the environment is its record [mem_env].  What differs: the MMU is a
    reference, so every access is translated; the atomic operations are templates
    over the type of their data; and the registers that control the translation
    have the layout of the 64-bit core. *)

From S2P Require Import Prelude Instr Trap Csr Csr64 Iss Iss64 Memory Bus Mmu MemIf.

Section memory_interface.
Context {X : Type} `{system X}.

Abbreviation R := (M (machine (mem_env X)) SimulationTrap).

(** ** Address translation *)

Definition core_vm_regs (s : machine (mem_env X)) : vm_regs :=
  let t := csr_regs (core s) in
  mkVmRegs (prv (core s))
    (get_bits t csrs.satp satp.mode) (get_bits t csrs.satp satp.ppn)
    (nonzero (get_bits t csrs.mstatus mstatus.mprv)) (get_bits t csrs.mstatus mstatus.mpp)
    (nonzero (get_bits t csrs.mstatus mstatus.sum)) (nonzero (get_bits t csrs.mstatus mstatus.mxr)).

#[export] Instance rv64_mmu : mmu_interface (machine (mem_env X)) := {
  vm_regs_of := core_vm_regs;
  get_mmu s := default MMU_new (mmu (env s));
  set_mmu m s := Machine (core s) (set_mem_mmu (Some m) (env s));
  xlen := 64;
  mmu_load_pte64 := _raw_load_data uint64_t;
  mmu_load_pte32 := _raw_load_data uint32_t;
  mmu_store_pte32 := _raw_store_data uint32_t;
  mmu_quantum_inc := quantum_inc
}.

Definition v2p (vaddr : Z) (type : MemoryAccessType) : R Z :=
  translate_virtual_to_physical_addr vaddr type.

Definition mem_flush_tlb : R unit := mmu_flush_tlb.

(** ** The interfaces of the core *)

Definition _load_data (T : int_type) (addr : Z) : R Z :=
  paddr ← v2p addr LOAD; _raw_load_data T paddr.
Definition _store_data (T : int_type) (addr value : Z) : R unit :=
  paddr ← v2p addr STORE; _raw_store_data T paddr value.

Definition mem_load_instr (addr : Z) : R Z :=
  paddr ← v2p addr FETCH; _raw_load_data uint32_t paddr.

Definition _atomic_load_data (T : int_type) (addr : Z) : R Z :=
  bus_lock_lock ;; _load_data T addr.
Definition _atomic_store_data (T : int_type) (addr value : Z) : R unit :=
  mine ← bus_lock_is_locked_by_me;
  assert mine ;; _store_data T addr value.
Definition _atomic_load_reserved_data (T : int_type) (addr : Z) : R Z :=
  bus_lock_lock ;; env_update (set_lr_addr addr) ;; _load_data T addr.
Definition _atomic_store_conditional_data (T : int_type) (addr value : Z) : R bool :=
  mine ← bus_lock_is_locked_by_me;
  if (mine : bool) then
    lr ← env_get lr_addr;
    if addr =? lr then _store_data T addr value ;; mret true
    else mem_atomic_unlock ;; mret false
  else mret false.

(** A core whose instruction and data memory is the combined interface: the
    operations that both cores have, and those of the 64-bit core. *)
#[export] Instance memory_platform_shared : platform (mem_env X) := {
  load_instr := mem_load_instr;
  load_double := _load_data int64_t;
  load_word := _load_data int32_t;
  load_half := _load_data int16_t;
  load_byte := _load_data int8_t;
  load_uhalf := _load_data uint16_t;
  load_ubyte := _load_data uint8_t;
  store_double := _store_data uint64_t;
  store_word := _store_data uint32_t;
  store_half := _store_data uint16_t;
  store_byte := _store_data uint8_t;
  atomic_load_word := _atomic_load_data int32_t;
  atomic_store_word := _atomic_store_data uint32_t;
  atomic_load_reserved_word := _atomic_load_reserved_data int32_t;
  atomic_store_conditional_word := _atomic_store_conditional_data uint32_t;
  atomic_unlock := mem_atomic_unlock;
  flush_tlb := mem_flush_tlb;
  update_and_get_mtime := clint_update_and_get_mtime;
  execute_syscall := system_execute_syscall;
  wait_wfi_event := system_wait_wfi_event;
  notify_wfi_event := system_notify_wfi_event;
  quantum_keeper_inc := quantum_inc;
  quantum_keeper_need_sync := quantum_need_sync;
  quantum_keeper_sync := quantum_sync
}.

#[export] Instance memory_platform64 : platform64 (mem_env X) := {
  load_uword := _load_data uint32_t;
  atomic_load_double := _atomic_load_data int64_t;
  atomic_store_double := _atomic_store_data uint64_t;
  atomic_load_reserved_double := _atomic_load_reserved_data int64_t;
  atomic_store_conditional_double := _atomic_store_conditional_data uint64_t
}.

(** ** InstrMemoryProxy: instructions fetched through a memory range *)

Definition proxy_load_instr (dmi : MemoryDMI) (pc : Z) : R Z :=
  mode ← csr_field csrs.satp satp.mode;
  assert (mode =? SATP_MODE_BARE) ;;
  quantum_inc (clock_cycle * 2) ;; on_heap (dmi_load uint32_t dmi pc).

End memory_interface.
