(* ===== verification/MemIfSafe64.v ===== *)
(** * Safety of the memory interface of the 64-bit core

    The accesses of MemIf64.v are safe, translation included: the modes that the
    register satp can hold are those that the MMU supports.  A core in front of
    the interface has the contract [platform64_ok]. *)

From S2P Require Import Prelude Instr Decode Compressed Trap Csr Csr64 Fp Iss IssExec Iss64 IssExec64 IssLogic IssValues Memory Bus Mmu IssInv64 CoreStep MemIf MemIf64 MemAccess.

Abbreviation system64_ok := (system_safe 64 misa64_ok).

Section interface.
Context {X : Type} `{Hsys : !system X} `{Hok : !system64_ok X}.

Lemma phys_width_64 : phys_width = 64.
Proof. by destruct phys_width_ok as [->|[-> _]]. Qed.

Lemma satp_mode_cases64 t : csrs64_ok t ->
  let mode := get_bits t csrs.satp satp.mode in
  mode = SATP_MODE_BARE \/ walkable_mode 64 mode.
Proof.
  intros Ht. pose proof (Ht csrs.satp) as [Hw Hs]. apply satp_ok_mode in Hs; [| done].
  unfold get_bits. destruct (orb_prop _ _ Hs) as [[->%Z.eqb_eq| ->%Z.eqb_eq]%orb_prop| ->%Z.eqb_eq].
  - by left.
  - right. intros base. by eexists.
  - right. intros base. by eexists.
Qed.

#[export] Program Instance rv64_core_mmu : core_mmu 64 misa64_ok X rv64_mmu := {
  mmu_mode c := get_bits (csr_regs c) csrs.satp satp.mode
}.
Next Obligation. done. Qed.
Next Obligation. intros c Hc. apply satp_mode_cases64, Hc. Qed.
Next Obligation.
  intros c c' [->|(v & _ & ->)]; [done |]. unfold set_csr_regs. cbn [csr_regs].
  by rewrite get_bits_csr_set_other.
Qed.
Solve All Obligations with done.

Lemma acc_v2p64 vaddr type :
  is_uint 64 vaddr -> acc any_core (v2p vaddr type) (is_uint phys_width).
Proof. intros Hv. rewrite phys_width_64. by apply acc_translate, Hv; apply phys_width_64. Qed.

(** ** The interfaces of the core *)

Lemma acc_load64 T addr : is_uint 64 addr -> acc any_core (_load_data T addr) (in_type T).
Proof.
  intros Ha. eapply acc_bind; [apply _ | by apply acc_v2p64 | intros p Hp].
  by apply acc_raw_load; [apply _ |].
Qed.

Lemma acc_store64 T addr v :
  is_uint 64 addr -> acc any_core (_store_data T addr v) (fun _ => True).
Proof.
  intros Ha. eapply acc_bind; [apply _ | by apply acc_v2p64 | intros p Hp].
  by apply acc_raw_store; [apply _ |].
Qed.

Lemma acc_load_instr64 addr : is_uint 64 addr -> acc any_core (mem_load_instr addr) (is_uint 32).
Proof.
  intros Ha. eapply acc_bind; [apply _ | by apply acc_v2p64 | intros p Hp].
  by apply (acc_raw_load any_core uint32_t).
Qed.

Lemma acc_atomic_load64 T addr :
  is_uint 64 addr -> acc any_core (_atomic_load_data T addr) (in_type T).
Proof. intros Ha. apply acc_locked. by apply acc_load64. Qed.

Lemma acc_atomic_store64 T addr v :
  is_uint 64 addr -> acc any_core (_atomic_store_data T addr v) (fun _ => True).
Proof. intros Ha. apply acc_owned. by apply acc_store64. Qed.

Lemma acc_load_reserved64 T addr :
  is_uint 64 addr -> acc any_core (_atomic_load_reserved_data T addr) (in_type T).
Proof. intros Ha. apply acc_reserved. by apply acc_load64. Qed.

Lemma acc_store_conditional64 T addr v :
  is_uint 64 addr -> acc any_core (_atomic_store_conditional_data T addr v) (fun _ => True).
Proof. intros Ha. apply acc_conditional. by apply acc_store64. Qed.

Lemma flush_env_op64 :
  core_op 64 misa64_ok sys_ok access_fails (mem_flush_tlb (X := X)) (fun _ => True).
Proof.
  intros s Hc Hs. split; [done |]. split; [done |]. cbn.
  destruct (env_step_refl _ Hs) as (? & ? & ? & _ & ?).
  eapply sys_step; [exact Hs | | left; apply phys_width_64]. by repeat split.
Qed.

Lemma access_fails_id f : access_fails f -> access_fails f.
Proof. done. Qed.

#[local] Hint Resolve acc_load64 acc_store64 acc_load_instr64 acc_atomic_load64 acc_atomic_store64
  acc_load_reserved64 acc_store_conditional64 flush_env_op64 : mem_contract.

(** A core in front of the interface: every theorem about the 64-bit core that
    needs the contract of its environment holds of it, with an MMU. *)
#[export] Instance memory_platform64_ok : platform64_ok (mem_env X).
Proof using Type*.
  unshelve refine {| platform64_environment := {| env_ok := sys_ok; env_fails := access_fails |} |};
    unfold memory_platform64, memory_platform_shared;
    cbn [platform64_platform load_uword atomic_load_double atomic_store_double
         atomic_load_reserved_double atomic_store_conditional_double];
    memory_contract access_fails_id phys_width_64.
Defined.

End interface.
