(* ===== verification/VirtualRun64.v ===== *)
(** * The 64-bit core behind its memory interface

    The composition of the core, the memory interface and the MMU: a run with
    address translation is safe; and a program that turns Sv39 on, run. *)

From S2P Require Import Prelude Instr Decode Compressed Trap Csr Csr64 Fp Iss IssExec Iss64 IssExec64 IssLogic IssInv64 CoreStep IssValues IssSafe64 RamPlatform RamPlatform64 IssExecSafe64 IssRun64 Memory Bus Mmu MemIf MemAccess MemIf64 ClockSystem MemIfSafe64.

(** C24: the 64-bit core is safe behind its memory interface.  Let the bus, the
    clocks and the events behind the interface keep [system_safe], the SoftFloat
    library return values of its types, and the machine satisfy the invariant,
    which the register satp is part of.  However many steps [run] takes, every
    fetch, load and store going through the translation of the MMU, no trap
    escapes and the machine it ends in satisfies the invariant.  The MMU never
    meets a mode it does not support: the run fails only with an assertion of
    the code, for a bus lock that is never released, for the platform behind the
    interface, in the reserved privilege level 2, or at [pmpcfg2] and
    [pmpcfg3]. *)
Theorem virtual_run_safe64 {X} `{!system X, !system64_ok X} `{softfloat64_ok} (fuel : nat)
    (s : machine (mem_env X)) :
  step64_ok s ->
  match run fuel s with
  | (Ret ended, s') => step64_ok s' /\ (ended = true -> fuel <> O /\ status (core s') <> Runnable)
  | (Throw _, _) => False
  | (Fatal f, s') => access_fails f \/ reserved_mode_fails f (core s') \/ table_fails f (core s')
  end.
Proof. intros Hs. exact (run64_keeps fuel s Hs). Qed.

(** ** A program in virtual memory *)

(** A page of memory of 264 bytes.  The program is at its start; the last entry
    of the root page table maps the gigabyte from 0x800000000 to physical
    address 0, for all accesses of supervisor mode.
<<
      addi t0, x0, 8          # satp: Sv39, page table at 0
      slli t0, t0, 60
      csrw satp, t0
      addi t1, x0, 1          # mstatus.mpp: supervisor mode
      slli t1, t1, 11
      csrw mstatus, t1
      addi t2, x0, 1          # mepc: the next part, in virtual memory
      slli t2, t2, 35
      addi t3, t2, 44
      csrw mepc, t3
      mret
      addi a0, x0, 42
      sd   a0, 240(t2)
      ld   a1, 240(t2)
      ebreak
>> *)
Definition sv39_program : list Z :=
  [0x00800293; 0x03c29293; 0x18029073; 0x00100313; 0x00b31313; 0x30031073; 0x00100393;
   0x02339393; 0x02c38e13; 0x341e1073; 0x30200073; 0x02a00513; 0x0ea3b823; 0x0f03b583;
   0x00100073].

Definition sv39_bytes : list Z :=
  mjoin (to_bytes uint32_t <$> sv39_program) ++ replicate 196 0 ++ to_bytes uint64_t 0xcf.

Definition sv39_machine : machine (mem_env Z) :=
  Machine (ISS_new 0)
    (mkMemEnv {[ 0%nat := sv39_bytes ]} BusLock_init 0 [mkMemoryDMI 0 0 264 264] (Some MMU_new) 0).

Lemma sv39_program_runs :
  let r := run 100 sv39_machine in
  fst r = Ret true /\ prv (core (snd r)) = SupervisorMode /\
  pc (core (snd r)) = 0x80000003c /\
  regs_get (regs (core (snd r))) 11 = 42 /\
  nth 240 (default [] (mem_heap (env (snd r)) !! 0%nat)) 0 = 42 /\
  status (core (snd r)) = HitBreakpoint.
Proof. vm_compute. by repeat split. Qed.

#[local] Instance clock_system64_ok : system64_ok Z := clock_system_safe true (fun E => match Bool.diff_true_false E with end).

Lemma sv39_machine_ok : step64_ok sv39_machine.
Proof.
  split; [| done]. split; [by apply ISS_new64_ok |]. split; [| done]. constructor.
  - apply map_Forall_singleton. apply Forall_forall. intros b Hb.
    assert (Hall : forallb (fun b => (0 <=? b) && (b <? 256)) sv39_bytes = true) by by vm_compute.
    rewrite forallb_forall in Hall. specialize (Hall b ltac:(by apply list_elem_of_In)).
    unfold byte_ok, is_uint. lia.
  - constructor; [| done]. by constructor; [eexists | ..].
  - by apply mmu_ok_empty.
  - done.
Qed.

Lemma virtual_run_safe64_witness :
  step64_ok sv39_machine /\ exists s', run 100 sv39_machine = (Ret true, s') /\ step64_ok s'.
Proof.
  split; [exact sv39_machine_ok |].
  pose proof (virtual_run_safe64 100 sv39_machine sv39_machine_ok) as Ht.
  assert (E : fst (run 100 sv39_machine) = Ret true) by by vm_compute.
  destruct (run 100 sv39_machine) as [r s']. cbn [fst] in E. rewrite E in Ht |- *.
  exists s'. split; [done | exact (proj1 Ht)].
Defined.
