(* ===== verification/Syscall.v ===== *)
(** * The emulation of system calls

    Models core/rv32/syscall.h, syscall.cpp and core/rv64/syscall.h, syscall.cpp:
    struct SyscallHandler, which serves the system calls of a program without an
    operating system with those of the host.  The two versions differ in the width
    of long, in the layout of their structures and in what they do with a negative
    answer; both are the same functions here, of the guest's type long and of the
    interface to the core (iss_syscall_if of syscall_if.h).  The calls of the host
    are the class [sys_host]. *)

From S2P Require Import Prelude Instr Trap Csr Iss Iss64 Memory.

(** ** Numbers *)

Definition SYS_exit : Z := 93.
Definition SYS_read : Z := 63.
Definition SYS_write : Z := 64.
Definition SYS_open : Z := 1024.
Definition SYS_close : Z := 57.
Definition SYS_lseek : Z := 62.
Definition SYS_brk : Z := 214.
Definition SYS_fstat : Z := 80.
Definition SYS_time : Z := 1062.
Definition SYS_gettimeofday : Z := 169.
Definition SYS_host_error : Z := 1.
Definition SYS_host_test_pass : Z := 2.
Definition SYS_host_test_fail : Z := 3.

(** [rv_sc], and the host's flags, those of Linux. *)
Definition rv_RDONLY : Z := 0x0000.
Definition rv_WRONLY : Z := 0x0001.
Definition rv_RDWR : Z := 0x0002.
Definition rv_APPEND : Z := 0x0008.
Definition rv_CREAT : Z := 0x0200.
Definition rv_TRUNC : Z := 0x0400.
Definition O_RDONLY : Z := 0x0.
Definition O_WRONLY : Z := 0x1.
Definition O_RDWR : Z := 0x2.
Definition O_APPEND : Z := 0x400.
Definition O_CREAT : Z := 0x40.
Definition O_TRUNC : Z := 0x200.

(** ** State *)

(** [mem] is the array of the guest's memory; [cores] are the harts registered. *)
Record SyscallHandler : Type := mkSyscallHandler {
  cores : gset Z;
  mem : option block;
  mem_offset : Z;
  hp : Z;
  shall_exit : bool;
  start_heap : Z;
  max_heap : Z
}.

Definition SyscallHandler_new : SyscallHandler := mkSyscallHandler ∅ None 0 0 false 0 0.

Definition set_hp (v : Z) (h : SyscallHandler) : SyscallHandler :=
  mkSyscallHandler (cores h) (mem h) (mem_offset h) v (shall_exit h) (start_heap h) (max_heap h).
Definition set_max_heap (v : Z) (h : SyscallHandler) : SyscallHandler :=
  mkSyscallHandler (cores h) (mem h) (mem_offset h) (hp h) (shall_exit h) (start_heap h) v.
Definition request_exit (h : SyscallHandler) : SyscallHandler :=
  mkSyscallHandler (cores h) (mem h) (mem_offset h) (hp h) true (start_heap h) (max_heap h).

Definition syscall_init (host_memory_pointer : block) (mem_start_address heap_pointer_address : Z)
    (h : SyscallHandler) : SyscallHandler :=
  mkSyscallHandler (cores h) (Some host_memory_pointer) mem_start_address heap_pointer_address
    (shall_exit h) heap_pointer_address heap_pointer_address.

Definition get_max_heap_memory_consumption (h : SyscallHandler) : Z := uint64 (max_heap h - start_heap h).

(** struct stat of the host: its numbers, and the times in seconds and nanoseconds. *)
Record host_stat : Type := mkStat {
  x_dev : Z; x_ino : Z; x_mode : Z; x_nlink : Z; x_uid : Z; x_gid : Z; x_rdev : Z;
  x_size : Z; x_blksize : Z; x_blocks : Z; x_atim : Z * Z; x_mtim : Z * Z; x_ctim : Z * Z
}.

(** The calls of the host change the world around the core.  They answer with a
    negative number on an error; a read and fstat give what they read as well. *)
Class sys_host (W : Type) : Type := {
  get_sys : W -> SyscallHandler;
  set_sys : SyscallHandler -> W -> W;
  get_heap : W -> heap;
  set_heap : heap -> W -> W;
  host_write : Z -> list Z -> W -> Z * W;
  host_read : Z -> Z -> W -> Z * list Z * W;
  host_lseek : Z -> Z -> Z -> W -> Z * W;
  host_open : list Z -> Z -> Z -> W -> Z * W;
  host_close : Z -> W -> Z * W;
  host_fstat : Z -> W -> Z * host_stat * W;
  host_gettimeofday : W -> Z * (Z * Z) * W;
  host_time : W -> Z * W
}.

(** ** The calls *)

Section calls.
Context {W E : Type} `{sys_host W}.

Abbreviation R := (M W E).

Definition host {A} (f : W -> A * W) : R A := fun w => let '(a, w) := f w in (Ret a, w).
Definition sys : R SyscallHandler := gets get_sys.
Definition update_sys (f : SyscallHandler -> SyscallHandler) : R unit := modify (fun w => set_sys (f (get_sys w)) w).
Definition on_heap {A} (m : M heap E A) : R A := fun w => let '(r, h) := m (get_heap w) in (r, set_heap h w).

(** [boost::lexical_cast<int>] of an integer. *)
Definition lexical_cast_int (v : Z) : R Z :=
  if (- 2 ^ 31 <=? v) && (v <? 2 ^ 31) then mret v else fatal BadLexicalCast.

(** A host pointer is an array and an offset. *)
Definition guest_address_to_host_pointer (addr : Z) : R (block * Z) :=
  h ← sys;
  match mem h with
  | None => fatal AssertFailed
  | Some p => mret (p, int64 (addr - mem_offset h))
  end.

(** [*p = v] at a pointer to a value of the type [T]. *)
Definition store (T : int_type) (p : block * Z) (off v : Z) : R unit :=
  on_heap (heap_write (fst p) (snd p + off) (to_bytes T v)).

Section width.
Context (long : int_type).

(** Timespecs are two longs. *)
Definition _copy_timespec (p : block * Z) (off : Z) (src : Z * Z) : R unit :=
  store long p off (fst src) ;; store long p (off + Z.of_nat (sizeof long)) (snd src).

Definition sys_fstat (fd s_addr : Z) : R Z :=
  r ← host (host_fstat fd);
  let '(ans, x) := r in
  when (ans =? 0)
    (p ← guest_address_to_host_pointer s_addr;
     store uint64_t p 0 (x_dev x) ;; store uint64_t p 8 (x_ino x) ;;
     store uint32_t p 16 (x_mode x) ;; store uint32_t p 20 (x_nlink x) ;;
     store uint32_t p 24 (x_uid x) ;; store uint32_t p 28 (x_gid x) ;;
     store uint64_t p 32 (x_rdev x) ;; store int64_t p 48 (x_size x) ;;
     store int32_t p 56 (x_blksize x) ;; store int64_t p 64 (x_blocks x) ;;
     _copy_timespec p 72 (x_atim x) ;;
     _copy_timespec p (72 + 2 * Z.of_nat (sizeof long)) (x_mtim x) ;;
     _copy_timespec p (72 + 4 * Z.of_nat (sizeof long)) (x_ctim x)) ;;
  mret ans.

Definition sys_gettimeofday (tp tzp : Z) : R Z :=
  assert (tzp =? 0) ;;
  r ← host host_gettimeofday;
  let '(ans, x) := r in
  p ← guest_address_to_host_pointer tp;
  store long p 0 (fst x) ;; store long p (Z.of_nat (sizeof long)) (snd x) ;;
  mret ans.

(** The guest's time is a long as well; lexical_cast throws if the time does not fit. *)
Definition sys_time (tloc : Z) : R Z :=
  host_ans ← host host_time;
  guest_ans ← (if (sizeof long =? 4)%nat then lexical_cast_int host_ans else mret host_ans);
  when (negb (tloc =? 0))
    (p ← guest_address_to_host_pointer tloc; store long p 0 guest_ans) ;;
  lexical_cast_int guest_ans.

Definition translateRVFlagsToHost (flags : Z) : R Z :=
  let flag rv host := if nonzero (flags .& rv) then host else 0 in
  let ret := flag rv_RDONLY O_RDONLY .| flag rv_WRONLY O_WRONLY .| flag rv_RDWR O_RDWR .|
             flag rv_APPEND O_APPEND .| flag rv_CREAT O_CREAT .| flag rv_TRUNC O_TRUNC in
  if (ret =? 0) && negb (flags =? 0) then fatal RuntimeError else mret ret.

Definition sys_brk (addr : Z) : R Z :=
  if addr =? 0 then h ← sys; lexical_cast_int (hp h)
  else
    update_sys (set_hp addr) ;;
    h ← sys;
    when (max_heap h <? hp h) (update_sys (set_max_heap (hp h))) ;;
    lexical_cast_int addr.

Definition sys_write (fd buf count : Z) : R Z :=
  p ← guest_address_to_host_pointer buf;
  data ← on_heap (heap_read (fst p) (snd p) count);
  ans ← host (host_write fd data);
  assert (negb (ans <? 0)) ;;
  mret (int32 ans).

Definition sys_read (fd buf count : Z) : R Z :=
  p ← guest_address_to_host_pointer buf;
  r ← host (host_read fd count);
  let '(ans, data) := r in
  on_heap (heap_write (fst p) (snd p) data) ;;
  assert (0 <=? ans) ;;
  mret (int32 ans).

Definition sys_lseek (fd offset whence : Z) : R Z :=
  ans ← host (host_lseek fd offset whence); mret (int32 ans).

(** The characters up to the terminating zero. *)
Fixpoint c_string (bytes : list Z) : option (list Z) :=
  match bytes with
  | [] => None
  | b :: bytes => if b =? 0 then Some [] else (cons b) <$> c_string bytes
  end.

Definition sys_open (pathname flags mode : Z) : R Z :=
  p ← guest_address_to_host_pointer pathname;
  h ← gets get_heap;
  match h !! fst p with
  | None => fatal UndefinedBehaviour
  | Some bytes =>
      match (if 0 <=? snd p then c_string (drop (Z.to_nat (snd p)) bytes) else None) with
      | None => fatal UndefinedBehaviour
      | Some host_pathname =>
          host_flags ← translateRVFlagsToHost flags;
          host (host_open host_pathname host_flags mode)
      end
  end.

Definition sys_close (fd : Z) : R Z :=
  if (fd =? 1) || (fd =? 0) || (fd =? 2) then mret 0 else host (host_close fd).

(** The switch; int arguments are the low 32 bits of the registers. *)
Definition execute_syscall_number (n _a0 _a1 _a2 : Z) : R Z :=
  if n =? SYS_fstat then sys_fstat (int32 _a0) _a1
  else if n =? SYS_gettimeofday then sys_gettimeofday _a0 _a1
  else if n =? SYS_brk then sys_brk _a0
  else if n =? SYS_time then sys_time _a0
  else if n =? SYS_write then sys_write (int32 _a0) _a1 _a2
  else if n =? SYS_read then sys_read (int32 _a0) _a1 _a2
  else if n =? SYS_lseek then sys_lseek (int32 _a0) (int64 _a1) (int32 _a2)
  else if n =? SYS_open then sys_open _a0 (int32 _a1) (uint32 _a2)
  else if n =? SYS_close then sys_close (int32 _a0)
  else if n =? SYS_exit then update_sys request_exit ;; mret 0
  else if n =? SYS_host_error then fatal RuntimeError
  else if n =? SYS_host_test_pass then update_sys request_exit ;; mret 0
  else if n =? SYS_host_test_fail then update_sys request_exit ;; mret 0
  else fatal RuntimeError.

End width.
End calls.

(** ** The interface to a core *)

Record iss_syscall_if (S E : Type) : Type := {
  if_sys_exit : M S E unit;
  if_syscall_register_index : M S E Z;
  if_read_register : Z -> M S E Z;
  if_write_register : Z -> Z -> M S E unit
}.
Arguments if_sys_exit {S E}.
Arguments if_syscall_register_index {S E}.
Arguments if_read_register {S E}.
Arguments if_write_register {S E}.

Definition x_a0 : Z := 10.
Definition x_a1 : Z := 11.
Definition x_a2 : Z := 12.
Definition x_a3 : Z := 13.

Section handler.
Context {W : Type} `{sys_host W}.

Abbreviation R := (M (machine W) SimulationTrap).

Definition rv32_core : iss_syscall_if (machine W) SimulationTrap := {|
  if_sys_exit := Iss.sys_exit;
  if_syscall_register_index := Iss.get_syscall_register_index;
  if_read_register := Iss.read_register;
  if_write_register := Iss.write_register
|}.

Definition rv64_core : iss_syscall_if (machine W) SimulationTrap := {|
  if_sys_exit := Iss.sys_exit;
  if_syscall_register_index := mret x_a7;
  if_read_register := Iss64.read_register;
  if_write_register := Iss64.write_register
|}.

(** The handler is a part of the environment of the core. *)
Definition in_env {A} (m : M W SimulationTrap A) : R A := fun s =>
  let '(r, w) := m (env s) in (r, Machine (core s) w).

Definition handle_syscall (long : int_type) (c : iss_syscall_if (machine W) SimulationTrap) : R unit :=
  index ← if_syscall_register_index c;
  syscall ← if_read_register c index;
  a3 ← if_read_register c x_a3;
  a2 ← if_read_register c x_a2;
  a1 ← if_read_register c x_a1;
  a0 ← if_read_register c x_a0;
  ans ← in_env (execute_syscall_number long syscall a0 a1 a2);
  if_write_register c x_a0 (uint64 ans) ;;
  h ← in_env sys;
  when (shall_exit h) (if_sys_exit c).

Definition rv32_execute_syscall : R unit := handle_syscall int32_t rv32_core.
Definition rv64_execute_syscall : R unit := handle_syscall int64_t rv64_core.

(** A write of a hart's number to the handler's port does the same. *)
Definition register_core (hart_id : Z) : R unit :=
  h ← in_env sys;
  assert (negb (bool_decide (hart_id ∈ cores h))) ;;
  in_env (update_sys (fun h => mkSyscallHandler ({[hart_id]} ∪ cores h) (mem h) (mem_offset h) (hp h)
    (shall_exit h) (start_heap h) (max_heap h))).

Definition syscall_transport (execute_syscall : R unit) (trans : tlm_generic_payload) : R unit :=
  assert (address trans mod 4 =? 0) ;;
  assert (data_length trans =? 4) ;;
  h ← in_env sys;
  assert (bool_decide (from_bytes uint32_t (payload_data trans) ∈ cores h)) ;;
  execute_syscall.

End handler.

(** ** What a program sees *)

Class sys_host_laws (W : Type) `{sys_host W} : Prop := {
  get_set_sys h w : get_sys (set_sys h w) = h;
  set_set_sys h h' w : set_sys h (set_sys h' w) = set_sys h w;
  set_get_heap w : set_heap (get_heap w) w = w
}.

Section theorems.
Context {W : Type} `{Hlaws : sys_host_laws W}.
#[local] Set Default Proof Using "Type Hlaws".

Abbreviation number := (execute_syscall_number (E := SimulationTrap)).

(** The registers as the interface gives them, and the core after the answer. *)
Definition arg32 (s : machine W) (i : Z) : Z := uint32 (regs_get (regs (core s)) i).
Definition arg64 (s : machine W) (i : Z) : Z := uint64 (regs_get (regs (core s)) i).
Definition answered (ans : Z) (s : machine W) (w : W) : machine W :=
  let c := set_regs (regs_set x_a0 ans (regs (core s))) (core s) in
  Machine (if shall_exit (get_sys w) then set_shall_exit true c else c) w.

Lemma read_register32 i (s : machine W) : i <= 31 -> Iss.read_register i s = (Ret (arg32 s i), s).
Proof using Type.
  intros Hi. unfold Iss.read_register, read, gets, RegFile_read. unfold mbind, M_bind.
  destruct (Z.ltb_spec 31 i); [lia | done].
Qed.

Lemma read_register64 i (s : machine W) : i <= 31 -> Iss64.read_register i s = (Ret (arg64 s i), s).
Proof using Type.
  intros Hi. unfold Iss64.read_register, read, gets, RegFile_read. unfold mbind, M_bind.
  destruct (Z.ltb_spec 31 i); [lia | done].
Qed.

Lemma write_register32 v (s : machine W) : is_sint 32 v ->
  Iss.write_register x_a0 (uint64 v) s
  = if v <? 0 then (Fatal BadLexicalCast, s)
    else (Ret tt, Machine (set_regs (regs_set x_a0 v (regs (core s))) (core s)) (env s)).
Proof using Type.
  intros Hv. unfold is_sint in Hv. unfold Iss.write_register, lexical_cast_u32, mbind, M_bind. unfold uint64, uint.
  destruct (Z.ltb_spec v 0) as [Hn | Hp].
  - rewrite <- (Z.mod_add v 1) by done. rewrite Z.mod_small by lia.
    destruct (Z.ltb_spec (v + 1 * 2 ^ 64) (2 ^ 32)); [lia | done].
  - rewrite Z.mod_small by lia. destruct (Z.ltb_spec v (2 ^ 32)); [| lia]. cbn [mret M_ret].
    unfold read, gets, RegFile_write. change (negb (x_a0 <=? 31) || (x_a0 =? 0)) with false. cbv iota.
    unfold update, modify. assert (int32 v = v) as -> by (apply sint_id; [lia | done]). done.
Qed.

Lemma write_register64 v (s : machine W) : is_sint 32 v ->
  Iss64.write_register x_a0 (uint64 v) s
  = (Ret tt, Machine (set_regs (regs_set x_a0 v (regs (core s))) (core s)) (env s)).
Proof using Type.
  intros Hv. unfold is_sint in Hv. unfold Iss64.write_register, mbind, M_bind, read, gets, RegFile_write.
  change (negb (x_a0 <=? 31) || (x_a0 =? 0)) with false. cbv iota. unfold update, modify.
  assert (int64 (uint64 v) = v) as ->; [| done]. unfold int64, uint64. rewrite sint_uint by lia.
  apply sint_id; [lia |]. unfold is_sint. lia.
Qed.

(** The rule by which an answer reaches the program. *)
Lemma syscall_answer32 (s : machine W) ans w' : has_E_base_isa (csr_get (csr_regs (core s)) csrs.misa) = false ->
  number int32_t (arg32 s x_a7) (arg32 s x_a0) (arg32 s x_a1) (arg32 s x_a2) (env s) = (Ret ans, w') -> is_sint 32 ans ->
  rv32_execute_syscall s = if ans <? 0 then (Fatal BadLexicalCast, Machine (core s) w') else (Ret tt, answered ans s w').
Proof using Type.
  intros Hmisa Hn Ha. unfold rv32_execute_syscall, handle_syscall. cbn [if_syscall_register_index if_read_register if_write_register if_sys_exit rv32_core].
  unfold mbind, M_bind. unfold Iss.get_syscall_register_index. unfold mbind at 1, M_bind at 1. unfold csr_reg, read, gets at 1.
  rewrite Hmisa. cbn [mret M_ret]. rewrite !read_register32 by done. unfold in_env at 1. rewrite Hn.
  rewrite write_register32 by done. destruct (ans <? 0); [done |]. cbn [env core]. unfold in_env, sys, gets. cbn [env core].
  unfold answered. destruct (shall_exit (get_sys w')); [| done]. done.
Qed.

Lemma syscall_fails32 (s : machine W) f w' : has_E_base_isa (csr_get (csr_regs (core s)) csrs.misa) = false ->
  number int32_t (arg32 s x_a7) (arg32 s x_a0) (arg32 s x_a1) (arg32 s x_a2) (env s) = (Fatal f, w') ->
  rv32_execute_syscall s = (Fatal f, Machine (core s) w').
Proof using Type.
  intros Hmisa Hn. unfold rv32_execute_syscall, handle_syscall. cbn [if_syscall_register_index if_read_register if_write_register if_sys_exit rv32_core].
  unfold mbind, M_bind. unfold Iss.get_syscall_register_index. unfold mbind at 1, M_bind at 1. unfold csr_reg, read, gets at 1.
  rewrite Hmisa. cbn [mret M_ret]. rewrite !read_register32 by done. unfold in_env at 1. by rewrite Hn.
Qed.

Lemma syscall_answer64 (s : machine W) ans w' :
  number int64_t (arg64 s x_a7) (arg64 s x_a0) (arg64 s x_a1) (arg64 s x_a2) (env s) = (Ret ans, w') -> is_sint 32 ans ->
  rv64_execute_syscall s = (Ret tt, answered ans s w').
Proof using Type.
  intros Hn Ha. unfold rv64_execute_syscall, handle_syscall. cbn [if_syscall_register_index if_read_register if_write_register if_sys_exit rv64_core].
  unfold mbind, M_bind. cbn [mret M_ret]. rewrite !read_register64 by done. unfold in_env at 1. rewrite Hn.
  rewrite write_register64 by done. cbn [env core]. unfold in_env, sys, gets. cbn [env core].
  unfold answered. destruct (shall_exit (get_sys w')); [| done]. done.
Qed.
Section data.
Context (p : block) (m : list Z) (w : W).
Hypothesis Hmem : mem (get_sys w) = Some p.
Hypothesis Hm : get_heap w !! p = Some m.
Hypothesis Hsize : Z.of_nat (length m) < 2 ^ 63.
#[local] Set Default Proof Using "Type Hlaws Hmem Hm Hsize".

Lemma pointer_inside addr : 0 <= addr - mem_offset (get_sys w) < 2 ^ 63 ->
  guest_address_to_host_pointer (E := SimulationTrap) addr w = (Ret (p, addr - mem_offset (get_sys w)), w).
Proof.
  intros Hin. unfold guest_address_to_host_pointer, sys, gets, mbind, M_bind. rewrite Hmem.
  assert (int64 (addr - mem_offset (get_sys w)) = addr - mem_offset (get_sys w)) as ->; [| done].
  apply sint_id; [lia | unfold is_sint; lia].
Qed.

Lemma sys_write_spec fd buf count : let off := buf - mem_offset (get_sys w) in
  0 <= off -> 0 <= count -> off + count <= Z.of_nat (length m) ->
  sys_write (E := SimulationTrap) fd buf count w =
  let '(k, w') := host_write fd (take (Z.to_nat count) (drop (Z.to_nat off) m)) w in
  if k <? 0 then (Fatal AssertFailed, w') else (Ret (int32 k), w').
Proof.
  intros off Ho Hc Hb. unfold sys_write. unfold mbind at 1, M_bind at 1. rewrite pointer_inside by (subst off; lia).
  cbn [fst snd]. unfold mbind at 1, M_bind at 1. unfold on_heap.
  assert (Hr : heap_read (E := SimulationTrap) p off count (get_heap w) = (Ret (take (Z.to_nat count) (drop (Z.to_nat off) m)), get_heap w)).
  { unfold heap_read, gets, mbind, M_bind, id. rewrite Hm.
    assert (((0 <=? off) && (0 <=? count) && (off + count <=? Z.of_nat (length m))) = true) as ->; [| done].
    rewrite !andb_true_iff, !Z.leb_le. lia. }
  fold off. rewrite Hr, set_get_heap. unfold host, mbind, M_bind. destruct (host_write _ _ w) as [k w'].
  by destruct (k <? 0).
Qed.

Lemma sys_read_spec fd buf count k data w' : let off := buf - mem_offset (get_sys w) in
  host_read fd count w = (k, data, w') -> get_heap w' !! p = Some m -> 0 <= off -> off + Z.of_nat (length data) <= Z.of_nat (length m) ->
  0 <= k -> sys_read (E := SimulationTrap) fd buf count w
  = (Ret (int32 k), set_heap (<[p := list_inserts (Z.to_nat off) data m]> (get_heap w')) w').
Proof.
  intros off Hr Hm' Ho Hb Hk. unfold sys_read. unfold mbind at 1, M_bind at 1. rewrite pointer_inside by (subst off; lia).
  cbn [fst snd]. unfold host, mbind, M_bind. rewrite Hr. unfold on_heap, heap_write, gets, modify, mbind, M_bind, id. fold off. rewrite Hm'.
  assert (((0 <=? off) && (off + Z.of_nat (length data) <=? Z.of_nat (length m))) = true) as ->
    by (rewrite andb_true_iff, !Z.leb_le; lia).
  destruct (Z.leb_spec 0 k); [done | lia].
Qed.
End data.

Lemma lexical_cast_int_spec v (w : W) : 0 <= v ->
  lexical_cast_int (E := SimulationTrap) v w = if v <? 2 ^ 31 then (Ret v, w) else (Fatal BadLexicalCast, w).
Proof using Type.
  intros Hv. unfold lexical_cast_int. assert ((- 2 ^ 31 <=? v) = true) as -> by (apply Z.leb_le; lia). cbn [andb].
  by destruct (v <? 2 ^ 31).
Qed.

Lemma sys_brk_spec addr (w : W) : 0 < addr ->
  let h := get_sys w in let w' := set_sys (set_max_heap (Z.max (max_heap h) addr) (set_hp addr h)) w in
  sys_brk (E := SimulationTrap) addr w = if addr <? 2 ^ 31 then (Ret addr, w') else (Fatal BadLexicalCast, w').
Proof.
  intros Ha h w'. unfold sys_brk. destruct (Z.eqb_spec addr 0); [lia |]. unfold mbind, M_bind, update_sys, modify, sys, gets.
  rewrite get_set_sys. cbn [max_heap hp set_hp]. fold h.
  assert (Hw : when (E := SimulationTrap) (max_heap h <? addr)
      (fun w0 => (Ret tt, set_sys (set_max_heap addr (get_sys w0)) w0)) (set_sys (set_hp addr h) w) = (Ret tt, w')).
  { subst w'. destruct (Z.ltb_spec (max_heap h) addr); cbn [when].
    - rewrite get_set_sys, set_set_sys, Z.max_r by lia. done.
    - rewrite Z.max_l by lia. unfold skip, mret, M_ret. by destruct h. }
  rewrite Hw. apply lexical_cast_int_spec. lia.
Qed.

(** C39: the system calls of a program.  On the 32-bit core: a write gives the host
    exactly the bytes of guest memory it names, and the program gets the number of
    bytes written in a0; a read puts the bytes of the host where the program wants
    them and changes nothing else in memory; exit ends the core; brk moves the heap
    pointer, answers with it and keeps the largest one.  But a call of the host that
    fails, and a heap above 2^31, never reach the program: the negative answer is
    widened to 64 bits, and the register does not take it.  On the 64-bit core the
    program gets a negative answer as it is. *)
Theorem syscall_emulation (s : machine W) p m :
  has_E_base_isa (csr_get (csr_regs (core s)) csrs.misa) = false ->
  mem (get_sys (env s)) = Some p -> get_heap (env s) !! p = Some m -> Z.of_nat (length m) < 2 ^ 63 ->
  shall_exit (get_sys (env s)) = false ->
  let h := get_sys (env s) in let a := arg32 s in let n := a x_a7 in
  let fd := int32 (a x_a0) in let off := a x_a1 - mem_offset h in
  (forall k w', n = SYS_write -> 0 <= off -> off + a x_a2 <= Z.of_nat (length m) ->
   host_write fd (take (Z.to_nat (a x_a2)) (drop (Z.to_nat off) m)) (env s) = (k, w') -> 0 <= k < 2 ^ 31 ->
   rv32_execute_syscall s = (Ret tt, answered k s w')) /\
  (forall k data w', n = SYS_read -> host_read fd (a x_a2) (env s) = (k, data, w') -> get_heap w' !! p = Some m ->
   0 <= off -> off + Z.of_nat (length data) <= Z.of_nat (length m) -> 0 <= k < 2 ^ 31 ->
   rv32_execute_syscall s
   = (Ret tt, answered k s (set_heap (<[p := list_inserts (Z.to_nat off) data m]> (get_heap w')) w'))) /\
  (n = SYS_exit -> rv32_execute_syscall s
   = (Ret tt, Machine (set_shall_exit true (set_regs (regs_set x_a0 0 (regs (core s))) (core s))) (set_sys (request_exit h) (env s)))) /\
  (n = SYS_brk -> 0 < a x_a0 ->
   let w' := set_sys (set_max_heap (Z.max (max_heap h) (a x_a0)) (set_hp (a x_a0) h)) (env s) in
   (a x_a0 < 2 ^ 31 -> rv32_execute_syscall s
    = (Ret tt, Machine (set_regs (regs_set x_a0 (a x_a0) (regs (core s))) (core s)) w')) /\
   (2 ^ 31 <= a x_a0 -> rv32_execute_syscall s = (Fatal BadLexicalCast, Machine (core s) w'))) /\
  (forall ans w', execute_syscall_number (E := SimulationTrap) int32_t n (a x_a0) (a x_a1) (a x_a2) (env s) = (Ret ans, w') ->
   - 2 ^ 31 <= ans < 0 -> rv32_execute_syscall s = (Fatal BadLexicalCast, Machine (core s) w')) /\
  (forall ans w', execute_syscall_number (E := SimulationTrap) int64_t (arg64 s x_a7) (arg64 s x_a0) (arg64 s x_a1) (arg64 s x_a2)
     (env s) = (Ret ans, w') -> - 2 ^ 31 <= ans < 0 -> rv64_execute_syscall s = (Ret tt, answered ans s w')).
Proof.
  intros Hmisa Hmem Hm Hsize Hexit h a n fd off. change (shall_exit h = false) in Hexit.
  assert (Harg : forall i, 0 <= a i < 2 ^ 32) by (intros i; apply (uint_range 32); lia).
  assert (Hnum : forall k w', number int32_t n (a x_a0) (a x_a1) (a x_a2) (env s) = (Ret k, w') -> is_sint 32 k ->
    rv32_execute_syscall s = if k <? 0 then (Fatal BadLexicalCast, Machine (core s) w') else (Ret tt, answered k s w')).
  { intros k w'. by apply syscall_answer32. }
  assert (Hpos : forall k, 0 <= k < 2 ^ 31 -> (k <? 0) = false /\ int32 k = k /\ is_sint 32 k).
  { intros k Hk. split; [apply Z.ltb_ge; lia |]. assert (is_sint 32 k) by (unfold is_sint; lia). split; [by apply sint_id |done]. }
  split; [| split; [| split; [| split; [| split]]]].
  - intros k w' Hn Ho Hb Hw Hk. destruct (Hpos k Hk) as (H1 & H2 & H3). rewrite (Hnum k w'); [by rewrite H1 | | done].
    rewrite Hn. change (number int32_t SYS_write) with (fun x => sys_write (E := SimulationTrap) (int32 x)). cbv beta.
    rewrite (sys_write_spec p m (env s)) by (done || apply Harg). fold h off fd. by rewrite Hw, H1, H2.
  - intros k data w' Hn Hr Hm' Ho Hb Hk. destruct (Hpos k Hk) as (H1 & H2 & H3).
    rewrite (Hnum k (set_heap (<[p := list_inserts (Z.to_nat off) data m]> (get_heap w')) w')); [by rewrite H1 | | done].
    rewrite Hn. change (number int32_t SYS_read) with (fun x => sys_read (E := SimulationTrap) (int32 x)). cbv beta.
    rewrite <- H2 at 1. apply (sys_read_spec p m (env s)); (done || lia).
  - intros Hn. rewrite (Hnum 0 (set_sys (request_exit h) (env s))); [| by rewrite Hn | unfold is_sint; lia].
    unfold answered. rewrite get_set_sys. done.
  - intros Hn Ha w'. pose proof (sys_brk_spec (a x_a0) (env s) Ha) as Hb. cbv zeta in Hb. fold h w' in Hb. split; intros Hlt.
    + destruct (Hpos (a x_a0) ltac:(lia)) as (H1 & H2 & H3). rewrite (Hnum (a x_a0) w'); [| | done].
      * rewrite H1. unfold answered. subst w'. rewrite get_set_sys. cbn [shall_exit set_max_heap set_hp]. by rewrite Hexit.
      * rewrite Hn. change (number int32_t SYS_brk) with (fun x (_ _ : Z) => sys_brk (E := SimulationTrap) x). cbv beta.
        rewrite Hb. destruct (Z.ltb_spec (a x_a0) (2 ^ 31)); [done | lia].
    + apply syscall_fails32; [done |]. change (arg32 s x_a7) with n. rewrite Hn.
      change (number int32_t SYS_brk) with (fun x (_ _ : Z) => sys_brk (E := SimulationTrap) x). cbv beta. fold a.
      rewrite Hb. destruct (Z.ltb_spec (a x_a0) (2 ^ 31)); [lia | done].
  - intros ans w' Hn Ha. rewrite (Hnum ans w' Hn) by (unfold is_sint; lia). by destruct (Z.ltb_spec ans 0); [| lia].
  - intros ans w' Hn Ha. apply syscall_answer64; [done | unfold is_sint; lia].
Qed.
End theorems.

(** ** A bench: a world with one file *)

(** [b_out] is what has been written, [b_in] what is left to read. *)
Record sys_bench : Type := mkSysBench { b_sys : SyscallHandler; b_heap : heap; b_out : list Z; b_in : list Z }.

#[export] Instance sys_bench_host : sys_host sys_bench := {
  get_sys := b_sys;
  set_sys h w := mkSysBench h (b_heap w) (b_out w) (b_in w);
  get_heap := b_heap;
  set_heap h w := mkSysBench (b_sys w) h (b_out w) (b_in w);
  host_write _ data w := (Z.of_nat (length data), mkSysBench (b_sys w) (b_heap w) (b_out w ++ data) (b_in w));
  host_read _ n w := (Z.of_nat (length (take (Z.to_nat n) (b_in w))), take (Z.to_nat n) (b_in w),
    mkSysBench (b_sys w) (b_heap w) (b_out w) (drop (Z.to_nat n) (b_in w)));
  host_lseek _ _ _ w := (-1, w);
  host_open _ _ _ w := (3, w);
  host_close _ w := (0, w);
  host_fstat _ w := (-1, mkStat 0 0 0 0 0 0 0 0 0 0 (0, 0) (0, 0) (0, 0), w);
  host_gettimeofday w := (0, (0, 0), w);
  host_time w := (0, w)
}.

#[export] Instance sys_bench_laws : sys_host_laws sys_bench.
Proof. constructor; [done | done | by intros []]. Qed.

(** The core with the registers a7, a0, a1 and a2, and eight bytes of memory at
    0x80000000. *)
Definition sys_bench_start (a7 a0 a1 a2 : Z) : machine sys_bench :=
  Machine (set_regs (regs_set x_a7 a7 (regs_set x_a0 a0 (regs_set x_a1 a1 (regs_set x_a2 a2 RegFile_init)))) (Iss.ISS_new 0 false))
    (mkSysBench (syscall_init 0%nat 0x80000000 0x80000004 SyscallHandler_new) {[ 0%nat := [1; 2; 3; 4; 5; 6; 7; 8] ]} [] [9; 10]).

(** A write of three bytes, a read of up to four, and a call that fails. *)
Lemma syscall_emulation_witness :
  (exists s', rv32_execute_syscall (sys_bench_start SYS_write 1 (int32 0x80000002) 3) = (Ret tt, s') /\
     b_out (env s') = [3; 4; 5] /\ regs_get (regs (core s')) x_a0 = 3) /\
  (exists s', rv32_execute_syscall (sys_bench_start SYS_read 0 (int32 0x80000002) 4) = (Ret tt, s') /\
     b_heap (env s') !! 0%nat = Some [1; 2; 9; 10; 5; 6; 7; 8] /\ regs_get (regs (core s')) x_a0 = 2) /\
  (exists s', rv32_execute_syscall (sys_bench_start SYS_lseek 3 0 0) = (Fatal BadLexicalCast, s')).
Proof.
  pose proof (fun a7 a0 a1 a2 H => syscall_emulation (sys_bench_start a7 a0 a1 a2) 0%nat [1; 2; 3; 4; 5; 6; 7; 8] H eq_refl eq_refl
    ltac:(done) eq_refl) as H. split; [| split].
  - destruct (H SYS_write 1 (int32 0x80000002) 3 ltac:(by vm_compute)) as [Hw _]. eexists. split.
    + eapply (Hw 3); [by vm_compute | by vm_compute | by vm_compute | reflexivity | lia].
    + split; by vm_compute.
  - destruct (H SYS_read 0 (int32 0x80000002) 4 ltac:(by vm_compute)) as (_ & Hr & _). eexists. split.
    + eapply (Hr 2 [9; 10]); [by vm_compute | reflexivity | reflexivity | by vm_compute | by vm_compute | lia].
    + split; by vm_compute.
  - destruct (H SYS_lseek 3 0 0 ltac:(by vm_compute)) as (_ & _ & _ & _ & Hl & _). eexists.
    eapply (Hl (-1)); [reflexivity | lia].
Defined.
